(* ===== verification/_CoqProject ===== *)
-Q . S2P
Prelude.v
Float64.v
Json.v
States.v
Transitions.v
Timer.v
Schedules.v
Model.v
DepGraph.v
Events.v
Unique.v
RuleMatching.v
RuleTemplates.v
Metrics.v
Stream.v
ActiveIndex.v
Resources.v
WorkQueue.v
Pool.v
PoolLaws.v
Jitter.v
GroupCommit.v
Tables.v
Store.v
JsonCodec.v
Reader.v
StoreAdmin.v
StoreRegistry.v
Integrity.v
RuleReader.v
Replay.v
Pages.v
Access.v
Validate.v
Compare.v
Fingerprint.v
Backups.v
AdminLaws.v
App.v
Retention.v
Scheduler.v
Health.v
Waits.v
Dispatch.v
RulesEngine.v
ApiRuns.v
ApiEngine.v
ApiSchedules.v
ApiBackfills.v
ApiObserve.v
ApiWorkers.v
Mcp.v
ApiSettings.v
ApiAgents.v
Server.v
ApiFlows.v
Session.v
Samples.v
RuleLaws.v
HandlerLaws.v
ServerLaws.v
ApiFrames.v
SessionLaws.v
SchedulerLaws.v
Answers.v
Leases.v
Hazards.v
ApiHazards.v
ApiLaws.v
McpLaws.v
