(* ===== verification/Prelude.v ===== *)
(** * Verification of cereyan's Rust core

    Cereyan is an orchestrator for Python data pipelines: a SQLite store, a
    state machine of runs, a scheduler, a rules engine and a supervisor of
    engine processes, behind an HTTP and an MCP server, written in Rust under
    [src/crates/].  This library models the parts that carry its own logic as
    executable definitions and proves what makes each of them correct.

    ** The program and how its parts meet

    A run moves through states by proposals that [core/src/rules.rs] accepts,
    rewrites or rejects; the store's single writer thread applies them
    ([store/src/writer.rs]) and the server mirrors every change in an in-memory
    index of active runs ([server/src/index.rs]).  Schedules
    ([core/src/schedule.rs]) say when runs are due; one timer heap
    ([server/src/timer.rs]) wakes the scheduler for them.  A due run enters the
    supervisor's queue ([server/src/supervisor.rs]), which hands it to an
    engine when the resources it needs are free.  Events of runs are matched
    against user rules ([rules/src/lib.rs], names in [core/src/events.rs]),
    whose guards limit how often their actions run.

    The server ([server/src/state.rs]) ties them together.  A transition updates
    the store, the index, the supervisor and the timer, publishes the run and
    records an event; the event wakes runs that wait for it
    ([server/src/waits.rs]) and fires rules ([server/src/rules.rs]); the end of
    a run triggers the flows after it ([server/src/dispatch.rs]) and the next
    round of a continuous schedule ([server/src/scheduler.rs]); each of these
    can start a transition again.

    From outside come the requests of people ([server/src/api/]), of engines
    and remote workers ([api/engine.rs], [api/workers.rs]) and of agents
    ([server/src/mcp.rs]).  Each first passes the guards of [server/src/guard.rs],
    [auth.rs] and [base_path.rs].  A periodic pass ([server/src/retention.rs])
    deletes what is old and copies the store.

    ** The files

    The ground everything stands on:

    - [Prelude] (this file): machine integers, results, options, Rust's string
      functions, notations, hints and the list lemmas the components share.
    - [Float64], [Json]: the language's [f64] and [serde_json]'s values.

    The core crate and the rules crate:

    - [States]: [core/src/state.rs], the state types, named states and the
      constructors of [State].
    - [Transitions]: [core/src/rules.rs], [propose], its outcomes and the
      counters of a run; histories of a run as lists of proposals.
    - [Schedules]: [core/src/schedule.rs], compilation, validation and the
      walks over the fires of interval, cron and rrule schedules.
    - [Model]: the records of [core/src/model.rs] the components exchange.
    - [Events]: [core/src/events.rs], the catalogue of event names, the check of
      names in rules and the suggestion by edit distance.
    - [Unique]: [core/src/unique.rs], unique keys and placeholder templates.
    - [RuleMatching], [RuleTemplates]: [rules/src/lib.rs], matching, guards and
      the index; rendering of actions and validation of specs.

    The store:

    - [GroupCommit]: [store/src/writer.rs], the writer thread with its batches,
      transactions, savepoints and answers.
    - [Tables], [Store]: [store/src/writer.rs] and [store/src/row.rs], the
      tables, and the commands that create runs and task runs, record
      transitions, logs, events, effects and artifacts, and apply the reports
      of engines.
    - [StoreAdmin], [StoreRegistry]: the other commands of the writer, on flows,
      schedules, skips, backfills, messages, task state, rules, expectations,
      retention and reset; and on workers, agents, leases, attributes,
      checkpoints and projects ([store/src/workers.rs], [agents.rs],
      [manage.rs]).
    - [Integrity]: every command as one type, and the foreign keys they keep;
      [AdminLaws]: skips, retention, messages and reset.
    - [JsonCodec]: a JSON printer and parser with the laws the store relies on,
      the instance the examples run with.
    - [Reader], [RuleReader], [Replay], [Pages]: [store/src/read.rs] and
      [store/src/row.rs], the reads of the server's own logic, of the rules,
      of what a new attempt replays, and of the filtered and paged lists.
    - [Backups]: [store/src/manage.rs] and [store/src/migrations.rs], the names
      and the number of the copies, and the upgrade of the schema.

    The parts of the server:

    - [Timer]: [server/src/timer.rs], the heap with lazy deletion, the side
      indexes and the compaction, against an ordered list of pending events.
    - [Metrics]: [server/src/metrics.rs], histograms and the ring of samples.
    - [Stream]: [server/src/stream.rs], the ring a client that reconnects reads.
    - [ActiveIndex]: [server/src/index.rs], every operation and query.
    - [Resources], [WorkQueue]: [server/src/supervisor.rs], the accounting of
      named resources; the queue, the polls of local and remote engines, the
      hand-off of work and its undoing.
    - [Pool], [PoolLaws]: [server/src/supervisor.rs], the sizing of the engine
      pool, workers, adoption and the snapshots; the bound of the pool over
      interleaved calls.
    - [Jitter]: the hash that spreads fires, in [server/src/scheduler.rs].
    - [DepGraph]: the graph of dependent flows and its cache, in
      [server/src/state.rs].
    - [Access]: [server/src/guard.rs], [auth.rs], [base_path.rs] and
      [custom.rs], the layers before the handlers.
    - [Validate], [Compare], [Fingerprint]: [server/src/validate.rs],
      parameters against their schema; [compare.rs], two runs side by side;
      [fingerprint.rs], the hash of a module's code and its cache.

    The server as a whole:

    - [App]: [server/src/state.rs] and [server/src/events.rs], the server's state
      as one record, and transitions and events with their side effects.
    - [Scheduler], [Waits], [Dispatch], [RulesEngine], [Health], [Retention]: the
      file of the server of that name, as functions on [App].
    - [ApiRuns], [ApiEngine], [ApiSchedules], [ApiBackfills], [ApiObserve],
      [ApiWorkers], [ApiSettings], [ApiAgents], [ApiFlows]: the handlers of
      [server/src/api/]; [Mcp]: those of [server/src/mcp.rs].
    - [Server]: the timer events, the start, the restart, the reconciliation,
      and the knot that closes the handlers' recursion.
    - [Session]: whatever reaches the server, as one type, and its answer.
    - [Samples]: concrete instances and small servers for the examples.

    Theorems over several of them:

    - [HandlerLaws], [ServerLaws], [ApiFrames], [SessionLaws]: what every handler
      and every request keeps, and sessions of the whole server.
    - [RuleLaws], [SchedulerLaws], [Answers], [Leases], [ApiLaws]: which rules
      fire, which fires get runs, that a pause takes one answer, that a lease
      shuts out its predecessor, what a retry executes again.
    - [Hazards], [ApiHazards], [McpLaws]: where handlers and requests do what
      they do not mean to, and the examples of MCP, settings and agents.

    ** What the theorems show

    - Runs: a terminal state ends a history, every recorded state was entered
      by an allowed edge, [propose] answers as documented on every branch, and
      the counters and times are those of the history.
    - Time: the timer hands out exactly what an ordered list of pending events
      would and never an event that was removed; the sleeper is never late; the
      walks list exactly the fires of a cron in a window, forwards and
      backwards; a wall-clock interval's next fire is strictly later across
      daylight-saving shifts; what validates never errors.
    - Index: through any sequence of reported changes it holds exactly the
      non-terminal runs and exact counts, and its projections agree.
    - Queue and resources: what is in use is what is leased and stays within
      the totals; the queue and its positions stay consistent; an engine gets
      the first run in line it can start; an aborted hand-off puts the run back
      where it was.
    - Store: the group commit is atomic per command through failing commands,
      failing commits and rollbacks, and answers every command in order; the
      tables keep exactly the histories the transition rules allow, one run per
      fire and per unique key, and a report delivered again changes nothing.
    - Rules: a rate cap holds in every window, once-per-run holds, the index
      misses no indexable rule, validated specs are sound, and the check of a
      new rule finds a loop exactly where there is one.
    - Integrity: no sequence of commands leaves a dangling reference; retention
      deletes only what it may, and a pass ends with nothing left to delete; a
      claimed message is answered the same for ever.
    - Copies and upgrades: an upgrade takes a database to the newest schema or
      leaves it as it was; the date in a copy's name is the calendar's.
    - Server: whatever reaches it, in whatever order and however deep its
      handlers call one another, it changes the store only by writer commands
      and leaves every lock as it found it; an answered pause takes no second
      answer; an event fires only rules that match and are below their bound.
    - Schedules on the server: the look-ahead makes runs for exactly the next
      fires; a catch-up picks the latest fires nothing answers for; the jitter
      hash ends within two rounds.
    - Pool and graph: overlapping calls never exceed the pool's size; the graph
      of dependents is the scan of the flows, and its cache is never stale.
    - Requests: an engine whose run was handed to another is turned away; a
      retry executes again exactly what depends on the failed calls, and replays
      the latest stored result of the others; the pages of a list show every
      row once; a client that reconnects reads exactly what it missed, or is
      told that it is gone; the range of a backfill is exact; a flow fails its
      health check exactly when it is stale or missed its deadline.
    - Access: on a server reachable from the network, no request without a
      credential reaches a protected path; with a read-only endpoint, no message
      of an agent changes anything but the table of sessions.
    - Agents and settings: the allowlist admits exactly what its patterns say,
      and an accepted agent can be run; settings survive a restart.
    - Comparison and fingerprints: the first divergence of two runs is exact; a
      cached fingerprint is that of the files as they are, as long as a change
      shows in the time of a file.
    - Text: templates and keys render by filling their placeholders, period
      keys are windows, the two-row dynamic program is the edit distance, the
      glob matcher decides its language.

    Some theorems record behaviour the code's comments do not intend: an
    interval that repeats a fire, wildcards the rule index misses, duplicate
    needs that exceed a total, an error message that keeps a number, pitfalls
    of unique keys, an artifact answered with the id of another, marks that
    outlive a reset; in [Hazards] a lock taken twice, a recursion nothing
    bounds, a panic of the catch-up, needs lost by a restart and started runs
    deleted with the unstarted; in [ApiHazards] a lease reborn with a deleted
    run's id, a retry in the queue before its results are, a cancelled backfill
    that leaves a run active and timers lost by a failed reset; in [McpLaws] a
    tool that ignores a reset under way and an agent that takes over a flow of
    its name.

    ** Conventions

    Integers are [Z] with the wrap of their width written where an operation
    can leave it, as in a release build; counters of rows, runs and engines are
    left without a width where the file says so.  Clocks, process ids, file
    times and random numbers are arguments.  A mutex-guarded structure is its
    state passed along, since every modelled operation holds its lock from
    start to end; the sizing of the pool and the graph's cache, which do not,
    are steps that interleave, and the two locks the handlers hold across calls
    are part of the state, so that taking one twice is a deadlock.  The threads
    a handler starts are tasks that run later.  The clock stands still while a
    handler runs.  A [HashMap] is a [gmap] where no result depends on its
    order; a [BTreeMap] and a binary heap are their ordered lists.  Strings are
    bytes, and case and space functions are the ASCII ones.

    Code outside the repository is a class of parameters with its documented
    laws as a second class: time zones and cron and rrule parsers
    ([Schedules.ScheduleEnv], [TzLaws], [CronLaws]), the template engine and the
    derived serializers ([RuleTemplates.JinjaEnv]), the JSON printer (an
    argument in [Unique]), SQLite's transactions ([GroupCommit.SqliteOps],
    [SqliteLaws]), the text of JSON columns ([Tables.StoreEnv], [JsonCodec.JsonLaws]), the
    rows serde reads ([Reader.ReaderEnv], [RuleReader.RowEnv]), processes
    ([Pool.PoolEnv], [Server.HostEnv]), the configuration and derived readers of
    the server ([App.ServerEnv]), the network actions of rules
    ([RulesEngine.ActionEnv]), the http crate ([Access.HttpEnv], [UriLaws]),
    dates and durations as text ([ApiBackfills.RangeEnv], [Health.FormatEnv]),
    files of modules ([ApiEngine.ModuleEnv]), encryption
    ([ApiObserve.SecretEnv]) and what serde reads of a tool call, the settings
    and an agent ([Mcp.McpEnv], [ApiSettings.SettingsEnv],
    [ApiAgents.AgentEnv]).  The file system and SHA-256 are arguments in
    [Fingerprint], the scripts of the migrations in [Backups].
    Each has a concrete instance at which the theorems are applied.  The
    resources are written over the class [Resources.Amount], with the program's
    [f64] and exact whole amounts as instances.

    Recursion that is not structural carries fuel: the loops over a template
    get its length, and lemmas show it enough; the search for a free slot gets
    the number of taken ones, the search for a free name of a copy one more than
    the files; a loop of retention one round more than the rows; the search for
    a loop of rules two more than the edges; all proved enough.  The
    wall-clock search has the bound its source has.
    The walk of crash chains and ancestors has the depth of its query.  The
    look-ahead gets the room below its hundred runs, a carried skip the depth
    [MAX_SKIP_DEPTH] of the source, and the jitter loop two rounds, which are
    proved enough.  The handlers call one another through [App.Ops], and
    [Server.ops] closes the knot at any depth; the theorems on the server hold
    for every depth, and running out of it is recorded as [OutOfFuel].
    The rounds of the writer thread are a list of batch sizes, at least one per
    command in the theorem that all are answered.

    ** Not modelled

    Starting, watching and killing processes; the network actions of rules
    (webhooks and mail); the HTTP and server-sent-event transports and the
    custom routes' Python side; the opening of the store's file, its locks and
    its secrets; result files on disk; the pages of the environment, the
    vocabulary and the settings, the statistics of the dashboard and the search
    of logs; the text of metrics and of descriptions; the rewriting of
    [cereyan.toml]; the dry run of a rule; the Python bindings and the
    user interface.  These are input and output, or glue over libraries, or
    SQL that only a page shows. *)

From stdpp Require Export gmap strings list pretty sorting.
From Stdlib Require Export ZArith Lia ZifyBool.
From stdpp Require Export ssreflect.
From Stdlib Require Import Ascii.

#[global] Set Default Goal Selector "!".
#[global] Open Scope Z_scope.
#[export] Set Warnings "-clear-no-such-hyp".

Create HintDb cereyan.
Create Rewrite HintDb cereyan.

(** ** Machine integers

    The crates are shipped in release mode, where Rust's integer arithmetic
    wraps around.  A [w]-bit integer is a [Z] in its range; every operation
    that can leave the range is written with the wrap. *)

Definition two64 : Z := 18446744073709551616.
Definition two63 : Z := 9223372036854775808.
Definition two32 : Z := 4294967296.
Definition i64_MAX : Z := 9223372036854775807.
Definition i64_MIN : Z := -9223372036854775808.
Definition u64_MAX : Z := 18446744073709551615.

Definition wrap_i64 (z : Z) : Z := (z + two63) mod two64 - two63.
Definition wrap_u64 (z : Z) : Z := z mod two64.
Definition wrap_u32 (z : Z) : Z := z mod two32.

Definition i64_add (a b : Z) : Z := wrap_i64 (a + b).
Definition i64_sub (a b : Z) : Z := wrap_i64 (a - b).
Definition i64_mul (a b : Z) : Z := wrap_i64 (a * b).
Definition i64_neg (a : Z) : Z := wrap_i64 (- a).
Definition i64_abs (a : Z) : Z := wrap_i64 (Z.abs a).

Definition in_i64 (z : Z) : Prop := i64_MIN ≤ z ≤ i64_MAX.

Lemma wrap_i64_id z : in_i64 z → wrap_i64 z = z.
Proof.
  rw /in_i64 /wrap_i64 /i64_MIN /i64_MAX /two63 /two64. intros Hz.
  rw Z.mod_small; lia.
Qed.

Lemma wrap_i64_range z : in_i64 (wrap_i64 z).
Proof.
  rw /in_i64 /wrap_i64 /i64_MIN /i64_MAX /two63.
  pose proof (Z.mod_pos_bound (z + 9223372036854775808) two64) as H.
  rw /two64 in H |- *. lia.
Qed.

(** ** Results: [Result<T, E>] *)

Inductive result (A E : Type) : Type :=
| Ok (a : A)
| Err (e : E).
Arguments Ok {A E} _.
Arguments Err {A E} _.

Declare Scope result_scope.
Delimit Scope result_scope with result.
Notation "'let?' x ':=' c 'in' k" :=
  (match c with Ok x => k | Err e => Err e end)
  (at level 10, x pattern, c at level 100, k at level 200) : result_scope.
#[global] Open Scope result_scope.

Definition is_ok {A E} (r : result A E) : bool :=
  match r with Ok _ => true | Err _ => false end.

Definition is_none {A} (o : option A) : bool :=
  match o with Some _ => false | None => true end.
Definition is_some {A} (o : option A) : bool := negb (is_none o).

(** [Option::filter] *)
Definition opt_filter {A} (p : A → bool) (o : option A) : option A :=
  match o with Some a => if p a then Some a else None | None => None end.

(** [Option::and_then] *)
Definition and_then {A B} (o : option A) (f : A → option B) : option B :=
  match o with Some a => f a | None => None end.

(** [Option::or_else] *)
Definition or_else {A} (o k : option A) : option A :=
  match o with Some a => Some a | None => k end.

#[global] Arguments String.append !_ _ /.

(** ** Strings

    A Rust [str] is its sequence of bytes.  The functions below are the ones
    the crates use; a character test on an ASCII character is a byte test.
    [trim] and the case conversion are the ASCII ones: Unicode white space
    and letters beyond ASCII are left as they are. *)

Notation "a =?s b" := (String.eqb a b) (at level 70, no associativity).

Fixpoint str_len (s : string) : nat :=
  match s with EmptyString => O | String _ s => S (str_len s) end.

Definition str_is_empty (s : string) : bool :=
  match s with EmptyString => true | _ => false end.

(** [str::starts_with] and [str::strip_prefix] *)
Fixpoint strip_prefix (p s : string) : option string :=
  match p, s with
  | EmptyString, _ => Some s
  | String a p', String b s' => if Ascii.eqb a b then strip_prefix p' s' else None
  | String _ _, EmptyString => None
  end.

Definition starts_with (s p : string) : bool := is_some (strip_prefix p s).

(** [str::strip_suffix] with a one-character pattern *)
Fixpoint strip_suffix_char (c : ascii) (s : string) : option string :=
  match s with
  | EmptyString => None
  | String a EmptyString => if Ascii.eqb a c then Some EmptyString else None
  | String a s' => String a <$> strip_suffix_char c s'
  end.

Definition ends_with_char (s : string) (c : ascii) : bool :=
  is_some (strip_suffix_char c s).

(** [str::contains(char)] *)
Fixpoint contains_char (c : ascii) (s : string) : bool :=
  match s with
  | EmptyString => false
  | String a s' => Ascii.eqb a c || contains_char c s'
  end.

(** [str::find(char)] with the two pieces around it: the text before the
    first [c] and the text after it. *)
Fixpoint split_once (c : ascii) (s : string) : option (string * string) :=
  match s with
  | EmptyString => None
  | String a s' =>
      if Ascii.eqb a c then Some (EmptyString, s')
      else match split_once c s' with
           | Some (b, r) => Some (String a b, r)
           | None => None
           end
  end.

(** [str::find(&str)] with the two pieces around it. *)
Fixpoint split_once_str (p s : string) : option (string * string) :=
  match strip_prefix p s with
  | Some r => Some (EmptyString, r)
  | None =>
      match s with
      | EmptyString => None
      | String a s' =>
          match split_once_str p s' with
          | Some (b, r) => Some (String a b, r)
          | None => None
          end
      end
  end.

(** [s.split(c).next().unwrap_or("")]: the text before the first [c]. *)
Fixpoint first_segment (c : ascii) (s : string) : string :=
  match s with
  | EmptyString => EmptyString
  | String a s' => if Ascii.eqb a c then EmptyString else String a (first_segment c s')
  end.

(** [str::trim_end_matches(pred)] *)
Fixpoint trim_end_matches (p : ascii → bool) (s : string) : string :=
  match s with
  | EmptyString => EmptyString
  | String a s' =>
      match trim_end_matches p s' with
      | EmptyString => if p a then EmptyString else String a EmptyString
      | t => String a t
      end
  end.

Fixpoint trim_start_matches (p : ascii → bool) (s : string) : string :=
  match s with
  | EmptyString => EmptyString
  | String a s' => if p a then trim_start_matches p s' else s
  end.

(** ASCII white space: tab, line feed, vertical tab, form feed, carriage
    return and the space. *)
Definition is_white_space (a : ascii) : bool :=
  let n := nat_of_ascii a in
  ((9 <=? n)%nat && (n <=? 13)%nat) || (n =? 32)%nat.

Definition trim (s : string) : string :=
  trim_end_matches is_white_space (trim_start_matches is_white_space s).

Definition ascii_lower (a : ascii) : ascii :=
  let n := nat_of_ascii a in
  if ((65 <=? n)%nat && (n <=? 90)%nat) then ascii_of_nat (n + 32) else a.

Fixpoint to_ascii_lowercase (s : string) : string :=
  match s with
  | EmptyString => EmptyString
  | String a s' => String (ascii_lower a) (to_ascii_lowercase s')
  end.

Definition eq_ignore_ascii_case (a b : string) : bool :=
  to_ascii_lowercase a =?s to_ascii_lowercase b.

Fixpoint chars (s : string) : list ascii :=
  match s with EmptyString => [] | String a s' => a :: chars s' end.

(** [i64::to_string]: the decimal rendering, injective by stdpp's [pretty]. *)
Definition dec (z : Z) : string := pretty z.

Lemma dec_inj a b : dec a = dec b → a = b.
Proof. apply (inj pretty). Qed.

Lemma str_eqb_eq a b : (a =?s b) = true ↔ a = b.
Proof. apply String.eqb_eq. Qed.

Lemma str_eqb_neq a b : (a =?s b) = false ↔ a ≠ b.
Proof. apply String.eqb_neq. Qed.

Lemma str_eqb_refl a : (a =?s a) = true.
Proof. apply String.eqb_refl. Qed.

Lemma strip_prefix_Some p s r : strip_prefix p s = Some r ↔ s = p +:+ r.
Proof.
  revert s; induction p as [|a p IH]; intros s; simpl.
  - split; [by intros [= ->] | by intros ->].
  - destruct s as [|b s]; [done|].
    destruct (Ascii.eqb_spec a b) as [->|Hne].
    + rw IH. split; [by intros -> | by intros [= ->]].
    + split; [done | intros [= -> ?]; done].
Qed.

Lemma starts_with_spec s p : starts_with s p = true ↔ ∃ r, s = p +:+ r.
Proof.
  rw /starts_with /is_some. destruct (strip_prefix p s) as [r|] eqn:E; simpl.
  - apply strip_prefix_Some in E. naive_solver.
  - split; [done|]. intros [r Hr]. apply strip_prefix_Some in Hr. congruence.
Qed.

Lemma starts_with_app p r : starts_with (p +:+ r) p = true.
Proof. apply starts_with_spec; eauto. Qed.

Lemma app_assoc_s (a b c : string) : (a +:+ b) +:+ c = a +:+ (b +:+ c).
Proof. induction a as [|x a IH]; simpl; [done | by f_equal]. Qed.

Lemma app_nil_s (a : string) : a +:+ "" = a.
Proof. induction a as [|x a IH]; simpl; [done | by f_equal]. Qed.

Lemma strip_suffix_char_Some c s r :
  strip_suffix_char c s = Some r ↔ s = r +:+ String c EmptyString.
Proof.
  revert r; induction s as [|a s IH]; intros r; simpl.
  - split; [done | by destruct r].
  - destruct s as [|b s].
    + destruct (Ascii.eqb_spec a c) as [->|Hne].
      * split; [by intros [= <-]|]. destruct r as [|x r]; [done|]. by destruct r.
      * split; [done|]. destruct r as [|x r]; [by intros [= ->] | by destruct r].
    + split.
      * intros (r' & E & ->)%fmap_Some. apply IH in E. by rw E.
      * destruct r as [|x r]; [done|]. intros [= -> E].
        apply fmap_Some. exists r. split; [by apply IH | done].
Qed.

Lemma ends_with_char_spec s c :
  ends_with_char s c = true ↔ ∃ r, s = r +:+ String c EmptyString.
Proof.
  rw /ends_with_char /is_some.
  destruct (strip_suffix_char c s) as [r|] eqn:E; simpl.
  - apply strip_suffix_char_Some in E. naive_solver.
  - split; [done|]. intros [r Hr]. apply strip_suffix_char_Some in Hr. congruence.
Qed.

(** ** Lists *)

Lemma StronglySorted_filter {A} (R : relation A) (P : A → Prop) `{!∀ x, Decision (P x)} l :
  StronglySorted R l → StronglySorted R (filter P l).
Proof.
  induction 1 as [|x l Hs IH Hx]; [constructor|]. rw filter_cons. case_decide; [|done].
  constructor; [done|]. rw !Forall_forall in Hx |- *. intros y [_ ?]%list_elem_of_filter. auto.
Qed.

Lemma NoDup_fmap_filter {A B} (f : A → B) (P : A → Prop) `{!∀ x, Decision (P x)} l :
  NoDup (f <$> l) → NoDup (f <$> filter P l).
Proof.
  induction l as [|x l IH]; [done|]. rw fmap_cons NoDup_cons filter_cons. intros [Hx Hl].
  case_decide; [|by apply IH]. rw fmap_cons NoDup_cons. split; [|by apply IH].
  rw list_elem_of_fmap. intros (y & Hy & [_ Hin]%list_elem_of_filter).
  apply Hx. rw Hy. by apply list_elem_of_fmap_2.
Qed.

Lemma filter_none {A} (P : A → Prop) `{!∀ x, Decision (P x)} l :
  Forall (λ x, ¬ P x) l → filter P l = [].
Proof. induction 1; [done|]. rw filter_cons decide_False //. Qed.

Lemma filter_all {A} (P : A → Prop) `{!∀ x, Decision (P x)} l :
  Forall P l → filter P l = l.
Proof. induction 1 as [|x l Hx Hl IH]; [done|]. rw filter_cons decide_True // IH //. Qed.

Lemma filter_snoc {A} (p : A → bool) (l : list A) (x : A) :
  filter p (l ++ [x]) = filter p l ++ (if p x then [x] else []).
Proof.
  rw filter_app filter_cons filter_nil. case_decide; destruct (p x); naive_solver.
Qed.

Lemma filter_ext_in {A} (P Q : A → Prop) `{!∀ x, Decision (P x), !∀ x, Decision (Q x)} (l : list A) :
  (∀ x, x ∈ l → P x ↔ Q x) → filter P l = filter Q l.
Proof.
  induction l as [|x l IH]; intros Hl; [done|]. rw !filter_cons IH.
  - pose proof (Hl x). repeat case_decide; set_solver.
  - set_solver.
Qed.

(** A filter and its complement split a list. *)
Lemma filter_split_perm {A} (P : A → Prop) `{!∀ x, Decision (P x)} (l : list A) :
  l ≡ₚ filter P l ++ filter (λ x, ¬ P x) l.
Proof.
  induction l as [|x l IH]; [done|]. rw !filter_cons.
  destruct (decide (P x)); simpl.
  - rw decide_False; [|naive_solver]. by rw -IH.
  - rw decide_True //. by rw -Permutation_middle -IH.
Qed.

(** ** Sorting: [sort_by], [sort_by_key] and [ORDER BY]

    Rust's sorts on vectors keep the order of elements that compare equal, and
    so does [stable_sort]. *)

Section stable_sort.
Context {A : Type} (R : relation A) `{!RelDecision R}.

Fixpoint insert_before (x : A) (l : list A) : list A :=
  match l with
  | [] => [x]
  | y :: l' => if decide (R x y) then x :: y :: l' else y :: insert_before x l'
  end.
Definition stable_sort (l : list A) : list A := foldr insert_before [] l.

Lemma insert_before_perm x l : insert_before x l ≡ₚ x :: l.
Proof using Type.
  induction l as [|y l IH]; simpl; [done|]. destruct (decide (R x y)); [done|]. rw IH. apply perm_swap.
Qed.
Lemma stable_sort_perm l : stable_sort l ≡ₚ l.
Proof using Type. induction l as [|x l IH]; simpl; [done|]. by rw insert_before_perm IH. Qed.
Lemma insert_before_sorted `{!Total R, !Transitive R} x l :
  StronglySorted R l → StronglySorted R (insert_before x l).
Proof using Type.
  induction 1 as [|y l Hs IH Hy]; simpl; [by repeat constructor|].
  destruct (decide (R x y)) as [Hxy|Hxy].
  - constructor; [by constructor|]. constructor; [done|]. eapply Forall_impl; [exact Hy|]. intros z. by etrans.
  - constructor; [done|]. rw insert_before_perm. constructor; [|done]. by destruct (total R x y).
Qed.
Lemma stable_sort_sorted `{!Total R, !Transitive R} l : StronglySorted R (stable_sort l).
Proof using Type. induction l as [|x l IH]; simpl; [constructor|]. by apply insert_before_sorted. Qed.
(** Elements of one class of ties keep their order. *)
Lemma stable_sort_stable (p : A → bool) l :
  (∀ x y, p x = true → p y = true → R x y) → List.filter p (stable_sort l) = List.filter p l.
Proof using Type.
  intros Hp. induction l as [|x l IH]; simpl; [done|]. rw -IH. generalize (stable_sort l) as m. clear l IH.
  intros m. induction m as [|y m IH]; simpl; [done|].
  destruct (decide (R x y)) as [Hxy|Hxy]; [done|]. simpl. rw IH.
  destruct (p x) eqn:Hx, (p y) eqn:Hy; try done. by destruct Hxy; apply Hp.
Qed.
End stable_sort.

Definition key_le {A} (key : A → Z) (a b : A) : Prop := key a ≤ key b.
#[global] Instance key_le_dec {A} (key : A → Z) : RelDecision (key_le key).
Proof. intros a b. rw /key_le. apply _. Defined.
#[global] Instance key_le_total {A} (key : A → Z) : Total (key_le key).
Proof. intros a b. rw /key_le. lia. Qed.
#[global] Instance key_le_trans {A} (key : A → Z) : Transitive (key_le key).
Proof. intros a b c. rw /key_le. lia. Qed.

Definition sort_by_key {A} (key : A → Z) (l : list A) : list A := stable_sort (key_le key) l.

Lemma sort_by_key_perm {A} (key : A → Z) l : sort_by_key key l ≡ₚ l.
Proof. apply stable_sort_perm. Qed.
Lemma elem_of_sort_by_key {A} (key : A → Z) l x : x ∈ sort_by_key key l ↔ x ∈ l.
Proof. by rw sort_by_key_perm. Qed.
Lemma sort_by_key_sorted {A} (key : A → Z) l : StronglySorted (key_le key) (sort_by_key key l).
Proof. apply: stable_sort_sorted. Qed.

(** Two lists sorted by a key that has no ties are equal when they hold the
    same elements. *)
Lemma sorted_perm_eq {A} (key : A → Z) (l1 l2 : list A) :
  StronglySorted (key_le key) l1 → StronglySorted (key_le key) l2 →
  (∀ x y, x ∈ l1 → y ∈ l1 → key x = key y → x = y) → l1 ≡ₚ l2 → l1 = l2.
Proof.
  intros H1. revert l2. induction H1 as [|x l1 Hs IH Hx]; intros l2 H2 Hinj Hp.
  - by apply Permutation_nil_l in Hp.
  - destruct H2 as [|y l2 Hs2 Hy].
    { by apply Permutation_nil_r in Hp. }
    assert (x = y) as <-.
    { apply Hinj; [set_solver| rw Hp; set_solver |].
      assert (y ∈ x :: l1) as Hin by (rw Hp; set_solver).
      assert (x ∈ y :: l2) as Hin2 by (rw -Hp; set_solver).
      rw !Forall_forall /key_le in Hx Hy. set_unfold. destruct Hin as [->|Hin]; [done|].
      destruct Hin2 as [->|Hin2]; [done|]. pose proof (Hx _ Hin). pose proof (Hy _ Hin2). lia. }
    f_equal. apply IH; [done| |by apply Permutation_cons_inv in Hp].
    intros a b Ha Hb. apply Hinj; set_solver.
Qed.
