(* ===== verification/Float64.v ===== *)
(** * IEEE binary64, as the crates' [f64]

    Rust's [f64] is IEEE 754 binary64 with round-to-nearest-even.  The model
    is the Standard Library's [spec_float] at precision 53 and exponent bound
    1024, an executable definition of the format, so every conversion and
    comparison below evaluates to the bits the program computes. *)

From S2P Require Import Prelude.
From Stdlib Require Export SpecFloat.

Definition f64 : Type := spec_float.

Definition prec64 : Z := 53.
Definition emax64 : Z := 1024.

(** [z as f64] for an integer [z], also the value of an integral literal. *)
Definition f64_of_Z (z : Z) : f64 := binary_normalize prec64 emax64 z 0 false.

Definition f64_add (a b : f64) : f64 := SFadd prec64 emax64 a b.
Definition f64_sub (a b : f64) : f64 := SFsub prec64 emax64 a b.
Definition f64_mul (a b : f64) : f64 := SFmul prec64 emax64 a b.
Definition f64_div (a b : f64) : f64 := SFdiv prec64 emax64 a b.

Definition f64_lt (a b : f64) : bool := SFltb a b.
Definition f64_le (a b : f64) : bool := SFleb a b.
Definition f64_eq (a b : f64) : bool := SFeqb a b.
Definition f64_is_nan (a : f64) : bool :=
  match a with S754_nan => true | _ => false end.
Definition f64_is_finite (a : f64) : bool :=
  match a with S754_zero _ | S754_finite _ _ _ => true | _ => false end.

Definition f64_zero : f64 := S754_zero false.
Definition f64_one : f64 := f64_of_Z 1.
(** The literals [1_000_000.0] (also [1e6]), [86_400.0] and [1e-9]; the last
    is the correctly rounded quotient of the exact values 1 and 10^9. *)
Definition f64_million : f64 := f64_of_Z 1000000.
Definition f64_day : f64 := f64_of_Z 86400.
Definition f64_nano : f64 := f64_div (f64_of_Z 1) (f64_of_Z 1000000000).

(** A decimal literal [n / d]: both exact below 2^53, so the quotient is the
    value the literal is parsed to. *)
Definition f64_ratio (n d : Z) : f64 := f64_div (f64_of_Z n) (f64_of_Z d).

(** The signed integer part towards minus infinity and towards zero. *)
Definition f64_floor_Z (s : bool) (m : positive) (e : Z) : Z :=
  let v := if s then Z.neg m else Z.pos m in
  if 0 <=? e then v * 2 ^ e else v / 2 ^ (- e).
Definition f64_trunc_Z (s : bool) (m : positive) (e : Z) : Z :=
  let v := if 0 <=? e then Z.pos m * 2 ^ e else Z.pos m / 2 ^ (- e) in
  if s then - v else v.

(** [f64::floor] *)
Definition f64_floor (a : f64) : f64 :=
  match a with
  | S754_finite s m e =>
      let v := f64_floor_Z s m e in
      if v =? 0 then S754_zero s else f64_of_Z v
  | _ => a
  end.

(** [f64::round]: half away from zero. *)
Definition f64_round (a : f64) : f64 :=
  match a with
  | S754_finite s m e =>
      if 0 <=? e then a
      else
        let v := (2 * Z.pos m + 2 ^ (- e)) / (2 * 2 ^ (- e)) in
        if v =? 0 then S754_zero s else f64_of_Z (if s then - v else v)
  | _ => a
  end.

(** [f64::max]: the other operand when one is NaN. *)
Definition f64_max (a b : f64) : f64 :=
  if f64_is_nan a then b
  else if f64_is_nan b then a
  else if f64_lt a b then b else a.

(** [a as i64]: towards zero, saturating, NaN to 0. *)
Definition f64_as_i64 (a : f64) : Z :=
  match a with
  | S754_nan => 0
  | S754_zero _ => 0
  | S754_infinity s => if s then i64_MIN else i64_MAX
  | S754_finite s m e => Z.max i64_MIN (Z.min i64_MAX (f64_trunc_Z s m e))
  end.

(** [(secs * 1_000_000.0) as i64]: seconds to whole microseconds. *)
Definition micros_of_secs (secs : f64) : Z := f64_as_i64 (f64_mul secs f64_million).

(** [a as i64] is always an [i64]. *)
Lemma f64_as_i64_range a : in_i64 (f64_as_i64 a).
Proof.
  rw /in_i64 /f64_as_i64. destruct a as [s|s| |s m e]; try (destruct s); lia || (rw /i64_MIN /i64_MAX; lia).
Qed.

Example f64_as_i64_trunc : f64_as_i64 (f64_ratio (-7) 2) = -3.
Proof. vm_compute. reflexivity. Qed.
Example f64_floor_neg : f64_floor (f64_ratio (-7) 2) = f64_of_Z (-4).
Proof. vm_compute. reflexivity. Qed.
Example f64_round_half : f64_round (f64_ratio 5 2) = f64_of_Z 3.
Proof. vm_compute. reflexivity. Qed.
Example micros_of_secs_tenth : micros_of_secs (f64_ratio 1 10) = 100000.
Proof. vm_compute. reflexivity. Qed.
