(* ===== verification/Json.v ===== *)
(** * JSON values

    [serde_json::Value] and [Map<String, Value>] as the crates use them.  A
    [Map] is a B-tree map (the [preserve_order] feature is off): an
    association list sorted by key bytes, without duplicates, which
    [map_insert] keeps. *)

From S2P Require Import Prelude Float64.

Inductive Number : Type :=
| NInt (z : Z)
| NFloat (f : f64).

#[warnings="-register-all"] Inductive Value : Type :=
| VNull
| VBool (b : bool)
| VNumber (n : Number)
| VString (s : string)
| VArray (l : list Value)
| VObject (m : list (string * Value)).

Abbreviation Map := (list (string * Value)).

(** [Value::as_str], [as_i64], [as_bool], [as_object], [as_f64] *)
Definition as_str (v : Value) : option string :=
  match v with VString s => Some s | _ => None end.
Definition as_i64 (v : Value) : option Z :=
  match v with
  | VNumber (NInt z) => if (i64_MIN <=? z) && (z <=? i64_MAX) then Some z else None
  | _ => None
  end.
Definition as_bool (v : Value) : option bool :=
  match v with VBool b => Some b | _ => None end.
Definition as_object (v : Value) : option Map :=
  match v with VObject m => Some m | _ => None end.
Definition as_f64 (v : Value) : option f64 :=
  match v with
  | VNumber (NInt z) => Some (f64_of_Z z)
  | VNumber (NFloat f) => Some f
  | _ => None
  end.

Fixpoint map_get (k : string) (m : Map) : option Value :=
  match m with
  | [] => None
  | (k', v) :: m' => if k =?s k' then Some v else map_get k m'
  end.

Fixpoint map_insert (k : string) (v : Value) (m : Map) : Map :=
  match m with
  | [] => [(k, v)]
  | (k', v') :: m' =>
      match String.compare k k' with
      | Lt => (k, v) :: m
      | Eq => (k, v) :: m'
      | Gt => (k', v') :: map_insert k v m'
      end
  end.

Fixpoint map_remove (k : string) (m : Map) : Map :=
  match m with
  | [] => []
  | (k', v') :: m' => if k =?s k' then m' else (k', v') :: map_remove k m'
  end.

Definition map_contains (k : string) (m : Map) : bool := is_some (map_get k m).
Definition map_keys (m : Map) : list string := m.*1.

(** Reading one string member, the commonest access. *)
Definition get_str (k : string) (m : Map) : option string := map_get k m ≫= as_str.
Definition get_i64 (k : string) (m : Map) : option Z := map_get k m ≫= as_i64.

Lemma str_compare_refl s : String.compare s s = Eq.
Proof.
  induction s as [|a s IH]; simpl; [done|].
  by rw /Ascii.compare N.compare_refl.
Qed.

Lemma map_get_insert_eq k v m : map_get k (map_insert k v m) = Some v.
Proof.
  induction m as [|[k' v'] m IH]; simpl; [by rw str_eqb_refl|].
  destruct (String.compare k k') eqn:E; simpl; rw ?str_eqb_refl //.
  destruct (k =?s k') eqn:Ek; [|done].
  apply str_eqb_eq in Ek as ->.
  by rw str_compare_refl in E.
Qed.

Lemma map_get_insert_ne k k' v m : k ≠ k' → map_get k (map_insert k' v m) = map_get k m.
Proof.
  intros Hne. apply str_eqb_neq in Hne.
  induction m as [|[k2 v2] m IH]; simpl; [by rw Hne|].
  destruct (String.compare k' k2) eqn:E; simpl.
  - apply String.compare_eq_iff in E as ->. by rw Hne.
  - by rw Hne.
  - by rw IH.
Qed.

#[export] Hint Rewrite map_get_insert_eq : cereyan.
