(* ===== verification/States.v ===== *)
(** * Run states: [crates/core/src/state.rs]

    The nine state types, the thirteen named sub-states with their fixed
    types, and the [State] record with its constructors.  [now] is the
    reading of [now_micros()] at the call. *)

From S2P Require Import Prelude Float64 Json.

Inductive StateType : Type :=
| Scheduled
| Pending
| Running
| Completed
| Failed
| Cancelled
| Crashed
| Paused
| Cancelling.

#[export] Instance StateType_eq_dec : EqDecision StateType.
Proof. solve_decision. Defined.

#[export] Instance StateType_countable : Countable StateType.
Proof.
  refine (inj_countable'
    (λ t, match t with
          | Scheduled => 0%nat | Pending => 1%nat | Running => 2%nat
          | Completed => 3%nat | Failed => 4%nat | Cancelled => 5%nat
          | Crashed => 6%nat | Paused => 7%nat | Cancelling => 8%nat end)
    (λ n, match n with
          | 0%nat => Scheduled | 1%nat => Pending | 2%nat => Running
          | 3%nat => Completed | 4%nat => Failed | 5%nat => Cancelled
          | 6%nat => Crashed | 7%nat => Paused | _ => Cancelling end) _).
  by intros [].
Defined.

Definition st_eqb (a b : StateType) : bool := bool_decide (a = b).

(** [StateType::ALL] *)
Definition StateType_ALL : list StateType :=
  [Scheduled; Pending; Running; Completed; Failed; Cancelled; Crashed; Paused; Cancelling].

(** [StateType::is_terminal] *)
Definition is_terminal (t : StateType) : bool :=
  match t with
  | Completed | Failed | Cancelled | Crashed => true
  | _ => false
  end.

(** [StateType::as_str] *)
Definition StateType_as_str (t : StateType) : string :=
  match t with
  | Scheduled => "Scheduled"
  | Pending => "Pending"
  | Running => "Running"
  | Completed => "Completed"
  | Failed => "Failed"
  | Cancelled => "Cancelled"
  | Crashed => "Crashed"
  | Paused => "Paused"
  | Cancelling => "Cancelling"
  end.

(** [StateType::parse] *)
Definition StateType_parse (text : string) : option StateType :=
  List.find (λ t, StateType_as_str t =?s text) StateType_ALL.

Inductive StateName : Type :=
| Late
| AwaitingRetry
| AwaitingResource
| Retrying
| TimedOut
| Cached
| Replayed
| Recovered
| Skipped
| Sleeping
| AwaitingEvent
| AwaitingTarget
| InDoubt.

#[export] Instance StateName_eq_dec : EqDecision StateName.
Proof. solve_decision. Defined.

(** [StateName::ALL] *)
Definition StateName_ALL : list StateName :=
  [Late; AwaitingRetry; AwaitingResource; Retrying; TimedOut; Cached; Replayed;
   Recovered; Skipped; Sleeping; AwaitingEvent; AwaitingTarget; InDoubt].

(** [StateName::state_type] *)
Definition StateName_state_type (n : StateName) : StateType :=
  match n with
  | Late | AwaitingRetry | AwaitingResource => Scheduled
  | Retrying => Running
  | TimedOut => Failed
  | Cached | Replayed | Recovered | Skipped => Completed
  | Sleeping | AwaitingEvent | AwaitingTarget | InDoubt => Paused
  end.

(** [StateName::as_str] *)
Definition StateName_as_str (n : StateName) : string :=
  match n with
  | Late => "Late"
  | AwaitingRetry => "AwaitingRetry"
  | AwaitingResource => "AwaitingResource"
  | Retrying => "Retrying"
  | TimedOut => "TimedOut"
  | Cached => "Cached"
  | Replayed => "Replayed"
  | Recovered => "Recovered"
  | Skipped => "Skipped"
  | Sleeping => "Sleeping"
  | AwaitingEvent => "AwaitingEvent"
  | AwaitingTarget => "AwaitingTarget"
  | InDoubt => "InDoubt"
  end.

(** [StateName::parse] *)
Definition StateName_parse (text : string) : option StateName :=
  List.find (λ n, StateName_as_str n =?s text) StateName_ALL.

Record State : Type := mkState {
  state_type : StateType;
  state_name : string;
  state_message : option string;
  state_details : Map;
  state_timestamp : Z
}.

(** [State::new] *)
Definition State_new (now : Z) (t : StateType) : State :=
  {| state_type := t;
     state_name := StateType_as_str t;
     state_message := None;
     state_details := [];
     state_timestamp := now |}.

(** [State::named] *)
Definition State_named (now : Z) (n : StateName) : State :=
  let s := State_new now (StateName_state_type n) in
  {| state_type := state_type s;
     state_name := StateName_as_str n;
     state_message := state_message s;
     state_details := state_details s;
     state_timestamp := state_timestamp s |}.

(** [State::from_parts] *)
Definition State_from_parts (now : Z) (t : StateType) (name : option string)
    (message : option string) (details : Map) : State :=
  let '(t', name') :=
    match opt_filter (λ n, negb (str_is_empty n)) name with
    | None => (t, StateType_as_str t)
    | Some n =>
        match StateName_parse n with
        | Some sub => (StateName_state_type sub, StateName_as_str sub)
        | None => (t, n)
        end
    end in
  {| state_type := t';
     state_name := name';
     state_message := message;
     state_details := details;
     state_timestamp := now |}.

(** [State::with_message], [State::with_timestamp] *)
Definition with_message (s : State) (message : string) : State :=
  {| state_type := state_type s; state_name := state_name s;
     state_message := Some message; state_details := state_details s;
     state_timestamp := state_timestamp s |}.
Definition with_timestamp (s : State) (ts : Z) : State :=
  {| state_type := state_type s; state_name := state_name s;
     state_message := state_message s; state_details := state_details s;
     state_timestamp := ts |}.

(** [s.details.insert(k, v)] *)
Definition with_detail (s : State) (k : string) (v : Value) : State :=
  {| state_type := state_type s; state_name := state_name s;
     state_message := state_message s;
     state_details := map_insert k v (state_details s);
     state_timestamp := state_timestamp s |}.

(** [State::is_terminal], [State::is_completed] *)
Definition State_is_terminal (s : State) : bool := is_terminal (state_type s).
Definition State_is_completed (s : State) : bool := st_eqb (state_type s) Completed.

(** ** Lemmas *)

Lemma st_eqb_eq a b : st_eqb a b = true ↔ a = b.
Proof. apply bool_decide_eq_true. Qed.

Lemma StateType_parse_as_str t : StateType_parse (StateType_as_str t) = Some t.
Proof. by destruct t. Qed.

Lemma StateType_parse_Some text t :
  StateType_parse text = Some t → text = StateType_as_str t.
Proof. intros [_ H]%List.find_some. by apply str_eqb_eq in H. Qed.

Lemma StateName_parse_as_str n : StateName_parse (StateName_as_str n) = Some n.
Proof. by destruct n. Qed.

Lemma StateName_parse_Some text n :
  StateName_parse text = Some n → text = StateName_as_str n.
Proof. intros [_ H]%List.find_some. by apply str_eqb_eq in H. Qed.

(** No type and sub-state name collide. *)
Lemma names_disjoint t n : StateType_as_str t ≠ StateName_as_str n.
Proof. by destruct t, n. Qed.

(** A state is well named when a reserved sub-state name carries that
    sub-state's type. *)
Definition well_named (s : State) : Prop :=
  state_name s ≠ "" ∧
  ∀ n, state_name s = StateName_as_str n → state_type s = StateName_state_type n.

Lemma StateType_as_str_nonempty t : StateType_as_str t ≠ "".
Proof. by destruct t. Qed.
Lemma StateName_as_str_nonempty n : StateName_as_str n ≠ "".
Proof. by destruct n. Qed.

#[export] Hint Resolve StateType_as_str_nonempty StateName_as_str_nonempty : cereyan.

Lemma StateName_as_str_inj a b : StateName_as_str a = StateName_as_str b → a = b.
Proof.
  intros H. assert (Some a = Some b) as [= ->]; [|done].
  by rw -!StateName_parse_as_str H.
Qed.

(** Every state built through the code's constructors is well named: a
    recognised sub-state name forces its type whatever type was passed, an
    empty or missing name becomes the type's own name, and both parsers invert
    their printers. *)
Theorem states_well_named :
  (∀ now t, well_named (State_new now t)) ∧
  (∀ now n, well_named (State_named now n)) ∧
  (∀ now t name msg details, well_named (State_from_parts now t name msg details)) ∧
  (∀ t, StateType_parse (StateType_as_str t) = Some t) ∧
  (∀ n, StateName_parse (StateName_as_str n) = Some n).
Proof.
  split_and!; [ | | |apply StateType_parse_as_str|apply StateName_parse_as_str].
  - intros now t. split; simpl; [auto with cereyan|].
    intros n Hn. by apply names_disjoint in Hn.
  - intros now n. split; simpl; [auto with cereyan|].
    by intros n' ->%StateName_as_str_inj.
  - intros now t name msg details. rw /State_from_parts /well_named.
    destruct (opt_filter _ name) as [m|] eqn:Ef; simpl.
    + destruct (StateName_parse m) as [sub|] eqn:Ep; simpl.
      * split; [auto with cereyan|]. by intros n' ->%StateName_as_str_inj.
      * split.
        { destruct name as [m'|]; simpl in Ef; [|done].
          destruct m'; simpl in Ef; congruence. }
        intros n ->. by rw StateName_parse_as_str in Ep.
    + split; [auto with cereyan|]. intros n Hn. by apply names_disjoint in Hn.
Qed.
