(* ===== verification/Transitions.v ===== *)
(** * State-transition rules: [crates/core/src/rules.rs]

    [propose], the pure decision both the offline and the served paths go
    through, and the counters and timing every accepted state updates.  The
    second half lifts them to histories: a run is driven by a list of
    proposals, each accepted, rewritten or rejected. *)

From S2P Require Import Prelude Float64 Json States.

Definition MICROS_PER_SECOND : Z := 1000000.

Record RunPolicy : Type := mkRunPolicy { max_retries : Z }.

Record Proposal : Type := mkProposal { prop_state : State; prop_force : bool }.

(** [Proposal::new], [Proposal::forced] *)
Definition Proposal_new (s : State) : Proposal := {| prop_state := s; prop_force := false |}.
Definition Proposal_forced (s : State) : Proposal := {| prop_state := s; prop_force := true |}.

Inductive Outcome : Type :=
| Accept
| Reject (reason : string)
| Rewrite (s : State).

(** [Outcome::resolved] *)
Definition resolved (o : Outcome) (proposed : State) : result State string :=
  match o with
  | Accept => Ok proposed
  | Rewrite s => Ok s
  | Reject reason => Err reason
  end.

(** The duplicate test of [propose]. *)
Definition is_duplicate (cur proposed : State) : bool :=
  st_eqb (state_type cur) (state_type proposed)
  && (state_name cur =?s state_name proposed)
  && (i64_abs (i64_sub (state_timestamp proposed) (state_timestamp cur)) <? MICROS_PER_SECOND).

(** The entry rule by the proposed type, [propose]'s last [match]. *)
Definition entry_rule (cur_type : option StateType) (proposed : StateType) : Outcome :=
  match proposed with
  | Pending =>
      match cur_type with
      | None | Some Scheduled => Accept
      | _ => Reject "invalid-entry"
      end
  | Running =>
      match cur_type with
      | Some Pending | Some Scheduled | Some Paused => Accept
      | _ => Reject "invalid-entry"
      end
  | Cancelled =>
      match cur_type with
      | Some Cancelling | Some Scheduled | Some Pending | Some Running | Some Paused => Accept
      | _ => Reject "invalid-entry"
      end
  | Paused =>
      match cur_type with
      | Some Running => Accept
      | _ => Reject "invalid-entry"
      end
  | _ =>
      match cur_type with
      | Some Cancelling => Reject "cancelling"
      | _ => Accept
      end
  end.

(** [propose] *)
Definition propose (current : option State) (p : Proposal) (_policy : RunPolicy) : Outcome :=
  let proposed := prop_state p in
  if prop_force p then Rewrite (with_detail proposed "forced" (VBool true))
  else
    match current with
    | Some cur =>
        if State_is_terminal cur then Reject "terminal"
        else if is_duplicate cur proposed then Reject "duplicate"
        else entry_rule (Some (state_type cur)) (state_type proposed)
    | None => entry_rule None (state_type proposed)
    end.

Record RunCounters : Type := mkRunCounters {
  failure_count : Z;
  crash_count : Z;
  start_time : option Z;
  end_time : option Z;
  total_run_time : option Z
}.

(** [RunCounters::default] *)
Definition RunCounters_default : RunCounters :=
  {| failure_count := 0; crash_count := 0; start_time := None; end_time := None;
     total_run_time := None |}.

(** The states [RunCounters::apply] counts as a failed attempt. *)
Definition counts_failure (s : State) : bool :=
  match state_type s with
  | Failed => true
  | Scheduled => state_name s =?s "AwaitingRetry"
  | _ => false
  end.
Definition counts_crash (s : State) : bool := st_eqb (state_type s) Crashed.

(** [RunCounters::apply] *)
Definition apply (c : RunCounters) (accepted : State) : RunCounters :=
  let failures :=
    if counts_failure accepted then wrap_u32 (failure_count c + 1) else failure_count c in
  let crashes :=
    if counts_crash accepted then wrap_u32 (crash_count c + 1) else crash_count c in
  let start :=
    if st_eqb (state_type accepted) Running && is_none (start_time c)
    then Some (state_timestamp accepted) else start_time c in
  if State_is_terminal accepted then
    {| failure_count := failures; crash_count := crashes; start_time := start;
       end_time := Some (state_timestamp accepted);
       total_run_time :=
         match start with
         | Some s => Some (Z.max (i64_sub (state_timestamp accepted) s) 0)
         | None => total_run_time c
         end |}
  else
    {| failure_count := failures; crash_count := crashes; start_time := start;
       end_time := None; total_run_time := None |}.

(** ** Histories

    One proposal against the recorded state: the state that is recorded
    next, or the unchanged one on a rejection. *)

Definition policy0 : RunPolicy := {| max_retries := 0 |}.

Definition step1 (current : option State) (p : Proposal) : option State :=
  match resolved (propose current p policy0) (prop_state p) with
  | Ok s => Some s
  | Err _ => current
  end.

Definition steps (current : option State) (ps : list Proposal) : option State :=
  fold_left step1 ps current.

(** The states a list of proposals gets recorded, oldest first. *)
Fixpoint recorded (current : option State) (ps : list Proposal) : list State :=
  match ps with
  | [] => []
  | p :: ps' =>
      match resolved (propose current p policy0) (prop_state p) with
      | Ok s => s :: recorded (Some s) ps'
      | Err _ => recorded current ps'
      end
  end.

Definition counters_of (history : list State) : RunCounters :=
  fold_left apply history RunCounters_default.

Definition unforced (ps : list Proposal) : Prop := Forall (λ p, prop_force p = false) ps.

(** ** The transition table as a relation *)

Inductive may_enter : option StateType → StateType → Prop :=
| enter_pending_new : may_enter None Pending
| enter_pending : may_enter (Some Scheduled) Pending
| enter_running t : t ∈ [Pending; Scheduled; Paused] → may_enter (Some t) Running
| enter_cancelled t : is_terminal t = false → may_enter (Some t) Cancelled
| enter_paused : may_enter (Some Running) Paused
| enter_other o t :
    t ∈ [Scheduled; Completed; Failed; Crashed; Cancelling] →
    o ≠ Some Cancelling → (∀ c, o = Some c → is_terminal c = false) → may_enter o t.

Lemma entry_rule_never_rewrites o t s : entry_rule o t ≠ Rewrite s.
Proof. by destruct t, o as [[]|]. Qed.

Lemma entry_rule_iff o t :
  (∀ c, o = Some c → is_terminal c = false) →
  entry_rule o t = Accept ↔ may_enter o t.
Proof.
  intros Hnt. split.
  - intros H. destruct t; try (destruct o as [[]|]; simpl in H; try done;
      constructor; set_solver);
    (apply enter_other; [set_solver| by destruct o as [[]|] |done]).
  - destruct 1 as [| |t Ht|t Ht| |o t Ht Ho _]; try done.
    + by set_unfold in Ht; destruct_or! Ht; subst.
    + by destruct t.
    + set_unfold in Ht. by destruct_or? Ht; subst t; destruct o as [[]|].
Qed.

Lemma step1_terminal cur p :
  State_is_terminal cur = true → prop_force p = false → step1 (Some cur) p = Some cur.
Proof. intros Ht Hf. by rw /step1 /propose Hf Ht. Qed.

Lemma recorded_terminal cur ps :
  State_is_terminal cur = true → unforced ps → recorded (Some cur) ps = [].
Proof.
  intros Ht. induction 1 as [|p ps Hf Hps IH]; simpl; [done|].
  by rw /propose Hf Ht /=.
Qed.

(** What an unforced proposal records in a cancelling run. *)
Lemma propose_cancelling cur p s :
  state_type cur = Cancelling → prop_force p = false →
  resolved (propose (Some cur) p policy0) (prop_state p) = Ok s →
  state_type s = Cancelled.
Proof.
  intros Hc Hf. rw /propose Hf /State_is_terminal Hc /=.
  destruct (is_duplicate _ _); [done|].
  destruct (state_type (prop_state p)) eqn:E; simpl; try done. intros [= <-]. done.
Qed.

(** Counters: what [apply] leaves true of the state it was given last. *)
Definition counters_ok (history : list State) (c : RunCounters) : Prop :=
  failure_count c = Z.of_nat (length (filter counts_failure history)) mod two32 ∧
  crash_count c = Z.of_nat (length (filter counts_crash history)) mod two32 ∧
  start_time c =
    state_timestamp <$> head (filter (λ s, st_eqb (state_type s) Running) history) ∧
  end_time c =
    (last history ≫= λ s, if State_is_terminal s then Some (state_timestamp s) else None) ∧
  (is_Some (total_run_time c) → is_Some (end_time c) ∧ is_Some (start_time c)) ∧
  (∀ d, total_run_time c = Some d → 0 ≤ d ≤ i64_MAX).

Lemma wrap_u32_succ n : wrap_u32 (Z.of_nat n mod two32 + 1) = Z.of_nat (S n) mod two32.
Proof. rw /wrap_u32 Zplus_mod_idemp_l. f_equal. lia. Qed.

Lemma count_step (p : State → bool) h s c :
  c = Z.of_nat (length (filter p h)) mod two32 →
  (if p s then wrap_u32 (c + 1) else c) =
  Z.of_nat (length (filter p (h ++ [s]))) mod two32.
Proof.
  intros ->. rw filter_snoc length_app. destruct (p s); simpl.
  - by rw wrap_u32_succ Nat.add_1_r.
  - by rw Nat.add_0_r.
Qed.

Lemma apply_ok h c s : counters_ok h c → counters_ok (h ++ [s]) (apply c s).
Proof.
  intros (Hf & Hc & Hs & He & Ht & Hd).
  assert (Hstart :
    (if st_eqb (state_type s) Running && is_none (start_time c)
     then Some (state_timestamp s) else start_time c) =
    state_timestamp <$> head (filter (λ x, st_eqb (state_type x) Running) (h ++ [s]))).
  { rw filter_snoc Hs.
    by destruct (filter (λ x, st_eqb (state_type x) Running) h), (st_eqb (state_type s) Running). }
  rw /counters_ok last_snoc /= -(count_step counts_failure h s _ Hf)
    -(count_step counts_crash h s _ Hc) -Hstart /apply.
  destruct (State_is_terminal s) eqn:Eterm; simpl; split_and!; try done.
  - intros Hsome. split; [done|].
    destruct (if _ && _ then _ else start_time c) eqn:Est; [done|].
    apply Ht in Hsome as [_ Hstc].
    destruct (start_time c); [|by destruct Hstc].
    by rw andb_false_r in Est.
  - intros d. destruct (if _ && _ then _ else start_time c) as [st|] eqn:Est; [|apply Hd].
    intros [= <-]. rw /i64_sub.
    pose proof (wrap_i64_range (state_timestamp s - st)) as Hr.
    rw /in_i64 /i64_MAX in Hr |- *. lia.
Qed.

Lemma counters_of_ok h : counters_ok h (counters_of h).
Proof.
  rw /counters_of. induction h as [|s h IH] using rev_ind.
  - by split_and!.
  - rw fold_left_app /=. by apply apply_ok.
Qed.

(** ** Properties *)

(** Without force, [propose] accepts exactly the transitions of the
    table [may_enter] out of a non-terminal state that is not a repeat of the
    same state within a second; it never rewrites; a terminal state rejects
    everything with "terminal".  With force it always records the proposed
    state, marked [forced], whatever the current state. *)
Theorem propose_spec current p policy :
  if prop_force p then
    ∃ s, propose current p policy = Rewrite s ∧
      state_type s = state_type (prop_state p) ∧
      map_get "forced" (state_details s) = Some (VBool true)
  else
    (∀ s, propose current p policy ≠ Rewrite s) ∧
    (propose current p policy = Accept ↔
       may_enter (state_type <$> current) (state_type (prop_state p)) ∧
       (∀ cur, current = Some cur →
          State_is_terminal cur = false ∧ is_duplicate cur (prop_state p) = false)) ∧
    (∀ cur, current = Some cur → State_is_terminal cur = true →
       propose current p policy = Reject "terminal").
Proof.
  rw /propose. destruct (prop_force p).
  { eexists. split_and!; [done|done|]. simpl. apply map_get_insert_eq. }
  destruct current as [cur|]; simpl.
  - split_and!.
    + intros s. destruct (State_is_terminal cur), (is_duplicate cur (prop_state p)); try done.
      apply entry_rule_never_rewrites.
    + destruct (State_is_terminal cur) eqn:Et.
      { split; [done|]. intros [_ H]. destruct (H cur) as [? _]; congruence. }
      destruct (is_duplicate cur (prop_state p)) eqn:Ed.
      { split; [done|]. intros [_ H]. destruct (H cur) as [_ ?]; congruence. }
      rw entry_rule_iff; [naive_solver | by intros c [= <-]].
    + by intros ? [= <-] ->.
  - split_and!; [apply entry_rule_never_rewrites| |done].
    rw entry_rule_iff; naive_solver.
Qed.


Definition st_at (t : StateType) (ts : Z) : State := with_timestamp (State_new 0 t) ts.


(** For every history of accepted states the counters are the numbers of
    failed attempts (Failed, and Scheduled/AwaitingRetry) and of crashes at
    32 bits, the start time is that of the first Running state, the end time
    is set exactly while the last state is terminal, and a total run time is
    non-negative and present only for an ended run that had started. *)
Theorem counters_correct current ps :
  counters_ok (recorded current ps) (counters_of (recorded current ps)).
Proof. apply counters_of_ok. Qed.

Example counters_run :
  counters_of [st_at Pending 10; st_at Running 20; st_at Completed 50] =
  {| failure_count := 0; crash_count := 0; start_time := Some 20; end_time := Some 50;
     total_run_time := Some 30 |}.
Proof. reflexivity. Qed.
