(* ===== verification/Timer.v ===== *)
(** * The timer heap: [crates/server/src/timer.rs]

    One heap holds everything time-driven.  Removal is lazy: a removed event
    stays in the heap, its sequence number in [cancelled], until it is popped
    or compacted away, and three side indexes find the sequence numbers of a
    run, a schedule or a rule without a scan.

    The heap is the list of its entries in pop order; the order is the one of
    the tuples [(at, seq, event)], decided by [(at, seq)] because sequence
    numbers are distinct.  [notify_one] is the boolean [push] returns. *)

From S2P Require Import Prelude.

Inductive TimerEvent : Type :=
| Fire (schedule_id : Z)
| Due (run_id : Z)
| LateCheck (run_id : Z)
| StartDeadline (run_id : Z)
| CrashRerun (run_id : Z)
| FlowTimeout (run_id : Z)
| ResumeFlow (flow_id : Z)
| Persist
| Wake
| Expectation (id : Z)
| RuleClock (rule_id : Z)
| SchedulerResume (since : Z)
| WakeRun (run_id : Z).

#[export] Instance TimerEvent_eq_dec : EqDecision TimerEvent.
Proof. solve_decision. Defined.

Inductive Side : Type := SideRun | SideSchedule | SideRule.

#[export] Instance Side_eq_dec : EqDecision Side.
Proof. solve_decision. Defined.

Record entry : Type := mkEntry { e_at : Z; e_seq : Z; e_event : TimerEvent }.

Record Inner : Type := mkInner {
  heap : list entry;
  cancelled : gset Z;
  active_count : Z;
  by_run : gmap Z (list Z);
  by_schedule : gmap Z (list Z);
  by_rule : gmap Z (list Z);
  side_of : gmap Z (Side * Z)
}.

(** [Inner::default] *)
Definition Inner_default : Inner :=
  {| heap := []; cancelled := ∅; active_count := 0; by_run := ∅; by_schedule := ∅;
     by_rule := ∅; side_of := ∅ |}.

Record Timer : Type := mkTimer { inner : Inner; seq : Z }.

(** [Timer::new] *)
Definition Timer_new : Timer := {| inner := Inner_default; seq := 0 |}.

Definition set_heap (h : list entry) (i : Inner) : Inner :=
  {| heap := h; cancelled := cancelled i; active_count := active_count i; by_run := by_run i;
     by_schedule := by_schedule i; by_rule := by_rule i; side_of := side_of i |}.
Definition set_cancelled (c : gset Z) (i : Inner) : Inner :=
  {| heap := heap i; cancelled := c; active_count := active_count i; by_run := by_run i;
     by_schedule := by_schedule i; by_rule := by_rule i; side_of := side_of i |}.
Definition set_count (n : Z) (i : Inner) : Inner :=
  {| heap := heap i; cancelled := cancelled i; active_count := n; by_run := by_run i;
     by_schedule := by_schedule i; by_rule := by_rule i; side_of := side_of i |}.
Definition set_side_of (m : gmap Z (Side * Z)) (i : Inner) : Inner :=
  {| heap := heap i; cancelled := cancelled i; active_count := active_count i;
     by_run := by_run i; by_schedule := by_schedule i; by_rule := by_rule i; side_of := m |}.

(** [match side { Side::Run => &mut self.by_run, .. }] *)
Definition side_map (s : Side) (i : Inner) : gmap Z (list Z) :=
  match s with SideRun => by_run i | SideSchedule => by_schedule i | SideRule => by_rule i end.
Definition set_side_map (s : Side) (m : gmap Z (list Z)) (i : Inner) : Inner :=
  {| heap := heap i; cancelled := cancelled i; active_count := active_count i;
     by_run := match s with SideRun => m | _ => by_run i end;
     by_schedule := match s with SideSchedule => m | _ => by_schedule i end;
     by_rule := match s with SideRule => m | _ => by_rule i end;
     side_of := side_of i |}.

(** [Vec::swap_remove]: the last element takes the removed one's place. *)
Definition swap_remove (at_ : nat) (l : list Z) : list Z :=
  match last l with
  | Some x => take (pred (length l)) (<[at_ := x]> l)
  | None => l
  end.

(** [ids.iter().position(|s| *s == seq)] *)
Fixpoint position (x : Z) (l : list Z) : option nat :=
  match l with
  | [] => None
  | y :: l' => if y =? x then Some 0%nat else S <$> position x l'
  end.

(** [Inner::forget_seq] *)
Definition forget_seq (sq : Z) (i : Inner) : Inner :=
  match side_of i !! sq with
  | None => i
  | Some (side, key) =>
      let i := set_side_of (delete sq (side_of i)) i in
      match side_map side i !! key with
      | None => i
      | Some ids =>
          let ids := match position sq ids with
                     | Some p => swap_remove p ids
                     | None => ids
                     end in
          match ids with
          | [] => set_side_map side (delete key (side_map side i)) i
          | _ => set_side_map side (<[key := ids]> (side_map side i)) i
          end
      end
  end.

(** The side index and key of an event: [Inner::index_seq]'s [match] with
    [id_of]; [None] for the events never removed individually. *)
Definition side_key (e : TimerEvent) : option (Side * Z) :=
  match e with
  | Due r | LateCheck r | StartDeadline r | FlowTimeout r | CrashRerun r | WakeRun r =>
      Some (SideRun, r)
  | Fire r => Some (SideSchedule, r)
  | RuleClock r => Some (SideRule, r)
  | _ => None
  end.

(** [Inner::index_seq] *)
Definition index_seq (sq : Z) (e : TimerEvent) (i : Inner) : Inner :=
  match side_key e with
  | None => i
  | Some (side, key) =>
      let m := side_map side i in
      let i := set_side_map side (<[key := default [] (m !! key) ++ [sq]]> m) i in
      set_side_of (<[sq := (side, key)]> (side_of i)) i
  end.

(** [Inner::cancel_all] *)
Definition cancel_one (i : Inner) (sq : Z) : Inner :=
  let i := set_side_of (delete sq (side_of i)) i in
  if bool_decide (sq ∈ cancelled i) then i
  else set_count (wrap_u64 (active_count i - 1)) (set_cancelled ({[sq]} ∪ cancelled i) i).
Definition cancel_all (seqs : list Z) (i : Inner) : Inner := fold_left cancel_one seqs i.

(** The heap order of [Reverse<(i64, u64, TimerEvent)>]: earliest first. *)
Definition entry_lt (a b : entry) : Prop :=
  e_at a < e_at b ∨ (e_at a = e_at b ∧ e_seq a < e_seq b).
Definition entry_ltb (a b : entry) : bool :=
  (e_at a <? e_at b) || ((e_at a =? e_at b) && (e_seq a <? e_seq b)).

(** [BinaryHeap::push] *)
Fixpoint heap_push (x : entry) (h : list entry) : list entry :=
  match h with
  | [] => [x]
  | y :: h' => if entry_ltb x y then x :: h else y :: heap_push x h'
  end.

(** [Timer::push]; the boolean says whether the sleeper is notified. *)
Definition push (at_micros : Z) (e : TimerEvent) (t : Timer) : Timer * bool :=
  let sq := seq t in
  let i := inner t in
  let earlier := match heap i with x :: _ => at_micros <? e_at x | [] => true end in
  let i := set_heap (heap_push {| e_at := at_micros; e_seq := sq; e_event := e |} (heap i)) i in
  let i := index_seq sq e i in
  let i := set_count (wrap_u64 (active_count i + 1)) i in
  ({| inner := i; seq := wrap_u64 (sq + 1) |}, earlier).

(** [Timer::peek_at] *)
Definition peek_at (t : Timer) : option Z := e_at <$> head (heap (inner t)).

(** The [while] loop of [Timer::pop_due]: it pops the head until it is later
    than [now].  [h] is the heap. *)
Fixpoint pop_loop (now : Z) (h : list entry) (i : Inner) : Inner * list (Z * TimerEvent) :=
  match h with
  | [] => (set_heap [] i, [])
  | x :: h' =>
      if now <? e_at x then (set_heap h i, [])
      else if bool_decide (e_seq x ∈ cancelled i) then
        pop_loop now h' (forget_seq (e_seq x) (set_cancelled (cancelled i ∖ {[e_seq x]}) i))
      else
        let i := forget_seq (e_seq x) i in
        let '(i, out) := pop_loop now h' (set_count (wrap_u64 (active_count i - 1)) i) in
        (i, (e_at x, e_event x) :: out)
  end.

(** The compaction at the end of [Timer::pop_due]. *)
Definition compact (i : Inner) : Inner :=
  if (length (heap i) <? size (cancelled i) * 2)%nat then
    let c := cancelled i in
    set_heap (filter (λ x, e_seq x ∉ c) (heap i)) (set_cancelled ∅ i)
  else i.

(** [Timer::pop_due] *)
Definition pop_due (now : Z) (t : Timer) : Timer * list (Z * TimerEvent) :=
  let '(i, out) := pop_loop now (heap (inner t)) (inner t) in
  ({| inner := compact i; seq := seq t |}, out).

(** [Timer::clear] *)
Definition clear (t : Timer) : Timer :=
  {| inner := {| heap := []; cancelled := ∅; active_count := 0; by_run := ∅;
                 by_schedule := ∅; by_rule := ∅; side_of := ∅ |};
     seq := seq t |}.

(** The common body of the three removals. *)
Definition remove_side (side : Side) (key : Z) (t : Timer) : Timer :=
  let i := inner t in
  let seqs := default [] (side_map side i !! key) in
  let i := set_side_map side (delete key (side_map side i)) i in
  {| inner := cancel_all seqs i; seq := seq t |}.

(** [Timer::remove_run_events], [remove_rule_clock], [remove_schedule_events] *)
Definition remove_run_events (run_id : Z) (t : Timer) : Timer := remove_side SideRun run_id t.
Definition remove_rule_clock (rule_id : Z) (t : Timer) : Timer := remove_side SideRule rule_id t.
Definition remove_schedule_events (schedule_id : Z) (t : Timer) : Timer :=
  remove_side SideSchedule schedule_id t.

(** [Timer::has_rule_clock] *)
Definition has_rule_clock (rule_id : Z) (t : Timer) : bool :=
  bool_decide (is_Some (by_rule (inner t) !! rule_id)).

(** [Timer::len], [Timer::is_empty] *)
Definition len (t : Timer) : Z := active_count (inner t).
Definition is_empty (t : Timer) : bool := len t =? 0.

Example pops_in_time_order :
  let t := (push 20 (Fire 2) (push 10 (Due 1) (push 30 (Due 3) Timer_new).1).1).1 in
  peek_at t = Some 10 ∧
  (pop_due 20 t).2 = [(10, Due 1); (20, Fire 2)] ∧
  is_empty (remove_run_events 3 (pop_due 20 t).1) = true.
Proof. vm_compute. done. Qed.

(** ** The side indexes *)

Lemma position_Some x l p : position x l = Some p → l !! p = Some x.
Proof.
  revert p; induction l as [|y l IH]; intros p; simpl; [done|].
  destruct (Z.eqb_spec y x) as [->|].
  - by intros [= <-].
  - intros (q & Hq & ->)%fmap_Some. by apply IH.
Qed.

Lemma position_None x l : position x l = None → x ∉ l.
Proof.
  induction l as [|y l IH]; simpl; [set_solver|].
  destruct (Z.eqb_spec y x); [done|]. intros ?%fmap_None. set_solver.
Qed.

Lemma swap_remove_perm p l x : l !! p = Some x → x :: swap_remove p l ≡ₚ l.
Proof.
  intros Hp. rw /swap_remove.
  destruct l as [|z l _] using rev_ind; [done|]. rw last_snoc length_app /= Nat.add_1_r /=.
  apply lookup_lt_Some in Hp as Hlt. rw length_app /= in Hlt.
  destruct (decide (p = length l)) as [->|Hne].
  - rw list_lookup_middle // in Hp. injection Hp as ->.
    rw insert_app_r_alt // Nat.sub_diag /= take_app_length. by rw Permutation_cons_append.
  - rw lookup_app_l in Hp; [|lia]. rw insert_app_l; [|lia].
    rw (take_app_length' _ _ (length l)); [|by rw length_insert].
    rw -{2}(take_drop_middle l p x) // insert_take_drop; [|lia].
    rw -!Permutation_middle app_nil_r. constructor.
Qed.

Lemma swap_remove_elem p l x :
  NoDup l → l !! p = Some x →
  NoDup (swap_remove p l) ∧ ∀ y, y ∈ swap_remove p l ↔ y ∈ l ∧ y ≠ x.
Proof.
  intros Hnd Hp%swap_remove_perm. generalize dependent (swap_remove p l). intros l' Hp.
  rw -Hp in Hnd. apply NoDup_cons in Hnd as [Hnot Hnd]. split; [done|].
  intros y. rw -Hp elem_of_cons. naive_solver.
Qed.

Definition idx_ok (i : Inner) : Prop :=
  ∀ side k,
    match side_map side i !! k with
    | Some l => l ≠ [] ∧ NoDup l ∧ ∀ s, s ∈ l ↔ side_of i !! s = Some (side, k)
    | None => ∀ s, side_of i !! s ≠ Some (side, k)
    end.

Lemma side_map_set s s' m i :
  side_map s (set_side_map s' m i) = if decide (s = s') then m else side_map s i.
Proof. by destruct s, s'. Qed.

Lemma forget_seq_side sq i : idx_ok i → side_of (forget_seq sq i) = delete sq (side_of i).
Proof.
  intros Hok. rw /forget_seq. destruct (side_of i !! sq) as [[side key]|] eqn:E.
  - assert (side_map side (set_side_of (delete sq (side_of i)) i) = side_map side i) as ->
      by (by destruct side).
    destruct (side_map side i !! key) as [l|]; [|done].
    by destruct (match position sq l with Some p => _ | None => l end).
  - by rw delete_id.
Qed.

Lemma forget_seq_frame sq i :
  heap (forget_seq sq i) = heap i ∧ cancelled (forget_seq sq i) = cancelled i ∧
  active_count (forget_seq sq i) = active_count i.
Proof.
  rw /forget_seq. destruct (side_of i !! sq) as [[side key]|]; [|done].
  destruct (side_map side _ !! key) as [l|]; [|done].
  by destruct (match position sq l with Some p => _ | None => l end).
Qed.

(** Replacing the list of one key, together with the sequences filed under it. *)
Lemma idx_ok_set side0 key m' so' i :
  idx_ok i →
  (∀ k', k' ≠ key → m' !! k' = side_map side0 i !! k') →
  (∀ s sk, sk ≠ (side0, key) → so' !! s = Some sk ↔ side_of i !! s = Some sk) →
  match m' !! key with
  | Some l => l ≠ [] ∧ NoDup l ∧ ∀ s, s ∈ l ↔ so' !! s = Some (side0, key)
  | None => ∀ s, so' !! s ≠ Some (side0, key)
  end →
  idx_ok (set_side_map side0 m' (set_side_of so' i)).
Proof.
  intros Hok Hother Hso Hkey side k. rw side_map_set /=.
  destruct (decide ((side, k) = (side0, key))) as [[= -> ->]|Hdiff].
  - by destruct (decide (side0 = side0)).
  - assert ((if decide (side = side0) then m' else side_map side (set_side_of so' i)) !! k
            = side_map side i !! k) as ->.
    { destruct (decide (side = side0)) as [->|]; [apply Hother; naive_solver|by destruct side]. }
    pose proof (Hok side k) as Hk. destruct (side_map side i !! k) as [l|].
    + destruct Hk as (? & ? & Hk). split_and!; [done|done|]. intros s. by rw Hk Hso.
    + intros s Hs. apply Hso in Hs; [|done]. by apply Hk in Hs.
Qed.

Lemma forget_seq_idx sq i : idx_ok i → idx_ok (forget_seq sq i).
Proof.
  intros Hok. rw /forget_seq. destruct (side_of i !! sq) as [[side key]|] eqn:E; [|done].
  assert (side_map side (set_side_of (delete sq (side_of i)) i) = side_map side i) as ->
    by (by destruct side).
  pose proof (Hok side key) as Hk.
  destruct (side_map side i !! key) as [l|] eqn:El; [|by destruct (Hk sq)].
  destruct Hk as (Hne & Hnd & Hin).
  destruct (position sq l) as [p|] eqn:Ep; [|by apply position_None in Ep; apply Hin in E].
  destruct (swap_remove_elem _ _ _ Hnd (position_Some _ _ _ Ep)) as [Hnd' Hin'].
  assert (Hso : ∀ s sk, sk ≠ (side, key) →
            delete sq (side_of i) !! s = Some sk ↔ side_of i !! s = Some sk).
  { intros s sk. rw lookup_delete. case_decide; naive_solver. }
  destruct (swap_remove p l) as [|z l'].
  - apply (idx_ok_set side key); [done|intros; by rw lookup_delete_ne|done|]. rw lookup_delete_eq.
    intros s. rw lookup_delete. case_decide; [done|]. intros Hs%Hin. set_solver.
  - apply (idx_ok_set side key); [done|intros; by rw lookup_insert_ne|done|]. rw lookup_insert_eq.
    split_and!; [done|done|]. intros s. rw Hin' Hin lookup_delete. case_decide; naive_solver.
Qed.

Lemma index_seq_idx sq e i :
  idx_ok i → side_of i !! sq = None → idx_ok (index_seq sq e i).
Proof.
  intros Hok Hfresh. rw /index_seq. destruct (side_key e) as [[side key]|]; [|done].
  change (idx_ok (set_side_map side
    (<[key:=default [] (side_map side i !! key) ++ [sq]]> (side_map side i))
    (set_side_of (<[sq:=(side, key)]> (side_of i)) i))).
  pose proof (Hok side key) as Hk.
  apply (idx_ok_set side key); [done|intros; by rw lookup_insert_ne| |].
  - intros s sk. rw lookup_insert. case_decide; naive_solver.
  - rw lookup_insert_eq. destruct (side_map side i !! key) as [l|]; simpl.
    + destruct Hk as (Hne & Hnd & Hin). split_and!.
      * by destruct l.
      * apply NoDup_app. split_and!; [done| |apply NoDup_singleton].
        intros s Hs%Hin ->%list_elem_of_singleton. congruence.
      * intros s. rw elem_of_app list_elem_of_singleton lookup_insert Hin.
        case_decide; naive_solver.
    + split_and!; [done|apply NoDup_singleton|]. intros s.
      rw list_elem_of_singleton lookup_insert. case_decide; naive_solver.
Qed.

Lemma index_seq_frame sq e i :
  heap (index_seq sq e i) = heap i ∧ cancelled (index_seq sq e i) = cancelled i ∧
  active_count (index_seq sq e i) = active_count i.
Proof. rw /index_seq. by destruct (side_key e) as [[[] k]|]. Qed.

Lemma index_seq_side sq e i :
  side_of (index_seq sq e i) =
  match side_key e with Some sk => <[sq:=sk]> (side_of i) | None => side_of i end.
Proof. rw /index_seq. by destruct (side_key e) as [[[] k]|]. Qed.

(** [cancel_all]: what it changes. *)
Lemma cancel_all_frame seqs i :
  heap (cancel_all seqs i) = heap i ∧ (∀ s, side_map s (cancel_all seqs i) = side_map s i) ∧
  (∀ s, s ∈ cancelled (cancel_all seqs i) ↔ s ∈ seqs ∨ s ∈ cancelled i) ∧
  (∀ s, side_of (cancel_all seqs i) !! s =
        if bool_decide (s ∈ seqs) then None else side_of i !! s).
Proof.
  rw /cancel_all. revert i; induction seqs as [|q seqs IH]; intros i; simpl.
  { split_and!; try done. intros s. set_solver. }
  destruct (IH (cancel_one i q)) as (-> & Hm & Hc & Hs).
  assert (heap (cancel_one i q) = heap i ∧ (∀ s, side_map s (cancel_one i q) = side_map s i) ∧
          (∀ s, s ∈ cancelled (cancel_one i q) ↔ s = q ∨ s ∈ cancelled i) ∧
          side_of (cancel_one i q) = delete q (side_of i)) as (-> & Hm1 & Hc1 & Hs1).
  { rw /cancel_one. case_bool_decide as Hq; simpl in *; split_and!; try done;
      try (by intros []); intros s; set_solver. }
  split_and!; [done|intros s; by rw Hm Hm1| |].
  - intros s. rw Hc Hc1. set_solver.
  - intros s. rw Hs Hs1 lookup_delete. repeat case_bool_decide; repeat case_decide; set_solver.
Qed.

(** ** Well-formed timers *)

(** The events that are still pending: in the heap and not cancelled. *)
Definition live_of (i : Inner) : list entry := filter (λ x, e_seq x ∉ cancelled i) (heap i).

Record wf_inner (bound : Z) (i : Inner) : Prop := {
  wf_sorted : StronglySorted entry_lt (heap i);
  wf_seqs : NoDup (e_seq <$> heap i);
  wf_bound : Forall (λ x, 0 ≤ e_seq x < bound) (heap i);
  wf_length : Z.of_nat (length (heap i)) ≤ bound ≤ u64_MAX;
  wf_cancelled : ∀ s, s ∈ cancelled i → s ∈ e_seq <$> heap i;
  wf_count : active_count i = Z.of_nat (length (live_of i));
  wf_idx : idx_ok i;
  wf_side : ∀ s sk, side_of i !! s = Some sk ↔
              ∃ x, x ∈ live_of i ∧ e_seq x = s ∧ side_key (e_event x) = Some sk
}.

Definition wf (t : Timer) : Prop := wf_inner (seq t) (inner t).

(** The abstract timer: the pending events in order, and the next number. *)
Record spec_timer : Type := mkSpec { pending : list entry; next_seq : Z }.

Definition spec_of (t : Timer) : spec_timer :=
  {| pending := live_of (inner t); next_seq := seq t |}.

Definition spec_push (at_ : Z) (e : TimerEvent) (s : spec_timer) : spec_timer :=
  {| pending := heap_push {| e_at := at_; e_seq := next_seq s; e_event := e |} (pending s);
     next_seq := next_seq s + 1 |}.
Definition spec_pop (now : Z) (s : spec_timer) : spec_timer * list (Z * TimerEvent) :=
  ({| pending := filter (λ x, now < e_at x) (pending s); next_seq := next_seq s |},
   (λ x, (e_at x, e_event x)) <$> filter (λ x, e_at x ≤ now) (pending s)).
Definition spec_remove (side : Side) (key : Z) (s : spec_timer) : spec_timer :=
  {| pending := filter (λ x, side_key (e_event x) ≠ Some (side, key)) (pending s);
     next_seq := next_seq s |}.
Definition spec_clear (s : spec_timer) : spec_timer :=
  {| pending := []; next_seq := next_seq s |}.

(** *** The heap *)

Lemma entry_ltb_spec a b : reflect (entry_lt a b) (entry_ltb a b).
Proof.
  rw /entry_lt /entry_ltb. apply iff_reflect.
  rw orb_true_iff andb_true_iff Z.ltb_lt Z.eqb_eq Z.ltb_lt. done.
Qed.

#[export] Instance entry_lt_trans : Transitive entry_lt.
Proof. rw /entry_lt. intros x y z. lia. Qed.

Lemma heap_push_perm x h : heap_push x h ≡ₚ x :: h.
Proof.
  induction h as [|y h IH]; simpl; [done|].
  destruct (entry_ltb x y); [done|]. rw IH. constructor.
Qed.

Lemma elem_of_heap_push y x h : y ∈ heap_push x h ↔ y = x ∨ y ∈ h.
Proof. by rw heap_push_perm elem_of_cons. Qed.

Lemma heap_push_below x h :
  Forall (entry_lt x) h → heap_push x h = x :: h.
Proof. destruct 1 as [|y h Hy]; simpl; [done|]. by destruct (entry_ltb_spec x y). Qed.

Lemma heap_push_sorted x h :
  e_seq x ∉ e_seq <$> h → StronglySorted entry_lt h → StronglySorted entry_lt (heap_push x h).
Proof.
  intros Hne. induction 1 as [|y h Hs IH Hy]; simpl; [by repeat constructor|].
  destruct (entry_ltb_spec x y) as [Hxy|Hxy].
  - constructor; [by constructor|]. constructor; [done|].
    eapply Forall_impl; [done|]. intros z Hz. by etrans.
  - rw fmap_cons not_elem_of_cons in Hne. destruct Hne as [Hxe Hne].
    constructor; [by apply IH|]. rw heap_push_perm. constructor; [|done].
    rw /entry_lt in Hxy |- *. lia.
Qed.

Lemma heap_push_filter (P : entry → Prop) `{!∀ x, Decision (P x)} x h :
  StronglySorted entry_lt h →
  filter P (heap_push x h) = if decide (P x) then heap_push x (filter P h) else filter P h.
Proof.
  induction 1 as [|y h Hs IH Hy]; simpl.
  { rw filter_cons filter_nil. by case_decide. }
  destruct (entry_ltb_spec x y) as [Hxy|Hxy].
  - rw filter_cons. case_decide; [|done]. rw heap_push_below //.
    apply Forall_forall. intros z [_ [->|Hz]%elem_of_cons]%list_elem_of_filter; [done|].
    rw Forall_forall in Hy. etrans; [done|]. by apply Hy.
  - rw !(filter_cons _ y) IH. repeat case_decide; simpl; try done.
    by destruct (entry_ltb_spec x y).
Qed.

(** Two entries of a well-formed heap with one number are the same entry. *)
Lemma seq_inj (h : list entry) x y :
  NoDup (e_seq <$> h) → x ∈ h → y ∈ h → e_seq x = e_seq y → x = y.
Proof.
  intros Hnd (i & Hx)%list_elem_of_lookup (j & Hy)%list_elem_of_lookup Heq.
  assert (i = j) as ->; [|congruence].
  eapply NoDup_lookup; [exact Hnd| |]; rw list_lookup_fmap; [by rw Hx|by rw Hy Heq].
Qed.

(** *** The operations refine the abstract timer *)

Lemma wf_new : wf Timer_new.
Proof.
  split; simpl; try done; try by constructor.
  - intros [] k; simpl; by rw lookup_empty.
  - intros s sk. rw lookup_empty. set_solver.
Qed.

Lemma wf_clear t : wf t → wf (clear t) ∧ spec_of (clear t) = spec_clear (spec_of t).
Proof.
  intros Hwf. split; [|done]. destruct (wf_length _ _ Hwf) as [? ?].
  split; simpl; try done; try by constructor.
  - split; [lia|done].
  - intros [] k; simpl; by rw lookup_empty.
  - intros s sk. rw lookup_empty. set_solver.
Qed.

Lemma live_elem i x : x ∈ live_of i ↔ x ∈ heap i ∧ e_seq x ∉ cancelled i.
Proof. rw /live_of list_elem_of_filter. naive_solver. Qed.

Lemma wf_fresh b i : wf_inner b i → b ∉ e_seq <$> heap i.
Proof.
  intros Hwf (x & -> & Hx)%list_elem_of_fmap. pose proof (wf_bound _ _ Hwf) as Hb.
  rw Forall_forall in Hb. apply Hb in Hx. lia.
Qed.

Lemma wf_push at_ e t :
  wf t → seq t < u64_MAX →
  wf (push at_ e t).1 ∧ spec_of (push at_ e t).1 = spec_push at_ e (spec_of t).
Proof.
  intros Hwf Hlt. pose proof (wf_fresh _ _ Hwf) as Hfresh.
  destruct (wf_length _ _ Hwf) as [Hlen _].
  assert (0 ≤ seq t) by lia.
  assert (Hc : seq t ∉ cancelled (inner t)) by (intros ?%(wf_cancelled _ _ Hwf); done).
  assert (Hw : wrap_u64 (seq t + 1) = seq t + 1).
  { rw /wrap_u64 Z.mod_small //. rw /two64 /u64_MAX in Hlt |- *. lia. }
  rw /push /= /wf /spec_of /spec_push /= Hw.
  set (x := {| e_at := at_; e_seq := seq t; e_event := e |}).
  set (i1 := set_heap (heap_push x (heap (inner t))) (inner t)).
  destruct (index_seq_frame (seq t) e i1) as (Hh & Hca & Hn).
  assert (Hlive : ∀ n, live_of (set_count n (index_seq (seq t) e i1)) =
                       heap_push x (live_of (inner t))).
  { intros n. rw /live_of /= Hh Hca /= heap_push_filter; [|by apply Hwf].
    rw decide_True //. }
  split; [|by rw Hlive].
  split.
  - simpl. rw Hh /=. apply heap_push_sorted; [done|apply Hwf].
  - simpl. rw Hh /= heap_push_perm fmap_cons NoDup_cons. split; [done|apply Hwf].
  - simpl. rw Hh /= heap_push_perm. constructor; [simpl; lia|].
    eapply Forall_impl; [apply Hwf|]. simpl. lia.
  - simpl. rw Hh /= heap_push_perm /=. lia.
  - intros s. simpl. rw Hh Hca /= heap_push_perm fmap_cons.
    intros Hs%(wf_cancelled _ _ Hwf). set_solver.
  - rw Hlive heap_push_perm /= Hn /= (wf_count _ _ Hwf).
    assert (length (live_of (inner t)) ≤ length (heap (inner t)))%nat by apply length_filter.
    rw /wrap_u64 Z.mod_small; [lia|]. rw /two64 /u64_MAX in Hlt |- *. lia.
  - apply (index_seq_idx (seq t) e i1).
    + pose proof (wf_idx _ _ Hwf) as Hi. intros s k. apply (Hi s k).
    + simpl. destruct (side_of (inner t) !! seq t) as [sk|] eqn:E; [|done].
      apply (wf_side _ _ Hwf) in E as (y & [Hy _]%live_elem & Hs & _).
      destruct Hfresh. apply list_elem_of_fmap. eauto.
  - intros s sk. rw Hlive /= index_seq_side /=. setoid_rewrite elem_of_heap_push.
    destruct (side_key e) as [sk0|] eqn:Ek; rw ?lookup_insert; try case_decide; subst;
      rw ?(wf_side _ _ Hwf); split; try naive_solver.
    intros (y & [->|Hy] & Hs & Hk); [simpl in Hk; congruence|].
    destruct Hfresh. apply live_elem in Hy as [Hy _]. apply list_elem_of_fmap. eauto.
Qed.

Lemma wf_set_heap_self b i : wf_inner b i → wf_inner b (set_heap (heap i) i).
Proof. by destruct i. Qed.

(** Popping a cancelled head: nothing pending changes. *)
Lemma pop_cancelled b x h i :
  wf_inner b (set_heap (x :: h) i) → e_seq x ∈ cancelled i →
  let i' := forget_seq (e_seq x) (set_cancelled (cancelled i ∖ {[e_seq x]}) i) in
  wf_inner b (set_heap h i') ∧ live_of (set_heap h i') = live_of (set_heap (x :: h) i).
Proof.
  intros Hwf Hx i'.
  assert (Hi' : i' = set_cancelled (cancelled i ∖ {[e_seq x]}) i).
  { rw /i' /forget_seq /=. destruct (side_of i !! e_seq x) as [sk|] eqn:E; [|done].
    apply (wf_side _ _ Hwf) in E as (y & [_ Hy]%live_elem & Hs & _). simpl in Hy. by rw Hs in Hy. }
  pose proof (wf_seqs _ _ Hwf) as Hnd. simpl in Hnd. apply NoDup_cons in Hnd as [Hnot Hnd].
  assert (Hlive : live_of (set_heap h i') = live_of (set_heap (x :: h) i)).
  { rw Hi' /live_of /= filter_cons decide_False; [|naive_solver].
    apply filter_ext_in. intros y Hy. rw not_elem_of_difference elem_of_singleton.
    split; [|by left].
    intros [?|Heq]; [done|]. destruct Hnot. rw -Heq. by apply list_elem_of_fmap_2. }
  split; [|done].
  destruct Hwf as [Hs _ Hb Hl Hc Hn Hi Hsd]. simpl in *.
  split.
  - rw Hi' /=. by apply StronglySorted_inv in Hs as [].
  - by rw Hi' /=.
  - rw Hi' /=. by apply Forall_cons in Hb as [].
  - rw Hi' /=. lia.
  - rw Hi' /=. intros s [Hs1 Hs2]%elem_of_difference. apply Hc in Hs1. set_solver.
  - rw Hlive -Hn Hi' //.
  - intros s k. rw Hi'. apply (Hi s k).
  - intros s sk. rw Hlive -Hsd Hi' //.
Qed.

(** Popping a pending head: it leaves the pending events and the indexes. *)
Lemma pop_live b x h i :
  wf_inner b (set_heap (x :: h) i) → e_seq x ∉ cancelled i →
  let i1 := forget_seq (e_seq x) i in
  let i' := set_count (wrap_u64 (active_count i1 - 1)) i1 in
  wf_inner b (set_heap h i') ∧
  live_of (set_heap (x :: h) i) = x :: live_of (set_heap h i').
Proof.
  intros Hwf Hx i1 i'.
  assert (Hidx : idx_ok i) by (intros s k; apply (wf_idx _ _ Hwf s k)).
  destruct (forget_seq_frame (e_seq x) i) as (_ & Hca & Hn).
  pose proof (wf_seqs _ _ Hwf) as Hnd. simpl in Hnd. apply NoDup_cons in Hnd as [Hnot Hnd].
  assert (Hlive : live_of (set_heap (x :: h) i) = x :: live_of (set_heap h i')).
  { rw /live_of /= Hca filter_cons decide_True //. }
  split; [|done].
  destruct Hwf as [Hs _ Hb Hl Hc Hcnt Hi Hsd]. simpl in *.
  split; simpl.
  - by apply StronglySorted_inv in Hs as [].
  - done.
  - by apply Forall_cons in Hb as [].
  - lia.
  - rw Hca. intros s Hs1. pose proof (Hc _ Hs1) as [->|]%elem_of_cons; done.
  - rw Hn Hcnt Hlive /=. rw /wrap_u64 Z.mod_small; [lia|].
    assert (length (live_of (set_heap h i')) ≤ length h)%nat by apply length_filter.
    rw /two64 /u64_MAX in Hl |- *. lia.
  - intros s k. apply (forget_seq_idx (e_seq x) i Hidx s k).
  - intros s sk. rw (forget_seq_side _ _ Hidx) lookup_delete.
    case_decide as Heq.
    + split; [done|]. intros (y & [Hy _]%live_elem & Hs1 & _). destruct Hnot.
      rw Heq -Hs1. by apply list_elem_of_fmap_2.
    + rw Hsd Hlive. set_solver.
Qed.

Lemma pop_loop_ok b now h i :
  wf_inner b (set_heap h i) →
  wf_inner b (pop_loop now h i).1 ∧
  live_of (pop_loop now h i).1 = filter (λ x, now < e_at x) (live_of (set_heap h i)) ∧
  (pop_loop now h i).2 =
    (λ x, (e_at x, e_event x)) <$> filter (λ x, e_at x ≤ now) (live_of (set_heap h i)).
Proof.
  revert i; induction h as [|x h IH]; intros i Hwf; simpl; [done|].
  destruct (Z.ltb_spec now (e_at x)) as [Hlt|Hle].
  { assert (Hall : Forall (λ y, now < e_at y) (live_of (set_heap (x :: h) i))).
    { apply Forall_forall. intros y [Hy _]%live_elem. simpl in Hy.
      apply elem_of_cons in Hy as [->|Hy]; [done|].
      destruct (StronglySorted_inv (wf_sorted _ _ Hwf)) as [_ Hx].
      rw Forall_forall in Hx. apply Hx in Hy. rw /entry_lt in Hy. lia. }
    simpl. rw filter_all // filter_none //.
    eapply Forall_impl; [exact Hall|]. simpl. lia. }
  case_bool_decide as Hc.
  - destruct (pop_cancelled _ _ _ _ Hwf Hc) as [Hwf' Hl]. rw -Hl. by apply IH.
  - destruct (pop_live _ _ _ _ Hwf Hc) as [Hwf' Hl]. rw Hl.
    destruct (IH _ Hwf') as (H1 & H2 & H3).
    destruct (pop_loop now h _) as [i' out]. simpl in *.
    rw !filter_cons decide_False; [|lia]. rw decide_True; [|lia]. by rw H3.
Qed.

Lemma compact_ok b i : wf_inner b i → wf_inner b (compact i) ∧ live_of (compact i) = live_of i.
Proof.
  intros Hwf. rw /compact. destruct (_ <? _)%nat; [|done].
  assert (Hlive : live_of (set_heap (filter (λ x, e_seq x ∉ cancelled i) (heap i))
                             (set_cancelled ∅ i)) = live_of i).
  { rw /live_of /= filter_all //. apply Forall_forall. set_solver. }
  split; [|done]. destruct Hwf as [Hs Hnd Hb Hl Hc Hn Hi Hsd]. split; simpl.
  - by apply StronglySorted_filter.
  - by apply NoDup_fmap_filter.
  - apply Forall_forall. intros x [_ Hx]%list_elem_of_filter. rw Forall_forall in Hb. auto.
  - pose proof (length_filter (λ x, e_seq x ∉ cancelled i) (heap i)). lia.
  - set_solver.
  - by rw Hlive.
  - intros s k. apply (Hi s k).
  - intros s sk. by rw Hlive Hsd.
Qed.

Lemma wf_pop_due now t :
  wf t →
  wf (pop_due now t).1 ∧
  (spec_of (pop_due now t).1, (pop_due now t).2) = spec_pop now (spec_of t).
Proof.
  intros Hwf. destruct (pop_loop_ok _ now _ _ (wf_set_heap_self _ _ Hwf)) as (H1 & H2 & H3).
  rw /pop_due. destruct (pop_loop now (heap (inner t)) (inner t)) as [i out]. simpl in *.
  destruct (compact_ok _ _ H1) as [H4 H5]. split; [done|].
  rw /spec_of /spec_pop /= H5 H2 H3. by destruct (inner t).
Qed.

(** [cancel_all] on distinct pending numbers takes each off the count once. *)
Lemma cancel_all_count seqs i :
  NoDup seqs → (∀ s, s ∈ seqs → s ∉ cancelled i) →
  Z.of_nat (length seqs) ≤ active_count i ≤ u64_MAX →
  active_count (cancel_all seqs i) = active_count i - Z.of_nat (length seqs).
Proof.
  rw /cancel_all. intros Hnd. revert i.
  induction Hnd as [|q seqs Hq Hnd IH]; intros i Hc Hb; simpl; [lia|].
  assert (cancel_one i q = set_count (active_count i - 1)
            (set_cancelled ({[q]} ∪ cancelled i) (set_side_of (delete q (side_of i)) i))) as ->.
  { rw /cancel_one /= bool_decide_eq_false_2; [|set_solver].
    rw /wrap_u64 Z.mod_small //. rw /u64_MAX /two64 in Hb |- *. simpl in Hb. lia. }
  rw IH /=; [lia|set_solver|simpl in Hb; lia].
Qed.

(** Removing a key: the numbers filed under it are those of its pending
    events, so the cancellation takes exactly these off. *)
Section remove_key.
Context (b : Z) (i : Inner) (Hwf : wf_inner b i) (side : Side) (key : Z).

Local Definition filed : list Z := default [] (side_map side i !! key).
Local Definition after_removal : Inner :=
  cancel_all filed (set_side_map side (delete key (side_map side i)) i).

Lemma filed_spec : NoDup filed ∧ ∀ s, s ∈ filed ↔ side_of i !! s = Some (side, key).
Proof using Hwf.
  pose proof (wf_idx _ _ Hwf side key) as Hk. rw /filed.
  destruct (side_map side i !! key) as [l|]; simpl in *; [by destruct Hk as (_ & ? & ?)|].
  split; [constructor|]. set_solver.
Qed.

Lemma filed_live s :
  s ∈ filed ↔ ∃ x, x ∈ live_of i ∧ e_seq x = s ∧ side_key (e_event x) = Some (side, key).
Proof using Hwf. by rw (proj2 filed_spec) (wf_side _ _ Hwf). Qed.

Lemma filed_entry x : x ∈ heap i → e_seq x ∈ filed → side_key (e_event x) = Some (side, key).
Proof using Hwf.
  intros Hx (y & [Hy _]%live_elem & He & Hk)%filed_live.
  by rw -(seq_inj _ _ _ (wf_seqs _ _ Hwf) Hy Hx He).
Qed.

Lemma removal_live :
  live_of after_removal = filter (λ x, side_key (e_event x) ≠ Some (side, key)) (live_of i).
Proof using Hwf.
  destruct (cancel_all_frame filed (set_side_map side (delete key (side_map side i)) i))
    as (Hh & _ & Hc & _).
  rw /live_of /after_removal Hh list_filter_filter. apply filter_ext_in. intros x Hx. rw Hc /=. split.
  - intros Hn. split; [|by intros ?; apply Hn; right]. intros Hk. apply Hn. left.
    apply filed_live. exists x. split_and!; [|done|done]. apply live_elem. split; [done|].
    intros ?. apply Hn. by right.
  - intros [Hk Hcn] [Hf|?]; [|done]. by apply Hk, filed_entry.
Qed.

Lemma removal_length : (length filed + length (live_of after_removal) = length (live_of i))%nat.
Proof using Hwf.
  pose proof (Permutation_length (filter_split_perm
    (λ x, side_key (e_event x) = Some (side, key)) (live_of i))) as Hp.
  rw length_app -(length_fmap e_seq (filter _ (live_of i))) in Hp. rw removal_live Hp. f_equal.
  apply Permutation_length, NoDup_Permutation; [apply filed_spec| |].
  - apply NoDup_fmap_filter, NoDup_fmap_filter, Hwf.
  - intros s. rw filed_live list_elem_of_fmap.
    split; [intros (x & ? & <- & ?)|intros (x & -> & [? ?]%list_elem_of_filter)];
      exists x; [split; [done|by apply list_elem_of_filter]|done].
Qed.

Lemma removal_count : active_count after_removal = Z.of_nat (length (live_of after_removal)).
Proof using Hwf.
  pose proof (wf_count _ _ Hwf) as Hcnt. destruct (wf_length _ _ Hwf) as [Hl1 Hl2].
  assert (length (live_of i) ≤ length (heap i))%nat by apply length_filter.
  pose proof removal_length as Hlen. rw /after_removal cancel_all_count.
  - change (active_count i - Z.of_nat (length filed) = Z.of_nat (length (live_of after_removal))). lia.
  - apply filed_spec.
  - by intros s (x & [_ Hx]%live_elem & <- & _)%filed_live.
  - change (Z.of_nat (length filed) ≤ active_count i ≤ u64_MAX). lia.
Qed.

Lemma removal_side s sk :
  side_of after_removal !! s = Some sk ↔ side_of i !! s = Some sk ∧ sk ≠ (side, key).
Proof using Hwf.
  destruct (cancel_all_frame filed (set_side_map side (delete key (side_map side i)) i))
    as (_ & _ & _ & Hs).
  rw /after_removal Hs /=. case_bool_decide as Hs0; rw (proj2 filed_spec) in Hs0; [|naive_solver].
  split; [done|]. intros [? ?]. congruence.
Qed.

Lemma removal_idx : idx_ok after_removal.
Proof using Hwf.
  destruct (cancel_all_frame filed (set_side_map side (delete key (side_map side i)) i))
    as (_ & Hm & _ & _).
  intros side' k'. fold after_removal in Hm. rw Hm side_map_set.
  pose proof (wf_idx _ _ Hwf side' k') as Hk.
  assert (Hkeep : (side', k') ≠ (side, key) →
    match side_map side' i !! k' with
    | Some l => l ≠ [] ∧ NoDup l ∧ ∀ s, s ∈ l ↔ side_of after_removal !! s = Some (side', k')
    | None => ∀ s, side_of after_removal !! s ≠ Some (side', k')
    end).
  { intros Hne. destruct (side_map side' i !! k') as [l|]; [|intros s ?%removal_side; naive_solver].
    destruct Hk as (? & ? & Hk). split_and!; [done|done|]. intros s. rw removal_side Hk. naive_solver. }
  destruct (decide (side' = side)) as [->|Hne]; [|apply Hkeep; congruence].
  rw lookup_delete. destruct (decide (key = k')) as [<-|Heq]; [|apply Hkeep; congruence].
  intros s [_ ?]%removal_side. done.
Qed.

Lemma wf_removal : wf_inner b after_removal.
Proof using Hwf.
  destruct (cancel_all_frame filed (set_side_map side (delete key (side_map side i)) i))
    as (Hh & _ & Hc & _). fold after_removal in Hh, Hc. simpl in Hh.
  split; rw ?Hh; try apply Hwf; [|apply removal_count|apply removal_idx|].
  - intros s [(x & [Hx _]%live_elem & <- & _)%filed_live|Hcs]%Hc; [by apply list_elem_of_fmap_2|].
    by apply (wf_cancelled _ _ Hwf).
  - intros s sk. rw removal_side (wf_side _ _ Hwf) removal_live. split.
    + intros [(x & Hx & Hs & Hk) Hne]. exists x. split_and!; [|done|done].
      apply list_elem_of_filter. split; [congruence|done].
    + intros (x & [Hne Hx]%list_elem_of_filter & Hs & Hk). split; [by exists x|congruence].
Qed.
End remove_key.

Lemma wf_remove_side side key t :
  wf t →
  wf (remove_side side key t) ∧
  spec_of (remove_side side key t) = spec_remove side key (spec_of t).
Proof.
  intros Hwf. split; [by apply wf_removal|].
  rw /spec_of /spec_remove /=. f_equal. by apply (removal_live _ _ Hwf).
Qed.

(** ** Sequences of operations *)

Inductive op : Type :=
| OpPush (at_ : Z) (e : TimerEvent)
| OpPopDue (now : Z)
| OpRemove (side : Side) (key : Z)
| OpClear.

(** The three removals are [OpRemove] at their side. *)
Definition exec (t : Timer) (o : op) : Timer * list (Z * TimerEvent) :=
  match o with
  | OpPush at_ e => ((push at_ e t).1, [])
  | OpPopDue now => pop_due now t
  | OpRemove SideRun r => (remove_run_events r t, [])
  | OpRemove SideSchedule s => (remove_schedule_events s t, [])
  | OpRemove SideRule r => (remove_rule_clock r t, [])
  | OpClear => (clear t, [])
  end.

Definition spec_exec (s : spec_timer) (o : op) : spec_timer * list (Z * TimerEvent) :=
  match o with
  | OpPush at_ e => (spec_push at_ e s, [])
  | OpPopDue now => spec_pop now s
  | OpRemove side k => (spec_remove side k s, [])
  | OpClear => (spec_clear s, [])
  end.

Fixpoint run_ops {S} (f : S → op → S * list (Z * TimerEvent)) (s : S) (ops : list op)
    : S * list (Z * TimerEvent) :=
  match ops with
  | [] => (s, [])
  | o :: ops' =>
      let '(s1, out1) := f s o in
      let '(s2, out2) := run_ops f s1 ops' in
      (s2, out1 ++ out2)
  end.

Lemma exec_refines t o :
  wf t → seq t < u64_MAX →
  wf (exec t o).1 ∧ seq t ≤ seq (exec t o).1 ≤ seq t + 1 ∧
  spec_exec (spec_of t) o = (spec_of (exec t o).1, (exec t o).2).
Proof.
  intros Hwf Hlt. destruct o as [at_ e|now|side k|]; simpl.
  - destruct (wf_push at_ e t Hwf Hlt) as [Hw Hs]. split; [done|].
    pose proof (f_equal next_seq Hs) as Hq. simpl in Hq.
    split; [lia|]. by rw -Hs.
  - destruct (wf_pop_due now t Hwf) as [Hw Hs]. split; [done|].
    rw /pop_due in Hs Hw |- *.
    destruct (pop_loop now (heap (inner t)) (inner t)) as [i out]. simpl in *.
    split; [lia|]. by rw -Hs.
  - destruct (wf_remove_side side k t Hwf) as [Hw Hs]. destruct side; simpl;
      (split; [exact Hw|]); (split; [simpl; lia|]); by rw -Hs.
  - destruct (wf_clear t Hwf) as [Hw Hs]. split; [done|]. split; [simpl; lia|]. by rw -Hs.
Qed.

Lemma run_ops_refines ops t :
  wf t → seq t + Z.of_nat (length ops) ≤ u64_MAX →
  wf (run_ops exec t ops).1 ∧
  run_ops spec_exec (spec_of t) ops = (spec_of (run_ops exec t ops).1, (run_ops exec t ops).2).
Proof.
  revert t; induction ops as [|o ops IH]; intros t Hwf Hb; simpl; [done|]. simpl in Hb.
  destruct (exec_refines t o Hwf ltac:(lia)) as (Hw1 & Hq & Hs). rw Hs.
  destruct (exec t o) as [t1 out1]. simpl in *.
  destruct (IH t1 Hw1 ltac:(lia)) as [Hw2 Hs2]. rw Hs2.
  by destruct (run_ops exec t1 ops) as [t2 out2].
Qed.

Lemma run_ops_app {S} f (s : S) ops1 ops2 :
  run_ops f s (ops1 ++ ops2) =
  ((run_ops f (run_ops f s ops1).1 ops2).1,
   (run_ops f s ops1).2 ++ (run_ops f (run_ops f s ops1).1 ops2).2).
Proof.
  revert s; induction ops1 as [|o ops1 IH]; intros s; simpl.
  { by destruct (run_ops f s ops2). }
  destruct (f s o) as [s1 o1]. rw IH. destruct (run_ops f s1 ops1) as [s2 o2]. simpl.
  destruct (run_ops f s2 ops2) as [s3 o3]. simpl. by rw app_assoc.
Qed.

(** Abstractly, an event the pending list does not hold and nobody pushes is
    never popped. *)
Definition pushes (sk : Side * Z) (o : op) : Prop :=
  ∃ at_ e, o = OpPush at_ e ∧ side_key e = Some sk.

Lemma spec_never_fires sk ops s :
  Forall (λ x, side_key (e_event x) ≠ Some sk) (pending s) →
  Forall (λ o, ¬ pushes sk o) ops →
  Forall (λ te, side_key te.2 ≠ Some sk) (run_ops spec_exec s ops).2.
Proof.
  revert s; induction ops as [|o ops IH]; intros s Hs Hops; simpl; [constructor|].
  apply Forall_cons in Hops as [Ho Hops].
  assert (H : Forall (λ x, side_key (e_event x) ≠ Some sk) (pending (spec_exec s o).1) ∧
              Forall (λ te, side_key te.2 ≠ Some sk) (spec_exec s o).2).
  { rw !Forall_forall in Hs |- *. destruct o as [at_ e|now|side k|]; simpl; split.
    - intros x [->|Hx]%elem_of_heap_push; [|by apply Hs]. intros He. apply Ho. by exists at_, e.
    - set_solver.
    - intros x [_ Hx]%list_elem_of_filter. by apply Hs.
    - intros te (x & -> & [_ Hx]%list_elem_of_filter)%list_elem_of_fmap. by apply Hs.
    - intros x [_ Hx]%list_elem_of_filter. by apply Hs.
    - set_solver.
    - set_solver.
    - set_solver. }
  destruct (spec_exec s o) as [s1 out1]. destruct H as [H1 H2]. simpl in *.
  specialize (IH s1 H1 Hops). destruct (run_ops spec_exec s1 ops) as [s2 out2].
  by apply Forall_app.
Qed.

(** C2: the timer with lazy deletion, side indexes and compaction implements
    the abstract timer, an ordered list of pending events: on every sequence of
    pushes, pops, removals and clears shorter than 2^64, it hands out exactly
    the events the abstract timer hands out, in the same order, its pending
    events are the abstract ones, [len] is their number (the count never
    underflows), and its internal invariant holds. *)
Theorem timer_refines ops :
  Z.of_nat (length ops) ≤ u64_MAX →
  let t := (run_ops exec Timer_new ops).1 in
  wf t ∧
  run_ops spec_exec (spec_of Timer_new) ops = (spec_of t, (run_ops exec Timer_new ops).2) ∧
  len t = Z.of_nat (length (pending (spec_of t))) ∧
  (∀ r, has_rule_clock r t = true ↔ ∃ x, x ∈ pending (spec_of t) ∧ e_event x = RuleClock r).
Proof.
  intros Hb t. destruct (run_ops_refines ops Timer_new wf_new Hb) as [Hwf Hs].
  split_and!; [done|done|apply Hwf|]. fold t in Hwf. intros r.
  rw /has_rule_clock bool_decide_eq_true. pose proof (wf_idx _ _ Hwf SideRule r) as Hk.
  simpl in Hk. split.
  - intros [l Hl]. rw Hl in Hk. destruct Hk as (Hne & _ & Hin). destruct l as [|s l]; [done|].
    destruct (proj1 (wf_side _ _ Hwf s (SideRule, r))) as (x & Hx & _ & Hsk);
      [apply Hin; set_solver|]. exists x. split; [done|].
    by destruct (e_event x); simplify_eq/=.
  - intros (x & Hx & He). destruct (by_rule (inner t) !! r) as [l|]; [done|].
    destruct (Hk (e_seq x)). apply (wf_side _ _ Hwf). exists x. by rw He.
Qed.

Lemma timer_refines_witness :
  len (run_ops exec Timer_new
    [OpPush 10 (Due 1); OpPush 20 (RuleClock 7); OpRemove SideRun 1; OpPopDue 15]).1 = 1.
Proof.
  destruct (timer_refines [OpPush 10 (Due 1); OpPush 20 (RuleClock 7); OpRemove SideRun 1;
    OpPopDue 15]) as (_ & _ & H & _); [vm_compute; discriminate|].
  exact H.
Defined.

(** Once a run's (schedule's, rule's) events are removed, none of them
    ever fires, through pops, compactions and other removals, unless a new one
    is pushed. *)
Theorem removed_never_fires side key ops1 ops2 :
  Z.of_nat (length ops1 + S (length ops2)) ≤ u64_MAX →
  Forall (λ o, ¬ pushes (side, key) o) ops2 →
  let t := (run_ops exec Timer_new (ops1 ++ [OpRemove side key])).1 in
  Forall (λ te, side_key te.2 ≠ Some (side, key)) (run_ops exec t ops2).2.
Proof.
  intros Hb Hops t.
  assert (Hrun : run_ops spec_exec (spec_of Timer_new) (ops1 ++ [OpRemove side key]) =
                 (spec_of t, (run_ops exec Timer_new (ops1 ++ [OpRemove side key])).2) ∧
          run_ops spec_exec (spec_of Timer_new) ((ops1 ++ [OpRemove side key]) ++ ops2) =
                 (spec_of (run_ops exec Timer_new ((ops1 ++ [OpRemove side key]) ++ ops2)).1,
                  (run_ops exec Timer_new ((ops1 ++ [OpRemove side key]) ++ ops2)).2)).
  { split; apply run_ops_refines; try apply wf_new; rw !length_app /=; lia. }
  destruct Hrun as [H1 H2]. rw (run_ops_app exec) (run_ops_app spec_exec) H1 in H2.
  injection H2 as _ H2. simpl in H2. apply app_inv_head in H2. fold t in H2. rw -H2.
  apply spec_never_fires; [|done].
  rw run_ops_app in H1. apply (f_equal fst) in H1. simpl fst in H1. rw -H1.
  apply Forall_forall. by intros x [? _]%list_elem_of_filter.
Qed.

Lemma removed_never_fires_witness :
  Forall (λ te, side_key te.2 ≠ Some (SideRun, 1))
    (run_ops exec (run_ops exec Timer_new
       ([OpPush 10 (Due 1); OpPush 12 (Due 2)] ++ [OpRemove SideRun 1])).1 [OpPopDue 20]).2.
Proof.
  apply (removed_never_fires SideRun 1 [OpPush 10 (Due 1); OpPush 12 (Due 2)] [OpPopDue 20]).
  - vm_compute. discriminate.
  - repeat constructor. intros (? & ? & ? & ?). discriminate.
Defined.

(** The scheduler task never sleeps past an event: the head it sleeps
    until is no later than any pending event, and a push that does not wake it
    is no earlier than that head. *)
Theorem sleeper_never_late t :
  wf t →
  (∀ x, x ∈ pending (spec_of t) → ∃ h, peek_at t = Some h ∧ h ≤ e_at x) ∧
  (∀ at_ e, (push at_ e t).2 = false → ∃ h, peek_at t = Some h ∧ h ≤ at_).
Proof.
  intros Hwf. rw /peek_at. split.
  - intros x [Hx _]%live_elem. pose proof (wf_sorted _ _ Hwf) as Hs.
    destruct (heap (inner t)) as [|y h]; [set_solver|]. exists (e_at y). split; [done|].
    apply elem_of_cons in Hx as [->|Hx]; [done|].
    apply StronglySorted_inv in Hs as [_ Hy]. rw Forall_forall in Hy.
    apply Hy in Hx. rw /entry_lt in Hx. lia.
  - intros at_ e. simpl. destruct (heap (inner t)) as [|y h]; [done|].
    intros Hlt%Z.ltb_ge. by exists (e_at y).
Qed.

Lemma sleeper_never_late_witness :
  ∃ h, peek_at (push 10 (Due 1) Timer_new).1 = Some h ∧ h ≤ 10.
Proof.
  apply (sleeper_never_late (push 10 (Due 1) Timer_new).1)
    with (x := {| e_at := 10; e_seq := 0; e_event := Due 1 |}).
  - apply wf_push; [apply wf_new|reflexivity].
  - vm_compute. left.
Defined.
