(* ===== verification/Schedules.v ===== *)
(** * Schedules: types, compilation and fire walks (core/src/schedule.rs)

    A schedule is compiled once (its time zone resolved, its expression
    parsed) and then walked forwards ([next_fires], [fires_between]) or, for a
    cron, backwards ([fires_before]).

    The time-zone database, the cron parser and the rrule parser are
    third-party crates: they are the fields of [ScheduleEnv], with what the
    code relies on as [TzLaws] and [CronLaws].  An instant ([DateTime<Utc>])
    is its number of microseconds since the epoch; a local time
    ([NaiveDateTime]) is the microseconds its wall clock would show since the
    epoch, so its date is the quotient and its time of day the remainder by a
    day.  chrono panics on instants beyond its range (about 262,000 years);
    arithmetic here is exact, so the theorems speak of instants inside it. *)

From S2P Require Import Prelude Float64.
From Stdlib Require Import Ascii.

Inductive CatchupPolicy : Type := Skip | Latest | All.

#[global] Instance CatchupPolicy_eq_dec : EqDecision CatchupPolicy.
Proof. solve_decision. Defined.

Definition CatchupPolicy_as_str (p : CatchupPolicy) : string :=
  match p with Skip => "skip" | Latest => "latest" | All => "all" end.

Definition CatchupPolicy_parse (text : string) : option CatchupPolicy :=
  let t := to_ascii_lowercase text in
  if t =?s "skip" then Some Skip
  else if t =?s "latest" then Some Latest
  else if t =?s "all" then Some All
  else None.

Inductive Schedule : Type :=
| Cron (cron : string) (timezone : option string) (day_or : bool)
| Interval (interval : f64) (anchor : option Z) (timezone : option string)
| RRule (rrule : string) (timezone : option string)
| Continuous (delay : f64).

Inductive ScheduleError : Type :=
| ErrCron (expr message : string)
| ErrTimezone (name : string)
| ErrInterval
| ErrRRule (message : string)
| ErrInvalid (message : string).

(** What the code takes from chrono, chrono-tz, croner, rrule and the host. *)
Class ScheduleEnv : Type := {
  Tz : Type;
  CronExpr : Type;
  RRuleSet : Type;
  (* chrono-tz *)
  tz_parse : string → option Tz;
  tz_name : Tz → string;
  tz_UTC : Tz;
  (** the wall clock of a zone at an instant *)
  to_local : Tz → Z → Z;
  (** [from_local_datetime(..).earliest()] *)
  from_local : Tz → Z → option Z;
  (* chrono: the instants a [DateTime<Utc>] can hold *)
  utc_min : Z;
  utc_max : Z;
  (* croner *)
  cron_parse : string → bool → result CronExpr string;
  find_next_occurrence : CronExpr → Tz → Z → option Z;
  find_previous_occurrence : CronExpr → Tz → Z → option Z;
  (* rrule: [set.after(t).all(n).dates] as instants *)
  rrule_parse : string → result RRuleSet string;
  rrule_after_all : RRuleSet → Tz → Z → nat → list Z;
  (* the host: the TZ variable and the target of /etc/localtime *)
  env_TZ : option string;
  etc_localtime : option string;
}.

Definition day_micros : Z := 86400000000.
Definition minute_micros : Z := 60000000.
Definition date_naive (local : Z) : Z := local / day_micros.
Definition time_naive (local : Z) : Z := local mod day_micros.

(** ** Text helpers: [to_ascii_uppercase], [replace], [replacen(.., 1)], [lines] *)

Definition ascii_upper (a : ascii) : ascii :=
  let n := nat_of_ascii a in
  if ((97 <=? n)%nat && (n <=? 122)%nat) then ascii_of_nat (n - 32) else a.

Fixpoint to_ascii_uppercase (s : string) : string :=
  match s with
  | EmptyString => EmptyString
  | String a s' => String (ascii_upper a) (to_ascii_uppercase s')
  end.

Definition contains_str (p s : string) : bool := is_some (split_once_str p s).

Definition newline : ascii := ascii_of_nat 10.
Definition carriage_return : ascii := ascii_of_nat 13.
Definition backslash : ascii := ascii_of_nat 92.

(** [text.replace("\\n", "\n")]: a backslash followed by an [n] becomes a line feed. *)
Fixpoint unescape_newlines (s : string) : string :=
  match s with
  | EmptyString => EmptyString
  | String a s' =>
      match s' with
      | String b s'' =>
          if Ascii.eqb a backslash && Ascii.eqb b "n"%char then
            String newline (unescape_newlines s'')
          else String a (unescape_newlines s')
      | EmptyString => String a EmptyString
      end
  end.

(** [text.replacen(p, by, 1)] *)
Definition replace_first (p by_ s : string) : string :=
  match split_once_str p s with
  | Some (b, r) => b +:+ by_ +:+ r
  | None => s
  end.

(** [str::lines]: the pieces between line feeds; a piece that a line feed ends
    loses its carriage return, and the last piece counts only when it is not
    empty. *)
Fixpoint split_lines (s : string) : list string :=
  match s with
  | EmptyString => [""]
  | String a s' =>
      if Ascii.eqb a newline then "" :: split_lines s'
      else match split_lines s' with
           | l :: ls => String a l :: ls
           | [] => [String a EmptyString]
           end
  end.
Definition strip_cr (l : string) : string := default l (strip_suffix_char carriage_return l).
Fixpoint end_lines (pieces : list string) : list string :=
  match pieces with
  | [] => []
  | [l] => if str_is_empty l then [] else [l]
  | l :: ls => strip_cr l :: end_lines ls
  end.
Definition lines (s : string) : list string := end_lines (split_lines s).

(** Whether the [DTSTART] line states a zone of its own. *)
Definition dtstart_names_a_zone (text : string) : bool :=
  match List.find (λ line, starts_with (to_ascii_uppercase line) "DTSTART") (lines text) with
  | Some line =>
      let upper := to_ascii_uppercase line in
      contains_str "TZID=" upper
      || ends_with_char (trim_end_matches is_white_space upper) "Z"%char
  | None => false
  end.

Section schedules.
Context `{ScheduleEnv}.

(** [str::find("zoneinfo/")] and the text nine bytes on. *)
Definition local_tz : Tz :=
  match and_then env_TZ tz_parse with
  | Some tz => tz
  | None =>
      match and_then (and_then etc_localtime (split_once_str "zoneinfo/"))
                     (λ br, tz_parse br.2) with
      | Some tz => tz
      | None => tz_UTC
      end
  end.

Definition resolve_tz (name : option string) : result Tz ScheduleError :=
  match name with
  | None => Ok local_tz
  | Some n =>
      if (n =?s "") || (n =?s "local") then Ok local_tz
      else match tz_parse n with
           | Some tz => Ok tz
           | None => Err (ErrTimezone n)
           end
  end.

Definition in_utc_range (m : Z) : bool := (utc_min <=? m) && (m <=? utc_max).

(** [from_micros], with the clock it falls back to. *)
Definition from_micros (now micros : Z) : Z := if in_utc_range micros then micros else now.

Definition parse_cron (expr : string) (day_or : bool) : result CronExpr ScheduleError :=
  match cron_parse expr day_or with
  | Ok c => Ok c
  | Err message => Err (ErrCron expr message)
  end.

(** The rrule text handed to the parser: the zone written in when [DTSTART]
    names none. *)
Definition rrule_text (text : string) (tz : Tz) : string :=
  let normalized := unescape_newlines text in
  if dtstart_names_a_zone normalized then normalized
  else replace_first "DTSTART:" ("DTSTART;TZID=" +:+ tz_name tz +:+ ":") normalized.

Definition parse_rrule (text : string) (tz : Tz) : result RRuleSet ScheduleError :=
  if negb (contains_str "DTSTART" (to_ascii_uppercase text)) then
    Err (ErrRRule "rrule must include DTSTART")
  else
    match rrule_parse (rrule_text text tz) with
    | Ok set => Ok set
    | Err e => Err (ErrRRule e)
    end.

Inductive Compiled : Type :=
| CCron (cron : CronExpr) (tz : Tz)
| CInterval (interval : f64) (anchor : Z) (tz : Tz)
| CRRule (set : RRuleSet) (tz : Tz)
| CNone.

Definition compile (now : Z) (s : Schedule) : result Compiled ScheduleError :=
  match s with
  | Cron cron timezone day_or =>
      let? c := parse_cron cron day_or in
      let? tz := resolve_tz timezone in
      Ok (CCron c tz)
  | Interval interval anchor timezone =>
      let? tz := resolve_tz timezone in
      Ok (CInterval interval (from_micros now (default 0 anchor)) tz)
  | RRule rrule timezone =>
      let? tz := resolve_tz timezone in
      let? set := parse_rrule rrule tz in
      Ok (CRRule set tz)
  | Continuous _ => Ok CNone
  end.

(** The instant a local time names, or the first one after the gap it falls
    in, looked for minute by minute for three hours. *)
Fixpoint after_gap (tz : Tz) (naive : Z) (minutes : Z) (n : nat) : option Z :=
  match n with
  | O => None
  | S n' =>
      match from_local tz (naive + minutes * minute_micros) with
      | Some dt => Some dt
      | None => after_gap tz naive (minutes + 1) n'
      end
  end.
Definition local_to_instant (tz : Tz) (naive : Z) : option Z :=
  match from_local tz naive with
  | Some dt => Some dt
  | None => after_gap tz naive 1 180
  end.

(** The anchor's local time of day, [steps] intervals of [days] later. *)
Definition wall_clock_local (tz : Tz) (anchor days steps : Z) : Z :=
  let local_anchor := to_local tz anchor in
  (date_naive local_anchor + steps * days) * day_micros + time_naive local_anchor.

(** The loop of the wall-clock arm: [n] more steps from [steps]. *)
Fixpoint wall_clock_loop (tz : Tz) (anchor days after : Z) (n : nat) (steps candidate : Z) : Z :=
  match n with
  | O => candidate
  | S n' =>
      let naive := wall_clock_local tz anchor days steps in
      let candidate' := default candidate (local_to_instant tz naive) in
      if after <? candidate' then candidate'
      else wall_clock_loop tz anchor days after n' (steps + 1) candidate'
  end.

Definition wall_clock_first (tz : Tz) (anchor days after : Z) : Z :=
  let elapsed_days := date_naive (to_local tz after) - date_naive (to_local tz anchor) in
  Z.max (Z.quot elapsed_days days) 0.

Definition wall_clock_next (tz : Tz) (anchor days after : Z) : Z :=
  if after <? anchor then anchor
  else wall_clock_loop tz anchor days after 4 (wall_clock_first tz anchor days after) anchor.

(** Elapsed-time intervals: fixed seconds since the anchor, in [f64]. *)
Definition elapsed_next (secs : f64) (anchor after : Z) : Z :=
  let d := after - anchor in
  let micros := if (i64_MIN <=? d) && (d <=? i64_MAX) then d else 0 in
  let elapsed := f64_div (f64_of_Z micros) f64_million in
  let steps :=
    if f64_lt elapsed f64_zero then f64_zero
    else f64_add (f64_floor (f64_div elapsed secs)) f64_one in
  anchor + f64_as_i64 (f64_mul (f64_mul steps secs) f64_million).

Definition wall_clock_days (secs : f64) : Z :=
  f64_as_i64 (f64_max (f64_round (f64_div secs f64_day)) f64_one).

Definition Compiled_next_after (c : Compiled) (after : Z) : result (option Z) ScheduleError :=
  match c with
  | CCron cron tz => Ok (find_next_occurrence cron tz after)
  | CInterval secs anchor tz =>
      if f64_le secs f64_zero || f64_is_nan secs then Err ErrInterval
      else if f64_lt secs f64_day then Ok (Some (elapsed_next secs anchor after))
      else Ok (Some (wall_clock_next tz anchor (wall_clock_days secs) after))
  | CRRule set tz =>
      Ok (List.find (λ d, after <? d) (rrule_after_all set tz after 8))
  | CNone => Ok None
  end.

Definition previous_from (c : Compiled) (after floor : Z) : option Z :=
  match c with
  | CCron cron tz =>
      match find_previous_occurrence cron tz after with
      | Some found => if floor <=? found then Some found else None
      | None => None
      end
  | CInterval _ _ _ | CRRule _ _ | CNone => None
  end.

Definition with_anchor_if_missing (s : Schedule) (now : Z) : Schedule :=
  match s with
  | Interval interval None timezone => Interval interval (Some now) timezone
  | _ => s
  end.

Definition validate (s : Schedule) : result unit ScheduleError :=
  match s with
  | Cron cron timezone day_or =>
      let? _ := resolve_tz timezone in
      let? _ := parse_cron cron day_or in
      Ok tt
  | Interval interval _ timezone =>
      let? _ := resolve_tz timezone in
      if f64_le interval f64_zero || f64_is_nan interval then Err ErrInterval else Ok tt
  | RRule rrule timezone =>
      let? tz := resolve_tz timezone in
      let? _ := parse_rrule rrule tz in
      Ok tt
  | Continuous delay =>
      if f64_lt delay f64_zero || f64_is_nan delay
      then Err (ErrInvalid "a continuous schedule's delay must be zero or more")
      else Ok tt
  end.

Definition is_continuous (s : Schedule) : bool :=
  match s with Continuous _ => true | _ => false end.

Definition timezone_name (s : Schedule) : string :=
  let tz := match s with
            | Cron _ t _ | Interval _ _ t | RRule _ t => t
            | Continuous _ => None
            end in
  match resolve_tz tz with Ok t => tz_name t | Err _ => "UTC" end.

Definition next_after (now : Z) (s : Schedule) (after : Z) : result (option Z) ScheduleError :=
  let? c := compile now s in Compiled_next_after c after.

(** The walk of [next_fires]: [count] bounds its length. *)
Fixpoint next_fires_loop (c : Compiled) (count : nat) (cursor : Z) : result (list Z) ScheduleError :=
  match count with
  | O => Ok []
  | S count' =>
      let? r := Compiled_next_after c cursor in
      match r with
      | Some next =>
          let? rest := next_fires_loop c count' next in
          Ok (next :: rest)
      | None => Ok []
      end
  end.

Definition next_fires (now : Z) (s : Schedule) (after : Z) (count : nat)
    : result (list Z) ScheduleError :=
  let? _ := validate s in
  if negb (in_utc_range after) then
    Err (ErrInvalid ("reference time " +:+ dec after +:+ " is out of range"))
  else
    let? c := compile now s in
    next_fires_loop c count after.

Fixpoint fires_between_loop (c : Compiled) (end_ : Z) (max : nat) (cursor : Z)
    : result (list Z) ScheduleError :=
  match max with
  | O => Ok []
  | S max' =>
      let? r := Compiled_next_after c cursor in
      match r with
      | Some next =>
          if next <=? end_ then
            let? rest := fires_between_loop c end_ max' next in
            Ok (next :: rest)
          else Ok []
      | None => Ok []
      end
  end.

Definition fires_between (now : Z) (s : Schedule) (start end_ : Z) (max : nat)
    : result (list Z) ScheduleError :=
  let? c := compile now s in fires_between_loop c end_ max start.

(** The backwards walk, with the last fire it pushed. *)
Fixpoint fires_before_loop (c : Compiled) (floor : Z) (count : nat) (last : option Z) (cursor : Z)
    : list Z :=
  match count with
  | O => []
  | S count' =>
      match previous_from c cursor floor with
      | None => []
      | Some previous =>
          if bool_decide (last = Some previous) then []
          else previous :: fires_before_loop c floor count' (Some previous) (previous - 1)
      end
  end.

Definition fires_before (now : Z) (s : Schedule) (end_ floor : Z) (count : nat)
    : result (list Z) ScheduleError :=
  let? c := compile now s in
  Ok (fires_before_loop c floor count None end_).

(** ** What the code relies on *)

(** croner: [find_next_occurrence(t, false)] is the first match strictly after
    [t], [find_previous_occurrence(t, true)] the last at or before it. *)
Class CronLaws : Type := {
  cron_fires : CronExpr → Tz → Z → Prop;
  next_law c tz a :
    match find_next_occurrence c tz a with
    | Some n => a < n ∧ cron_fires c tz n ∧ ∀ t, cron_fires c tz t → a < t → n ≤ t
    | None => ∀ t, cron_fires c tz t → t ≤ a
    end;
  prev_law c tz a :
    match find_previous_occurrence c tz a with
    | Some n => n ≤ a ∧ cron_fires c tz n ∧ ∀ t, cron_fires c tz t → t ≤ a → t ≤ n
    | None => ∀ t, cron_fires c tz t → a < t
    end;
}.

(** chrono-tz: the instant of a local time shows that local time, and offsets
    are within a day. *)
Class TzLaws : Prop := {
  from_local_law tz l t : from_local tz l = Some t → to_local tz t = l;
  offset_law tz t : Z.abs (to_local tz t - t) < day_micros;
}.

(** ** Walks of a cron *)

(** [out] lists, in order, the first [max] instants of [F] in [(lo, hi]]. *)
Definition lists_fires (F : Z → Prop) (lo hi : Z) (max : nat) (out : list Z) : Prop :=
  StronglySorted Z.lt out ∧ (length out ≤ max)%nat ∧
  (∀ t, t ∈ out → F t ∧ lo < t ≤ hi) ∧
  (∀ t, F t → lo < t ≤ hi → t ∈ out ∨ (length out = max ∧ ∀ x, x ∈ out → x < t)).

Lemma lists_fires_nil F lo hi max :
  (max = O ∨ ∀ t, F t → lo < t → hi < t) → lists_fires F lo hi max [].
Proof.
  intros Hm. split_and!; [constructor|simpl; lia|set_solver|].
  intros t Ht Hb. destruct Hm as [->|Hm]; [right; split; [done|set_solver]|].
  specialize (Hm t Ht). lia.
Qed.

Lemma lists_fires_cons F lo hi max n out :
  F n → lo < n ≤ hi → (∀ t, F t → lo < t → n ≤ t) →
  lists_fires F n hi max out → lists_fires F lo hi (S max) (n :: out).
Proof.
  intros Hn Hb Hleast (Hs & Hl & Hin & Hc). split_and!.
  - constructor; [done|]. apply Forall_forall. intros x Hx. by apply Hin.
  - simpl. lia.
  - intros t [->|Ht]%elem_of_cons; [done|]. apply Hin in Ht as [? ?]. split; [done|lia].
  - intros t Ht Htb. specialize (Hleast t Ht). destruct (decide (t = n)) as [->|Hne].
    { left. set_solver. }
    destruct (Hc t Ht) as [?|[Hlen Hlt]]; [lia|left; set_solver|right].
    simpl. rw Hlen. split; [done|]. intros x [->|Hx]%elem_of_cons; [lia|by apply Hlt].
Qed.

Lemma fires_between_loop_cron `{!CronLaws} c tz hi max lo :
  ∃ out, fires_between_loop (CCron c tz) hi max lo = Ok out ∧
         lists_fires (cron_fires c tz) lo hi max out.
Proof.
  revert lo; induction max as [|max IH]; intros lo; simpl.
  { exists []. split; [done|]. apply lists_fires_nil. by left. }
  pose proof (next_law c tz lo) as Hn.
  destruct (find_next_occurrence c tz lo) as [n|].
  - destruct Hn as (Hlt & Hf & Hleast). destruct (Z.leb_spec n hi).
    + destruct (IH n) as (out & -> & Hout). exists (n :: out). split; [done|].
      apply lists_fires_cons; auto with lia.
    + exists []. split; [done|]. apply lists_fires_nil. right. intros t Ht Hl.
      specialize (Hleast t Ht Hl). lia.
  - exists []. split; [done|]. apply lists_fires_nil. right. intros t Ht Hl.
    specialize (Hn t Ht). lia.
Qed.

(** The backwards walk over the full ascending list of fires takes it from its
    end. *)
Lemma fires_before_loop_cron `{!CronLaws} c tz floor count last cursor l :
  StronglySorted Z.lt l →
  (∀ t, t ∈ l ↔ cron_fires c tz t ∧ floor ≤ t ≤ cursor) →
  (∀ p, last = Some p → cursor < p) →
  fires_before_loop (CCron c tz) floor count last cursor = take count (reverse l).
Proof.
  revert last cursor l; induction count as [|count IH]; intros last cursor l Hs Hl Hlast; [done|].
  simpl. pose proof (prev_law c tz cursor) as Hp.
  destruct l as [|m l' _] using rev_ind.
  - destruct (find_previous_occurrence c tz cursor) as [p|]; [|done].
    destruct Hp as (Hle & Hf & _). destruct (Z.leb_spec floor p); [|done].
    exfalso. apply (not_elem_of_nil p), Hl. split; [done|lia].
  - assert (Hm : m ∈ l' ++ [m]) by set_solver. pose proof Hm as Hm'. apply Hl in Hm as [Hfm Hbm].
    destruct (find_previous_occurrence c tz cursor) as [p|]; [|specialize (Hp m Hfm); lia].
    destruct Hp as (Hle & Hf & Hgreat).
    assert (Hlt : ∀ t, t ∈ l' → t < m) by (intros t Ht; eapply StronglySorted_app_1_elem_of; set_solver).
    assert (p = m) as ->.
    { pose proof (Hgreat m Hfm ltac:(lia)). assert (Hp : p ∈ l' ++ [m]) by (apply Hl; split; [done|lia]).
      apply elem_of_app in Hp as [Hp|Hp%list_elem_of_singleton]; [|done]. specialize (Hlt p Hp). lia. }
    destruct (Z.leb_spec floor m); [|lia]. rw bool_decide_eq_false_2; last first.
    { intros Hl'. apply Hlast in Hl'. lia. }
    rw reverse_snoc /=. f_equal. apply IH.
    + by eapply StronglySorted_app_1_l.
    + intros t. split.
      * intros Ht. specialize (Hlt t Ht).
        destruct (proj1 (Hl t)) as [? ?]; [set_solver|]. split; [done|lia].
      * intros [Ht Hb]. assert (Hin : t ∈ l' ++ [m]) by (apply Hl; split; [done|lia]).
        apply elem_of_app in Hin as [?|Hx%list_elem_of_singleton]; [done|lia].
    + intros q [= <-]. lia.
Qed.

(** ** Wall-clock intervals *)

Lemma after_gap_ge `{!TzLaws} tz naive minutes n t :
  0 ≤ minutes → after_gap tz naive minutes n = Some t → naive ≤ to_local tz t.
Proof.
  revert minutes; induction n as [|n IH]; intros minutes Hm; simpl; [done|].
  destruct (from_local tz _) as [dt|] eqn:E; [|apply IH; lia].
  intros [= <-]. rw (from_local_law _ _ _ E). rw /minute_micros. lia.
Qed.

Lemma local_to_instant_ge `{!TzLaws} tz naive t :
  local_to_instant tz naive = Some t → naive ≤ to_local tz t.
Proof.
  rw /local_to_instant. destruct (from_local tz naive) as [dt|] eqn:E.
  - intros [= <-]. by rw (from_local_law _ _ _ E).
  - by apply after_gap_ge.
Qed.

Lemma wall_clock_loop_gt tz anchor days after n k steps candidate t :
  (k < n)%nat →
  local_to_instant tz (wall_clock_local tz anchor days (steps + Z.of_nat k)) = Some t →
  after < t →
  after < wall_clock_loop tz anchor days after n steps candidate.
Proof.
  revert k steps candidate; induction n as [|n IH]; intros k steps candidate Hk Ht Ha; [lia|].
  simpl. case_match eqn:E; [by apply Z.ltb_lt|]. apply Z.ltb_ge in E.
  destruct k as [|k].
  - rw Z.add_0_r in Ht. rw Ht /= in E. lia.
  - apply (IH k); [lia| |done].
    by replace (steps + 1 + Z.of_nat k) with (steps + Z.of_nat (S k)) by lia.
Qed.

(** Three intervals past the first step, the local time is two days past the
    cursor's date, more than any two offsets differ by. *)
Lemma third_step_local tz anchor days after :
  0 < days →
  to_local tz after + 2 * day_micros <
  wall_clock_local tz anchor days (wall_clock_first tz anchor days after + 3).
Proof.
  intros Hd. rw /wall_clock_local /wall_clock_first /date_naive /time_naive.
  set (la := to_local tz anchor). set (lt := to_local tz after).
  pose proof (Z.div_mod lt day_micros ltac:(done)) as Hlt.
  pose proof (Z.mod_pos_bound lt day_micros ltac:(done)) as Hlb.
  pose proof (Z.mod_pos_bound la day_micros ltac:(done)) as Hla.
  set (e := lt / day_micros - la / day_micros).
  assert (He : e < (Z.max (Z.quot e days) 0 + 1) * days).
  { destruct (Z.le_gt_cases 0 e).
    - pose proof (Z.quot_rem e days ltac:(lia)). pose proof (Z.rem_bound_pos e days ltac:(lia) ltac:(lia)).
      pose proof (Z.quot_pos e days ltac:(lia) ltac:(lia)). nia.
    - nia. }
  set (q := Z.max (Z.quot e days) 0) in *.
  assert (Hq : lt / day_micros + 3 ≤ la / day_micros + (q + 3) * days) by (rw /e in He; nia).
  assert (0 < day_micros) by done. nia.
Qed.

End schedules.

(** ** A concrete environment

    Two fixed-offset zones and crons that fire every [p] minutes. *)

Definition minute_next (p : positive) (a : Z) : Z :=
  (a / (Z.pos p * minute_micros) + 1) * (Z.pos p * minute_micros).
Definition minute_prev (p : positive) (a : Z) : Z :=
  a / (Z.pos p * minute_micros) * (Z.pos p * minute_micros).

#[local] Instance minute_env : ScheduleEnv := {|
  Tz := bool;
  CronExpr := positive;
  RRuleSet := unit;
  tz_parse s := if s =?s "UTC" then Some false else if s =?s "Etc/GMT-1" then Some true else None;
  tz_name tz := if tz then "Etc/GMT-1" else "UTC";
  tz_UTC := false;
  to_local tz t := if tz then t + 3600000000 else t;
  from_local tz l := Some (if tz then l - 3600000000 else l);
  utc_min := -8334601228800000000;
  utc_max := 8210266876799999999;
  cron_parse e _ := if e =?s "* * * * *" then Ok 1%positive
                    else if e =?s "*/5 * * * *" then Ok 5%positive else Err "unsupported";
  find_next_occurrence p _ a := Some (minute_next p a);
  find_previous_occurrence p _ a := Some (minute_prev p a);
  rrule_parse _ := Err "unsupported";
  rrule_after_all _ _ _ _ := [];
  env_TZ := None;
  etc_localtime := Some "/usr/share/zoneinfo/UTC";
|}.

#[local] Instance minute_cron_laws : CronLaws.
Proof.
  refine {| cron_fires := λ (p : CronExpr) _ t, ∃ k, t = k * (Z.pos p * minute_micros) |}.
  - intros p tz a. simpl. rw /minute_next. set (m := Z.pos p * minute_micros).
    assert (0 < m) by (rw /m /minute_micros; lia).
    pose proof (Z.div_mod a m ltac:(lia)). pose proof (Z.mod_pos_bound a m ltac:(lia)).
    split_and!; [nia|eauto|]. intros t [k ->] Hk. assert (a / m < k) by nia. nia.
  - intros p tz a. simpl. rw /minute_prev. set (m := Z.pos p * minute_micros).
    assert (0 < m) by (rw /m /minute_micros; lia).
    pose proof (Z.div_mod a m ltac:(lia)). pose proof (Z.mod_pos_bound a m ltac:(lia)).
    split_and!; [nia|eauto|]. intros t [k ->] Hk. assert (k ≤ a / m) by nia. nia.
Defined.

#[local] Instance minute_tz_laws : TzLaws.
Proof.
  constructor; simpl.
  - intros [] l t [= <-]; lia.
  - intros [] t; rw /day_micros; lia.
Qed.

(** ** Theorems *)

(** Walking a cron forwards lists exactly its fires: [fires_between]
    always returns, its list is strictly increasing, at most [max] long, made
    of fires in [(start, end]], and it misses a fire of that window only past
    its last entry, when the cap is reached. *)
Theorem fires_between_exact `{ScheduleEnv, !CronLaws} now expr timezone day_or c tz start end_ max :
  compile now (Cron expr timezone day_or) = Ok (CCron c tz) →
  ∃ out, fires_between now (Cron expr timezone day_or) start end_ max = Ok out ∧
         lists_fires (cron_fires c tz) start end_ max out.
Proof. intros Hc. rw /fires_between Hc. apply fires_between_loop_cron. Qed.

Lemma fires_between_exact_witness :
  compile 0 (Cron "*/5 * * * *" (Some "UTC") true) = Ok (CCron (5%positive : CronExpr) (false : Tz)) ∧
  fires_between 0 (Cron "*/5 * * * *" (Some "UTC") true) 0 700000000 10
    = Ok [300000000; 600000000] ∧
  ∃ out, fires_between 0 (Cron "*/5 * * * *" (Some "UTC") true) 0 700000000 10 = Ok out ∧
         lists_fires (cron_fires (5%positive : CronExpr) (false : Tz)) 0 700000000 10 out.
Proof.
  split_and!; [reflexivity|vm_compute; reflexivity|].
  apply (fires_between_exact 0 "*/5 * * * *" (Some "UTC") true). reflexivity.
Defined.

(** The backwards walk mirrors the forwards one: when [fires_between]
    lists the window [[floor, end]] without hitting its cap, [fires_before]
    answers with the last [count] of those fires, most recent first. *)
Theorem fires_before_mirror `{ScheduleEnv, !CronLaws} now expr timezone day_or end_ floor count max out :
  fires_between now (Cron expr timezone day_or) (floor - 1) end_ max = Ok out →
  (length out < max)%nat →
  fires_before now (Cron expr timezone day_or) end_ floor count = Ok (take count (reverse out)).
Proof.
  rw /fires_between /fires_before /=. destruct (parse_cron expr day_or) as [c|]; [|done].
  destruct (resolve_tz timezone) as [tz|]; [|done]. intros Hout Hlen.
  destruct (fires_between_loop_cron c tz end_ max (floor - 1)) as (out' & Hout' & Hs & _ & Hin & Hc).
  assert (out' = out) as -> by congruence. f_equal. apply fires_before_loop_cron; [done| |done].
  intros t. split.
  - intros [? ?]%Hin. split; [done|lia].
  - intros [Ht Hb]. destruct (Hc t Ht) as [?|[? _]]; [lia|done|lia].
Qed.

Lemma fires_before_mirror_witness :
  fires_before 0 (Cron "* * * * *" None true) 200000000 60000000 2
    = Ok (take 2 (reverse [60000000; 120000000; 180000000])).
Proof.
  apply (fires_before_mirror 0 "* * * * *" None true 200000000 60000000 2 10);
    [vm_compute; reflexivity|simpl; lia].
Defined.

(** A wall-clock interval's next fire is strictly after the cursor, across
    any daylight-saving shift, as long as the local time three intervals past
    the first candidate exists within three hours: the four candidates the
    code tries are enough for offsets within a day. *)
Theorem wall_clock_strictly_after `{ScheduleEnv, !TzLaws} now secs anchor timezone tz after :
  resolve_tz timezone = Ok tz →
  in_utc_range anchor = true →
  f64_le secs f64_zero || f64_is_nan secs = false → f64_lt secs f64_day = false →
  0 < wall_clock_days secs →
  is_Some (local_to_instant tz (wall_clock_local tz anchor (wall_clock_days secs)
             (wall_clock_first tz anchor (wall_clock_days secs) after + 3))) →
  ∃ t, next_after now (Interval secs (Some anchor) timezone) after = Ok (Some t) ∧ after < t.
Proof.
  intros Htz Hr Hp Hd Hdays [t Ht]. rw /next_after /compile Htz /= /from_micros Hr Hp Hd.
  eexists. split; [done|]. rw /wall_clock_next. case_match eqn:E; [by apply Z.ltb_lt|].
  apply (wall_clock_loop_gt _ _ _ _ _ 3 _ _ t); [lia|done|].
  pose proof (third_step_local tz anchor (wall_clock_days secs) after Hdays).
  pose proof (local_to_instant_ge _ _ _ Ht).
  pose proof (offset_law tz t). pose proof (offset_law tz after). lia.
Qed.

Lemma wall_clock_strictly_after_witness :
  ∃ t, next_after 0 (Interval (f64_of_Z 604800) (Some 1000000) (Some "Etc/GMT-1")) 604801000000
       = Ok (Some t) ∧ 604801000000 < t.
Proof.
  eapply (@wall_clock_strictly_after minute_env _ 0 (f64_of_Z 604800) 1000000 (Some "Etc/GMT-1") true);
    try (vm_compute; reflexivity).
  eexists. vm_compute. reflexivity.
Defined.

(** A schedule that validates never fails afterwards: asking it for a fire
    time, whatever the cursor and the clock, is not an error. *)
Theorem validated_never_errors `{ScheduleEnv} s :
  validate s = Ok tt → ∀ now after, ∃ o, next_after now s after = Ok o.
Proof.
  rw /next_after. intros Hv now after.
  destruct s as [cron timezone day_or|interval anchor timezone|rrule timezone|delay]; simpl in *.
  - destruct (resolve_tz timezone); [|done]. destruct (parse_cron cron day_or); [|done].
    by eexists.
  - destruct (resolve_tz timezone); [|done]. simpl. destruct (f64_le interval f64_zero || _); [done|].
    case_match; by eexists.
  - destruct (resolve_tz timezone); [|done]. destruct (parse_rrule rrule _); [|done]. by eexists.
  - by eexists.
Qed.

Lemma validated_never_errors_witness :
  ∃ o, next_after 0 (Interval (f64_of_Z 60) None (Some "UTC")) 1000 = Ok o.
Proof. apply (validated_never_errors (Interval (f64_of_Z 60) None (Some "UTC"))). reflexivity. Defined.

(** The elapsed-time arm is not strictly after the cursor: with an
    interval of 1.1 seconds anchored at the epoch, the fire after 3.3 s is
    3.3 s again, because [floor(3.3 / 1.1)] is 2 in [f64]; a walk then repeats
    that instant until its cap. *)
Theorem interval_repeats_a_fire `{ScheduleEnv} now :
  utc_min ≤ 0 ≤ utc_max →
  next_after now (Interval (f64_ratio 11 10) None None) 3300000 = Ok (Some 3300000) ∧
  fires_between now (Interval (f64_ratio 11 10) None None) 2200000 100000000 4
    = Ok [3300000; 3300000; 3300000; 3300000].
Proof.
  intros Hr. rw /next_after /fires_between.
  assert (compile now (Interval (f64_ratio 11 10) None None)
          = Ok (CInterval (f64_ratio 11 10) 0 local_tz)) as ->.
  { cbn [compile resolve_tz from_option]. rw /from_micros /in_utc_range. do 2 f_equal.
    case_match eqn:E; [done|lia]. }
  split; vm_compute; reflexivity.
Qed.

Lemma interval_repeats_a_fire_witness :
  next_after 7 (Interval (f64_ratio 11 10) None None) 3300000 = Ok (Some 3300000).
Proof. apply (interval_repeats_a_fire 7). vm_compute. split; discriminate. Defined.
