(* ===== verification/Model.v ===== *)
(** * The data model (core/src/model.rs)

    The records the crates exchange.  Field names carry a prefix per record,
    since Rocq's projections share one name space.  [Id] (a UUID newtype) is
    its string.  [u32] counters are [Z]. *)

From S2P Require Import Prelude Float64 Json States Schedules.

Definition Id : Type := string.

Record Flow : Type := mkFlow {
  flow_id : Z;
  flow_external_id : Id;
  flow_project : string;
  flow_name : string;
  flow_module : string;
  flow_source_dir : string;
  flow_description : option string;
  flow_tags : list string;
  flow_group : option string;
  flow_parameter_schema : Value;
  flow_options : Map;
  flow_error : option string;
  flow_created_at : Z;
  flow_last_seen_at : Z;
  flow_live : bool;
}.

(** The group a flow is listed under: the one it declared, else its project. *)
Definition group_or_project (f : Flow) : string := default (flow_project f) (flow_group f).

Record Run : Type := mkRun {
  run_id : Z;
  run_external_id : Id;
  run_flow_id : Z;
  run_flow_name : string;
  run_project : string;
  run_group : string;
  run_name : string;
  run_parameters : Map;
  run_tags : list string;
  run_attributes : Map;
  run_state : State;
  run_failure_count : Z;
  run_crash_count : Z;
  run_created_at : Z;
  run_start_time : option Z;
  run_end_time : option Z;
  run_total_run_time : option Z;
  run_engine_pid : option Z;
  run_engine_id : option string;
  run_created_by : string;
  run_report_seq : Z;
  run_schedule_id : option Z;
  run_scheduled_time : option Z;
  run_priority : Z;
  run_parent_run_id : option Z;
  run_attempt : Z;
  run_backfill_id : option Z;
  run_task_counts : gmap string Z;
  run_unique_key : option string;
  run_host : option string;
  run_processor : option Z;
  run_lease : Z;
  run_source_hash : option string;
}.

Record AfterSpec : Type := mkAfterSpec {
  after_flow : string;
  after_flows : list string;
  after_key : option string;
  after_parameters : Map;
}.

(** Every upstream; rows written before fan-in hold one flow. *)
Definition upstreams (a : AfterSpec) : list string :=
  match after_flows a with [] => [after_flow a] | fs => fs end.

Definition depends_on (a : AfterSpec) (name : string) : bool :=
  existsb (λ f, f =?s name) (upstreams a).

Record UniqueSpec : Type := mkUniqueSpec {
  uq_key : option string;
  uq_period : option f64;
  uq_states : list string;
  uq_on_conflict : string;
  uq_debounce : option f64;
  uq_max_wait : option f64;
}.

Definition UniqueSpec_default : UniqueSpec :=
  {| uq_key := None; uq_period := None; uq_states := []; uq_on_conflict := "skip";
     uq_debounce := None; uq_max_wait := None |}.

(** The states in which an existing run counts. *)
Definition counting_states (u : UniqueSpec) : list string :=
  match uq_states u with
  | [] => StateType_as_str <$> List.filter (λ t, negb (is_terminal t)) StateType_ALL
  | ss => ss
  end.

Definition default_catchup_max : Z := 100.

Record ScheduleDecl : Type := mkScheduleDecl {
  decl_schedule : Schedule;
  decl_catchup : CatchupPolicy;
  decl_catchup_max : Z;
  decl_catchup_window : option Z;
  decl_jitter : Z;
  decl_start_deadline : option Z;
  decl_key : option string;
}.

Record ScheduleRow : Type := mkScheduleRow {
  sr_id : Z;
  sr_external_id : Id;
  sr_flow_id : Z;
  sr_schedule : Schedule;
  sr_catchup : CatchupPolicy;
  sr_catchup_max : Z;
  sr_catchup_window : option Z;
  sr_jitter : Z;
  sr_start_deadline : option Z;
  sr_active : bool;
  sr_paused_reason : option string;
  sr_paused_until : option Z;
  sr_source : string;
  sr_code_key : option string;
  sr_persist : bool;
  sr_created_at : Z;
  sr_updated_at : Z;
  sr_next_fire : option Z;
  sr_skipped : Z;
  sr_loop_state : option string;
}.

Record FlowOptions : Type := mkFlowOptions {
  fo_isolated : bool;
  fo_log_prints : bool;
  fo_priority : Z;
  fo_max_concurrent : option Z;
  fo_on_overlap : string;
  fo_resources : Map;
  fo_crash_retries : option Z;
  fo_timeout_seconds : option f64;
  fo_retries : Z;
  fo_after : option AfterSpec;
  fo_disable_after : option (Z * option Z * Z);
  fo_schedules : list ScheduleDecl;
  fo_has_bulk_complete : bool;
  fo_has_crash_hooks : bool;
  fo_start_deadline : option f64;
  fo_runs_on : option string;
  fo_unique : option UniqueSpec;
  fo_fresh_within : option f64;
  fo_expect_by : option string;
  fo_expect_by_tz : option string;
  fo_expected_duration : option f64;
  fo_overdue_factor : option f64;
}.

Definition may_run_remotely (o : FlowOptions) : bool :=
  negb (bool_decide (fo_runs_on o = Some "server")).

(** The declared resources with a numeric amount, in key order. *)
Definition resource_amounts (o : FlowOptions) : list (string * f64) :=
  omap (λ kv, pair kv.1 <$> as_f64 kv.2) (fo_resources o).

Record Resource : Type := mkResource {
  res_kind : string;
  res_id : string;
  res_name : string;
}.

Record Event : Type := mkEvent {
  ev_id : Z;
  ev_seq : Z;
  ev_external_id : Id;
  ev_name : string;
  ev_occurred : Z;
  ev_resource : Resource;
  ev_related : list Resource;
  ev_run_id : option Z;
  ev_flow_id : option Z;
  ev_payload : Map;
}.

Record RuleMatch : Type := mkRuleMatch {
  rm_events : list string;
  rm_flows : list string;
  rm_tags : list string;
  rm_states : list string;
  rm_project : option string;
}.
Definition RuleMatch_default : RuleMatch := mkRuleMatch [] [] [] [] None.

Record RuleAction : Type := mkRuleAction {
  ra_kind : string;
  ra_flow : option string;
  ra_parameters : Map;
  ra_state_type : option string;
  ra_message : option string;
  ra_url : option string;
  ra_method : option string;
  ra_headers : Map;
  ra_body : option string;
  ra_to : list string;
  ra_subject : option string;
  ra_callable : option string;
  ra_preset : option string;
  ra_secret : option string;
  ra_topic : option string;
  ra_chat_id : option string;
  ra_routing_key : option string;
  ra_states : list string;
  ra_delay : option f64;
  ra_copy_parameters : bool;
  ra_pass_result : option bool;
}.
Definition RuleAction_default : RuleAction :=
  mkRuleAction "" None [] None None None None [] None [] None None None None None None None []
    None false None.

Record RuleClock : Type := mkRuleClock { rc_cron : string; rc_tz : option string }.

Record RuleSpec : Type := mkRuleSpec {
  rs_when : RuleMatch;
  rs_actions : list RuleAction;
  rs_once : string;
  rs_cooldown_seconds : f64;
  rs_max_per_minute : Z;
  rs_allow_self : bool;
  rs_after_consecutive : Z;
  rs_condition : option string;
  rs_max_per_chain : Z;
  rs_on_limit : option RuleAction;
  rs_unless : option RuleMatch;
  rs_within : option f64;
  rs_at : option RuleClock;
}.

Definition RuleSpec_default : RuleSpec :=
  {| rs_when := RuleMatch_default; rs_actions := []; rs_once := "per_run";
     rs_cooldown_seconds := f64_zero; rs_max_per_minute := 60; rs_allow_self := false;
     rs_after_consecutive := 0; rs_condition := None; rs_max_per_chain := 0;
     rs_on_limit := None; rs_unless := None; rs_within := None; rs_at := None |}.

Definition is_proactive (r : RuleSpec) : bool := is_some (rs_unless r).
Definition is_clock_armed (r : RuleSpec) : bool := is_some (rs_unless r) && is_some (rs_at r).

Record RuleRow : Type := mkRuleRow {
  rr_id : Z;
  rr_external_id : Id;
  rr_name : string;
  rr_enabled : bool;
  rr_source : string;
  rr_module : option string;
  rr_spec : RuleSpec;
  rr_fire_count : Z;
  rr_last_fired : option Z;
  rr_created_at : Z;
  rr_updated_at : Z;
}.

(** A run row with empty optional fields, for the examples. *)
Definition example_run (id : Z) (st : State) : Run :=
  {| run_id := id; run_external_id := ""; run_flow_id := 1; run_flow_name := "etl";
     run_project := "main"; run_group := "main"; run_name := "r"; run_parameters := [];
     run_tags := []; run_attributes := []; run_state := st; run_failure_count := 0;
     run_crash_count := 0; run_created_at := 0; run_start_time := None; run_end_time := None;
     run_total_run_time := None; run_engine_pid := None; run_engine_id := None;
     run_created_by := "user"; run_report_seq := 0; run_schedule_id := None;
     run_scheduled_time := None; run_priority := 0; run_parent_run_id := None; run_attempt := 0;
     run_backfill_id := None; run_task_counts := ∅; run_unique_key := None; run_host := None;
     run_processor := None; run_lease := 0; run_source_hash := None |}.
