(* ===== verification/DepGraph.v ===== *)
(** * The dependency graph and its cache (server/src/state.rs)

    Flows declared [after=] other flows of their project: the graph from each
    upstream to its dependents, and the cache that holds it until a flow
    changes. *)

From S2P Require Import Prelude Float64 Json States Schedules Model.

(** The flows after an upstream and the highest priority they declare. *)
Record Dependents : Type := mkDependents { dep_ids : list Z; dep_max_priority : Z }.
Abbreviation DepGraph := (gmap Z Dependents).

Definition no_dependents : Dependents := mkDependents [] 0.
Definition push_dependent (id priority : Z) (d : Dependents) : Dependents :=
  mkDependents (dep_ids d ++ [id]) (Z.max (dep_max_priority d) priority).

Section graph.
(** [FlowOptions::from_map] *)
Context (from_map : Map → FlowOptions).

Abbreviation Keys := (gmap (string * string) Z).
Definition flow_key (f : Flow) : string * string := (flow_project f, flow_name f).
(** [collect] into a map: the last of equal keys stays. *)
Definition keys_of (flows : list Flow) : Keys :=
  list_to_map (reverse ((λ f, (flow_key f, flow_id f)) <$> flows)).

Fixpoint add_upstreams (by_key : Keys) (f : Flow) (priority : Z) (seen ups : list string) (g : DepGraph)
    : DepGraph :=
  match ups with
  | [] => g
  | up :: ups' =>
      if bool_decide (up ∈ seen) then add_upstreams by_key f priority seen ups' g
      else
        let g := match by_key !! (flow_project f, up) with
                 | Some id => <[id := push_dependent (flow_id f) priority
                                        (default no_dependents (g !! id))]> g
                 | None => g
                 end in
        add_upstreams by_key f priority (seen ++ [up]) ups' g
  end.

Definition add_flow (by_key : Keys) (g : DepGraph) (f : Flow) : DepGraph :=
  let opts := from_map (flow_options f) in
  match fo_after opts with
  | None => g
  | Some after => add_upstreams by_key f (fo_priority opts) [] (upstreams after) g
  end.

Definition dep_graph_from_flows (flows : list Flow) : DepGraph :=
  fold_left (add_flow (keys_of flows)) flows ∅.

(** ** The graph against a scan of the flows *)

(** The dependents of a flow, found the slow way. *)
Definition depends (up f : Flow) : bool :=
  (flow_project f =?s flow_project up)
  && match fo_after (from_map (flow_options f)) with
     | Some after => depends_on after (flow_name up)
     | None => false
     end.
Definition scan_dependents (up : Flow) (flows : list Flow) : Dependents :=
  fold_left (λ d f, if depends up f then push_dependent (flow_id f)
                                           (fo_priority (from_map (flow_options f))) d else d)
    flows no_dependents.

(** A flow is known by its id, and by its project and name. *)
Record distinct (flows : list Flow) : Prop := {
  di_ids : NoDup (flow_id <$> flows);
  di_names : NoDup (flow_key <$> flows);
}.

Lemma keys_of_spec flows k id :
  NoDup (flow_key <$> flows) →
  keys_of flows !! k = Some id ↔ ∃ f, f ∈ flows ∧ flow_key f = k ∧ flow_id f = id.
Proof using Type.
  intros Hn. rw /keys_of -elem_of_list_to_map.
  - rw elem_of_reverse list_elem_of_fmap. split.
    + intros (f & [= -> ->] & Hf). by exists f.
    + intros (f & Hf & <- & <-). by exists f.
  - rw fmap_reverse -list_fmap_compose. by rw (reverse_Permutation (flow_key <$> flows)).
Qed.

(** Ids decide names. *)
Lemma keys_of_inj flows k k' id :
  distinct flows → keys_of flows !! k = Some id → keys_of flows !! k' = Some id → k = k'.
Proof using Type.
  intros [Hi Hn]. rw !keys_of_spec //. intros (f & Hf & <- & <-) (f' & Hf' & <- & He).
  apply list_elem_of_lookup in Hf as [i Hf]. apply list_elem_of_lookup in Hf' as [j Hf'].
  assert (i = j) as ->; [|congruence].
  eapply (NoDup_lookup (flow_id <$> flows)); [done|..]; rw list_lookup_fmap ?Hf ?Hf' //=. by rw He.
Qed.

Lemma add_upstreams_hit (ks : Keys) f priority n id seen ups g :
  ks !! (flow_project f, n) = Some id →
  (∀ n', ks !! (flow_project f, n') = Some id → n' = n) →
  add_upstreams ks f priority seen ups g !! id =
  if bool_decide (n ∈ ups) && negb (bool_decide (n ∈ seen))
  then Some (push_dependent (flow_id f) priority (default no_dependents (g !! id))) else g !! id.
Proof using Type.
  intros Hn Hinj. revert seen g. induction ups as [|up ups IH]; intros seen g; simpl; [done|].
  destruct (decide (up = n)) as [->|Hne].
  - rw (bool_decide_true (n ∈ n :: ups)); [|set_solver]. cbn [andb].
    destruct (decide (n ∈ seen)) as [Hs|Hs].
    + rw !(bool_decide_true (n ∈ seen)) // IH (bool_decide_true (n ∈ seen)) // andb_false_r //.
    + rw !(bool_decide_false (n ∈ seen)) // Hn IH (bool_decide_true (n ∈ seen ++ [n])); [|set_solver].
      by rw andb_false_r lookup_insert_eq.
  - assert (Hb : bool_decide (n ∈ up :: ups) = bool_decide (n ∈ ups)) by (apply bool_decide_ext; set_solver).
    rw Hb. destruct (decide (up ∈ seen)) as [Hs|Hs]; [by rw (bool_decide_true (up ∈ seen)) // IH|].
    rw (bool_decide_false (up ∈ seen)) // IH.
    assert (Hb' : bool_decide (n ∈ seen ++ [up]) = bool_decide (n ∈ seen)) by (apply bool_decide_ext; set_solver).
    rw Hb'. destruct (ks !! (flow_project f, up)) as [id'|] eqn:Hup; [|done].
    rw lookup_insert_ne //. intros ->. by apply Hne, Hinj.
Qed.

Lemma add_upstreams_miss (ks : Keys) f priority id seen ups g :
  (∀ n, ks !! (flow_project f, n) ≠ Some id) →
  add_upstreams ks f priority seen ups g !! id = g !! id.
Proof using Type.
  intros Hn. revert seen g. induction ups as [|up ups IH]; intros seen g; simpl; [done|].
  case_match; [apply IH|]. rw IH. destruct (ks !! (flow_project f, up)) as [id'|] eqn:Hup; [|done].
  rw lookup_insert_ne //. intros ->. by apply (Hn up).
Qed.

Lemma depends_on_elem after n : depends_on after n = bool_decide (n ∈ upstreams after).
Proof using Type.
  apply Bool.eq_iff_eq_true. rw /depends_on existsb_exists bool_decide_eq_true list_elem_of_In. split.
  - by intros (x & Hx & ->%str_eqb_eq).
  - intros Hn. exists n. split; [done|]. apply str_eqb_refl.
Qed.

Lemma add_flow_lookup flows up f g :
  distinct flows → up ∈ flows → f ∈ flows →
  default no_dependents (add_flow (keys_of flows) g f !! flow_id up) =
  if depends up f
  then push_dependent (flow_id f) (fo_priority (from_map (flow_options f)))
         (default no_dependents (g !! flow_id up))
  else default no_dependents (g !! flow_id up).
Proof using Type.
  intros Hd Hup Hf. rw /add_flow /depends.
  destruct (fo_after (from_map (flow_options f))) as [after|]; [|by rw andb_false_r].
  assert (Hk : keys_of flows !! flow_key up = Some (flow_id up)).
  { apply keys_of_spec; [apply Hd|]. by exists up. }
  destruct (flow_project f =?s flow_project up) eqn:Hp; cbn [andb].
  - apply str_eqb_eq in Hp. rw (add_upstreams_hit _ _ _ (flow_name up)).
    + rw andb_true_r -depends_on_elem. by destruct (depends_on after (flow_name up)).
    + by rw Hp.
    + intros n' Hn'. by injection (keys_of_inj _ _ _ _ Hd Hn' Hk).
  - apply str_eqb_neq in Hp. rw add_upstreams_miss //. intros n Hn.
    by injection (keys_of_inj _ _ _ _ Hd Hn Hk).
Qed.

Lemma graph_fold flows up l g d :
  distinct flows → up ∈ flows → l ⊆ flows → default no_dependents (g !! flow_id up) = d →
  default no_dependents (fold_left (add_flow (keys_of flows)) l g !! flow_id up) =
  fold_left (λ d f, if depends up f then push_dependent (flow_id f)
                      (fo_priority (from_map (flow_options f))) d else d) l d.
Proof using Type.
  intros Hd Hup. revert g d. induction l as [|f l IH]; intros g d Hl Hg; [done|]. simpl.
  apply IH; [set_solver|]. rw add_flow_lookup ?Hg //. set_solver.
Qed.
End graph.

(** ** The cache *)

(** One [DepGraphCache] with the flows behind it.  [version] counts the changes
    of the flows, and a graph is named by the version it was built from.
    [invalidated] is the version at the last completed invalidation.  A build
    runs alone ([building] is held): it has read the generation, and then the
    flows. *)
Record Cache : Type := mkCache {
  ca_version : Z;
  ca_invalidated : Z;
  ca_slot : option Z;
  ca_generation : Z;
  ca_building : option (Z * option Z);
}.

Inductive cache_step : Cache → Cache → Prop :=
(** a flow is written; the writer invalidates afterwards *)
| cache_change v i s g b :
    cache_step (mkCache v i s g b) (mkCache (v + 1) i s g b)
| cache_invalidate v i s g b :
    cache_step (mkCache v i s g b) (mkCache v v None (g + 1) b)
(** the slot is empty twice: before and under the lock *)
| cache_begin v i g :
    cache_step (mkCache v i None g None) (mkCache v i None g (Some (g, None)))
| cache_read v i s g g0 :
    cache_step (mkCache v i s g (Some (g0, None))) (mkCache v i s g (Some (g0, Some v)))
(** publish, unless an invalidation came between *)
| cache_publish v i s g g0 built :
    cache_step (mkCache v i s g (Some (g0, Some built)))
      (mkCache v i (if g =? g0 then Some built else s) g None)
| cache_fail v i s g g0 :
    cache_step (mkCache v i s g (Some (g0, None))) (mkCache v i s g None).

Record cache_ok (c : Cache) : Prop := {
  co_invalidated : ca_invalidated c ≤ ca_version c;
  co_slot : ∀ g, ca_slot c = Some g → ca_invalidated c ≤ g ≤ ca_version c;
  co_building : ∀ g0 b, ca_building c = Some (g0, b) → g0 ≤ ca_generation c;
  co_built : ∀ g0 b, ca_building c = Some (g0, Some b) →
               b ≤ ca_version c ∧ (g0 = ca_generation c → ca_invalidated c ≤ b);
}.

Lemma cache_step_ok c c' : cache_step c c' → cache_ok c → cache_ok c'.
Proof.
  intros Hs [Hi Hsl Hb Hbb].
  destruct Hs as [v i s g b|v i s g b|v i g|v i s g g0|v i s g g0 built|v i s g g0]; simpl in *;
    split; simpl; try done; try lia.
  - intros g0 Hg. specialize (Hsl _ Hg). lia.
  - intros g0 b0 Hg. specialize (Hbb _ _ Hg) as [? ?]. split; [lia|done].
  - intros g0 b0 Hg. specialize (Hb _ _ Hg). lia.
  - intros g0 b0 Hg. specialize (Hb _ _ Hg). specialize (Hbb _ _ Hg) as [? _]. split; [done|lia].
  - intros g0 b0 [= <- _]. lia.
  - intros g1 b0 [= <- _]. by specialize (Hb _ _ eq_refl).
  - intros g1 b0 [= <- <-]. lia.
  - intros g1. destruct (Z.eqb_spec g g0) as [->|]; [|eauto]. intros [= <-].
    destruct (Hbb _ _ eq_refl). lia.
Qed.

Lemma cache_steps_ok c c' : rtc cache_step c c' → cache_ok c → cache_ok c'.
Proof. induction 1; eauto using cache_step_ok. Qed.

(** The graph lists exactly the flows that a scan of the project would:
    for every upstream, its dependents in the order of the flows, each once,
    with the highest priority they declare. *)
Theorem graph_is_scan (from_map : Map → FlowOptions) (flows : list Flow) (up : Flow) :
  distinct flows → up ∈ flows →
  default no_dependents (dep_graph_from_flows from_map flows !! flow_id up) =
  scan_dependents from_map up flows.
Proof. intros Hd Hup. by apply graph_fold. Qed.

Definition sample_after (m : Map) : FlowOptions :=
  let after := (λ up, mkAfterSpec up [] None []) <$> get_str "after" m in
  mkFlowOptions false false (default 0 (get_i64 "priority" m)) None "enqueue" [] None None 0 after None [] false
    false None None None None None None None None.
Definition sample_flow (id : Z) (name : string) (options : Map) : Flow :=
  mkFlow id "" "p" name "m" "/srv" None [] None VNull options None 0 0 false.
Definition sample_flows : list Flow :=
  [sample_flow 1 "etl" []; sample_flow 2 "daily" [("after", VString "etl"); ("priority", VNumber (NInt 4))];
   sample_flow 3 "audit" [("after", VString "etl")]].

Lemma graph_is_scan_witness :
  dep_graph_from_flows sample_after sample_flows !! 1 = Some (mkDependents [2; 3] 4) ∧
  default no_dependents (dep_graph_from_flows sample_after sample_flows !! 1) =
    scan_dependents sample_after (sample_flow 1 "etl" []) sample_flows.
Proof.
  split; [vm_compute; reflexivity|].
  apply (graph_is_scan sample_after sample_flows (sample_flow 1 "etl" [])); [|set_solver].
  split; apply (bool_decide_unpack _); vm_compute; exact I.
Defined.

(** The cache never keeps a graph that misses a change: whatever builds,
    changes and invalidations interleave, the graph in the slot was built from
    the flows as of the last invalidation or later, so a change is visible as
    soon as its writer has invalidated. *)
Theorem cache_never_stale (v : Z) (c : Cache) (g : Z) :
  rtc cache_step (mkCache v v None 0 None) c → ca_slot c = Some g →
  ca_invalidated c ≤ g ≤ ca_version c.
Proof.
  intros Hr Hg. apply (co_slot c); [|done]. apply (cache_steps_ok _ _ Hr). split; simpl; try done; lia.
Qed.

Lemma cache_never_stale_witness :
  0 ≤ 1 ≤ 1.
Proof.
  apply (cache_never_stale 0 (mkCache 1 0 (Some 1) 0 None) 1); [|done].
  eapply rtc_l; [apply cache_begin|]. eapply rtc_l; [apply cache_change|].
  eapply rtc_l; [apply cache_read|]. eapply rtc_l; [apply (cache_publish 1 0 None 0 0 1)|]. apply rtc_refl.
Defined.
