(* ===== verification/Events.v ===== *)
(** * Event names (core/src/events.rs)

    The catalogue of engine-emitted events, the check of user-supplied names
    in rule clauses, and the suggestion it makes: the nearest known name by
    Levenshtein distance. *)

From S2P Require Import Prelude States.
From Stdlib Require Import Ascii.

Inductive EventName : Type :=
| RunScheduled
| RunPending
| RunRunning
| RunCompleted
| RunFailed
| RunCrashed
| RunCancelled
| RunLate
| RunOverdue
| RunRetrying
| RunSkipped
| RunPaused
| RunResumed
| RunReportRejected
| RunLocalPathOnWorker
| TaskRunRunning
| TaskRunCompleted
| TaskRunFailed
| TaskRunCancelled
| TaskRunSkipped
| TaskRunCached
| TaskRunReplayed
| TaskRunRecovered
| FlowRegistered
| FlowDisabled
| FlowEnabled
| FlowFanIn
| FlowRecovered
| BackfillCompleted
| SchedulePaused
| ScheduleResumed
| SchedulerPaused
| SchedulerResumed
| ScheduleCatchup
| ScheduleSkipsDropped
| ResourceExhausted
| RuleFired
| RuleActionCompleted
| RuleActionFailed
| RuleLoopLimited
| ExpectationArmed
| ExpectationMet
| ExpectationLapsed
| WorkerRegistered
| WorkerOffline.

#[global] Instance EventName_eq_dec : EqDecision EventName.
Proof. solve_decision. Defined.

Definition RESERVED_PREFIXES : list string :=
  ["run."; "task_run."; "flow."; "schedule."; "scheduler."; "resource."; "rule.";
   "expectation."; "backfill."; "worker."].

Definition EventName_ALL : list EventName :=
  [RunScheduled; RunPending; RunRunning; RunCompleted; RunFailed; RunCrashed;
   RunCancelled; RunLate; RunOverdue; RunRetrying; RunSkipped; RunPaused; RunResumed;
   RunReportRejected; TaskRunRunning; TaskRunCompleted; TaskRunFailed; TaskRunCancelled;
   TaskRunSkipped; TaskRunCached; TaskRunReplayed; TaskRunRecovered; FlowRegistered;
   FlowDisabled; FlowEnabled; FlowFanIn; FlowRecovered; BackfillCompleted;
   SchedulePaused; ScheduleResumed; SchedulerPaused; SchedulerResumed; ScheduleCatchup;
   ScheduleSkipsDropped; ResourceExhausted; RuleFired; RuleActionCompleted;
   RuleActionFailed; RuleLoopLimited; ExpectationArmed; ExpectationMet;
   ExpectationLapsed; RunLocalPathOnWorker; WorkerRegistered; WorkerOffline].

Definition EventName_as_str (e : EventName) : string :=
  match e with
  | RunScheduled => "run.scheduled"
  | RunPending => "run.pending"
  | RunRunning => "run.running"
  | RunCompleted => "run.completed"
  | RunFailed => "run.failed"
  | RunCrashed => "run.crashed"
  | RunCancelled => "run.cancelled"
  | RunLate => "run.late"
  | RunOverdue => "run.overdue"
  | RunRetrying => "run.retrying"
  | RunSkipped => "run.skipped"
  | RunPaused => "run.paused"
  | RunResumed => "run.resumed"
  | RunReportRejected => "run.report_rejected"
  | TaskRunRunning => "task_run.running"
  | TaskRunCompleted => "task_run.completed"
  | TaskRunFailed => "task_run.failed"
  | TaskRunCancelled => "task_run.cancelled"
  | TaskRunSkipped => "task_run.skipped"
  | TaskRunCached => "task_run.cached"
  | TaskRunReplayed => "task_run.replayed"
  | TaskRunRecovered => "task_run.recovered"
  | FlowRegistered => "flow.registered"
  | FlowDisabled => "flow.disabled"
  | FlowEnabled => "flow.enabled"
  | FlowFanIn => "flow.fan_in"
  | FlowRecovered => "flow.recovered"
  | BackfillCompleted => "backfill.completed"
  | SchedulePaused => "schedule.paused"
  | ScheduleResumed => "schedule.resumed"
  | SchedulerPaused => "scheduler.paused"
  | SchedulerResumed => "scheduler.resumed"
  | ScheduleCatchup => "schedule.catchup"
  | ScheduleSkipsDropped => "schedule.skips_dropped"
  | ResourceExhausted => "resource.exhausted"
  | RuleFired => "rule.fired"
  | RuleActionCompleted => "rule.action.completed"
  | RuleActionFailed => "rule.action.failed"
  | RuleLoopLimited => "rule.loop_limited"
  | ExpectationArmed => "expectation.armed"
  | ExpectationMet => "expectation.met"
  | ExpectationLapsed => "expectation.lapsed"
  | RunLocalPathOnWorker => "run.local_path_on_worker"
  | WorkerRegistered => "worker.registered"
  | WorkerOffline => "worker.offline"
  end.

Definition resource (e : EventName) : string :=
  match e with
  | RunScheduled | RunPending | RunRunning | RunCompleted | RunFailed | RunCrashed |
    RunCancelled | RunLate | RunOverdue | RunRetrying | RunSkipped | RunPaused |
    RunResumed | RunReportRejected | RunLocalPathOnWorker
    => "run"
  | TaskRunRunning | TaskRunCompleted | TaskRunFailed | TaskRunCancelled |
    TaskRunSkipped | TaskRunCached | TaskRunReplayed | TaskRunRecovered
    => "task_run"
  | FlowRegistered | FlowDisabled | FlowEnabled | FlowFanIn | FlowRecovered
    => "flow"
  | BackfillCompleted
    => "backfill"
  | SchedulePaused | ScheduleResumed | ScheduleCatchup | ScheduleSkipsDropped
    => "schedule"
  | SchedulerPaused | SchedulerResumed
    => "scheduler"
  | ResourceExhausted
    => "resource"
  | RuleFired | RuleActionCompleted | RuleActionFailed | RuleLoopLimited |
    ExpectationArmed | ExpectationMet | ExpectationLapsed
    => "rule"
  | WorkerRegistered | WorkerOffline
    => "worker"
  end.

Definition payload_fields (e : EventName) : list string :=
  match e with
  | RunReportRejected =>
      ["seq"; "kind"; "reason"]
  | RunLocalPathOnWorker =>
      ["path"; "host"]
  | WorkerRegistered =>
      ["worker_id"; "name"; "version"; "refused"; "drift"]
  | WorkerOffline =>
      ["worker_id"; "name"]
  | RunLate =>
      ["state"; "state_type"; "message"; "flow"; "project"; "parameters"; "created_by";
       "scheduled_time"; "name"]
  | RunOverdue =>
      ["expected_seconds"; "elapsed_seconds"; "basis"]
  | RunScheduled | RunPending | RunRunning | RunCompleted | RunCancelled | RunRetrying |
    RunPaused | RunResumed =>
      ["state"; "state_type"; "message"; "flow"; "project"; "parameters"; "created_by"]
  | RunSkipped =>
      ["state"; "state_type"; "message"; "flow"; "project"; "parameters"; "created_by";
       "reason"]
  | TaskRunRunning | TaskRunCompleted | TaskRunFailed | TaskRunCancelled |
    TaskRunSkipped | TaskRunCached | TaskRunReplayed | TaskRunRecovered =>
      ["task"; "dynamic_key"; "state"; "message"; "flow"; "project"]
  | FlowRegistered =>
      ["flow"; "project"; "module"]
  | FlowDisabled =>
      ["failures"; "window_seconds"; "until"]
  | FlowEnabled =>
      []
  | RunFailed | RunCrashed =>
      ["state"; "state_type"; "message"; "flow"; "project"; "parameters"; "created_by";
       "failures_in_a_row"]
  | FlowFanIn =>
      ["key"; "value"; "upstream"; "run_id"]
  | FlowRecovered =>
      ["flow"; "project"; "failures"; "run_id"]
  | BackfillCompleted =>
      ["backfill_id"; "counts"]
  | SchedulePaused =>
      ["schedule_id"; "reason"]
  | ScheduleResumed =>
      ["schedule_id"]
  | SchedulerPaused =>
      ["reason"; "until"; "suppress_rules"]
  | SchedulerResumed =>
      ["held"; "schedules"]
  | ScheduleCatchup =>
      ["schedule_id"; "policy"; "missed"; "created"; "dropped"]
  | ScheduleSkipsDropped =>
      ["schedule_id"; "dropped"]
  | ResourceExhausted =>
      ["resource"]
  | RuleFired =>
      ["rule_id"; "rule"; "event"; "event_id"]
  | RuleActionCompleted =>
      ["rule_id"; "action"; "index"; "detail"]
  | RuleActionFailed =>
      ["rule_id"; "action"; "index"; "error"]
  | RuleLoopLimited =>
      ["rule_id"; "rule"; "chain_root"; "rounds"; "limit"]
  | ExpectationArmed =>
      ["id"; "rule_id"; "key"; "run_id"; "deadline"]
  | ExpectationMet =>
      ["id"; "rule_id"; "key"]
  | ExpectationLapsed =>
      ["rule_id"; "rule"; "flow"; "project"; "run"; "run_name"; "expected"; "deadline";
       "armed_at"; "expectation_id"]
  end.

Definition EventName_parse (text : string) : option EventName :=
  List.find (λ e, EventName_as_str e =?s text) EventName_ALL.

Definition reserved_prefix (name : string) : option string :=
  List.find (λ p, starts_with name p
                  || (name =?s trim_end_matches (λ c, Ascii.eqb c "."%char) p))
    RESERVED_PREFIXES.

(** The [Debug] rendering of a string: quoted, with the quote, the backslash
    and control characters escaped.  Bytes beyond ASCII are kept. *)
Definition dquote : ascii := ascii_of_nat 34.
Definition hex_digit (n : nat) : ascii :=
  if (n <? 10)%nat then ascii_of_nat (48 + n) else ascii_of_nat (87 + n).
Definition escape_debug (c : ascii) : string :=
  let n := nat_of_ascii c in
  let bs := String (ascii_of_nat 92) in
  if (n =? 34)%nat || (n =? 92)%nat then bs (String c EmptyString)
  else if (n =? 0)%nat then bs "0"
  else if (n =? 9)%nat then bs "t"
  else if (n =? 10)%nat then bs "n"
  else if (n =? 13)%nat then bs "r"
  else if (n <? 16)%nat then bs ("u{" +:+ String (hex_digit n) "}")
  else if (n <? 32)%nat || (n =? 127)%nat then
    bs ("u{" +:+ String (hex_digit (n / 16)) (String (hex_digit (n mod 16)) "}"))
  else String c EmptyString.
Definition debug_str (s : string) : string :=
  String dquote (foldr (λ c acc, escape_debug c +:+ acc) (String dquote EmptyString) (chars s)).

(** [slice.join(sep)] *)
Fixpoint join (sep : string) (l : list string) : string :=
  match l with
  | [] => ""
  | [x] => x
  | x :: l' => x +:+ sep +:+ join sep l'
  end.

(** ** Levenshtein distance *)

Definition cost (ca cb : ascii) : nat := if Ascii.eqb ca cb then 0%nat else 1%nat.

(** One row: [prev] is the row above from column [j] on, [left] is [cur[j]]. *)
Fixpoint lev_row (ca : ascii) (b : list ascii) (prev : list nat) (left : nat) : list nat :=
  match b, prev with
  | cb :: b', p0 :: (p1 :: _) as prev' =>
      let v := (((p0 + cost ca cb) `min` (p1 + 1)) `min` (left + 1))%nat in
      v :: lev_row ca b' prev' v
  | _, _ => []
  end.

(** The rows, from row [i], for the rest [a] of the first string. *)
Fixpoint lev_rows (a : list ascii) (b : list ascii) (i : nat) (prev : list nat) : list nat :=
  match a with
  | [] => prev
  | ca :: a' => lev_rows a' b (S i) (S i :: lev_row ca b prev (S i))
  end.

Definition levenshtein (a b : string) : nat :=
  let b := chars b in
  default 0%nat (lev_rows (chars a) b 0 (seq 0 (S (length b))) !! length b).

(** ** The nearest candidate *)

Definition key_lt (k1 k2 : nat * nat) : bool :=
  (k1.1 <? k2.1)%nat || ((k1.1 =? k2.1)%nat && (k1.2 <? k2.2)%nat).

(** [Iterator::min_by_key]: the first of the least elements. *)
Fixpoint min_by_key {A} (key : A → nat * nat) (best : A) (l : list A) : A :=
  match l with
  | [] => best
  | x :: l' => min_by_key key (if key_lt (key x) (key best) then x else best) l'
  end.

Definition nearest_key (dc : nat * string) : nat * nat := (dc.1, str_len dc.2).

Definition nearest (name : string) (candidates : list string) : option string :=
  let lowered := to_ascii_lowercase name in
  let budget := (((length (chars name)) / 3) `max` 1)%nat in
  match List.filter (λ dc : nat * string, (dc.1 <=? budget)%nat)
          ((λ c, (levenshtein lowered (to_ascii_lowercase c), c)) <$> candidates) with
  | [] => None
  | dc :: l => Some (min_by_key nearest_key dc l).2
  end.

Record NameError : Type := mkNameError {
  ne_value : string;
  ne_suggestion : option string;
  ne_message : string;
}.

Definition known_events (prefix : string) : list string :=
  EventName_as_str <$> List.filter (λ e, starts_with (EventName_as_str e) prefix) EventName_ALL.

Definition check_event_name (name : string) : result unit NameError :=
  if ends_with_char name "*"%char then Ok tt
  else
    match reserved_prefix name with
    | None => Ok tt
    | Some prefix =>
        if is_some (EventName_parse name) then Ok tt
        else
          let known := known_events prefix in
          let suggestion := nearest name known in
          let head := "unknown event name " +:+ debug_str name +:+ ": " +:+ debug_str prefix
                      +:+ " is a reserved prefix and nothing emits " +:+ debug_str name in
          let message :=
            match suggestion with
            | Some s => head +:+ "; did you mean " +:+ debug_str s +:+ "?"
            | None =>
                head +:+ "; known names are " +:+ join ", " known +:+ ", or use "
                +:+ String dquote (prefix +:+ "*" +:+ String dquote " to match them all")
            end in
          Err {| ne_value := name; ne_suggestion := suggestion; ne_message := message |}
    end.

Definition check_state_name (name : string) : result unit NameError :=
  if is_some (StateType_parse name) || is_some (StateName_parse name) then Ok tt
  else
    let types := StateType_as_str <$> StateType_ALL in
    let names := StateName_as_str <$> StateName_ALL in
    let suggestion := nearest name (types ++ names) in
    let message :=
      match suggestion with
      | Some s => "unknown state " +:+ debug_str name +:+ "; did you mean " +:+ debug_str s +:+ "?"
      | None =>
          "unknown state " +:+ debug_str name +:+ "; expected a state type (" +:+ join ", " types
          +:+ ") or a sub-state name (" +:+ join ", " names +:+ ")"
      end in
    Err {| ne_value := name; ne_suggestion := suggestion; ne_message := message |}.

(** [run.failure] is refused with a suggestion, a custom name passes. *)
Example check_event_name_typo :
  match check_event_name "run.failure" with
  | Err e => ne_suggestion e = Some "run.failed"
  | Ok _ => False
  end.
Proof. vm_compute. reflexivity. Qed.
Example check_event_name_custom : check_event_name "orders.loaded" = Ok tt.
Proof. vm_compute. reflexivity. Qed.

(** ** The distance is the least cost of an alignment *)

(** An alignment of two strings, read from left to right: each step deletes a
    character of the first, inserts one of the second, or pairs one of each,
    at cost one unless the paired characters are equal. *)
Inductive align : list ascii → list ascii → nat → Prop :=
| al_nil : align [] [] 0
| al_del a b n x : align a b n → align (a ++ [x]) b (S n)
| al_ins a b n y : align a b n → align a (b ++ [y]) (S n)
| al_sub a b n x y : align a b n → align (a ++ [x]) (b ++ [y]) (n + cost x y).

Definition dist (a b : list ascii) (n : nat) : Prop :=
  align a b n ∧ ∀ m, align a b m → (n ≤ m)%nat.

Lemma align_nil_inv a b n : align a b n → (length a ≤ n + length b ∧ length b ≤ n + length a)%nat.
Proof. induction 1; rw ?length_app /=; lia. Qed.

Lemma dist_nil_l b : dist [] b (length b).
Proof.
  split.
  - induction b as [|y b IH] using rev_ind; [constructor|].
    rw length_app Nat.add_1_r. by constructor.
  - intros m [_ ?]%align_nil_inv. simpl in *. lia.
Qed.

Lemma dist_nil_r a : dist a [] (length a).
Proof.
  split.
  - induction a as [|x a IH] using rev_ind; [constructor|].
    rw length_app Nat.add_1_r. by constructor.
  - intros m [? _]%align_nil_inv. simpl in *. lia.
Qed.

Lemma align_snoc_inv a x b y m :
  align (a ++ [x]) (b ++ [y]) m →
  (∃ n, align a (b ++ [y]) n ∧ m = S n) ∨ (∃ n, align (a ++ [x]) b n ∧ m = S n) ∨
  (∃ n, align a b n ∧ m = (n + cost x y)%nat).
Proof.
  intros Hal. inversion Hal as [Ha Hb Hm|a' b' n x' H' Ha Hb Hm|a' b' n y' H' Ha Hb Hm|a' b' n x' y' H' Ha Hb Hm].
  - by destruct a.
  - apply app_inj_tail in Ha as [-> ->]. eauto.
  - apply app_inj_tail in Hb as [-> ->]. eauto.
  - apply app_inj_tail in Ha as [-> ->]. apply app_inj_tail in Hb as [-> ->]. eauto.
Qed.

(** The recurrence of the dynamic program. *)
Lemma dist_snoc a x b y n1 n2 n3 :
  dist a b n1 → dist a (b ++ [y]) n2 → dist (a ++ [x]) b n3 →
  dist (a ++ [x]) (b ++ [y]) (((n1 + cost x y) `min` (n2 + 1)) `min` (n3 + 1)).
Proof.
  intros [H1 M1] [H2 M2] [H3 M3]. split.
  - destruct (Nat.min_spec ((n1 + cost x y) `min` (n2 + 1)) (n3 + 1)) as [[_ ->]|[_ ->]].
    + destruct (Nat.min_spec (n1 + cost x y) (n2 + 1)) as [[_ ->]|[_ ->]].
      * by constructor.
      * rw Nat.add_1_r. by constructor.
    + rw Nat.add_1_r. by constructor.
  - intros m [(n & Hn & ->)|[(n & Hn & ->)|(n & Hn & ->)]]%align_snoc_inv.
    + apply M2 in Hn. lia.
    + apply M3 in Hn. lia.
    + apply M1 in Hn. lia.
Qed.

(** [row] holds the distances of [a] to every prefix of [b1 ++ b2] from [b1] on. *)
Fixpoint row_from (a b1 b2 : list ascii) (row : list nat) : Prop :=
  match b2, row with
  | [], [p] => dist a b1 p
  | cb :: b2', p :: row' => dist a b1 p ∧ row_from a (b1 ++ [cb]) b2' row'
  | _, _ => False
  end.

Lemma row_from_head a b1 b2 p row : row_from a b1 b2 (p :: row) → dist a b1 p.
Proof. destruct b2; simpl; [by destruct row|by intros [? _]]. Qed.

Lemma row_from_first b1 b2 : row_from [] b1 b2 (seq (length b1) (S (length b2))).
Proof.
  revert b1; induction b2 as [|cb b2 IH]; intros b1; simpl; [apply dist_nil_l|].
  split; [apply dist_nil_l|]. specialize (IH (b1 ++ [cb])).
  by rw length_app Nat.add_1_r in IH.
Qed.

Lemma row_from_step a ca b1 b2 prev left :
  row_from a b1 b2 prev → dist (a ++ [ca]) b1 left →
  row_from (a ++ [ca]) b1 b2 (left :: lev_row ca b2 prev left).
Proof.
  revert b1 prev left; induction b2 as [|cb b2 IH]; intros b1 prev left Hp Hl; [by destruct prev|].
  destruct prev as [|p0 prev]; [done|]. destruct Hp as [Hp0 Hp].
  destruct prev as [|p1 prev]; [by destruct b2|].
  split; [done|]. apply IH; [done|]. apply dist_snoc; [done| |done].
  by eapply row_from_head.
Qed.

Lemma row_from_last a b1 b2 row :
  row_from a b1 b2 row → ∃ v, row !! length b2 = Some v ∧ dist a (b1 ++ b2) v.
Proof.
  revert b1 row; induction b2 as [|cb b2 IH]; intros b1 row; simpl.
  - destruct row as [|p [|]]; [done| |done]. rw app_nil_r. eauto.
  - destruct row as [|p row]; [done|]. intros [_ H]. apply IH in H as (v & ? & H).
    exists v. by rw -app_assoc in H.
Qed.

Lemma lev_rows_ok a0 a b row :
  row_from a0 [] b row → row_from (a0 ++ a) [] b (lev_rows a b (length a0) row).
Proof.
  revert a0 row; induction a as [|ca a IH]; intros a0 row Hr; simpl; [by rw app_nil_r|].
  assert (Hd : dist (a0 ++ [ca]) [] (S (length a0))).
  { pose proof (dist_nil_r (a0 ++ [ca])) as Hd. by rw length_app Nat.add_1_r in Hd. }
  specialize (IH (a0 ++ [ca]) _ (row_from_step _ _ _ _ _ _ Hr Hd)).
  by rw length_app Nat.add_1_r -app_assoc in IH.
Qed.

(** ** The nearest candidate *)

Lemma key_nlt_trans k1 k2 k3 :
  key_lt k2 k1 = false → key_lt k3 k2 = false → key_lt k3 k1 = false.
Proof. destruct k1, k2, k3. rw /key_lt. cbn [fst snd]. lia. Qed.

Lemma key_lt_asym k1 k2 : key_lt k1 k2 = true → key_lt k2 k1 = false.
Proof. destruct k1, k2. rw /key_lt. cbn [fst snd]. lia. Qed.

Lemma key_lt_irrefl k : key_lt k k = false.
Proof. destruct k. rw /key_lt. cbn [fst snd]. lia. Qed.

Lemma min_by_key_least {A} (key : A → nat * nat) best l :
  min_by_key key best l ∈ best :: l ∧
  ∀ x, x ∈ best :: l → key_lt (key x) (key (min_by_key key best l)) = false.
Proof.
  revert best; induction l as [|y l IH]; intros best; simpl.
  { split; [set_solver|]. intros x Hx%list_elem_of_singleton. subst. apply key_lt_irrefl. }
  destruct (IH (if key_lt (key y) (key best) then y else best)) as [Hin Hleast].
  assert (Hb : ∀ x, x ∈ [best; y] → key_lt (key x)
                 (key (if key_lt (key y) (key best) then y else best)) = false).
  { intros x. rw !elem_of_cons. destruct (key_lt (key y) (key best)) eqn:E;
      intros [->|[->|[]%not_elem_of_nil]]; auto using key_lt_asym, key_lt_irrefl. }
  split; [destruct (key_lt (key y) (key best)); set_solver|].
  intros x Hx. rw !elem_of_cons in Hx.
  assert (x ∈ [best; y] ∨ x ∈ l) as [Hx'|Hx'] by set_solver; [|apply Hleast; set_solver].
  eapply key_nlt_trans; [apply Hleast, elem_of_cons; by left|by apply Hb].
Qed.

Definition budget (name : string) : nat := ((length (chars name) / 3) `max` 1)%nat.

(** The distance [nearest] ranks a candidate by. *)
Definition name_dist (name c : string) : nat :=
  levenshtein (to_ascii_lowercase name) (to_ascii_lowercase c).

Lemma nearest_Some name candidates c :
  nearest name candidates = Some c →
  c ∈ candidates ∧ (name_dist name c ≤ budget name)%nat ∧
  ∀ c', c' ∈ candidates →
    (name_dist name c < name_dist name c' ∨
     name_dist name c = name_dist name c' ∧ str_len c ≤ str_len c')%nat.
Proof.
  rw /nearest -/(budget name). case_match eqn:E; [done|]. intros [= <-].
  match goal with |- context [min_by_key _ ?p ?l] =>
    destruct (min_by_key_least nearest_key p l) as [Hin Hleast];
    set (r := min_by_key nearest_key p l) in * end.
  rw -E in Hin. setoid_rewrite <-E in Hleast.
  apply list_elem_of_In, List.filter_In in Hin as [Hin Hb].
  apply list_elem_of_In, list_elem_of_fmap in Hin as (c & Hr & Hc). rw Hr /= in Hb Hleast |- *.
  split; [done|]. split; [rw /name_dist; lia|]. intros c' Hc'.
  destruct (Nat.leb_spec (name_dist name c') (budget name)) as [Hle|Hle].
  - specialize (Hleast (name_dist name c', c')). rw /key_lt /nearest_key in Hleast.
    cbn [fst snd] in Hleast. rw /name_dist in Hleast Hle |- *.
    assert (Hin : (levenshtein (to_ascii_lowercase name) (to_ascii_lowercase c'), c') ∈ p :: l).
    { rw -E. apply list_elem_of_In, List.filter_In. split; [|by apply Nat.leb_le].
      apply list_elem_of_In, list_elem_of_fmap. by exists c'. }
    rw E in Hleast. specialize (Hleast Hin). lia.
  - left. rw /name_dist in Hle |- *. lia.
Qed.

Lemma nearest_None name candidates :
  nearest name candidates = None ↔ ∀ c, c ∈ candidates → (budget name < name_dist name c)%nat.
Proof.
  rw /nearest -/(budget name). case_match eqn:E.
  - split; [intros _|done]. intros c Hc.
    destruct (Nat.ltb_spec (budget name) (name_dist name c)) as [|Hle]; [done|].
    exfalso. apply (not_elem_of_nil (name_dist name c, c)). rw -E.
    apply list_elem_of_In, List.filter_In. split; [|simpl; lia].
    apply list_elem_of_In, list_elem_of_fmap. by exists c.
  - split; [done|]. intros Hall. exfalso.
    assert (Hin : p ∈ p :: l) by set_solver. rw -E in Hin.
    apply list_elem_of_In, List.filter_In in Hin as [Hin Hb].
    apply list_elem_of_In, list_elem_of_fmap in Hin as (c & -> & Hc). simpl in Hb.
    apply Hall in Hc. rw /name_dist in Hc. lia.
Qed.

(** ** The catalogue *)

Lemma EventName_ALL_full e : e ∈ EventName_ALL.
Proof. rw list_elem_of_In. destruct e; vm_compute; tauto. Qed.

Lemma EventName_parse_as_str e : EventName_parse (EventName_as_str e) = Some e.
Proof. destruct e; vm_compute; reflexivity. Qed.

Lemma EventName_parse_Some text e : EventName_parse text = Some e → EventName_as_str e = text.
Proof. by intros [_ ?%str_eqb_eq]%List.find_some. Qed.

Lemma known_events_spec prefix s :
  s ∈ known_events prefix → ∃ e, EventName_as_str e = s ∧ starts_with s prefix = true.
Proof.
  rw /known_events. generalize EventName_ALL as l. intros l Hs.
  apply list_elem_of_fmap in Hs as (e & -> & He). exists e. split; [done|].
  apply list_elem_of_In, List.filter_In in He as [_ He]. exact He.
Qed.

(** ** Theorems *)

(** The row-by-row dynamic program computes the edit distance: the least
    cost of an alignment of the two strings. *)
Theorem levenshtein_is_edit_distance a b : dist (chars a) (chars b) (levenshtein a b).
Proof.
  pose proof (lev_rows_ok [] (chars a) (chars b) _ (row_from_first [] (chars b))) as Hr.
  cbn [app length] in Hr. apply row_from_last in Hr as (v & Hv & Hd).
  rw /levenshtein. cbv zeta. rw Hv. exact Hd.
Qed.

(** [nearest] suggests a candidate exactly when one is within a third of
    the name's length (and at least one edit), ignoring ASCII case, and the
    one it suggests is at the least distance, the shortest among equals. *)
Theorem nearest_minimal name candidates :
  match nearest name candidates with
  | Some c =>
      c ∈ candidates ∧ (name_dist name c ≤ budget name)%nat ∧
      ∀ c', c' ∈ candidates →
        (name_dist name c < name_dist name c' ∨
         name_dist name c = name_dist name c' ∧ str_len c ≤ str_len c')%nat
  | None => ∀ c, c ∈ candidates → (budget name < name_dist name c)%nat
  end.
Proof.
  destruct (nearest name candidates) as [c|] eqn:E; [by apply nearest_Some|by apply nearest_None].
Qed.

(** The catalogue is consistent: every variant is listed, names and
    variants convert both ways, and every name is under a reserved prefix. *)
Theorem catalogue_roundtrip :
  (∀ e, e ∈ EventName_ALL ∧ EventName_parse (EventName_as_str e) = Some e ∧
        is_some (reserved_prefix (EventName_as_str e)) = true) ∧
  (∀ text e, EventName_parse text = Some e → EventName_as_str e = text).
Proof.
  split; [|apply EventName_parse_Some]. intros e.
  split_and!; [apply EventName_ALL_full|apply EventName_parse_as_str|].
  destruct e; vm_compute; reflexivity.
Qed.

(** A rule may match on a name exactly when it is a wildcard, a custom
    name (under no reserved prefix) or a name the engine emits; a refusal names
    the value, and what it suggests is itself an accepted catalogue name under
    the same prefix. *)
Theorem check_event_name_spec name :
  (check_event_name name = Ok tt ↔
     ends_with_char name "*"%char = true ∨ reserved_prefix name = None ∨
     ∃ e, EventName_as_str e = name) ∧
  (∀ err, check_event_name name = Err err →
     ne_value err = name ∧
     ∀ s, ne_suggestion err = Some s →
       (∃ e, EventName_as_str e = s) ∧
       (∃ prefix, reserved_prefix name = Some prefix ∧ starts_with s prefix = true)).
Proof.
  rw /check_event_name. destruct (ends_with_char name "*"%char) eqn:E1; [naive_solver|].
  destruct (reserved_prefix name) as [prefix|] eqn:E2; [|naive_solver].
  destruct (EventName_parse name) as [e|] eqn:E3; simpl.
  { apply EventName_parse_Some in E3. naive_solver. }
  split.
  - split; [done|]. intros [?|[?|[e <-]]]; [done|done|]. by rw EventName_parse_as_str in E3.
  - intros err [= <-]. split; [done|]. simpl. intros s Hs.
    apply nearest_Some in Hs as (Hs & _). apply known_events_spec in Hs as (e & ? & ?). eauto.
Qed.
