(* ===== verification/Unique.v ===== *)
(** * Unique run keys and placeholder templates (core/src/unique.rs)

    [serde_json]'s printer is the parameter [to_string].  The loops consume
    the rest of the template, so they carry a fuel of its length, which
    [render_loop_eq] and [normalise_loop_eq] show is always enough. *)

From S2P Require Import Prelude Float64 Json.
From Stdlib Require Import Ascii.

Section unique.
Context (to_string : Value → string).

Definition render_value_text (v : Value) : string :=
  match v with VString s => s | other => to_string other end.

(** The loop of [render_key] over the rest of the template. *)
Fixpoint render_fuel (fuel : nat) (parameters : Map) (rest : string) : string :=
  match fuel with
  | O => rest
  | S fuel' =>
      match split_once "{"%char rest with
      | None => rest
      | Some (before, after) =>
          match split_once "}"%char after with
          | Some (inside, rest') =>
              before +:+
              match map_get (trim inside) parameters with
              | Some v => render_value_text v
              | None => ""
              end +:+ render_fuel fuel' parameters rest'
          | None => before +:+ String "{"%char after
          end
      end
  end.
Definition render_loop (parameters : Map) (t : string) : string :=
  render_fuel (S (str_len t)) parameters t.

Definition render_key (template : option string) (parameters : Map) : string :=
  match opt_filter (λ t, negb (str_is_empty t)) (trim <$> template) with
  | None => to_string (VObject parameters)
  | Some t => render_loop parameters t
  end.

(** The loop of [render_template]: [{{ x }}] becomes [{x}]. *)
Fixpoint normalise_fuel (fuel : nat) (rest : string) : string :=
  match fuel with
  | O => rest
  | S fuel' =>
      match split_once_str "{{" rest with
      | None => rest
      | Some (before, after) =>
          match split_once_str "}}" after with
          | Some (inside, rest') =>
              before +:+ "{" +:+ trim inside +:+ "}" +:+ normalise_fuel fuel' rest'
          | None => before +:+ "{{" +:+ after
          end
      end
  end.
Definition normalise (t : string) : string := normalise_fuel (S (str_len t)) t.

Definition render_template (text : string) (parameters : Map) : string :=
  if negb (contains_char "{"%char text) then text
  else render_key (Some (normalise text)) parameters.

(** [None] is the panic of a division by zero. *)
Definition unique_key (flow_id : Z) (rendered : string) (period_secs : option f64)
    (now_micros : Z) : option string :=
  let key bucket := "flow:" +:+ dec flow_id +:+ "|" +:+ rendered +:+ "|" +:+ bucket in
  match opt_filter (λ p, f64_lt f64_zero p) period_secs with
  | Some p =>
      let w := micros_of_secs p in
      if w =? 0 then None else Some (key (dec (wrap_i64 (Z.quot now_micros w))))
  | None => Some (key "")
  end.

Definition idempotency_key (flow_id : Z) (key : string) : string :=
  "flow:" +:+ dec flow_id +:+ "|idem:" +:+ trim key +:+ "|".

(** ** The fuel is enough *)

Lemma split_once_len c s b r :
  split_once c s = Some (b, r) → (str_len b + str_len r < str_len s)%nat.
Proof.
  revert b r; induction s as [|a s IH]; intros b r; simpl; [done|].
  destruct (Ascii.eqb a c); [intros [= <- <-]; simpl; lia|].
  destruct (split_once c s) as [[b' r']|]; [|done]. intros [= <- <-].
  specialize (IH b' r' eq_refl). simpl. lia.
Qed.

Lemma strip_prefix_len p s r : strip_prefix p s = Some r → (str_len s = str_len p + str_len r)%nat.
Proof.
  intros ->%strip_prefix_Some. induction p as [|a p IH]; simpl; [done|by rw IH].
Qed.

Lemma split_once_str_len p s b r :
  split_once_str p s = Some (b, r) → (str_len b + str_len p + str_len r = str_len s)%nat.
Proof.
  revert b r; induction s as [|a s IH]; intros b r.
  - simpl. destruct p; [|done]. simpl. intros [= <- <-]. done.
  - cbn [split_once_str]. destruct (strip_prefix p (String a s)) as [r0|] eqn:E.
    + intros [= <- <-]. apply strip_prefix_len in E. simpl in *. lia.
    + destruct (split_once_str p s) as [[b' r']|]; [|done]. intros [= <- <-].
      specialize (IH b' r' eq_refl). simpl. lia.
Qed.

Lemma render_fuel_enough parameters n m rest :
  (str_len rest < n)%nat → (str_len rest < m)%nat →
  render_fuel n parameters rest = render_fuel m parameters rest.
Proof.
  revert m rest; induction n as [|n IH]; intros m rest Hn Hm; [lia|].
  destruct m as [|m]; [lia|]. simpl.
  destruct (split_once "{"%char rest) as [[b a]|] eqn:E1; [|done].
  destruct (split_once "}"%char a) as [[i r]|] eqn:E2; [|done].
  apply split_once_len in E1, E2. do 2 f_equal. apply IH; lia.
Qed.

Lemma render_loop_eq parameters t :
  render_loop parameters t =
  match split_once "{"%char t with
  | None => t
  | Some (before, after) =>
      match split_once "}"%char after with
      | Some (inside, rest') =>
          before +:+
          match map_get (trim inside) parameters with
          | Some v => render_value_text v
          | None => ""
          end +:+ render_loop parameters rest'
      | None => before +:+ String "{"%char after
      end
  end.
Proof.
  rw {1}/render_loop. cbn [render_fuel].
  destruct (split_once "{"%char t) as [[b a]|] eqn:E1; [|done].
  destruct (split_once "}"%char a) as [[i r]|] eqn:E2; [|done].
  apply split_once_len in E1, E2. do 2 f_equal. apply render_fuel_enough; lia.
Qed.

Lemma normalise_fuel_enough n m rest :
  (str_len rest < n)%nat → (str_len rest < m)%nat →
  normalise_fuel n rest = normalise_fuel m rest.
Proof.
  revert m rest; induction n as [|n IH]; intros m rest Hn Hm; [lia|].
  destruct m as [|m]; [lia|]. cbn [normalise_fuel].
  destruct (split_once_str "{{" rest) as [[b a]|] eqn:E1; [|done].
  destruct (split_once_str "}}" a) as [[i r]|] eqn:E2; [|done].
  apply split_once_str_len in E1, E2. simpl in *. do 4 f_equal. apply IH; lia.
Qed.

Lemma normalise_eq t :
  normalise t =
  match split_once_str "{{" t with
  | None => t
  | Some (before, after) =>
      match split_once_str "}}" after with
      | Some (inside, rest') => before +:+ "{" +:+ trim inside +:+ "}" +:+ normalise rest'
      | None => before +:+ "{{" +:+ after
      end
  end.
Proof.
  rw {1}/normalise. cbn [normalise_fuel].
  destruct (split_once_str "{{" t) as [[b a]|] eqn:E1; [|done].
  destruct (split_once_str "}}" a) as [[i r]|] eqn:E2; [|done].
  apply split_once_str_len in E1, E2. do 4 f_equal. apply normalise_fuel_enough; simpl in *; lia.
Qed.

(** ** Templates as segments *)

Inductive segment : Type :=
| Lit (s : string)
| Hole (name : string).

(** Text without an opening brace, names without braces and without white
    space around them. *)
Definition segment_ok (x : segment) : bool :=
  match x with
  | Lit s => negb (contains_char "{"%char s)
  | Hole n => negb (contains_char "{"%char n) && negb (contains_char "}"%char n) && (trim n =?s n)
  end.

Definition print1 (x : segment) : string :=
  match x with Lit s => s | Hole n => "{" +:+ n +:+ "}" end.
Definition print2 (x : segment) : string :=
  match x with Lit s => s | Hole n => "{{ " +:+ n +:+ " }}" end.
Definition concat_map (f : segment → string) (l : list segment) : string :=
  foldr (λ x acc, f x +:+ acc) "" l.

Definition fill (parameters : Map) (x : segment) : string :=
  match x with
  | Lit s => s
  | Hole n => match map_get n parameters with Some v => render_value_text v | None => "" end
  end.

Lemma split_once_absent c s : contains_char c s = false → split_once c s = None.
Proof.
  induction s as [|a s IH]; simpl; [done|]. intros [-> H]%orb_false_elim. by rw IH.
Qed.

Lemma split_once_app c s t :
  contains_char c s = false →
  split_once c (s +:+ t) = match split_once c t with
                           | Some (b, r) => Some (s +:+ b, r)
                           | None => None
                           end.
Proof.
  induction s as [|a s IH]; simpl; [by destruct (split_once c t) as [[]|]|].
  intros [-> H]%orb_false_elim. rw IH //. by destruct (split_once c t) as [[]|].
Qed.

Lemma render_loop_lit parameters s t :
  contains_char "{"%char s = false →
  render_loop parameters (s +:+ t) = s +:+ render_loop parameters t.
Proof.
  intros Hs. rw (render_loop_eq _ (s +:+ t)) (render_loop_eq _ t) split_once_app //.
  destruct (split_once "{"%char t) as [[b a]|]; [|done].
  destruct (split_once "}"%char a) as [[i r]|]; by rw app_assoc_s.
Qed.

Lemma render_loop_hole parameters n t :
  contains_char "}"%char n = false → trim n = n →
  render_loop parameters ("{" +:+ n +:+ "}" +:+ t) =
  fill parameters (Hole n) +:+ render_loop parameters t.
Proof. intros Hn Ht. rw render_loop_eq /= split_once_app //= app_nil_s Ht //. Qed.

Lemma render_loop_segments parameters l :
  forallb segment_ok l = true →
  render_loop parameters (concat_map print1 l) = concat_map (fill parameters) l.
Proof.
  induction l as [|[s|n] l IH]; [done| |]; cbn [forallb segment_ok concat_map foldr print1];
    intros [Hx Hl]%andb_true_iff.
  - apply negb_true_iff in Hx. rw -/(concat_map print1 l) render_loop_lit //. by rw IH.
  - apply andb_true_iff in Hx as [[_ Hx]%andb_true_iff Ht%str_eqb_eq]. apply negb_true_iff in Hx.
    rw -/(concat_map print1 l) !app_assoc_s render_loop_hole //. by rw IH.
Qed.

(** ** Double braces *)

Lemma trim_start_cases p s : trim_start_matches p s = s ∨
  (str_len (trim_start_matches p s) < str_len s)%nat.
Proof.
  induction s as [|a s IH]; simpl; [by left|]. destruct (p a); [right|by left].
  destruct IH as [->|?]; lia.
Qed.

Lemma trim_end_len p s : (str_len (trim_end_matches p s) ≤ str_len s)%nat.
Proof.
  induction s as [|a s IH]; simpl; [done|].
  destruct (trim_end_matches p s); simpl in *; [case_match|]; simpl; lia.
Qed.

Lemma trim_end_snoc p s c :
  p c = true → trim_end_matches p (s +:+ String c "") = trim_end_matches p s.
Proof. intros Hc. induction s as [|a s IH]; simpl; [by rw Hc|by rw IH]. Qed.

Lemma trim_fixed s : trim s = s →
  trim_start_matches is_white_space s = s ∧ trim_end_matches is_white_space s = s.
Proof.
  rw /trim. intros Ht. destruct (trim_start_cases is_white_space s) as [E|Hlt].
  - by rw E in Ht |- *.
  - pose proof (trim_end_len is_white_space (trim_start_matches is_white_space s)).
    rw Ht in H. lia.
Qed.

Lemma trim_spaces n : trim n = n → trim (" " +:+ n +:+ " ") = n.
Proof.
  intros [H1 H2]%trim_fixed. rw /trim /=. destruct n as [|a n]; [done|].
  cbn [String.append trim_start_matches] in H1 |- *.
  destruct (is_white_space a) eqn:E.
  - destruct (trim_start_cases is_white_space n) as [Hn|Hn]; rw H1 in Hn.
    + apply (f_equal str_len) in Hn. simpl in Hn. lia.
    + simpl in Hn. lia.
  - change (String a (n +:+ " ")) with (String a n +:+ " "). by rw trim_end_snoc.
Qed.

Lemma split_once_str_skip c p s t :
  contains_char c s = false →
  split_once_str (String c p) (s +:+ t) =
  match split_once_str (String c p) t with
  | Some (b, r) => Some (s +:+ b, r)
  | None => None
  end.
Proof.
  induction s as [|a s IH].
  { intros _. cbn [String.append]. by destruct (split_once_str (String c p) t) as [[]|]. }
  cbn [contains_char String.append]. intros [Ha Hs]%orb_false_elim.
  cbn [split_once_str strip_prefix]. rw Ascii.eqb_sym Ha IH //.
  by destruct (split_once_str (String c p) t) as [[]|].
Qed.

Lemma normalise_lit s t :
  contains_char "{"%char s = false → normalise (s +:+ t) = s +:+ normalise t.
Proof.
  intros Hs. rw (normalise_eq (s +:+ t)) (normalise_eq t) split_once_str_skip //.
  destruct (split_once_str "{{" t) as [[b a]|]; [|done].
  destruct (split_once_str "}}" a) as [[i r]|]; by rw app_assoc_s.
Qed.

Lemma normalise_hole n t :
  contains_char "}"%char n = false → trim n = n →
  normalise ("{{ " +:+ n +:+ " }}" +:+ t) = "{" +:+ n +:+ "}" +:+ normalise t.
Proof.
  intros Hn Ht. rw normalise_eq.
  assert (split_once_str "{{" ("{{ " +:+ n +:+ " }}" +:+ t)
          = Some ("", " " +:+ n +:+ " }}" +:+ t)) as -> by done.
  assert (split_once_str "}}" (" " +:+ n +:+ " }}" +:+ t) = Some (" " +:+ n +:+ " ", t)) as ->.
  { rw (split_once_str_skip "}"%char "}" " ") // split_once_str_skip //. }
  by rw trim_spaces.
Qed.

Lemma normalise_segments l :
  forallb segment_ok l = true → normalise (concat_map print2 l) = concat_map print1 l.
Proof.
  induction l as [|[s|n] l IH]; [done| |]; cbn [forallb segment_ok concat_map foldr print1 print2];
    intros [Hx Hl]%andb_true_iff.
  - apply negb_true_iff in Hx. rw -/(concat_map print2 l) normalise_lit //. by rw IH.
  - apply andb_true_iff in Hx as [[_ Hx]%andb_true_iff Ht%str_eqb_eq]. apply negb_true_iff in Hx.
    rw -/(concat_map print2 l) !app_assoc_s normalise_hole //. by rw IH.
Qed.

Lemma contains_app c s t : contains_char c (s +:+ t) = contains_char c s || contains_char c t.
Proof. induction s as [|a s IH]; simpl; [done|]. by rw IH orb_assoc. Qed.

Lemma print2_literal l :
  forallb segment_ok l = true → contains_char "{"%char (concat_map print2 l) = false →
  ∀ parameters, concat_map (fill parameters) l = concat_map print2 l.
Proof.
  intros Hok Hc parameters. induction l as [|[s|n] l IH]; [done| |];
    cbn [forallb segment_ok concat_map foldr fill print2] in *;
    apply andb_true_iff in Hok as [Hx Hl]; rw -/(concat_map print2 l) contains_app in Hc;
    apply orb_false_elim in Hc as [Hc1 Hc2]; [|done].
  by rw -/(concat_map print2 l) -/(concat_map (fill parameters) l) IH.
Qed.
End unique.

(** ** Theorems *)

(** Rendering a template fills its placeholders and nothing else: a
    template made of literal text and [{name}] placeholders (without white
    space at its ends, which [render_key] trims) renders to the text with each
    placeholder replaced by its parameter's text, empty when it is missing. *)
Theorem render_key_fills to_string parameters l :
  forallb segment_ok l = true →
  trim (concat_map print1 l) = concat_map print1 l → concat_map print1 l ≠ "" →
  render_key to_string (Some (concat_map print1 l)) parameters
  = concat_map (fill to_string parameters) l.
Proof.
  intros Hok Ht Hne. rw /render_key /= Ht.
  destruct (str_is_empty (concat_map print1 l)) eqn:E; [by destruct (concat_map print1 l)|].
  rw /=. by apply render_loop_segments.
Qed.

Lemma render_key_fills_witness :
  render_key (λ _, "") (Some "daily-{day}") [("day", VString "2024-05-01")] = "daily-2024-05-01".
Proof.
  exact (render_key_fills (λ _, "") [("day", VString "2024-05-01")] [Lit "daily-"; Hole "day"]
           eq_refl eq_refl (ltac:(done))).
Defined.

(** Double-brace templates, as resource names use them, render the same
    way: [{{ name }}] is replaced by the parameter, and text without a brace is
    returned as it is. *)
Theorem render_template_fills to_string parameters l :
  forallb segment_ok l = true →
  trim (concat_map print1 l) = concat_map print1 l → concat_map print1 l ≠ "" →
  render_template to_string (concat_map print2 l) parameters
  = concat_map (fill to_string parameters) l.
Proof.
  intros Hok Ht Hne. rw /render_template.
  destruct (contains_char "{"%char (concat_map print2 l)) eqn:E; simpl.
  - rw normalise_segments // /render_key /= Ht.
    destruct (str_is_empty (concat_map print1 l)) eqn:E'; [by destruct (concat_map print1 l)|].
    rw /=. by apply render_loop_segments.
  - by rw print2_literal.
Qed.

Lemma render_template_fills_witness :
  render_template (λ _, "") "db-{{ shard }}" [("shard", VString "7")] = "db-7".
Proof.
  exact (render_template_fills (λ _, "") [("shard", VString "7")] [Lit "db-"; Hole "shard"]
           eq_refl eq_refl (ltac:(done))).
Defined.

Lemma app_inj_l (a b c : string) : a +:+ b = a +:+ c → b = c.
Proof. induction a as [|x a IH]; simpl; [done|]. intros [= ?]. auto. Qed.

(** The period buckets of a unique key are fixed windows: for a period of
    at least a microsecond, two times give the same key exactly when they are
    in the same window of that period since the epoch. *)
Theorem unique_key_buckets flow_id rendered p w t1 t2 :
  f64_lt f64_zero p = true → micros_of_secs p = w → 0 < w →
  0 ≤ t1 ≤ i64_MAX → 0 ≤ t2 ≤ i64_MAX →
  is_Some (unique_key flow_id rendered (Some p) t1) ∧
  (unique_key flow_id rendered (Some p) t1 = unique_key flow_id rendered (Some p) t2
   ↔ t1 / w = t2 / w).
Proof.
  intros Hp Hw Hpos H1 H2. rw /unique_key /= Hp /= Hw.
  destruct (Z.eqb_spec w 0); [lia|].
  rw !Z.quot_div_nonneg; [|lia..].
  assert (Hb : ∀ t, 0 ≤ t ≤ i64_MAX → in_i64 (t / w)).
  { intros t Ht. rw /in_i64 /i64_MIN. pose proof (Z.div_pos t w).
    pose proof (Z.div_le_upper_bound t w t). nia. }
  rw !wrap_i64_id; [|by apply Hb..]. split; [done|]. split; [|by intros ->].
  intros [= E]. do 4 (apply app_inj_l in E || (apply (app_inj_l "|") in E)). by apply dec_inj.
Qed.

Lemma unique_key_buckets_witness :
  is_Some (unique_key 1 "k" (Some (f64_of_Z 3600)) 7200000001) ∧
  (unique_key 1 "k" (Some (f64_of_Z 3600)) 7200000001
   = unique_key 1 "k" (Some (f64_of_Z 3600)) 7100000000
   ↔ 7200000001 / 3600000000 = 7100000000 / 3600000000).
Proof.
  apply (unique_key_buckets 1 "k" (f64_of_Z 3600) 3600000000);
    [vm_compute; reflexivity|vm_compute; reflexivity|lia|vm_compute; split; discriminate..].
Defined.

(** The two key spaces overlap and the period guard is not enough: a
    unique key rendered as [idem:k] is the idempotency key [k] of the same
    flow, and a positive period below a microsecond (here a tenth of one)
    divides by zero. *)
Theorem unique_key_pitfalls :
  (∀ flow_id k now, trim k = k →
     unique_key flow_id ("idem:" +:+ k) None now = Some (idempotency_key flow_id k)) ∧
  (∀ flow_id rendered now, unique_key flow_id rendered (Some (f64_ratio 1 10000000)) now = None).
Proof.
  split.
  - intros flow_id k now Hk. by rw /unique_key /idempotency_key /= Hk.
  - intros flow_id rendered now. rw /unique_key.
    assert (f64_lt f64_zero (f64_ratio 1 10000000) = true) as Hp by (vm_compute; reflexivity).
    assert (micros_of_secs (f64_ratio 1 10000000) = 0) as Hw by (vm_compute; reflexivity).
    cbn [opt_filter]. by rw Hp Hw.
Qed.
