(* ===== verification/RuleMatching.v ===== *)
(** * Rule matching, guards and the rule index (rules/src/lib.rs)

    [matches] decides whether a rule's clause accepts an event, [check_guards]
    and [GuardState_record] throttle it, and [RuleIndex] narrows the rules an
    event visits. *)

From S2P Require Import Prelude Float64 Json States Model.
From Stdlib Require Import Ascii.

(** Does [pattern] (a name or a [prefix*]) match [name]? *)
Definition name_matches (pattern name : string) : bool :=
  match strip_suffix_char "*"%char pattern with
  | Some prefix => starts_with name prefix
  | None => pattern =?s name
  end.

Record RunContext : Type := mkRunContext {
  rc_run : option Run;
  rc_flow : option Flow;
  rc_chain_root : option Z;
  rc_result : option Value;
}.

(** The run [once = per_run] keys on. *)
Definition guard_run (ctx : RunContext) : option Z :=
  (λ r, default (run_id r) (rc_chain_root ctx)) <$> rc_run ctx.

Definition payload_str (event : Event) (key : string) : option string :=
  get_str key (ev_payload event).

(** ** The match clause *)

Definition events_clause (m : RuleMatch) (event : Event) : bool :=
  bool_decide (rm_events m = []) || existsb (λ p, name_matches p (ev_name event)) (rm_events m).

Definition event_flow_name (event : Event) (ctx : RunContext) : option string :=
  or_else (flow_name <$> rc_flow ctx)
    (or_else (run_flow_name <$> rc_run ctx)
       (res_name <$> List.find (λ r, res_kind r =?s "flow") (ev_related event))).

Definition flows_clause (m : RuleMatch) (event : Event) (ctx : RunContext) : bool :=
  bool_decide (rm_flows m = []) ||
  match event_flow_name event ctx with
  | Some name => existsb (λ f, f =?s name) (rm_flows m)
  | None => false
  end.

Definition event_project (event : Event) (ctx : RunContext) : option string :=
  or_else (flow_project <$> rc_flow ctx)
    (or_else (run_project <$> rc_run ctx) (payload_str event "project")).

Definition project_clause (m : RuleMatch) (event : Event) (ctx : RunContext) : bool :=
  match rm_project m with
  | None => true
  | Some project => bool_decide (event_project event ctx = Some project)
  end.

Definition event_tags (event : Event) (ctx : RunContext) : list string :=
  match rc_run ctx with
  | Some r => run_tags r
  | None => res_name <$> List.filter (λ r, res_kind r =?s "tag") (ev_related event)
  end.

Definition tags_clause (m : RuleMatch) (event : Event) (ctx : RunContext) : bool :=
  bool_decide (rm_tags m = []) ||
  existsb (λ t, bool_decide (t ∈ event_tags event ctx)) (rm_tags m).

(** The state's name and type: the run's, or the payload's with the type
    recovered from the name when it is missing. *)
Definition event_state (event : Event) (ctx : RunContext) : option string * option string :=
  let '(name, type_name) :=
    match rc_run ctx with
    | Some r => (Some (state_name (run_state r)), Some (StateType_as_str (state_type (run_state r))))
    | None => (payload_str event "state", payload_str event "state_type")
    end in
  let type_name :=
    match type_name with
    | Some t => Some t
    | None =>
        and_then name (λ n,
          StateType_as_str <$>
          or_else (StateName_state_type <$> StateName_parse n) (StateType_parse n))
    end in
  (name, type_name).

Definition states_clause (m : RuleMatch) (event : Event) (ctx : RunContext) : bool :=
  bool_decide (rm_states m = []) ||
  let '(name, type_name) := event_state event ctx in
  existsb (λ s, existsb (λ x, eq_ignore_ascii_case x s) (rm_states m))
    (option_list name ++ option_list type_name).

Definition matches (m : RuleMatch) (event : Event) (ctx : RunContext) : bool :=
  events_clause m event && flows_clause m event ctx && project_clause m event ctx
  && tags_clause m event ctx && states_clause m event ctx.

(** ** Guards *)

Record GuardState : Type := mkGuardState {
  last_fired : option Z;
  recent : list Z;
  fired_runs : list Z;
}.
Definition GuardState_default : GuardState := mkGuardState None [] [].

Inductive GuardDecision : Type :=
| Fire
| GSkip (reason : string).

#[global] Instance GuardDecision_eq_dec : EqDecision GuardDecision.
Proof. solve_decision. Defined.

Definition minute : Z := 60000000.

Definition self_trigger (rule : RuleRow) (run : Run) : bool :=
  negb (rs_allow_self (rr_spec rule)) && (run_created_by run =?s "rule:" +:+ dec (rr_id rule)).

Definition in_cooldown (spec : RuleSpec) (st : GuardState) (now : Z) : bool :=
  f64_lt f64_zero (rs_cooldown_seconds spec) &&
  match last_fired st with
  | Some last =>
      f64_lt (f64_div (f64_of_Z (i64_sub now last)) f64_million) (rs_cooldown_seconds spec)
  | None => false
  end.

(** [recent.iter().filter(|t| **t > now - 60_000_000).count()] *)
Definition recent_count (st : GuardState) (now : Z) : Z :=
  Z.of_nat (length (List.filter (λ t, i64_sub now minute <? t) (recent st))).

Definition check_guards (rule : RuleRow) (event : Event) (ctx : RunContext) (st : GuardState)
    (now : Z) : GuardDecision :=
  let spec := rr_spec rule in
  if negb (rr_enabled rule) then GSkip "disabled"
  else
    match
      match rc_run ctx with
      | Some run =>
          if self_trigger rule run then Some "self-trigger"
          else if (rs_once spec =?s "per_run")
                  && bool_decide (default (run_id run) (rc_chain_root ctx) ∈ fired_runs st)
          then Some "once per run"
          else None
      | None => None
      end
    with
    | Some reason => GSkip reason
    | None =>
        if in_cooldown spec st now then GSkip "cooldown"
        else if (0 <? rs_max_per_minute spec) && (rs_max_per_minute spec <=? recent_count st now)
        then GSkip "rate cap"
        else if (0 <? rs_after_consecutive spec)
                && (default 0 (get_i64 "failures_in_a_row" (ev_payload event))
                    <? rs_after_consecutive spec)
        then GSkip "consecutive"
        else Fire
    end.

Definition FIRED_RUNS_MAX : Z := 10000.
Definition FIRED_RUNS_DROP : Z := 5000.

Definition GuardState_record (run : option Z) (now : Z) (st : GuardState) : GuardState :=
  {| last_fired := Some now;
     recent := List.filter (λ t, i64_sub now minute <? t) (recent st ++ [now]);
     fired_runs :=
       match run with
       | None => fired_runs st
       | Some r =>
           if bool_decide (r ∈ fired_runs st) then fired_runs st
           else
             let fr := fired_runs st ++ [r] in
             if FIRED_RUNS_MAX <? Z.of_nat (length fr) then drop (Z.to_nat FIRED_RUNS_DROP) fr else fr
       end |}.

(** ** The index *)

Record RuleIndex : Type := mkRuleIndex {
  by_prefix : gmap string (list Z);
  all : list Z;
}.
Definition RuleIndex_default : RuleIndex := mkRuleIndex ∅ [].

Definition is_star (c : ascii) : bool := Ascii.eqb c "*"%char.

(** The first segment of a pattern, without its trailing stars. *)
Definition index_key (p : string) : string :=
  trim_end_matches is_star (first_segment "."%char p).

Definition index_pattern (id : Z) (idx : RuleIndex) (p : string) : RuleIndex :=
  let key := index_key p in
  if str_is_empty key then mkRuleIndex (by_prefix idx) (all idx ++ [id])
  else mkRuleIndex (<[key := default [] (by_prefix idx !! key) ++ [id]]> (by_prefix idx)) (all idx).

Definition index_when (r : RuleRow) (idx : RuleIndex) : RuleIndex :=
  match rm_events (rs_when (rr_spec r)) with
  | [] => mkRuleIndex (by_prefix idx) (all idx ++ [rr_id r])
  | ps => fold_left (index_pattern (rr_id r)) ps idx
  end.

Definition index_rule (idx : RuleIndex) (r : RuleRow) : RuleIndex :=
  match rs_unless (rr_spec r) with
  | Some unless =>
      let idx := fold_left (index_pattern (rr_id r)) (rm_events unless) idx in
      if is_some (rs_at (rr_spec r)) then idx else index_when r idx
  | None => index_when r idx
  end.

Definition RuleIndex_build (rules : list RuleRow) : RuleIndex :=
  fold_left index_rule rules RuleIndex_default.

(** [Vec::dedup]: consecutive repetitions. *)
Fixpoint dedup (l : list Z) : list Z :=
  match l with
  | [] => []
  | x :: l' =>
      match dedup l' with
      | y :: l'' => if x =? y then y :: l'' else x :: y :: l''
      | [] => [x]
      end
  end.

Definition candidates (idx : RuleIndex) (event_name : string) : list Z :=
  let key := first_segment "."%char event_name in
  dedup (stable_sort Z.le (all idx ++ default [] (by_prefix idx !! key))).

(** ** The index finds the rules whose patterns match *)

(** The ids indexed under [key], or under every key. *)
Definition indexed (idx : RuleIndex) (key : string) (id : Z) : Prop :=
  id ∈ all idx ∨ id ∈ default [] (by_prefix idx !! key).

Lemma index_pattern_mono id p idx key id' :
  indexed idx key id' → indexed (index_pattern id idx p) key id'.
Proof.
  rw /indexed /index_pattern. destruct (str_is_empty (index_key p)); simpl; [set_solver|].
  intros [?|Hin]; [by left|right]. rw lookup_insert. case_decide as Hk; [|done].
  simpl. rw Hk. set_solver.
Qed.

Lemma index_pattern_own id p idx :
  indexed (index_pattern id idx p) (index_key p) id ∧
  (index_key p = "" → ∀ key, indexed (index_pattern id idx p) key id).
Proof.
  rw /indexed /index_pattern. destruct (index_key p) as [|c k] eqn:E; simpl; [set_solver|].
  split; [|done]. right. rw lookup_insert_eq. set_solver.
Qed.

Lemma index_patterns_mono id ps idx key id' :
  indexed idx key id' → indexed (fold_left (index_pattern id) ps idx) key id'.
Proof. revert idx; induction ps; simpl; auto using index_pattern_mono. Qed.

Lemma index_patterns_own id ps idx p :
  p ∈ ps →
  indexed (fold_left (index_pattern id) ps idx) (index_key p) id ∧
  (index_key p = "" → ∀ key, indexed (fold_left (index_pattern id) ps idx) key id).
Proof.
  intros Hp. revert idx; induction Hp as [p ps|p q ps Hp IH]; intros idx; simpl; [|apply IH].
  destruct (index_pattern_own id p idx) as [H1 H2].
  split; [by apply index_patterns_mono|]. intros Hk key. by apply index_patterns_mono, H2.
Qed.

Lemma index_when_mono r idx key id' : indexed idx key id' → indexed (index_when r idx) key id'.
Proof.
  rw /index_when. case_match; [rw /indexed /=; set_solver|apply index_patterns_mono].
Qed.

Lemma index_rule_mono r idx key id' : indexed idx key id' → indexed (index_rule idx r) key id'.
Proof.
  rw /index_rule. intros Hi. case_match; [|by apply index_when_mono].
  case_match; [|apply index_when_mono]; by apply index_patterns_mono.
Qed.

(** The patterns under which a rule is indexed. *)
Definition indexed_patterns (r : RuleRow) : list string :=
  match rs_unless (rr_spec r) with
  | Some unless =>
      rm_events unless ++
      (if is_some (rs_at (rr_spec r)) then [] else rm_events (rs_when (rr_spec r)))
  | None => rm_events (rs_when (rr_spec r))
  end.

(** A rule armed by any event: no clock and no event names in its [when]. *)
Definition armed_by_all (r : RuleRow) : bool :=
  negb (is_clock_armed (rr_spec r)) && bool_decide (rm_events (rs_when (rr_spec r)) = []).

Lemma index_when_own r idx p :
  p ∈ rm_events (rs_when (rr_spec r)) →
  indexed (index_when r idx) (index_key p) (rr_id r) ∧
  (index_key p = "" → ∀ key, indexed (index_when r idx) key (rr_id r)).
Proof. rw /index_when. case_match; [set_solver|apply index_patterns_own]. Qed.

Lemma index_rule_own r idx p :
  p ∈ indexed_patterns r →
  indexed (index_rule idx r) (index_key p) (rr_id r) ∧
  (index_key p = "" → ∀ key, indexed (index_rule idx r) key (rr_id r)).
Proof.
  rw /indexed_patterns /index_rule. destruct (rs_unless (rr_spec r)) as [u|]; [|apply index_when_own].
  intros [Hp|Hp]%elem_of_app.
  - destruct (index_patterns_own (rr_id r) _ idx p Hp) as [H1 H2].
    case_match; [done|]. split; [by apply index_when_mono|].
    intros Hk key. by apply index_when_mono, H2.
  - case_match; [set_solver|]. by apply index_when_own.
Qed.

Lemma index_rule_all r idx key : armed_by_all r = true → indexed (index_rule idx r) key (rr_id r).
Proof.
  rw /armed_by_all /is_clock_armed /index_rule.
  intros [Hc He%bool_decide_eq_true]%andb_true_iff.
  assert (Hw : ∀ idx', indexed (index_when r idx') key (rr_id r)).
  { intros idx'. rw /index_when He /indexed /=. set_solver. }
  destruct (rs_unless (rr_spec r)) as [u|]; [|done]. simpl in Hc. case_match; [done|apply Hw].
Qed.

Lemma build_mono rules idx key id' :
  indexed idx key id' → indexed (fold_left index_rule rules idx) key id'.
Proof. revert idx; induction rules; simpl; auto using index_rule_mono. Qed.

Lemma build_own rules idx r p :
  r ∈ rules → p ∈ indexed_patterns r →
  indexed (fold_left index_rule rules idx) (index_key p) (rr_id r) ∧
  (index_key p = "" → ∀ key, indexed (fold_left index_rule rules idx) key (rr_id r)).
Proof.
  intros Hr Hp. revert idx; induction Hr as [r rules|r q rules Hr IH]; intros idx; simpl; [|by apply IH].
  destruct (index_rule_own r idx p Hp) as [H1 H2].
  split; [by apply build_mono|]. intros Hk key. by apply build_mono, H2.
Qed.

Lemma build_all rules idx r key :
  r ∈ rules → armed_by_all r = true →
  indexed (fold_left index_rule rules idx) key (rr_id r).
Proof.
  intros Hr Ha. revert idx; induction Hr as [r rules|r q rules Hr IH]; intros idx; simpl; [|by apply IH].
  by apply build_mono, index_rule_all.
Qed.

Lemma elem_of_dedup x l : x ∈ dedup l ↔ x ∈ l.
Proof.
  induction l as [|y l IH]; simpl; [done|].
  destruct (dedup l) as [|z l']; [set_solver|].
  destruct (Z.eqb_spec y z) as [->|]; set_solver.
Qed.

Lemma dedup_sorted l : StronglySorted Z.le l → StronglySorted Z.lt (dedup l).
Proof.
  induction 1 as [|x l Hs IH Hx]; simpl; [constructor|].
  assert (Hx' : Forall (Z.le x) (dedup l)).
  { rw !Forall_forall in Hx |- *. intros y Hy. apply Hx. by rw elem_of_dedup in Hy. }
  destruct (dedup l) as [|y l'] eqn:E; [by repeat constructor|].
  destruct (Z.eqb_spec x y); [done|]. constructor; [done|].
  apply Forall_cons in Hx' as [Hxy _]. apply StronglySorted_inv in IH as [_ Hy].
  constructor; [lia|]. eapply Forall_impl; [exact Hy|]. simpl. lia.
Qed.

Lemma elem_of_candidates idx name id :
  id ∈ candidates idx name ↔ indexed idx (first_segment "."%char name) id.
Proof. rw /candidates elem_of_dedup stable_sort_perm elem_of_app //. Qed.

Lemma candidates_sorted idx name : StronglySorted Z.lt (candidates idx name).
Proof. apply dedup_sorted, (stable_sort_sorted Z.le). Qed.

(** ** Segments and patterns *)

(** A pattern the index places where the events it matches look: a name whose
    first segment does not end in a star, a wildcard after a dot, or nothing
    but stars before the first dot. *)
Definition indexable (p : string) : bool :=
  let seg := first_segment "."%char p in
  str_is_empty (index_key p)
  || ((index_key p =?s seg) && (contains_char "."%char p || negb (ends_with_char p "*"%char))).

Lemma first_segment_app s t :
  contains_char "."%char s = true →
  first_segment "."%char (s +:+ t) = first_segment "."%char s.
Proof.
  induction s as [|a s IH]; simpl; [done|]. destruct (Ascii.eqb a "."%char); simpl; [done|].
  intros H. by rw IH.
Qed.

Lemma contains_snoc c s a :
  contains_char c (s +:+ String a "") = contains_char c s || Ascii.eqb a c.
Proof.
  induction s as [|b s IH]; simpl; [by rw orb_false_r|]. by rw IH orb_assoc.
Qed.

Lemma indexable_key p name :
  indexable p = true → name_matches p name = true →
  index_key p = "" ∨ index_key p = first_segment "."%char name.
Proof.
  rw /indexable /name_matches. intros [Hk|Hk]%orb_true_iff Hm.
  { left. by destruct (index_key p). }
  right. apply andb_true_iff in Hk as [Hk%str_eqb_eq Hd]. rw Hk.
  destruct (strip_suffix_char "*"%char p) as [pre|] eqn:E.
  - apply starts_with_spec in Hm as [r ->]. apply strip_suffix_char_Some in E as ->.
    assert (Hpre : contains_char "."%char pre = true).
    { apply orb_true_iff in Hd as [Hd|Hd].
      - by rw contains_snoc orb_false_r in Hd.
      - exfalso. apply negb_true_iff in Hd. rw /ends_with_char in Hd.
        assert (strip_suffix_char "*"%char (pre +:+ "*") = Some pre) as Hs by by apply strip_suffix_char_Some.
        by rw Hs in Hd. }
    rw !first_segment_app //.
  - by apply str_eqb_eq in Hm as ->.
Qed.

(** ** Sequences of guarded events *)

Definition occasion : Type := Event * RunContext * Z.

(** One event the rule matches, as the server handles it: the guards are
    checked at [now], and a firing is recorded under the guard run. *)
Definition guard_step (rule : RuleRow) (st : GuardState) (o : occasion)
    : GuardState * list (Z * option Z) :=
  let '(event, ctx, now) := o in
  match check_guards rule event ctx st now with
  | Fire => (GuardState_record (guard_run ctx) now st, [(now, guard_run ctx)])
  | GSkip _ => (st, [])
  end.

(** The firings of a rule over a sequence of events. *)
Fixpoint firings (rule : RuleRow) (st : GuardState) (os : list occasion) : list (Z * option Z) :=
  match os with
  | [] => []
  | o :: os' => let '(st', fs) := guard_step rule st o in fs ++ firings rule st' os'
  end.

Definition time_of (o : occasion) : Z := o.2.
Definition in_window (t x : Z) : bool := (t - minute <? x) && (x <=? t).
Definition window_count (t : Z) (fired : list (Z * option Z)) : Z :=
  Z.of_nat (length (List.filter (in_window t) fired.*1)).

Lemma check_guards_Fire rule event ctx st now :
  check_guards rule event ctx st now = Fire →
  (0 < rs_max_per_minute (rr_spec rule) → recent_count st now < rs_max_per_minute (rr_spec rule)) ∧
  (rs_once (rr_spec rule) = "per_run" → ∀ r, guard_run ctx = Some r → r ∉ fired_runs st).
Proof.
  rw /check_guards. destruct (rr_enabled rule); [|done]. simpl.
  case_match eqn:E1; [done|]. destruct (in_cooldown _ _ _); [done|].
  destruct ((0 <? rs_max_per_minute (rr_spec rule)) && _) eqn:E2; [done|]. intros _. split; [lia|].
  clear E2.
  intros Ho r. rw /guard_run Ho str_eqb_refl in E1 |- *.
  destruct (rc_run ctx) as [run|]; [|done]. simpl. intros [= <-].
  destruct (self_trigger rule run); [done|].
  by destruct (bool_decide_reflect (default (run_id run) (rc_chain_root ctx) ∈ fired_runs st)).
Qed.

Lemma List_filter_filter {A} (p q : A → bool) l :
  (∀ x, p x = true → q x = true) → List.filter p (List.filter q l) = List.filter p l.
Proof.
  intros Hpq. induction l as [|x l IH]; simpl; [done|].
  destruct (q x) eqn:Eq; simpl; rw IH; [done|].
  destruct (p x) eqn:Ep; [|done]. by rw (Hpq x Ep) in Eq.
Qed.

Lemma List_filter_length_le {A} (p q : A → bool) l :
  (∀ x, x ∈ l → p x = true → q x = true) →
  (length (List.filter p l) ≤ length (List.filter q l))%nat.
Proof.
  induction l as [|x l IH]; intros Hpq; simpl; [done|].
  assert (length (List.filter p l) ≤ length (List.filter q l))%nat by (apply IH; set_solver).
  destruct (p x) eqn:Ep; [rw (Hpq x) //=; [lia|set_solver]|].
  destruct (q x); simpl; lia.
Qed.

(** What the guard state remembers of the firings so far, none after [hi]. *)
Record guard_inv (rule : RuleRow) (hi : Z) (fired : list (Z * option Z)) (st : GuardState) : Prop := {
  gi_hi : ∀ x, x ∈ fired.*1 → x ≤ hi;
  gi_recent : ∀ now, hi ≤ now →
    List.filter (λ t, now - minute <? t) (recent st)
    = List.filter (λ t, now - minute <? t) fired.*1;
  gi_window : 0 < rs_max_per_minute (rr_spec rule) →
    ∀ t, window_count t fired ≤ rs_max_per_minute (rr_spec rule);
}.

Lemma guard_inv_init rule : guard_inv rule 0 [] GuardState_default.
Proof. split; [set_solver|done|]. intros ? t. rw /window_count /=. lia. Qed.

Lemma i64_sub_minute now : 0 ≤ now ≤ i64_MAX → i64_sub now minute = now - minute.
Proof. intros H. rw /i64_sub wrap_i64_id // /in_i64 /i64_MIN /minute. rw /i64_MAX in H |- *. lia. Qed.

Lemma guard_inv_record rule hi fired st now run :
  guard_inv rule hi fired st → hi ≤ now → 0 ≤ now ≤ i64_MAX →
  (0 < rs_max_per_minute (rr_spec rule) → recent_count st now < rs_max_per_minute (rr_spec rule)) →
  guard_inv rule now (fired ++ [(now, run)]) (GuardState_record run now st).
Proof.
  intros [Hhi Hrec Hwin] Hle Hr Hcap. split.
  - intros x. rw fmap_app elem_of_app list_elem_of_singleton.
    intros [?%Hhi| ->]; [lia|done].
  - intros now' Hn'. rw /= i64_sub_minute // List_filter_filter; [|intros; lia].
    rw fmap_app !List.filter_app Hrec //. lia.
  - intros Hm t. specialize (Hwin Hm t). specialize (Hcap Hm).
    rw /recent_count i64_sub_minute // Hrec // in Hcap.
    rw /window_count fmap_app List.filter_app length_app in Hwin |- *. cbn [fmap list_fmap List.filter].
    destruct (in_window t (now, run).1) eqn:E; cbn [length fst] in E |- *; [|lia].
    rw /in_window in E.
    assert (length (List.filter (in_window t) fired.*1)
            ≤ length (List.filter (λ t, (now - minute <? t)%Z) fired.*1))%nat.
    { apply List_filter_length_le. intros x Hx. rw /in_window. lia. }
    lia.
Qed.

Lemma guard_inv_mono rule hi hi' fired st :
  guard_inv rule hi fired st → hi ≤ hi' → guard_inv rule hi' fired st.
Proof.
  intros [Hhi Hrec Hwin] Hle. split; [|intros; apply Hrec; lia|done].
  intros x Hx. specialize (Hhi x Hx). lia.
Qed.

Lemma firings_window rule hi fired st os :
  guard_inv rule hi fired st → 0 < rs_max_per_minute (rr_spec rule) →
  StronglySorted Z.le (hi :: (time_of <$> os)) → Forall (λ o, 0 ≤ time_of o ≤ i64_MAX) os →
  ∀ t, window_count t (fired ++ firings rule st os) ≤ rs_max_per_minute (rr_spec rule).
Proof.
  revert hi fired st; induction os as [|[[event ctx] now] os IH]; intros hi fired st Hi Hm Hs Hb t; simpl.
  { rw app_nil_r. by apply Hi. }
  apply Forall_cons in Hb as [Hnow Hb]. rw /time_of /= in Hnow.
  apply StronglySorted_inv in Hs as [Hs Hhi]. apply Forall_cons in Hhi as [Hle _]. rw /time_of /= in Hle.
  destruct (check_guards rule event ctx st now) eqn:E; rw ?app_assoc.
  - apply check_guards_Fire in E as [Hcap _]. apply (IH now); [|done..].
    by eapply guard_inv_record.
  - rw app_nil_r. apply (IH now); [|done..]. by eapply guard_inv_mono.
Qed.

Lemma length_omap_le {A B} (f : A → option B) l : (length (omap f l) ≤ length l)%nat.
Proof. induction l as [|x l IH]; csimpl; [done|]. case_match; csimpl; lia. Qed.

(** The runs recorded are those of the firings, while they fit. *)
Lemma firings_once rule st os fired :
  rs_once (rr_spec rule) = "per_run" →
  fired_runs st = omap snd fired → NoDup (omap snd fired) →
  Z.of_nat (length (fired ++ firings rule st os)) ≤ FIRED_RUNS_MAX →
  NoDup (omap snd (fired ++ firings rule st os)).
Proof.
  intros Ho. revert st fired; induction os as [|[[event ctx] now] os IH]; intros st fired Hst Hnd Hlen; simpl in *.
  { by rw app_nil_r. }
  destruct (check_guards rule event ctx st now) eqn:E; [|by apply IH].
  apply check_guards_Fire in E as [_ Hnew]. specialize (Hnew Ho).
  rw app_assoc in Hlen |- *. apply IH; [| |done].
  - rw /= omap_app /=. destruct (guard_run ctx) as [r|]; simpl; [|by rw app_nil_r].
    rw bool_decide_eq_false_2; [|by apply Hnew]. rw Hst.
    destruct (Z.ltb_spec FIRED_RUNS_MAX (Z.of_nat (length (omap snd fired ++ [r])))) as [Hlt|]; [|done].
    pose proof (length_omap_le snd fired). rw !length_app in Hlen Hlt. simpl in *. lia.
  - rw omap_app /=. destruct (guard_run ctx) as [r|]; simpl; [|by rw app_nil_r].
    rw NoDup_app. split_and!; [done| |apply NoDup_singleton].
    intros x Hx ->%list_elem_of_singleton. rw -Hst in Hx. by apply (Hnew r).
Qed.

(** ** Theorems *)

(** The index loses no rule whose patterns it can place: every rule armed
    by any event is a candidate for every event, every rule one of whose
    indexed patterns is [indexable] and matches the event's name is a
    candidate for it, and the candidates come sorted without repetition, as
    the binary search over them needs. *)
Theorem index_complete rules r name :
  r ∈ rules →
  StronglySorted Z.lt (candidates (RuleIndex_build rules) name) ∧
  (armed_by_all r = true → rr_id r ∈ candidates (RuleIndex_build rules) name) ∧
  (∀ p, p ∈ indexed_patterns r → indexable p = true → name_matches p name = true →
        rr_id r ∈ candidates (RuleIndex_build rules) name).
Proof.
  intros Hr. split_and!; [apply candidates_sorted| |].
  - intros Ha. apply elem_of_candidates. by apply build_all.
  - intros p Hp Hi Hm. apply elem_of_candidates.
    destruct (build_own rules RuleIndex_default r p Hr Hp) as [H1 H2].
    destruct (indexable_key p name Hi Hm) as [Hk|<-]; [by apply H2|done].
Qed.

Definition rule_on (id : Z) (events : list string) : RuleRow :=
  let spec := RuleSpec_default in
  mkRuleRow id "" "" true "ui" None
    (mkRuleSpec (mkRuleMatch events [] [] [] None) [] (rs_once spec) (rs_cooldown_seconds spec)
       (rs_max_per_minute spec) (rs_allow_self spec) (rs_after_consecutive spec) (rs_condition spec)
       (rs_max_per_chain spec) (rs_on_limit spec) (rs_unless spec) (rs_within spec) (rs_at spec))
    0 None 0 0.

Lemma index_complete_witness :
  7 ∈ candidates (RuleIndex_build [rule_on 3 ["flow.*"]; rule_on 7 ["run.*"]]) "run.failed".
Proof.
  destruct (index_complete [rule_on 3 ["flow.*"]; rule_on 7 ["run.*"]] (rule_on 7 ["run.*"])
              "run.failed" ltac:(set_solver)) as (_ & _ & H).
  apply (H "run.*"); [set_solver|reflexivity..].
Defined.

(** The index misses wildcards inside the first segment: [ru*] matches
    [run.failed], but the rule is filed under [ru] and is no candidate for the
    event. *)
Theorem index_misses_short_wildcards :
  name_matches "ru*" "run.failed" = true ∧
  candidates (RuleIndex_build [rule_on 7 ["ru*"]]) "run.failed" = [] ∧
  candidates (RuleIndex_build [rule_on 7 ["task*"]]) "task_run.failed" = [].
Proof. vm_compute. split_and!; reflexivity. Qed.

(** C34: the rate cap holds over every minute, not only calendar ones: however
    events arrive in time order, a rule with a cap fires at most
    [max_per_minute] times in any window of sixty seconds. *)
Theorem rate_cap_any_window rule os :
  0 < rs_max_per_minute (rr_spec rule) →
  StronglySorted Z.le (0 :: (time_of <$> os)) → Forall (λ o, 0 ≤ time_of o ≤ i64_MAX) os →
  ∀ t, window_count t (firings rule GuardState_default os) ≤ rs_max_per_minute (rr_spec rule).
Proof.
  intros Hm Hs Hb. by apply (firings_window rule 0 [] GuardState_default os (guard_inv_init rule)).
Qed.

Definition sample_event : Event :=
  mkEvent 1 1 "" "run.failed" 0 (mkResource "run" "1" "") [] None None [].
Definition sample_ctx : RunContext := mkRunContext None None None None.

Lemma rate_cap_any_window_witness :
  window_count 61000000
    (firings (rule_on 7 ["run.*"]) GuardState_default
       [(sample_event, sample_ctx, 1000000); (sample_event, sample_ctx, 61000000)]) ≤ 60.
Proof.
  apply (rate_cap_any_window (rule_on 7 ["run.*"])
           [(sample_event, sample_ctx, 1000000); (sample_event, sample_ctx, 61000000)]).
  - reflexivity.
  - rw /time_of /=. repeat constructor; lia.
  - rw /time_of /i64_MAX. repeat constructor; simpl; lia.
Defined.

(** A [per_run] rule fires at most once per guard run (a crash chain counts
    as one run) over its first 10,000 firings, the length of its memory. *)
Theorem once_per_run rule os :
  rs_once (rr_spec rule) = "per_run" →
  Z.of_nat (length (firings rule GuardState_default os)) ≤ FIRED_RUNS_MAX →
  NoDup (omap snd (firings rule GuardState_default os)).
Proof. intros Ho Hl. by apply (firings_once rule GuardState_default os []); [|done|constructor|]. Qed.

Definition run_ctx (id : Z) : RunContext :=
  mkRunContext (Some (example_run id (State_new 0 Failed))) None None None.

Lemma once_per_run_witness :
  firings (rule_on 7 ["run.*"]) GuardState_default
    [(sample_event, run_ctx 1, 5); (sample_event, run_ctx 1, 6); (sample_event, run_ctx 2, 7)]
    = [(5, Some 1); (7, Some 2)] ∧
  NoDup (omap snd (firings (rule_on 7 ["run.*"]) GuardState_default
    [(sample_event, run_ctx 1, 5); (sample_event, run_ctx 1, 6); (sample_event, run_ctx 2, 7)])).
Proof.
  split; [vm_compute; reflexivity|].
  apply (once_per_run (rule_on 7 ["run.*"])); [reflexivity|vm_compute; discriminate].
Defined.
