(* ===== verification/RuleTemplates.v ===== *)
(** * Rendering rule actions and validating rule specs (rules/src/lib.rs)

    minijinja and serde's derived serializers are the fields of [JinjaEnv]: a
    template engine rendering a template over a context, the syntax checks of
    templates and expressions, and the JSON of the records.  Everything the
    crate itself decides (which fields are templates, what a webhook or an
    email sends by default, what a spec must satisfy) is defined here. *)

From S2P Require Import Prelude Float64 Json States Schedules Model Events RuleMatching.
From Stdlib Require Import Ascii.

Class JinjaEnv : Type := {
  (** [env.render_str] under strict undefined values *)
  render_str : string → Value → result string string;
  (** [env.template_from_str]: the syntax error, if any *)
  template_error : string → option string;
  (** [env.compile_expression] and [expr.eval(ctx).is_true()] under lenient ones *)
  expression_error : string → option string;
  eval_expression : string → Value → result bool string;
  (* serde *)
  run_to_value : Run → Value;
  flow_to_value : Flow → Value;
  state_to_value : State → Value;
  event_to_value : Event → Value;
  json_string : string → string;
}.

(** Text written with backquotes for its double quotes. *)
Fixpoint bq (s : string) : string :=
  match s with
  | EmptyString => EmptyString
  | String a s' => String (if Ascii.eqb a "`"%char then dquote else a) (bq s')
  end.

Definition DEFAULT_EMAIL_BODY : string :=
  "Run {{ run.name }} of flow {{ run.project }}/{{ run.flow_name }} ended {{ state.name }}.

Parameters:
{% for k, v in parameters | dictsort %}  {{ k }} = {{ v }}
{% endfor %}
Message: {{ state.message }}

{{ state.details.traceback | default('') }}".

Definition DEFAULT_EMAIL_SUBJECT : string :=
  "[cereyan] {{ run.flow_name }} {{ state.name }}: {{ run.name }}".

Definition PRESETS : list string := ["slack"; "teams"; "discord"; "ntfy"; "telegram"; "pagerduty"].

Definition PRESET_LINE : string :=
  bq "{% set line = (flow.name if flow.name else `cereyan`) ~ `: ` ~ event.name ~ (` — ` ~ state.message if state.message else ``) ~ (` ` ~ run.url if run.url else ``) %}".

Definition CANCELLABLE_STATES : list string := ["Scheduled"; "Pending"; "Running"; "Paused"].

Definition usize_MAX : Z := u64_MAX.

(** [str::replace]: every occurrence, from left to right. *)
Fixpoint replace_fuel (fuel : nat) (p by_ s : string) : string :=
  match fuel with
  | O => s
  | S fuel' =>
      match split_once_str p s with
      | Some (b, r) => b +:+ by_ +:+ replace_fuel fuel' p by_ r
      | None => s
      end
  end.
Definition replace (p by_ s : string) : string := replace_fuel (S (str_len s)) p by_ s.

#[local] Arguments validate : simpl never.

Section rules.
Context `{JinjaEnv}.

(** The fixed template context. *)
Definition template_context (event : Event) (ctx : RunContext) : Value :=
  let or_null {A} (f : A → Value) (o : option A) :=
    match o with Some a => f a | None => VNull end in
  let run := or_null run_to_value (rc_run ctx) in
  let flow := or_null flow_to_value (rc_flow ctx) in
  let state := or_null (λ r, state_to_value (run_state r)) (rc_run ctx) in
  let parameters := VObject (default [] (run_parameters <$> rc_run ctx)) in
  VObject (fold_left (λ m kv, map_insert kv.1 kv.2 m)
    [("event", event_to_value event); ("run", run); ("flow", flow); ("state", state);
     ("payload", VObject (ev_payload event)); ("parameters", parameters);
     ("result", default VNull (rc_result ctx)); ("loop", VObject [("count", VNumber (NInt 0))])] []).

Definition evaluate_condition (expression : string) (context : Value) : result bool string :=
  match expression_error expression with
  | Some e => Err ("condition: " +:+ e)
  | None =>
      match eval_expression expression context with
      | Ok b => Ok b
      | Err e => Err ("condition: " +:+ e)
      end
  end.

(** [RenderError::Template]: the field and the engine's message. *)
Record RenderError : Type := mkRenderError { re_field : string; re_message : string }.

Definition has_markers (template : string) : bool :=
  contains_str "{{" template || contains_str "{%" template.

Definition render (field template : string) (context : Value) : result string RenderError :=
  if negb (contains_str "{{" template) && negb (contains_str "{%" template) then Ok template
  else
    match render_str template context with
    | Ok s => Ok s
    | Err e => Err (mkRenderError field e)
    end.

Fixpoint render_value (field : string) (value context : Value) : result Value RenderError :=
  match value with
  | VString s =>
      let? rendered := render field s context in
      Ok (VString rendered)
  | VObject map =>
      let fix go (map : list (string * Value)) (out : Map) : result Value RenderError :=
        match map with
        | [] => Ok (VObject out)
        | (k, v) :: map' =>
            let? v' := render_value (field +:+ "." +:+ k) v context in
            go map' (map_insert k v' out)
        end in
      go map []
  | VArray items =>
      let fix go (i : Z) (items : list Value) : result (list Value) RenderError :=
        match items with
        | [] => Ok []
        | v :: items' =>
            let? v' := render_value (field +:+ "[" +:+ dec i +:+ "]") v context in
            let? rest := go (i + 1) items' in
            Ok (v' :: rest)
        end in
      let? out := go 0 items in
      Ok (VArray out)
  | other => Ok other
  end.

(** The body template a preset stands for. *)
Definition preset_body (action : RuleAction) : option string :=
  let literal v := json_string (default "" v) in
  match ra_preset action with
  | None => None
  | Some preset =>
      if preset =?s "slack" then Some (PRESET_LINE +:+ bq "{`text`: {{ line | tojson }}}")
      else if preset =?s "discord" then Some (PRESET_LINE +:+ bq "{`content`: {{ line | tojson }}}")
      else if preset =?s "teams" then
        Some (PRESET_LINE +:+ bq "{`type`: `message`, `attachments`: [{`contentType`: `application/vnd.microsoft.card.adaptive`, `content`: {`type`: `AdaptiveCard`, `version`: `1.4`, `body`: [{`type`: `TextBlock`, `wrap`: true, `text`: {{ line | tojson }}}]}}]}")
      else if preset =?s "ntfy" then
        Some (PRESET_LINE +:+ bq "{`topic`: " +:+ literal (ra_topic action) +:+
              bq ", `title`: {{ ((flow.name if flow.name else `cereyan`) ~ `: ` ~ event.name) | tojson }}, `message`: {{ line | tojson }}, `click`: {{ (run.url if run.url else ``) | tojson }}}")
      else if preset =?s "telegram" then
        Some (PRESET_LINE +:+ bq "{`chat_id`: " +:+ literal (ra_chat_id action) +:+
              bq ", `text`: {{ line | tojson }}}")
      else if preset =?s "pagerduty" then
        Some (PRESET_LINE +:+ bq "{`routing_key`: " +:+ literal (ra_routing_key action) +:+
              bq ", `event_action`: `{% if event.name == 'flow.recovered' %}resolve{% else %}trigger{% endif %}`, `dedup_key`: {{ (`cereyan-` ~ (flow.project if flow.project else ``) ~ `-` ~ (flow.name if flow.name else ``)) | tojson }}, `payload`: {`summary`: {{ line | tojson }}, `severity`: `error`, `source`: `cereyan`, `custom_details`: {`run_url`: {{ (run.url if run.url else ``) | tojson }}, `event`: {{ event.name | tojson }}}}}")
      else None
  end.

(** A rendered optional field. *)
Definition render_opt (field : string) (o : option string) (context : Value)
    : result (option string) RenderError :=
  match o with
  | None => Ok None
  | Some t => let? r := render field t context in Ok (Some r)
  end.

Definition render_map (field : string) (m : Map) (context : Value) : result Map RenderError :=
  let? v := render_value field (VObject m) context in
  match v with VObject map => Ok map | _ => Ok m end.

Definition webhook_body (action : RuleAction) : string :=
  default "{{ event | tojson }}"
    (or_else (opt_filter (λ b, negb (str_is_empty (trim b))) (ra_body action)) (preset_body action)).

(** Subject and body after rendering, by kind. *)
Definition render_subject_body (action : RuleAction) (context : Value)
    : result (option string * option string) RenderError :=
  if ra_kind action =?s "webhook" then
    let? b := render "body" (webhook_body action) context in
    Ok (ra_subject action, Some b)
  else if ra_kind action =?s "email" then
    let? s := render "subject" (default DEFAULT_EMAIL_SUBJECT (ra_subject action)) context in
    let? b := render "body" (default DEFAULT_EMAIL_BODY (ra_body action)) context in
    Ok (Some s, Some b)
  else
    let? b := render_opt "body" (ra_body action) context in
    Ok (ra_subject action, b).

Definition render_action (action : RuleAction) (context : Value) : result RuleAction RenderError :=
  let? parameters := render_map "parameters" (ra_parameters action) context in
  let? message := render_opt "message" (ra_message action) context in
  let? url := render_opt "url" (ra_url action) context in
  let? flow := (if ra_kind action =?s "cancel_runs"
                then render_opt "flow" (ra_flow action) context else Ok (ra_flow action)) in
  let? headers := render_map "headers" (ra_headers action) context in
  let? sb := render_subject_body action context in
  Ok {| ra_kind := ra_kind action; ra_flow := flow; ra_parameters := parameters;
        ra_state_type := ra_state_type action; ra_message := message; ra_url := url;
        ra_method := ra_method action; ra_headers := headers; ra_body := sb.2;
        ra_to := ra_to action; ra_subject := sb.1; ra_callable := ra_callable action;
        ra_preset := ra_preset action; ra_secret := ra_secret action; ra_topic := ra_topic action;
        ra_chat_id := ra_chat_id action; ra_routing_key := ra_routing_key action;
        ra_states := ra_states action; ra_delay := ra_delay action;
        ra_copy_parameters := ra_copy_parameters action; ra_pass_result := ra_pass_result action |}.

(** ** Validation *)

Fixpoint check_all (check : string → result unit NameError) (clause : string) (names : list string)
    : result unit string :=
  match names with
  | [] => Ok tt
  | name :: names' =>
      match check name with
      | Ok _ => check_all check clause names'
      | Err e => Err (clause +:+ ": " +:+ ne_message e)
      end
  end.

Definition validate_match (m : RuleMatch) (clause : string) : result unit string :=
  let? _ := check_all check_event_name clause (rm_events m) in
  check_all check_state_name clause (rm_states m).

Definition opt_empty (o : option string) : bool := str_is_empty (default "" o).

(** The first state of [cancel_runs] that cannot be cancelled. *)
Definition bad_state (states : list string) : option string :=
  List.find (λ st, negb (existsb (λ c, c =?s st) CANCELLABLE_STATES)) states.

Definition preset_needs (a : RuleAction) (preset : string) : option (string * option string) :=
  if preset =?s "ntfy" then Some ("topic", ra_topic a)
  else if preset =?s "telegram" then Some ("chat_id", ra_chat_id a)
  else if preset =?s "pagerduty" then Some ("routing_key", ra_routing_key a)
  else None.

Definition validate_webhook (fail : string → result unit string) (a : RuleAction)
    : result unit string :=
  let preset := default "" (ra_preset a) in
  if negb (existsb (λ p, p =?s preset) PRESETS) && negb (str_is_empty preset) then
    fail ("unknown webhook preset " +:+ debug_str preset +:+ "; one of " +:+ join ", " PRESETS)
  else if opt_empty (ra_url a) && negb (preset =?s "pagerduty") then fail "webhook needs a url"
  else
    match preset_needs a preset with
    | Some (field, value) =>
        if str_is_empty (trim (default "" value))
        then fail ("the " +:+ preset +:+ " preset needs " +:+ field)
        else Ok tt
    | None => Ok tt
    end.

Definition validate_action (i : Z) (a : RuleAction) : result unit string :=
  let fail msg := Err ("action " +:+ dec i +:+ ": " +:+ msg) in
  let kind := ra_kind a in
  if kind =?s "run_flow" then
    if opt_empty (ra_flow a) then fail "run_flow needs a flow"
    else if match ra_delay a with
            | Some d => f64_lt d f64_zero || negb (f64_is_finite d)
            | None => false
            end then fail "run_flow delay must be zero or more seconds"
    else Ok tt
  else if (kind =?s "cancel_run") || (kind =?s "pause_schedule") || (kind =?s "resume_schedule")
  then Ok tt
  else if kind =?s "cancel_runs" then
    match bad_state (ra_states a) with
    | Some st => fail ("cancel_runs states must be one of " +:+ join ", " CANCELLABLE_STATES
                       +:+ "; got " +:+ debug_str st)
    | None => Ok tt
    end
  else if kind =?s "set_state" then
    if opt_empty (ra_state_type a) then fail "set_state needs a state_type" else Ok tt
  else if kind =?s "webhook" then validate_webhook fail a
  else if kind =?s "email" then
    match ra_to a with [] => fail "email needs recipients" | _ => Ok tt end
  else if kind =?s "call" then
    if opt_empty (ra_callable a) then fail "call needs a callable" else Ok tt
  else fail ("unknown kind " +:+ debug_str kind).

Fixpoint validate_actions (i : Z) (actions : list RuleAction) : result unit string :=
  match actions with
  | [] => Ok tt
  | a :: actions' => let? _ := validate_action i a in validate_actions (i + 1) actions'
  end.

(** The first template field of an action that does not parse. *)
Definition template_fields (a : RuleAction) : list (string * option string) :=
  [("body", ra_body a); ("subject", ra_subject a); ("message", ra_message a); ("url", ra_url a)].

Fixpoint validate_fields (i : Z) (fields : list (string * option string)) : result unit string :=
  match fields with
  | [] => Ok tt
  | (field, text) :: fields' =>
      match and_then text template_error with
      | Some e => Err ("action " +:+ dec i +:+ ": " +:+ field +:+ " template: " +:+ e)
      | None => validate_fields i fields'
      end
  end.

Fixpoint validate_templates (i : Z) (actions : list RuleAction) : result unit string :=
  match actions with
  | [] => Ok tt
  | a :: actions' =>
      let? _ := validate_fields i (template_fields a) in validate_templates (i + 1) actions'
  end.

Definition ScheduleError_display (e : ScheduleError) : string :=
  match e with
  | ErrCron expr message => "invalid cron expression " +:+ debug_str expr +:+ ": " +:+ message
  | ErrTimezone name => "unknown timezone " +:+ debug_str name
  | ErrInterval => "interval must be positive"
  | ErrRRule message => "invalid rrule: " +:+ message
  | ErrInvalid message => message
  end.

Context `{ScheduleEnv}.

(** The [unless]/[at]/[within] part of a spec. *)
Definition validate_proactive (spec : RuleSpec) : result unit string :=
  match rs_unless spec with
  | Some unless =>
      if bool_decide (rm_events unless = []) then Err "unless needs at least one expected event"
      else
        match rs_at spec, rs_within spec with
        | Some clock, within =>
            if negb (bool_decide (rm_events (rs_when spec) = []))
            then Err "a clock-armed rule (at) cannot also have when events"
            else if match within with Some w => f64_le w f64_zero | None => false end
            then Err "within must be positive"
            else
              match validate (Cron (rc_cron clock) (rc_tz clock) true) with
              | Ok _ => Ok tt
              | Err e => Err ("at: " +:+ ScheduleError_display e)
              end
        | None, Some w =>
            if f64_le w f64_zero then Err "within must be positive"
            else if bool_decide (rm_events (rs_when spec) = [])
            then Err "unless needs when events to arm on, or an at clock"
            else Ok tt
        | None, None => Err "unless needs within (event-armed) or at (clock-armed)"
        end
  | None => if is_some (rs_at spec) then Err "at is only valid together with unless" else Ok tt
  end.

Definition validate_condition (spec : RuleSpec) : result unit string :=
  match rs_condition spec with
  | Some expr =>
      if str_is_empty (trim expr) then Err "condition must not be empty; leave it out instead"
      else match expression_error expr with
           | Some e => Err ("condition: " +:+ e)
           | None => Ok tt
           end
  | None => Ok tt
  end.

Definition validate_limit (spec : RuleSpec) : result unit string :=
  if rs_max_per_chain spec <? 0 then Err "max_per_chain must be zero or more"
  else
    match rs_on_limit spec with
    | Some a =>
        if rs_max_per_chain spec =? 0 then Err "on_limit needs max_per_chain"
        else
          match validate_action usize_MAX a with
          | Ok _ => Ok tt
          | Err e => Err (replace ("action " +:+ dec usize_MAX +:+ " ") "on_limit " e)
          end
    | None => Ok tt
    end.

Definition validate_spec (spec : RuleSpec) : result unit string :=
  if bool_decide (length (rs_actions spec) = 0%nat) then Err "a rule needs at least one action"
  else
    let? _ := validate_match (rs_when spec) "when" in
    let? _ := match rs_unless spec with
              | Some unless => validate_match unless "unless"
              | None => Ok tt
              end in
    if negb ((rs_once spec =?s "per_run") || (rs_once spec =?s "never"))
    then Err "once must be per_run or never"
    else
      let? _ := validate_proactive spec in
      let? _ := validate_condition spec in
      let? _ := validate_limit spec in
      let? _ := validate_actions 0 (rs_actions spec) in
      validate_templates 0 (rs_actions spec).

(** ** Lemmas *)

Lemma check_all_Ok check clause names :
  check_all check clause names = Ok tt → ∀ n, n ∈ names → check n = Ok tt.
Proof.
  induction names as [|x names IH]; simpl; [set_solver|].
  destruct (check x) as [[]|e] eqn:E; [|done]. intros Hn n [->|?]%elem_of_cons; auto.
Qed.

Lemma validate_actions_Ok i actions :
  validate_actions i actions = Ok tt →
  ∀ a, a ∈ actions → ∃ j, i ≤ j < i + Z.of_nat (length actions) ∧ validate_action j a = Ok tt.
Proof.
  revert i; induction actions as [|x actions IH]; intros i; simpl; [set_solver|].
  destruct (validate_action i x) as [[]|e] eqn:E; [|done].
  intros Hv a [->|Ha]%elem_of_cons; [exists i; split; [lia|done]|].
  destruct (IH (i + 1) Hv a Ha) as (j & ? & ?). exists j. split; [lia|done].
Qed.

(** What a spec that may be stored satisfies. *)
Record spec_valid (spec : RuleSpec) : Prop := {
  sv_actions : rs_actions spec ≠ [];
  sv_names : ∀ m, (m = rs_when spec ∨ rs_unless spec = Some m) →
    (∀ n, n ∈ rm_events m → check_event_name n = Ok tt) ∧
    (∀ n, n ∈ rm_states m → check_state_name n = Ok tt);
  sv_once : rs_once spec = "per_run" ∨ rs_once spec = "never";
  sv_clock : is_clock_armed spec = true →
    rm_events (rs_when spec) = [] ∧
    ∃ clock, rs_at spec = Some clock ∧ validate (Cron (rc_cron clock) (rc_tz clock) true) = Ok tt;
  sv_armed : is_proactive spec = true → is_clock_armed spec = false →
    rm_events (rs_when spec) ≠ [] ∧ ∃ w, rs_within spec = Some w ∧ f64_le w f64_zero = false;
  sv_expected : ∀ u, rs_unless spec = Some u → rm_events u ≠ [];
  sv_at : is_proactive spec = false → rs_at spec = None;
  sv_chain : 0 ≤ rs_max_per_chain spec ∧ (is_some (rs_on_limit spec) = true → 0 < rs_max_per_chain spec);
}.

Lemma validate_match_Ok m clause :
  validate_match m clause = Ok tt →
  (∀ n, n ∈ rm_events m → check_event_name n = Ok tt) ∧
  (∀ n, n ∈ rm_states m → check_state_name n = Ok tt).
Proof.
  rw /validate_match. destruct (check_all check_event_name clause _) as [[]|] eqn:E; [|done].
  intros Hs. split; by eapply check_all_Ok.
Qed.

Lemma validate_proactive_Ok spec :
  validate_proactive spec = Ok tt →
  (is_clock_armed spec = true →
    rm_events (rs_when spec) = [] ∧
    ∃ clock, rs_at spec = Some clock ∧ validate (Cron (rc_cron clock) (rc_tz clock) true) = Ok tt) ∧
  (is_proactive spec = true → is_clock_armed spec = false →
    rm_events (rs_when spec) ≠ [] ∧ ∃ w, rs_within spec = Some w ∧ f64_le w f64_zero = false) ∧
  (∀ u, rs_unless spec = Some u → rm_events u ≠ []) ∧
  (is_proactive spec = false → rs_at spec = None).
Proof.
  rw /validate_proactive /is_clock_armed /is_proactive.
  destruct (rs_unless spec) as [u|]; simpl; [|by destruct (rs_at spec)].
  case_bool_decide as Hu; [done|].
  destruct (rs_at spec) as [clock|] eqn:Ea; simpl.
  - case_bool_decide as Hw; [|done]. simpl. case_match; [done|].
    destruct (validate (Cron (rc_cron clock) (rc_tz clock) true)) as [[]|] eqn:Ev; [|done]. intros _. split_and!; [|done|naive_solver|done].
    intros _. split; [done|]. by exists clock.
  - destruct (rs_within spec) as [w|]; [|done]. destruct (f64_le w f64_zero) eqn:Ew; [done|].
    case_bool_decide as Hw; [done|]. intros _. split_and!; [done| |naive_solver|done].
    intros _ _. split; [done|]. by exists w.
Qed.

Lemma validate_limit_Ok spec :
  validate_limit spec = Ok tt →
  0 ≤ rs_max_per_chain spec ∧ (is_some (rs_on_limit spec) = true → 0 < rs_max_per_chain spec).
Proof.
  rw /validate_limit. destruct (Z.ltb_spec (rs_max_per_chain spec) 0); [done|].
  destruct (rs_on_limit spec); cbn [is_some is_none negb]; [|done].
  destruct (Z.eqb_spec (rs_max_per_chain spec) 0); [done|]. intros _. split; lia.
Qed.
End rules.

(** ** Theorems *)

(** A rule spec that passes validation is one the engine can run: it has
    actions, every one of a known shape; its event and state names can occur;
    a clock-armed rule has no [when] events and a cron that parses; an
    event-armed one has events to arm on and a positive deadline; [at] comes
    only with [unless]; and the chain bound is sound. *)
Theorem validated_spec_sound `{JinjaEnv, ScheduleEnv} spec :
  validate_spec spec = Ok tt →
  spec_valid spec ∧ ∀ a, a ∈ rs_actions spec → ∃ i, validate_action i a = Ok tt.
Proof.
  rw /validate_spec. case_bool_decide as Hlen; [done|].
  destruct (validate_match (rs_when spec) "when") as [[]|] eqn:Ew; [|done].
  destruct (match rs_unless spec with Some u => validate_match u "unless" | None => Ok tt end)
    as [[]|] eqn:Eu; [|done].
  destruct (_ || _) eqn:Eo; [|done]. cbn [negb].
  destruct (validate_proactive spec) as [[]|] eqn:Ep; [|done].
  destruct (validate_condition spec) as [[]|]; [|done].
  destruct (validate_limit spec) as [[]|] eqn:El; [|done].
  destruct (validate_actions 0 _) as [[]|] eqn:Ea; [|done]. intros _.
  apply validate_proactive_Ok in Ep as (? & ? & ? & ?). apply validate_limit_Ok in El.
  split.
  - split; try done.
    + intros He. by rw He in Hlen.
    + intros m [->|Hm]; [by eapply validate_match_Ok|]. rw Hm in Eu. by eapply validate_match_Ok.
    + apply orb_true_iff in Eo as [?%str_eqb_eq|?%str_eqb_eq]; auto.
  - intros a Ha. destruct (validate_actions_Ok _ _ Ea a Ha) as (j & _ & ?). by exists j.
Qed.

(** A template engine that accepts everything and renders nothing. *)
#[local] Instance plain_jinja : JinjaEnv := {|
  render_str t _ := Ok t;
  template_error _ := None;
  expression_error _ := None;
  eval_expression _ _ := Ok true;
  run_to_value _ := VNull;
  flow_to_value _ := VNull;
  state_to_value _ := VNull;
  event_to_value _ := VNull;
  json_string := debug_str;
|}.
#[local] Existing Instance minute_env.

Definition cancel_action : RuleAction :=
  mkRuleAction "cancel_run" None [] None None None None [] None [] None None None None None None
    None [] None false None.

(** Expect [run.completed] within an hour of [run.running]. *)
Definition watchdog_spec : RuleSpec :=
  let spec := RuleSpec_default in
  mkRuleSpec (mkRuleMatch ["run.running"] [] [] ["Running"] None) [cancel_action] "per_run"
    (rs_cooldown_seconds spec) 60 false 0 None 3 (Some cancel_action)
    (Some (mkRuleMatch ["run.completed"] [] [] [] None)) (Some (f64_of_Z 3600)) None.

Lemma validated_spec_sound_witness : spec_valid watchdog_spec.
Proof.
  destruct (validated_spec_sound watchdog_spec) as [Hv _]; [vm_compute; reflexivity|exact Hv].
Defined.

(** The error of a bad [on_limit] action is reported under the wrong name:
    the text the validator replaces, the action number followed by a space, is
    not what the message holds, a number followed by a colon. *)
Theorem on_limit_error_keeps_number `{JinjaEnv} spec a :
  rs_max_per_chain spec = 1 → rs_on_limit spec = Some a →
  ra_kind a = "run_flow" → ra_flow a = None →
  validate_limit spec = Err "action 18446744073709551615: run_flow needs a flow".
Proof.
  intros Hm Ha Hk Hf. rw /validate_limit Hm Ha /validate_action Hk Hf. vm_compute. reflexivity.
Qed.

Lemma on_limit_error_keeps_number_witness :
  validate_limit (mkRuleSpec RuleMatch_default [cancel_action] "never" f64_zero 0 false 0 None 1
    (Some (mkRuleAction "run_flow" None [] None None None None [] None [] None None None None None
             None None [] None false None)) None None None)
  = Err "action 18446744073709551615: run_flow needs a flow".
Proof. eapply on_limit_error_keeps_number; reflexivity. Defined.
