(* ===== verification/Metrics.v ===== *)
(** * Metrics: histograms and the sample ring (server/src/metrics.rs)

    The fixed-bucket cumulative histogram behind the delay metrics and the
    ring of dashboard samples.  The scrape rendering is text and is left out. *)

From S2P Require Import Prelude Float64.

(** [a as u64]: towards zero, saturating, NaN to 0. *)
Definition f64_as_u64 (a : f64) : Z :=
  match a with
  | S754_nan | S754_zero _ => 0
  | S754_infinity s => if s then 0 else u64_MAX
  | S754_finite s m e => Z.max 0 (Z.min u64_MAX (f64_trunc_Z s m e))
  end.

Definition DELAY_BOUNDS : list f64 := f64_of_Z <$> [1; 5; 15; 60; 300; 900; 3600].

Record Histogram : Type := mkHistogram {
  bounds : list f64;
  counts : list Z;
  sum_micros : Z;
  count : Z;
}.

Definition Histogram_new (bounds : list f64) : Histogram :=
  mkHistogram bounds ((λ _, 0) <$> bounds) 0 0.

(** [slot.fetch_add(1)] where the value is within the bound. *)
Definition bump (seconds bound : f64) (slot : Z) : Z :=
  if f64_le seconds bound then wrap_u64 (slot + 1) else slot.

Definition observe (seconds : f64) (h : Histogram) : Histogram :=
  let seconds := f64_max seconds f64_zero in
  {| bounds := bounds h;
     counts := zip_with (bump seconds) (bounds h) (counts h);
     sum_micros := wrap_u64 (sum_micros h + f64_as_u64 (f64_mul seconds f64_million));
     count := wrap_u64 (count h + 1) |}.

Definition snapshot (h : Histogram) : list (f64 * Z) * f64 * Z :=
  (zip (bounds h) (counts h), f64_div (f64_of_Z (sum_micros h)) f64_million, count h).

Record Sample : Type := mkSample {
  sample_at : Z;
  sample_queued : Z;
  sample_running : Z;
  sample_engines_busy : Z;
}.

Definition SAMPLE_CAPACITY : nat := 720.

Definition Samples_push (s : Sample) (ring : list Sample) : list Sample :=
  (if (length ring =? SAMPLE_CAPACITY)%nat then tail ring else ring) ++ [s].

(** ** Comparisons *)

(** [<=] between a value and the canonical floats of a list is monotone along
    the list when the list is sorted by [<=] and positive. *)
Definition pos_finite (a : f64) : bool :=
  match a with S754_finite false _ _ => true | _ => false end.

Lemma f64_le_trans_pos a b c :
  pos_finite b = true → pos_finite c = true →
  f64_le a b = true → f64_le b c = true → f64_le a c = true.
Proof.
  destruct b as [| | |[] mb eb]; try done. destruct c as [| | |[] mc ec]; try done. intros _ _.
  destruct a as [[]|[]| |[] ma ea]; rw /f64_le /SFleb /SFcompare; try done.
  destruct (Z.compare_spec ea eb); destruct (Z.compare_spec eb ec);
    destruct (Z.compare_spec ea ec); try done; try lia; subst; try done;
    change Pos.compare_cont with (λ r x y, Pos.compare_cont r x y); simpl;
    rw -/(Pos.compare ma mb) -/(Pos.compare mb mc) -/(Pos.compare ma mc);
    destruct (Pos.compare_spec ma mb); destruct (Pos.compare_spec mb mc);
    destruct (Pos.compare_spec ma mc); try done; lia.
Qed.

(** The bucket counts never decrease along the bounds, up to the total. *)
Fixpoint cumulative (cs : list Z) (total : Z) : Prop :=
  match cs with
  | [] => True
  | c :: cs' => 0 ≤ c ≤ total ∧ Forall (λ d, c ≤ d) cs' ∧ cumulative cs' total
  end.

(** Bounds in increasing order. *)
Fixpoint bounds_ok (bs : list f64) : Prop :=
  match bs with
  | [] => True
  | b :: bs' => pos_finite b = true ∧ Forall (λ c, f64_le b c = true ∧ pos_finite c = true) bs'
                ∧ bounds_ok bs'
  end.
Lemma DELAY_BOUNDS_ok : bounds_ok DELAY_BOUNDS.
Proof. vm_compute. repeat (split || constructor). Qed.

Lemma cumulative_bump seconds bs cs total :
  bounds_ok bs → length cs = length bs → cumulative cs total → 0 ≤ total < u64_MAX →
  cumulative (zip_with (bump seconds) bs cs) (total + 1).
Proof.
  revert cs; induction bs as [|b bs IH]; intros [|c cs] Hb Hl Hc Ht; try done.
  destruct Hb as (Hpb & Hbs & Hb). destruct Hc as (Hct & Hcs & Hc). injection Hl as Hl.
  assert (Hw : ∀ z, 0 ≤ z ≤ total → wrap_u64 (z + 1) = z + 1).
  { intros z Hz. rw /wrap_u64 Z.mod_small //. rw /two64. rw /u64_MAX in Ht. lia. }
  cbn [zip_with cumulative]. split; [|split; [|by apply IH]].
  - rw /bump. case_match; rw ?Hw //; lia.
  - rw Forall_forall. intros d Hd. apply elem_of_zip_with in Hd as (b' & c' & -> & Hb' & Hc').
    rw Forall_forall in Hcs. rw Forall_forall in Hbs. specialize (Hcs c' Hc').
    destruct (Hbs b' Hb') as [Hle Hp'].
    assert (0 ≤ c' ≤ total).
    { clear -Hc Hc'. induction cs as [|x cs IH]; [set_solver|]. destruct Hc as (? & _ & Hc).
      apply elem_of_cons in Hc' as [->|?]; [done|by apply IH]. }
    rw /bump. destruct (f64_le seconds b) eqn:E.
    + rw (f64_le_trans_pos seconds b b') // !Hw //. lia.
    + case_match; rw ?Hw //; lia.
Qed.

Definition observe_all (obs : list f64) (h : Histogram) : Histogram :=
  fold_left (λ h s, observe s h) obs h.

Lemma observe_all_ok obs h :
  bounds_ok (bounds h) → length (counts h) = length (bounds h) →
  cumulative (counts h) (count h) → 0 ≤ count h →
  count h + Z.of_nat (length obs) ≤ u64_MAX →
  let h' := observe_all obs h in
  cumulative (counts h') (count h') ∧ count h' = count h + Z.of_nat (length obs) ∧
  length (counts h') = length (bounds h).
Proof.
  revert h; induction obs as [|s obs IH]; intros h Hb Hl Hc H0 Hn; simpl.
  { split_and!; [done|lia|done]. }
  simpl in Hn.
  assert (Hw : wrap_u64 (count h + 1) = count h + 1).
  { rw /wrap_u64 Z.mod_small //. rw /two64. rw /u64_MAX in Hn. lia. }
  destruct (IH (observe s h)) as (H1 & H2 & H3); simpl; rw ?Hw.
  - done.
  - by rw length_zip_with_l_eq.
  - apply cumulative_bump; [done|done|done|lia].
  - lia.
  - lia.
  - simpl in H2. rw Hw in H2. split_and!; [done|lia|done].
Qed.

Definition push_all (l ring : list Sample) : list Sample :=
  fold_left (λ r s, Samples_push s r) l ring.

Lemma push_all_last l ring :
  (length ring ≤ SAMPLE_CAPACITY)%nat →
  push_all l ring = drop (length (ring ++ l) - SAMPLE_CAPACITY) (ring ++ l).
Proof.
  revert ring; induction l as [|s l IH]; intros ring Hr; simpl.
  { rw app_nil_r. replace (length ring - SAMPLE_CAPACITY)%nat with 0%nat by lia. by rw drop_0. }
  rw IH.
  - rw /Samples_push. destruct (Nat.eqb_spec (length ring) SAMPLE_CAPACITY) as [He|He];
      rw -?app_assoc //. destruct ring as [|x ring]; [done|].
    cbn [length tail app] in He |- *.
    assert (Hlen : (length (ring ++ s :: l) = SAMPLE_CAPACITY + length l)%nat) by (rw length_app; cbn [length]; lia).
    rw Hlen. replace (SAMPLE_CAPACITY + length l - SAMPLE_CAPACITY)%nat with (length l) by lia.
    replace (S (SAMPLE_CAPACITY + length l) - SAMPLE_CAPACITY)%nat with (S (length l)) by lia.
    done.
  - assert (0 < SAMPLE_CAPACITY)%nat by (rw /SAMPLE_CAPACITY; lia).
    rw /Samples_push length_app. cbn [length].
    destruct (Nat.eqb_spec (length ring) SAMPLE_CAPACITY); [destruct ring; cbn [length tail] in *|]; lia.
Qed.

(** ** Theorems *)

(** The delay histogram is a Prometheus histogram: after any observations
    the bucket counts are cumulative, non-decreasing along the bounds and at
    most the total, which is the number of observations. *)
Theorem histogram_cumulative obs :
  Z.of_nat (length obs) ≤ u64_MAX →
  let h := observe_all obs (Histogram_new DELAY_BOUNDS) in
  cumulative (counts h) (count h) ∧ count h = Z.of_nat (length obs) ∧
  length (counts h) = length DELAY_BOUNDS.
Proof.
  intros Hn h. apply (observe_all_ok obs (Histogram_new DELAY_BOUNDS)); simpl.
  - apply DELAY_BOUNDS_ok.
  - done.
  - by repeat constructor.
  - lia.
  - lia.
Qed.

Lemma histogram_cumulative_witness :
  counts (observe_all [f64_of_Z 3; f64_of_Z 100] (Histogram_new DELAY_BOUNDS)) = [0; 1; 1; 1; 2; 2; 2] ∧
  cumulative (counts (observe_all [f64_of_Z 3; f64_of_Z 100] (Histogram_new DELAY_BOUNDS)))
    (count (observe_all [f64_of_Z 3; f64_of_Z 100] (Histogram_new DELAY_BOUNDS))).
Proof.
  split; [vm_compute; reflexivity|].
  apply (histogram_cumulative [f64_of_Z 3; f64_of_Z 100]). vm_compute. discriminate.
Defined.

(** The sample ring keeps exactly the last 720 samples, in order: an hour
    at one sample every five seconds. *)
Theorem samples_keep_last l :
  push_all l [] = drop (length l - SAMPLE_CAPACITY) l ∧
  (length (push_all l []) ≤ SAMPLE_CAPACITY)%nat.
Proof.
  rw push_all_last; [split; [done|rw length_drop; cbn [app]; lia]|cbn [length]; lia].
Qed.
