(* ===== verification/Stream.v ===== *)
(** * The stream of changes (server/src/stream.rs)

    [Broadcaster]: a ring of the last changes with sequence numbers, from which
    a client that reconnects reads what it missed.  The broadcast channel to
    live subscribers is tokio's; what is sent on it is [sent].

    [publish] draws its number before it takes the lock of the ring.  [publish]
    below is the call on its own; [pub_step] interleaves several calls. *)

From S2P Require Import Prelude Float64 Json.

Definition RING_SIZE : nat := Z.to_nat 65536.
Definition DATABASE_RESET : string := "database.reset".

Record StreamEvent : Type := mkStreamEvent {
  se_seq : Z;
  se_kind : string;
  se_key : string;
  se_data : Value;
}.
Record Broadcaster : Type := mkBroadcaster {
  ring : list StreamEvent;
  next_seq : Z;
  sent : list StreamEvent;
}.
Definition Broadcaster_new : Broadcaster := mkBroadcaster [] 1 [].

(** [fetch_add] *)
Definition draw (b : Broadcaster) : Broadcaster * Z :=
  (mkBroadcaster (ring b) (wrap_u64 (next_seq b + 1)) (sent b), next_seq b).
Definition push_event (e : StreamEvent) (b : Broadcaster) : Broadcaster :=
  let r := if (RING_SIZE <=? length (ring b))%nat then drop 1 (ring b) else ring b in
  mkBroadcaster (r ++ [e]) (next_seq b) (sent b ++ [e]).
Definition publish (kind key : string) (data : Value) (b : Broadcaster) : Broadcaster * Z :=
  let '(b, n) := draw b in
  (push_event (mkStreamEvent n kind key data) b, n).

Definition latest_seq (b : Broadcaster) : Z := wrap_u64 (next_seq b - 1).

Definition replay (since : Z) (b : Broadcaster) : option (list StreamEvent) :=
  match ring b with
  | [] => Some []
  | oldest :: _ =>
      if since <? Z.max (se_seq oldest - 1) 0 then None
      else Some (List.filter (λ e, since <? se_seq e) (ring b))
  end.

(** ** One publisher at a time *)

Definition change : Type := string * string * Value.
Definition publish_all (cs : list change) (b : Broadcaster) : Broadcaster :=
  fold_left (λ b c, (publish c.1.1 c.1.2 c.2 b).1) cs b.
(** The changes in order, numbered from [n]. *)
Fixpoint numbered (n : Z) (cs : list change) : list StreamEvent :=
  match cs with
  | [] => []
  | c :: cs' => mkStreamEvent n c.1.1 c.1.2 c.2 :: numbered (n + 1) cs'
  end.

Lemma numbered_app n l1 l2 : numbered n (l1 ++ l2) = numbered n l1 ++ numbered (n + Z.of_nat (length l1)) l2.
Proof.
  revert n. induction l1 as [|c l1 IH]; intros n; simpl; [f_equal; lia|]. rw IH. do 3 f_equal. lia.
Qed.
Lemma numbered_length n cs : length (numbered n cs) = length cs.
Proof. revert n; induction cs; intros n; simpl; auto. Qed.
Lemma numbered_lookup n cs i e : numbered n cs !! i = Some e → se_seq e = n + Z.of_nat i.
Proof.
  revert n i. induction cs as [|c cs IH]; intros n i; simpl; [done|].
  destruct i as [|i]; simpl; [intros [= <-]; simpl; lia|]. intros He. rw (IH _ _ He). lia.
Qed.

(** The ring is the last [RING_SIZE] changes. *)
Definition tail_of (cs : list change) : list StreamEvent := drop (length cs - RING_SIZE) (numbered 1 cs).

Lemma ring_size_pos : (0 < RING_SIZE)%nat.
Proof. rw /RING_SIZE. lia. Qed.
Lemma ring_size_two : (1 < RING_SIZE)%nat.
Proof. rw /RING_SIZE. lia. Qed.
#[global] Opaque RING_SIZE.

Lemma published cs :
  Z.of_nat (length cs) < u64_MAX →
  ring (publish_all cs Broadcaster_new) = tail_of cs ∧
  next_seq (publish_all cs Broadcaster_new) = 1 + Z.of_nat (length cs).
Proof.
  induction cs as [|c cs IH] using rev_ind; intros Hlen; [done|].
  rw length_app in Hlen; cbn [length] in Hlen. destruct IH as [Hr Hn]; [lia|].
  rw /publish_all fold_left_app /=. fold (publish_all cs Broadcaster_new).
  rw Hr Hn /tail_of length_app numbered_app /=.
  split; [|rw /wrap_u64 Z.mod_small; rw /u64_MAX /two64 in Hlen |- *; lia].
  rw length_drop numbered_length. pose proof ring_size_pos as Hp.
  destruct (Nat.leb_spec RING_SIZE (length cs - (length cs - RING_SIZE))%nat) as [Hle|Hlt].
  - rw drop_drop drop_app_le ?numbered_length; [|lia]. f_equal. f_equal. lia.
  - rw drop_app_le ?numbered_length; [|lia]. f_equal. f_equal. lia.
Qed.

Lemma filter_suffix (since : Z) (k : nat) n cs :
  n + Z.of_nat k ≤ since + 1 →
  List.filter (λ e, since <? se_seq e) (drop k (numbered n cs)) = drop (Z.to_nat (since + 1 - n)) (numbered n cs).
Proof.
  revert n k. induction cs as [|c cs IH]; intros n k Hk; simpl; [by rw !drop_nil|].
  destruct k as [|k]; simpl.
  - destruct (Z.ltb_spec since n) as [Hlt|Hge].
    + replace (Z.to_nat (since + 1 - n)) with 0%nat by lia. simpl. f_equal.
      specialize (IH (n + 1) 0%nat). rw /= in IH.
      destruct (decide (n + 1 ≤ since + 1)) as [Hle|Hgt]; [lia|].
      assert (since = n - 1) as -> by lia.
      clear IH Hlt Hgt Hk. revert n. induction cs as [|d cs IH]; intros n; simpl; [done|].
      destruct (Z.ltb_spec (n - 1) (n + 1)); [|lia]. f_equal.
      specialize (IH (n + 1)). rw -{2}IH. apply List.filter_ext_in. intros e He.
      apply list_elem_of_In, list_elem_of_lookup in He as [i He]. apply numbered_lookup in He. lia.
    + replace (Z.to_nat (since + 1 - n)) with (S (Z.to_nat (since + 1 - (n + 1)))) by lia. simpl.
      apply (IH (n + 1) 0%nat). lia.
  - replace (Z.to_nat (since + 1 - n)) with (S (Z.to_nat (since + 1 - (n + 1)))) by lia. simpl.
    apply IH. lia.
Qed.


(** ** Several publishers *)

(** A call is at its number, at the ring, or done. *)
Inductive pub_step : Broadcaster * list StreamEvent → Broadcaster * list StreamEvent → Prop :=
| step_draw b waiting kind key data :
    pub_step (b, waiting)
      ((draw b).1, mkStreamEvent (draw b).2 kind key data :: waiting)
| step_push b w1 e w2 :
    pub_step (b, w1 ++ e :: w2) (push_event e b, w1 ++ w2).

(** Two calls can reach the ring in the other order than they drew their
    numbers: the ring then holds 2 before 1, and a client that saw number 2
    before the first call was through never gets number 1 from a replay. *)
Lemma publishers_overtake :
  ∃ b1 w1 b2,
    rtc pub_step (Broadcaster_new, []) (b1, w1) ∧ latest_seq b1 = 2 ∧ se_seq <$> sent b1 = [2] ∧
    rtc pub_step (b1, w1) (b2, []) ∧ se_seq <$> ring b2 = [2; 1] ∧
    replay 2 b2 = Some [] ∧ replay 0 b2 = None.
Proof.
  set (e1 := mkStreamEvent 1 "run.updated" "1" VNull).
  set (e2 := mkStreamEvent 2 "run.updated" "2" VNull).
  set (b := mkBroadcaster [] 3 []).
  assert (Hpush : ∀ e r n l, (length r < RING_SIZE)%nat →
    push_event e (mkBroadcaster r n l) = mkBroadcaster (r ++ [e]) n (l ++ [e])).
  { intros e r n l Hl. rw /push_event /=. destruct (Nat.leb_spec RING_SIZE (length r)); [lia|done]. }
  pose proof ring_size_pos as Hp. pose proof ring_size_two as Hp1.
  exists (mkBroadcaster [e2] 3 [e2]), [e1], (mkBroadcaster [e2; e1] 3 [e2; e1]).
  split.
  - eapply rtc_l; [apply (step_draw _ [] "run.updated" "1" VNull)|].
    eapply rtc_l; [apply (step_draw _ _ "run.updated" "2" VNull)|].
    eapply rtc_l; [apply (step_push _ [] e2 [e1])|].
    change (rtc pub_step (push_event e2 b, [e1]) (mkBroadcaster [e2] 3 [e2], [e1])).
    rw Hpush //.
  - split; [done|]. split; [done|]. split; [|done].
    apply rtc_once. rw -(Hpush e1 [e2] 3 [e2]) //. apply (step_push _ [] e1 []).
Qed.
