(* ===== verification/ActiveIndex.v ===== *)
(** * The active-run index (server/src/index.rs)

    The in-memory working set: the non-terminal runs, the counters by flow and
    state type, and the set of runs waiting on a durable event with the
    lock-free flag that mirrors it.  [Instant::now()] is the argument [inst],
    [now_micros()] the argument [now]; counters are integers without a width
    (they count database rows).  A [HashMap] is a [gmap]; what the code
    computes by iterating one does not depend on the order. *)

From S2P Require Import Prelude Float64 Json States Model Metrics.

Record EngineKey : Type := mkEngineKey {
  ek_source_dir : string;
  ek_module : string;
  ek_isolated : bool;
  ek_nice : Z;
}.

Record ActiveRun : Type := mkActiveRun {
  ar_id : Z;
  ar_flow_id : Z;
  ar_name : string;
  ar_state : State;
  ar_engine_pid : option Z;
  ar_engine_id : option string;
  ar_last_heartbeat : Z;
  ar_cancel_requested : bool;
  ar_cancelling_since : option Z;
  ar_terminated_at : option Z;
  ar_key : EngineKey;
  ar_adopted : bool;
}.

Record ActiveIndex : Type := mkActiveIndex {
  active : gmap Z ActiveRun;
  by_flow : gmap Z (gmap StateType Z);
  task_by_state : gmap StateType Z;
  flow_projects : gmap Z string;
  awaiting_event : gset Z;
  has_event_waiters : bool;
  start_delay : Histogram;
  resource_wait : Histogram;
}.

Definition ActiveIndex_default : ActiveIndex :=
  mkActiveIndex ∅ ∅ ∅ ∅ ∅ false (Histogram_new DELAY_BOUNDS) (Histogram_new DELAY_BOUNDS).

Definition is_awaiting_event (s : State) : bool :=
  st_eqb (state_type s) Paused && (state_name s =?s "AwaitingEvent").

(** ** Field updates *)

Definition set_active (m : gmap Z ActiveRun) (x : ActiveIndex) : ActiveIndex :=
  mkActiveIndex m (by_flow x) (task_by_state x) (flow_projects x) (awaiting_event x)
    (has_event_waiters x) (start_delay x) (resource_wait x).
Definition set_by_flow (m : gmap Z (gmap StateType Z)) (x : ActiveIndex) : ActiveIndex :=
  mkActiveIndex (active x) m (task_by_state x) (flow_projects x) (awaiting_event x)
    (has_event_waiters x) (start_delay x) (resource_wait x).
Definition set_task_by_state (m : gmap StateType Z) (x : ActiveIndex) : ActiveIndex :=
  mkActiveIndex (active x) (by_flow x) m (flow_projects x) (awaiting_event x)
    (has_event_waiters x) (start_delay x) (resource_wait x).
Definition set_projects (m : gmap Z string) (x : ActiveIndex) : ActiveIndex :=
  mkActiveIndex (active x) (by_flow x) (task_by_state x) m (awaiting_event x)
    (has_event_waiters x) (start_delay x) (resource_wait x).
Definition set_waiters (s : gset Z) (flag : bool) (x : ActiveIndex) : ActiveIndex :=
  mkActiveIndex (active x) (by_flow x) (task_by_state x) (flow_projects x) s flag
    (start_delay x) (resource_wait x).
Definition set_histograms (sd rw_ : Histogram) (x : ActiveIndex) : ActiveIndex :=
  mkActiveIndex (active x) (by_flow x) (task_by_state x) (flow_projects x) (awaiting_event x)
    (has_event_waiters x) sd rw_.

(** An entry, zero when absent, plus [n]. *)
Definition add_count {K} `{Countable K} (k : K) (n : Z) (m : gmap K Z) : gmap K Z :=
  <[k := default 0 (m !! k) + n]> m.
(** An entry, zero when absent, minus [d] but not below zero. *)
Definition sub_count {K} `{Countable K} (k : K) (d : Z) (m : gmap K Z) : gmap K Z :=
  <[k := Z.max (default 0 (m !! k) - d) 0]> m.

Definition flow_counts (f : Z) (x : ActiveIndex) : gmap StateType Z := default ∅ (by_flow x !! f).
Definition set_flow_counts (f : Z) (m : gmap StateType Z) (x : ActiveIndex) : ActiveIndex :=
  set_by_flow (<[f := m]> (by_flow x)) x.

(** ** Operations *)

(** The fast-path flag is only written here, with the set. *)
Definition set_waiting (run_id : Z) (waiting : bool) (x : ActiveIndex) : ActiveIndex :=
  let s := if waiting then {[run_id]} ∪ awaiting_event x else awaiting_event x ∖ {[run_id]} in
  set_waiters s (negb (bool_decide (s = ∅))) x.

Definition load_counts (runs : list (Z * string * Z)) (task_runs : list (string * Z))
    (projects : list (Z * string)) (x : ActiveIndex) : ActiveIndex :=
  let bf := fold_left (λ m '(f, state, n),
      match StateType_parse state with
      | Some t => <[f := add_count t n (default ∅ (m !! f))]> m
      | None => m
      end) runs ∅ in
  let ts := fold_left (λ m '(state, n),
      match StateType_parse state with
      | Some t => add_count t n m
      | None => m
      end) task_runs ∅ in
  set_projects (fold_left (λ m '(f, p), <[f := p]> m) projects ∅)
    (set_task_by_state ts (set_by_flow bf x)).

Definition set_flow_project (f : Z) (project : string) (x : ActiveIndex) : ActiveIndex :=
  set_projects (<[f := project]> (flow_projects x)) x.

Definition clear_active (x : ActiveIndex) : ActiveIndex :=
  set_waiters ∅ false (set_active ∅ x).

(** [for id in ids { self.set_waiting(id, false) }] *)
Definition stop_waiting (ids : list Z) (x : ActiveIndex) : ActiveIndex :=
  fold_left (λ x id, set_waiting id false x) ids x.

Definition remove_flow (f : Z) (x : ActiveIndex) : ActiveIndex :=
  let x := set_projects (delete f (flow_projects x)) x in
  let x := set_by_flow (delete f (by_flow x)) x in
  let dropped := (map_to_list (filter (λ kv, ar_flow_id kv.2 = f) (active x))).*1 in
  let x := set_active (filter (λ kv, ar_flow_id kv.2 ≠ f) (active x)) x in
  stop_waiting dropped x.

Definition new_entry (inst : Z) (run : Run) (key : EngineKey) (adopted : bool) : ActiveRun :=
  let cancelling := st_eqb (state_type (run_state run)) Cancelling in
  {| ar_id := run_id run; ar_flow_id := run_flow_id run; ar_name := run_name run;
     ar_state := run_state run; ar_engine_pid := wrap_u32 <$> run_engine_pid run;
     ar_engine_id := run_engine_id run; ar_last_heartbeat := inst;
     ar_cancel_requested := cancelling;
     ar_cancelling_since := if cancelling then Some inst else None;
     ar_terminated_at := None; ar_key := key; ar_adopted := adopted |}.

Definition insert_run (inst : Z) (run : Run) (key : EngineKey) (adopted : bool) (x : ActiveIndex)
    : ActiveIndex :=
  let f := run_flow_id run in
  let x := set_flow_counts f (add_count (state_type (run_state run)) 1 (flow_counts f x)) x in
  if State_is_terminal (run_state run) then x
  else
    let x := set_active (<[run_id run := new_entry inst run key adopted]> (active x)) x in
    if is_awaiting_event (run_state run) then set_waiting (run_id run) true x else x.

Definition adopt_run (inst : Z) (run : Run) (key : EngineKey) (x : ActiveIndex) : ActiveIndex :=
  let x := set_active (<[run_id run := new_entry inst run key true]> (active x)) x in
  if is_awaiting_event (run_state run) then set_waiting (run_id run) true x else x.

Definition seconds_since (now t : Z) : f64 := f64_div (f64_of_Z (i64_sub now t)) f64_million.

(** The delay metrics of a transition. *)
Definition observe_transition (now : Z) (run : Run) (previous : option State) (x : ActiveIndex)
    : ActiveIndex :=
  let sd :=
    match previous, run_scheduled_time run with
    | Some p, Some scheduled =>
        if st_eqb (state_type (run_state run)) Running && negb (st_eqb (state_type p) Running)
        then observe (seconds_since now scheduled) (start_delay x) else start_delay x
    | _, _ => start_delay x
    end in
  let rw_ :=
    match previous with
    | Some p =>
        if (state_name p =?s "AwaitingResource")
           && negb (state_name (run_state run) =?s "AwaitingResource")
        then observe (seconds_since now (state_timestamp p)) (resource_wait x) else resource_wait x
    | None => resource_wait x
    end in
  set_histograms sd rw_ x.

(** The entry of a run after a non-terminal transition. *)
Definition move_entry (inst : Z) (run : Run) (a : ActiveRun) : ActiveRun :=
  let cancelling := st_eqb (state_type (run_state run)) Cancelling in
  {| ar_id := ar_id a; ar_flow_id := ar_flow_id a; ar_name := ar_name a;
     ar_state := run_state run;
     ar_engine_pid := or_else (wrap_u32 <$> run_engine_pid run) (ar_engine_pid a);
     ar_engine_id := ar_engine_id a; ar_last_heartbeat := ar_last_heartbeat a;
     ar_cancel_requested := cancelling || ar_cancel_requested a;
     ar_cancelling_since :=
       if cancelling then or_else (ar_cancelling_since a) (Some inst) else ar_cancelling_since a;
     ar_terminated_at := ar_terminated_at a; ar_key := ar_key a; ar_adopted := ar_adopted a |}.

Definition transition (now inst : Z) (run : Run) (previous : option State) (x : ActiveIndex)
    : ActiveIndex :=
  let x := observe_transition now run previous x in
  let f := run_flow_id run in
  let fc := flow_counts f x in
  let fc := match previous with Some prev => sub_count (state_type prev) 1 fc | None => fc end in
  let x := set_flow_counts f (add_count (state_type (run_state run)) 1 fc) x in
  if State_is_terminal (run_state run) then
    set_waiting (run_id run) false (set_active (delete (run_id run) (active x)) x)
  else
    let x := set_waiting (run_id run) (is_awaiting_event (run_state run)) x in
    set_active (alter (move_entry inst run) (run_id run) (active x)) x.

Definition drop_run (x : ActiveIndex) (id : Z) : ActiveIndex :=
  set_waiting id false (set_active (delete id (active x)) x).

Definition bulk_terminal (f : Z) (run_ids : list Z) (previous next : StateType) (x : ActiveIndex)
    : ActiveIndex :=
  let n := Z.of_nat (length run_ids) in
  let x := set_flow_counts f (add_count next n (sub_count previous n (flow_counts f x))) x in
  fold_left drop_run run_ids x.

Definition remove_run (run_id : Z) (state : option State) (f : Z) (x : ActiveIndex) : ActiveIndex :=
  let x := drop_run x run_id in
  match state with
  | Some s =>
      match by_flow x !! f with
      | Some m =>
          match m !! state_type s with
          | Some n => set_flow_counts f (<[state_type s := Z.max (n - 1) 0]> m) x
          | None => x
          end
      | None => x
      end
  | None => x
  end.

Definition task_run_transition (previous : option StateType) (next : StateType) (x : ActiveIndex)
    : ActiveIndex :=
  let m := match previous with
           | Some p => sub_count p 1 (task_by_state x)
           | None => task_by_state x
           end in
  set_task_by_state (add_count next 1 m) x.

Definition update (run_id : Z) (f : ActiveRun → ActiveRun) (x : ActiveIndex) : ActiveIndex * bool :=
  match active x !! run_id with
  | None => (x, false)
  | Some r =>
      let r' := f r in
      (set_waiting run_id (is_awaiting_event (ar_state r'))
         (set_active (<[run_id := r']> (active x)) x), true)
  end.

Definition set_heartbeat (inst : Z) (a : ActiveRun) : ActiveRun :=
  mkActiveRun (ar_id a) (ar_flow_id a) (ar_name a) (ar_state a) (ar_engine_pid a) (ar_engine_id a)
    inst (ar_cancel_requested a) (ar_cancelling_since a) (ar_terminated_at a) (ar_key a)
    (ar_adopted a).

Definition heartbeat (inst run_id : Z) (x : ActiveIndex) : ActiveIndex * option bool :=
  match active x !! run_id with
  | None => (x, None)
  | Some r => (set_active (<[run_id := set_heartbeat inst r]> (active x)) x,
               Some (ar_cancel_requested r))
  end.

(** ** Queries *)

Definition get (run_id : Z) (x : ActiveIndex) : option ActiveRun := active x !! run_id.
Definition active_runs (x : ActiveIndex) : list ActiveRun := (map_to_list (active x)).*2.
Definition active_runs_in (types : list StateType) (x : ActiveIndex) : list ActiveRun :=
  filter (λ r, state_type (ar_state r) ∈ types) (active_runs x).
Definition active_runs_for_flow (f : Z) (x : ActiveIndex) : list ActiveRun :=
  filter (λ r, ar_flow_id r = f) (active_runs x).
Definition active_runs_by_flow (x : ActiveIndex) : gmap Z (list ActiveRun) :=
  fold_left (λ m r, <[ar_flow_id r := default [] (m !! ar_flow_id r) ++ [r]]> m) (active_runs x) ∅.
Definition awaiting_event_ids (x : ActiveIndex) : list Z := elements (awaiting_event x).
Definition awaiting_event_count (x : ActiveIndex) : Z := Z.of_nat (size (awaiting_event x)).

Definition in_project (project : option string) (f : Z) (x : ActiveIndex) : bool :=
  match project with
  | Some p => bool_decide (flow_projects x !! f = Some p)
  | None => true
  end.

(** [runs.entry(t).or_insert(0)] *)
Definition ensure {K} `{Countable K} (m : gmap K Z) (k : K) : gmap K Z :=
  <[k := default 0 (m !! k)]> m.

Definition runs_by_state (project : option string) (x : ActiveIndex) : gmap StateType Z :=
  let runs := fold_left (λ acc '(f, per_state),
      if in_project project f x
      then fold_left (λ acc '(t, n), add_count t n acc) (map_to_list per_state) acc
      else acc) (map_to_list (by_flow x)) ∅ in
  fold_left ensure StateType_ALL runs.

Definition sum_values (m : gmap StateType Z) : Z :=
  fold_left (λ acc kv, acc + kv.2) (map_to_list m) 0.

Definition run_totals_by_project (x : ActiveIndex) : gmap string Z :=
  fold_left (λ totals '(f, per_state),
    match flow_projects x !! f with
    | None => totals
    | Some project => add_count project (sum_values per_state) totals
    end) (map_to_list (by_flow x)) ∅.

Definition active_count (project : option string) (x : ActiveIndex) : Z :=
  Z.of_nat (length (List.filter (λ r, in_project project (ar_flow_id r) x) (active_runs x))).

Record Counts : Type := mkCounts {
  cn_runs : gmap string Z;
  cn_flows : gmap string (gmap string Z);
  cn_task_runs : gmap string Z;
  cn_active : Z;
}.

Definition named_counts (m : gmap StateType Z) : gmap string Z :=
  list_to_map ((λ kv, (StateType_as_str kv.1, kv.2)) <$> map_to_list m).

Definition counts (project : option string) (x : ActiveIndex) : Counts :=
  let included := List.filter (λ fp, in_project project fp.1 x) (map_to_list (by_flow x)) in
  let runs := fold_left (λ acc '(f, per_state),
      fold_left (λ acc '(t, n), add_count (StateType_as_str t) n acc) (map_to_list per_state) acc)
      included ∅ in
  {| cn_runs := fold_left ensure (StateType_as_str <$> StateType_ALL) runs;
     cn_flows := list_to_map ((λ fp, (dec fp.1, named_counts fp.2)) <$> included);
     cn_task_runs := named_counts (task_by_state x);
     cn_active := active_count project x |}.

(** ** The rows the index mirrors

    The abstract state is the run table: each run's flow and current state. *)

Abbreviation rows := (gmap Z (Z * State)).

Definition in_cell (f : Z) (t : StateType) (r : Z * State) : Prop :=
  r.1 = f ∧ state_type r.2 = t.
#[local] Instance in_cell_dec f t r : Decision (in_cell f t r).
Proof. rw /in_cell. apply _. Defined.

(** The number of runs of a flow in a state type. *)
Definition cnt (rs : rows) (f : Z) (t : StateType) : Z :=
  Z.of_nat (size (filter (λ kv, in_cell f t kv.2) rs)).

Definition cell (f : Z) (t : StateType) (r : Z * State) : Z :=
  if decide (in_cell f t r) then 1 else 0.

(** What the index should hold for a run. *)
Definition row_view (rs : rows) (id : Z) : option (Z * Z * State) :=
  match rs !! id with
  | Some (f, s) => if State_is_terminal s then None else Some (id, f, s)
  | None => None
  end.
Definition entry_view (a : ActiveRun) : Z * Z * State := (ar_id a, ar_flow_id a, ar_state a).

Definition counter (x : ActiveIndex) (f : Z) (t : StateType) : Z := default 0 (flow_counts f x !! t).

Definition row_awaits (rs : rows) (id : Z) : Prop :=
  ∃ f s, rs !! id = Some (f, s) ∧ is_awaiting_event s = true.

Record mirrors (x : ActiveIndex) (rs : rows) : Prop := {
  m_counts : ∀ f t, counter x f t = cnt rs f t;
  m_active : ∀ id, entry_view <$> active x !! id = row_view rs id;
  m_waiting : ∀ id, id ∈ awaiting_event x ↔ row_awaits rs id;
  m_flag : has_event_waiters x = negb (bool_decide (awaiting_event x = ∅));
}.

(** *** Counting rows *)

Lemma cnt_insert_new rs id r f t :
  rs !! id = None → cnt (<[id := r]> rs) f t = cnt rs f t + cell f t r.
Proof.
  intros Hn. rw /cnt /cell map_filter_insert. simpl. case_decide.
  - rw map_size_insert_None; [by rw Nat2Z.inj_succ|]. apply map_lookup_filter_None. by left.
  - rw delete_id //. by rw Z.add_0_r.
Qed.

Lemma cnt_delete rs id r f t :
  rs !! id = Some r → cnt (delete id rs) f t = cnt rs f t - cell f t r.
Proof.
  intros Hr. rw -{2}(insert_delete_id rs id r Hr) cnt_insert_new; [lia|]. by rw lookup_delete_eq.
Qed.

Lemma cnt_update rs id r r' f t :
  rs !! id = Some r → cnt (<[id := r']> rs) f t = cnt rs f t - cell f t r + cell f t r'.
Proof.
  intros Hr. rw -insert_delete_eq cnt_insert_new; [|by rw lookup_delete_eq]. by rw (cnt_delete _ _ r).
Qed.

Lemma cell_bounds f t r : 0 ≤ cell f t r ≤ 1.
Proof. rw /cell. case_decide; lia. Qed.

Lemma cnt_lower rs id r f t : rs !! id = Some r → cell f t r ≤ cnt rs f t.
Proof. intros Hr. pose proof (cnt_delete rs id r f t Hr). rw /cnt in H |- *. lia. Qed.

(** *** Counters *)

Lemma add_count_lookup {K} `{Countable K} (k k' : K) n (m : gmap K Z) :
  default 0 (add_count k n m !! k') = default 0 (m !! k') + (if decide (k = k') then n else 0).
Proof. rw /add_count lookup_insert. case_decide as E; subst; simpl; [done|lia]. Qed.

Lemma sub_count_lookup {K} `{Countable K} (k k' : K) n (m : gmap K Z) :
  default 0 (sub_count k n m !! k') =
  if decide (k = k') then Z.max (default 0 (m !! k') - n) 0 else default 0 (m !! k').
Proof. rw /sub_count lookup_insert. case_decide as E; by subst. Qed.

Lemma counter_set f m x f' t :
  counter (set_flow_counts f m x) f' t =
  if decide (f = f') then default 0 (m !! t) else counter x f' t.
Proof.
  rw /counter /flow_counts /set_flow_counts /= lookup_insert. case_decide as E; by subst.
Qed.

Lemma cell_pair f t f' s : cell f t (f', s) = if decide (f' = f) then
  (if decide (state_type s = t) then 1 else 0) else 0.
Proof. rw /cell /in_cell /=. repeat case_decide; naive_solver. Qed.

(** *** Waiting runs *)

Lemma set_waiting_flag id w x :
  has_event_waiters (set_waiting id w x) =
  negb (bool_decide (awaiting_event (set_waiting id w x) = ∅)).
Proof. done. Qed.

Lemma elem_of_set_waiting id w x id' :
  id' ∈ awaiting_event (set_waiting id w x) ↔
  if decide (id' = id) then w = true else id' ∈ awaiting_event x.
Proof. rw /set_waiting /=. destruct w; case_decide; set_solver. Qed.

Lemma row_awaits_insert rs id f s id' :
  row_awaits (<[id := (f, s)]> rs) id' ↔
  if decide (id' = id) then is_awaiting_event s = true else row_awaits rs id'.
Proof.
  rw /row_awaits lookup_insert. repeat case_decide; subst; try done.
  split; [by intros (? & ? & [= <- <-] & ?)|eauto].
Qed.

Lemma row_awaits_delete rs id id' : row_awaits (delete id rs) id' ↔ id' ≠ id ∧ row_awaits rs id'.
Proof. rw /row_awaits lookup_delete. case_decide; naive_solver. Qed.

Lemma row_view_insert rs id f s id' :
  row_view (<[id := (f, s)]> rs) id' =
  if decide (id' = id) then (if State_is_terminal s then None else Some (id, f, s))
  else row_view rs id'.
Proof. rw /row_view lookup_insert. repeat case_decide; by subst. Qed.

Lemma row_view_delete rs id id' :
  row_view (delete id rs) id' = if decide (id' = id) then None else row_view rs id'.
Proof. rw /row_view lookup_delete. repeat case_decide; by subst. Qed.

Lemma awaiting_not_terminal s : is_awaiting_event s = true → State_is_terminal s = false.
Proof.
  rw /is_awaiting_event /State_is_terminal. intros [H%st_eqb_eq _]%andb_true_iff. by rw H.
Qed.

(** *** Each operation keeps the mirror *)

Lemma mirrors_init : mirrors ActiveIndex_default ∅.
Proof.
  split; simpl; [|done| |by rw bool_decide_eq_true_2].
  - intros f t. rw /counter /flow_counts /cnt /= lookup_empty map_filter_empty map_size_empty //.
  - intros id. rw /row_awaits. set_solver.
Qed.

Lemma mirrors_insert inst run key adopted x rs :
  mirrors x rs → rs !! run_id run = None →
  mirrors (insert_run inst run key adopted x) (<[run_id run := (run_flow_id run, run_state run)]> rs).
Proof.
  intros [Hc Ha Hw Hf] Hn. rw /insert_run.
  set (x1 := set_flow_counts _ _ x).
  assert (Hc1 : ∀ f t, counter x1 f t = cnt (<[run_id run := (run_flow_id run, run_state run)]> rs) f t).
  { intros f t. rw cnt_insert_new // cell_pair -Hc /x1 counter_set add_count_lookup.
    repeat case_decide; subst; rw ?/counter; lia. }
  assert (Hnw : run_id run ∉ awaiting_event x).
  { rw Hw. intros (f & s & Hr & _). congruence. }
  destruct (State_is_terminal (run_state run)) eqn:Et.
  - split; [done| | |done].
    + intros id. rw row_view_insert Et /= Ha. destruct (decide (id = run_id run)) as [->|]; [|done]. by rw /row_view Hn.
    + intros id. rw row_awaits_insert /=. destruct (decide (id = run_id run)) as [->|]; [|apply Hw].
      split; [done|]. intros Haw%awaiting_not_terminal. congruence.
  - destruct (is_awaiting_event (run_state run)) eqn:Ea.
    + split; [done| | |done].
      * intros id. rw row_view_insert Et /= lookup_insert. repeat case_decide; subst; by rw ?Ha.
      * intros id. rw row_awaits_insert elem_of_set_waiting /= Ea.
        destruct (decide (id = run_id run)); [done|apply Hw].
    + split; [done| | |done].
      * intros id. rw row_view_insert Et /= lookup_insert. repeat case_decide; subst; by rw ?Ha.
      * intros id. rw row_awaits_insert Ea /=. destruct (decide (id = run_id run)) as [->|]; [done|apply Hw].
Qed.

(** The counters after a transition between two states of a flow. *)
Lemma transition_counter f p s x rs id :
  (∀ f t, counter x f t = cnt rs f t) → rs !! id = Some (f, p) →
  ∀ f' t, counter (set_flow_counts f (add_count (state_type s) 1
                     (sub_count (state_type p) 1 (flow_counts f x))) x) f' t
          = cnt (<[id := (f, s)]> rs) f' t.
Proof.
  intros Hc Hr f' t. pose proof (cnt_lower rs id (f, p) f' t Hr) as Hl.
  rw (cnt_update rs id (f, p)) // !cell_pair in Hl |- *.
  rw counter_set add_count_lookup sub_count_lookup -(Hc f' t) in Hl |- *.
  rw /counter in Hl |- *. repeat case_decide; subst; lia.
Qed.

Lemma mirrors_transition now inst run p x rs :
  mirrors x rs → rs !! run_id run = Some (run_flow_id run, p) →
  State_is_terminal p = false ∨ State_is_terminal (run_state run) = true →
  mirrors (transition now inst run (Some p) x)
          (<[run_id run := (run_flow_id run, run_state run)]> rs).
Proof.
  intros [Hc Ha Hw Hf] Hr Ht. rw /transition.
  pose proof (transition_counter (run_flow_id run) p (run_state run)
    (observe_transition now run (Some p) x) rs (run_id run) Hc Hr) as Hc1.
  destruct (State_is_terminal (run_state run)) eqn:Et.
  - split; [done| | |done].
    + intros id. rw row_view_insert Et /= lookup_delete. repeat case_decide; subst; by rw ?Ha.
    + intros id. rw row_awaits_insert elem_of_set_waiting /=.
      destruct (decide (id = run_id run)); [|apply Hw]. split; [done|]. intros Haw%awaiting_not_terminal. congruence.
  - destruct Ht as [Htp|]; [|done]. split; [done| | |done].
    + clear Hf. intros id. rw row_view_insert Et /= lookup_alter.
      repeat case_decide; subst; rw ?Ha //.
      specialize (Ha (run_id run)). rw /row_view Hr Htp in Ha.
      destruct (active x !! run_id run) as [a|]; simpl in Ha |- *; [|done].
      injection Ha as Hi Hfl Hs. rw /entry_view /= Hi Hfl //.
    + intros id. rw row_awaits_insert elem_of_set_waiting /=.
      destruct (decide (id = run_id run)); [done|apply Hw].
Qed.

Lemma drop_run_frame x id :
  by_flow (drop_run x id) = by_flow x ∧ active (drop_run x id) = delete id (active x) ∧
  awaiting_event (drop_run x id) = awaiting_event x ∖ {[id]}.
Proof. done. Qed.

Lemma drop_runs_frame ids x :
  let x' := fold_left drop_run ids x in
  by_flow x' = by_flow x ∧
  (∀ id, active x' !! id = (if decide (id ∈ ids) then None else active x !! id)) ∧
  (∀ id, (id ∈ awaiting_event x') ↔ (¬ (id ∈ ids) ∧ id ∈ awaiting_event x)) ∧
  (has_event_waiters x = negb (bool_decide (awaiting_event x = ∅)) →
   has_event_waiters x' = negb (bool_decide (awaiting_event x' = ∅))).
Proof.
  revert x; induction ids as [|i ids IH]; intros x; [|simpl].
  { split_and!; [done| |set_solver|done]. intros id. by case_decide; [set_solver|]. }
  destruct (IH (drop_run x i)) as (H1 & H2 & H3 & H4). split_and!.
  - by rw H1.
  - intros id. rw H2 /= lookup_delete.
    destruct (decide (id ∈ ids)); [rw decide_True //; set_solver|].
    destruct (decide (i = id)) as [->|]; [rw decide_True //; set_solver|rw decide_False //; set_solver].
  - intros id. rw H3 /=. set_solver.
  - intros _. by apply H4.
Qed.

Lemma mirrors_remove id s f x rs :
  mirrors x rs → rs !! id = Some (f, s) → mirrors (remove_run id (Some s) f x) (delete id rs).
Proof.
  intros [Hc Ha Hw Hf] Hr. rw /remove_run /=.
  assert (Hcnt : counter x f (state_type s) = cnt rs f (state_type s)) by done.
  pose proof (cnt_lower rs id (f, s) f (state_type s) Hr) as Hl.
  rw cell_pair !decide_True // -Hcnt /counter /flow_counts in Hl.
  destruct (by_flow x !! f) as [m|] eqn:Em; simpl in Hl; [|rw lookup_empty in Hl; simpl in Hl; lia].
  destruct (m !! state_type s) as [n|] eqn:En; simpl in Hl; [|lia].
  split; [| | |done].
  - intros f' t. rw (cnt_delete rs id (f, s)) // cell_pair counter_set -(Hc f' t).
    rw lookup_insert /counter /flow_counts.
    destruct (decide (f = f')) as [<-|]; [|simpl; lia]. rw Em /=.
    destruct (decide (state_type s = t)) as [<-|]; [rw En /=|]; simpl; lia.
  - intros id'. rw row_view_delete -Ha /= lookup_delete. repeat case_decide; by subst.
  - intros id'. rw row_awaits_delete -Hw /=. set_solver.
Qed.

(** A bulk move is the runs' transitions taken together. *)
Definition bulk_rows (f : Z) (ids : list Z) (st : State) (rs : rows) : rows :=
  fold_left (λ rs id, <[id := (f, st)]> rs) ids rs.

Lemma bulk_rows_lookup f ids st rs id :
  bulk_rows f ids st rs !! id = if decide (id ∈ ids) then Some (f, st) else rs !! id.
Proof.
  revert rs; induction ids as [|i ids IH]; intros rs; simpl.
  { by destruct (decide (id ∈ [])); [set_solver|]. }
  rw IH lookup_insert. destruct (decide (id ∈ ids)); [rw decide_True //; set_solver|].
  destruct (decide (i = id)) as [->|]; [rw decide_True //; set_solver|rw decide_False //; set_solver].
Qed.

Lemma cnt_bulk f ids st p rs :
  NoDup ids → (∀ id, id ∈ ids → ∃ s, rs !! id = Some (f, s) ∧ state_type s = p) →
  ∀ f' t, cnt (bulk_rows f ids st rs) f' t =
    cnt rs f' t + (if decide (f = f') then
      (if decide (state_type st = t) then Z.of_nat (length ids) else 0)
      - (if decide (p = t) then Z.of_nat (length ids) else 0) else 0).
Proof.
  intros Hnd. revert rs; induction Hnd as [|i ids Hi Hnd IH]; intros rs Hids f' t; simpl.
  { repeat case_decide; lia. }
  destruct (Hids i) as (s & Hs & Hp); [set_solver|].
  rw IH.
  - rw (cnt_update rs i (f, s)) // !cell_pair Hp. repeat case_decide; subst; lia.
  - intros id Hid. destruct (Hids id) as (s' & Hs' & Hp'); [set_solver|]. exists s'.
    rw lookup_insert_ne; [done|set_solver].
Qed.

Lemma cnt_bulk_lower f ids p rs :
  NoDup ids → (∀ id, id ∈ ids → ∃ s, rs !! id = Some (f, s) ∧ state_type s = p) →
  Z.of_nat (length ids) ≤ cnt rs f p.
Proof.
  intros Hnd Hids.
  set (st := State_new 0 (if decide (p = Completed) then Failed else Completed)).
  assert (Hst : state_type st ≠ p) by (rw /st /=; case_decide; naive_solver).
  pose proof (cnt_bulk f ids st _ rs Hnd Hids f p) as H.
  destruct (decide (f = f)); [|done]. destruct (decide (state_type st = p)); [done|].
  destruct (decide (p = p)); [|done]. rw /cnt in H |- *. lia.
Qed.

Lemma mirrors_bulk f ids p st x rs :
  mirrors x rs → NoDup ids → State_is_terminal st = true →
  (∀ id, id ∈ ids → ∃ s, rs !! id = Some (f, s) ∧ state_type s = p) →
  mirrors (bulk_terminal f ids p (state_type st) x) (bulk_rows f ids st rs).
Proof.
  intros [Hc Ha Hw Hf] Hnd Ht Hids. rw /bulk_terminal.
  set (x1 := set_flow_counts f _ x).
  destruct (drop_runs_frame ids x1) as (H1 & H2 & H3 & H4). split.
  - intros f' t. rw /counter /flow_counts H1 -/(flow_counts f' x1) -/(counter x1 f' t).
    rw (cnt_bulk f ids st p rs Hnd Hids) /x1 counter_set add_count_lookup sub_count_lookup -Hc.
    pose proof (cnt_bulk_lower f ids p rs Hnd Hids) as Hl. rw -Hc /counter in Hl |- *.
    clear -Hl. destruct (decide (f = f')) as [<-|]; [|lia].
    destruct (decide (p = t)) as [<-|]; case_decide; lia.
  - intros id. rw H2 /row_view bulk_rows_lookup. destruct (decide (id ∈ ids)); [by rw /= Ht|apply Ha].
  - intros id. rw H3 Hw /row_awaits bulk_rows_lookup. destruct (decide (id ∈ ids)) as [Hin|Hin].
    + split; [naive_solver|]. intros (? & ? & [= <- <-] & Haw%awaiting_not_terminal). congruence.
    + naive_solver.
  - by apply H4.
Qed.

Lemma stop_waiting_frame ids x :
  let x' := stop_waiting ids x in
  by_flow x' = by_flow x ∧ active x' = active x ∧
  (∀ id, (id ∈ awaiting_event x') ↔ (¬ (id ∈ ids) ∧ id ∈ awaiting_event x)) ∧
  (has_event_waiters x = negb (bool_decide (awaiting_event x = ∅)) →
   has_event_waiters x' = negb (bool_decide (awaiting_event x' = ∅))).
Proof.
  revert x; induction ids as [|i ids IH]; intros x; [split_and!; [done|done|set_solver|done]|].
  simpl. destruct (IH (set_waiting i false x)) as (H1 & H2 & H3 & H4). split_and!.
  - by rw H1.
  - by rw H2.
  - clear -H3. intros id. rw H3 elem_of_set_waiting elem_of_cons.
    destruct (decide (id = i)) as [->|]; naive_solver.
  - intros _. by apply H4.
Qed.

Definition drop_flow (f : Z) (rs : rows) : rows := filter (λ kv, kv.2.1 ≠ f) rs.

Lemma cnt_drop_flow f rs f' t :
  cnt (drop_flow f rs) f' t = if decide (f = f') then 0 else cnt rs f' t.
Proof.
  rw /cnt /drop_flow map_filter_filter. destruct (decide (f = f')) as [->|Hne].
  - rw map_empty_filter_2; [by rw map_size_empty|].
    intros id [f0 s] _ [Hin Hd]. by destruct Hin.
  - do 2 f_equal. apply map_filter_ext. intros id [f0 s] _. rw /in_cell /=. naive_solver.
Qed.

Lemma drop_flow_lookup f rs id :
  drop_flow f rs !! id = match rs !! id with
                         | Some (f', s) => if decide (f' = f) then None else Some (f', s)
                         | None => None
                         end.
Proof.
  rw /drop_flow map_lookup_filter. destruct (rs !! id) as [[f' s]|]; simpl; [|done].
  destruct (decide (f' = f)); case_guard; naive_solver.
Qed.

Lemma mirrors_remove_flow f x rs :
  mirrors x rs → mirrors (remove_flow f x) (drop_flow f rs).
Proof.
  intros [Hc Ha Hw Hf]. rw /remove_flow.
  set (x1 := set_active _ _). set (dropped := fmap fst _).
  assert (Hd : ∀ id, id ∈ dropped ↔ ∃ s, row_view rs id = Some (id, f, s)).
  { intros id. rw /dropped list_elem_of_fmap. split.
    - intros ([id' a] & -> & Hin%elem_of_map_to_list). apply map_lookup_filter_Some in Hin as [Hin Hfl].
      simpl in *. specialize (Ha id'). rw Hin /= in Ha. exists (ar_state a). rw -Ha /entry_view.
      rw /row_view in Ha. destruct (rs !! id') as [[f' s]|]; [|done]. case_match; [done|].
      injection Ha as -> ? ?. by rw Hfl.
    - intros [s Hs]. rw -Ha in Hs. apply fmap_Some in Hs as (a & Hin & Hv).
      injection Hv as Hi Hfl Hs. exists (id, a). split; [done|]. apply elem_of_map_to_list.
      by apply map_lookup_filter_Some. }
  destruct (stop_waiting_frame dropped x1) as (H1 & H2 & H3 & H4). split.
  - intros f' t. rw /counter /flow_counts H1 cnt_drop_flow /= lookup_delete.
    destruct (decide (f = f')) as [<-|]; [by rw lookup_empty|]. apply Hc.
  - intros id. rw H2 /= map_lookup_filter /row_view drop_flow_lookup.
    specialize (Ha id). rw /row_view in Ha.
    destruct (active x !! id) as [a|]; destruct (rs !! id) as [[f' s]|]; simpl in *; [|done| |done].
    + destruct (State_is_terminal s) eqn:Et; [done|]. injection Ha as Hi <- Hs. case_guard; simpl.
      * destruct (decide (ar_flow_id a = f)); [done|]. by rw Et /entry_view Hi Hs.
      * by destruct (decide (ar_flow_id a = f)).
    + destruct (State_is_terminal s) eqn:Et; [|done]. by destruct (decide (f' = f)); rw ?Et.
  - intros id. rw H3 Hd /= Hw /row_awaits drop_flow_lookup /row_view. split.
    + intros [Hn (f' & s & Hr & Haw)]. rw Hr in Hn |- *. exists f', s. split; [|done].
      apply awaiting_not_terminal in Haw. rw Haw in Hn.
      destruct (decide (f' = f)) as [->|]; [|done]. exfalso. eauto.
    + intros (f' & s & Hr & Haw). destruct (rs !! id) as [[f0 s0]|]; [|done].
      destruct (decide (f0 = f)); [done|]. injection Hr as -> ->. split; [|eauto].
      intros [s' Hs']. case_match; [done|]. congruence.
  - by apply H4.
Qed.

(** ** Reachable indexes *)

Inductive op : Type :=
| OpInsert (inst : Z) (run : Run) (key : EngineKey) (adopted : bool)
| OpTransition (now inst : Z) (run : Run) (previous : State)
| OpBulk (f : Z) (ids : list Z) (previous : StateType) (next : State)
| OpRemove (id : Z) (state : State) (f : Z)
| OpRemoveFlow (f : Z)
| OpUpdate (id : Z) (g : ActiveRun → ActiveRun)
| OpHeartbeat (inst id : Z)
| OpSetProject (f : Z) (project : string)
| OpTask (previous : option StateType) (next : StateType).

Definition exec (o : op) (x : ActiveIndex) : ActiveIndex :=
  match o with
  | OpInsert inst run key adopted => insert_run inst run key adopted x
  | OpTransition now inst run previous => transition now inst run (Some previous) x
  | OpBulk f ids previous next => bulk_terminal f ids previous (state_type next) x
  | OpRemove id state f => remove_run id (Some state) f x
  | OpRemoveFlow f => remove_flow f x
  | OpUpdate id g => (update id g x).1
  | OpHeartbeat inst id => (heartbeat inst id x).1
  | OpSetProject f project => set_flow_project f project x
  | OpTask previous next => task_run_transition previous next x
  end.

(** The change of the run table an operation reports. *)
Definition exec_rows (o : op) (rs : rows) : rows :=
  match o with
  | OpInsert _ run _ _ | OpTransition _ _ run _ =>
      <[run_id run := (run_flow_id run, run_state run)]> rs
  | OpBulk f ids _ next => bulk_rows f ids next rs
  | OpRemove id _ _ => delete id rs
  | OpRemoveFlow f => drop_flow f rs
  | _ => rs
  end.

(** The caller reports what happened to the table: new runs are new, previous
    states are the runs' states, a run leaves a terminal state only for another
    one (the transition rules refuse the rest unless forced), and an update
    leaves the run's identity and state alone. *)
Definition op_ok (o : op) (rs : rows) : Prop :=
  match o with
  | OpInsert _ run _ _ => rs !! run_id run = None
  | OpTransition _ _ run p =>
      rs !! run_id run = Some (run_flow_id run, p) ∧
      (State_is_terminal p = false ∨ State_is_terminal (run_state run) = true)
  | OpBulk f ids p next =>
      NoDup ids ∧ State_is_terminal next = true ∧
      ∀ id, id ∈ ids → ∃ s, rs !! id = Some (f, s) ∧ state_type s = p
  | OpRemove id s f => rs !! id = Some (f, s)
  | OpUpdate _ g => ∀ a, entry_view (g a) = entry_view a
  | _ => True
  end.

Inductive reachable : ActiveIndex → rows → Prop :=
| reach_init : reachable ActiveIndex_default ∅
| reach_step x rs o : reachable x rs → op_ok o rs → reachable (exec o x) (exec_rows o rs).

Lemma mirrors_entry x rs id a g :
  mirrors x rs → active x !! id = Some a → entry_view (g a) = entry_view a →
  (∀ id', entry_view <$> <[id := g a]> (active x) !! id' = row_view rs id') ∧
  (is_awaiting_event (ar_state (g a)) = true ↔ row_awaits rs id).
Proof.
  intros [Hc Ha Hw Hf] Hin Hg. split.
  - intros id'. rw lookup_insert -Ha. destruct (decide (id = id')) as [<-|]; [|done].
    by rw Hin /= Hg.
  - injection Hg as _ _ ->. specialize (Ha id). rw Hin /row_view /= in Ha. rw /row_awaits.
    destruct (rs !! id) as [[f s]|]; [|done]. case_match; [done|]. injection Ha as _ _ ->.
    naive_solver.
Qed.

Lemma mirrors_exec o x rs : mirrors x rs → op_ok o rs → mirrors (exec o x) (exec_rows o rs).
Proof.
  intros Hm Hok. destruct o as [inst run key adopted|now inst run p|f ids p next|id s f|f|id g|inst id
    |f project|p next]; simpl in *.
  - by apply mirrors_insert.
  - destruct Hok. by apply mirrors_transition.
  - destruct Hok as (? & ? & ?). by apply mirrors_bulk.
  - by apply mirrors_remove.
  - by apply mirrors_remove_flow.
  - rw /update. destruct (active x !! id) as [a|] eqn:E; [|done].
    destruct (mirrors_entry x rs id a g Hm E (Hok a)) as [H1 H2]. destruct Hm as [Hc Ha Hw Hf].
    split; [done|done| |done]. intros id'. rw elem_of_set_waiting /=.
    destruct (decide (id' = id)) as [->|]; [done|apply Hw].
  - rw /heartbeat. destruct (active x !! id) as [a|] eqn:E; [|done].
    destruct (mirrors_entry x rs id a (set_heartbeat inst) Hm E eq_refl) as [H1 _].
    destruct Hm as [Hc Ha Hw Hf]. by split.
  - by destruct Hm; split.
  - by destruct Hm; split.
Qed.

(** ** Sums over maps *)

(** The total of a key in an association list. *)
Fixpoint tot {K} `{EqDecision K} (k : K) (l : list (K * Z)) : Z :=
  match l with
  | [] => 0
  | (k', n) :: l' => (if decide (k' = k) then n else 0) + tot k l'
  end.

Lemma tot_absent {K} `{EqDecision K} (k : K) l : k ∉ l.*1 → tot k l = 0.
Proof.
  induction l as [|[k' n] l IH]; csimpl; [done|]. intros Hn.
  rw decide_False; [|set_solver]. rw IH; [done|set_solver].
Qed.

Lemma tot_map {K} `{Countable K} (k : K) (m : gmap K Z) : tot k (map_to_list m) = default 0 (m !! k).
Proof.
  assert (Hl : ∀ l : list (K * Z), NoDup l.*1 → ∀ n, (k, n) ∈ l → tot k l = n).
  { induction l as [|[k' n'] l IH]; [set_solver|]. csimpl. intros [Hk Hnd]%NoDup_cons n Hin.
    apply elem_of_cons in Hin as [[= <- <-]|Hin].
    - rw decide_True // tot_absent //. lia.
    - rw (IH Hnd n Hin). rw decide_False; [lia|]. intros ->. apply Hk.
      by apply (list_elem_of_fmap_2 fst) in Hin. }
  destruct (m !! k) as [n|] eqn:E; simpl.
  - apply Hl; [apply NoDup_fst_map_to_list|by apply elem_of_map_to_list].
  - apply tot_absent. intros ([k' n] & -> & Hin%elem_of_map_to_list)%list_elem_of_fmap. simpl in E.
    congruence.
Qed.

Lemma fold_add_lookup {K K'} `{Countable K, Countable K'} (g : K → K') `{!Inj (=) (=) g} l acc t :
  default 0 (fold_left (λ acc '(t, n), add_count (g t) n acc) l acc !! g t)
  = default 0 (acc !! g t) + tot t l.
Proof.
  revert acc; induction l as [|[k n] l IH]; intros acc; simpl; [lia|].
  rw IH add_count_lookup. destruct (decide (k = t)) as [->|Hne].
  - rw decide_True //. lia.
  - rw decide_False; [lia|]. intros ?. by apply Hne, (inj g).
Qed.

(** The count of a state over a list of flows. *)
Definition flow_sum (t : StateType) (l : list (Z * gmap StateType Z)) : Z :=
  foldr (λ fp acc, default 0 (fp.2 !! t) + acc) 0 l.

Lemma fold_flows_lookup {K'} `{Countable K'} (g : StateType → K') `{!Inj (=) (=) g} l acc t :
  default 0 (fold_left (λ acc '(f, per_state),
      fold_left (λ acc '(t, n), add_count (g t) n acc) (map_to_list per_state) acc)
    l acc !! g t)
  = default 0 (acc !! g t) + flow_sum t l.
Proof.
  revert acc; induction l as [|[f m] l IH]; intros acc; simpl; [lia|].
  rw IH fold_add_lookup tot_map. lia.
Qed.

Lemma fold_ensure_lookup {K} `{Countable K} (ks : list K) (m : gmap K Z) k :
  k ∈ ks → fold_left ensure ks m !! k = Some (default 0 (m !! k)).
Proof.
  assert (Hp : ∀ ks (m : gmap K Z) n, m !! k = Some n → fold_left ensure ks m !! k = Some n).
  { induction ks0 as [|k' ks' IH]; intros m' n Hk; simpl; [done|]. apply IH.
    rw /ensure lookup_insert. destruct (decide (k' = k)) as [->|]; [by rw Hk|done]. }
  intros Hk. revert m; induction Hk as [k ks|k k' ks Hk IH]; intros m; simpl.
  - apply Hp. by rw /ensure lookup_insert_eq.
  - rw IH //. rw /ensure lookup_insert. destruct (decide (k' = k)) as [->|]; done.
Qed.

Lemma fold_left_filter {A B} (p : B → bool) (f : A → B → A) l a :
  fold_left (λ acc b, if p b then f acc b else acc) l a = fold_left f (List.filter p l) a.
Proof. revert a; induction l as [|b l IH]; intros a; simpl; [done|]. by destruct (p b). Qed.

(** The flows a project filter keeps. *)
Definition included (project : option string) (x : ActiveIndex) : list (Z * gmap StateType Z) :=
  List.filter (λ fp, in_project project fp.1 x) (map_to_list (by_flow x)).

Lemma runs_by_state_lookup project x t :
  runs_by_state project x !! t = Some (flow_sum t (included project x)).
Proof.
  rw /runs_by_state.
  assert (∀ (l : list (Z * gmap StateType Z)) acc, fold_left (λ acc '(f, per_state), if in_project project f x
      then fold_left (λ acc '(t, n), add_count t n acc) (map_to_list per_state) acc else acc) l acc
    = fold_left (λ acc '(f, per_state),
        fold_left (λ acc '(t, n), add_count (id t) n acc) (map_to_list per_state) acc)
        (List.filter (λ fp, in_project project fp.1 x) l) acc) as Hl.
  { induction l as [|[f m] l IH]; intros acc; simpl; [done|]. by destruct (in_project project f x). }
  rw Hl fold_ensure_lookup; [|by destruct t; rw list_elem_of_In; simpl; tauto].
  by rw (fold_flows_lookup id).
Qed.

#[local] Instance StateType_as_str_inj : Inj (=) (=) StateType_as_str.
Proof. intros a b Hab. apply (f_equal StateType_parse) in Hab. rw !StateType_parse_as_str in Hab. naive_solver. Qed.

Lemma counts_runs_lookup project x t :
  cn_runs (counts project x) !! StateType_as_str t = Some (flow_sum t (included project x)).
Proof.
  rw /counts. cbn [cn_runs]. rw fold_ensure_lookup.
  - by rw (fold_flows_lookup StateType_as_str).
  - apply list_elem_of_fmap_2. by destruct t; rw list_elem_of_In; simpl; tauto.
Qed.

Definition sumZ (l : list Z) : Z := foldr Z.add 0 l.

Lemma sum_values_types m : sum_values m = sumZ ((λ t, default 0 (m !! t)) <$> StateType_ALL).
Proof.
  assert (Hl : ∀ l acc, fold_left (λ acc kv, acc + kv.2) l acc
                        = acc + sumZ ((λ t, tot t l) <$> StateType_ALL)).
  { induction l as [|[k n] l IH]; intros acc; [simpl; lia|].
    cbn [fold_left snd]. rw IH. cbn [StateType_ALL fmap list_fmap sumZ foldr tot].
    destruct k; repeat (rw decide_True // || rw decide_False //); simpl; lia. }
  rw /sum_values Hl Z.add_0_l. f_equal. apply list_fmap_ext. intros i t _. apply tot_map.
Qed.

Lemma flow_sum_total l :
  sumZ ((λ t, flow_sum t l) <$> StateType_ALL) = sumZ ((λ fp, sum_values fp.2) <$> l).
Proof.
  induction l as [|[f m] l IH]; [done|].
  assert (Hc : ∀ fp (l : list (Z * gmap StateType Z)),
    sumZ ((λ fp, sum_values fp.2) <$> fp :: l) = sum_values fp.2 + sumZ ((λ fp, sum_values fp.2) <$> l))
    by done.
  rw Hc -IH sum_values_types. simpl. lia.
Qed.

Lemma run_totals_lookup x p :
  default 0 (run_totals_by_project x !! p) = sumZ ((λ fp, sum_values fp.2) <$> included (Some p) x).
Proof.
  rw /run_totals_by_project /included.
  assert (Hl : ∀ (l : list (Z * gmap StateType Z)) acc, default 0 (fold_left (λ totals '(f, per_state),
      match flow_projects x !! f with
      | None => totals
      | Some project => add_count project (sum_values per_state) totals
      end) l acc !! p)
    = default 0 (acc !! p)
      + sumZ ((λ fp, sum_values fp.2) <$> List.filter (λ fp, in_project (Some p) fp.1 x) l)).
  { induction l as [|[f m] l IH]; intros acc; simpl; [lia|]. rw IH.
    destruct (flow_projects x !! f) as [q|].
    - rw add_count_lookup. destruct (decide (q = p)) as [->|Hne].
      + rw bool_decide_eq_true_2 //. rw -Z.add_assoc. done.
      + rw bool_decide_eq_false_2 //=; [lia|]. naive_solver.
    - rw bool_decide_eq_false_2 //. }
  by rw Hl lookup_empty.
Qed.

(** ** Theorems *)


Definition sample_key : EngineKey := mkEngineKey "" "etl" false 0.
Definition run_scheduled : Run := example_run 5 (State_new 0 Scheduled).
Definition run_running : Run := example_run 5 (State_new 1 Running).
Definition run_waiting : Run := example_run 5 (State_named 2 AwaitingEvent).


(** The projections the hot paths use agree with the full aggregate: the
    totals by state are the entries of [counts] under the state's name, and a
    project's total is the sum of its totals by state. *)
Theorem projections_agree x :
  (∀ project t, runs_by_state project x !! t = cn_runs (counts project x) !! StateType_as_str t) ∧
  (∀ p, default 0 (run_totals_by_project x !! p) =
        sumZ ((λ t, default 0 (runs_by_state (Some p) x !! t)) <$> StateType_ALL)).
Proof.
  split.
  - intros project t. by rw runs_by_state_lookup counts_runs_lookup.
  - intros p. rw run_totals_lookup -flow_sum_total. f_equal. apply list_fmap_ext.
    intros i t _. by rw runs_by_state_lookup.
Qed.
