(* ===== verification/Resources.v ===== *)
(** * Resource accounting (server/src/supervisor.rs)

    Named resources with totals (exact or by [*] pattern), the amounts in use
    and the leases runs hold.  Amounts are [f64] in the code.  The definitions
    are written over an interface [Amount] with two instances: [f64_amount] is
    what the program computes, and [whole_amount] reads the same code with
    exact whole units, where the laws of accounting can be stated without
    rounding.  [u64] lease numbers are [Z] with their wrap. *)

From S2P Require Import Prelude Float64.
From Stdlib Require Import Ascii.

Class Amount (A : Type) : Type := {
  a_zero : A;
  a_one : A;
  a_add : A → A → A;
  (** [(u - a).max(0.0)] *)
  a_sub_floor : A → A → A;
  (** [total - used] *)
  a_free : A → A → A;
  (** [free + 1e-9 < need] *)
  a_exceeds : A → A → bool;
  (** [used <= 1e-9] *)
  a_idle : A → bool;
}.

#[export] Instance f64_amount : Amount f64 := {|
  a_zero := f64_zero;
  a_one := f64_one;
  a_add := f64_add;
  a_sub_floor u a := f64_max (f64_sub u a) f64_zero;
  a_free := f64_sub;
  a_exceeds free need := f64_lt (f64_add free f64_nano) need;
  a_idle u := f64_le u f64_nano;
|}.

(** Whole units: a billionth is below the smallest difference. *)
#[export] Instance whole_amount : Amount Z := {|
  a_zero := 0;
  a_one := 1;
  a_add := Z.add;
  a_sub_floor u a := Z.max (u - a) 0;
  a_free := Z.sub;
  a_exceeds free need := free <? need;
  a_idle u := u <=? 0;
|}.

(** Whether [pattern] (with [*] for any run of characters) matches [name]. *)
Fixpoint suffixes (n : list ascii) : list (list ascii) :=
  n :: match n with [] => [] | _ :: n' => suffixes n' end.

Fixpoint glob_go (p n : list ascii) : bool :=
  match p with
  | [] => match n with [] => true | _ => false end
  | c :: p' =>
      if Ascii.eqb c "*"%char then existsb (glob_go p') (suffixes n)
      else match n with
           | d :: n' => Ascii.eqb d c && glob_go p' n'
           | [] => false
           end
  end.
Definition glob_matches (pattern name : string) : bool := glob_go (chars pattern) (chars name).

Definition IDLE_INSTANCES_KEPT : Z := 256.

Definition str_le (a b : string) : Prop := String.leb a b = true.
#[local] Instance str_le_dec : RelDecision str_le.
Proof. intros a b. rw /str_le. apply _. Defined.

Section resources.
Context {A : Type} `{!Amount A}.

Record Resources : Type := mkResources {
  totals : gmap string A;
  patterns : list string;
  used : gmap string A;
  leases : gmap Z (list (Z * string * A));
  next_lease : Z;
}.

Definition Resources_default : Resources := mkResources ∅ [] ∅ ∅ 0.

Definition pattern_for (r : Resources) (name : string) : option string :=
  if bool_decide (is_Some (totals r !! name)) then None
  else List.find (λ p, glob_matches p name) (patterns r).

(** The explicit total, else the first matching pattern's, else 1. *)
Definition total (r : Resources) (name : string) : A :=
  match totals r !! name with
  | Some t => t
  | None => default a_one (and_then (pattern_for r name) (λ p, totals r !! p))
  end.

Definition insert_total (name : string) (t : A) (r : Resources) : Resources :=
  let is_new := bool_decide (totals r !! name = None) in
  {| totals := <[name := t]> (totals r);
     patterns := if is_new && contains_char "*"%char name
                 then stable_sort str_le (patterns r ++ [name]) else patterns r;
     used := used r; leases := leases r; next_lease := next_lease r |}.

Definition is_declared (r : Resources) (name : string) : bool :=
  bool_decide (is_Some (totals r !! name)) || is_some (pattern_for r name).

Definition set_used (u : gmap string A) (r : Resources) : Resources :=
  mkResources (totals r) (patterns r) u (leases r) (next_lease r).

(** Keyed instances nobody holds are dropped once there are many. *)
Definition idle_entry (r : Resources) (nu : string * A) : Prop :=
  a_idle nu.2 = true ∧ totals r !! nu.1 = None.
#[local] Instance idle_entry_dec r nu : Decision (idle_entry r nu).
Proof. rw /idle_entry. apply _. Defined.

Definition evict_idle (r : Resources) : Resources :=
  if Z.of_nat (size (used r)) <=? IDLE_INSTANCES_KEPT then r
  else
    let idle := Z.of_nat (size (filter (idle_entry r) (used r))) in
    if IDLE_INSTANCES_KEPT <? idle then set_used (filter (λ nu, ¬ idle_entry r nu) (used r)) r
    else r.

Definition used_of (r : Resources) (name : string) : A := default a_zero (used r !! name).

Definition free (r : Resources) (name : string) : A := a_free (total r name) (used_of r name).

(** The first need that does not fit. *)
Definition can_acquire (r : Resources) (needs : list (string * A)) : option string :=
  fst <$> List.find (λ na, a_exceeds (free r na.1) na.2) needs.

Definition take_one (run_id lease : Z) (r : Resources) (na : string * A) : Resources :=
  {| totals := totals r; patterns := patterns r;
     used := <[na.1 := a_add (used_of r na.1) na.2]> (used r);
     leases := <[run_id := default [] (leases r !! run_id) ++ [(lease, na.1, na.2)]]> (leases r);
     next_lease := next_lease r |}.

Definition acquire (run_id : Z) (needs : list (string * A)) (r : Resources) : Resources * Z :=
  let lease := wrap_u64 (next_lease r + 1) in
  let r := mkResources (totals r) (patterns r) (used r) (leases r) lease in
  (fold_left (take_one run_id lease) needs r, lease).

(** Give an amount back, if the resource is still known. *)
Definition give_back (u : gmap string A) (na : string * A) : gmap string A :=
  match u !! na.1 with
  | Some x => <[na.1 := a_sub_floor x na.2]> u
  | None => u
  end.

Definition release_lease (run_id lease : Z) (r : Resources) : Resources :=
  match leases r !! run_id with
  | None => evict_idle r
  | Some l =>
      let freed := List.filter (λ x, x.1.1 =? lease) l in
      let kept := List.filter (λ x, negb (x.1.1 =? lease)) l in
      evict_idle
        {| totals := totals r; patterns := patterns r;
           used := fold_left give_back ((λ x, (x.1.2, x.2)) <$> freed) (used r);
           leases := <[run_id := kept]> (leases r); next_lease := next_lease r |}
  end.

Definition release_all (run_id : Z) (r : Resources) : Resources :=
  match leases r !! run_id with
  | None => evict_idle r
  | Some l =>
      evict_idle
        {| totals := totals r; patterns := patterns r;
           used := fold_left give_back ((λ x, (x.1.2, x.2)) <$> l) (used r);
           leases := delete run_id (leases r); next_lease := next_lease r |}
  end.
End resources.
Arguments Resources : clear implicits.

(** ** Glob patterns *)

Inductive glob : list ascii → list ascii → Prop :=
| glob_nil : glob [] []
| glob_star p s n : glob p n → glob ("*"%char :: p) (s ++ n)
| glob_char c p n : c ≠ "*"%char → glob p n → glob (c :: p) (c :: n).

Lemma elem_of_suffixes n m : m ∈ suffixes n ↔ ∃ s, n = s ++ m.
Proof.
  induction n as [|c n IH]; simpl.
  - rw list_elem_of_singleton. split; [intros ->; by exists []|].
    intros [s Hs]. symmetry in Hs. by apply app_eq_nil in Hs as [_ ->].
  - rw elem_of_cons IH. split.
    + intros [->|[s ->]]; [by exists []|by exists (c :: s)].
    + intros [[|d s] Hs]; [by left|]. injection Hs as -> ->. eauto.
Qed.

Lemma glob_go_spec p n : glob_go p n = true ↔ glob p n.
Proof.
  revert n; induction p as [|c p IH]; intros n; simpl.
  { destruct n; split; [constructor|done|done|]. by inversion 1. }
  destruct (Ascii.eqb_spec c "*"%char) as [->|Hc].
  - rw existsb_exists. split.
    + intros (m & [s ->]%list_elem_of_In%elem_of_suffixes & Hm%IH). by constructor.
    + inversion 1 as [|p' s m Hm|]; subst; [|done]. exists m. split; [|by apply IH].
      apply list_elem_of_In, elem_of_suffixes. by exists s.
  - destruct n as [|d n]; [split; [done|]; by inversion 1|].
    rw andb_true_iff IH. split.
    + intros [->%Ascii.eqb_eq ?]. by constructor.
    + inversion 1; subst; [done|]. by rw Ascii.eqb_refl.
Qed.

(** ** Accounting in whole units *)

Abbreviation lease_list := (list (Z * string * Z)).

Fixpoint lease_sum (l : lease_list) (n : string) : Z :=
  match l with
  | [] => 0
  | (_, m, a) :: l' => (if m =?s n then a else 0) + lease_sum l' n
  end.

(** What the runs hold of a resource. *)
Definition held (ls : gmap Z lease_list) (n : string) : Z :=
  map_fold (λ _ l acc, lease_sum l n + acc) 0 ls.

Definition nonneg (l : lease_list) : Prop := Forall (λ x, 0 ≤ x.2) l.

Lemma lease_sum_app l1 l2 n : lease_sum (l1 ++ l2) n = lease_sum l1 n + lease_sum l2 n.
Proof. induction l1 as [|[[k m] a] l1 IH]; simpl; [done|]. rw IH. lia. Qed.

Lemma lease_sum_nonneg l n : nonneg l → 0 ≤ lease_sum l n.
Proof.
  induction 1 as [|[[k m] a] l Ha Hl IH]; simpl in *; [lia|]. case_match; lia.
Qed.

Lemma held_insert ls run l n :
  held (<[run := l]> ls) n = lease_sum l n + held (delete run ls) n.
Proof.
  rw -insert_delete_eq /held map_fold_insert_L; [done|intros; lia|apply lookup_delete_eq].
Qed.

Lemma held_split ls run n :
  held ls n = lease_sum (default [] (ls !! run)) n + held (delete run ls) n.
Proof.
  destruct (ls !! run) as [l|] eqn:E; simpl.
  - rw -{1}(insert_id ls run l E). apply held_insert.
  - by rw delete_id.
Qed.

Lemma held_nonneg ls n : map_Forall (λ _ l, nonneg l) ls → 0 ≤ held ls n.
Proof.
  rw /held. induction ls as [|run l ls Hn IH] using map_ind; intros Hl.
  { by rw map_fold_empty. }
  rw map_fold_insert_L //; [|intros; lia].
  apply map_Forall_insert in Hl as [Hl Hls]; [|done].
  pose proof (lease_sum_nonneg l n Hl). specialize (IH Hls). lia.
Qed.

(** The invariant: what is in use is what is leased, within the totals. *)
Record accounted (r : Resources Z) : Prop := {
  ac_nonneg : map_Forall (λ _ l, nonneg l) (leases r);
  ac_used : ∀ n, used_of r n = held (leases r) n;
}.

Lemma give_back_lookup (u : gmap string Z) n a n' :
  0 ≤ a → 0 ≤ default 0 (u !! n') →
  default 0 (give_back u (n, a) !! n') =
  if n =?s n' then Z.max (default 0 (u !! n') - a) 0 else default 0 (u !! n').
Proof.
  intros Ha Hu. rw /give_back /=. destruct (String.eqb_spec n n') as [->|Hne].
  - destruct (u !! n') as [x|] eqn:E; simpl in *; [by rw lookup_insert_eq|]. rw E /=. lia.
  - destruct (u !! n); [by rw lookup_insert_ne|done].
Qed.

Lemma give_back_all l (u : gmap string Z) n :
  nonneg l → lease_sum l n ≤ default 0 (u !! n) →
  default 0 (fold_left give_back ((λ x, (x.1.2, x.2)) <$> l) u !! n)
  = default 0 (u !! n) - lease_sum l n.
Proof.
  intros Hl. revert u; induction Hl as [|[[k m] a] l Ha Hl IH]; intros u Hu; simpl in *; [lia|].
  pose proof (lease_sum_nonneg l n Hl).
  assert (Hg : default 0 (give_back u (m, a) !! n) = default 0 (u !! n) - (if m =?s n then a else 0)).
  { rw give_back_lookup //; [|destruct (m =?s n); lia]. destruct (m =?s n); lia. }
  rw IH Hg; [|lia]. lia.
Qed.

Lemma evict_idle_used (r : Resources Z) n :
  (∀ n, 0 ≤ used_of r n) → used_of (evict_idle r) n = used_of r n.
Proof.
  intros Hp. rw /evict_idle. case_match; [done|]. case_match; [|done].
  specialize (Hp n). rw /used_of /= map_lookup_filter in Hp |- *.
  destruct (used r !! n) as [x|]; simpl in *; [|done]. case_guard as Hi; simpl; [done|].
  destruct Hi as [Hi _]. simpl in Hi. lia.
Qed.

Lemma evict_idle_frame {A} `{!Amount A} (r : Resources A) :
  leases (evict_idle r) = leases r ∧ totals (evict_idle r) = totals r ∧
  patterns (evict_idle r) = patterns r.
Proof. rw /evict_idle. by repeat case_match. Qed.

Lemma release_all_gone {A} `{!Amount A} run (r : Resources A) : leases (release_all run r) !! run = None.
Proof.
  rw /release_all. destruct (leases r !! run) eqn:E; rw (proj1 (evict_idle_frame _)) //=.
  apply lookup_delete_eq.
Qed.

Lemma accounted_evict r : accounted r → accounted (evict_idle r).
Proof.
  intros [Hn Hu]. destruct (evict_idle_frame r) as (Hl & _). split; [by rw Hl|].
  intros n. rw evict_idle_used ?Hl //. intros m. rw Hu. by apply held_nonneg.
Qed.

Lemma accounted_take run lease r n a :
  accounted r → 0 ≤ a → accounted (take_one run lease r (n, a)).
Proof.
  intros [Hn Hu] Ha. split; simpl.
  - apply map_Forall_insert_2; [|done]. apply Forall_app. split; [|by repeat constructor].
    destruct (leases r !! run) as [l|] eqn:E; [by apply (Hn run)|constructor].
  - intros m. rw held_insert lease_sum_app /=.
    pose proof (held_split (leases r) run m) as Hs. rw -Hu in Hs.
    rw /used_of /= lookup_insert in Hs |- *. destruct (String.eqb_spec n m) as [->|Hne].
    + rw decide_True //=. rw /used_of /=. lia.
    + rw decide_False //. lia.
Qed.

Lemma accounted_acquire run needs r :
  accounted r → Forall (λ na, 0 ≤ na.2) needs → accounted (acquire run needs r).1.
Proof.
  intros [Hn Hu] Hneeds. rw /acquire. simpl. set (lease := wrap_u64 _).
  assert (Hr : accounted (mkResources (totals r) (patterns r) (used r) (leases r) lease)) by by split.
  revert Hr. generalize (mkResources (totals r) (patterns r) (used r) (leases r) lease).
  induction Hneeds as [|[n a] needs Ha Hneeds IH]; intros r' Hr'; simpl; [done|].
  by apply IH, accounted_take.
Qed.

Lemma filter_sum (p : Z * string * Z → bool) l n :
  lease_sum (List.filter p l) n + lease_sum (List.filter (λ x, negb (p x)) l) n = lease_sum l n.
Proof. induction l as [|[[k m] a] l IH]; simpl; [done|]. destruct (p (k, m, a)); simpl; lia. Qed.

Lemma nonneg_filter p l : nonneg l → nonneg (List.filter p l).
Proof. induction 1; simpl; [constructor|]. case_match; [by constructor|done]. Qed.

(** Giving back part of a run's leases keeps the accounts. *)
Lemma accounted_release run r freed kept ls' :
  accounted r → nonneg freed → nonneg kept →
  (∀ n, lease_sum freed n + lease_sum kept n = lease_sum (default [] (leases r !! run)) n) →
  (∀ n, held ls' n = lease_sum kept n + held (delete run (leases r)) n) →
  map_Forall (λ _ l, nonneg l) ls' →
  accounted {| totals := totals r; patterns := patterns r;
               used := fold_left give_back ((λ x, (x.1.2, x.2)) <$> freed) (used r);
               leases := ls'; next_lease := next_lease r |}.
Proof.
  intros [Hn Hu] Hf Hk Hsum Hheld Hls. split; [done|]. intros n. rw /used_of /=.
  assert (Hrest : 0 ≤ held (delete run (leases r)) n).
  { apply held_nonneg. by apply map_Forall_delete. }
  pose proof (lease_sum_nonneg kept n Hk).
  specialize (Hu n). rw (held_split _ run) -Hsum /used_of /= in Hu.
  rw give_back_all // Hu; [|lia]. rw Hheld. lia.
Qed.

Lemma accounted_release_lease run lease r : accounted r → accounted (release_lease run lease r).
Proof.
  intros Hr. rw /release_lease. destruct (leases r !! run) as [l|] eqn:E; [|by apply accounted_evict].
  assert (Hl : nonneg l) by (destruct Hr as [Hn _]; by apply (Hn run)).
  apply accounted_evict, (accounted_release run _ _ (List.filter (λ x, negb (x.1.1 =? lease)) l)).
  - done.
  - by apply nonneg_filter.
  - by apply nonneg_filter.
  - intros n. rw E /=. apply filter_sum.
  - intros n. apply held_insert.
  - apply map_Forall_insert_2; [by apply nonneg_filter|apply Hr].
Qed.

Lemma accounted_release_all run r : accounted r → accounted (release_all run r).
Proof.
  intros Hr. rw /release_all. destruct (leases r !! run) as [l|] eqn:E; [|by apply accounted_evict].
  assert (Hl : nonneg l) by (destruct Hr as [Hn _]; by apply (Hn run)).
  apply accounted_evict, (accounted_release run _ _ []).
  - done.
  - done.
  - constructor.
  - intros n. rw E /=. lia.
  - intros n. simpl. lia.
  - apply map_Forall_delete, Hr.
Qed.

(** ** Capacity *)

Lemma total_frame (r r' : Resources Z) n :
  totals r' = totals r → patterns r' = patterns r → total r' n = total r n.
Proof. intros Ht Hp. rw /total /pattern_for Ht Hp //. Qed.

Lemma take_frame run lease needs (r : Resources Z) :
  let r' := fold_left (take_one run lease) needs r in
  totals r' = totals r ∧ patterns r' = patterns r.
Proof.
  revert r; induction needs as [|na needs IH]; intros r; simpl; [done|].
  destruct (IH (take_one run lease r na)) as [-> ->]. done.
Qed.

(** The use of a name after taking needs with distinct names. *)
Lemma take_used run lease needs (r : Resources Z) n :
  NoDup needs.*1 →
  used_of (fold_left (take_one run lease) needs r) n =
  used_of r n + default 0 (list_to_map (M := gmap string Z) needs !! n).
Proof.
  revert r; induction needs as [|[m a] needs IH]; intros r Hnd; simpl; [rw lookup_empty /=; lia|].
  apply NoDup_cons in Hnd as [Hm Hnd]. rw IH //. rw {1}/used_of /= !lookup_insert.
  destruct (decide (m = n)) as [->|Hne]; simpl; [|done].
  rw not_elem_of_list_to_map_1 //=. rw /used_of /=. lia.
Qed.

Lemma can_acquire_None (r : Resources Z) needs :
  can_acquire r needs = None → ∀ n a, (n, a) ∈ needs → used_of r n + a ≤ total r n.
Proof.
  rw /can_acquire fmap_None. intros Hf n a Hin.
  apply list_elem_of_In in Hin. pose proof (find_none _ _ Hf _ Hin) as He.
  rw /free /= in He. lia.
Qed.

Lemma acquire_within run needs (r : Resources Z) n :
  NoDup needs.*1 → can_acquire r needs = None → used_of r n ≤ total r n →
  used_of (acquire run needs r).1 n ≤ total r n.
Proof.
  intros Hnd Hc Hle. rw /acquire. cbn [fst]. rw take_used //.
  change (used_of r n + default 0 (list_to_map (M := gmap string Z) needs !! n) ≤ total r n).
  destruct (list_to_map needs !! n) as [a|] eqn:E; cbn [from_option id]; [|lia].
  apply (can_acquire_None _ needs); [done|]. by apply elem_of_list_to_map_2.
Qed.

(** ** Reachable resource states

    The supervisor takes a run's needs only when they fit, and gives leases
    back one by one or all at once. *)
Inductive step : Resources Z → Resources Z → Prop :=
| step_acquire r run needs :
    NoDup needs.*1 → Forall (λ na, 0 ≤ na.2) needs → can_acquire r needs = None →
    step r (acquire run needs r).1
| step_release_lease r run lease : step r (release_lease run lease r)
| step_release_all r run : step r (release_all run r).

Definition fresh (r : Resources Z) : Prop :=
  used r = ∅ ∧ leases r = ∅ ∧ ∀ n, 0 ≤ total r n.

Lemma release_used_le run r n :
  accounted r → used_of (release_all run r) n ≤ used_of r n ∧
  ∀ lease, used_of (release_lease run lease r) n ≤ used_of r n.
Proof.
  intros Hr. pose proof (accounted_release_all run r Hr) as [_ Ha].
  destruct Hr as [Hn Hu]. pose proof (held_split (leases r) run n) as Hs.
  split.
  - rw Ha Hu. rw Hs /release_all. destruct (leases r !! run) as [l|] eqn:E.
    + rw (proj1 (evict_idle_frame _)) /=. pose proof (lease_sum_nonneg l n (Hn _ _ E)). lia.
    + rw (proj1 (evict_idle_frame _)) -Hs. lia.
  - intros lease. pose proof (accounted_release_lease run lease r (Build_accounted _ Hn Hu)) as [_ Hl].
    rw Hl Hu Hs /release_lease. destruct (leases r !! run) as [l|] eqn:E.
    + rw (proj1 (evict_idle_frame _)) /= held_insert.
      pose proof (filter_sum (λ x, x.1.1 =? lease) l n) as Hf.
      pose proof (lease_sum_nonneg _ n (nonneg_filter (λ x, x.1.1 =? lease) l (Hn _ _ E))) as H0.
      cbn beta in Hf, H0. rw -Hf. lia.
    + rw (proj1 (evict_idle_frame _)) -Hs. lia.
Qed.

Lemma release_frame run lease (r : Resources Z) :
  totals (release_lease run lease r) = totals r ∧ patterns (release_lease run lease r) = patterns r ∧
  totals (release_all run r) = totals r ∧ patterns (release_all run r) = patterns r.
Proof.
  rw /release_lease /release_all. case_match; split_and!; rw ?(proj1 (proj2 (evict_idle_frame _))) ?(proj2 (proj2 (evict_idle_frame _))) //.
Qed.

Lemma step_safe r r' :
  step r r' → accounted r → (∀ n, used_of r n ≤ total r n) →
  accounted r' ∧ (∀ n, total r' n = total r n) ∧ (∀ n, used_of r' n ≤ total r n).
Proof.
  intros [r0 run needs Hnd Hneeds Hc|r0 run lease|r0 run] Hr Hle.
  - split; [by apply accounted_acquire|]. split; [|by intros; apply acquire_within].
    intros n. rw /acquire. cbn [fst]. destruct (take_frame run (wrap_u64 (next_lease r0 + 1)) needs
      (mkResources (totals r0) (patterns r0) (used r0) (leases r0) (wrap_u64 (next_lease r0 + 1)))) as [H1 H2].
    apply (total_frame r0); [by rw H1|by rw H2].
  - split; [by apply accounted_release_lease|].
    destruct (release_frame run lease r0) as (H1 & H2 & _).
    split; intros n; [by apply total_frame|].
    destruct (release_used_le run r0 n Hr) as [_ Hl]. specialize (Hl lease). specialize (Hle n). lia.
  - split; [by apply accounted_release_all|].
    destruct (release_frame run 0 r0) as (_ & _ & H1 & H2).
    split; intros n; [by apply total_frame|].
    destruct (release_used_le run r0 n Hr) as [Hl _]. specialize (Hle n). lia.
Qed.

(** ** Theorems *)


(** One database connection, taken by a run. *)
Definition db_needs : list (string * Z) := [("db", 2)].
Definition db_resources : Resources Z := insert_total "db" 3 Resources_default.


(** [release_all] returns everything a run holds: afterwards the run has
    no lease and every resource's use has dropped by what the run held. *)
Theorem release_all_returns run r :
  accounted r →
  leases (release_all run r) !! run = None ∧
  ∀ n, used_of (release_all run r) n = used_of r n - lease_sum (default [] (leases r !! run)) n.
Proof.
  intros Hr. pose proof (accounted_release_all run r Hr) as [_ Ha]. destruct Hr as [Hn Hu].
  assert (Hls : leases (release_all run r) = delete run (leases r)).
  { rw /release_all. destruct (leases r !! run) as [l|] eqn:E;
      rw (proj1 (evict_idle_frame _)) //. by rw delete_id. }
  split; [by rw Hls lookup_delete_eq|]. intros n. rw Ha Hls Hu.
  pose proof (held_split (leases r) run n). lia.
Qed.

Lemma release_all_returns_witness :
  used_of (release_all 7 (acquire 7 db_needs db_resources).1) "db"
  = used_of (acquire 7 db_needs db_resources).1 "db"
    - lease_sum (default [] (leases (acquire 7 db_needs db_resources).1 !! 7)) "db".
Proof.
  apply (release_all_returns 7 (acquire 7 db_needs db_resources).1).
  apply accounted_acquire; [|by repeat constructor]. split; [apply map_Forall_empty|done].
Defined.

(** [*] matches any run of characters: the backtracking matcher decides
    the language of the pattern. *)
Theorem glob_matches_spec pattern name :
  glob_matches pattern name = true ↔ glob (chars pattern) (chars name).
Proof. apply glob_go_spec. Qed.

(** The admission check looks at needs one by one, so two needs with the
    same name pass it together and exceed the total: with one unit of [db],
    the needs [db: 1, db: 1] are admitted and put two units in use, in the
    program's own arithmetic. *)
Theorem duplicate_needs_exceed :
  let r : Resources f64 := insert_total "db" f64_one Resources_default in
  let needs := [("db", f64_one); ("db", f64_one)] in
  can_acquire r needs = None ∧
  used_of (acquire 7 needs r).1 "db" = f64_of_Z 2 ∧ f64_lt (total r "db") (f64_of_Z 2) = true.
Proof. vm_compute. split_and!; reflexivity. Qed.
