(* ===== verification/WorkQueue.v ===== *)
(** * The dispatch queue and the hand-off of work (server/src/supervisor.rs)

    One queue of runs in dispatch order (priority, time in line, id), its
    position map, the engines that poll for work, and the hand-off record that
    lets a failed delivery put a run back in line.  The [BTreeMap] is its list
    of entries in key order.  Engine processes, module time stamps on disk and
    the clocks are arguments: [mtime] is the module's time as read before the
    lock, [now] the wall clock, [inst] the monotonic one.  [u32] and [usize]
    counters that only count engines and runs are integers without a width. *)

From S2P Require Import Prelude Float64 Json Model ActiveIndex Resources.
From Stdlib Require Import Ascii.

#[export] Instance EngineKey_eq_dec : EqDecision EngineKey.
Proof. solve_decision. Defined.
#[export] Instance EngineKey_countable : Countable EngineKey.
Proof.
  refine (inj_countable' (λ k, (ek_source_dir k, ek_module k, ek_isolated k, ek_nice k))
    (λ '(a, b, c, d), mkEngineKey a b c d) _).
  by intros [].
Defined.

(** Niceness for a priority: negative priorities lower the OS priority. *)
Definition nice_for (priority : Z) : Z :=
  if priority <? 0 then Z.min (i64_neg priority) 19 mod 256 else 0.

Inductive Location : Type :=
| Local
| Worker (id : Z).
#[export] Instance Location_eq_dec : EqDecision Location.
Proof. solve_decision. Defined.

(** [str::parse::<i64>] *)
Definition digit (c : ascii) : option Z :=
  let n := Z.of_nat (nat_of_ascii c) in
  if (48 <=? n) && (n <=? 57) then Some (n - 48) else None.
Fixpoint parse_digits (limit acc : Z) (s : string) : option Z :=
  match s with
  | EmptyString => Some acc
  | String c s' =>
      match digit c with
      | Some d => let acc' := acc * 10 + d in
                  if acc' <=? limit then parse_digits limit acc' s' else None
      | None => None
      end
  end.
Definition parse_unsigned (limit : Z) (s : string) : option Z :=
  if str_is_empty s then None else parse_digits limit 0 s.
Definition parse_i64 (s : string) : option Z :=
  match strip_prefix "-" s with
  | Some s => Z.opp <$> parse_unsigned two63 s
  | None => parse_unsigned i64_MAX (default s (strip_prefix "+" s))
  end.

(** Engines a worker starts are named [w<worker id>-<n>]. *)
Definition of_engine (engine_id : string) : Location :=
  match and_then (and_then (strip_prefix "w" engine_id) (split_once "-"%char))
                 (λ nr, parse_i64 nr.1) with
  | Some w => Worker w
  | None => Local
  end.

Definition same_code (a b : EngineKey) : bool :=
  (ek_module a =?s ek_module b) && Bool.eqb (ek_isolated a) (ek_isolated b)
  && (ek_nice a =? ek_nice b).

Definition from_flow (flow : Flow) : EngineKey :=
  {| ek_source_dir := flow_source_dir flow; ek_module := flow_module flow;
     ek_isolated := default false (and_then (map_get "isolated" (flow_options flow)) as_bool);
     ek_nice := nice_for (default 0 (get_i64 "priority" (flow_options flow))) |}.

(** An engine without its process handle ([child]). *)
Record Engine : Type := mkEngine {
  e_id : string;
  e_key : EngineKey;
  e_pid : option Z;
  e_runs_done : Z;
  e_module_mtime : option Z;
  e_current_run : option Z;
  e_exit_requested : bool;
  e_spawned_at : Z;
  e_last_seen : Z;
  e_adopted : bool;
  e_drained_at : option Z;
  e_run_since : option Z;
  e_polled : bool;
  e_location : Location;
  e_slot : Z;
}.

Definition Engine_new (inst : Z) (mtime : option Z) (id : string) (key : EngineKey)
    (pid : option Z) (adopted : bool) : Engine :=
  mkEngine id key pid 0 mtime None false inst inst adopted None None false Local 0.

Definition status (e : Engine) : string :=
  match e_current_run e, e_drained_at e, e_polled e with
  | Some _, Some _, _ => "draining"
  | Some _, None, _ => "running"
  | None, _, false => "starting"
  | None, _, true => "idle"
  end.

Record QueuedRun : Type := mkQueuedRun {
  q_run_id : Z;
  q_key : EngineKey;
  q_priority : Z;
  q_order : Z;
  q_needs : list (string * f64);
  q_not_before : option Z;
  q_flow_id : Z;
  q_remote_ok : bool;
  q_prefer_worker : option Z;
  q_prefer_until : Z;
}.

Abbreviation QKey := (Z * Z * Z)%type.
Definition qkey (q : QueuedRun) : QKey := (i64_neg (q_priority q), q_order q, q_run_id q).

Definition qkey_lt (a b : QKey) : Prop :=
  a.1.1 < b.1.1 ∨ (a.1.1 = b.1.1 ∧ (a.1.2 < b.1.2 ∨ (a.1.2 = b.1.2 ∧ a.2 < b.2))).
#[export] Instance qkey_lt_dec : RelDecision qkey_lt.
Proof. intros a b. rw /qkey_lt. apply _. Defined.

Definition reserved_elsewhere (q : QueuedRun) (location : Location) (now : Z) : bool :=
  match q_prefer_worker q with
  | Some w => (now <? q_prefer_until q) && negb (bool_decide (location = Worker w))
  | None => false
  end.

Record QueuedJob : Type := mkQueuedJob { j_key : EngineKey; j_payload : Value }.

Record WorkerSlot : Type := mkWorkerSlot {
  w_name : string;
  w_processors : Z;
  w_state : string;
  w_eligible : gset Z;
  w_last_seen : Z;
  w_commands : list Value;
  w_broken : gset string;
  w_next_engine : Z;
}.

Record Inner : Type := mkInner {
  engines : gmap string Engine;
  workers : gmap Z WorkerSlot;
  queue : list (QKey * QueuedRun);
  positions : gmap Z QKey;
  overtaken : gmap Z Z;
  jobs : list QueuedJob;
  waiting_marked : gmap Z string;
  starting : gmap EngineKey Z;
  handoff : gmap Z QueuedRun;
  next_engine : Z;
  failures : gmap Z (list Z);
}.

(** The notifier, the settings that start processes and the cache of module
    times are left out: the cached time is the argument [mtime] below. *)
Record Supervisor : Type := mkSupervisor {
  inner : Inner;
  resources : Resources f64;
  max_engines : Z;
  engine_max_runs : Z;
}.

Inductive WorkDecision : Type :=
| WRun (run_id : Z)
| WJob (payload : Value)
| WWait
| WExit.

(** ** Field updates *)

Definition set_engines (m : gmap string Engine) (i : Inner) : Inner :=
  mkInner m (workers i) (queue i) (positions i) (overtaken i) (jobs i) (waiting_marked i)
    (starting i) (handoff i) (next_engine i) (failures i).
Definition set_queue (q : list (QKey * QueuedRun)) (p : gmap Z QKey) (i : Inner) : Inner :=
  mkInner (engines i) (workers i) q p (overtaken i) (jobs i) (waiting_marked i) (starting i)
    (handoff i) (next_engine i) (failures i).
Definition set_overtaken (m : gmap Z Z) (i : Inner) : Inner :=
  mkInner (engines i) (workers i) (queue i) (positions i) m (jobs i) (waiting_marked i)
    (starting i) (handoff i) (next_engine i) (failures i).
Definition set_jobs (js : list QueuedJob) (i : Inner) : Inner :=
  mkInner (engines i) (workers i) (queue i) (positions i) (overtaken i) js (waiting_marked i)
    (starting i) (handoff i) (next_engine i) (failures i).
Definition set_waiting_marked (m : gmap Z string) (i : Inner) : Inner :=
  mkInner (engines i) (workers i) (queue i) (positions i) (overtaken i) (jobs i) m (starting i)
    (handoff i) (next_engine i) (failures i).
Definition set_handoff (m : gmap Z QueuedRun) (i : Inner) : Inner :=
  mkInner (engines i) (workers i) (queue i) (positions i) (overtaken i) (jobs i)
    (waiting_marked i) (starting i) m (next_engine i) (failures i).

(** ** The ordered queue *)

(** [BTreeMap::insert], replacing an equal key. *)
Fixpoint bt_insert (k : QKey) (v : QueuedRun) (l : list (QKey * QueuedRun))
    : list (QKey * QueuedRun) :=
  match l with
  | [] => [(k, v)]
  | (k', v') :: l' =>
      if decide (qkey_lt k k') then (k, v) :: l
      else if decide (k = k') then (k, v) :: l'
      else (k', v') :: bt_insert k v l'
  end.

(** [BTreeMap::remove] *)
Definition bt_remove (k : QKey) (l : list (QKey * QueuedRun)) : list (QKey * QueuedRun) :=
  filter (λ kv, kv.1 ≠ k) l.
Fixpoint bt_get (k : QKey) (l : list (QKey * QueuedRun)) : option QueuedRun :=
  match l with
  | [] => None
  | (k', v) :: l' => if decide (k = k') then Some v else bt_get k l'
  end.

Definition push (item : QueuedRun) (i : Inner) : Inner :=
  if bool_decide (is_Some (positions i !! q_run_id item)) then i
  else
    let k := qkey item in
    set_queue (bt_insert k item (queue i)) (<[q_run_id item := k]> (positions i)) i.

Definition remove (run_id : Z) (i : Inner) : Inner * option QueuedRun :=
  let i := set_overtaken (delete run_id (overtaken i)) i in
  match positions i !! run_id with
  | None => (i, None)
  | Some k =>
      (set_queue (bt_remove k (queue i)) (delete run_id (positions i)) i, bt_get k (queue i))
  end.

(** ** Engines *)

Definition engine_list (i : Inner) : list Engine := (map_to_list (engines i)).*2.

Definition is_idle (e : Engine) : bool := is_none (e_current_run e) && negb (e_exit_requested e).

Definition idle_engine_keys (i : Inner) : gset EngineKey :=
  list_to_set (e_key <$> List.filter is_idle (engine_list i)).

Definition has_idle_other (i : Inner) (idle_keys : gset EngineKey) (key : EngineKey)
    (engine_id : string) : bool :=
  if negb (bool_decide (key ∈ idle_keys)) then false
  else existsb (λ e, negb (e_id e =?s engine_id) && bool_decide (e_key e = key)
                     && is_none (e_current_run e) && negb (e_exit_requested e)) (engine_list i).

Definition occupying_at (i : Inner) (location : Location) : Z :=
  Z.of_nat (length (List.filter
    (λ e, bool_decide (e_location e = location)
          && (negb (e_exit_requested e) || is_some (e_current_run e))) (engine_list i))).

Definition occupying (i : Inner) : Z :=
  occupying_at i Local + foldr Z.add 0 (map_to_list (starting i)).*2.

(** The lowest slot from 1 not in [taken]: at most one more than their number. *)
Fixpoint first_free (taken : list Z) (n : Z) (fuel : nat) : Z :=
  match fuel with
  | O => n
  | S fuel' => if bool_decide (n ∈ taken) then first_free taken (n + 1) fuel' else n
  end.
Definition free_slot (i : Inner) (location : Location) : Z :=
  let taken := e_slot <$> List.filter (λ e, bool_decide (e_location e = location)) (engine_list i) in
  first_free taken 1 (length taken).

(** A poll frees the engine: whatever it ran before is over. *)
Definition polled (inst pid : Z) (e : Engine) : Engine :=
  mkEngine (e_id e) (e_key e) (Some pid) (e_runs_done e) (e_module_mtime e) None
    (e_exit_requested e) (e_spawned_at e) inst (e_adopted e) None None true (e_location e) (e_slot e).
Definition give_run (inst run_id : Z) (e : Engine) : Engine :=
  mkEngine (e_id e) (e_key e) (e_pid e) (e_runs_done e) (e_module_mtime e) (Some run_id)
    (e_exit_requested e) (e_spawned_at e) (e_last_seen e) (e_adopted e) (e_drained_at e)
    (Some inst) (e_polled e) (e_location e) (e_slot e).
Definition place (location : Location) (slot : Z) (e : Engine) : Engine :=
  mkEngine (e_id e) (e_key e) (e_pid e) (e_runs_done e) (e_module_mtime e) (e_current_run e)
    (e_exit_requested e) (e_spawned_at e) (e_last_seen e) (e_adopted e) (e_drained_at e)
    (e_run_since e) (e_polled e) location slot.

(** ** The scan of the queue *)

Definition not_due (q : QueuedRun) (now : Z) : bool :=
  match q_not_before q with Some t => now <? t | None => false end.

Inductive scan : Type :=
| Take (k : QKey) (item : QueuedRun) (blocked : list Z)
| Nothing
| GiveUp.

(** The local scan: [room] and [served] are the variables of the loop,
    [blocked] the runs passed over for want of a resource. *)
Fixpoint scan_local (s : Supervisor) (engine_id : string) (key : EngineKey) (now : Z)
    (room : bool) (served : list EngineKey) (blocked : list Z) (l : list (QKey * QueuedRun)) : scan :=
  match l with
  | [] => Nothing
  | (k, q) :: l' =>
      if not_due q now || reserved_elsewhere q Local now then
        scan_local s engine_id key now room served blocked l'
      else if is_some (can_acquire (resources s) (q_needs q)) then
        scan_local s engine_id key now room served (blocked ++ [q_run_id q]) l'
      else if bool_decide (q_key q = key) then Take k q blocked
      else if bool_decide (q_key q ∈ served) then
        scan_local s engine_id key now room served blocked l'
      else if has_idle_other (inner s) (idle_engine_keys (inner s)) (q_key q) engine_id then
        scan_local s engine_id key now room (q_key q :: served) blocked l'
      else if room then
        scan_local s engine_id key now false (q_key q :: served) blocked l'
      else GiveUp
  end.

Fixpoint scan_remote (s : Supervisor) (worker_id : Z) (w : WorkerSlot) (key : EngineKey) (now : Z)
    (blocked : list Z) (l : list (QKey * QueuedRun)) : scan :=
  match l with
  | [] => Nothing
  | (k, q) :: l' =>
      if not_due q now || negb (q_remote_ok q) || negb (bool_decide (q_flow_id q ∈ w_eligible w))
         || negb (same_code (q_key q) key) || bool_decide (ek_module (q_key q) ∈ w_broken w)
         || reserved_elsewhere q (Worker worker_id) now
      then scan_remote s worker_id w key now blocked l'
      else if is_some (can_acquire (resources s) (q_needs q)) then
        scan_remote s worker_id w key now (blocked ++ [q_run_id q]) l'
      else Take k q blocked
  end.

Definition bump_overtaken (m : gmap Z Z) (id : Z) : gmap Z Z := <[id := default 0 (m !! id) + 1]> m.

(** The run leaves the queue with its resources for the engine. *)
Definition hand_over (inst : Z) (engine_id : string) (k : QKey) (item : QueuedRun)
    (blocked : list Z) (s : Supervisor) : Supervisor :=
  let i := inner s in
  let r := q_run_id item in
  let i := set_queue (bt_remove k (queue i)) (delete r (positions i)) i in
  let i := set_overtaken (fold_left bump_overtaken blocked (delete r (overtaken i))) i in
  let i := set_waiting_marked (delete r (waiting_marked i)) i in
  let i := set_engines (alter (give_run inst r) engine_id (engines i)) i in
  let i := set_handoff (<[r := item]> (handoff i)) i in
  mkSupervisor i (acquire r (q_needs item) (resources s)).1 (max_engines s) (engine_max_runs s).

Definition with_inner (i : Inner) (s : Supervisor) : Supervisor :=
  mkSupervisor i (resources s) (max_engines s) (engine_max_runs s).

Definition drop_engine (engine_id : string) (s : Supervisor) : Supervisor :=
  with_inner (set_engines (delete engine_id (engines (inner s))) (inner s)) s.

Definition finish_scan (inst : Z) (engine_id : string) (r : scan) (s : Supervisor)
    : Supervisor * WorkDecision :=
  match r with
  | Take k item blocked => (hand_over inst engine_id k item blocked s, WRun (q_run_id item))
  | Nothing => (s, WWait)
  | GiveUp => (drop_engine engine_id s, WExit)
  end.

(** The engine is always known here; an unknown one would be a panic. *)
Definition take_remote_work (now inst : Z) (engine_id : string) (pid : Z) (key : EngineKey)
    (worker_id : Z) (s : Supervisor) : Supervisor * WorkDecision :=
  let i := inner s in
  let occ := occupying_at i (Worker worker_id) in
  match workers i !! worker_id with
  | None => (s, WWait)
  | Some w =>
      let s := with_inner (set_engines (alter (polled inst pid) engine_id (engines i)) i) s in
      match engines (inner s) !! engine_id with
      | None => (s, WWait)
      | Some e =>
          if e_exit_requested e || (engine_max_runs s <=? e_runs_done e)
             || negb (w_state w =?s "online") || ((w_processors w <? occ) && e_adopted e)
          then (drop_engine engine_id s, WExit)
          else finish_scan inst engine_id
                 (scan_remote s worker_id w key now [] (queue (inner s))) s
      end
  end.

(** The first queued job of a key, taken off the job queue. *)
Fixpoint take_job (key : EngineKey) (js : list QueuedJob) : option (Value * list QueuedJob) :=
  match js with
  | [] => None
  | j :: js' =>
      if bool_decide (j_key j = key) then Some (j_payload j, js')
      else match take_job key js' with
           | Some (p, rest) => Some (p, j :: rest)
           | None => None
           end
  end.

Definition take_local_work (now inst : Z) (mtime : option Z) (engine_id : string) (pid : Z)
    (key : EngineKey) (s : Supervisor) : Supervisor * WorkDecision :=
  let i := inner s in
  let over_capacity := max_engines s <? occupying i in
  let s := with_inner (set_engines (alter (polled inst pid) engine_id (engines i)) i) s in
  match engines (inner s) !! engine_id with
  | None => (s, WWait)
  | Some e =>
      let stale := match e_module_mtime e, mtime with
                   | Some a, Some b => negb (a =? b)
                   | _, _ => false
                   end in
      if e_exit_requested e || (engine_max_runs s <=? e_runs_done e) || stale
         || (over_capacity && e_adopted e)
      then (drop_engine engine_id s, WExit)
      else
        match take_job key (jobs (inner s)) with
        | Some (payload, rest) => (with_inner (set_jobs rest (inner s)) s, WJob payload)
        | None =>
            finish_scan inst engine_id
              (scan_local s engine_id key now (occupying (inner s) <? max_engines s) [] []
                 (queue (inner s))) s
        end
  end.

(** [mtime] is the cached module time, [disk] the one a new engine records. *)
Definition take_work (now inst : Z) (mtime disk : option Z) (engine_id : string) (pid : Z)
    (key : EngineKey) (s : Supervisor) : Supervisor * WorkDecision :=
  let location := of_engine engine_id in
  let i := inner s in
  let s :=
    if bool_decide (is_Some (engines i !! engine_id)) then s
    else
      let e := place location (free_slot i location)
                 (Engine_new inst disk engine_id key (Some pid) true) in
      with_inner (set_engines (<[engine_id := e]> (engines i)) i) s in
  match location with
  | Worker w => take_remote_work now inst engine_id pid key w s
  | Local => take_local_work now inst mtime engine_id pid key s
  end.

(** ** The rest of a run's life in the supervisor *)

Definition handoff_done (run_id : Z) (s : Supervisor) : Supervisor :=
  with_inner (set_handoff (delete run_id (handoff (inner s))) (inner s)) s.

Definition stop_run (run_id : Z) (e : Engine) : Engine :=
  if bool_decide (e_current_run e = Some run_id) then
    mkEngine (e_id e) (e_key e) (e_pid e) (e_runs_done e) (e_module_mtime e) None
      (e_exit_requested e) (e_spawned_at e) (e_last_seen e) (e_adopted e) (e_drained_at e) None
      (e_polled e) (e_location e) (e_slot e)
  else e.

Definition abort_handoff (run_id : Z) (s : Supervisor) : Supervisor * bool :=
  let i := inner s in
  match handoff i !! run_id with
  | None => (s, false)
  | Some item =>
      let i := set_handoff (delete run_id (handoff i)) i in
      let i := set_engines (stop_run run_id <$> engines i) i in
      let i := push item i in
      (mkSupervisor i (release_all run_id (resources s)) (max_engines s) (engine_max_runs s), true)
  end.

Definition end_run (run_id : Z) (e : Engine) : Engine :=
  if bool_decide (e_current_run e = Some run_id) then
    mkEngine (e_id e) (e_key e) (e_pid e) (e_runs_done e + 1) (e_module_mtime e) None
      (ek_isolated (e_key e) || e_exit_requested e) (e_spawned_at e) (e_last_seen e) (e_adopted e)
      (e_drained_at e) (e_run_since e) (e_polled e) (e_location e) (e_slot e)
  else e.

Definition run_finished (run_id : Z) (s : Supervisor) : Supervisor :=
  let i := inner s in
  let i := set_handoff (delete run_id (handoff i)) i in
  let i := set_engines (end_run run_id <$> engines i) i in
  let i := (remove run_id i).1 in
  let i := set_waiting_marked (delete run_id (waiting_marked i)) i in
  mkSupervisor i (release_all run_id (resources s)) (max_engines s) (engine_max_runs s).

Definition enqueue (item : QueuedRun) (s : Supervisor) : Supervisor :=
  with_inner (push item (inner s)) s.
Definition enqueue_many (items : list QueuedRun) (s : Supervisor) : Supervisor :=
  with_inner (fold_left (λ i item, push item i) items (inner s)) s.
Definition enqueue_simple (now run_id flow_id : Z) (remote_ok : bool) (key : EngineKey)
    (s : Supervisor) : Supervisor :=
  enqueue (mkQueuedRun run_id key 0 now [] None flow_id remote_ok None 0) s.
Definition enqueue_job (key : EngineKey) (payload : Value) (s : Supervisor) : Supervisor :=
  with_inner (set_jobs (jobs (inner s) ++ [mkQueuedJob key payload]) (inner s)) s.

Definition dequeue (run_id : Z) (s : Supervisor) : Supervisor * bool :=
  let i := set_waiting_marked (delete run_id (waiting_marked (inner s))) (inner s) in
  let '(i, r) := remove run_id i in
  (with_inner i s, is_some r).

Definition queued (run_id : Z) (s : Supervisor) : bool :=
  bool_decide (is_Some (positions (inner s) !! run_id)).

Definition take_queued_for_key (key : EngineKey) (engine_id : string) (s : Supervisor)
    : Supervisor * list Z :=
  let i := inner s in
  let out := (λ kv, q_run_id kv.2) <$> filter (λ kv, q_key kv.2 = key) (queue i) in
  let i := fold_left (λ i id, (remove id i).1) out i in
  (with_inner (set_engines (delete engine_id (engines i)) i) s, out).

(** ** The queue and its positions agree *)

Abbreviation entry_lt := (λ a b : QKey * QueuedRun, qkey_lt a.1 b.1).

Record q_ok (i : Inner) : Prop := {
  qo_sorted : StronglySorted entry_lt (queue i);
  qo_key : ∀ k q, (k, q) ∈ queue i → k = qkey q;
  qo_pos : ∀ id k, positions i !! id = Some k ↔ ∃ q, (k, q) ∈ queue i ∧ q_run_id q = id;
}.

Lemma qkey_lt_trans a b c : qkey_lt a b → qkey_lt b c → qkey_lt a c.
Proof. rw /qkey_lt. lia. Qed.
Lemma qkey_lt_irrefl a : ¬ qkey_lt a a.
Proof. rw /qkey_lt. lia. Qed.
Lemma qkey_total a b : qkey_lt a b ∨ a = b ∨ qkey_lt b a.
Proof.
  destruct a as [[a1 a2] a3], b as [[b1 b2] b3]. rw /qkey_lt /=.
  destruct (Z.lt_trichotomy a1 b1) as [?|[->|?]]; [lia| |lia].
  destruct (Z.lt_trichotomy a2 b2) as [?|[->|?]]; [lia| |lia].
  destruct (Z.lt_trichotomy a3 b3) as [?|[->|?]]; [lia|by right; left|lia].
Qed.

Lemma elem_of_bt_insert k v l x :
  k ∉ l.*1 → (x ∈ bt_insert k v l ↔ x = (k, v) ∨ x ∈ l).
Proof.
  induction l as [|[k' v'] l IH]; csimpl; [set_solver|]. intros Hk.
  case_decide; [set_solver|]. case_decide; [set_solver|]. rw !elem_of_cons IH; set_solver.
Qed.

Lemma bt_insert_sorted k v l :
  k ∉ l.*1 → StronglySorted entry_lt l → StronglySorted entry_lt (bt_insert k v l).
Proof.
  induction l as [|[k' v'] l IH]; csimpl; intros Hk Hs; [by repeat constructor|].
  apply StronglySorted_inv in Hs as [Hs Hl].
  destruct (decide (qkey_lt k k')) as [Hlt|Hlt].
  - constructor; [by constructor|]. constructor; [done|].
    eapply Forall_impl; [exact Hl|]. simpl. eauto using qkey_lt_trans.
  - rw decide_False; [|set_solver]. constructor; [apply IH; [set_solver|done]|].
    rw !Forall_forall in Hl |- *. intros x Hx. rw elem_of_bt_insert in Hx; [|set_solver].
    destruct Hx as [->|Hx]; [|by apply Hl]. simpl.
    destruct (qkey_total k k') as [?|[->|?]]; [done|set_solver|done].
Qed.

Lemma bt_get_elem k q l :
  StronglySorted entry_lt l → (k, q) ∈ l → bt_get k l = Some q.
Proof.
  induction 1 as [|[k' q'] l Hs IH Hl]; [set_solver|]. simpl.
  intros [[= <- <-]|Hin]%elem_of_cons; [by rw decide_True|].
  rw decide_False; [by apply IH|]. intros ->. rw Forall_forall in Hl.
  by apply Hl, qkey_lt_irrefl in Hin.
Qed.

(** Putting an entry back where it was. *)
Lemma bt_insert_remove k q l :
  StronglySorted entry_lt l → (k, q) ∈ l → bt_insert k q (bt_remove k l) = l.
Proof.
  rw /bt_remove. induction 1 as [|[k' q'] l Hs IH Hl]; [set_solver|]. rw Forall_forall in Hl.
  intros Hin. rw filter_cons /=. apply elem_of_cons in Hin as [[= <- <-]|Hin].
  - rw decide_False; [|naive_solver]. rw filter_all.
    + destruct l as [|[k2 q2] l]; [done|]. simpl. rw decide_True //. apply (Hl (k2, q2)). set_solver.
    + apply Forall_forall. intros x Hx Heq. apply Hl in Hx. simpl in Hx. rw Heq in Hx.
      by apply qkey_lt_irrefl in Hx.
  - pose proof (Hl _ Hin) as Hlt. simpl in Hlt.
    rw decide_True; [|intros ->; by apply qkey_lt_irrefl in Hlt]. simpl.
    rw decide_False; [|intros ?; by eapply qkey_lt_irrefl, qkey_lt_trans].
    rw decide_False; [|intros ->; by apply qkey_lt_irrefl in Hlt]. by rw IH.
Qed.

Lemma q_ok_frame i i' : queue i' = queue i → positions i' = positions i → q_ok i → q_ok i'.
Proof. intros Hq Hp [H1 H2 H3]. by split; rw ?Hq ?Hp. Qed.

Lemma q_ok_push item i : q_ok i → q_ok (push item i).
Proof.
  intros Hi. rw /push. case_bool_decide as Hp; [done|]. destruct Hi as [Hs Hk Hpos].
  assert (Hnew : qkey item ∉ (queue i).*1).
  { intros ([k q] & Hkq & Hin)%list_elem_of_fmap. simpl in Hkq. subst k.
    apply Hp. exists (qkey item). apply Hpos. exists q. split; [done|].
    apply Hk in Hin. by injection Hin. }
  split; simpl.
  - by apply bt_insert_sorted.
  - intros k q. rw elem_of_bt_insert //. intros [[= -> ->]|Hin]; [done|by apply Hk].
  - intros id k. rw lookup_insert. setoid_rewrite elem_of_bt_insert; [|done].
    destruct (decide (q_run_id item = id)) as [<-|Hne].
    + split; [intros [= <-]; eauto|]. intros (q & [[= -> ->]|Hin] & Hq); [done|].
      exfalso. apply Hp. exists k. apply Hpos. eauto.
    + rw Hpos. naive_solver.
Qed.

Lemma q_ok_drop k q i :
  q_ok i → (k, q) ∈ queue i →
  q_ok (set_queue (bt_remove k (queue i)) (delete (q_run_id q) (positions i)) i).
Proof.
  intros [Hs Hk Hpos] Hin. rw /bt_remove. split; simpl.
  - by apply StronglySorted_filter.
  - intros k' q' [_ ?]%list_elem_of_filter. by apply Hk.
  - intros id k'. rw lookup_delete. setoid_rewrite list_elem_of_filter. simpl.
    destruct (decide (q_run_id q = id)) as [<-|Hne].
    + split; [done|]. intros (q' & [Hne Hin'] & Hid).
      assert (positions i !! q_run_id q = Some k') as H1 by (apply Hpos; eauto).
      assert (positions i !! q_run_id q = Some k) as H2 by (apply Hpos; eauto). congruence.
    + rw Hpos. split; [|naive_solver]. intros (q' & Hin' & Hid). exists q'. split_and!; [|done|done].
      intros ->. apply Hne. rw -Hid. apply Hk in Hin, Hin'. rw Hin in Hin'. by injection Hin'.
Qed.

Lemma q_ok_remove id i : q_ok i → q_ok (remove id i).1.
Proof.
  intros Hi. rw /remove /=. destruct (positions i !! id) as [k|] eqn:E; [|by apply (q_ok_frame i)].
  destruct (proj1 (qo_pos _ Hi id k) E) as (q & Hin & <-).
  by apply (q_ok_frame (set_queue (bt_remove k (queue i)) (delete (q_run_id q) (positions i)) i)),
    q_ok_drop.
Qed.

Lemma q_ok_removes ids i : q_ok i → q_ok (fold_left (λ i id, (remove id i).1) ids i).
Proof. revert i; induction ids; simpl; auto using q_ok_remove. Qed.

(** ** What the scan picks *)

Definition startable (s : Supervisor) (loc : Location) (now : Z) (q : QueuedRun) : bool :=
  negb (not_due q now) && negb (reserved_elsewhere q loc now)
  && is_none (can_acquire (resources s) (q_needs q)).

(** Due here, but short of a resource. *)
Definition short (s : Supervisor) (loc : Location) (now : Z) (q : QueuedRun) : bool :=
  negb (not_due q now) && negb (reserved_elsewhere q loc now)
  && is_some (can_acquire (resources s) (q_needs q)).

Definition shorts (s : Supervisor) (loc : Location) (now : Z) (l : list (QKey * QueuedRun)) : list Z :=
  (λ kv, q_run_id kv.2) <$> List.filter (λ kv, short s loc now kv.2) l.

Lemma scan_local_Take s eid key now room served blocked l k q b :
  scan_local s eid key now room served blocked l = Take k q b →
  ∃ l1 l2, l = l1 ++ (k, q) :: l2 ∧ startable s Local now q = true ∧ q_key q = key ∧
    (∀ x, x ∈ l1 → startable s Local now x.2 = true → q_key x.2 ≠ key) ∧
    b = blocked ++ shorts s Local now l1.
Proof.
  revert room served blocked; induction l as [|[k' q'] l IH]; intros room served blocked; simpl; [done|].
  assert (Hskip : ∀ room' served' blocked',
    scan_local s eid key now room' served' blocked' l = Take k q b →
    (startable s Local now q' = true → q_key q' ≠ key) →
    blocked' = blocked ++ shorts s Local now [(k', q')] →
    ∃ l1 l2, (k', q') :: l = l1 ++ (k, q) :: l2 ∧ startable s Local now q = true ∧ q_key q = key ∧
      (∀ x, x ∈ l1 → startable s Local now x.2 = true → q_key x.2 ≠ key) ∧
      b = blocked ++ shorts s Local now l1).
  { intros room' served' blocked' Hs Hn Hb. destruct (IH _ _ _ Hs) as (l1 & l2 & -> & H1 & H2 & H3 & H4).
    exists ((k', q') :: l1), l2. split_and!; [done|done|done| |].
    - intros x [->|Hx]%elem_of_cons; [done|by apply H3].
    - rw H4 Hb -app_assoc. f_equal. rw /shorts /=. by destruct (short s Local now q'). }
  destruct (not_due q' now || reserved_elsewhere q' Local now) eqn:E1.
  { intros Hs. eapply Hskip; [done| |]; rw /startable /shorts /= /short;
      destruct (not_due q' now), (reserved_elsewhere q' Local now); simpl in *; rw ?app_nil_r //. }
  apply orb_false_elim in E1 as [E1 E2].
  destruct (is_some (can_acquire (resources s) (q_needs q'))) eqn:E3.
  { intros Hs. eapply Hskip; [done| |].
    - rw /startable E1 E2 /=. by destruct (can_acquire (resources s) (q_needs q')).
    - by rw /shorts /= /short E1 E2 E3. }
  assert (Hsh : shorts s Local now [(k', q')] = []) by by rw /shorts /= /short E1 E2 E3.
  destruct (bool_decide_reflect (q_key q' = key)) as [Hk|Hk].
  { intros [= <- <- <-]. exists [], l. split_and!; [done| |done|set_solver|by rw app_nil_r].
    rw /startable E1 E2 /=. by destruct (can_acquire (resources s) (q_needs q')). }
  rw Hsh app_nil_r in Hskip. repeat case_match; try done; intros Hs; by eapply Hskip.
Qed.

Lemma sorted_split_ahead l1 l2 k q x :
  StronglySorted entry_lt (l1 ++ (k, q) :: l2) → x ∈ l1 ++ (k, q) :: l2 → qkey_lt x.1 k → x ∈ l1.
Proof.
  intros Hs Hx Hlt. apply elem_of_app in Hx as [?|Hx]; [done|exfalso].
  apply StronglySorted_app_1_r in Hs. apply StronglySorted_inv in Hs as [_ Hl].
  apply elem_of_cons in Hx as [->|Hx]; [by apply qkey_lt_irrefl in Hlt|].
  rw Forall_forall in Hl. apply Hl in Hx. simpl in Hx. by eapply qkey_lt_irrefl, qkey_lt_trans.
Qed.

Lemma sorted_before l1 l2 k q :
  StronglySorted entry_lt (l1 ++ (k, q) :: l2) →
  filter (λ x, qkey_lt x.1 k) (l1 ++ (k, q) :: l2) = l1.
Proof.
  intros Hs. rw filter_app filter_all; [|].
  - rw filter_cons_False; [|by apply qkey_lt_irrefl]. rw filter_none; [by rw app_nil_r|].
    apply StronglySorted_app_1_r, StronglySorted_inv in Hs as [_ Hl].
    eapply Forall_impl; [exact Hl|]. intros x Hlt Hx. by eapply qkey_lt_irrefl, qkey_lt_trans.
  - apply Forall_forall. intros x Hx. by apply (StronglySorted_app_1_elem_of _ _ _ x (k, q) Hs Hx); set_solver.
Qed.

(** The state an engine's poll leaves before the scan: same queue, same
    resources. *)
Definition same_line (s s' : Supervisor) : Prop :=
  queue (inner s') = queue (inner s) ∧ positions (inner s') = positions (inner s) ∧
  handoff (inner s') = handoff (inner s) ∧ overtaken (inner s') = overtaken (inner s) ∧
  resources s' = resources s.

Lemma startable_same s s' loc now q :
  resources s' = resources s → startable s' loc now q = startable s loc now q.
Proof. intros Hr. by rw /startable Hr. Qed.

Lemma shorts_same s s' loc now l :
  resources s' = resources s → shorts s' loc now l = shorts s loc now l.
Proof. intros Hr. by rw /shorts /short Hr. Qed.

(** A local poll that ends in a run went through the scan. *)
Lemma take_local_Run now inst mtime eid pid key s s' id :
  take_local_work now inst mtime eid pid key s = (s', WRun id) →
  ∃ s1 k item room b, same_line s s1 ∧ id = q_run_id item ∧
    scan_local s1 eid key now room [] [] (queue (inner s)) = Take k item b ∧
    s' = hand_over inst eid k item b s1.
Proof.
  rw /take_local_work. cbv zeta.
  set (s1 := with_inner _ s). destruct (engines (inner s1) !! eid) as [e|]; [|done].
  destruct (_ || _ && _); [done|]. destruct (take_job key (jobs (inner s1))) as [[p rest]|]; [done|].
  destruct (scan_local s1 _ _ _ _ _ _ _) as [k item b| |] eqn:E; simpl; [|done|done].
  intros [= <- <-]. eexists s1, k, item, _, b. split_and!; [done|done|exact E|done].
Qed.

Lemma take_work_Run now inst mtime disk eid pid key s s' id :
  of_engine eid = Local →
  take_work now inst mtime disk eid pid key s = (s', WRun id) →
  ∃ s1 k item room b, same_line s s1 ∧ id = q_run_id item ∧
    scan_local s1 eid key now room [] [] (queue (inner s)) = Take k item b ∧
    s' = hand_over inst eid k item b s1.
Proof.
  rw /take_work. intros ->. cbv zeta.
  destruct (bool_decide (is_Some (engines (inner s) !! eid))); [apply take_local_Run|].
  intros Ht. apply take_local_Run in Ht as (s1 & k & item & room & b & Hl & Hrest).
  exists s1, k, item, room, b. by split.
Qed.

(** ** Reachable supervisors *)

Inductive sop : Type :=
| SEnqueue (item : QueuedRun)
| SEnqueueMany (items : list QueuedRun)
| SDequeue (id : Z)
| STakeWork (now inst : Z) (mtime disk : option Z) (eid : string) (pid : Z) (key : EngineKey)
| SHandoffDone (id : Z)
| SAbort (id : Z)
| SFinished (id : Z)
| SImportFailed (key : EngineKey) (eid : string).

Definition sexec (o : sop) (s : Supervisor) : Supervisor :=
  match o with
  | SEnqueue item => enqueue item s
  | SEnqueueMany items => enqueue_many items s
  | SDequeue id => (dequeue id s).1
  | STakeWork now inst mtime disk eid pid key => (take_work now inst mtime disk eid pid key s).1
  | SHandoffDone id => handoff_done id s
  | SAbort id => (abort_handoff id s).1
  | SFinished id => run_finished id s
  | SImportFailed key eid => (take_queued_for_key key eid s).1
  end.

Lemma scan_remote_Take s wid w key now blocked l k q b :
  scan_remote s wid w key now blocked l = Take k q b → (k, q) ∈ l.
Proof.
  revert blocked; induction l as [|[k' q'] l IH]; intros blocked; [done|]. simpl.
  destruct (_ || _); [intros ?%IH; set_solver|].
  destruct (is_some _); [intros ?%IH; set_solver|]. intros [= -> -> _]. set_solver.
Qed.

Lemma q_ok_hand_over inst eid k item b s :
  q_ok (inner s) → (k, item) ∈ queue (inner s) → q_ok (inner (hand_over inst eid k item b s)).
Proof.
  intros Hi Hin. by eapply q_ok_frame; [..|exact (q_ok_drop k item _ Hi Hin)].
Qed.

Lemma q_ok_take_work now inst mtime disk eid pid key s :
  q_ok (inner s) → q_ok (inner (take_work now inst mtime disk eid pid key s).1).
Proof.
  intros Hi. rw /take_work. cbv zeta.
  match goal with |- context [if ?c then s else ?x] => set (s0 := if c then s else x) end.
  assert (H0 : q_ok (inner s0)) by (rw /s0; case_match; [done|by apply (q_ok_frame (inner s))]).
  clearbody s0. destruct (of_engine eid) as [|wid].
  - rw /take_local_work. cbv zeta. set (s1 := with_inner _ s0).
    assert (H1 : q_ok (inner s1)) by by apply (q_ok_frame (inner s0)).
    destruct (engines (inner s1) !! eid); [|done].
    destruct (_ || _ && _); [by apply (q_ok_frame (inner s1))|].
    destruct (take_job _ _) as [[p rest]|]; [by apply (q_ok_frame (inner s1))|].
    destruct (scan_local s1 _ _ _ _ _ _ _) as [k item b| |] eqn:E; cbn [finish_scan fst]; [|done|].
    + apply scan_local_Take in E as (l1 & l2 & Hq & _). apply q_ok_hand_over; [done|].
      rw Hq. set_solver.
    + by apply (q_ok_frame (inner s1)).
  - rw /take_remote_work. cbv zeta. destruct (workers (inner s0) !! wid) as [w|]; [|done].
    set (s1 := with_inner _ s0). assert (H1 : q_ok (inner s1)) by by apply (q_ok_frame (inner s0)).
    destruct (engines (inner s1) !! eid); [|done].
    destruct (_ || _ && _); [by apply (q_ok_frame (inner s1))|].
    destruct (scan_remote s1 _ _ _ _ _ _) as [k item b| |] eqn:E; cbn [finish_scan fst]; [|done|].
    + apply scan_remote_Take in E. by apply q_ok_hand_over.
    + by apply (q_ok_frame (inner s1)).
Qed.

Lemma q_ok_sexec o s : q_ok (inner s) → q_ok (inner (sexec o s)).
Proof.
  intros Hi. destruct o as [item|items|id|now inst mtime disk eid pid key|id|id|id|key eid]; simpl.
  - by apply q_ok_push.
  - revert Hi. generalize (inner s). induction items as [|item items IH]; intros i Hi; simpl; [done|].
    by apply IH, q_ok_push.
  - rw /dequeue. set (i := set_waiting_marked _ _).
    pose proof (q_ok_remove id i (q_ok_frame (inner s) i eq_refl eq_refl Hi)) as Hr.
    by destruct (remove id i).
  - by apply q_ok_take_work.
  - by apply (q_ok_frame (inner s)).
  - rw /abort_handoff. destruct (handoff (inner s) !! id) as [item|]; [|done]. simpl.
    apply q_ok_push. by apply (q_ok_frame (inner s)).
  - rw /run_finished /=. set (i := set_engines _ _).
    apply (q_ok_frame (remove id i).1); [done|done|]. apply q_ok_remove. by apply (q_ok_frame (inner s)).
  - set (out := fmap _ _).
    apply (q_ok_frame (fold_left (λ i id, (remove id i).1) out (inner s))); [done|done|].
    by apply q_ok_removes.
Qed.

Lemma q_ok_ops ops s : q_ok (inner s) → q_ok (inner (fold_left (λ s o, sexec o s) ops s)).
Proof. revert s; induction ops; simpl; auto using q_ok_sexec. Qed.

(** ** Free slots *)

Local Abbreviation from := (λ (n : Z) (l : list Z), filter (λ x, n ≤ x) l).

Lemma filter_above_shorter (taken : list Z) (n : Z) :
  n ∈ taken → (length (from (n + 1)%Z taken) < length (from n taken))%nat.
Proof.
  induction taken as [|y l IH]; [set_solver|]. rw !filter_cons.
  assert (length (from (n + 1)%Z l) ≤ length (from n l))%nat as Hle.
  { clear IH. induction l as [|z l IH]; [done|]. rw !filter_cons. repeat case_decide; simpl; lia. }
  intros [<-|Hin]%elem_of_cons; [|apply IH in Hin]; repeat case_decide; simpl; lia.
Qed.

(** With as many steps as there are slots to pass, the search ends at a free one. *)
Lemma first_free_spec taken fuel (n : Z) :
  (length (from n taken) ≤ fuel)%nat →
  n ≤ first_free taken n fuel ∧ (first_free taken n fuel ∉ taken) ∧
  (∀ m, n ≤ m < first_free taken n fuel → m ∈ taken).
Proof.
  revert n; induction fuel as [|fuel IH]; intros n Hf; simpl.
  - split_and!; [lia| |lia]. intros Hn. apply filter_above_shorter in Hn. lia.
  - case_bool_decide as Hn; [|by split_and!; [lia| |lia]].
    pose proof (filter_above_shorter _ _ Hn).
    destruct (IH (n + 1)) as (H1 & H2 & H3); [lia|]. split_and!; [lia|done|].
    intros m Hm. destruct (decide (m = n)) as [->|]; [done|]. apply H3. lia.
Qed.

(** ** Theorems *)

(** C14: the queue is consistent: after any sequence of enqueues, dequeues,
    polls, hand-offs, aborts and finished runs, from an empty queue, it is in
    strict dispatch order, every entry sits under its own key, and the
    position map holds exactly the queued runs, each once, at their places. *)
Theorem queue_consistent s0 ops :
  queue (inner s0) = [] → positions (inner s0) = ∅ →
  q_ok (inner (fold_left (λ s o, sexec o s) ops s0)).
Proof.
  intros Hq Hp. assert (H0 : q_ok (inner s0)).
  { split; rw Hq; [constructor|set_solver|]. intros id k. rw Hp lookup_empty. set_solver. }
  by apply q_ok_ops.
Qed.

Definition idle_inner : Inner := mkInner ∅ ∅ [] ∅ ∅ [] ∅ ∅ ∅ 0 ∅.
Definition idle_supervisor : Supervisor := mkSupervisor idle_inner Resources_default 2 100.
Definition etl_key : EngineKey := mkEngineKey "/srv" "etl" false 0.
Definition sample_item (id priority order : Z) : QueuedRun :=
  mkQueuedRun id etl_key priority order [] None 1 true None 0.

Lemma queue_consistent_witness :
  q_ok (inner (fold_left (λ s o, sexec o s)
    [SEnqueue (sample_item 1 0 10); SEnqueue (sample_item 2 5 20); SDequeue 1] idle_supervisor)).
Proof. apply queue_consistent; reflexivity. Defined.

(** C22: a local engine gets the first run in line it can start: when a poll
    hands out a run, that run was queued, of the engine's code, due, not
    reserved for a worker and within the free resources, and every such run of
    that code comes after it in line; it has left the queue, is recorded for
    hand-off, its resources are leased, and each run passed over for want of a
    resource counts one more overtake. *)
Theorem take_work_first now inst mtime disk eid pid key s s' id :
  q_ok (inner s) → of_engine eid = Local →
  take_work now inst mtime disk eid pid key s = (s', WRun id) →
  ∃ k item, (k, item) ∈ queue (inner s) ∧ q_run_id item = id ∧ q_key item = key ∧
    startable s Local now item = true ∧
    (∀ k' q', (k', q') ∈ queue (inner s) → startable s Local now q' = true → q_key q' = key →
       k' = k ∨ qkey_lt k k') ∧
    positions (inner s') = delete id (positions (inner s)) ∧
    queue (inner s') = bt_remove k (queue (inner s)) ∧
    handoff (inner s') !! id = Some item ∧
    overtaken (inner s') = fold_left bump_overtaken
      (shorts s Local now (filter (λ x, qkey_lt x.1 k) (queue (inner s))))
      (delete id (overtaken (inner s))) ∧
    resources s' = (acquire id (q_needs item) (resources s)).1.
Proof.
  intros Hi Hloc Ht.
  destruct (take_work_Run _ _ _ _ _ _ _ _ _ _ Hloc Ht) as (s1 & k & item & room & b & Hl & -> & Hs & ->).
  destruct Hl as (Hq & Hp & Hh & Ho & Hr).
  apply scan_local_Take in Hs as (l1 & l2 & Hsplit & Hst & Hkey & Hahead & Hb).
  rw (startable_same s s1 _ _ _ Hr) in Hst. pose proof (qo_sorted _ Hi) as Hsorted.
  exists k, item. split_and!; try done.
  - rw Hsplit. set_solver.
  - intros k' q' Hin Hst' Hk'. destruct (qkey_total k' k) as [Hlt|[->|?]]; [|by left|by right].
    exfalso. rw Hsplit in Hin Hsorted. pose proof (sorted_split_ahead _ _ _ _ _ Hsorted Hin Hlt) as Hl1.
    apply (Hahead _ Hl1); [|done]. by rw (startable_same s s1).
  - by rw /= Hp.
  - by rw /= Hq.
  - by rw /= lookup_insert_eq.
  - rw /= Ho Hb (shorts_same s s1 _ _ _ Hr) Hsplit sorted_before //. by rw -Hsplit.
  - by rw /= Hr.
Qed.

Definition two_queued : Supervisor :=
  enqueue (sample_item 2 5 20) (enqueue (sample_item 1 0 10) idle_supervisor).

Lemma two_queued_ok : q_ok (inner two_queued).
Proof.
  do 2 apply q_ok_push. split; simpl; [constructor|set_solver|].
  intros id k. rw lookup_empty. set_solver.
Qed.

Lemma take_work_first_witness :
  ∃ k item, (k, item) ∈ queue (inner two_queued) ∧ q_run_id item = 2 ∧ q_key item = etl_key.
Proof.
  destruct (take_work_first 100 0 None None "engine-1" 1 etl_key two_queued
    (take_work 100 0 None None "engine-1" 1 etl_key two_queued).1 2 two_queued_ok)
    as (k & item & H1 & H2 & H3 & _); [reflexivity|vm_compute; reflexivity|].
  by exists k, item.
Defined.

(** An aborted hand-off undoes the poll: the run goes back to the place in
    line it had, the queue and positions are what they were before the poll,
    the hand-off record is gone and the run holds no lease. *)
Theorem abort_undoes_take now inst mtime disk eid pid key s s' id :
  q_ok (inner s) → of_engine eid = Local →
  take_work now inst mtime disk eid pid key s = (s', WRun id) →
  let '(s2, requeued) := abort_handoff id s' in
  requeued = true ∧ queue (inner s2) = queue (inner s) ∧
  positions (inner s2) = positions (inner s) ∧ handoff (inner s2) = delete id (handoff (inner s)) ∧
  leases (resources s2) !! id = None.
Proof.
  intros Hi Hloc Ht.
  destruct (take_work_Run _ _ _ _ _ _ _ _ _ _ Hloc Ht) as (s1 & k & item & room & b & Hl & -> & Hs & ->).
  destruct Hl as (Hq & Hp & Hh & Ho & Hr).
  apply scan_local_Take in Hs as (l1 & l2 & Hsplit & _).
  assert (Hin : (k, item) ∈ queue (inner s)) by (rw Hsplit; set_solver).
  pose proof (qo_key _ Hi _ _ Hin) as Hk.
  rw /abort_handoff /= lookup_insert_eq /push /= lookup_delete_eq bool_decide_eq_false_2; [|by intros []].
  rw -Hk /=. split_and!.
  - done.
  - rw Hq. apply bt_insert_remove; [apply Hi|done].
  - rw Hp insert_delete_eq insert_id //. apply (qo_pos _ Hi). by exists item.
  - by rw Hh delete_insert_eq.
  - apply release_all_gone.
Qed.

Lemma abort_undoes_take_witness :
  queue (inner (abort_handoff 2
    (take_work 100 0 None None "engine-1" 1 etl_key two_queued).1).1) = queue (inner two_queued).
Proof.
  pose proof (abort_undoes_take 100 0 None None "engine-1" 1 etl_key two_queued
    (take_work 100 0 None None "engine-1" 1 etl_key two_queued).1 2 two_queued_ok) as H.
  specialize (H eq_refl ltac:(vm_compute; reflexivity)).
  destruct (abort_handoff 2 _) as [s2 r]. apply H.
Defined.

(** A new engine gets the lowest processor slot, from 1, that no engine at
    its location has. *)
Theorem free_slot_lowest i location :
  1 ≤ free_slot i location ∧
  (∀ id e, engines i !! id = Some e → e_location e = location → e_slot e ≠ free_slot i location) ∧
  (∀ n, 1 ≤ n < free_slot i location →
     ∃ id e, engines i !! id = Some e ∧ e_location e = location ∧ e_slot e = n).
Proof.
  rw /free_slot. set (taken := e_slot <$> _).
  assert (Ht : ∀ n, n ∈ taken ↔ ∃ id e, engines i !! id = Some e ∧ e_location e = location ∧ e_slot e = n).
  { intros n. rw /taken list_elem_of_fmap. setoid_rewrite list_elem_of_In. setoid_rewrite filter_In.
    setoid_rewrite <-list_elem_of_In. rw /engine_list. setoid_rewrite list_elem_of_fmap. split.
    - intros (e & -> & ([id e'] & -> & Hin%elem_of_map_to_list) & Hl). simpl in *.
      exists id, e'. by apply bool_decide_eq_true in Hl.
    - intros (id & e & Hin & Hl & <-). exists e. split_and!; [done| |by apply bool_decide_eq_true].
      exists (id, e). split; [done|]. by apply elem_of_map_to_list. }
  destruct (first_free_spec taken (length taken) 1) as (H1 & H2 & H3); [apply length_filter|].
  split_and!; [done| |].
  - intros id e He Hl Hs. apply H2, Ht. eauto.
  - intros n Hn. by apply Ht, H3.
Qed.
