(* ===== verification/Pool.v ===== *)
(** * The engine pool and the workers (server/src/supervisor.rs)

    The part of the supervisor that sizes the pool: how many engines the queue
    asks for, which are started, evicted or asked of a worker, and the
    registration, heartbeat and loss of workers.

    Starting a process happens with the lock released, so [ensure_capacity] is
    three critical sections ([plan], [settle] and [register_more]) with the
    spawning of processes between them; [ensure_capacity] runs them one after
    another, and the invariant below is over any interleaving of the sections
    of any number of calls.  An engine's child process, the result of starting
    one, and the modification time of a module's file are fields of [PoolEnv].
    An [Instant] is a number of microseconds; [elapsed] is a difference from
    the argument [inst]. *)

From S2P Require Import Prelude Float64 Json States Schedules Model ActiveIndex Resources WorkQueue.

Class PoolEnv : Type := {
  process_id : Z;
  (** the pid of the engine process, [None] when it cannot be started *)
  spawn : string → EngineKey → option Z;
  module_mtime : EngineKey → option Z;
}.

(** ** Field updates *)

Definition set_workers (m : gmap Z WorkerSlot) (i : Inner) : Inner :=
  mkInner (engines i) m (queue i) (positions i) (overtaken i) (jobs i) (waiting_marked i)
    (starting i) (handoff i) (next_engine i) (failures i).
Definition set_starting (m : gmap EngineKey Z) (i : Inner) : Inner :=
  mkInner (engines i) (workers i) (queue i) (positions i) (overtaken i) (jobs i)
    (waiting_marked i) m (handoff i) (next_engine i) (failures i).
Definition set_next_engine (n : Z) (i : Inner) : Inner :=
  mkInner (engines i) (workers i) (queue i) (positions i) (overtaken i) (jobs i)
    (waiting_marked i) (starting i) (handoff i) n (failures i).
Definition set_failures (m : gmap Z (list Z)) (i : Inner) : Inner :=
  mkInner (engines i) (workers i) (queue i) (positions i) (overtaken i) (jobs i)
    (waiting_marked i) (starting i) (handoff i) (next_engine i) m.

Definition request_exit (e : Engine) : Engine :=
  mkEngine (e_id e) (e_key e) (e_pid e) (e_runs_done e) (e_module_mtime e) (e_current_run e) true
    (e_spawned_at e) (e_last_seen e) (e_adopted e) (e_drained_at e) (e_run_since e) (e_polled e)
    (e_location e) (e_slot e).
Definition drain (inst : Z) (e : Engine) : Engine :=
  mkEngine (e_id e) (e_key e) (e_pid e) (e_runs_done e) (e_module_mtime e) (e_current_run e) true
    (e_spawned_at e) (e_last_seen e) (e_adopted e)
    (if is_some (e_current_run e) then Some inst else e_drained_at e) (e_run_since e) (e_polled e)
    (e_location e) (e_slot e).
Definition undo_drain (e : Engine) : Engine :=
  mkEngine (e_id e) (e_key e) (e_pid e) (e_runs_done e) (e_module_mtime e) (e_current_run e) false
    (e_spawned_at e) (e_last_seen e) (e_adopted e) None (e_run_since e) (e_polled e)
    (e_location e) (e_slot e).

Definition slot_with_state (st : string) (w : WorkerSlot) : WorkerSlot :=
  mkWorkerSlot (w_name w) (w_processors w) st (w_eligible w) (w_last_seen w) (w_commands w)
    (w_broken w) (w_next_engine w).
Definition slot_with_processors (n : Z) (w : WorkerSlot) : WorkerSlot :=
  mkWorkerSlot (w_name w) n (w_state w) (w_eligible w) (w_last_seen w) (w_commands w)
    (w_broken w) (w_next_engine w).
Definition slot_with_commands (cs : list Value) (w : WorkerSlot) : WorkerSlot :=
  mkWorkerSlot (w_name w) (w_processors w) (w_state w) (w_eligible w) (w_last_seen w) cs
    (w_broken w) (w_next_engine w).
Definition slot_with_broken (b : gset string) (w : WorkerSlot) : WorkerSlot :=
  mkWorkerSlot (w_name w) (w_processors w) (w_state w) (w_eligible w) (w_last_seen w)
    (w_commands w) b (w_next_engine w).
Definition slot_seen (inst : Z) (w : WorkerSlot) : WorkerSlot :=
  mkWorkerSlot (w_name w) (w_processors w) (w_state w) (w_eligible w) inst (w_commands w)
    (w_broken w) (w_next_engine w).
(** A spawn command under the worker's next engine number. *)
Definition slot_spawns (command : Value) (w : WorkerSlot) : WorkerSlot :=
  mkWorkerSlot (w_name w) (w_processors w) (w_state w) (w_eligible w) (w_last_seen w)
    (w_commands w ++ [command]) (w_broken w) (w_next_engine w + 1).

Definition is_local (e : Engine) : bool := bool_decide (e_location e = Local).
Definition at_location (location : Location) (e : Engine) : bool :=
  bool_decide (e_location e = location).

(** [HashMap::retain] *)
Definition retain_engines (p : Engine → bool) (i : Inner) : Inner :=
  set_engines (filter (λ ke, p ke.2 = true) (engines i)) i.

(** ** Demand for local engines *)

Definition worker_eligible_flows (i : Inner) : gset Z :=
  ⋃ ((λ kw, w_eligible kw.2) <$> map_to_list (workers i)).

Definition usable_local (i : Inner) (key : EngineKey) : Z :=
  Z.of_nat (length (List.filter
    (λ e, is_local e && bool_decide (e_key e = key) && negb (e_exit_requested e)
          && is_none (e_current_run e)) (engine_list i)))
  + default 0 (starting i !! key).

Abbreviation requests := (list (string * EngineKey)).

Section pool.
Context `{PoolEnv}.

Definition request_spawn (key : EngineKey) (i : Inner) (rs : requests) : Inner * requests :=
  let id := "engine-" +:+ dec process_id +:+ "-" +:+ dec (next_engine i) in
  let i := set_next_engine (next_engine i + 1) i in
  let i := set_starting (<[key := default 0 (starting i !! key) + 1]> (starting i)) i in
  (i, rs ++ [(id, key)]).

(** The reservation is dropped when creation has finished, well or not. *)
Definition finish_one (i : Inner) (key : EngineKey) : Inner :=
  match starting i !! key with
  | None => i
  | Some n =>
      if n - 1 =? 0 then set_starting (delete key (starting i)) i
      else set_starting (<[key := n - 1]> (starting i)) i
  end.
Definition finish_starting (keys : list EngineKey) (i : Inner) : Inner :=
  fold_left finish_one keys i.

(** What the queue asks for: runs that could start now or within the pre-warm
    horizon, by key with the flows that may run on a worker; replays reserved
    for a worker are kept apart. *)
Definition Demand : Type := gmap EngineKey (Z * list Z).
Definition PREWARM_SECS : Z := 5.

Definition demand_of (now : Z) (s : Supervisor) (acc : Demand * list (EngineKey * Z)) (q : QueuedRun)
    : Demand * list (EngineKey * Z) :=
  let '(demand, preferred) := acc in
  let horizon := now + PREWARM_SECS * 1000000 in
  if match q_not_before q with Some t => horizon <? t | None => false end then acc
  else if is_some (can_acquire (resources s) (q_needs q)) then acc
  else match opt_filter (λ _, now <? q_prefer_until q) (q_prefer_worker q) with
       | Some w => (demand, preferred ++ [(q_key q, w)])
       | None =>
           let '(n, flows) := default (0, []) (demand !! q_key q) in
           (<[q_key q := (n + 1, if q_remote_ok q then flows ++ [q_flow_id q] else flows)]> demand,
            preferred)
       end.
Definition add_job (demand : Demand) (j : QueuedJob) : Demand :=
  let '(n, flows) := default (0, []) (demand !! j_key j) in
  <[j_key j := (n + 1, flows)]> demand.

(** One idle local engine of another key makes way. *)
Definition victim (key : EngineKey) (i : Inner) : option Engine :=
  find (λ e, is_local e && negb (bool_decide (e_key e = key)) && is_none (e_current_run e)
             && negb (e_exit_requested e)) (engine_list i).

Fixpoint spawn_loop (max : Z) (key : EngineKey) (to_spawn : nat) (i : Inner) (rs : requests)
    : Inner * requests * nat :=
  match to_spawn with
  | O => (i, rs, O)
  | S n =>
      if max <=? occupying i then
        match victim key i with
        | Some v => (set_engines (alter request_exit (e_id v) (engines i)) i, rs, to_spawn)
        | None => (i, rs, to_spawn)
        end
      else
        let '(i, rs) := request_spawn key i rs in
        spawn_loop max key n i rs
  end.

Abbreviation spills := (list (EngineKey * Z * list Z)).

Definition plan_key (max : Z) (acc : Inner * requests * spills) (kd : EngineKey * (Z * list Z))
    : Inner * requests * spills :=
  let '(i, rs, spills) := acc in
  let '(key, (pending, remote_flows)) := kd in
  let to_spawn := Z.to_nat (pending - usable_local i key) in
  let '(i, rs, rest) := spawn_loop max key to_spawn i rs in
  (i, rs, if (0 <? Z.of_nat rest) && negb (bool_decide (remote_flows = []))
          then spills ++ [(key, Z.of_nat rest, remote_flows)] else spills).

(** What a call of [ensure_capacity] carries between its critical sections. *)
Record Flight : Type := mkFlight {
  fl_requests : requests;
  fl_demand : Demand;
  fl_spills : spills;
  fl_preferred : list (EngineKey * Z);
}.

Definition plan (now : Z) (s : Supervisor) : Supervisor * Flight :=
  let '(demand, preferred) :=
    fold_left (demand_of now s) (queue (inner s)).*2 (∅, []) in
  let demand := fold_left add_job (jobs (inner s)) demand in
  let '(i, rs, sp) := fold_left (plan_key (max_engines s)) (map_to_list demand) (inner s, [], []) in
  (with_inner i s, mkFlight rs demand sp preferred).

(** [spawn_all]: the requests whose process started, with its pid. *)
Fixpoint spawn_all (rs : requests) : list (string * EngineKey * Z) :=
  match rs with
  | [] => []
  | (id, key) :: rs' =>
      match spawn id key with
      | Some pid => (id, key, pid) :: spawn_all rs'
      | None => spawn_all rs'
      end
  end.

Definition register_engine (inst : Z) (i : Inner) (x : string * EngineKey * Z) : Inner :=
  let '(id, key, pid) := x in
  let e := place Local (free_slot i Local) (Engine_new inst (module_mtime key) id key (Some pid) false) in
  set_engines (<[id := e]> (engines i)) i.
Definition register_engines (inst : Z) (spawned : list (string * EngineKey * Z)) (i : Inner) : Inner :=
  fold_left (register_engine inst) spawned i.

(** ** Engines on workers *)

Definition spawn_command (engine_id : string) (key : EngineKey) : Value :=
  VObject [("cmd", VString "spawn"); ("engine_id", VString engine_id);
           ("isolated", VBool (ek_isolated key)); ("module", VString (ek_module key));
           ("nice", VNumber (NInt (ek_nice key)))].

Definition start_on (inst worker_id : Z) (key : EngineKey) (i : Inner) : Inner :=
  match workers i !! worker_id with
  | None => i
  | Some w =>
      let location := Worker worker_id in
      let engine_id := "w" +:+ dec worker_id +:+ "-" +:+ dec (w_next_engine w + 1) in
      let e := place location (free_slot i location) (Engine_new inst None engine_id key None false) in
      let i := set_workers (<[worker_id := slot_spawns (spawn_command engine_id key) w]> (workers i)) i in
      set_engines (<[engine_id := e]> (engines i)) i
  end.

Definition spawn_on (inst : Z) (key : EngineKey) (worker_id : Z) (i : Inner) : Inner :=
  let location := Worker worker_id in
  let ready := existsb (λ e, at_location location e && same_code (e_key e) key && is_idle e)
                 (engine_list i) in
  match workers i !! worker_id with
  | None => i
  | Some w =>
      if ready || negb (w_state w =?s "online") || bool_decide (ek_module key ∈ w_broken w)
         || (w_processors w <=? occupying_at i location)
      then i
      else start_on inst worker_id key i
  end.

Definition worker_id (name : string) (s : Supervisor) : option Z :=
  fst <$> find (λ kw, w_name kw.2 =?s name) (map_to_list (workers (inner s))).

Definition eligible_for (key : EngineKey) (flows : list Z) (w : WorkerSlot) : bool :=
  (w_state w =?s "online") && negb (bool_decide (ek_module key ∈ w_broken w))
  && existsb (λ f, bool_decide (f ∈ w_eligible w)) flows.

(** [max_by_key (free, -id)]: the most free processors, the lowest id among
    equals. *)
Definition roomier (a b : Z * Z) : bool := (a.2 <? b.2) || ((a.2 =? b.2) && (b.1 <? a.1)).
Definition better (best : option (Z * Z)) (c : Z * Z) : option (Z * Z) :=
  match best with
  | None => Some c
  | Some b => if roomier b c then Some c else Some b
  end.
Definition spill_choice (key : EngineKey) (flows : list Z) (i : Inner) : option (Z * Z) :=
  fold_left better
    (List.filter (λ c, 0 <? c.2)
      ((λ kw, (kw.1, Z.max 0 (w_processors kw.2 - occupying_at i (Worker kw.1)))) <$>
         List.filter (λ kw, eligible_for key flows kw.2) (map_to_list (workers i))))
    None.

Fixpoint spill_loop (inst : Z) (key : EngineKey) (flows : list Z) (wanted : nat) (i : Inner) : Inner :=
  match wanted with
  | O => i
  | S n => match spill_choice key flows i with
           | None => i
           | Some (wid, _) => spill_loop inst key flows n (start_on inst wid key i)
           end
  end.
Definition idle_remote (key : EngineKey) (flows : list Z) (i : Inner) : Z :=
  Z.of_nat (length (List.filter
    (λ e, match e_location e with
          | Worker w => match workers i !! w with
                        | Some slot => eligible_for key flows slot
                        | None => false
                        end
          | Local => false
          end && same_code (e_key e) key && negb (e_exit_requested e) && is_none (e_current_run e))
    (engine_list i))).
Definition spill_over (inst : Z) (i : Inner) (x : EngineKey * Z * list Z) : Inner :=
  let '(key, wanted, flows) := x in
  spill_loop inst key flows (Z.to_nat (wanted - idle_remote key flows i)) i.

(** ** The second and third sections *)

Definition respawn_key (max : Z) (acc : Inner * requests) (kd : EngineKey * (Z * list Z))
    : Inner * requests :=
  let '(i, rs) := acc in
  if (0 <? kd.2.1 - usable_local i kd.1) && (occupying i <? max)
  then request_spawn kd.1 i rs else acc.

Definition settle (inst : Z) (fl : Flight) (s : Supervisor) : Supervisor * requests :=
  let i := finish_starting (fl_requests fl).*2 (inner s) in
  let i := register_engines inst (spawn_all (fl_requests fl)) i in
  let i := fold_left (spill_over inst) (fl_spills fl) i in
  let i := fold_left (λ i kw, spawn_on inst kw.1 kw.2 i) (fl_preferred fl) i in
  let '(i, rs) := fold_left (respawn_key (max_engines s)) (map_to_list (fl_demand fl)) (i, []) in
  (with_inner i s, rs).

Definition register_more (inst : Z) (rs : requests) (s : Supervisor) : Supervisor :=
  with_inner (register_engines inst (spawn_all rs) (finish_starting rs.*2 (inner s))) s.

Definition ensure_capacity (now inst : Z) (s : Supervisor) : Supervisor :=
  let '(s, fl) := plan now s in
  let '(s, rs) := settle inst fl s in
  register_more inst rs s.
End pool.

(** ** Workers: registration, heartbeat, loss *)

Definition sync_worker (inst wid : Z) (name : string) (processors : Z) (state : string)
    (eligible : gset Z) (s : Supervisor) : Supervisor :=
  let i := inner s in
  let '(commands, broken, next) := match workers i !! wid with
                                   | Some w => (w_commands w, w_broken w, w_next_engine w)
                                   | None => ([], ∅, 0)
                                   end in
  let w := mkWorkerSlot name (Z.max processors 1) state eligible inst commands broken next in
  with_inner (set_workers (<[wid := w]> (workers i)) i) s.

Definition seconds (n : Z) : Z := n * 1000000.

(** Engines the worker no longer reports and that hold no run. *)
Definition gone (inst wid : Z) (reported : list string) (e : Engine) : bool :=
  at_location (Worker wid) e && is_none (e_current_run e)
  && negb (bool_decide (e_id e ∈ reported))
  && (e_polled e || (seconds 15 <? inst - e_spawned_at e)).

Definition worker_heartbeat (inst wid : Z) (reported : list string) (s : Supervisor)
    : Supervisor * option (list Value) :=
  let i := inner s in
  match workers i !! wid with
  | None => (s, None)
  | Some w =>
      let w' := slot_seen inst w in
      let w' := if w_state w' =?s "offline" then slot_with_state "online" w' else w' in
      let i := set_workers (<[wid := slot_with_commands [] w']> (workers i)) i in
      let i := retain_engines (λ e, negb (gone inst wid reported e)) i in
      (with_inner i s, Some (w_commands w))
  end.

Definition is_spawn (command : Value) : bool :=
  match command with
  | VObject m => bool_decide (get_str "cmd" m = Some "spawn")
  | _ => false
  end.
Definition exit_idle_at (location : Location) (e : Engine) : Engine :=
  if at_location location e && is_none (e_current_run e) then request_exit e else e.

Definition set_worker_state (wid : Z) (state : string) (s : Supervisor) : Supervisor :=
  let i := inner s in
  match workers i !! wid with
  | None => s
  | Some w =>
      let w' := slot_with_state state w in
      if state =?s "online" then with_inner (set_workers (<[wid := w']> (workers i)) i) s
      else
        let w' := slot_with_commands (List.filter (λ c, negb (is_spawn c)) (w_commands w')) w' in
        let location := Worker wid in
        let i := set_workers (<[wid := w']> (workers i)) i in
        let i := retain_engines
                   (λ e, negb (at_location location e) || e_polled e || is_some (e_current_run e)) i in
        with_inner (set_engines (exit_idle_at location <$> engines i) i) s
  end.

Definition set_worker_processors (wid processors : Z) (s : Supervisor) : Supervisor :=
  let i := inner s in
  with_inner (set_workers (alter (slot_with_processors (Z.max processors 1)) wid (workers i)) i) s.

Definition forget_worker (wid : Z) (s : Supervisor) : Supervisor :=
  let i := set_workers (delete wid (workers (inner s))) (inner s) in
  with_inner (retain_engines (λ e, negb (at_location (Worker wid) e)) i) s.

Definition mark_broken (wid : Z) (module : string) (s : Supervisor) : Supervisor :=
  let i := inner s in
  with_inner (set_workers (alter (λ w, slot_with_broken ({[module]} ∪ w_broken w) w) wid
                             (workers i)) i) s.
Definition clear_broken (wid : Z) (s : Supervisor) : Supervisor :=
  let i := inner s in
  with_inner (set_workers (alter (slot_with_broken ∅) wid (workers i)) i) s.
Definition command_worker (wid : Z) (command : Value) (s : Supervisor) : Supervisor :=
  let i := inner s in
  with_inner (set_workers (alter (λ w, slot_with_commands (w_commands w ++ [command]) w) wid
                             (workers i)) i) s.

Definition take_offline (i : Inner) (wid : Z) : Inner :=
  let i := set_workers (alter (λ w, slot_with_commands [] (slot_with_state "offline" w)) wid
                          (workers i)) i in
  retain_engines (λ e, negb (at_location (Worker wid) e) || is_some (e_current_run e)) i.
Definition is_quiet (inst timeout : Z) (w : WorkerSlot) : bool :=
  negb (w_state w =?s "offline") && (timeout <? inst - w_last_seen w).
Definition mark_quiet_workers (inst timeout : Z) (s : Supervisor) : Supervisor * list Z :=
  let quiet := (List.filter (λ kw, is_quiet inst timeout kw.2) (map_to_list (workers (inner s)))).*1 in
  (with_inner (fold_left take_offline quiet (inner s)) s, quiet).
Definition worker_left (wid : Z) (s : Supervisor) : Supervisor :=
  with_inner (take_offline (inner s) wid) s.

Definition run_worker (run_id : Z) (s : Supervisor) : option Z :=
  match find (λ e, match e_current_run e, e_location e with
                   | Some r, Worker _ => r =? run_id
                   | _, _ => false
                   end) (engine_list (inner s)) with
  | Some e => match e_location e with Worker w => Some w | Local => None end
  | None => None
  end.
Definition holder (run_id : Z) (s : Supervisor) : option Engine :=
  find (λ e, bool_decide (e_current_run e = Some run_id)) (engine_list (inner s)).
Definition run_placement (run_id : Z) (s : Supervisor) : option (Location * Z) :=
  (λ e, (e_location e, e_slot e)) <$> holder run_id s.
Definition engine_for_run (run_id : Z) (s : Supervisor) : option (string * option Z) :=
  (λ e, (e_id e, e_pid e)) <$> holder run_id s.
Definition worker_name (wid : Z) (s : Supervisor) : option string :=
  w_name <$> workers (inner s) !! wid.

(** ** Resources, failures and engines of the supervisor *)

Definition with_resources (r : Resources f64) (s : Supervisor) : Supervisor :=
  mkSupervisor (inner s) r (max_engines s) (engine_max_runs s).
Definition set_total (name : string) (t : f64) (s : Supervisor) : Supervisor :=
  with_resources (insert_total name t (resources s)) s.
Definition f64_1e_9 : f64 := f64_ratio 1 1000000000.
Definition available (name : string) (amount : f64) (s : Supervisor) : bool :=
  f64_le amount (f64_add (free (resources s) name) f64_1e_9).
Definition resource_declared (name : string) (s : Supervisor) : bool :=
  is_declared (resources s) name.
Definition try_acquire (run_id : Z) (needs : list (string * f64)) (s : Supervisor)
    : Supervisor * result Z string :=
  match can_acquire (resources s) needs with
  | Some blocking => (s, Err blocking)
  | None => let '(r, lease) := acquire run_id needs (resources s) in
            (with_resources r s, Ok lease)
  end.

Definition record_failure (flow_id now window_micros : Z) (s : Supervisor) : Supervisor * Z :=
  let i := inner s in
  let l := default [] (failures i !! flow_id) ++ [now] in
  let l := List.filter (λ t, now - t <=? window_micros) l in
  (with_inner (set_failures (<[flow_id := l]> (failures i)) i) s, Z.of_nat (length l)).
Definition clear_failures (flow_id : Z) (s : Supervisor) : Supervisor :=
  let i := inner s in with_inner (set_failures (delete flow_id (failures i)) i) s.

Definition forget_engine (engine_id : string) (s : Supervisor) : Supervisor := drop_engine engine_id s.
Definition forget_pid (pid : Z) (s : Supervisor) : Supervisor :=
  with_inner (retain_engines (λ e, negb (bool_decide (e_pid e = Some pid))) (inner s)) s.

Definition dequeue_many (run_ids : list Z) (s : Supervisor) : Supervisor :=
  with_inner
    (fold_left (λ i id, let i := (remove id i).1 in
                        set_waiting_marked (delete id (waiting_marked i)) i)
       (elements (list_to_set run_ids : gset Z)) (inner s)) s.
Definition queue_len (s : Supervisor) : Z := Z.of_nat (length (queue (inner s))).
Definition engines_busy_count (s : Supervisor) : Z :=
  Z.of_nat (length (List.filter (λ e, is_some (e_current_run e)) (engine_list (inner s)))).
Definition idle_engine_pids (s : Supervisor) : list Z :=
  omap e_pid (List.filter (λ e, is_none (e_current_run e)) (engine_list (inner s))).

(** Queued runs not yet reported as waiting, with what they wait for. *)
Definition engines_full (s : Supervisor) : bool :=
  (max_engines s <=? occupying (inner s))
  && forallb (λ e, is_some (e_current_run e) || e_exit_requested e) (engine_list (inner s)).
Definition wait_reason (s : Supervisor) (q : QueuedRun) : option string :=
  match can_acquire (resources s) (q_needs q) with
  | Some name => Some name
  | None => if engines_full s && negb (bool_decide (q_key q ∈ idle_engine_keys (inner s)))
            then Some "no engine slot" else None
  end.
Definition new_mark (now : Z) (s : Supervisor) (q : QueuedRun) : option (Z * string) :=
  if not_due q now then None
  else match wait_reason s q with
       | Some reason =>
           if bool_decide (waiting_marked (inner s) !! q_run_id q = Some reason) then None
           else Some (q_run_id q, reason)
       | None => None
       end.
Definition take_waiting_marks (now : Z) (s : Supervisor) : Supervisor * list (Z * string) :=
  let marks := omap (new_mark now s) (queue (inner s)).*2 in
  (with_inner (set_waiting_marked
     (fold_left (λ m im, <[im.1 := im.2]> m) marks (waiting_marked (inner s))) (inner s)) s, marks).

(** An engine a previous server started. *)
Definition adopt (inst : Z) (run : Run) (key : EngineKey) (s : Supervisor) : Supervisor :=
  let i := inner s in
  let id := match run_engine_id run with
            | Some id => id
            | None => "adopted-" +:+ dec (default 0 (run_engine_pid run))
            end in
  let location := of_engine id in
  let slot := match run_processor run with
              | Some p => Z.max p 1
              | None => free_slot i location
              end in
  let e := mkEngine id key (wrap_u32 <$> run_engine_pid run) 0 None (Some (run_id run)) false inst inst
             true None (Some inst) true location slot in
  with_inner (set_engines (<[id := e]> (engines i)) i) s.

(** ** Resizing the pool *)

Definition live_local (i : Inner) : list Engine :=
  List.filter (λ e, is_local e && negb (e_exit_requested e)) (engine_list i).

(** [max_by_key]: the last of the greatest. *)
Definition later_drain (best : option Engine) (e : Engine) : option Engine :=
  match best with
  | None => Some e
  | Some b => if bool_decide (default 0 (e_drained_at e) < default 0 (e_drained_at b))
              then Some b else Some e
  end.
Definition drained (i : Inner) : option Engine :=
  fold_left later_drain
    (List.filter (λ e, is_local e && is_some (e_drained_at e) && is_some (e_current_run e))
       (engine_list i)) None.

(** Each pass undoes one drain, so there are no more than engines. *)
Fixpoint grow_loop (n live : Z) (fuel : nat) (i : Inner) : Inner :=
  match fuel with
  | O => i
  | S fuel' =>
      if live <? n then
        match drained i with
        | Some e => grow_loop n (live + 1) fuel'
                      (set_engines (alter undo_drain (e_id e) (engines i)) i)
        | None => i
        end
      else i
  end.

(** Idle engines first, then busy ones, the youngest run first. *)
Definition shrink_le (a b : Engine) : Prop :=
  let since e := default (e_spawned_at e) (e_run_since e) in
  (is_some (e_current_run a) = false ∧ is_some (e_current_run b) = true) ∨
  (is_some (e_current_run a) = is_some (e_current_run b) ∧ since b ≤ since a).
#[export] Instance shrink_le_dec : RelDecision shrink_le.
Proof. intros a b. rw /shrink_le. apply _. Defined.

Definition shrink (inst n : Z) (i : Inner) : Inner :=
  let live := live_local i in
  let excess := Z.to_nat (Z.of_nat (length live) - n) in
  fold_left (λ i e, set_engines (alter (drain inst) (e_id e) (engines i)) i)
    (take excess (stable_sort shrink_le live)) i.

Definition clamp (lo hi n : Z) : Z := if n <? lo then lo else if hi <? n then hi else n.
Definition set_max_engines (inst cpu_cap n : Z) (s : Supervisor) : Supervisor :=
  let n := clamp 1 cpu_cap n in
  let i := inner s in
  let i := grow_loop n (Z.of_nat (length (live_local i))) (length (engine_list i)) i in
  mkSupervisor (shrink inst n i) (resources s) n (engine_max_runs s).

(** ** Reaping *)

Definition REMOTE_IDLE_TIMEOUT : Z := seconds 90.
Definition REMOTE_START_TIMEOUT : Z := seconds 60.

(** [exited] says whether a local engine's process is gone: its child was
    waited for, or no process has its pid. *)
Definition is_dead (inst : Z) (exited : Engine → bool) (e : Engine) : bool :=
  if is_local e then exited e
  else if e_polled e then is_none (e_current_run e) && (REMOTE_IDLE_TIMEOUT <? inst - e_last_seen e)
  else REMOTE_START_TIMEOUT <? inst - e_spawned_at e.
Definition sweep (inst : Z) (exited : Engine → bool) (s : Supervisor)
    : Supervisor * list (Z * string) :=
  let dead := List.filter (is_dead inst exited) (engine_list (inner s)) in
  (with_inner (retain_engines (λ e, negb (is_dead inst exited e)) (inner s)) s,
   omap (λ e, (λ r, (r, e_id e)) <$> e_current_run e) dead).

(** ** What the Queue page shows *)

Record EngineView : Type := mkEngineView {
  view_host : string;
  view_slot : Z;
  view_id : string;
  view_status : string;
  view_module : string;
  view_run_id : option Z;
  view_since_secs : Z;
}.
Record LineEntry : Type := mkLineEntry {
  le_run_id : Z;
  le_module : string;
  le_priority : Z;
  le_position : Z;
  le_order : Z;
  le_can_start : bool;
  le_reason : option string;
  le_overtaken_by : Z;
}.

Definition view_of (inst : Z) (i : Inner) (e : Engine) : EngineView :=
  mkEngineView
    (match e_location e with
     | Local => "server"
     | Worker w => match workers i !! w with
                   | Some slot => w_name slot
                   | None => "worker " +:+ dec w
                   end
     end)
    (e_slot e) (e_id e) (status e) (ek_module (e_key e)) (e_current_run e)
    ((inst - default (e_spawned_at e) (e_run_since e)) / 1000000).
Definition counted (e : Engine) : bool := negb (e_exit_requested e) || is_some (e_current_run e).

Definition id_le (a b : EngineView) : Prop := str_le (view_id a) (view_id b).
#[export] Instance id_le_dec : RelDecision id_le.
Proof. intros a b. rw /id_le /str_le. apply _. Defined.
Definition slot_le (a b : EngineView) : Prop :=
  view_slot a < view_slot b ∨ (view_slot a = view_slot b ∧ id_le a b).
#[export] Instance slot_le_dec : RelDecision slot_le.
Proof. intros a b. rw /slot_le. apply _. Defined.

Definition worker_engines (inst wid : Z) (s : Supervisor) : list EngineView :=
  stable_sort slot_le
    (view_of inst (inner s) <$>
       List.filter (λ e, at_location (Worker wid) e && counted e) (engine_list (inner s))).

Definition line_reason (s : Supervisor) (q : QueuedRun) : option string :=
  let i := inner s in
  let room := occupying i <? max_engines s in
  let engine_free := room || bool_decide (q_key q ∈ idle_engine_keys i) in
  match can_acquire (resources s) (q_needs q) with
  | Some name =>
      if starts_with name "flow:" then Some "max_concurrent"
      else if starts_with name "backfill:" then Some "backfill concurrency"
      else Some ("resource:" +:+ name)
  | None =>
      if negb engine_free && q_remote_ok q && negb (bool_decide (workers i = ∅))
         && negb (bool_decide (q_flow_id q ∈ worker_eligible_flows i))
      then Some "no processor with matching code"
      else if negb engine_free then Some "no processor"
      else None
  end.
Definition line_entry (s : Supervisor) (position : Z) (q : QueuedRun) : LineEntry :=
  let reason := line_reason s q in
  mkLineEntry (q_run_id q) (ek_module (q_key q)) (q_priority q) position (q_order q) (is_none reason)
    reason (default 0 (overtaken (inner s) !! q_run_id q)).
Fixpoint line_loop (now : Z) (s : Supervisor) (limit : nat) (position : Z) (line : list LineEntry)
    (qs : list QueuedRun) : list LineEntry * Z :=
  match qs with
  | [] => (line, position)
  | q :: qs' =>
      if not_due q now then line_loop now s limit position line qs'
      else
        let position := position + 1 in
        if (limit <=? length line)%nat then line_loop now s limit position line qs'
        else line_loop now s limit position (line ++ [line_entry s position q]) qs'
  end.
Definition queue_snapshot (now inst : Z) (limit : nat) (s : Supervisor)
    : list EngineView * list LineEntry * Z :=
  let views := stable_sort id_le (view_of inst (inner s) <$> List.filter counted (engine_list (inner s))) in
  let '(line, position) := line_loop now s limit 0 [] (queue (inner s)).*2 in
  (views, line, position).

(** Queued runs that are due later but before [until], soonest first. *)
Definition joins_at (now until : Z) (q : QueuedRun) : option (Z * Z) :=
  match q_not_before q with
  | Some t => if (now <? t) && (t <=? until) then Some (q_run_id q, t) else None
  | None => None
  end.
Definition join_le (a b : Z * Z) : Prop := a.2 < b.2 ∨ (a.2 = b.2 ∧ a.1 ≤ b.1).
#[export] Instance join_le_dec : RelDecision join_le.
Proof. intros a b. rw /join_le. apply _. Defined.
Definition joining (now until : Z) (limit : nat) (s : Supervisor) : list (Z * Z) :=
  take limit (stable_sort join_le (omap (joins_at now until) (queue (inner s)).*2)).
