(* ===== verification/PoolLaws.v ===== *)
(** * Bounds of the engine pool

    The reservations of [starting] are exactly the engines being created, and
    the pool stays within its size, whatever the sections of concurrent
    [ensure_capacity] calls and the other operations of the supervisor
    interleave. *)

From S2P Require Import Prelude Float64 Json States Schedules Model ActiveIndex Resources WorkQueue Pool.

(** ** Counting engines *)

Lemma filter_fst_size {K A} `{Countable K} (p : A → bool) (m : gmap K A) :
  length (List.filter p (map_to_list m).*2) = size (filter (λ kv, p kv.2 = true) m).
Proof.
  transitivity (length (filter (λ kv : K * A, p kv.2 = true) (map_to_list m))).
  - induction (map_to_list m) as [|[k x] l IH]; [done|].
    cbn [fmap list_fmap List.filter snd]. rw filter_cons /=.
    destruct (p x) eqn:E; case_decide; simpl; congruence.
  - rw -length_map_to_list (map_filter_alt (λ kv : K * A, p kv.2 = true) m). apply Permutation_length. symmetry. apply map_to_list_to_map.
    apply NoDup_fmap_filter, NoDup_fst_map_to_list.
Qed.

Definition fills (location : Location) (e : Engine) : bool := at_location location e && counted e.

Lemma occupying_size i location :
  occupying_at i location = Z.of_nat (size (filter (λ ke, fills location ke.2 = true) (engines i))).
Proof. rw /occupying_at. f_equal. apply filter_fst_size. Qed.

(** [m'] holds no engine that fills a slot where [m] held none. *)
Definition no_fuller (location : Location) (m m' : gmap string Engine) : Prop :=
  ∀ id e', m' !! id = Some e' → fills location e' = true →
           ∃ e, m !! id = Some e ∧ fills location e = true.

#[export] Instance no_fuller_preorder location : PreOrder (no_fuller location).
Proof.
  split; [intros m id e ? ?; by exists e|].
  intros m1 m2 m3 H1 H2 id e He Hf. destruct (H2 id e He Hf) as (e2 & He2 & Hf2).
  by destruct (H1 id e2 He2 Hf2) as (e1 & ? & ?); exists e1.
Qed.

Lemma no_fuller_occupying location i i' :
  no_fuller location (engines i) (engines i') → occupying_at i' location ≤ occupying_at i location.
Proof.
  intros Hn. rw !occupying_size. apply Nat2Z.inj_le. rw -!size_dom.
  apply subseteq_size. intros id. rw !elem_of_dom. intros [e' He'].
  apply map_lookup_filter_Some in He' as [He' Hf]. destruct (Hn id e' He' Hf) as (e & He & Hfe).
  exists e. by apply map_lookup_filter_Some.
Qed.

Lemma no_fuller_delete location m id : no_fuller location m (delete id m).
Proof. intros k e He Hf. apply lookup_delete_Some in He as [_ He]. by exists e. Qed.

Lemma no_fuller_filter location (P : string * Engine → Prop) `{!∀ x, Decision (P x)} m :
  no_fuller location m (filter P m).
Proof. intros k e He Hf. apply map_lookup_filter_Some in He as [He _]. by exists e. Qed.

Lemma no_fuller_alter location f m id :
  (∀ e, m !! id = Some e → fills location (f e) = true → fills location e = true) →
  no_fuller location m (alter f id m).
Proof.
  intros Hf k e. destruct (decide (k = id)) as [->|Hne].
  - rw lookup_alter_eq. destruct (m !! id) as [x|] eqn:Ex; [|done]. simpl. intros [= <-] ?.
    exists x. split; [done|]. by apply Hf.
  - rw lookup_alter_ne //. intros ? ?. by exists e.
Qed.

Lemma no_fuller_fmap location (f : Engine → Engine) m :
  (∀ e, fills location (f e) = true → fills location e = true) → no_fuller location m (f <$> m).
Proof.
  intros Hf k e. rw lookup_fmap. destruct (m !! k) as [x|] eqn:Ex; [|done]. simpl. intros [= <-] ?.
  exists x. split; [done|]. by apply Hf.
Qed.

(** An engine somewhere else takes no slot here. *)
Lemma no_fuller_insert_other location m id e :
  at_location location e = false → no_fuller location m (<[id := e]> m).
Proof.
  intros Ho k e'. destruct (decide (k = id)) as [->|Hne].
  - rw lookup_insert_eq. intros [= <-]. by rw /fills Ho.
  - rw lookup_insert_ne //. intros ? ?. by exists e'.
Qed.

Lemma occupying_insert location i id e :
  occupying_at (set_engines (<[id := e]> (engines i)) i) location ≤ occupying_at i location + 1.
Proof.
  rw !occupying_size /=. enough (size (filter (λ ke, fills location ke.2 = true) (<[id:=e]> (engines i)))
    ≤ S (size (filter (λ ke, fills location ke.2 = true) (engines i))))%nat by lia.
  rw -!size_dom. transitivity (size ({[id]} ∪ dom (filter (λ ke, fills location ke.2 = true) (engines i)))).
  - apply subseteq_size. intros k. rw elem_of_union elem_of_singleton !elem_of_dom.
    intros [x Hx]. destruct (decide (k = id)) as [->|Hne]; [by left|right].
    apply map_lookup_filter_Some in Hx as [Hx Hf]. rw lookup_insert_ne // in Hx.
    exists x. by apply map_lookup_filter_Some.
  - rw size_union_alt size_singleton. rw Nat.add_1_l. apply le_n_S, subseteq_size. set_solver.
Qed.

(** ** Reservations *)

Definition times (k : EngineKey) (l : list EngineKey) : Z :=
  Z.of_nat (length (filter (λ x, x = k) l)).

(** What [starting] holds when engines of the keys [l] are being created. *)
Definition tally (l : list EngineKey) : gmap EngineKey Z :=
  foldr (λ k m, <[k := default 0 (m !! k) + 1]> m) ∅ l.

Lemma times_cons k x l : times k (x :: l) = (if decide (x = k) then 1 else 0) + times k l.
Proof. rw /times filter_cons. destruct (decide (x = k)); simpl; lia. Qed.

Lemma times_app k l1 l2 : times k (l1 ++ l2) = times k l1 + times k l2.
Proof. rw /times filter_app length_app. lia. Qed.

Lemma tally_lookup l k : tally l !! k = if times k l =? 0 then None else Some (times k l).
Proof.
  induction l as [|x l IH]; simpl; [by rw lookup_empty|]. rw times_cons.
  assert (0 ≤ times k l) by (rw /times; lia). destruct (decide (x = k)) as [->|Hne].
  - rw lookup_insert_eq IH. destruct (Z.eqb_spec (times k l) 0) as [->|Hz]; [done|].
    destruct (Z.eqb_spec (1 + times k l) 0); [lia|]. simpl. f_equal. lia.
  - by rw lookup_insert_ne // IH.
Qed.

Lemma tally_ext l1 l2 : (∀ k, times k l1 = times k l2) → tally l1 = tally l2.
Proof. intros He. apply map_eq. intros k. by rw !tally_lookup He. Qed.

Lemma tally_perm l1 l2 : l1 ≡ₚ l2 → tally l1 = tally l2.
Proof. intros Hp. apply tally_ext. intros k. rw /times. f_equal. apply Permutation_length. by rw Hp. Qed.

Definition sum_values (m : gmap EngineKey Z) : Z := foldr Z.add 0 (map_to_list m).*2.

Lemma sum_perm (l1 l2 : list Z) : l1 ≡ₚ l2 → foldr Z.add 0 l1 = foldr Z.add 0 l2.
Proof. induction 1; simpl; lia. Qed.

Lemma sum_values_insert m k v :
  sum_values (<[k := v]> m) = sum_values m - default 0 (m !! k) + v.
Proof.
  assert (Hfresh : ∀ (m : gmap EngineKey Z) x, m !! k = None →
                   sum_values (<[k := x]> m) = x + sum_values m).
  { intros m' x Hm. rw /sum_values (sum_perm _ _ (fmap_Permutation snd _ _ (map_to_list_insert m' k x Hm))). done. }
  assert (Hdel : sum_values m = default 0 (m !! k) + sum_values (delete k m)).
  { destruct (m !! k) as [x|] eqn:Hx; simpl; [|by rw delete_id].
    rw -{1}(insert_delete_id m k x Hx) Hfresh // lookup_delete_eq //. }
  rw -insert_delete_eq Hfresh ?lookup_delete_eq //. lia.
Qed.

Lemma tally_sum l : sum_values (tally l) = Z.of_nat (length l).
Proof.
  induction l as [|x l IH]; simpl; [done|]. rw sum_values_insert IH. lia.
Qed.

(** ** The pool within its size *)

(** [all] are the keys of the engines being created. *)
Record within (max : Z) (all : list EngineKey) (i : Inner) : Prop := {
  wi_starting : starting i = tally all;
  wi_size : occupying_at i Local + Z.of_nat (length all) ≤ max;
}.

Lemma within_occupying max all i : within max all i → occupying i ≤ max.
Proof.
  intros [Hs Hz]. rw /occupying Hs. change (foldr Z.add 0 _) with (sum_values (tally all)).
  by rw tally_sum.
Qed.

Lemma within_perm max all all' i : all ≡ₚ all' → within max all i → within max all' i.
Proof.
  intros Hp [Hs Hz]. split; [by rw Hs (tally_perm _ _ Hp)|]. by rw -(Permutation_length Hp).
Qed.

(** Whatever leaves the reservations alone and fills no new local slot. *)
Lemma within_frame max all i i' :
  starting i' = starting i → no_fuller Local (engines i) (engines i') →
  within max all i → within max all i'.
Proof.
  intros Hst Hn [Hs Hz]. split; [by rw Hst|]. pose proof (no_fuller_occupying _ _ _ Hn). lia.
Qed.

Section laws.
Context `{PoolEnv}.

Lemma request_spawn_within max all i key rs :
  within max all i → occupying i < max →
  within max (key :: all) (request_spawn key i rs).1 ∧
  (request_spawn key i rs).2.*2 = rs.*2 ++ [key].
Proof using Type.
  intros [Hs Hz] Ho. rw /request_spawn /=. split; [|by rw fmap_app].
  rw /occupying Hs in Ho. change (foldr Z.add 0 _) with (sum_values (tally all)) in Ho.
  rw tally_sum in Ho. split; simpl; [by rw Hs|].
  change (occupying_at (set_starting _ _) Local) with (occupying_at i Local). lia.
Qed.

Lemma fills_request_exit location e : fills location (request_exit e) = true → fills location e = true.
Proof using Type.
  rw /fills /counted /at_location /= !andb_true_iff orb_true_iff. intros [? ?]. split; auto.
Qed.

Lemma spawn_loop_within max key n all i rs :
  within max all i →
  let r := spawn_loop max key n i rs in
  ∃ more, r.1.2.*2 = rs.*2 ++ more ∧ within max (more ++ all) r.1.1.
Proof using Type.
  revert all i rs. induction n as [|n IH]; intros all i rs Hw; [exists []; by rw app_nil_r|].
  cbn [spawn_loop]. destruct (Z.leb_spec max (occupying i)).
  - exists []. rw app_nil_r. destruct (victim key i) as [v|]; simpl; split; try done.
    revert Hw. apply within_frame; [done|]. apply no_fuller_alter. intros e _. apply fills_request_exit.
  - destruct (request_spawn_within max all i key rs Hw) as [Hw' Hr]; [done|].
    destruct (request_spawn key i rs) as [i' rs']; simpl in *.
    destruct (IH _ _ rs' Hw') as (more & Hm & Hin). exists (key :: more). split.
    + by rw Hm Hr -app_assoc.
    + revert Hin. apply within_perm. simpl. symmetry. apply Permutation_middle.
Qed.

Lemma plan_keys_within max kds all i rs sp :
  within max all i →
  let r := fold_left (plan_key max) kds (i, rs, sp) in
  ∃ more, r.1.2.*2 = rs.*2 ++ more ∧ within max (more ++ all) r.1.1.
Proof using Type.
  revert all i rs sp. induction kds as [|[key [pending flows]] kds IH]; intros all i rs sp Hw; simpl.
  { exists []. by rw app_nil_r. }
  destruct (spawn_loop_within max key (Z.to_nat (pending - usable_local i key)) all i rs Hw)
    as (m1 & Hm1 & Hw1).
  destruct (spawn_loop _ _ _ _ _) as [[i1 rs1] rest]; simpl in *.
  match goal with |- context [fold_left _ kds (i1, rs1, ?x)] => set (sp1 := x) end.
  destruct (IH _ i1 rs1 sp1 Hw1) as (m2 & Hm2 & Hw2). exists (m1 ++ m2). split.
  - rw Hm2 Hm1. by rw app_assoc.
  - revert Hw2. apply within_perm. rw !app_assoc. by rw (Permutation_app_comm m2 m1).
Qed.

Lemma plan_within now s all :
  within (max_engines s) all (inner s) →
  let r := plan now s in
  within (max_engines s) ((fl_requests r.2).*2 ++ all) (inner r.1) ∧
  max_engines r.1 = max_engines s.
Proof using Type.
  intros Hw. rw /plan. destruct (fold_left (demand_of now s) _ _) as [demand preferred].
  set (kds := map_to_list _).
  destruct (plan_keys_within (max_engines s) kds all (inner s) [] [] Hw) as (more & Hm & Hin).
  destruct (fold_left (plan_key _) kds _) as [[i rs] sp]; simpl in *. by rw Hm.
Qed.

(** ** Registration *)

Lemma finish_one_tally i key rest :
  starting i = tally (key :: rest) →
  starting (finish_one i key) = tally rest ∧ engines (finish_one i key) = engines i.
Proof using Type.
  intros Hs. rw /finish_one Hs tally_lookup times_cons decide_True //.
  assert (0 ≤ times key rest) by (rw /times; lia).
  destruct (Z.eqb_spec (1 + times key rest) 0); [lia|]. replace (1 + times key rest - 1) with (times key rest) by lia.
  destruct (Z.eqb_spec (times key rest) 0) as [Hz|Hz]; simpl; (split; [|done]).
  - rw delete_insert_eq. apply delete_id. by rw tally_lookup Hz.
  - rw insert_insert_eq. apply insert_id. rw tally_lookup. by destruct (Z.eqb_spec (times key rest) 0).
Qed.

Lemma finish_starting_tally keys i all :
  starting i = tally (keys ++ all) →
  starting (finish_starting keys i) = tally all ∧ engines (finish_starting keys i) = engines i.
Proof using Type.
  revert i. induction keys as [|key keys IH]; intros i Hs; simpl; [done|].
  destruct (finish_one_tally i key (keys ++ all) Hs) as [Hs' He].
  destruct (IH _ Hs') as [? He']. rw -He -He'. done.
Qed.

Lemma spawn_all_length rs : (length (spawn_all rs) ≤ length rs)%nat.
Proof using Type. induction rs as [|[id key] rs IH]; simpl; [done|]. case_match; simpl; lia. Qed.

Lemma register_engines_size inst l i :
  starting (register_engines inst l i) = starting i ∧
  occupying_at (register_engines inst l i) Local ≤ occupying_at i Local + Z.of_nat (length l).
Proof using Type.
  revert i. induction l as [|[[id key] pid] l IH]; intros i; [simpl; split; [done|lia]|].
  destruct (IH (register_engine inst i (id, key, pid))) as [Hs Ho].
  change (register_engines inst ((id, key, pid) :: l) i)
    with (register_engines inst l (register_engine inst i (id, key, pid))).
  split; [by rw Hs|].
  pose proof (occupying_insert Local i id
    (place Local (free_slot i Local) (Engine_new inst (module_mtime key) id key (Some pid) false))).
  cbn [register_engine length] in *. lia.
Qed.

Lemma register_within inst max rs all i :
  within max (rs.*2 ++ all) i →
  within max all (register_engines inst (spawn_all rs) (finish_starting rs.*2 i)).
Proof using Type.
  intros [Hs Hz]. destruct (finish_starting_tally _ _ _ Hs) as [Hs' He].
  destruct (register_engines_size inst (spawn_all rs) (finish_starting rs.*2 i)) as [Hst Ho].
  split; [by rw Hst|]. pose proof (spawn_all_length rs).
  rw length_app length_fmap in Hz.
  assert (occupying_at (finish_starting rs.*2 i) Local = occupying_at i Local) as Heq
    by (by rw /occupying_at /engine_list He).
  lia.
Qed.

(** Engines asked of a worker take no local slot. *)
Lemma start_on_frame inst wid key i :
  starting (start_on inst wid key i) = starting i ∧
  no_fuller Local (engines i) (engines (start_on inst wid key i)).
Proof using Type.
  rw /start_on. destruct (workers i !! wid) as [w|]; [|done]. split; [done|]. simpl.
  by apply no_fuller_insert_other.
Qed.

Lemma spill_loop_frame inst key flows n i :
  starting (spill_loop inst key flows n i) = starting i ∧
  no_fuller Local (engines i) (engines (spill_loop inst key flows n i)).
Proof using Type.
  revert i. induction n as [|n IH]; intros i; simpl; [done|].
  destruct (spill_choice key flows i) as [[wid fr]|]; [|done].
  destruct (start_on_frame inst wid key i) as [Hs Hn], (IH (start_on inst wid key i)) as [Hs' Hn'].
  split; [congruence|]. by etransitivity.
Qed.

Lemma spills_within inst max all l i :
  within max all i → within max all (fold_left (spill_over inst) l i).
Proof using Type.
  revert i. induction l as [|[[key wanted] flows] l IH]; intros i Hw; [done|]. apply IH.
  revert Hw. apply within_frame; apply spill_loop_frame.
Qed.

Lemma spawn_on_within inst max all l i :
  within max all i → within max all (fold_left (λ i kw, spawn_on inst kw.1 kw.2 i) l i).
Proof using Type.
  revert i. induction l as [|[key wid] l IH]; intros i Hw; [done|]. apply IH. simpl. rw /spawn_on.
  destruct (workers i !! wid) as [w|]; [|done]. destruct (_ || _); [done|].
  revert Hw. apply within_frame; apply start_on_frame.
Qed.

Lemma respawn_within max kds all i rs :
  within max (rs.*2 ++ all) i →
  let r := fold_left (respawn_key max) kds (i, rs) in within max (r.2.*2 ++ all) r.1.
Proof using Type.
  revert i rs. induction kds as [|kd kds IH]; intros i rs Hw; [done|].
  cbn [fold_left]. cbv zeta. rw {2 4}/respawn_key.
  destruct (_ && _) eqn:Hc; [|by apply IH]. apply andb_true_iff in Hc as [_ Ho%Z.ltb_lt].
  destruct (request_spawn_within max _ i kd.1 rs Hw Ho) as [Hw' Hr].
  destruct (request_spawn kd.1 i rs) as [i' rs']; simpl in *. apply IH. rw Hr.
  revert Hw'. apply within_perm. rw -app_assoc. apply Permutation_middle.
Qed.

Lemma settle_within inst fl s all :
  within (max_engines s) ((fl_requests fl).*2 ++ all) (inner s) →
  let r := settle inst fl s in
  within (max_engines s) (r.2.*2 ++ all) (inner r.1) ∧ max_engines r.1 = max_engines s.
Proof using Type.
  intros Hw%(register_within inst). apply (spills_within inst _ _ (fl_spills fl)) in Hw.
  apply (spawn_on_within inst _ _ (fl_preferred fl)) in Hw.
  rw /settle. set (i := fold_left _ (fl_preferred fl) _) in *. set (kds := map_to_list _).
  pose proof (respawn_within (max_engines s) kds all i [] Hw) as Hr.
  destruct (fold_left (respawn_key _) kds _) as [i' rs']. done.
Qed.
End laws.

(** ** The other operations fill no slot *)

Definition frames (s s' : Supervisor) : Prop :=
  starting (inner s') = starting (inner s) ∧ max_engines s' = max_engines s ∧
  no_fuller Local (engines (inner s)) (engines (inner s')).

#[export] Instance frames_preorder : PreOrder frames.
Proof.
  split; [by intros s|]. intros s1 s2 s3 (? & ? & ?) (? & ? & ?).
  split_and!; [congruence..|by etransitivity].
Qed.

Lemma frames_same s s' :
  starting (inner s') = starting (inner s) → max_engines s' = max_engines s →
  engines (inner s') = engines (inner s) → frames s s'.
Proof. intros ? ? He. split_and!; [done..|]. by rw He. Qed.

Lemma remove_same id i :
  engines (remove id i).1 = engines i ∧ starting (remove id i).1 = starting i.
Proof. rw /remove. by destruct (positions (set_overtaken _ i) !! id). Qed.

Lemma fold_remove_same {A} (f : Inner → A → Inner) l i :
  (∀ i x, engines (f i x) = engines i ∧ starting (f i x) = starting i) →
  engines (fold_left f l i) = engines i ∧ starting (fold_left f l i) = starting i.
Proof.
  intros Hf. revert i. induction l as [|x l IH]; intros i; [done|]. simpl.
  destruct (Hf i x) as [<- <-]. apply IH.
Qed.

Lemma push_same item i : engines (push item i) = engines i ∧ starting (push item i) = starting i.
Proof. rw /push. by case_match. Qed.

Lemma end_run_frames id s : frames s (run_finished id s).
Proof.
  rw /run_finished. set (i := set_engines _ _). destruct (remove_same id i) as [He Hs].
  split_and!; simpl; [by rw Hs|done|]. rw He /=. apply no_fuller_fmap. intros e.
  rw /end_run. case_match; [|done]. rw /fills /counted /at_location /= orb_false_r !andb_true_iff.
  intros [? [_ ->]%negb_true_iff%orb_false_iff]. done.
Qed.

Lemma stop_run_frames id s : frames s (abort_handoff id s).1.
Proof.
  rw /abort_handoff. destruct (handoff (inner s) !! id) as [item|]; [|done].
  set (i := set_engines _ _). destruct (push_same item i) as [He Hs].
  split_and!; simpl; [by rw Hs|done|]. rw He /=. apply no_fuller_fmap. intros e.
  rw /stop_run. case_match; [|done]. rw /fills /counted /at_location /= orb_false_r !andb_true_iff.
  intros [? ->]. done.
Qed.

Lemma retain_frames p s : frames s (with_inner (retain_engines p (inner s)) s).
Proof. split_and!; [done..|]. apply no_fuller_filter. Qed.

Lemma fills_polled location inst pid e : fills location (polled inst pid e) = true → fills location e = true.
Proof.
  rw /fills /counted /at_location /= orb_false_r !andb_true_iff. by intros [? ->].
Qed.

(** An engine that is not told to exit may take a run. *)
Lemma finish_scan_frames inst pid eid r i s :
  inner s = set_engines (alter (polled inst pid) eid (engines i)) i →
  (∀ e, engines i !! eid = Some e → e_exit_requested e = false) →
  starting (inner (finish_scan inst eid r s).1) = starting i ∧
  max_engines (finish_scan inst eid r s).1 = max_engines s ∧
  no_fuller Local (engines i) (engines (inner (finish_scan inst eid r s).1)).
Proof.
  intros Hi Hx. destruct r as [k item blocked| |]; simpl; rw ?Hi /=; split_and!; try done.
  - etransitivity; [apply no_fuller_alter; intros e _; apply fills_polled|].
    apply no_fuller_alter. intros e. rw lookup_alter_eq.
    destruct (engines i !! eid) as [x|]; [|done]. simpl. intros [= <-].
    rw /fills /counted /at_location /= !andb_true_iff. intros [? _]. by rw (Hx x eq_refl).
  - apply no_fuller_alter. intros e _. apply fills_polled.
  - etransitivity; [|apply no_fuller_delete]. apply no_fuller_alter. intros e _. apply fills_polled.
Qed.

Lemma polled_frames inst pid eid s :
  frames s (with_inner (set_engines (alter (polled inst pid) eid (engines (inner s))) (inner s)) s).
Proof. split_and!; [done..|]. apply no_fuller_alter. intros e _. apply fills_polled. Qed.

Lemma drop_engine_frames eid s : frames s (drop_engine eid s).
Proof. split_and!; [done..|]. apply no_fuller_delete. Qed.

Lemma take_work_frames now inst mtime disk eid pid key s :
  is_Some (engines (inner s) !! eid) → frames s (take_work now inst mtime disk eid pid key s).1.
Proof.
  intros [e He]. rw /take_work (bool_decide_true _ (mk_is_Some _ _ He)).
  pose proof (polled_frames inst pid eid s) as Hp. set (s1 := with_inner _ s) in Hp.
  assert (He1 : engines (inner s1) !! eid = Some (polled inst pid e)) by (by rw /= lookup_alter_eq He).
  assert (Hscan : ∀ r, e_exit_requested e = false → frames s (finish_scan inst eid r s1).1).
  { intros r Hx. apply (finish_scan_frames inst pid eid r (inner s) s1); [done|]. intros e'. rw He.
    by intros [= <-]. }
  destruct (of_engine eid) as [|wid].
  - rw /take_local_work -/s1 He1 /=. destruct (e_exit_requested e) eqn:Hx; simpl;
      [etransitivity; [exact Hp|apply drop_engine_frames]|].
    destruct (_ || _); simpl; [etransitivity; [exact Hp|apply drop_engine_frames]|].
    destruct (take_job _ _) as [[payload rest]|]; simpl; [|by apply Hscan].
    etransitivity; [exact Hp|]. by apply frames_same.
  - rw /take_remote_work. destruct (workers (inner s) !! wid) as [w|]; [|done].
    rw -/s1 He1 /=. destruct (e_exit_requested e) eqn:Hx; simpl;
      [etransitivity; [exact Hp|apply drop_engine_frames]|].
    destruct (_ || _); simpl; [etransitivity; [exact Hp|apply drop_engine_frames]|by apply Hscan].
Qed.

Inductive pop : Type :=
| PEnqueue (item : QueuedRun)
| PEnqueueJob (key : EngineKey) (payload : Value)
| PDequeue (id : Z)
| PDequeueMany (ids : list Z)
| PTakeWork (now inst : Z) (mtime disk : option Z) (eid : string) (pid : Z) (key : EngineKey)
| PHandoffDone (id : Z)
| PAbort (id : Z)
| PFinished (id : Z)
| PImportFailed (key : EngineKey) (eid : string)
| PForgetEngine (eid : string)
| PForgetPid (pid : Z)
| PSweep (inst : Z) (exited : Engine → bool)
| PSyncWorker (inst wid : Z) (name : string) (processors : Z) (state : string) (eligible : gset Z)
| PHeartbeat (inst wid : Z) (reported : list string)
| PWorkerState (wid : Z) (state : string)
| PForgetWorker (wid : Z)
| PWorkerLeft (wid : Z)
| PQuiet (inst timeout : Z)
| PMarkBroken (wid : Z) (module : string)
| PWaitingMarks (now : Z)
| PRecordFailure (fid now window : Z)
| PSetTotal (name : string) (t : f64).

Definition pexec (o : pop) (s : Supervisor) : Supervisor :=
  match o with
  | PEnqueue item => enqueue item s
  | PEnqueueJob key payload => enqueue_job key payload s
  | PDequeue id => (dequeue id s).1
  | PDequeueMany ids => dequeue_many ids s
  | PTakeWork now inst mtime disk eid pid key => (take_work now inst mtime disk eid pid key s).1
  | PHandoffDone id => handoff_done id s
  | PAbort id => (abort_handoff id s).1
  | PFinished id => run_finished id s
  | PImportFailed key eid => (take_queued_for_key key eid s).1
  | PForgetEngine eid => forget_engine eid s
  | PForgetPid pid => forget_pid pid s
  | PSweep inst exited => (sweep inst exited s).1
  | PSyncWorker inst wid name processors state eligible =>
      sync_worker inst wid name processors state eligible s
  | PHeartbeat inst wid reported => (worker_heartbeat inst wid reported s).1
  | PWorkerState wid state => set_worker_state wid state s
  | PForgetWorker wid => forget_worker wid s
  | PWorkerLeft wid => worker_left wid s
  | PQuiet inst timeout => (mark_quiet_workers inst timeout s).1
  | PMarkBroken wid module => mark_broken wid module s
  | PWaitingMarks now => (take_waiting_marks now s).1
  | PRecordFailure fid now window => (record_failure fid now window s).1
  | PSetTotal name t => set_total name t s
  end.

(** A poll of an engine the supervisor does not know adopts it. *)
Definition known (o : pop) (s : Supervisor) : Prop :=
  match o with PTakeWork _ _ _ _ eid _ _ => is_Some (engines (inner s) !! eid) | _ => True end.

Lemma take_offline_frame l i :
  starting (fold_left take_offline l i) = starting i ∧
  no_fuller Local (engines i) (engines (fold_left take_offline l i)).
Proof.
  revert i. induction l as [|wid l IH]; intros i; [done|]. simpl. destruct (IH (take_offline i wid)) as [-> Hn].
  split; [done|]. etransitivity; last exact Hn. apply no_fuller_filter.
Qed.

Lemma worker_state_frames wid state s : frames s (set_worker_state wid state s).
Proof.
  rw /set_worker_state. destruct (workers (inner s) !! wid) as [w|]; [|done].
  case_match; [by apply frames_same|]. split_and!; [done..|]. simpl.
  etransitivity; last first.
  - apply no_fuller_fmap. intros e. rw /exit_idle_at. case_match; [apply fills_request_exit|done].
  - apply no_fuller_filter.
Qed.

Lemma import_failed_frames key eid s : frames s (take_queued_for_key key eid s).1.
Proof.
  rw /take_queued_for_key. set (out := _ <$> _).
  destruct (fold_remove_same (λ i id, (remove id i).1) out (inner s)) as [He Hs].
  { intros i id. apply remove_same. }
  split_and!; simpl; [done..|]. rw He. apply no_fuller_delete.
Qed.

Lemma pexec_frames o s : known o s → frames s (pexec o s).
Proof.
  destruct o as [item|key payload|id|ids|now inst mtime disk eid pid key|id|id|id|key eid|eid|pid|inst exited
    |inst wid name processors state eligible|inst wid reported|wid state|wid|wid|inst timeout|wid module|now
    |fid now window|name t]; simpl; intros Hk.
  - destruct (push_same item (inner s)). by apply frames_same.
  - by apply frames_same.
  - rw /dequeue. destruct (remove id _) as [i' r] eqn:E.
    pose proof (remove_same id (set_waiting_marked (delete id (waiting_marked (inner s))) (inner s))) as [He Hs].
    rw E in He Hs. by apply frames_same.
  - rw /dequeue_many. set (f := λ i id, _).
    destruct (fold_remove_same f (elements (list_to_set ids : gset Z)) (inner s)) as [He Hs];
      [intros i id; apply remove_same|by apply frames_same].
  - by apply take_work_frames.
  - by apply frames_same.
  - apply stop_run_frames.
  - apply end_run_frames.
  - apply import_failed_frames.
  - apply drop_engine_frames.
  - apply retain_frames.
  - apply retain_frames.
  - rw /sync_worker. repeat case_match; by apply frames_same.
  - rw /worker_heartbeat. destruct (workers (inner s) !! wid); [|done].
    split_and!; [done..|]. apply no_fuller_filter.
  - apply worker_state_frames.
  - split_and!; [done..|]. apply no_fuller_filter.
  - split_and!; [done..|]. apply no_fuller_filter.
  - destruct (take_offline_frame (List.filter (λ kw, is_quiet inst timeout kw.2)
      (map_to_list (workers (inner s)))).*1 (inner s)). by split_and!.
  - by apply frames_same.
  - by apply frames_same.
  - by apply frames_same.
  - by apply frames_same.
Qed.

(** ** Interleaved calls *)

(** The supervisor with the calls of [ensure_capacity] that are creating
    engines: those before their second section, and those before their third. *)
Record PoolState : Type := mkPoolState {
  ps_sup : Supervisor;
  ps_planned : list Flight;
  ps_respawning : list requests;
}.

Definition keys_of (rss : list requests) : list EngineKey := concat ((λ rs : requests, rs.*2) <$> rss).
Definition in_flight (p : PoolState) : list EngineKey :=
  keys_of (fl_requests <$> ps_planned p) ++ keys_of (ps_respawning p).

Lemma keys_of_middle rss1 rs rss2 : keys_of (rss1 ++ rs :: rss2) ≡ₚ rs.*2 ++ keys_of (rss1 ++ rss2).
Proof.
  rw /keys_of !fmap_app fmap_cons !concat_app. cbn [concat].
  rw !(assoc_L (++)). by rw (Permutation_app_comm (concat _) (rs.*2)).
Qed.

Inductive pool_step `{PoolEnv} : PoolState → PoolState → Prop :=
| step_plan now s fs rss :
    pool_step (mkPoolState s fs rss) (mkPoolState (plan now s).1 ((plan now s).2 :: fs) rss)
| step_settle inst s fs1 fl fs2 rss :
    pool_step (mkPoolState s (fs1 ++ fl :: fs2) rss)
      (mkPoolState (settle inst fl s).1 (fs1 ++ fs2) ((settle inst fl s).2 :: rss))
| step_register inst s fs rss1 rs rss2 :
    pool_step (mkPoolState s fs (rss1 ++ rs :: rss2))
      (mkPoolState (register_more inst rs s) fs (rss1 ++ rss2))
| step_other o s fs rss :
    known o s → pool_step (mkPoolState s fs rss) (mkPoolState (pexec o s) fs rss).

Definition pool_ok (p : PoolState) : Prop :=
  within (max_engines (ps_sup p)) (in_flight p) (inner (ps_sup p)).

Lemma pool_step_ok `{PoolEnv} p p' : pool_step p p' → pool_ok p → pool_ok p'.
Proof.
  rw /pool_ok /in_flight.
  destruct 1 as [now s fs rss|inst s fs1 fl fs2 rss|inst s fs rss1 rs rss2|o s fs rss Hk]; simpl; intros Hw.
  - destruct (plan_within now s _ Hw) as [Hp ->]. revert Hp. apply within_perm.
    by rw /keys_of /= (assoc_L (++)).
  - rw !fmap_app fmap_cons in Hw.
    apply (within_perm _ _ _ _ (Permutation_app_tail _ (keys_of_middle _ _ _))) in Hw.
    rw -(assoc_L (++)) -fmap_app in Hw. destruct (settle_within inst fl s _ Hw) as [Hs ->].
    revert Hs. apply within_perm. change (keys_of (?rs :: rss)) with (rs.*2 ++ keys_of rss).
    rw !(assoc_L (++)). by rw (Permutation_app_comm (keys_of _) ((settle inst fl s).2.*2)).
  - apply (within_perm _ _ _ _ (Permutation_app_head _ (keys_of_middle _ _ _))) in Hw.
    apply (register_within inst). revert Hw. apply within_perm.
    rw !(assoc_L (++)). by rw (Permutation_app_comm (keys_of (_ <$> fs)) rs.*2).
  - destruct (pexec_frames o s Hk) as (Hs & -> & Hn). revert Hw. by apply within_frame.
Qed.

Lemma pool_step_max `{PoolEnv} p p' :
  pool_step p p' → pool_ok p → max_engines (ps_sup p') = max_engines (ps_sup p).
Proof.
  rw /pool_ok. destruct 1 as [now s fs rss|inst s fs1 fl fs2 rss|inst s fs rss1 rs rss2|o s fs rss Hk];
    simpl; intros Hw; [by eapply plan_within| |done|by apply pexec_frames].
  rw /settle. by destruct (fold_left (respawn_key _) _ _).
Qed.

Lemma pool_steps_ok `{PoolEnv} p p' :
  rtc pool_step p p' → pool_ok p → pool_ok p' ∧ max_engines (ps_sup p') = max_engines (ps_sup p).
Proof.
  induction 1 as [p|p1 p2 p3 Hs _ IH]; [done|]. intros Hp.
  destruct (IH (pool_step_ok _ _ Hs Hp)) as [? ->]. split; [done|]. by apply pool_step_max.
Qed.

Definition pool_env : PoolEnv := {| process_id := 7; spawn := λ _ _, Some 70; module_mtime := λ _, None |}.

(** Two calls of [ensure_capacity] overlap: both plan before either starts its
    engines. *)
Definition overlapping : PoolState :=
  let '(s1, f1) := plan (H := pool_env) 10 two_queued in
  let '(s2, f2) := plan (H := pool_env) 11 s1 in
  let '(s3, r1) := settle (H := pool_env) 12 f1 s2 in
  let '(s4, r2) := settle (H := pool_env) 13 f2 s3 in
  mkPoolState (register_more (H := pool_env) 14 r1 s4) [] [r2].


