(* ===== verification/Jitter.v ===== *)
(** * The jitter of a schedule (server/src/scheduler.rs, [jitter_offset])

    A fire's offset is a hash of the schedule and the fire time (FNV-1a over
    sixteen bytes) reduced modulo the jitter in microseconds, after values in
    the top, incomplete stretch of the 64-bit range are rejected and hashed
    again.  Nothing in the code bounds how often: the rehash is a bijection, so
    the loop ends unless a whole cycle of it lies in the rejected stretch.

    Here the loop has fuel, and two rounds are proved enough for every jitter up
    to 549,755 seconds (six days).  The rejected stretch is then within the
    last [2^39] values, and a value that is still there after a round gives a
    short vector of the lattice of pairs [(e, m * e mod 2^64)] for the
    multiplier [m] of the rehash: a reduced basis leaves some twenty thousand
    candidates, each of which is computed to leave the stretch in the next
    round. *)

From S2P Require Import Prelude.

Definition FNV_OFFSET : Z := 0xcbf29ce484222325.
Definition FNV_PRIME : Z := 0x100000001b3.
Definition MIX : Z := 0xff51afd7ed558ccd.

(** [i64::to_le_bytes] *)
Definition to_le_bytes (z : Z) : list Z :=
  (λ k, Z.land (Z.shiftr (wrap_u64 z) (8 * k)) 255) <$> [0; 1; 2; 3; 4; 5; 6; 7].

Definition fnv_step (hash byte : Z) : Z := wrap_u64 (Z.lxor hash byte * FNV_PRIME).
Definition fire_hash (schedule_id fire : Z) : Z :=
  fold_left fnv_step (to_le_bytes schedule_id ++ to_le_bytes fire) FNV_OFFSET.

Definition rehash (hash : Z) : Z :=
  let hash := Z.lxor hash (Z.shiftr hash 33) in
  let hash := wrap_u64 (hash * MIX) in
  Z.lxor hash (Z.shiftr hash 33).

(** The loop, [None] when [fuel] rounds were not enough. *)
Fixpoint reject (fuel : nat) (threshold hash : Z) : option Z :=
  if threshold <=? hash then
    match fuel with
    | O => None
    | S n => reject n threshold (rehash hash)
    end
  else Some hash.

(** [None] also where the code panics: a modulus that wraps to zero. *)
Definition jitter_within (fuel : nat) (schedule_id fire jitter_secs : Z) : option Z :=
  if jitter_secs <=? 0 then Some 0
  else
    let modulus := wrap_u64 (jitter_secs * 1000000) in
    if modulus =? 0 then None
    else
      let threshold := u64_MAX - u64_MAX mod modulus in
      (λ hash, wrap_i64 (hash mod modulus)) <$> reject fuel threshold (fire_hash schedule_id fire).

(** Two rounds are enough for the jitters of the theorem below. *)
Definition JITTER_ROUNDS : nat := 2.
Definition jitter_offset (schedule_id fire jitter_secs : Z) : Z :=
  default 0 (jitter_within JITTER_ROUNDS schedule_id fire jitter_secs).

(** ** Ranges *)

Definition u64 (h : Z) : Prop := 0 ≤ h < two64.

Lemma wrap_u64_range z : u64 (wrap_u64 z).
Proof. rw /u64 /wrap_u64 /two64. apply Z.mod_pos_bound. lia. Qed.

Lemma lt_pow_log h n : 0 ≤ h → 0 ≤ n → h < 2 ^ n ↔ Z.shiftr h n = 0.
Proof.
  intros Hh Hn. rw Z.shiftr_div_pow2 //. split; [intros; by apply Z.div_small|].
  intros Hz. assert (0 < 2 ^ n) by (apply Z.pow_pos_nonneg; lia).
  pose proof (Z.div_mod h (2 ^ n)). pose proof (Z.mod_pos_bound h (2 ^ n)). lia.
Qed.

Lemma lxor_shift_range h : u64 h → u64 (Z.lxor h (Z.shiftr h 33)).
Proof.
  rw /u64 /two64. change 18446744073709551616 with (2 ^ 64). intros [H0 H1].
  assert (Hs : 0 ≤ Z.shiftr h 33) by (by apply Z.shiftr_nonneg).
  assert (Hx : 0 ≤ Z.lxor h (Z.shiftr h 33)) by (apply Z.lxor_nonneg; tauto).
  split; [done|]. apply lt_pow_log; [done..|]. rw Z.shiftr_lxor Z.shiftr_shiftr //.
  rw (proj1 (lt_pow_log h 64 H0 ltac:(lia)) H1) Z.lxor_0_l. apply lt_pow_log; [done..|]. lia.
Qed.

Lemma rehash_range h : u64 (rehash h).
Proof. rw /rehash. apply lxor_shift_range, wrap_u64_range. Qed.

Lemma fnv_range l h : u64 h → u64 (fold_left fnv_step l h).
Proof.
  revert h. induction l as [|b l IH]; intros h Hh; [done|]. apply IH, wrap_u64_range.
Qed.

Lemma fire_hash_range sid fire : u64 (fire_hash sid fire).
Proof. apply fnv_range. rw /u64 /FNV_OFFSET /two64. lia. Qed.

(** ** The last [2^39] values *)

Definition top (h : Z) : Prop := two64 - 2 ^ 39 ≤ h.

Lemma top_shift h : u64 h → top h ↔ Z.shiftr h 39 = 2 ^ 25 - 1.
Proof.
  rw /u64 /top /two64. intros Hh. rw Z.shiftr_div_pow2 //.
  pose proof (Z.div_mod h (2 ^ 39)). pose proof (Z.mod_pos_bound h (2 ^ 39)). lia.
Qed.

(** A shift by 33 reaches no bit of the top 31. *)
Lemma top_lxor h : u64 h → top (Z.lxor h (Z.shiftr h 33)) ↔ top h.
Proof.
  intros Hh. rw top_shift; [|by apply lxor_shift_range]. rw top_shift //.
  rw Z.shiftr_lxor Z.shiftr_shiftr //. destruct Hh as [H0 H1].
  assert (H2 : h < 2 ^ (33 + 39)) by (rw /two64 in H1; lia).
  by rw (proj1 (lt_pow_log h (33 + 39) H0 ltac:(lia)) H2) Z.lxor_0_r.
Qed.

(** ** The lattice *)

Definition u0 : Z := 573054361.
Definition u1 : Z := 3273416581.
Definition v0 : Z := 5748855089.
Definition v1 : Z := 648548413.

(** The next round from [y = 2^64 - g]. *)
Definition leaves (g : Z) : bool :=
  let y := two64 - g in
  let h := Z.lxor y (Z.shiftr y 33) in
  let x := Z.lxor h (Z.shiftr h 33) in
  let y := Z.land (x * MIX) u64_MAX in
  Z.lxor y (Z.shiftr y 33) <? two64 - 2 ^ 39.

Definition in_box (z : Z) : bool := (1 <=? z) && (z <=? 2 ^ 39).
Definition candidate_leaves (a b : Z) : bool :=
  if in_box (a * u0 + b * v0) && in_box (a * u1 + b * v1) then leaves (a * u1 + b * v1) else true.

Fixpoint all_from (f : Z → bool) (n : nat) (z : Z) : bool :=
  match n with
  | O => true
  | S n' => f z && all_from f n' (z + 1)
  end.

Lemma all_from_spec f n z x : all_from f n z = true → z ≤ x < z + Z.of_nat n → f x = true.
Proof.
  revert z. induction n as [|n IH]; intros z; [lia|]. cbn [all_from].
  intros [Hf Ha]%andb_true_iff Hx. destruct (decide (x = z)) as [->|]; [done|]. apply (IH (z + 1)); [done|lia].
Qed.

Lemma candidates_leave :
  all_from (λ a, all_from (candidate_leaves a) 118 (-18)) 194 (-20) = true.
Proof. vm_compute. reflexivity. Qed.

(** A pair of small numbers one of which is the other times [MIX], modulo
    [2^64], is a small combination of the basis. *)
Lemma box_coordinates e g :
  1 ≤ e ≤ 2 ^ 39 → 1 ≤ g ≤ 2 ^ 39 → (∃ q, g = MIX * e - q * two64) →
  ∃ a b, e = a * u0 + b * v0 ∧ g = a * u1 + b * v1 ∧ -20 ≤ a ≤ 173 ∧ -18 ≤ b ≤ 99.
Proof.
  intros He Hg [q Hq].
  set (ku := (MIX * u0 - u1) / two64). set (kv := (MIX * v0 - v1) / two64).
  exists (kv * e - q * v0), (q * u0 - ku * e).
  assert (Hku : ku = 571530147) by (vm_compute; reflexivity).
  assert (Hkv : kv = 5733564244) by (vm_compute; reflexivity).
  rw Hku Hkv Hq /u0 /u1 /v0 /v1 /MIX /two64 in Hg |- *. lia.
Qed.

Lemma two_rounds h : u64 h → top h → top (rehash h) → ¬ top (rehash (rehash h)).
Proof.
  intros Hh Ht Ht1. set (x := Z.lxor h (Z.shiftr h 33)).
  assert (Hx : u64 x) by (by apply lxor_shift_range). assert (Htx : top x) by (by apply top_lxor).
  set (y := wrap_u64 (x * MIX)). assert (Hy : u64 y) by apply wrap_u64_range.
  change (rehash h) with (Z.lxor y (Z.shiftr y 33)) in *.
  apply (proj1 (top_lxor y Hy)) in Ht1.
  destruct (box_coordinates (two64 - x) (two64 - y)) as (a & b & He & Hg & Ha & Hb).
  { rw /u64 /top in Hx Htx. lia. }
  { rw /u64 /top in Hy Ht1. lia. }
  { exists (MIX - x * MIX / two64 - 1). rw /y /wrap_u64. pose proof (Z.div_mod (x * MIX) two64).
    rw /two64 in H |- *. lia. }
  pose proof (all_from_spec _ _ _ a candidates_leave ltac:(lia)) as Hc.
  pose proof (all_from_spec _ _ _ b Hc ltac:(lia)) as Hc'. rw /candidate_leaves -He -Hg in Hc'.
  assert (in_box (two64 - x) = true ∧ in_box (two64 - y) = true) as [Hbx Hby].
  { rw /in_box !andb_true_iff !Z.leb_le. rw /u64 /top in Hx Htx Hy Ht1. lia. }
  rw Hbx Hby /leaves in Hc'. cbn [andb] in Hc'. replace (two64 - (two64 - y)) with y in Hc' by lia.
  apply Z.ltb_lt in Hc'. rw /rehash /top /wrap_u64.
  assert (Hl : ∀ z, z mod two64 = Z.land z u64_MAX) by (intros z; apply (eq_sym (Z.land_ones z 64 ltac:(lia)))).
  rw Hl. lia.
Qed.

Lemma reject_two threshold h :
  u64 h → two64 - 2 ^ 39 ≤ threshold → ∃ h', reject JITTER_ROUNDS threshold h = Some h' ∧ u64 h'.
Proof.
  intros Hh Ht. cbn [reject JITTER_ROUNDS]. pose proof (rehash_range h) as H1. pose proof (rehash_range (rehash h)) as H2.
  destruct (Z.leb_spec threshold h); [|by exists h].
  destruct (Z.leb_spec threshold (rehash h)); [|by exists (rehash h)].
  destruct (Z.leb_spec threshold (rehash (rehash h))); [|by exists (rehash (rehash h))].
  exfalso. apply (two_rounds h Hh); rw /top; lia.
Qed.

(** C35: the offset of a fire is always found: for every schedule, fire time
    and jitter up to 549,755 seconds the loop that rejects biased hashes ends
    within two rounds, and the offset lies in [0, jitter) seconds. *)
Theorem jitter_terminates (schedule_id fire jitter_secs : Z) :
  0 ≤ jitter_secs ≤ 549755 →
  jitter_within JITTER_ROUNDS schedule_id fire jitter_secs = Some (jitter_offset schedule_id fire jitter_secs) ∧
  0 ≤ jitter_offset schedule_id fire jitter_secs ∧
  (jitter_offset schedule_id fire jitter_secs < jitter_secs * 1000000 ∨ jitter_secs = 0).
Proof.
  intros Hj. rw /jitter_offset /jitter_within. destruct (Z.leb_spec jitter_secs 0).
  { split; [done|]. simpl. lia. }
  assert (Hm : wrap_u64 (jitter_secs * 1000000) = jitter_secs * 1000000).
  { rw /wrap_u64 Z.mod_small // /two64. lia. }
  rw Hm. set (m := jitter_secs * 1000000) in *. destruct (Z.eqb_spec m 0); [lia|].
  pose proof (Z.mod_pos_bound u64_MAX m ltac:(lia)) as Hb.
  destruct (reject_two (u64_MAX - u64_MAX mod m) (fire_hash schedule_id fire)) as (h & -> & Hh).
  { apply fire_hash_range. }
  { rw /two64 /u64_MAX in Hb |- *. lia. }
  simpl. pose proof (Z.mod_pos_bound h m ltac:(lia)) as Hhm.
  assert (in_i64 (h mod m)) by (rw /in_i64 /i64_MIN /i64_MAX; lia). rw wrap_i64_id //.
  split; [done|]. lia.
Qed.

Lemma jitter_terminates_witness :
  0 ≤ jitter_offset 7 1000000 60 ∧ jitter_offset 7 1000000 60 = 15792363.
Proof.
  split; [|vm_compute; reflexivity]. apply (jitter_terminates 7 1000000 60). lia.
Defined.
