(* ===== verification/GroupCommit.v ===== *)
(** * The writer thread and its group commit (store/src/writer.rs)

    Commands wait in a channel; the writer takes them in batches, runs each
    batch inside one transaction with a savepoint per command, and answers a
    command only once the transaction it ran in has settled.  SQLite is a
    parameter ([SqliteOps]) whose documented behaviour is the class
    [SqliteLaws]; what a single command does to the tables ([execute]) is a
    parameter too, since the writer treats every command alike. *)

From S2P Require Import Prelude States.

(** ** Errors and commands *)

(** The variants of the store's error; a wrapped SQLite error is whether it is
    a constraint violation and its text. *)
Inductive StoreError : Type :=
| Locked (home holder : string)
| Downgrade (db lib : Z)
| Rejected (reason : string)
| RejectedWith (reason : string) (current : option State)
| Migration (msg : string)
| NotFound (what : string)
| UniqueConflict (existing : Z)
| Invalid (msg : string)
| CommitFailed (msg : string)
| WriterGone
| Sqlite (constraint_violation : bool) (msg : string)
| Io (msg : string)
| JsonError (msg : string).

(** A command: one of the table writes ([Command]), a [VACUUM] in either form,
    or the end of the thread. *)
Inductive WriteCommand (Cmd : Type) : Type :=
| Command (c : Cmd)
| BackupTo (path : string)
| Vacuum
| Shutdown.
Arguments Command {Cmd} _.
Arguments BackupTo {Cmd} _.
Arguments Vacuum {Cmd}.
Arguments Shutdown {Cmd}.

Definition outside_transaction {Cmd} (c : WriteCommand Cmd) : bool :=
  match c with BackupTo _ | Vacuum => true | _ => false end.
Definition is_shutdown {Cmd} (c : WriteCommand Cmd) : bool :=
  match c with Shutdown => true | _ => false end.

Definition MAX_BATCH : nat := Z.to_nat 8192.
#[global] Opaque MAX_BATCH.

(** ** The connection *)

(** The statements the writer issues on its connection. *)
Class SqliteOps (Conn Cmd Value : Type) : Type := {
  sql_begin : Conn → Conn * option string;
  sql_commit : Conn → Conn * option string;
  sql_rollback : Conn → Conn;
  sql_savepoint : Conn → Conn * bool;
  sql_rollback_to : Conn → Conn;
  sql_release : Conn → Conn;
  is_autocommit : Conn → bool;
  execute : WriteCommand Cmd → Conn → Conn * result Value StoreError;
}.

(** ** The writer *)

Section writer.
Context {Conn Cmd Value : Type} `{!SqliteOps Conn Cmd Value}.

(** An answer on hold: the command and what it returned. *)
Record Ack : Type := mkAck { a_cmd : WriteCommand Cmd; a_value : result Value StoreError }.
Definition failed (a : Ack) : bool := negb (is_ok (a_value a)).

Abbreviation reply := (WriteCommand Cmd * result Value StoreError)%type.

(** The answer a caller receives, given the commit error of the transaction. *)
Definition send (commit_err : option string) (a : Ack) : reply :=
  (a_cmd a,
   match commit_err, a_value a with
   | Some e, Ok _ => Err (CommitFailed e)
   | _, v => v
   end).

(** The variables of one round of the loop. *)
Record Batch : Type := mkBatch {
  conn : Conn;
  in_tx : bool;
  group : list Ack;
  settled : list (Ack * option string);
  shutdown : bool;
  commits : Z;
}.

Definition begin (c : Conn) : Conn * bool := let '(c, e) := sql_begin c in (c, is_none e).

(** Commits the open transaction; on failure rolls back and returns the error.
    The latency histogram is not kept. *)
Definition commit (c : Conn) (n : Z) : Conn * Z * option string :=
  match sql_commit c with
  | (c, None) => (c, wrap_u64 (n + 1), None)
  | (c, Some e) => (sql_rollback c, n, Some e)
  end.

(** Commit and settle the group with the outcome. *)
Definition commit_group (b : Batch) : Batch :=
  let '(c, n, err) := commit (conn b) (commits b) in
  mkBatch c (in_tx b) [] (settled b ++ ((λ a, (a, err)) <$> group b)) (shutdown b) n.

Definition begin_again (b : Batch) : Batch :=
  let '(c, ok) := begin (conn b) in
  mkBatch c ok (group b) (settled b) (shutdown b) (commits b).

(** Run a command and settle it at once. *)
Definition run_settled (cmd : WriteCommand Cmd) (b : Batch) : Batch :=
  let '(c, v) := execute cmd (conn b) in
  mkBatch c (in_tx b) (group b) (settled b ++ [(mkAck cmd v, None)]) (shutdown b) (commits b).

Definition rolled_back : option string := Some "transaction rolled back by the database".

(** Run a command under a savepoint of the open transaction. *)
Definition run_grouped (cmd : WriteCommand Cmd) (b : Batch) : Batch :=
  let '(c, savepoint) := sql_savepoint (conn b) in
  let '(c, v) := execute cmd c in
  let a := mkAck cmd v in
  if is_autocommit c then
    begin_again
      (mkBatch c (in_tx b) []
         (settled b ++ ((λ a, (a, rolled_back)) <$> group b) ++ [(a, rolled_back)])
         (shutdown b) (commits b))
  else
    let c := if savepoint then if failed a then sql_rollback_to c else sql_release c else c in
    mkBatch c (in_tx b) (group b ++ [a]) (settled b) (shutdown b) (commits b).

(** The body of [for cmd in batch]. *)
Definition batch_step (b : Batch) (cmd : WriteCommand Cmd) : Batch :=
  if is_shutdown cmd then
    mkBatch (conn b) (in_tx b) (group b) (settled b) true (commits b)
  else if outside_transaction cmd then
    begin_again (run_settled cmd (if in_tx b then commit_group b else b))
  else if negb (in_tx b) then run_settled cmd b
  else run_grouped cmd b.

(** One round: the transaction, its commands, the commit and the answers. *)
Definition run_batch (c : Conn) (n : Z) (batch : list (WriteCommand Cmd)) : Batch * list reply :=
  let '(c, ok) := begin c in
  let b := fold_left batch_step batch (mkBatch c ok [] [] false n) in
  let b := if in_tx b then commit_group b else b in
  (b, (λ x, send x.2 x.1) <$> settled b).

(** The thread: each round takes the first waiting command and those that
    arrive in time, at most [MAX_BATCH]; how many is up to the clock and the
    senders, [sizes].  Commands left in the channel at the end are never
    answered.  The checkpoint after the loop changes no table. *)
Fixpoint run (sizes : list nat) (rx : list (WriteCommand Cmd)) (c : Conn) (n : Z)
    : Conn * Z * list reply :=
  match sizes, rx with
  | size :: sizes, first :: rest =>
      let k := Nat.min size (MAX_BATCH - 1) in
      let '(b, replies) := run_batch c n (first :: take k rest) in
      if shutdown b then (conn b, commits b, replies)
      else
        let '(c, n, later) := run sizes (drop k rest) (conn b) (commits b) in
        (c, n, replies ++ later)
  | _, _ => (c, n, [])
  end.

(** *** Who is answered, whatever the database does *)

Definition asks (l : list (WriteCommand Cmd)) : list (WriteCommand Cmd) :=
  List.filter (λ c, negb (is_shutdown c)) l.

Definition answered (b : Batch) : list (WriteCommand Cmd) :=
  (λ x, a_cmd x.1) <$> settled b.
Definition held (b : Batch) : list (WriteCommand Cmd) := a_cmd <$> group b.

Lemma answered_commit b :
  answered (commit_group b) = answered b ++ held b ∧ held (commit_group b) = [] ∧
  in_tx (commit_group b) = in_tx b ∧ shutdown (commit_group b) = shutdown b.
Proof using Type.
  rw /commit_group. destruct (commit _ _) as [[c n] err].
  by rw /answered /held /= fmap_app -list_fmap_compose.
Qed.

Lemma begin_again_frame b :
  answered (begin_again b) = answered b ∧ held (begin_again b) = held b ∧
  shutdown (begin_again b) = shutdown b.
Proof using Type. rw /begin_again. by destruct (begin _). Qed.

Lemma run_settled_frame cmd b :
  answered (run_settled cmd b) = answered b ++ [cmd] ∧ held (run_settled cmd b) = held b ∧
  in_tx (run_settled cmd b) = in_tx b ∧ shutdown (run_settled cmd b) = shutdown b.
Proof using Type. rw /run_settled. destruct (execute _ _). by rw /answered /held /= fmap_app. Qed.

(** Held answers only wait for an open transaction. *)
Definition waits_in_tx (b : Batch) : Prop := in_tx b = false → held b = [].

Lemma run_grouped_frame cmd b :
  in_tx b = true →
  answered (run_grouped cmd b) ++ held (run_grouped cmd b) = answered b ++ held b ++ [cmd] ∧
  shutdown (run_grouped cmd b) = shutdown b ∧ waits_in_tx (run_grouped cmd b).
Proof using Type.
  intros Ht. rw /run_grouped. destruct (sql_savepoint (conn b)) as [c sp].
  destruct (execute cmd c) as [c' v]. destruct (is_autocommit c').
  - rw /waits_in_tx. destruct (begin_again_frame (mkBatch c' (in_tx b) []
      (settled b ++ ((λ a, (a, rolled_back)) <$> group b) ++ [(mkAck cmd v, rolled_back)])
      (shutdown b) (commits b))) as (-> & -> & ->).
    by rw /answered /held /= !fmap_app -list_fmap_compose app_nil_r.
  - rw /waits_in_tx /answered /held /= fmap_app Ht. done.
Qed.

Lemma batch_step_frame cmd b :
  waits_in_tx b →
  answered (batch_step b cmd) ++ held (batch_step b cmd) = (answered b ++ held b) ++ asks [cmd] ∧
  shutdown (batch_step b cmd) = shutdown b || is_shutdown cmd ∧ waits_in_tx (batch_step b cmd).
Proof using Type.
  intros Hw. rw /batch_step /asks /=. destruct (is_shutdown cmd) eqn:Es.
  { by rw /= app_nil_r orb_true_r. }
  rw orb_false_r /=. destruct (outside_transaction cmd) eqn:Eo.
  - destruct (begin_again_frame (run_settled cmd (if in_tx b then commit_group b else b)))
      as (Ha & Hh & Hs). rw /waits_in_tx Ha Hh Hs.
    destruct (run_settled_frame cmd (if in_tx b then commit_group b else b)) as (-> & -> & _ & ->).
    destruct (answered_commit b) as (Hc & Hh' & _ & Hs').
    destruct (in_tx b) eqn:Et; [rw Hc Hh' Hs' app_nil_r //|].
    by rw (Hw Et) !app_nil_r.
  - destruct (in_tx b) eqn:Et; simpl.
    + destruct (run_grouped_frame cmd b Et) as (Ha & Hs & Hw'). by rw Ha Hs app_assoc.
    + destruct (run_settled_frame cmd b) as (Ha & Hh & Ht & Hs).
      by rw /waits_in_tx Ha Hh Hs (Hw Et) !app_nil_r.
Qed.

Lemma batch_steps_frame batch b :
  waits_in_tx b →
  let b' := fold_left batch_step batch b in
  answered b' ++ held b' = (answered b ++ held b) ++ asks batch ∧
  shutdown b' = shutdown b || existsb is_shutdown batch ∧ waits_in_tx b'.
Proof using Type.
  revert b; induction batch as [|cmd batch IH]; intros b Hw; simpl.
  { by rw app_nil_r orb_false_r. }
  destruct (batch_step_frame cmd b Hw) as (Ha & Hs & Hw').
  destruct (IH _ Hw') as (Ha2 & Hs2 & Hw2). rw Ha2 Ha Hs2 Hs orb_assoc.
  split_and!; [|done|done]. rw -app_assoc. by rw /asks /=; destruct (is_shutdown cmd).
Qed.

Lemma run_batch_answers c n batch :
  (run_batch c n batch).2.*1 = asks batch ∧
  shutdown (run_batch c n batch).1 = existsb is_shutdown batch.
Proof using Type.
  rw /run_batch. destruct (begin c) as [c' ok].
  destruct (batch_steps_frame batch (mkBatch c' ok [] [] false n)) as (Ha & Hs & Hw); [done|].
  set (b := fold_left _ _ _) in *. simpl in Ha, Hs.
  destruct (answered_commit b) as (Hc & Hh & _ & Hs').
  cbn [fst snd]. rw -list_fmap_compose.
  destruct (in_tx b) eqn:Et.
  - split; [|by rw Hs']. rw -Ha -Hc /answered. done.
  - split; [|done]. rw (Hw Et) app_nil_r in Ha. rw -Ha /answered. done.
Qed.
End writer.
Arguments Batch : clear implicits.
Arguments Ack : clear implicits.

(** ** What SQLite documents *)

(** [durable] is the database on disk, [view] what the connection sees inside
    its transaction, [mark] the contents at the savepoint; [runs c d d' v] says
    that the command [c] succeeds on [d] with answer [v], leaving [d']. *)
Class SqliteLaws (Conn Cmd Value Db : Type) `{!SqliteOps Conn Cmd Value} : Type := {
  durable : Conn → Db;
  view : Conn → Db;
  mark : Conn → option Db;
  runs : WriteCommand Cmd → Db → Db → Value → Prop;
  begin_law c :
    is_autocommit c = true →
    durable (sql_begin c).1 = durable c ∧
    match (sql_begin c).2 with
    | None => is_autocommit (sql_begin c).1 = false ∧ view (sql_begin c).1 = durable c
    | Some _ => is_autocommit (sql_begin c).1 = true
    end;
  commit_law c :
    is_autocommit c = false →
    match (sql_commit c).2 with
    | None => is_autocommit (sql_commit c).1 = true ∧ durable (sql_commit c).1 = view c
    | Some _ => durable (sql_commit c).1 = durable c
    end;
  rollback_law c : is_autocommit (sql_rollback c) = true ∧ durable (sql_rollback c) = durable c;
  savepoint_law c :
    is_autocommit c = false →
    is_autocommit (sql_savepoint c).1 = false ∧ durable (sql_savepoint c).1 = durable c ∧
    view (sql_savepoint c).1 = view c ∧
    ((sql_savepoint c).2 = true → mark (sql_savepoint c).1 = Some (view c));
  rollback_to_law c d :
    is_autocommit c = false → mark c = Some d →
    is_autocommit (sql_rollback_to c) = false ∧ durable (sql_rollback_to c) = durable c ∧
    view (sql_rollback_to c) = d;
  release_law c :
    is_autocommit c = false →
    is_autocommit (sql_release c) = false ∧ durable (sql_release c) = durable c ∧
    view (sql_release c) = view c;
  execute_law cmd c :
    outside_transaction cmd = false → is_autocommit c = false →
    durable (execute cmd c).1 = durable c ∧
    (is_autocommit (execute cmd c).1 = false →
     mark (execute cmd c).1 = mark c ∧
     ∀ v, (execute cmd c).2 = Ok v → runs cmd (view c) (view (execute cmd c).1) v);
  vacuum_law cmd c :
    outside_transaction cmd = true → is_autocommit c = true →
    is_autocommit (execute cmd c).1 = true ∧ durable (execute cmd c).1 = durable c ∧
    ∀ v, (execute cmd c).2 = Ok v → runs cmd (durable c) (durable c) v;
}.

(** The reference: commands one after the other, each whole or not at all.
    [replays d l d']: from [d], the successful answers of [l], in order, are
    those of their commands, and the failed ones change nothing. *)
Inductive replays {Conn Cmd Value Db} `{!SqliteOps Conn Cmd Value} `{!SqliteLaws Conn Cmd Value Db}
    : Db → list (WriteCommand Cmd * result Value StoreError) → Db → Prop :=
| replays_nil d : replays d [] d
| replays_ok c v l d d1 d2 : runs c d d1 v → replays d1 l d2 → replays d ((c, Ok v) :: l) d2
| replays_err c e l d d1 : replays d l d1 → replays d ((c, Err e) :: l) d1.

Section atomic.
Context {Conn Cmd Value Db : Type} `{!SqliteOps Conn Cmd Value}.
Context `{!SqliteLaws Conn Cmd Value Db}.

Lemma replays_app d l1 d1 l2 d2 : replays d l1 d1 → replays d1 l2 d2 → replays d (l1 ++ l2) d2.
Proof using Type. induction 1; simpl; [done| |]; intros; econstructor; eauto. Qed.

Lemma replays_snoc d l d1 c r d2 :
  replays d l d1 → match r with Ok v => runs c d1 d2 v | Err _ => d1 = d2 end →
  replays d (l ++ [(c, r)]) d2.
Proof using Type.
  intros Hl Hr. eapply replays_app; [done|].
  destruct r; [by econstructor; [|constructor]|]. subst. repeat constructor.
Qed.

(** Answers that all carry a commit error claim nothing. *)
Lemma replays_failed d e (l : list (Ack Cmd Value)) : replays d (send (Some e) <$> l) d.
Proof using Type.
  induction l as [|a l IH]; simpl; [constructor|]. rw /send. destruct (a_value a); by constructor.
Qed.

(** The database accepts [BEGIN] and [SAVEPOINT]. *)
Definition reliable : Prop :=
  (∀ c, is_autocommit c = true → (sql_begin c).2 = None) ∧
  (∀ c, is_autocommit c = false → (sql_savepoint c).2 = true).

Abbreviation answers := (fmap (M := list) (λ x, send x.2 x.1)).

(** In the middle of a round begun at [d]: what is settled is on disk, what is
    held is what the transaction adds. *)
Record on_course (d : Db) (b : Batch Conn Cmd Value) : Prop := {
  oc_tx : in_tx b = true;
  oc_open : is_autocommit (conn b) = false;
  oc_settled : replays d (answers (settled b)) (durable (conn b));
  oc_group : replays (durable (conn b)) (send None <$> group b) (view (conn b));
}.

Lemma commit_group_ok d b :
  on_course d b →
  is_autocommit (conn (commit_group b)) = true ∧
  replays d (answers (settled (commit_group b))) (durable (conn (commit_group b))).
Proof using Type.
  intros [Ht Ho Hs Hg]. rw /commit_group /commit.
  pose proof (commit_law (conn b) Ho) as Hc. destruct (sql_commit (conn b)) as [c [e|]]; simpl in *;
    rw fmap_app -list_fmap_compose.
  - destruct (rollback_law c) as [Ha Hd]. split; [done|]. rw Hd Hc.
    eapply replays_app; [done|]. apply replays_failed.
  - destruct Hc as [Ha Hd]. split; [done|]. rw Hd. by eapply replays_app.
Qed.

Lemma begin_again_ok d b :
  reliable → is_autocommit (conn b) = true → group b = [] →
  replays d (answers (settled b)) (durable (conn b)) → on_course d (begin_again b).
Proof using Type.
  intros [Hr _] Ha Hg Hs. rw /begin_again /begin.
  pose proof (begin_law (conn b) Ha) as [Hd Hb]. specialize (Hr _ Ha).
  destruct (sql_begin (conn b)) as [c e]; simpl in *. subst e. destruct Hb as [Ho Hv].
  split; simpl; [done|done|by rw Hd|]. rw Hg Hv Hd. constructor.
Qed.

Lemma run_grouped_ok d cmd b :
  reliable → outside_transaction cmd = false → on_course d b → on_course d (run_grouped cmd b).
Proof using Type.
  intros Hr Hout [Ht Ho Hs Hg]. rw /run_grouped.
  pose proof (savepoint_law (conn b) Ho) as (Ho1 & Hd1 & Hv1 & Hm1).
  pose proof (proj2 Hr (conn b) Ho) as Hsp.
  destruct (sql_savepoint (conn b)) as [c sp]; simpl in *. subst sp. specialize (Hm1 eq_refl).
  pose proof (execute_law cmd c Hout Ho1) as [Hd2 Hrun].
  destruct (execute cmd c) as [c' v]; simpl in *. destruct (is_autocommit c') eqn:Ea.
  - apply begin_again_ok; [done|done|done|]. simpl. rw !fmap_app /= -list_fmap_compose Hd2 Hd1.
    eapply replays_app; [done|]. eapply replays_app; [apply (replays_failed _ _ (group b))|].
    apply (replays_failed _ _ [mkAck cmd v]).
  - destruct (Hrun eq_refl) as [Hm Hv]. rw Hm1 in Hm. destruct v as [x|e]; rw /failed /=.
    + destruct (release_law c' Ea) as (Ho3 & Hd3 & Hv3). split; simpl; [done|done| |].
      * by rw Hd3 Hd2 Hd1.
      * rw fmap_app Hd3 Hd2 Hd1 Hv3. eapply replays_snoc; [done|]. simpl. rw -Hv1. by apply Hv.
    + destruct (rollback_to_law c' _ Ea Hm) as (Ho3 & Hd3 & Hv3). split; simpl; [done|done| |].
      * by rw Hd3 Hd2 Hd1.
      * rw fmap_app Hd3 Hd2 Hd1 Hv3. by eapply replays_snoc.
Qed.

Lemma batch_step_ok d b cmd : reliable → on_course d b → on_course d (batch_step b cmd).
Proof using Type.
  intros Hr Hb. rw /batch_step. destruct (is_shutdown cmd); [by destruct Hb|].
  rw (oc_tx _ _ Hb) /=. destruct (outside_transaction cmd) eqn:Eo; [|by apply run_grouped_ok].
  destruct (commit_group_ok d b Hb) as [Ha Hs].
  assert (Hg : group (commit_group b) = [])
    by (rw /commit_group; by destruct (commit _ _) as [[? ?] ?]).
  pose proof (vacuum_law cmd _ Eo Ha) as (Ha' & Hd & Hv).
  rw /run_settled. destruct (execute cmd (conn (commit_group b))) as [c v]; simpl in *.
  apply begin_again_ok; [done|done|done|]. simpl. rw fmap_app Hd. eapply replays_snoc; [done|].
  destruct v as [x|e]; [by apply Hv|done].
Qed.

Lemma run_batch_ok c n batch :
  reliable → is_autocommit c = true →
  is_autocommit (conn (run_batch c n batch).1) = true ∧
  replays (durable c) (run_batch c n batch).2 (durable (conn (run_batch c n batch).1)).
Proof using Type.
  intros Hr Ha. rw /run_batch.
  assert (H0 : on_course (durable c)
    (begin_again (mkBatch c true [] [] false n : Batch Conn Cmd Value))).
  { by apply begin_again_ok; [..|constructor]. }
  rw /begin_again /= in H0. destruct (begin c) as [c0 ok].
  assert (Hb : ∀ b, on_course (durable c) b → on_course (durable c) (fold_left batch_step batch b)).
  { induction batch as [|cmd batch IH]; intros b Hb; [done|]. by apply IH, batch_step_ok. }
  specialize (Hb _ H0). rw (oc_tx _ _ Hb). by apply commit_group_ok.
Qed.
End atomic.

(** ** A small database in memory *)

Module Mem.
Record mem : Type := mkMem {
  disk : list Z;
  tx : option (list Z);
  saved : option (list Z);
  (** whether each coming commit succeeds; all do past the end *)
  fates : list bool;
}.

(** A command inserts rows one by one: it fails at a negative row, after the
    rows before it, and a zero makes the database roll the transaction back. *)
Fixpoint insert_rows (rows : list Z) (d : list Z) : option (list Z) * result unit StoreError :=
  match rows with
  | [] => (Some d, Ok ())
  | r :: rows' =>
      if r <? 0 then (Some d, Err (Sqlite true "constraint"))
      else if r =? 0 then (None, Err (Sqlite false "database or disk is full"))
      else insert_rows rows' (d ++ [r])
  end.

#[global] Instance mem_ops : SqliteOps mem (list Z) unit := {|
  sql_begin m := match tx m with
                 | None => (mkMem (disk m) (Some (disk m)) (saved m) (fates m), None)
                 | Some _ => (m, Some "within a transaction")
                 end;
  sql_commit m := match tx m, fates m with
                  | Some d, false :: l => (mkMem (disk m) (Some d) (saved m) l, Some "disk full")
                  | Some d, l => (mkMem d None None (tl l), None)
                  | None, _ => (m, Some "no transaction")
                  end;
  sql_rollback m := mkMem (disk m) None None (fates m);
  sql_savepoint m := (mkMem (disk m) (tx m) (tx m) (fates m), true);
  sql_rollback_to m := mkMem (disk m) (saved m) (saved m) (fates m);
  sql_release m := m;
  is_autocommit m := is_none (tx m);
  execute cmd m := match cmd with
                   | Command rows =>
                       let '(d, r) := insert_rows rows (default (disk m) (tx m)) in
                       (mkMem (disk m) d (saved m) (fates m), r)
                   | _ => (m, Ok ())
                   end;
|}.

Definition mem_runs (cmd : WriteCommand (list Z)) (d d' : list Z) (_ : unit) : Prop :=
  match cmd with Command rows => d' = d ++ rows | _ => d' = d end.

Lemma insert_rows_Ok rows d d' : insert_rows rows d = (Some d', Ok ()) → d' = d ++ rows.
Proof.
  revert d; induction rows as [|r rows IH]; intros d; simpl; [intros [= ->]; by rw app_nil_r|].
  destruct (r <? 0); [done|]. destruct (r =? 0); [done|]. intros ->%IH. by rw -app_assoc.
Qed.

#[global] Instance mem_laws : SqliteLaws mem (list Z) unit (list Z).
Proof.
  refine {| durable := disk; view := λ m, default (disk m) (tx m); mark := saved; runs := mem_runs |}.
  - by intros [? [] ? ?].
  - by intros [? [] ? [|[] ?]].
  - done.
  - intros [? [] ? ?]; [done|]. done.
  - intros [? [] [] ?] d Hd; simpl; try done; intros [= ->]; done.
  - done.
  - intros [rows| | |] [dk [d|] sv ft]; simpl; try done.
    intros _ _. destruct (insert_rows rows d) as [[d'|] r] eqn:E; simpl; [|done].
    split; [done|]. intros _. split; [done|]. intros [] ->. by apply insert_rows_Ok in E.
  - intros [rows| | |] [dk [d|] sv ft]; simpl; try done.
Defined.

Lemma mem_reliable : reliable (Conn := mem) (Cmd := list Z) (Value := unit).
Proof. split; [by intros [? [] ? ?]|done]. Qed.

Definition new_mem (fates : list bool) : mem := mkMem [] None None fates.

(** A failed command leaves no rows behind and the others are kept. *)
Example failed_command_rolled_back :
  (run [9%nat] [Command [1]; Command [2; -1]; Command [3]] (new_mem []) 0)
  = (mkMem [1; 3] None None [], 1,
     [(Command [1], Ok ()); (Command [2; -1], Err (Sqlite true "constraint")); (Command [3], Ok ())]).
Proof. vm_compute. done. Qed.

(** A failed commit fails every answer of the group. *)
Example failed_commit_fails_group :
  (run [9%nat] [Command [1]; Command [2]] (new_mem [false]) 0).2
  = [(Command [1], Err (CommitFailed "disk full")); (Command [2], Err (CommitFailed "disk full"))].
Proof. vm_compute. done. Qed.
End Mem.

(** ** Theorems *)

Lemma asks_app {Cmd} (l1 l2 : list (WriteCommand Cmd)) : asks (l1 ++ l2) = asks l1 ++ asks l2.
Proof. apply List.filter_app. Qed.

(** C4: the group commit is atomic per command: with a database that accepts
    BEGIN and SAVEPOINT but may fail any commit, fail any command halfway or
    roll a transaction back on its own, the database on disk after the writer
    has run is the one reached by executing, one after the other and whole,
    exactly the commands it answered with success, each answer being the one
    its command gives there; a command answered with an error left nothing. *)
Theorem group_commit_atomic {Conn Cmd Value Db} `{!SqliteOps Conn Cmd Value}
    `{!SqliteLaws Conn Cmd Value Db} sizes rx (c : Conn) n :
  reliable (Conn := Conn) (Cmd := Cmd) (Value := Value) → is_autocommit c = true →
  let '(c', _, replies) := run sizes rx c n in replays (durable c) replies (durable c').
Proof.
  intros Hr. revert rx c n. induction sizes as [|k sizes IH]; intros [|cmd rx] c n Ha; simpl;
    try apply replays_nil.
  pose proof (run_batch_ok c n (cmd :: take (k `min` (MAX_BATCH - 1)) rx) Hr Ha) as [Ha' Hb].
  destruct (run_batch c n _) as [b replies]; simpl in *. destruct (shutdown b); [done|].
  specialize (IH (drop (k `min` (MAX_BATCH - 1)) rx) (conn b) (commits b) Ha').
  destruct (run sizes _ (conn b) (commits b)) as [[c2 n2] later]. by eapply replays_app.
Qed.

Lemma group_commit_atomic_witness :
  let '(c', _, replies) :=
    run [1%nat; 5%nat] [Command [1]; Command [2; -1]; Vacuum; Command [3]; Command [4; 0]]
      (Mem.new_mem [true; false]) 0 in
  replays (durable (Mem.new_mem [true; false])) replies (durable c').
Proof. apply group_commit_atomic; [apply Mem.mem_reliable|reflexivity]. Defined.


