(* ===== verification/Tables.v ===== *)
(** * The store's tables (store/migrations/)

    The rows of the database and the record of its tables.  A table is its rows
    by id, or in id order where the order is read.  Columns that no command of
    the development reads or writes are left out.  The JSON text of columns is
    serde's and random ids are the system's: both are fields of [StoreEnv]. *)

From S2P Require Import Prelude Float64 Json States Transitions Schedules Model GroupCommit.

Class StoreEnv : Type := {
  map_to_string : Map → string;
  map_from_str : string → option Map;
  value_to_string : Value → string;
  strings_to_string : list string → string;
  strings_from_str : string → option (list string);
  resources_to_string : list Resource → string;
  value_from_str : string → option Value;
  schedule_to_string : Schedule → string;
  schedule_from_str : string → option Schedule;
  (* the n-th id [new_id] draws *)
  nth_id : Z → string;
}.

(** ** Rows *)

(** The state columns of a run or task run, and a row of its history. *)
Record StateCols : Type := mkStateCols {
  c_type : option string;
  c_name : option string;
  c_message : option string;
  c_details : string;
  c_timestamp : option Z;
}.
Definition no_state : StateCols := mkStateCols None None None "{}" None.

Record FlowRow : Type := mkFlowRow {
  fl_external_id : Id;
  fl_project : string;
  fl_name : string;
  fl_module : string;
  fl_source_dir : string;
  fl_description : option string;
  fl_tags : string;
  fl_parameter_schema : string;
  fl_created_at : Z;
  fl_last_seen_at : Z;
  fl_error : option string;
  fl_options : string;
  fl_flow_group : option string;
}.

Record RunRow : Type := mkRunRow {
  r_external_id : Id;
  r_flow_id : Z;
  r_name : string;
  r_parameters : string;
  r_tags : string;
  r_created_at : Z;
  r_created_by : string;
  r_schedule_id : option Z;
  r_scheduled_time : option Z;
  r_priority : Z;
  r_parent_run_id : option Z;
  r_attempt : Z;
  r_backfill_id : option Z;
  r_unique_key : option string;
  r_report_seq : Z;
  r_attributes : string;
  r_engine_pid : option Z;
  r_engine_id : option string;
  r_host : option string;
  r_processor : option Z;
  r_lease : Z;
  r_source_hash : option string;
  r_cols : StateCols;
  r_counters : RunCounters;
}.

Record TaskRow : Type := mkTaskRow {
  t_external_id : Id;
  t_run_id : Z;
  t_name : string;
  t_task_key : string;
  t_dynamic_key : string;
  t_created_at : Z;
  t_parents : string;
  t_pass : Z;
  t_result_ref : option string;
  t_input_hash : option string;
  t_cols : StateCols;
  t_counters : RunCounters;
}.

Record LogRow : Type := mkLogRow {
  l_run_id : Z;
  l_task_run_id : option Z;
  l_level : Z;
  l_logger : string;
  l_timestamp : Z;
  l_message : string;
}.

Record EventRow : Type := mkEventRow {
  er_external_id : Id;
  er_kind : string;
  er_timestamp : Z;
  er_run_id : option Z;
  er_flow_id : option Z;
  er_payload : string;
  er_resource : Resource;
  er_related : string;
}.

Record ArtifactRow : Type := mkArtifactRow {
  ar_external_id : Id;
  ar_run_id : Z;
  ar_task_run_id : option Z;
  ar_kind : string;
  ar_key : option string;
  ar_data : string;
  ar_created_at : Z;
  ar_updated_at : Z;
}.

Record EffectRow : Type := mkEffectRow {
  ef_run_id : Z;
  ef_slot : string;
  ef_pass : Z;
  ef_hash : string;
  ef_ref : option string;
  ef_created_at : Z;
}.

Record SchedRow : Type := mkSchedRow {
  s_external_id : Id;
  s_flow_id : Z;
  s_spec : string;
  s_catchup : string;
  s_catchup_max : Z;
  s_catchup_window : option Z;
  s_jitter : Z;
  s_start_deadline : option Z;
  s_active : bool;
  s_paused_reason : option string;
  s_paused_until : option Z;
  s_source : string;
  s_code_key : option string;
  s_persist : bool;
  s_created_at : Z;
  s_updated_at : Z;
}.

Record MessageRow : Type := mkMessageRow {
  m_run_id : Z;
  m_topic : string;
  m_payload : string;
  m_created_at : Z;
  m_consumed_at : option Z;
}.

Record BackfillRow : Type := mkBackfillRow {
  b_external_id : Id;
  b_flow_id : Z;
  b_parameter : string;
  b_start_value : string;
  b_end_value : string;
  b_interval_secs : f64;
  b_concurrency : Z;
  b_total : Z;
  b_extra_parameters : string;
  b_cancelled : bool;
  b_created_at : Z;
}.

Record ExpectationRow : Type := mkExpectationRow {
  x_rule_id : Z;
  x_key : string;
  x_run_id : option Z;
  x_flow_id : option Z;
  x_armed_at : Z;
  x_deadline : Z;
  x_status : string;
}.

Record RuleTblRow : Type := mkRuleTblRow {
  u_external_id : Id;
  u_name : string;
  u_enabled : bool;
  u_source : string;
  u_module : option string;
  u_spec : string;
  u_fire_count : Z;
  u_last_fired : option Z;
  u_created_at : Z;
  u_updated_at : Z;
}.

Record FiringRow : Type := mkFiringRow {
  g_rule_id : Z;
  g_event_id : option Z;
  g_run_id : option Z;
  g_timestamp : Z;
  g_outcomes : string;
}.

Record VariableTblRow : Type := mkVariableTblRow {
  v_value : string;
  v_tags : string;
  v_secret : bool;
  v_created_at : Z;
  v_updated_at : Z;
}.

(** Machines that add processors, and agents defined in the interface. *)
Record WorkerTblRow : Type := mkWorkerTblRow {
  w_name : string;
  w_version : string;
  w_cpus : Z;
  w_processors : Z;
  w_labels : string;
  w_shared_paths : string;
  w_meta : string;
  w_state : string;
  w_registered_at : Z;
  w_last_seen_at : Z;
}.

Record AgentTblRow : Type := mkAgentTblRow {
  a_external_id : Id;
  a_project : string;
  a_name : string;
  a_source : string;
  a_enabled : bool;
  a_definition : string;
  a_flow_id : option Z;
  a_created_at : Z;
  a_updated_at : Z;
}.

Record ApprovalTblRow : Type := mkApprovalTblRow {
  p_agent_id : Z;
  p_tool : string;
  p_args_hash : string;
  p_args : string;
  p_first_run_id : option Z;
  p_created_at : Z;
}.

Record Registry : Type := mkRegistry {
  worker : gmap Z WorkerTblRow;
  (** by worker and flow: the fingerprint the worker reported *)
  worker_flow : gmap (Z * Z) string;
  agent : gmap Z AgentTblRow;
  (** the largest ids given, which AUTOINCREMENT does not give again *)
  agent_seq : Z;
  remembered_approval : gmap Z ApprovalTblRow;
  approval_seq : Z;
}.
Definition Registry_empty : Registry := mkRegistry ∅ ∅ ∅ 0 ∅ 0.

(** The tables beside the record of what ran: definitions, marks, messages. *)
Record Defs : Type := mkDefs {
  schedule : gmap Z SchedRow;
  (** by schedule and fire time: when and by whom the skip was made *)
  schedule_skip : gmap (Z * Z) (Z * string);
  kv : gmap string (string * Z);
  run_message : gmap Z MessageRow;
  (** the largest ordinal given, which AUTOINCREMENT does not give again *)
  message_seq : Z;
  backfill : gmap Z BackfillRow;
  expectation : gmap Z ExpectationRow;
  rule : gmap Z RuleTblRow;
  rule_firing : gmap Z FiringRow;
  variable : gmap string VariableTblRow;
  (** by run, scope and key: the value and when it was set *)
  task_state : gmap (Z * string * string) (string * Z);
  registry : Registry;
}.
Definition Defs_empty : Defs := mkDefs ∅ ∅ ∅ ∅ 0 ∅ ∅ ∅ ∅ ∅ ∅ Registry_empty.

(** What a report has looked up: ids of task runs by external id. *)
Abbreviation ExtCache := (gmap Id (option Z)).

(** Tables read in id order are lists of ids with their rows. *)
Abbreviation rows A := (list (Z * A)).

Record Store : Type := mkStore {
  flow : gmap Z FlowRow;
  run : gmap Z RunRow;
  run_state : rows (Z * StateCols);
  task_run : gmap Z TaskRow;
  task_run_state : rows (Z * StateCols);
  task_run_once : gset Z;
  log : rows LogRow;
  event : rows EventRow;
  artifact : rows ArtifactRow;
  effect : rows EffectRow;
  defs : Defs;
  (** [last_insert_rowid] of the connection *)
  last_rowid : Z;
  (** ids drawn so far *)
  drawn : Z;
}.

(** ** Field updates *)

Definition set_run (m : gmap Z RunRow) (s : Store) : Store :=
  mkStore (flow s) m (run_state s) (task_run s) (task_run_state s) (task_run_once s) (log s)
    (event s) (artifact s) (effect s) (defs s) (last_rowid s) (drawn s).
Definition set_run_state (l : rows (Z * StateCols)) (s : Store) : Store :=
  mkStore (flow s) (run s) l (task_run s) (task_run_state s) (task_run_once s) (log s)
    (event s) (artifact s) (effect s) (defs s) (last_rowid s) (drawn s).
Definition set_task_run (m : gmap Z TaskRow) (s : Store) : Store :=
  mkStore (flow s) (run s) (run_state s) m (task_run_state s) (task_run_once s) (log s)
    (event s) (artifact s) (effect s) (defs s) (last_rowid s) (drawn s).
Definition set_task_run_state (l : rows (Z * StateCols)) (s : Store) : Store :=
  mkStore (flow s) (run s) (run_state s) (task_run s) l (task_run_once s) (log s)
    (event s) (artifact s) (effect s) (defs s) (last_rowid s) (drawn s).
Definition set_once (m : gset Z) (s : Store) : Store :=
  mkStore (flow s) (run s) (run_state s) (task_run s) (task_run_state s) m (log s)
    (event s) (artifact s) (effect s) (defs s) (last_rowid s) (drawn s).
Definition set_log (l : rows LogRow) (s : Store) : Store :=
  mkStore (flow s) (run s) (run_state s) (task_run s) (task_run_state s) (task_run_once s) l
    (event s) (artifact s) (effect s) (defs s) (last_rowid s) (drawn s).
Definition set_event (l : rows EventRow) (s : Store) : Store :=
  mkStore (flow s) (run s) (run_state s) (task_run s) (task_run_state s) (task_run_once s) (log s)
    l (artifact s) (effect s) (defs s) (last_rowid s) (drawn s).
Definition set_artifact (l : rows ArtifactRow) (s : Store) : Store :=
  mkStore (flow s) (run s) (run_state s) (task_run s) (task_run_state s) (task_run_once s) (log s)
    (event s) l (effect s) (defs s) (last_rowid s) (drawn s).
Definition set_effect (l : rows EffectRow) (s : Store) : Store :=
  mkStore (flow s) (run s) (run_state s) (task_run s) (task_run_state s) (task_run_once s) (log s)
    (event s) (artifact s) l (defs s) (last_rowid s) (drawn s).
Definition set_last_rowid (n : Z) (s : Store) : Store :=
  mkStore (flow s) (run s) (run_state s) (task_run s) (task_run_state s) (task_run_once s) (log s)
    (event s) (artifact s) (effect s) (defs s) n (drawn s).
Definition set_drawn (n : Z) (s : Store) : Store :=
  mkStore (flow s) (run s) (run_state s) (task_run s) (task_run_state s) (task_run_once s) (log s)
    (event s) (artifact s) (effect s) (defs s) (last_rowid s) n.

Definition set_defs (d : Defs) (s : Store) : Store :=
  mkStore (flow s) (run s) (run_state s) (task_run s) (task_run_state s) (task_run_once s) (log s)
    (event s) (artifact s) (effect s) d (last_rowid s) (drawn s).
Definition set_flow (m : gmap Z FlowRow) (s : Store) : Store :=
  mkStore m (run s) (run_state s) (task_run s) (task_run_state s) (task_run_once s) (log s)
    (event s) (artifact s) (effect s) (defs s) (last_rowid s) (drawn s).

Definition set_schedule (m : gmap Z SchedRow) (s : Store) : Store :=
  let d := defs s in
  set_defs (mkDefs m (schedule_skip d) (kv d) (run_message d) (message_seq d) (backfill d)
    (expectation d) (rule d) (rule_firing d) (variable d) (task_state d) (registry d)) s.
Definition set_skip (m : gmap (Z * Z) (Z * string)) (s : Store) : Store :=
  let d := defs s in
  set_defs (mkDefs (schedule d) m (kv d) (run_message d) (message_seq d) (backfill d)
    (expectation d) (rule d) (rule_firing d) (variable d) (task_state d) (registry d)) s.
Definition set_kv (m : gmap string (string * Z)) (s : Store) : Store :=
  let d := defs s in
  set_defs (mkDefs (schedule d) (schedule_skip d) m (run_message d) (message_seq d) (backfill d)
    (expectation d) (rule d) (rule_firing d) (variable d) (task_state d) (registry d)) s.
Definition set_message (m : gmap Z MessageRow) (n : Z) (s : Store) : Store :=
  let d := defs s in
  set_defs (mkDefs (schedule d) (schedule_skip d) (kv d) m n (backfill d) (expectation d)
    (rule d) (rule_firing d) (variable d) (task_state d) (registry d)) s.
Definition set_backfill (m : gmap Z BackfillRow) (s : Store) : Store :=
  let d := defs s in
  set_defs (mkDefs (schedule d) (schedule_skip d) (kv d) (run_message d) (message_seq d) m
    (expectation d) (rule d) (rule_firing d) (variable d) (task_state d) (registry d)) s.
Definition set_expectation (m : gmap Z ExpectationRow) (s : Store) : Store :=
  let d := defs s in
  set_defs (mkDefs (schedule d) (schedule_skip d) (kv d) (run_message d) (message_seq d)
    (backfill d) m (rule d) (rule_firing d) (variable d) (task_state d) (registry d)) s.
Definition set_rule (m : gmap Z RuleTblRow) (s : Store) : Store :=
  let d := defs s in
  set_defs (mkDefs (schedule d) (schedule_skip d) (kv d) (run_message d) (message_seq d)
    (backfill d) (expectation d) m (rule_firing d) (variable d) (task_state d) (registry d)) s.
Definition set_firing (m : gmap Z FiringRow) (s : Store) : Store :=
  let d := defs s in
  set_defs (mkDefs (schedule d) (schedule_skip d) (kv d) (run_message d) (message_seq d)
    (backfill d) (expectation d) (rule d) m (variable d) (task_state d) (registry d)) s.
Definition set_variable (m : gmap string VariableTblRow) (s : Store) : Store :=
  let d := defs s in
  set_defs (mkDefs (schedule d) (schedule_skip d) (kv d) (run_message d) (message_seq d)
    (backfill d) (expectation d) (rule d) (rule_firing d) m (task_state d) (registry d)) s.
Definition set_task_state (m : gmap (Z * string * string) (string * Z)) (s : Store) : Store :=
  let d := defs s in
  set_defs (mkDefs (schedule d) (schedule_skip d) (kv d) (run_message d) (message_seq d)
    (backfill d) (expectation d) (rule d) (rule_firing d) (variable d) m (registry d)) s.

Definition set_registry (r : Registry) (s : Store) : Store :=
  let d := defs s in
  set_defs (mkDefs (schedule d) (schedule_skip d) (kv d) (run_message d) (message_seq d)
    (backfill d) (expectation d) (rule d) (rule_firing d) (variable d) (task_state d) r) s.
Definition set_worker (m : gmap Z WorkerTblRow) (s : Store) : Store :=
  let r := registry (defs s) in
  set_registry (mkRegistry m (worker_flow r) (agent r) (agent_seq r) (remembered_approval r)
    (approval_seq r)) s.
Definition set_worker_flow (m : gmap (Z * Z) string) (s : Store) : Store :=
  let r := registry (defs s) in
  set_registry (mkRegistry (worker r) m (agent r) (agent_seq r) (remembered_approval r)
    (approval_seq r)) s.
Definition set_agent (m : gmap Z AgentTblRow) (n : Z) (s : Store) : Store :=
  let r := registry (defs s) in
  set_registry (mkRegistry (worker r) (worker_flow r) m n (remembered_approval r)
    (approval_seq r)) s.
Definition set_approval (m : gmap Z ApprovalTblRow) (n : Z) (s : Store) : Store :=
  let r := registry (defs s) in
  set_registry (mkRegistry (worker r) (worker_flow r) (agent r) (agent_seq r) m n) s.

(** The id SQLite gives a new row: one more than the largest. *)
Definition next_row {A} (l : rows A) : Z := 1 + default 0 (fst <$> last l).
Definition next_id {A} (m : gmap Z A) : Z := 1 + foldr Z.max 0 (map_to_list m).*1.

Definition unique_violation (what : string) : StoreError :=
  Sqlite true ("UNIQUE constraint failed: " +:+ what).
Definition foreign_key_violation : StoreError := Sqlite true "FOREIGN KEY constraint failed".
