(* ===== verification/Store.v ===== *)
(** * The store's commands (store/src/writer.rs, store/src/row.rs)

    Creation of runs and task runs, transitions, logs, events, artifacts, the
    effect journal, and the report an engine sends: what each command reads and
    writes in the tables ([Tables]).  The uniqueness and foreign-key constraints of the schema
    (store/migrations/) are checked where a command can break them and answer a
    constraint violation.  A command returns the tables it left with its
    result, since a failed one may have written before it failed: undoing that
    is the writer's savepoint.

    [now_micros()] is the argument [now] of a command.  Failures to read or
    write the file are left out. *)

From S2P Require Import Prelude Float64 Json States Transitions Schedules Model GroupCommit Tables.

Section store.
Context `{StoreEnv}.

Definition new_id (s : Store) : Store * Id := (set_drawn (drawn s + 1) s, nth_id (drawn s)).

(** ** Transitions *)

Definition json_map (text : string) : Map := default [] (map_from_str text).

Definition state_from_columns (c : StateCols) : option State :=
  match and_then (c_type c) StateType_parse with
  | Some t =>
      Some {| state_type := t; state_name := default (StateType_as_str t) (c_name c);
              state_message := c_message c; state_details := json_map (c_details c);
              state_timestamp := default 0 (c_timestamp c) |}
  | None => None
  end.

(** The columns written for a state. *)
Definition cols_of (s : State) : StateCols :=
  mkStateCols (Some (StateType_as_str (state_type s))) (Some (state_name s)) (state_message s)
    (map_to_string (state_details s)) (Some (state_timestamp s)).

(** Counters as read from their columns. *)
Definition read_counters (c : RunCounters) : RunCounters :=
  {| failure_count := wrap_u32 (failure_count c); crash_count := wrap_u32 (crash_count c);
     start_time := start_time c; end_time := end_time c; total_run_time := total_run_time c |}.

Inductive Table : Type :=
| TableRun
| TableTaskRun.
Definition not_found (t : Table) : string :=
  match t with TableRun => "run" | TableTaskRun => "task run" end.

Definition read_state (t : Table) (id : Z) (s : Store) : option (StateCols * RunCounters) :=
  match t with
  | TableRun => (λ r, (r_cols r, r_counters r)) <$> run s !! id
  | TableTaskRun => (λ r, (t_cols r, t_counters r)) <$> task_run s !! id
  end.

Definition run_with_state (c : StateCols) (n : RunCounters) (r : RunRow) : RunRow :=
  mkRunRow (r_external_id r) (r_flow_id r) (r_name r) (r_parameters r) (r_tags r) (r_created_at r)
    (r_created_by r) (r_schedule_id r) (r_scheduled_time r) (r_priority r) (r_parent_run_id r)
    (r_attempt r) (r_backfill_id r) (r_unique_key r) (r_report_seq r) (r_attributes r)
    (r_engine_pid r) (r_engine_id r) (r_host r) (r_processor r) (r_lease r) (r_source_hash r) c n.
Definition task_with_state (c : StateCols) (n : RunCounters) (r : TaskRow) : TaskRow :=
  mkTaskRow (t_external_id r) (t_run_id r) (t_name r) (t_task_key r) (t_dynamic_key r)
    (t_created_at r) (t_parents r) (t_pass r) (t_result_ref r) (t_input_hash r) c n.
Definition task_with_checkpoint (reference hash : string) (r : TaskRow) : TaskRow :=
  mkTaskRow (t_external_id r) (t_run_id r) (t_name r) (t_task_key r) (t_dynamic_key r)
    (t_created_at r) (t_parents r) (t_pass r) (Some reference) (Some hash) (t_cols r) (t_counters r).

Definition write_state (t : Table) (id : Z) (c : StateCols) (n : RunCounters) (s : Store) : Store :=
  match t with
  | TableRun => set_run (alter (run_with_state c n) id (run s)) s
  | TableTaskRun => set_task_run (alter (task_with_state c n) id (task_run s)) s
  end.

(** Where a completed task run says its result lives. *)
Definition checkpoint_of (accepted : State) : option (string * string) :=
  match and_then (map_get "checkpoint" (state_details accepted)) as_object with
  | Some cp =>
      match get_str "result_ref" cp, get_str "input_hash" cp with
      | Some reference, Some hash => Some (reference, hash)
      | _, _ => None
      end
  | None => None
  end.
Definition write_checkpoint (t : Table) (id : Z) (accepted : State) (s : Store) : Store :=
  match t, checkpoint_of accepted with
  | TableTaskRun, Some (reference, hash) =>
      set_task_run (alter (task_with_checkpoint reference hash) id (task_run s)) s
  | _, _ => s
  end.

Definition append_history (t : Table) (id : Z) (c : StateCols) (s : Store) : Store :=
  match t with
  | TableRun =>
      let n := next_row (run_state s) in
      set_last_rowid n (set_run_state (run_state s ++ [(n, (id, c))]) s)
  | TableTaskRun =>
      let n := next_row (task_run_state s) in
      set_last_rowid n (set_task_run_state (task_run_state s ++ [(n, (id, c))]) s)
  end.

(** Apply the shared transition rules and record the accepted state. *)
Definition transition (t : Table) (id : Z) (state : State) (force : bool) (s : Store)
    : Store * result State StoreError :=
  match read_state t id s with
  | None => (s, Err (NotFound (not_found t)))
  | Some (cols, counters) =>
      let current := state_from_columns cols in
      let proposal := {| prop_state := state; prop_force := force |} in
      match resolved (propose current proposal policy0) state with
      | Err reason => (s, Err (RejectedWith reason current))
      | Ok accepted =>
          let counters := apply (read_counters counters) accepted in
          let s := write_state t id (cols_of accepted) counters s in
          let s := write_checkpoint t id accepted s in
          (append_history t id (cols_of accepted) s, Ok accepted)
      end
  end.

(** ** Creation of runs *)

Record UniqueCheck : Type := mkUniqueCheck {
  uc_key : string;
  uc_states : list string;
  uc_since : option Z;
}.

Record CreateRun : Type := mkCreateRun {
  cr_flow_id : Z;
  cr_name : string;
  cr_parameters : string;
  cr_tags : string;
  cr_created_by : string;
  cr_initial_state : option State;
  cr_schedule_id : option Z;
  cr_scheduled_time : option Z;
  cr_priority : Z;
  cr_parent_run_id : option Z;
  cr_attempt : Z;
  cr_backfill_id : option Z;
  cr_unique : option UniqueCheck;
}.

(** The condition of the lookup: the key, in a state that counts, since a time.
    A NULL state is in no list. *)
Definition holds_key (check : UniqueCheck) (r : RunRow) : bool :=
  bool_decide (r_unique_key r = Some (uc_key check))
  && (match uc_states check with
      | [] => true
      | states => match c_type (r_cols r) with
                  | Some t => bool_decide (t ∈ states)
                  | None => false
                  end
      end)
  && match uc_since check with Some t => t <=? r_created_at r | None => true end.

(** [ORDER BY id DESC LIMIT 1] *)
Definition newest (ids : list Z) : option Z :=
  foldr (λ k o, Some (match o with Some m => Z.max k m | None => k end)) None ids.
Definition find_unique (check : UniqueCheck) (s : Store) : option Z :=
  newest (List.filter (λ kv, holds_key check kv.2) (map_to_list (run s))).*1.

(** A fire of a schedule already has its run. *)
Definition same_fire (a b : RunRow) : bool :=
  match r_schedule_id a, r_scheduled_time a with
  | Some i, Some t => bool_decide (r_schedule_id b = Some i) && bool_decide (r_scheduled_time b = Some t)
  | _, _ => false
  end.

Definition insert_run (row : RunRow) (s : Store) : Store * result Z StoreError :=
  let others := (map_to_list (run s)).*2 in
  if existsb (λ r, r_external_id r =?s r_external_id row) others then
    (s, Err (unique_violation "run.external_id"))
  else if existsb (same_fire row) others then
    (s, Err (unique_violation "run.schedule_id, run.scheduled_time"))
  else if negb (bool_decide (is_Some (flow s !! r_flow_id row))) then
    (s, Err foreign_key_violation)
  else
    let id := next_id (run s) in
    (set_last_rowid id (set_run (<[id := row]> (run s)) s), Ok id).

Definition run_row (now : Z) (ext : Id) (c : CreateRun) : RunRow :=
  mkRunRow ext (cr_flow_id c) (cr_name c) (cr_parameters c) (cr_tags c) now (cr_created_by c)
    (cr_schedule_id c) (cr_scheduled_time c) (cr_priority c) (cr_parent_run_id c) (cr_attempt c)
    (cr_backfill_id c) (uc_key <$> cr_unique c) 0 "{}" None None None None 0 None no_state RunCounters_default.

Definition create_run (now : Z) (c : CreateRun) (s : Store) : Store * result (Z * Id) StoreError :=
  match and_then (cr_unique c) (λ check, find_unique check s) with
  | Some existing => (s, Err (UniqueConflict existing))
  | None =>
      let '(s, ext) := new_id s in
      match insert_run (run_row now ext c) s with
      | (s, Err e) => (s, Err e)
      | (s, Ok run_id) =>
          match cr_initial_state c with
          | None => (s, Ok (run_id, ext))
          | Some state =>
              match transition TableRun run_id state false s with
              | (s, Ok _) => (s, Ok (run_id, ext))
              | (s, Err e) => (s, Err e)
              end
          end
      end
  end.

(** ** Task runs *)

Record CreateTaskRun : Type := mkCreateTaskRun {
  ct_run_id : Z;
  ct_name : string;
  ct_task_key : string;
  ct_dynamic_key : string;
  ct_external_id : option Id;
  ct_parents : list Id;
  ct_pass : Z;
  ct_once : bool;
}.

Definition task_run_id_by_external (ext : Id) (s : Store) : option Z :=
  fst <$> List.find (λ kv, t_external_id kv.2 =?s ext) (map_to_list (task_run s)).

Definition task_row (now : Z) (ext : Id) (c : CreateTaskRun) : TaskRow :=
  mkTaskRow ext (ct_run_id c) (ct_name c) (ct_task_key c) (ct_dynamic_key c) now
    (strings_to_string (ct_parents c)) (ct_pass c) None None no_state RunCounters_default.

(** A row of the same run, pass and dynamic key. *)
Definition same_call (a b : TaskRow) : bool :=
  (t_run_id a =? t_run_id b) && (t_pass a =? t_pass b) && (t_dynamic_key a =?s t_dynamic_key b).

(** [INSERT .. ON CONFLICT (external_id) DO NOTHING RETURNING id] with the id of
    the row that was there when nothing was inserted. *)
Definition insert_task_run (row : TaskRow) (s : Store) : Store * result Z StoreError :=
  match task_run_id_by_external (t_external_id row) s with
  | Some existing => (s, Ok existing)
  | None =>
      if existsb (same_call row) (map_to_list (task_run s)).*2 then
        (s, Err (unique_violation "task_run.run_id, task_run.pass, task_run.dynamic_key"))
      else if negb (bool_decide (is_Some (run s !! t_run_id row))) then
        (s, Err foreign_key_violation)
      else
        let id := next_id (task_run s) in
        (set_last_rowid id (set_task_run (<[id := row]> (task_run s)) s), Ok id)
  end.

(** [INSERT OR IGNORE INTO task_run_once] *)
Definition mark_once (id : Z) (s : Store) : Store :=
  if bool_decide (id ∈ task_run_once s) then s
  else set_last_rowid id (set_once ({[id]} ∪ task_run_once s) s).

Definition create_task_run (now : Z) (c : CreateTaskRun) (s : Store)
    : Store * result (Z * Id) StoreError :=
  let '(s, ext) := match ct_external_id c with Some e => (s, e) | None => new_id s end in
  match insert_task_run (task_row now ext c) s with
  | (s, Err e) => (s, Err e)
  | (s, Ok row_id) =>
      let s := if ct_once c && negb (row_id =? 0) then mark_once row_id s else s in
      (s, Ok (row_id, ext))
  end.

(** ** Logs *)

Record NewLog : Type := mkNewLog {
  nl_run_id : Z;
  nl_task_run_id : option Z;
  nl_task_run_external_id : option Id;
  nl_level : Z;
  nl_logger : string;
  nl_timestamp : Z;
  nl_message : string;
}.

(** The id of a task run by its external id, looked up once per report. *)
Definition cached_id (ext : Id) (cache : ExtCache) (s : Store) : ExtCache * option Z :=
  match cache !! ext with
  | Some v => (cache, v)
  | None => let v := task_run_id_by_external ext s in (<[ext := v]> cache, v)
  end.

Definition insert_log (row : LogRow) (s : Store) : Store * result unit StoreError :=
  if negb (bool_decide (is_Some (run s !! l_run_id row))) then (s, Err foreign_key_violation)
  else
    let n := next_row (log s) in
    (set_last_rowid n (set_log (log s ++ [(n, row)]) s), Ok tt).

Definition log_task_run_id (l : NewLog) (cache : ExtCache) (s : Store) : ExtCache * option Z :=
  match nl_task_run_id l, nl_task_run_external_id l with
  | Some id, _ => (cache, Some id)
  | None, Some ext => cached_id ext cache s
  | None, None => (cache, None)
  end.

(** The loop over the logs; the answer counts them at the end. *)
Fixpoint append_logs_loop (logs : list NewLog) (cache : ExtCache) (s : Store)
    : Store * ExtCache * result unit StoreError :=
  match logs with
  | [] => (s, cache, Ok tt)
  | l :: logs' =>
      let '(cache, task) := log_task_run_id l cache s in
      match insert_log (mkLogRow (nl_run_id l) task (nl_level l) (nl_logger l) (nl_timestamp l)
                          (nl_message l)) s with
      | (s, Err e) => (s, cache, Err e)
      | (s, Ok _) => append_logs_loop logs' cache s
      end
  end.
Definition append_logs_with_map (logs : list NewLog) (cache : ExtCache) (s : Store)
    : Store * ExtCache * result Z StoreError :=
  let '(s, cache, r) := append_logs_loop logs cache s in
  (s, cache, match r with Ok _ => Ok (Z.of_nat (length logs)) | Err e => Err e end).
Definition append_logs (logs : list NewLog) (s : Store) : Store * result Z StoreError :=
  let '(s, _, r) := append_logs_with_map logs ∅ s in (s, r).

(** ** Events *)

Record NewEvent : Type := mkNewEvent {
  ne_name : string;
  ne_run_id : option Z;
  ne_flow_id : option Z;
  ne_payload : Value;
  ne_resource : Resource;
  ne_related : list Resource;
}.

Definition insert_event (row : EventRow) (s : Store) : Store * result Z StoreError :=
  if existsb (λ kv, er_external_id kv.2 =?s er_external_id row) (event s) then
    (s, Err (unique_violation "event.external_id"))
  else
    let n := next_row (event s) in
    (set_last_rowid n (set_event (event s ++ [(n, row)]) s), Ok n).

Definition append_event (now : Z) (e : NewEvent) (s : Store) : Store * result (Event * Id) StoreError :=
  let '(s, ext) := new_id s in
  let flow_id := match ne_flow_id e, ne_run_id e with
                 | None, Some run_id => r_flow_id <$> run s !! run_id
                 | flow_id, _ => flow_id
                 end in
  let payload := value_to_string (ne_payload e) in
  match insert_event (mkEventRow ext (ne_name e) now (ne_run_id e) flow_id payload (ne_resource e)
                        (resources_to_string (ne_related e))) s with
  | (s, Err err) => (s, Err err)
  | (s, Ok id) =>
      (s, Ok ({| ev_id := id; ev_seq := id; ev_external_id := ext; ev_name := ne_name e;
                 ev_occurred := now; ev_resource := ne_resource e; ev_related := ne_related e;
                 ev_run_id := ne_run_id e; ev_flow_id := flow_id; ev_payload := json_map payload |},
              ext))
  end.

Definition run_resource (run_id : Z) (s : Store) : Resource * option Z :=
  match run s !! run_id with
  | Some r => ({| res_kind := "run"; res_id := r_external_id r; res_name := r_name r |},
               Some (r_flow_id r))
  | None => ({| res_kind := ""; res_id := ""; res_name := "" |}, None)
  end.

Definition tag_resource (tag : string) : Resource :=
  {| res_kind := "tag"; res_id := tag; res_name := tag |}.

(** Related resources of a run: its flow and its tags. *)
Definition run_related (run_id : Z) (s : Store) : list Resource :=
  match run s !! run_id with
  | Some r =>
      match flow s !! r_flow_id r with
      | Some f =>
          {| res_kind := "flow"; res_id := fl_project f +:+ "/" +:+ fl_name f;
             res_name := fl_name f |}
          :: (tag_resource <$> default [] (strings_from_str (r_tags r)))
      | None => []
      end
  | None => []
  end.

(** ** The effect journal and artifacts *)

Record EffectMark : Type := mkEffectMark { em_slot : string; em_hash : string; em_pass : Z }.

Definition update_effect (row r : EffectRow) : EffectRow :=
  mkEffectRow (ef_run_id r) (ef_slot r) (ef_pass row) (ef_hash row) (ef_ref row) (ef_created_at row).
Definition is_slot (row r : EffectRow) : bool :=
  (ef_run_id r =? ef_run_id row) && (ef_slot r =?s ef_slot row).

(** Journal a flow-body effect, replacing what an earlier pass wrote to its slot. *)
Definition record_effect (now run_id : Z) (mark : EffectMark) (ref : option string) (s : Store)
    : Store * result unit StoreError :=
  let row := mkEffectRow run_id (em_slot mark) (em_pass mark) (em_hash mark) ref now in
  if existsb (λ kv, is_slot row kv.2) (effect s) then
    (set_effect ((λ kv, if is_slot row kv.2 then (kv.1, update_effect row kv.2) else kv)
                   <$> effect s) s, Ok tt)
  else if negb (bool_decide (is_Some (run s !! run_id))) then (s, Err foreign_key_violation)
  else
    let n := next_row (effect s) in
    (set_last_rowid n (set_effect (effect s ++ [(n, row)]) s), Ok tt).

Record UpsertArtifact : Type := mkUpsertArtifact {
  ua_run_id : Z;
  ua_task_run_id : option Z;
  ua_kind : string;
  ua_key : option string;
  ua_data : string;
  ua_external_id : option Id;
  ua_effect : option EffectMark;
}.

(** The key index: run, task run (none counts as 0) and key. *)
Definition same_key (run_id : Z) (task : option Z) (key : string) (r : ArtifactRow) : bool :=
  (ar_run_id r =? run_id) && (default 0 (ar_task_run_id r) =? default 0 task)
  && bool_decide (ar_key r = Some key).
Definition keyed_artifact (a : UpsertArtifact) (s : Store) : option Z :=
  and_then (ua_key a) (λ key,
    fst <$> List.find (λ kv, same_key (ua_run_id a) (ua_task_run_id a) key kv.2) (artifact s)).

Definition update_artifact (id : Z) (f : ArtifactRow → ArtifactRow) (l : rows ArtifactRow)
    : rows ArtifactRow :=
  (λ kv, if kv.1 =? id then (kv.1, f kv.2) else kv) <$> l.

Definition upsert_artifact_row (now : Z) (a : UpsertArtifact) (s : Store)
    : Store * result Z StoreError :=
  match keyed_artifact a s with
  | Some id =>
      (set_artifact (update_artifact id
         (λ r, mkArtifactRow (ar_external_id r) (ar_run_id r) (ar_task_run_id r) (ua_kind a)
                 (ar_key r) (ua_data a) (ar_created_at r) now) (artifact s)) s, Ok id)
  | None =>
      let '(s, ext) := match ua_external_id a with Some e => (s, e) | None => new_id s end in
      match List.find (λ kv, ar_external_id kv.2 =?s ext) (artifact s) with
      | Some (id, _) =>
          let s := set_artifact (update_artifact id
            (λ r, mkArtifactRow (ar_external_id r) (ar_run_id r) (ar_task_run_id r) (ar_kind r)
                    (ar_key r) (ua_data a) (ar_created_at r) now) (artifact s)) s in
          (s, Ok (last_rowid s))
      | None =>
          if negb (bool_decide (is_Some (run s !! ua_run_id a))) then (s, Err foreign_key_violation)
          else
            let n := next_row (artifact s) in
            let row := mkArtifactRow ext (ua_run_id a) (ua_task_run_id a) (ua_kind a) (ua_key a)
                         (ua_data a) now now in
            let s := set_last_rowid n (set_artifact (artifact s ++ [(n, row)]) s) in
            (s, Ok (last_rowid s))
      end
  end.

Definition upsert_artifact (now : Z) (a : UpsertArtifact) (s : Store) : Store * result Z StoreError :=
  match upsert_artifact_row now a s with
  | (s, Err e) => (s, Err e)
  | (s, Ok id) =>
      match ua_effect a with
      | None => (s, Ok id)
      | Some mark =>
          let ref := match ua_external_id a with Some ext => ext | None => pretty id end in
          match record_effect now (ua_run_id a) mark (Some ref) s with
          | (s, Ok _) => (s, Ok id)
          | (s, Err e) => (s, Err e)
          end
      end
  end.

(** ** Reports *)

Inductive ReportEvent : Type :=
| TaskRunCreated (seq : Z) (external_id : Id) (name task_key dynamic_key : string)
    (parents : list Id) (pass : Z) (once : bool)
| TaskRunTransition (seq : Z) (external_id : Id) (state : State) (force : bool)
| Logs (seq : Z) (logs : list NewLog)
| Custom (seq : Z) (name : string) (payload : Value) (task_run_external_id : option Id)
    (mark : option EffectMark)
| Artifact (seq : Z) (external_id : Id) (task_run_external_id : option Id)
    (artifact_kind : string) (key : option string) (data : Value) (mark : option EffectMark).

Definition seq (e : ReportEvent) : Z :=
  match e with
  | TaskRunCreated n _ _ _ _ _ _ _ | TaskRunTransition n _ _ _ | Logs n _ | Custom n _ _ _ _
  | Artifact n _ _ _ _ _ _ => n
  end.

Definition event_kind (e : ReportEvent) : string :=
  match e with
  | TaskRunCreated _ _ _ _ _ _ _ _ => "task_run_created"
  | TaskRunTransition _ _ _ _ => "task_run_transition"
  | Logs _ _ => "logs"
  | Custom _ _ _ _ _ => "custom"
  | Artifact _ _ _ _ _ _ _ => "artifact"
  end.

(** Whether one event can be dropped while the rest of its report applies. *)
Definition is_event_rejection (e : StoreError) : bool :=
  match e with
  | Sqlite constraint_violation _ => constraint_violation
  | Invalid _ | NotFound _ => true
  | _ => false
  end.

Record RejectedEvent : Type := mkRejectedEvent {
  re_seq : Z;
  re_kind : string;
  re_error : StoreError;
}.

(** The task runs of the answer are their rows; the rejections keep the error
    whose text is the reason. *)
Record ReportOutcome : Type := mkReportOutcome {
  applied : Z;
  skipped : Z;
  task_runs : list (Z * TaskRow);
  task_run_transitions : list (option string * string);
  log_count : Z;
  last_log_id : option Z;
  out_last_seq : Z;
  task_run_states : list (Id * State);
  event_ids : list Z;
  artifact_ids : list Z;
  rejected : list RejectedEvent;
}.

(** The variables of [apply_report] besides the tables. *)
Record Report : Type := mkReport {
  ext_cache : ExtCache;
  touched : list Id;
  before : gmap Id (option string);
  out : ReportOutcome;
}.

Definition set_cache (c : ExtCache) (r : Report) : Report :=
  mkReport c (touched r) (before r) (out r).
Definition set_out (o : ReportOutcome) (r : Report) : Report :=
  mkReport (ext_cache r) (touched r) (before r) o.
Definition touch (ext : Id) (r : Report) : Report :=
  if bool_decide (ext ∈ touched r) then r
  else mkReport (ext_cache r) (touched r ++ [ext]) (before r) (out r).

Definition find_task_run (ext : Id) (s : Store) : option (Z * TaskRow) :=
  List.find (λ kv, t_external_id kv.2 =?s ext) (map_to_list (task_run s)).

Definition remember_before (ext : Id) (s : Store) (r : Report) : Report :=
  if bool_decide (is_Some (before r !! ext)) then r
  else
    let prev := and_then (find_task_run ext s) (λ kv, c_type (t_cols kv.2)) in
    mkReport (ext_cache r) (touched r) (<[ext := prev]> (before r)) (out r).

Definition add_skipped (o : ReportOutcome) : ReportOutcome :=
  mkReportOutcome (applied o) (skipped o + 1) (task_runs o) (task_run_transitions o) (log_count o)
    (last_log_id o) (out_last_seq o) (task_run_states o) (event_ids o) (artifact_ids o) (rejected o).
Definition add_applied (o : ReportOutcome) : ReportOutcome :=
  mkReportOutcome (applied o + 1) (skipped o) (task_runs o) (task_run_transitions o) (log_count o)
    (last_log_id o) (out_last_seq o) (task_run_states o) (event_ids o) (artifact_ids o) (rejected o).
Definition add_rejected (x : RejectedEvent) (o : ReportOutcome) : ReportOutcome :=
  mkReportOutcome (applied o) (skipped o) (task_runs o) (task_run_transitions o) (log_count o)
    (last_log_id o) (out_last_seq o) (task_run_states o) (event_ids o) (artifact_ids o)
    (rejected o ++ [x]).
Definition add_state (x : Id * State) (o : ReportOutcome) : ReportOutcome :=
  mkReportOutcome (applied o) (skipped o) (task_runs o) (task_run_transitions o) (log_count o)
    (last_log_id o) (out_last_seq o) (task_run_states o ++ [x]) (event_ids o) (artifact_ids o)
    (rejected o).
Definition add_logs (n : Z) (last_id : option Z) (o : ReportOutcome) : ReportOutcome :=
  mkReportOutcome (applied o) (skipped o) (task_runs o) (task_run_transitions o) (log_count o + n)
    last_id (out_last_seq o) (task_run_states o) (event_ids o) (artifact_ids o) (rejected o).
Definition add_event_id (id : Z) (o : ReportOutcome) : ReportOutcome :=
  mkReportOutcome (applied o) (skipped o) (task_runs o) (task_run_transitions o) (log_count o)
    (last_log_id o) (out_last_seq o) (task_run_states o) (event_ids o ++ [id]) (artifact_ids o)
    (rejected o).
Definition add_artifact_id (id : Z) (o : ReportOutcome) : ReportOutcome :=
  mkReportOutcome (applied o) (skipped o) (task_runs o) (task_run_transitions o) (log_count o)
    (last_log_id o) (out_last_seq o) (task_run_states o) (event_ids o) (artifact_ids o ++ [id])
    (rejected o).
Definition set_out_last_seq (n : Z) (o : ReportOutcome) : ReportOutcome :=
  mkReportOutcome (applied o) (skipped o) (task_runs o) (task_run_transitions o) (log_count o)
    (last_log_id o) n (task_run_states o) (event_ids o) (artifact_ids o) (rejected o).
Definition add_task_run (t : Z * TaskRow) (tr : list (option string * string)) (o : ReportOutcome)
    : ReportOutcome :=
  mkReportOutcome (applied o) (skipped o) (task_runs o ++ [t]) (task_run_transitions o ++ tr)
    (log_count o) (last_log_id o) (out_last_seq o) (task_run_states o) (event_ids o)
    (artifact_ids o) (rejected o).

(** The arms of the [match] on an event: the tables, the variables and whether
    the event was applied. *)
Definition report_created (now run_id : Z) (ext : Id) (name task_key dynamic_key : string)
    (parents : list Id) (pass : Z) (once : bool) (s : Store) (r : Report)
    : Store * Report * result bool StoreError :=
  let r := remember_before ext s r in
  match create_task_run now (mkCreateTaskRun run_id name task_key dynamic_key (Some ext) parents
                               pass once) s with
  | (s, Err e) => (s, r, Err e)
  | (s, Ok (row_id, _)) =>
      (s, touch ext (set_cache (<[ext := Some row_id]> (ext_cache r)) r), Ok true)
  end.

(** The row of a transition's task run: the cached id, or the table's. *)
Definition transition_row (ext : Id) (s : Store) (r : Report) : Report * option Z :=
  match ext_cache r !! ext with
  | Some (Some id) => (r, Some id)
  | _ => match task_run_id_by_external ext s with
         | Some id => (set_cache (<[ext := Some id]> (ext_cache r)) r, Some id)
         | None => (r, None)
         end
  end.

Definition report_transition (ext : Id) (state : State) (force : bool) (s : Store) (r : Report)
    : Store * Report * result bool StoreError :=
  let r := remember_before ext s r in
  match transition_row ext s r with
  | (r, None) => (s, set_out (add_skipped (out r)) r, Ok false)
  | (r, Some row_id) =>
      match transition TableTaskRun row_id state force s with
      | (s, Ok accepted) => (s, touch ext (set_out (add_state (ext, accepted) (out r)) r), Ok true)
      | (s, Err (RejectedWith _ _)) | (s, Err (Rejected _)) => (s, touch ext r, Ok true)
      | (s, Err e) => (s, r, Err e)
      end
  end.

Definition report_logs (logs : list NewLog) (s : Store) (r : Report)
    : Store * Report * result bool StoreError :=
  let '(s, cache, n) := append_logs_with_map logs (ext_cache r) s in
  let r := set_cache cache r in
  match n with
  | Err e => (s, r, Err e)
  | Ok n =>
      let last_id := if 0 <? n then Some (last_rowid s) else last_log_id (out r) in
      (s, set_out (add_logs n last_id (out r)) r, Ok true)
  end.

Definition report_custom (now run_id : Z) (name : string) (payload : Value)
    (task_run_external_id : option Id) (mark : option EffectMark) (s : Store) (r : Report)
    : Store * Report * result bool StoreError :=
  let '(resource, run_row) := run_resource run_id s in
  let related := run_related run_id s
                 ++ match task_run_external_id with
                    | Some ext => [{| res_kind := "task_run"; res_id := ext; res_name := "" |}]
                    | None => []
                    end in
  match append_event now (mkNewEvent name (Some run_id) run_row payload resource related) s with
  | (s, Err e) => (s, r, Err e)
  | (s, Ok (eid, _)) =>
      match match mark with
            | Some mark => record_effect now run_id mark None s
            | None => (s, Ok tt)
            end with
      | (s, Err e) => (s, r, Err e)
      | (s, Ok _) => (s, set_out (add_event_id (ev_id eid) (out r)) r, Ok true)
      end
  end.

Definition report_artifact (now run_id : Z) (ext : Id) (task_run_external_id : option Id)
    (kind : string) (key : option string) (data : Value) (mark : option EffectMark)
    (s : Store) (r : Report) : Store * Report * result bool StoreError :=
  let '(cache, task) := match task_run_external_id with
                        | Some e => cached_id e (ext_cache r) s
                        | None => (ext_cache r, None)
                        end in
  let r := set_cache cache r in
  match upsert_artifact now (mkUpsertArtifact run_id task kind key (value_to_string data) (Some ext)
                               mark) s with
  | (s, Err e) => (s, r, Err e)
  | (s, Ok aid) => (s, set_out (add_artifact_id aid (out r)) r, Ok true)
  end.

Definition report_step (now run_id : Z) (e : ReportEvent) (s : Store) (r : Report)
    : Store * Report * result bool StoreError :=
  match e with
  | TaskRunCreated _ ext name task_key dynamic_key parents pass once =>
      report_created now run_id ext name task_key dynamic_key parents pass once s r
  | TaskRunTransition _ ext state force => report_transition ext state force s r
  | Logs _ logs => report_logs logs s r
  | Custom _ name payload task mark => report_custom now run_id name payload task mark s r
  | Artifact _ ext task kind key data mark =>
      report_artifact now run_id ext task kind key data mark s r
  end.

(** The loop over the events of a report. *)
Fixpoint report_loop (now run_id : Z) (events : list ReportEvent) (last_seq : Z) (s : Store)
    (r : Report) : Store * result (Z * Report) StoreError :=
  match events with
  | [] => (s, Ok (last_seq, r))
  | e :: events' =>
      if seq e <=? last_seq then
        report_loop now run_id events' last_seq s (set_out (add_skipped (out r)) r)
      else
        match report_step now run_id e s r with
        | (s, r, Ok true) =>
            report_loop now run_id events' (seq e) s (set_out (add_applied (out r)) r)
        | (s, r, Ok false) => report_loop now run_id events' (seq e) s r
        | (s, r, Err err) =>
            if is_event_rejection err then
              report_loop now run_id events' (seq e) s
                (set_out (add_rejected (mkRejectedEvent (seq e) (event_kind e) err) (out r)) r)
            else (s, Err err)
        end
  end.

Definition run_with_seq (n : Z) (r : RunRow) : RunRow :=
  mkRunRow (r_external_id r) (r_flow_id r) (r_name r) (r_parameters r) (r_tags r) (r_created_at r)
    (r_created_by r) (r_schedule_id r) (r_scheduled_time r) (r_priority r) (r_parent_run_id r)
    (r_attempt r) (r_backfill_id r) (r_unique_key r) n (r_attributes r) (r_engine_pid r)
    (r_engine_id r) (r_host r) (r_processor r) (r_lease r) (r_source_hash r) (r_cols r)
    (r_counters r).
Definition write_seq (run_id n : Z) (s : Store) : Store :=
  set_run (alter (run_with_seq n) run_id (run s)) s.

(** A task run as the reader joins it with its run and flow. *)
Definition joined_task_run (ext : Id) (s : Store) : option (Z * TaskRow) :=
  match find_task_run ext s with
  | Some (id, t) =>
      match run s !! t_run_id t with
      | Some r => if bool_decide (is_Some (flow s !! r_flow_id r)) then Some (id, t) else None
      | None => None
      end
  | None => None
  end.

(** The state type the reader shows: a task run without a state is pending. *)
Definition shown_type (c : StateCols) : string :=
  match state_from_columns c with
  | Some st => StateType_as_str (state_type st)
  | None => StateType_as_str Pending
  end.

Definition collect_touched (s : Store) (r : Report) (o : ReportOutcome) (ext : Id) : ReportOutcome :=
  match joined_task_run ext s with
  | None => o
  | Some (id, t) =>
      let prev := and_then (before r !! ext) (λ x, x) in
      let next := shown_type (t_cols t) in
      add_task_run (id, t) (if bool_decide (prev = Some next) then [] else [(prev, next)]) o
  end.

Definition new_outcome (last_seq : Z) : ReportOutcome :=
  mkReportOutcome 0 0 [] [] 0 None last_seq [] [] [] [].

(** Apply a batch of engine events in order, skipping any whose sequence
    number is not greater than the run's stored [report_seq]. *)
Definition apply_report (now run_id : Z) (events : list ReportEvent) (s : Store)
    : Store * result ReportOutcome StoreError :=
  match run s !! run_id with
  | None => (s, Err (NotFound "run"))
  | Some row =>
      let start := r_report_seq row in
      match report_loop now run_id events start s (mkReport ∅ [] ∅ (new_outcome start)) with
      | (s, Err e) => (s, Err e)
      | (s, Ok (last_seq, r)) =>
          let '(s, o) := if last_seq =? out_last_seq (out r) then (s, out r)
                         else (write_seq run_id last_seq s, set_out_last_seq last_seq (out r)) in
          (s, Ok (fold_left (collect_touched s r) (touched r) o))
      end
  end.
End store.

(** ** Lookups *)

(** External ids name one row each. *)
Definition ext_unique (s : Store) : Prop :=
  ∀ i j a b, task_run s !! i = Some a → task_run s !! j = Some b →
    t_external_id a = t_external_id b → i = j.

Lemma find_task_run_None ext s :
  find_task_run ext s = None ↔ ∀ i t, task_run s !! i = Some t → t_external_id t ≠ ext.
Proof.
  rw /find_task_run. split.
  - intros Hf i t Ht Heq. assert (Hin : In (i, t) (map_to_list (task_run s)))
      by by apply list_elem_of_In, elem_of_map_to_list.
    pose proof (find_none _ _ Hf _ Hin) as Hne. simpl in Hne. by rw Heq str_eqb_refl in Hne.
  - intros Hn. destruct (List.find _ _) as [[i t]|] eqn:E; [|done].
    apply find_some in E as [Hin%list_elem_of_In%elem_of_map_to_list Heq%str_eqb_eq]. by apply Hn in Hin.
Qed.

Lemma find_task_run_Some ext s i t :
  find_task_run ext s = Some (i, t) → task_run s !! i = Some t ∧ t_external_id t = ext.
Proof.
  rw /find_task_run. intros [Hin Heq%str_eqb_eq]%find_some. split; [|done].
  by apply elem_of_map_to_list, list_elem_of_In.
Qed.

Lemma id_by_external_eq ext s : task_run_id_by_external ext s = fst <$> find_task_run ext s.
Proof. done. Qed.

Lemma id_by_external_Some ext s i :
  ext_unique s →
  task_run_id_by_external ext s = Some i ↔ ∃ t, task_run s !! i = Some t ∧ t_external_id t = ext.
Proof.
  intros Hu. rw id_by_external_eq. destruct (find_task_run ext s) as [[j u]|] eqn:E; simpl.
  - apply find_task_run_Some in E as [Hj <-]. split; [intros [= ->]; by exists u|].
    intros (t & Ht & He). f_equal. symmetry. by eapply Hu.
  - rw find_task_run_None in E. split; [done|]. intros (t & Ht & He). by apply E in Ht.
Qed.

(** The tables of a lookup by external id. *)
Lemma id_by_external_stable ext s s' :
  ext_unique s → ext_unique s' →
  (∀ i t, task_run s !! i = Some t → t_external_id t = ext →
     ∃ t', task_run s' !! i = Some t' ∧ t_external_id t' = ext) →
  (∀ i t, task_run s' !! i = Some t → t_external_id t = ext →
     ∃ t', task_run s !! i = Some t' ∧ t_external_id t' = ext) →
  task_run_id_by_external ext s' = task_run_id_by_external ext s.
Proof.
  intros Hu Hu' Hf Hb. apply option_eq. intros i. rw !id_by_external_Some //.
  split; intros (t & Ht & He); eauto.
Qed.

(** ** The effect of one event

    [apply_event] is what an event does to the tables when every task run is
    looked up in its table; [report_step] computes the same with the lookups
    cached, as long as the cache is true to the table. *)

Lemma foldr_max_bound l x : x ∈ l → x ≤ foldr Z.max 0 l.
Proof. induction l; set_solver by lia. Qed.

Lemma next_id_fresh {A} (m : gmap Z A) : m !! next_id m = None.
Proof.
  destruct (m !! next_id m) as [x|] eqn:E; [|done]. exfalso.
  assert (next_id m ≤ foldr Z.max 0 (map_to_list m).*1); [|rw /next_id in H; lia].
  apply foldr_max_bound, list_elem_of_fmap. exists (next_id m, x). split; [done|].
  by apply elem_of_map_to_list.
Qed.

Section reference.
Context `{StoreEnv}.

Definition task_of_log (l : NewLog) (s : Store) : option Z :=
  match nl_task_run_id l, nl_task_run_external_id l with
  | Some id, _ => Some id
  | None, Some ext => task_run_id_by_external ext s
  | None, None => None
  end.

Fixpoint apply_logs (logs : list NewLog) (s : Store) : Store * result unit StoreError :=
  match logs with
  | [] => (s, Ok tt)
  | l :: logs' =>
      match insert_log (mkLogRow (nl_run_id l) (task_of_log l s) (nl_level l) (nl_logger l) (nl_timestamp l)
                          (nl_message l)) s with
      | (s, Err e) => (s, Err e)
      | (s, Ok _) => apply_logs logs' s
      end
  end.

Definition apply_event (now run_id : Z) (e : ReportEvent) (s : Store) : Store * result bool StoreError :=
  match e with
  | TaskRunCreated _ ext name task_key dynamic_key parents pass once =>
      let '(s, r) := create_task_run now (mkCreateTaskRun run_id name task_key dynamic_key (Some ext)
                                            parents pass once) s in
      (s, match r with Ok _ => Ok true | Err e => Err e end)
  | TaskRunTransition _ ext state force =>
      match task_run_id_by_external ext s with
      | None => (s, Ok false)
      | Some id =>
          match transition TableTaskRun id state force s with
          | (s, Ok _) | (s, Err (RejectedWith _ _)) | (s, Err (Rejected _)) => (s, Ok true)
          | (s, Err e) => (s, Err e)
          end
      end
  | Logs _ logs =>
      let '(s, r) := apply_logs logs s in
      (s, match r with Ok _ => Ok true | Err e => Err e end)
  | Custom _ name payload task mark =>
      let '(s, _, r) := report_custom now run_id name payload task mark s
                          (mkReport ∅ [] ∅ (new_outcome 0)) in
      (s, r)
  | Artifact _ ext task kind key data mark =>
      let '(s, r) := upsert_artifact now (mkUpsertArtifact run_id
                       (and_then task (λ e, task_run_id_by_external e s)) kind key
                       (value_to_string data) (Some ext) mark) s in
      (s, match r with Ok _ => Ok true | Err e => Err e end)
  end.

(** The events after the last one applied, one after the other. *)
Fixpoint apply_events (now run_id : Z) (events : list ReportEvent) (last_seq : Z) (s : Store)
    : Store * result Z StoreError :=
  match events with
  | [] => (s, Ok last_seq)
  | e :: events' =>
      if seq e <=? last_seq then apply_events now run_id events' last_seq s
      else
        match apply_event now run_id e s with
        | (s, Ok _) => apply_events now run_id events' (seq e) s
        | (s, Err err) =>
            if is_event_rejection err then apply_events now run_id events' (seq e) s
            else (s, Err err)
        end
  end.

Definition coherent (c : ExtCache) (s : Store) : Prop :=
  ∀ ext v, c !! ext = Some v → v = task_run_id_by_external ext s.

Lemma coherent_insert ext c s :
  coherent c s → coherent (<[ext := task_run_id_by_external ext s]> c) s.
Proof using Type.
  intros Hc e v. rw lookup_insert. destruct (decide (ext = e)) as [<-|]; [by intros [= <-]|apply Hc].
Qed.

(** Tables with the same external ids under the same ids. *)
Definition same_exts (s s' : Store) : Prop :=
  ∀ i, t_external_id <$> task_run s' !! i = t_external_id <$> task_run s !! i.

Lemma same_exts_row s s' i t :
  same_exts s s' → task_run s' !! i = Some t →
  ∃ t', task_run s !! i = Some t' ∧ t_external_id t' = t_external_id t.
Proof using Type.
  intros Hs Ht. specialize (Hs i). rw Ht /= in Hs. destruct (task_run s !! i) as [t'|]; [|done].
  exists t'. by injection Hs.
Qed.
Lemma same_exts_sym s s' : same_exts s s' → same_exts s' s.
Proof using Type. intros Hs i. by rw Hs. Qed.

Lemma same_exts_ok s s' :
  same_exts s s' → ext_unique s →
  ext_unique s' ∧ ∀ e, task_run_id_by_external e s' = task_run_id_by_external e s.
Proof using Type.
  intros Hs Hu. assert (Hu' : ext_unique s').
  { intros i j a b Ha Hb Hab. destruct (same_exts_row _ _ _ _ Hs Ha) as (a' & Ha' & Ea).
    destruct (same_exts_row _ _ _ _ Hs Hb) as (b' & Hb' & Eb). eapply Hu; [done|done|congruence]. }
  split; [done|]. intros e. apply id_by_external_stable; [done|done| |]; intros i t Ht <-.
  - by apply (same_exts_row s' s); [apply same_exts_sym|].
  - by apply (same_exts_row s s').
Qed.

Lemma coherent_same c s s' : same_exts s s' → ext_unique s → coherent c s → coherent c s'.
Proof using Type.
  intros Hs Hu Hc e v Hv. destruct (same_exts_ok _ _ Hs Hu) as [_ ->]. by apply Hc.
Qed.

Lemma cached_id_ok ext c s :
  coherent c s → coherent (cached_id ext c s).1 s ∧ (cached_id ext c s).2 = task_run_id_by_external ext s.
Proof using Type.
  intros Hc. rw /cached_id. destruct (c !! ext) as [v|] eqn:E; simpl.
  - split; [done|]. by apply Hc.
  - split; [by apply coherent_insert|done].
Qed.

(** *** What each command leaves of the external ids *)

Lemma same_exts_task s s' : task_run s' = task_run s → same_exts s s'.
Proof using Type. intros Ht i. by rw Ht. Qed.

Lemma transition_exts t id st force s : same_exts s (transition t id st force s).1.
Proof using Type.
  rw /transition. destruct (read_state t id s) as [[c n]|]; [|done].
  destruct (resolved _ _) as [accepted|]; [|done]. simpl. intros i. destruct t; [done|].
  rw /append_history /write_checkpoint /write_state /=.
  destruct (checkpoint_of accepted) as [[ref hash]|]; simpl; rw !lookup_alter;
    (destruct (decide (id = i)) as [<-|]; [|done]); rw ?decide_True //; by destruct (task_run s !! id).
Qed.

Lemma insert_log_task row s : task_run (insert_log row s).1 = task_run s.
Proof using Type. rw /insert_log. by destruct (negb _). Qed.
Lemma insert_event_task row s : task_run (insert_event row s).1 = task_run s.
Proof using Type. rw /insert_event. by destruct (existsb _ _). Qed.
Lemma append_event_task now e s : task_run (append_event now e s).1 = task_run s.
Proof using Type.
  rw /append_event /new_id. cbn -[insert_event]. pose proof insert_event_task as Hi.
  match goal with |- context [insert_event ?row ?s'] => specialize (Hi row s'); destruct (insert_event row s') as [s2 [id|]] end; done.
Qed.
Lemma record_effect_task now run_id mark ref s :
  task_run (record_effect now run_id mark ref s).1 = task_run s.
Proof using Type. rw /record_effect. by repeat case_match. Qed.
Lemma upsert_artifact_row_task now a s : task_run (upsert_artifact_row now a s).1 = task_run s.
Proof using Type.
  rw /upsert_artifact_row /new_id. destruct (keyed_artifact a s); [done|].
  destruct (ua_external_id a); repeat case_match; simplify_eq/=; done.
Qed.
Lemma upsert_artifact_task now a s : task_run (upsert_artifact now a s).1 = task_run s.
Proof using Type.
  rw /upsert_artifact. pose proof (upsert_artifact_row_task now a s) as Ha.
  destruct (upsert_artifact_row now a s) as [s1 [id|]]; [|done]. simpl in Ha.
  destruct (ua_effect a) as [mark|]; [|done].
  match goal with |- context [record_effect ?n ?r ?m ?f s1] =>
    pose proof (record_effect_task n r m f s1) as He; destruct (record_effect n r m f s1) as [s2 [u|]]
  end; simpl in *; congruence.
Qed.

Lemma create_task_run_exts now c ext s :
  ct_external_id c = Some ext → ext_unique s →
  match create_task_run now c s with
  | (s', Ok (id, _)) =>
      ext_unique s' ∧ task_run_id_by_external ext s' = Some id ∧
      (∀ e, e ≠ ext → task_run_id_by_external e s' = task_run_id_by_external e s)
  | (s', Err _) => s' = s
  end.
Proof using Type.
  intros Hext Hu. rw /create_task_run Hext /insert_task_run. cbn [t_external_id task_row].
  destruct (task_run_id_by_external ext s) as [id|] eqn:Ef.
  { assert (Hm : ∀ s', task_run s' = task_run s →
      ext_unique s' ∧ task_run_id_by_external ext s' = Some id ∧
      (∀ e, e ≠ ext → task_run_id_by_external e s' = task_run_id_by_external e s)).
    { intros s' Hs'. destruct (same_exts_ok s s') as [Hu' He]; [by apply same_exts_task|done|].
      split_and!; [done|by rw He|by intros]. }
    apply Hm. rw /mark_once. by repeat case_match. }
  destruct (existsb _ _); [done|]. destruct (negb _); [done|].
  set (id := next_id (task_run s)). set (row := task_row now ext c).
  assert (Hfresh : task_run s !! id = None) by apply next_id_fresh.
  rw id_by_external_eq fmap_None find_task_run_None in Ef.
  assert (Hm : ∀ s', task_run s' = <[id := row]> (task_run s) →
    ext_unique s' ∧ task_run_id_by_external ext s' = Some id ∧
    (∀ e, e ≠ ext → task_run_id_by_external e s' = task_run_id_by_external e s)).
  { intros s' Hs'. assert (Hu' : ext_unique s').
    { intros i j a b. rw Hs' !lookup_insert. intros Ha Hb Hab.
      destruct (decide (id = i)) as [<-|], (decide (id = j)) as [<-|]; [done| | |by eapply Hu].
      - injection Ha as <-. by apply Ef in Hb.
      - injection Hb as <-. by apply Ef in Ha. }
    split_and!; [done| |].
    - apply id_by_external_Some; [done|]. exists row. by rw Hs' lookup_insert_eq.
    - intros e He. apply id_by_external_stable; [done|done| |]; intros i t; rw Hs'.
      + intros Ht <-. exists t. rw lookup_insert_ne //. congruence.
      + rw lookup_insert. case_decide; [|by eauto]. intros [= <-] Hte. by rw -Hte in He. }
  apply Hm. rw /mark_once. by repeat case_match.
Qed.

(** *** The report computes the effect of its events *)

Lemma append_logs_ok logs c s :
  coherent c s → ext_unique s →
  let '(s', c', r) := append_logs_loop logs c s in
  apply_logs logs s = (s', r) ∧ coherent c' s' ∧ task_run s' = task_run s.
Proof using Type.
  revert c s; induction logs as [|l logs IH]; intros c s Hc Hu; simpl; [done|].
  assert (Hl : coherent (log_task_run_id l c s).1 s ∧ (log_task_run_id l c s).2 = task_of_log l s).
  { rw /log_task_run_id /task_of_log. repeat case_match; [done|by apply cached_id_ok|done]. }
  destruct (log_task_run_id l c s) as [c1 task]; simpl in Hl. destruct Hl as [Hc1 <-].
  match goal with |- context [insert_log ?row s] =>
    pose proof (insert_log_task row s) as Ht; destruct (insert_log row s) as [s1 [u|e]] end; simpl in Ht.
  - assert (Hs : same_exts s s1) by by apply same_exts_task.
    specialize (IH c1 s1 (coherent_same _ _ _ Hs Hu Hc1) (proj1 (same_exts_ok _ _ Hs Hu))).
    destruct (append_logs_loop logs c1 s1) as [[s2 c2] r]. rw Ht in IH. exact IH.
  - split_and!; [done| |done]. apply (coherent_same _ s); [by apply same_exts_task|done|done].
Qed.

Lemma remember_before_cache ext s r : ext_cache (remember_before ext s r) = ext_cache r.
Proof using Type. rw /remember_before. by case_match. Qed.
Lemma touch_cache ext r : ext_cache (touch ext r) = ext_cache r.
Proof using Type. rw /touch. by case_match. Qed.

(** What [report_step] answers, against the reference. *)
Definition step_agrees (ref : Store * result bool StoreError) (x : Store * Report * result bool StoreError)
    : Prop :=
  ref = (x.1.1, x.2) ∧ coherent (ext_cache x.1.2) x.1.1 ∧ ext_unique x.1.1.

Lemma report_created_ok now run_id ext name tk dk parents pass once n s r :
  coherent (ext_cache r) s → ext_unique s →
  step_agrees (apply_event now run_id (TaskRunCreated n ext name tk dk parents pass once) s)
    (report_created now run_id ext name tk dk parents pass once s r).
Proof using Type.
  intros Hc Hu. rw /step_agrees /report_created /=. set (c := mkCreateTaskRun _ _ _ _ _ _ _ _).
  pose proof (create_task_run_exts now c ext s eq_refl Hu) as Hx.
  destruct (create_task_run now c s) as [s1 [[id e0]|err]]; simpl.
  - destruct Hx as (Hu1 & Hid & Hrest). rw touch_cache /= remember_before_cache.
    split_and!; [done| |done]. intros e v. rw lookup_insert.
    destruct (decide (ext = e)) as [<-|]; [by intros [= <-]|]. intros Hv. rw Hrest //. by apply Hc.
  - subst s1. by rw remember_before_cache.
Qed.

Lemma report_transition_ok now run_id ext state force n s r :
  coherent (ext_cache r) s → ext_unique s →
  step_agrees (apply_event now run_id (TaskRunTransition n ext state force) s)
    (report_transition ext state force s r).
Proof using Type.
  intros Hc Hu. rw /step_agrees /report_transition /=.
  set (r0 := remember_before ext s r).
  assert (Hc0 : coherent (ext_cache r0) s) by by rw remember_before_cache.
  assert (Hrow : coherent (ext_cache (transition_row ext s r0).1) s ∧
                 (transition_row ext s r0).2 = task_run_id_by_external ext s).
  { rw /transition_row. destruct (ext_cache r0 !! ext) as [[id|]|] eqn:E.
    - split; [done|]. by apply Hc0.
    - destruct (task_run_id_by_external ext s) as [id|] eqn:Ei; [|done].
      split; [|done]. simpl. rw -Ei. by apply coherent_insert.
    - destruct (task_run_id_by_external ext s) as [id|] eqn:Ei; [|done].
      split; [|done]. simpl. rw -Ei. by apply coherent_insert. }
  destruct (transition_row ext s r0) as [r1 row]; simpl in Hrow. destruct Hrow as [Hc1 <-].
  destruct row as [id|]; [|done].
  pose proof (transition_exts TableTaskRun id state force s) as Hs.
  destruct (same_exts_ok _ _ Hs Hu) as [Hu' _].
  pose proof (coherent_same _ _ _ Hs Hu Hc1) as Hc'.
  destruct (transition TableTaskRun id state force s) as [s1 [st|err]]; simpl in *.
  - by rw touch_cache.
  - destruct err; simpl; rw ?touch_cache //.
Qed.

Lemma report_custom_ok now run_id name payload task mark s r :
  let x := report_custom now run_id name payload task mark s r in
  apply_event now run_id (Custom 0 name payload task mark) s = (x.1.1, x.2) ∧
  ext_cache x.1.2 = ext_cache r ∧ task_run x.1.1 = task_run s.
Proof using Type.
  rw /= /report_custom. destruct (run_resource run_id s) as [res row].
  match goal with |- context [append_event ?n ?e s] =>
    pose proof (append_event_task n e s) as Ht; destruct (append_event n e s) as [s1 [[ev id]|err]] end;
    simpl in Ht; [|done].
  destruct mark as [mark|]; [|done].
  pose proof (record_effect_task now run_id mark None s1) as He.
  destruct (record_effect now run_id mark None s1) as [s2 [u|err]]; simpl in *; by rw He.
Qed.

Lemma report_step_ok now run_id e s r :
  coherent (ext_cache r) s → ext_unique s →
  step_agrees (apply_event now run_id e s) (report_step now run_id e s r).
Proof using Type.
  intros Hc Hu. destruct e as [| |n logs|n name payload task mark|n ext task kind key data mark];
    cbn [report_step]; [by apply report_created_ok|by apply report_transition_ok|..].
  - rw /step_agrees /report_logs /append_logs_with_map /=.
    pose proof (append_logs_ok logs (ext_cache r) s Hc Hu) as Hl.
    destruct (append_logs_loop logs (ext_cache r) s) as [[s1 c1] [u|err]];
      destruct Hl as (-> & Hc1 & Ht); simpl;
      (split_and!; [done|done|by apply (same_exts_ok s); [apply same_exts_task|]]).
  - destruct (report_custom_ok now run_id name payload task mark s r) as (Ha & Hc1 & Ht).
    split_and!; [exact Ha| |].
    + rw Hc1. by apply (coherent_same _ s); [apply same_exts_task|..].
    + by apply (same_exts_ok s); [apply same_exts_task|].
  - rw /step_agrees /report_artifact /=.
    assert (Hl : ∃ c', match task with Some e => cached_id e (ext_cache r) s | None => (ext_cache r, None) end
                       = (c', and_then task (λ e, task_run_id_by_external e s)) ∧ coherent c' s).
    { destruct task as [e|]; [|by eexists]. destruct (cached_id_ok e (ext_cache r) s Hc) as [H1 H2].
      destruct (cached_id e (ext_cache r) s) as [c' v]. simpl in *. subst v. by eexists. }
    destruct Hl as (c' & -> & Hc').
    match goal with |- context [upsert_artifact ?n ?a s] =>
      pose proof (upsert_artifact_task n a s) as Ht; destruct (upsert_artifact n a s) as [s1 [id|err]] end;
      simpl in *; (split_and!; [done|by apply (coherent_same _ s); [apply same_exts_task|..]|
        by apply (same_exts_ok s); [apply same_exts_task|]]).
Qed.

Lemma report_loop_ok now run_id events last s r :
  coherent (ext_cache r) s → ext_unique s →
  let x := report_loop now run_id events last s r in
  apply_events now run_id events last s = (x.1, match x.2 with Ok (n, _) => Ok n | Err e => Err e end) ∧
  ext_unique x.1.
Proof using Type.
  revert last s r; induction events as [|e events IH]; intros last s r Hc Hu; simpl; [done|].
  destruct (seq e <=? last); [by apply IH|].
  pose proof (report_step_ok now run_id e s r Hc Hu) as Hs.
  destruct (report_step now run_id e s r) as [[s1 r1] res]. destruct Hs as (-> & Hc1 & Hu1); simpl in *.
  destruct res as [[]|err]; [by apply IH|by apply IH|].
  destruct (is_event_rejection err); [by apply IH|done].
Qed.
End reference.

(** ** The stored sequence number is read by the report alone *)

Section sequence.
Context `{StoreEnv} (rid n : Z).
Abbreviation W := (write_seq rid n).

Lemma run_seq_fmap {A} (f : RunRow → A) s k :
  (∀ r, f (run_with_seq n r) = f r) → f <$> run (W s) !! k = f <$> run s !! k.
Proof using Type.
  intros Hf. rw /write_seq /= lookup_alter. destruct (decide (rid = k)) as [<-|]; [|done].
  destruct (run s !! rid) as [r|]; [|done]. simpl. by rw Hf.
Qed.

Lemma has_run_seq s k : bool_decide (is_Some (run (W s) !! k)) = bool_decide (is_Some (run s !! k)).
Proof using Type.
  apply bool_decide_ext. rw /write_seq /= lookup_alter. destruct (decide (rid = k)) as [<-|]; [|done].
  by rw fmap_is_Some.
Qed.

(** A command commutes with the update of the number. *)
Definition commutes {A} (f : Store → Store * A) : Prop :=
  ∀ s, f (W s) = (W (f s).1, (f s).2).

Lemma transition_seq id st force : commutes (transition TableTaskRun id st force).
Proof using Type.
  intros s. rw /transition. change (read_state TableTaskRun id (W s)) with (read_state TableTaskRun id s).
  destruct (read_state TableTaskRun id s) as [[c m]|]; [|done].
  destruct (resolved _ _) as [accepted|]; [|done]. simpl. f_equal.
  rw /append_history /write_checkpoint /=. by destruct (checkpoint_of accepted) as [[ref hash]|].
Qed.

Lemma insert_log_seq row : commutes (insert_log row).
Proof using Type. intros s. rw /insert_log has_run_seq. by destruct (negb _). Qed.

Lemma apply_logs_seq logs : commutes (apply_logs logs).
Proof using Type.
  induction logs as [|l logs IH]; intros s; [done|]. cbn [apply_logs].
  change (task_of_log l (W s)) with (task_of_log l s). rw insert_log_seq. destruct (insert_log _ s) as [s1 [u|e]]; [apply IH|done].
Qed.

Lemma create_task_run_seq now c : commutes (create_task_run now c).
Proof using Type.
  intros s. rw /create_task_run /new_id.
  assert (Hi : ∀ row, commutes (insert_task_run row)).
  { intros row s'. rw /insert_task_run.
    change (task_run_id_by_external (t_external_id row) (W s')) with
      (task_run_id_by_external (t_external_id row) s').
    destruct (task_run_id_by_external _ s'); [done|]. rw has_run_seq. cbn [task_run write_seq set_run].
    destruct (existsb _ _); [done|]. by destruct (negb _). }
  assert (Hm : ∀ row s', match insert_task_run row (W s') with
    | (s0, Ok id) => (if ct_once c && negb (id =? 0) then mark_once id s0 else s0, Ok (id, t_external_id row))
    | (s0, Err e) => (s0, Err e) end =
    let x := match insert_task_run row s' with
    | (s0, Ok id) => (if ct_once c && negb (id =? 0) then mark_once id s0 else s0, Ok (id, t_external_id row))
    | (s0, Err e) => (s0, Err e) end in (W x.1, x.2)).
  { intros row s'. rw Hi. destruct (insert_task_run row s') as [s0 [id|e]]; [|done]. simpl.
    destruct (ct_once c && negb (id =? 0)); [|done]. rw /mark_once /=. by case_bool_decide. }
  destruct (ct_external_id c) as [e|]; [apply (Hm (task_row now e c) s)|].
  apply (Hm (task_row now (nth_id (drawn s)) c) (set_drawn (drawn s + 1) s)).
Qed.

Lemma append_event_seq now e : commutes (append_event now e).
Proof using Type.
  intros s. rw /append_event /new_id.
  change (set_drawn (drawn (W s) + 1) (W s)) with (W (set_drawn (drawn s + 1) s)).
  change (drawn (W s)) with (drawn s). set (s0 := set_drawn (drawn s + 1) s).
  assert (Hi : ∀ row, commutes (insert_event row)) by (intros row s'; rw /insert_event /=; by case_match).
  destruct (ne_flow_id e), (ne_run_id e); rw ?(run_seq_fmap r_flow_id s0) // Hi;
    by destruct (insert_event _ s0) as [s1 [id|err]].
Qed.

Lemma record_effect_seq now run_id mark ref : commutes (record_effect now run_id mark ref).
Proof using Type.
  intros s. rw /record_effect has_run_seq. cbn [effect write_seq set_run].
  destruct (existsb _ _); [done|]. by destruct (negb _).
Qed.

Lemma upsert_artifact_seq now a : commutes (upsert_artifact now a).
Proof using Type.
  intros s. rw /upsert_artifact.
  assert (Hr : commutes (upsert_artifact_row now a)).
  { intros s'. rw /upsert_artifact_row. change (keyed_artifact a (W s')) with (keyed_artifact a s').
    destruct (keyed_artifact a s'); [done|]. rw /new_id. destruct (ua_external_id a); cbn [artifact write_seq set_run set_drawn].
    all: destruct (List.find _ _) as [[id row]|]; [done|].
    - rw has_run_seq. by destruct (negb _).
    - change (set_drawn (drawn (W s') + 1) (W s')) with (W (set_drawn (drawn s' + 1) s')).
      rw has_run_seq. by destruct (negb _). }
  rw Hr. destruct (upsert_artifact_row now a s) as [s1 [id|e]]; [|done]. simpl.
  destruct (ua_effect a) as [mark|]; [|done]. rw record_effect_seq.
  by destruct (record_effect _ _ _ _ s1) as [s2 [u|e]].
Qed.

Lemma run_resource_seq run_id s : run_resource run_id (W s) = run_resource run_id s.
Proof using Type.
  pose proof (run_seq_fmap (λ r, (r_external_id r, r_name r, r_flow_id r)) s run_id (λ r, eq_refl)) as Hr.
  rw /run_resource. destruct (run (W s) !! run_id), (run s !! run_id); simplify_eq/=; congruence.
Qed.
Lemma run_related_seq run_id s : run_related run_id (W s) = run_related run_id s.
Proof using Type.
  pose proof (run_seq_fmap (λ r, (r_flow_id r, r_tags r)) s run_id (λ r, eq_refl)) as Hr.
  rw /run_related. destruct (run (W s) !! run_id) as [a|], (run s !! run_id) as [b|]; try done.
  injection Hr as Hf Ht. by rw Hf Ht.
Qed.

Lemma apply_event_seq now run_id e : commutes (apply_event now run_id e).
Proof using Type.
  intros s. destruct e as [m ext name tk dk parents pass once|m ext st force|m logs
    |m name payload task mark|m ext task kind key data mark]; cbn [apply_event].
  - rw create_task_run_seq. by destruct (create_task_run now _ s).
  - change (task_run_id_by_external ext (W s)) with (task_run_id_by_external ext s).
    destruct (task_run_id_by_external ext s) as [id|]; [|done]. rw transition_seq.
    by destruct (transition TableTaskRun id st force s) as [s1 [|[]]].
  - rw apply_logs_seq. by destruct (apply_logs logs s).
  - rw /report_custom run_resource_seq run_related_seq. destruct (run_resource run_id s) as [res row].
    rw append_event_seq. destruct (append_event now _ s) as [s1 [[ev id]|err]]; [|done]. simpl.
    destruct mark as [mark|]; [|done]. rw record_effect_seq.
    by destruct (record_effect now run_id mark None s1) as [s2 [u|err]].
  - assert (Ht : and_then task (λ e, task_run_id_by_external e (W s)) =
                 and_then task (λ e, task_run_id_by_external e s)) by done.
    rw Ht upsert_artifact_seq. by destruct (upsert_artifact now _ s).
Qed.

Lemma apply_events_seq now run_id events last : commutes (apply_events now run_id events last).
Proof using Type.
  revert last; induction events as [|e events IH]; intros last s; [done|]. cbn [apply_events].
  destruct (seq e <=? last); [apply IH|]. rw apply_event_seq.
  destruct (apply_event now run_id e s) as [s1 [b|err]]; [apply IH|]. simpl.
  destruct (is_event_rejection err); [apply IH|done].
Qed.
End sequence.

(** ** Sequences of events *)

Section delivery.
Context `{StoreEnv}.

Lemma apply_events_app now run_id a b last s :
  apply_events now run_id (a ++ b) last s =
  match apply_events now run_id a last s with
  | (s, Ok last) => apply_events now run_id b last s
  | (s, Err e) => (s, Err e)
  end.
Proof using Type.
  revert last s; induction a as [|e a IH]; intros last s; [done|]. cbn [apply_events app].
  destruct (seq e <=? last); [apply IH|].
  destruct (apply_event now run_id e s) as [s1 [x|err]]; [apply IH|].
  destruct (is_event_rejection err); [apply IH|done].
Qed.

(** The last number only grows, to at least that of every event. *)
Lemma apply_events_last now run_id events last s s' last' :
  apply_events now run_id events last s = (s', Ok last') →
  last ≤ last' ∧ Forall (λ e, seq e ≤ last') events.
Proof using Type.
  revert last s; induction events as [|e events IH]; intros last s; cbn [apply_events].
  { intros [= _ <-]. split; [lia|constructor]. }
  assert (Hrec : ∀ l s0, l = seq e ∨ (l = last ∧ seq e ≤ last) → last ≤ l →
    apply_events now run_id events l s0 = (s', Ok last') →
    last ≤ last' ∧ Forall (λ e, seq e ≤ last') (e :: events)).
  { intros l s0 Hl Hle Hr. destruct (IH _ _ Hr). split; [lia|]. constructor; [lia|done]. }
  destruct (Z.leb_spec (seq e) last); [apply Hrec; lia|].
  destruct (apply_event now run_id e s) as [s1 [x|err]]; [apply Hrec; lia|].
  destruct (is_event_rejection err); [apply Hrec; lia|done].
Qed.

Lemma apply_events_skip now run_id events last s :
  Forall (λ e, seq e ≤ last) events → apply_events now run_id events last s = (s, Ok last).
Proof using Type.
  induction 1 as [|e events He _ IH]; [done|]. cbn [apply_events].
  by rw (proj2 (Z.leb_le _ _) He).
Qed.

(** No event writes the run table. *)
Lemma apply_event_run now run_id e s : run (apply_event now run_id e s).1 = run s.
Proof using Type.
  destruct e as [m ext name tk dk parents pass once|m ext st force|m logs
    |m name payload task mark|m ext task kind key data mark]; cbn [apply_event].
  - rw /create_task_run /insert_task_run /mark_once /=. by repeat case_match; simplify_eq/=.
  - destruct (task_run_id_by_external ext s) as [id|]; [|done].
    rw /transition. destruct (read_state TableTaskRun id s) as [[c k]|]; [|done].
    destruct (resolved _ _) as [accepted|]; [|done]. rw /append_history /write_checkpoint /=.
    by destruct (checkpoint_of accepted) as [[]|].
  - assert (Hl : run (apply_logs logs s).1 = run s); [|by destruct (apply_logs logs s)].
    revert s. induction logs as [|l logs IH]; intros s; [done|]. cbn [apply_logs].
    rw /insert_log. destruct (negb _); [done|]. by rw IH.
  - rw /report_custom /append_event /insert_event /record_effect /=.
    destruct (run_resource run_id s). by repeat case_match; simplify_eq/=.
  - rw /upsert_artifact /upsert_artifact_row /record_effect /=. by repeat case_match; simplify_eq/=.
Qed.

Lemma apply_events_run now run_id events last s : run (apply_events now run_id events last s).1 = run s.
Proof using Type.
  revert last s; induction events as [|e events IH]; intros last s; [done|]. cbn [apply_events].
  destruct (seq e <=? last); [apply IH|]. pose proof (apply_event_run now run_id e s) as Hr.
  destruct (apply_event now run_id e s) as [s1 [x|err]]; simpl in Hr; [by rw IH|].
  destruct (is_event_rejection err); [by rw IH|done].
Qed.

(** The answer's sequence number is set at the end only. *)
Lemma touch_seq ext r : out_last_seq (out (touch ext r)) = out_last_seq (out r).
Proof using Type. rw /touch. by case_match. Qed.
Lemma remember_before_seq ext s r : out_last_seq (out (remember_before ext s r)) = out_last_seq (out r).
Proof using Type. rw /remember_before. by case_match. Qed.

Lemma report_step_last now run_id e s r :
  out_last_seq (out (report_step now run_id e s r).1.2) = out_last_seq (out r).
Proof using Type.
  destruct e as [m ext name tk dk parents pass once|m ext st force|m logs
    |m name payload task mark|m ext task kind key data mark]; cbn [report_step].
  - rw /report_created. destruct (create_task_run now _ s) as [s1 [[]|]]; simpl;
      by rw ?touch_seq /= remember_before_seq.
  - rw /report_transition. set (r0 := remember_before ext s r).
    assert (Hr : out_last_seq (out (transition_row ext s r0).1) = out_last_seq (out r)).
    { rw /transition_row -(remember_before_seq ext s r). by repeat case_match. }
    destruct (transition_row ext s r0) as [r1 [row|]]; [|done]. simpl in Hr.
    destruct (transition TableTaskRun row st force s) as [s1 [x|[]]]; simpl; by rw ?touch_seq.
  - rw /report_logs. destruct (append_logs_with_map logs (ext_cache r) s) as [[s1 c] [k|]]; done.
  - rw /report_custom. destruct (run_resource run_id s). by repeat case_match; simplify_eq/=.
  - rw /report_artifact. by repeat case_match; simplify_eq/=.
Qed.

Lemma report_loop_last now run_id events last s r s' last' r' :
  report_loop now run_id events last s r = (s', Ok (last', r')) →
  out_last_seq (out r') = out_last_seq (out r).
Proof using Type.
  revert last s r; induction events as [|e events IH]; intros last s r; simpl; [by intros [= _ _ <-]|].
  destruct (seq e <=? last); [intros Hl; by rw (IH _ _ _ Hl)|].
  pose proof (report_step_last now run_id e s r) as Hs.
  destruct (report_step now run_id e s r) as [[s1 r1] [[]|err]]; simpl in Hs.
  - intros Hl. by rw (IH _ _ _ Hl).
  - intros Hl. by rw (IH _ _ _ Hl).
  - destruct (is_event_rejection err); [|done]. intros Hl. by rw (IH _ _ _ Hl).
Qed.

Lemma collect_touched_last s r l o : out_last_seq (fold_left (collect_touched s r) l o) = out_last_seq o.
Proof using Type.
  revert o; induction l as [|ext l IH]; intros o; simpl; [done|]. rw IH /collect_touched.
  by repeat case_match.
Qed.

Lemma write_seq_id rid s row :
  run s !! rid = Some row → write_seq rid (r_report_seq row) s = s.
Proof using Type.
  intros Hr. rw /write_seq. rw alter_id; [by destruct s|]. intros r. rw Hr. intros [= <-]. by destruct row.
Qed.

Lemma write_seq_twice rid a b s : write_seq rid b (write_seq rid a s) = write_seq rid b s.
Proof using Type.
  rw /write_seq /set_run /=. f_equal. apply map_eq. intros k. rw !lookup_alter.
  destruct (decide (rid = k)) as [<-|]; [|done]. rw decide_True //. by destruct (run s !! rid).
Qed.

(** The tables after a report: those of its events past the stored number, and
    the number of the last one. *)
Lemma apply_report_tables now rid events s row :
  run s !! rid = Some row → ext_unique s →
  match apply_events now rid events (r_report_seq row) s with
  | (s', Ok last) => ∃ o, apply_report now rid events s = (write_seq rid last s', Ok o) ∧ out_last_seq o = last
  | (s', Err e) => apply_report now rid events s = (s', Err e)
  end.
Proof using Type.
  intros Hr Hu. rw /apply_report Hr. set (r0 := mkReport _ _ _ _).
  destruct (report_loop_ok now rid events (r_report_seq row) s r0) as [Ha _]; [done|done|].
  pose proof (apply_events_run now rid events (r_report_seq row) s) as Hrun.
  destruct (report_loop now rid events (r_report_seq row) s r0) as [s1 [[last r]|e]] eqn:El;
    simpl in Ha; rw Ha in Hrun |- *; [|done].
  apply report_loop_last in El. simpl in El, Hrun. rw El.
  destruct (Z.eqb_spec last (r_report_seq row)) as [->|Hne].
  - eexists. split; [rw (write_seq_id rid s1 row); [done|by rw Hrun]|]. by rw collect_touched_last El.
  - eexists. split; [done|]. by rw collect_touched_last.
Qed.
End delivery.

(** ** Histories *)

Section histories.
Context `{StoreEnv}.

Definition history (l : rows (Z * StateCols)) (id : Z) : list StateCols :=
  (λ x, x.2.2) <$> filter (λ x, x.2.1 = id) l.

(** The columns, counters and history of a row are those of the states some
    proposals get recorded under the transition rules. *)
Definition legal (cols : StateCols) (counters : RunCounters) (h : list StateCols) : Prop :=
  ∃ ps, h = cols_of <$> recorded None ps ∧
    cols = match last (recorded None ps) with Some st => cols_of st | None => no_state end ∧
    counters = counters_of (recorded None ps).

Lemma steps_last cur ps :
  steps cur ps = match last (recorded cur ps) with Some st => Some st | None => cur end.
Proof using Type.
  revert cur; induction ps as [|p ps IH]; intros cur; [done|]. rw /steps /= /step1 -/(steps _ _) IH.
  destruct (resolved _ _) as [st|e]; [|done]. rw last_cons. by destruct (last _).
Qed.

Lemma recorded_snoc cur ps p :
  recorded cur (ps ++ [p]) =
  recorded cur ps ++
  match resolved (propose (steps cur ps) p policy0) (prop_state p) with Ok st => [st] | Err _ => [] end.
Proof using Type.
  revert cur; induction ps as [|q ps IH]; intros cur; simpl; [by case_match|].
  rw /steps /= /step1 -/(steps _ _). destruct (resolved (propose cur q policy0) _); by rw IH.
Qed.

(** The rules see through the columns: they read no details. *)
Lemma propose_columns cur p :
  propose (state_from_columns match cur with Some st => cols_of st | None => no_state end) p policy0 =
  propose cur p policy0.
Proof using Type.
  destruct cur as [st|]; [|done]. by rw /state_from_columns /= StateType_parse_as_str.
Qed.

Lemma counters_range h : let c := counters_of h in
  0 ≤ failure_count c < two32 ∧ 0 ≤ crash_count c < two32.
Proof using Type.
  rw /counters_of. induction h as [|st h IH] using rev_ind; [done|]. rw fold_left_app /=.
  assert (Hw : ∀ z, 0 ≤ wrap_u32 z < two32) by (intros z; apply Z.mod_pos_bound; done).
  rw /apply. by repeat case_match; simpl; split; try apply Hw; try apply IH.
Qed.

Lemma read_counters_of h : read_counters (counters_of h) = counters_of h.
Proof using Type.
  pose proof (counters_range h) as [H1 H2]. destruct (counters_of h) as [f c st en tot]. simpl in *.
  by rw /read_counters /= /wrap_u32 !Z.mod_small.
Qed.

Lemma legal_accept cols counters h p accepted :
  legal cols counters h →
  resolved (propose (state_from_columns cols) p policy0) (prop_state p) = Ok accepted →
  legal (cols_of accepted) (apply (read_counters counters) accepted) (h ++ [cols_of accepted]).
Proof using Type.
  intros (ps & -> & -> & ->). rw propose_columns => Hr. exists (ps ++ [p]).
  assert (Hs : recorded None (ps ++ [p]) = recorded None ps ++ [accepted]).
  { rw recorded_snoc steps_last. by destruct (last (recorded None ps)); rw Hr. }
  by rw Hs fmap_app last_snoc read_counters_of /counters_of fold_left_app.
Qed.

Lemma legal_new : legal no_state RunCounters_default [].
Proof using Type. by exists []. Qed.

Record store_ok (s : Store) : Prop := {
  so_run id r : run s !! id = Some r → legal (r_cols r) (r_counters r) (history (run_state s) id);
  so_task id t :
    task_run s !! id = Some t → legal (t_cols t) (t_counters t) (history (task_run_state s) id);
  so_run_dom x : x ∈ run_state s → is_Some (run s !! x.2.1);
  so_task_dom x : x ∈ task_run_state s → is_Some (task_run s !! x.2.1);
  so_fire i j a b :
    run s !! i = Some a → run s !! j = Some b → same_fire a b = true → i = j;
  so_ext : ext_unique s;
}.

Lemma store_ok_frame s s' :
  run s' = run s → run_state s' = run_state s → task_run s' = task_run s →
  task_run_state s' = task_run_state s → store_ok s → store_ok s'.
Proof using Type.
  intros Hr Hrs Ht Hts [H1 H2 H3 H4 H5 H6]. split; rw /ext_unique ?Hr ?Hrs ?Ht ?Hts //.
Qed.

Lemma history_snoc l n fk c id :
  history (l ++ [(n, (fk, c))]) id = history l id ++ (if decide (fk = id) then [c] else []).
Proof using Type. rw /history filter_app fmap_app filter_cons filter_nil /=. by case_decide. Qed.

Lemma history_none l id : (∀ x, x ∈ l → x.2.1 ≠ id) → history l id = [].
Proof using Type.
  intros Hl. rw /history filter_none //. by apply Forall_forall.
Qed.

Lemma store_ok_transition_run id st force s :
  store_ok s → store_ok (transition TableRun id st force s).1.
Proof using Type.
  intros Hs. rw /transition /=. destruct (run s !! id) as [row|] eqn:Er; [|done]. simpl.
  destruct (resolved _ _) as [accepted|] eqn:Ea; [|done].
  pose proof (legal_accept _ _ _ _ _ (so_run _ Hs _ _ Er) Ea) as Hl.
  destruct Hs as [H1 H2 H3 H4 H5 H6]. rw /append_history /=. split; simpl; try done.
  - intros k r. rw history_snoc lookup_alter. destruct (decide (id = k)) as [<-|].
    + rw Er. intros [= <-]. exact Hl.
    + rw app_nil_r. apply H1.
  - intros x Hx. rw lookup_alter_is_Some. apply elem_of_app in Hx as [Hx|Hx%list_elem_of_singleton];
      [by apply H3|]. subst x. by rw Er.
  - intros i j a b. rw !lookup_alter. intros Ha Hb Hab.
    assert (Hrow : ∀ k r, (if decide (id = k) then run_with_state (cols_of accepted)
        (apply (read_counters (r_counters row)) accepted) <$> run s !! id else run s !! k) = Some r →
      ∃ r0, run s !! k = Some r0 ∧ r_schedule_id r0 = r_schedule_id r ∧
            r_scheduled_time r0 = r_scheduled_time r).
    { intros k r. destruct (decide (id = k)) as [<-|]; [|by eauto]. rw Er. intros [= <-]. by eexists. }
    apply Hrow in Ha as (a0 & Ha & Ea1 & Ea2). apply Hrow in Hb as (b0 & Hb & Eb1 & Eb2).
    apply (H5 i j a0 b0); [done|done|]. by rw /same_fire Ea1 Ea2 Eb1 Eb2.
Qed.

Lemma store_ok_transition_task id st force s :
  store_ok s → store_ok (transition TableTaskRun id st force s).1.
Proof using Type.
  intros Hs. pose proof (transition_exts TableTaskRun id st force s) as Hx.
  pose proof (proj1 (same_exts_ok _ _ Hx (so_ext _ Hs))) as Hext. revert Hext.
  rw /transition. cbn [read_state]. destruct (task_run s !! id) as [row|] eqn:Er; [|done].
  cbn -[write_checkpoint append_history write_state].
  destruct (resolved _ _) as [accepted|] eqn:Ea; [|done].
  pose proof (legal_accept _ _ _ _ _ (so_task _ Hs _ _ Er) Ea) as Hl.
  set (s1 := write_checkpoint _ _ _ _). intros Hext.
  assert (Ht : ∀ k t, task_run s1 !! k = Some t →
    if decide (id = k) then t_cols t = cols_of accepted ∧
                            t_counters t = apply (read_counters (t_counters row)) accepted
    else task_run s !! k = Some t).
  { intros k t. rw /s1 /write_checkpoint. destruct (checkpoint_of accepted) as [[ref hash]|]; simpl;
      rw !lookup_alter; destruct (decide (id = k)) as [<-|]; try done; rw ?decide_True // Er;
      by intros [= <-]. }
  assert (Hdom : ∀ k, is_Some (task_run s !! k) → is_Some (task_run s1 !! k)).
  { intros k Hk. rw /s1 /write_checkpoint. destruct (checkpoint_of accepted) as [[ref hash]|]; simpl;
      rw !lookup_alter_is_Some //. }
  assert (Hf : run s1 = run s ∧ run_state s1 = run_state s ∧ task_run_state s1 = task_run_state s).
  { rw /s1 /write_checkpoint. by destruct (checkpoint_of accepted) as [[ref hash]|]. }
  destruct Hf as (Hr & Hrs & Hts). destruct Hs as [H1 H2 H3 H4 H5 H6].
  rw /append_history in Hext |- *. split; simpl; rw ?Hr ?Hrs ?Hts; try done.
  - intros k t Hk%Ht. rw history_snoc. destruct (decide (id = k)) as [<-|].
    + destruct Hk as [-> ->]. exact Hl.
    + rw app_nil_r. by apply H2.
  - intros x Hx'. apply Hdom. apply elem_of_app in Hx' as [Hx'|Hx'%list_elem_of_singleton];
      [by apply H4|]. subst x. by rw Er.
Qed.

Lemma store_ok_insert_run row s :
  r_cols row = no_state → r_counters row = RunCounters_default →
  store_ok s → store_ok (insert_run row s).1.
Proof using Type.
  intros Hc Hn Hs. rw /insert_run. destruct (existsb _ _); [done|].
  destruct (existsb (same_fire row) _) eqn:Ef; [done|]. destruct (negb _); [done|]. simpl.
  set (id := next_id (run s)). assert (Hfresh : run s !! id = None) by apply next_id_fresh.
  assert (Hnew : ∀ j b, run s !! j = Some b → same_fire row b = false).
  { intros j b Hb. destruct (same_fire row b) eqn:E; [|done].
    rw (proj2 (existsb_exists (same_fire row) (map_to_list (run s)).*2)) // in Ef.
    exists b. split; [|done]. apply list_elem_of_In, list_elem_of_fmap. exists (j, b). split; [done|].
    by apply elem_of_map_to_list. }
  assert (Hsym : ∀ a b, same_fire a b = true → same_fire b a = true).
  { intros a b. rw /same_fire. repeat case_match; rw ?andb_true_iff ?bool_decide_eq_true; naive_solver. }
  destruct Hs as [H1 H2 H3 H4 H5 H6]. split; simpl; try done.
  - intros k r. rw lookup_insert. destruct (decide (id = k)) as [<-|]; [|by apply H1].
    intros [= <-]. rw Hc Hn history_none; [apply legal_new|]. intros x Hx <-.
    apply H3 in Hx. rw Hfresh in Hx. by destruct Hx.
  - intros x Hx. apply H3 in Hx. by rw lookup_insert_is_Some; destruct (decide (id = x.2.1)); [left|right].
  - intros i j a b. rw !lookup_insert.
    destruct (decide (id = i)) as [<-|], (decide (id = j)) as [<-|]; [done| | |by apply H5].
    + intros [= <-] Hb Hf. by rw (Hnew _ _ Hb) in Hf.
    + intros Ha [= <-] Hf%Hsym. by rw (Hnew _ _ Ha) in Hf.
Qed.

Lemma store_ok_create_run now c s : store_ok s → store_ok (create_run now c s).1.
Proof using Type.
  intros Hs. rw /create_run /new_id. destruct (and_then _ _); [done|].
  set (row := run_row _ _ _). set (s0 := set_drawn _ _).
  pose proof (store_ok_insert_run row s0 eq_refl eq_refl (store_ok_frame s s0 eq_refl eq_refl eq_refl eq_refl Hs)) as H1.
  destruct (insert_run row s0) as [s1 [id|e]]; [|done]. simpl in H1.
  destruct (cr_initial_state c) as [st|]; [|done].
  pose proof (store_ok_transition_run id st false s1 H1) as H2.
  by destruct (transition TableRun id st false s1) as [s2 [x|e]].
Qed.

Lemma store_ok_insert_task_run row s :
  t_cols row = no_state → t_counters row = RunCounters_default →
  store_ok s → store_ok (insert_task_run row s).1.
Proof using Type.
  intros Hc Hn Hs. rw /insert_task_run.
  destruct (task_run_id_by_external (t_external_id row) s) as [id|] eqn:Ef; [done|].
  destruct (existsb _ _); [done|]. destruct (negb _); [done|]. simpl.
  set (id := next_id (task_run s)). assert (Hfresh : task_run s !! id = None) by apply next_id_fresh.
  rw id_by_external_eq fmap_None find_task_run_None in Ef.
  destruct Hs as [H1 H2 H3 H4 H5 H6]. split; simpl; try done.
  - intros k t. rw lookup_insert. destruct (decide (id = k)) as [<-|]; [|by apply H2].
    intros [= <-]. rw Hc Hn history_none; [apply legal_new|]. intros x Hx <-.
    apply H4 in Hx. rw Hfresh in Hx. by destruct Hx.
  - intros x Hx. apply H4 in Hx. by rw lookup_insert_is_Some; destruct (decide (id = x.2.1)); [left|right].
  - intros i j a b. simpl. rw !lookup_insert. intros Ha Hb Hab.
    destruct (decide (id = i)) as [<-|], (decide (id = j)) as [<-|]; [done| | |by eapply H6].
    + injection Ha as <-. by apply Ef in Hb.
    + injection Hb as <-. by apply Ef in Ha.
Qed.

Lemma store_ok_create_task_run now c s : store_ok s → store_ok (create_task_run now c s).1.
Proof using Type.
  intros Hs. rw /create_task_run. set (x := match ct_external_id c with Some e => _ | None => _ end).
  assert (Hx : store_ok x.1)
    by (rw /x /new_id; destruct (ct_external_id c); [done|by apply (store_ok_frame s)]).
  destruct x as [s0 ext]. simpl in Hx.
  pose proof (store_ok_insert_task_run (task_row now ext c) s0 eq_refl eq_refl Hx) as H1.
  destruct (insert_task_run _ s0) as [s1 [id|e]]; [|done]. simpl in *.
  destruct (ct_once c && negb (id =? 0)); [|done]. rw /mark_once.
  case_bool_decide; [done|by apply (store_ok_frame s1)].
Qed.

(** Logs, events, effects and artifacts keep the four tables. *)
Definition keeps (s s' : Store) : Prop :=
  run s' = run s ∧ run_state s' = run_state s ∧ task_run s' = task_run s ∧
  task_run_state s' = task_run_state s.

Lemma keeps_ok s s' : keeps s s' → store_ok s → store_ok s'.
Proof using Type. intros (H1 & H2 & H3 & H4). by apply store_ok_frame. Qed.

Lemma keeps_logs logs c s : keeps s (append_logs_loop logs c s).1.1.
Proof using Type.
  revert c s; induction logs as [|l logs IH]; intros c s; simpl; [done|].
  destruct (log_task_run_id l c s) as [c1 task]. rw /insert_log. destruct (negb _); [done|].
  match goal with |- keeps s (append_logs_loop logs c1 ?s').1.1 => apply (IH c1 s') end.
Qed.
Lemma keeps_event now e s : keeps s (append_event now e s).1.
Proof using Type. rw /append_event /insert_event /new_id /keeps /=. by destruct (existsb _ _). Qed.
Lemma keeps_effect now run_id mark ref s : keeps s (record_effect now run_id mark ref s).1.
Proof using Type. rw /record_effect. by repeat case_match. Qed.
Lemma keeps_artifact now a s : keeps s (upsert_artifact now a s).1.
Proof using Type.
  rw /upsert_artifact.
  assert (Hr : keeps s (upsert_artifact_row now a s).1).
  { rw /upsert_artifact_row /new_id. destruct (keyed_artifact a s); [done|].
    destruct (ua_external_id a); repeat case_match; simplify_eq/=; done. }
  destruct (upsert_artifact_row now a s) as [s1 [id|]]; [|done]. simpl in Hr.
  destruct (ua_effect a) as [mark|]; [|done].
  match goal with |- context [record_effect ?n ?r ?m ?f s1] =>
    pose proof (keeps_effect n r m f s1) as He; destruct (record_effect n r m f s1) as [s2 [u|]]
  end; simpl in *; destruct Hr as (?&?&?&?), He as (?&?&?&?); split_and!; congruence.
Qed.

(** A property every part of a report keeps is kept by the report. *)
Section report_keeps.
Context (P : Store → Prop) (now run_id : Z).
Hypothesis P_task_run : ∀ c s, P s → P (create_task_run now c s).1.
Hypothesis P_transition : ∀ id st force s, P s → P (transition TableTaskRun id st force s).1.
Hypothesis P_logs : ∀ logs c s, P s → P (append_logs_loop logs c s).1.1.
Hypothesis P_event : ∀ e s, P s → P (append_event now e s).1.
Hypothesis P_effect : ∀ id mark ref s, P s → P (record_effect now id mark ref s).1.
Hypothesis P_artifact : ∀ a s, P s → P (upsert_artifact now a s).1.
Hypothesis P_seq : ∀ n s, P s → P (write_seq run_id n s).

Lemma report_step_keeps e s r : P s → P (report_step now run_id e s r).1.1.
Proof using P_task_run P_transition P_logs P_event P_effect P_artifact.
  intros Hs. destruct e as [m ext name tk dk parents pass once|m ext st force|m logs
    |m name payload task mark|m ext task kind key data mark]; cbn [report_step].
  - rw /report_created. match goal with |- context [create_task_run now ?c s] =>
      pose proof (P_task_run c s Hs) as H1;
      by destruct (create_task_run now c s) as [s1 [[]|]] end.
  - rw /report_transition. destruct (transition_row _ _ _) as [r1 [row|]]; [|done].
    pose proof (P_transition row st force s Hs) as H1.
    by destruct (transition TableTaskRun row st force s) as [s1 [x|[]]].
  - rw /report_logs /append_logs_with_map. pose proof (P_logs logs (ext_cache r) s Hs) as Hk.
    by destruct (append_logs_loop logs (ext_cache r) s) as [[s1 c] [u|e]].
  - rw /report_custom. destruct (run_resource run_id s) as [res row].
    match goal with |- context [append_event now ?e s] =>
      pose proof (P_event e s Hs) as H1;
      destruct (append_event now e s) as [s1 [[]|]]; [|done] end. simpl in H1.
    destruct mark as [mark|]; [|done].
    pose proof (P_effect run_id mark None s1 H1) as H2.
    by destruct (record_effect now run_id mark None s1) as [s2 [u|]].
  - rw /report_artifact. destruct (match task with Some e => _ | None => _ end) as [c v].
    match goal with |- context [upsert_artifact now ?a s] =>
      pose proof (P_artifact a s Hs) as H1;
      by destruct (upsert_artifact now a s) as [s1 []] end.
Qed.

Lemma report_loop_keeps events last s r : P s → P (report_loop now run_id events last s r).1.
Proof using P_task_run P_transition P_logs P_event P_effect P_artifact.
  revert last s r; induction events as [|e events IH]; intros last s r Hs; simpl; [done|].
  destruct (seq e <=? last); [by apply IH|].
  pose proof (report_step_keeps e s r Hs) as H1.
  destruct (report_step now run_id e s r) as [[s1 r1] [[]|err]]; [by apply IH|by apply IH|].
  destruct (is_event_rejection err); [by apply IH|done].
Qed.

Lemma report_keeps events s : P s → P (apply_report now run_id events s).1.
Proof using All.
  intros Hs. rw /apply_report. destruct (run s !! run_id) as [row|]; [|done].
  match goal with |- context [report_loop now run_id events ?l s ?r] =>
    pose proof (report_loop_keeps events l s r Hs) as H1;
    destruct (report_loop now run_id events l s r) as [s1 [[last r1]|e]]; [|done] end. simpl in H1.
  destruct (last =? _); [done|]. by apply P_seq.
Qed.
End report_keeps.

Lemma store_ok_write_seq rid n s : store_ok s → store_ok (write_seq rid n s).
Proof using Type.
  intros [H1 H2 H3 H4 H5 H6].
  assert (Hrow : ∀ k r, run (write_seq rid n s) !! k = Some r →
    ∃ r0, run s !! k = Some r0 ∧ r_cols r = r_cols r0 ∧ r_counters r = r_counters r0 ∧
          r_schedule_id r = r_schedule_id r0 ∧ r_scheduled_time r = r_scheduled_time r0).
  { intros k r. rw /write_seq /= lookup_alter. destruct (decide (rid = k)) as [<-|]; [|by eauto 10].
    destruct (run s !! rid) as [r0|]; [|done]. intros [= <-]. by exists r0. }
  split; [|done| |done| |done].
  - intros k r (r0 & Hr & -> & -> & _)%Hrow. by apply H1.
  - intros x Hx. rw /write_seq /= lookup_alter_is_Some. by apply H3.
  - intros i j a b (a0 & Ha & _ & _ & Ea1 & Ea2)%Hrow (b0 & Hb & _ & _ & Eb1 & Eb2)%Hrow Hf.
    apply (H5 i j a0 b0); [done|done|]. by rw /same_fire Ea1 Ea2 Eb1 Eb2 in Hf.
Qed.

Lemma store_ok_report now rid events s : store_ok s → store_ok (apply_report now rid events s).1.
Proof using Type.
  apply report_keeps.
  - intros c s'. apply store_ok_create_task_run.
  - intros id st force s'. apply store_ok_transition_task.
  - intros logs c s'. apply keeps_ok, keeps_logs.
  - intros e s'. apply keeps_ok, keeps_event.
  - intros id mark ref s'. apply keeps_ok, keeps_effect.
  - intros a s'. apply keeps_ok, keeps_artifact.
  - intros n s'. apply store_ok_write_seq.
Qed.

(** ** Sequences of commands *)

Inductive scmd : Type :=
| SCreateRun (now : Z) (c : CreateRun)
| SCreateTaskRun (now : Z) (c : CreateTaskRun)
| STransition (t : Table) (id : Z) (st : State) (force : bool)
| SReport (now rid : Z) (events : list ReportEvent)
| SLogs (logs : list NewLog)
| SEvent (now : Z) (e : NewEvent)
| SArtifact (now : Z) (a : UpsertArtifact).

(** Under the writer's savepoint a failed command leaves nothing. *)
Definition settle {A} (s : Store) (x : Store * result A StoreError) : Store :=
  match x with (s', Ok _) => s' | (_, Err _) => s end.

Definition sexec (s : Store) (c : scmd) : Store :=
  match c with
  | SCreateRun now c => settle s (create_run now c s)
  | SCreateTaskRun now c => settle s (create_task_run now c s)
  | STransition t id st force => settle s (transition t id st force s)
  | SReport now rid events => settle s (apply_report now rid events s)
  | SLogs logs => settle s (append_logs logs s)
  | SEvent now e => settle s (append_event now e s)
  | SArtifact now a => settle s (upsert_artifact now a s)
  end.

Lemma settle_ok {A} s (x : Store * result A StoreError) :
  store_ok s → store_ok x.1 → store_ok (settle s x).
Proof using Type. intros Hs Hx. by destruct x as [s' []]. Qed.

Lemma store_ok_sexec s c : store_ok s → store_ok (sexec s c).
Proof using Type.
  intros Hs. destruct c as [now c|now c|[] id st force|now rid events|logs|now e|now a]; simpl;
    apply settle_ok; try done.
  - by apply store_ok_create_run.
  - by apply store_ok_create_task_run.
  - by apply store_ok_transition_run.
  - by apply store_ok_transition_task.
  - by apply store_ok_report.
  - rw /append_logs /append_logs_with_map. pose proof (keeps_logs logs ∅ s) as Hk.
    destruct (append_logs_loop logs ∅ s) as [[s1 c] r]. by apply (keeps_ok s).
  - by apply (keeps_ok s), Hs; apply keeps_event.
  - by apply (keeps_ok s), Hs; apply keeps_artifact.
Qed.

Lemma store_ok_cmds cmds s : store_ok s → store_ok (fold_left sexec cmds s).
Proof using Type. revert s; induction cmds; simpl; auto using store_ok_sexec. Qed.

(** ** Unique keys *)

Lemma newest_Some l m : newest l = Some m ↔ m ∈ l ∧ ∀ x, x ∈ l → x ≤ m.
Proof using Type.
  revert m; induction l as [|k l IH]; intros m; simpl; [set_solver|].
  destruct (newest l) as [m0|] eqn:E.
  - destruct (proj1 (IH m0) eq_refl) as [Hin Hle]. split.
    + intros [= <-]. split; [|intros x [->|Hx%Hle]%elem_of_cons; lia].
      destruct (Z.max_spec k m0) as [[_ ->]|[_ ->]]; set_solver.
    + intros [Hm Hle']. f_equal. assert (k ≤ m) by (apply Hle'; set_solver).
      assert (m0 ≤ m) by (apply Hle'; set_solver).
      apply elem_of_cons in Hm as [->|Hm%Hle]; lia.
  - assert (Hl : l = []) by (destruct l; [done|simpl in E; by destruct (newest l)]). subst l.
    split; [intros [= <-]; set_solver|]. set_solver.
Qed.

Lemma newest_None l : newest l = None ↔ l = [].
Proof using Type. destruct l; simpl; [done|]. by destruct (newest l). Qed.

Lemma holder_elem check s j :
  j ∈ (List.filter (λ kv, holds_key check kv.2) (map_to_list (run s))).*1 ↔
  ∃ r, run s !! j = Some r ∧ holds_key check r = true.
Proof using Type.
  rw list_elem_of_fmap. split.
  - intros ([j' r] & -> & [Hin Hk]%list_elem_of_In%filter_In). exists r. split; [|done].
    by apply elem_of_map_to_list, list_elem_of_In.
  - intros (r & Hr & Hk). exists (j, r). split; [done|]. apply list_elem_of_In, filter_In.
    split; [|done]. by apply list_elem_of_In, elem_of_map_to_list.
Qed.

(** The lookup finds the newest run that holds the key. *)
Lemma find_unique_Some check s id :
  find_unique check s = Some id ↔
  (∃ r, run s !! id = Some r ∧ holds_key check r = true) ∧
  ∀ j r, run s !! j = Some r → holds_key check r = true → j ≤ id.
Proof using Type.
  rw /find_unique newest_Some holder_elem. split; intros [H1 H2]; (split; [done|]).
  - intros j r Hj Hk. apply H2, holder_elem. eauto.
  - intros j (r & Hj & Hk)%holder_elem. eauto.
Qed.
Lemma find_unique_None check s :
  find_unique check s = None ↔ ∀ j r, run s !! j = Some r → holds_key check r = false.
Proof using Type.
  rw /find_unique newest_None. split.
  - intros He j r Hj. destruct (holds_key check r) eqn:Hk; [|done].
    assert (Hin : j ∈ (List.filter (λ kv, holds_key check kv.2) (map_to_list (run s))).*1)
      by (apply holder_elem; eauto). rw He in Hin. set_solver.
  - intros Hn. destruct (_.*1) as [|j l] eqn:E; [done|].
    assert (Hin : j ∈ (List.filter (λ kv, holds_key check kv.2) (map_to_list (run s))).*1)
      by (rw E; set_solver).
    apply holder_elem in Hin as (r & Hj & Hk). by rw (Hn _ _ Hj) in Hk.
Qed.

(** What a successful creation inserts. *)
Lemma create_run_Ok now c s s1 id ext :
  create_run now c s = (s1, Ok (id, ext)) →
  id = next_id (run s) ∧ (∀ j, j ≠ id → run s1 !! j = run s !! j) ∧
  ∃ r, run s1 !! id = Some r ∧ r_unique_key r = uc_key <$> cr_unique c ∧ r_created_at r = now ∧
    c_type (r_cols r) = (λ st, StateType_as_str (state_type st)) <$> cr_initial_state c.
Proof using Type.
  rw /create_run /new_id. destruct (and_then _ _); [done|]. rw /insert_run.
  destruct (existsb _ _); [done|]. destruct (existsb _ _); [done|]. destruct (negb _); [done|].
  cbn [fst snd run set_drawn]. set (id0 := next_id (run s)).
  destruct (cr_initial_state c) as [st|] eqn:Ei.
  - rw /transition. cbn [read_state run set_last_rowid set_run]. rw lookup_insert_eq /=.
    change (propose (state_from_columns no_state) (mkProposal st false) policy0)
      with (entry_rule None (state_type st)).
    destruct (entry_rule None (state_type st)) as [|reason|st'] eqn:Ee; simpl; try done.
    + intros [= <- <- _]. split; [done|]. split.
      * intros j Hj. rw /= lookup_alter_ne // lookup_insert_ne //.
      * rw /= lookup_alter_eq lookup_insert_eq. by eexists.
    + by apply entry_rule_never_rewrites in Ee.
  - intros [= <- <- _]. split; [done|]. split.
    + intros j Hj. rw /= lookup_insert_ne //.
    + rw /= lookup_insert_eq. by eexists.
Qed.
End histories.

Lemma next_id_above {A} (m : gmap Z A) j x : m !! j = Some x → j < next_id m.
Proof.
  intros Hj. assert (j ≤ foldr Z.max 0 (map_to_list m).*1); [|rw /next_id; lia].
  apply foldr_max_bound, list_elem_of_fmap. exists (j, x). split; [done|]. by apply elem_of_map_to_list.
Qed.

(** ** A sample store *)

Definition sample_env : StoreEnv := {|
  map_to_string m := String.concat "," (map_keys m);
  map_from_str _ := Some [];
  value_to_string v := default "null" (as_str v);
  strings_to_string l := String.concat "," l;
  strings_from_str t := Some [t];
  resources_to_string l := String.concat "," (res_id <$> l);
  value_from_str t := Some (VString t);
  schedule_to_string _ := "continuous";
  schedule_from_str _ := Some (Continuous f64_zero);
  nth_id n := "id-" +:+ pretty n;
|}.

Definition empty_store : Store :=
  mkStore {[ 1 := mkFlowRow "flow-1" "shop" "etl" "etl" "/srv" None "[]" "{}" 0 0 None "{}" None ]}
    ∅ [] ∅ [] ∅ [] [] [] [] Defs_empty 0 0.
Definition sample_create (unique : option UniqueCheck) : CreateRun :=
  mkCreateRun 1 "etl-1" "{}" "nightly" "schedule" (Some (st_at Scheduled 0)) (Some 7) (Some 500) 0
    None 0 None unique.
Definition one_run : Store := settle empty_store
  (create_run (H := sample_env) 10 (sample_create None) empty_store).
Definition sample_report : list ReportEvent :=
  [TaskRunCreated 1 "t1" "load" "load" "load-0" [] 0 false;
   TaskRunTransition 2 "t1" (st_at Pending 1) false;
   TaskRunTransition 3 "t1" (st_at Running 2) false;
   Logs 4 [mkNewLog 1 None (Some "t1") 20 "flow" 3 "loading"]].

Lemma empty_store_ok : store_ok (H := sample_env) empty_store.
Proof.
  split; rw /ext_unique /=; intros *; rw ?lookup_empty //; set_solver.
Qed.

(** ** Theorems *)

(** C6: reports may be delivered more than once: after a report has been
    applied, a later one that sends its events again before new ones leaves the
    tables exactly as the new ones alone would, whatever the time; and a report
    applied in two parts leaves the tables it would have left in one.  Sent
    again alone, it changes nothing. *)
Theorem report_redelivery `{StoreEnv} now rid first s s1 o1 :
  ext_unique s → apply_report now rid first s = (s1, Ok o1) →
  (∀ now' rest, (apply_report now' rid (first ++ rest) s1).1 = (apply_report now' rid rest s1).1) ∧
  (∀ rest s2 o2, apply_report now rid (first ++ rest) s = (s2, Ok o2) →
     (apply_report now rid rest s1).1 = s2) ∧
  (∀ now', (apply_report now' rid first s1).1 = s1).
Proof.
  intros Hu Ha. destruct (run s !! rid) as [row|] eqn:Hr; [|by rw /apply_report Hr in Ha].
  pose proof (apply_report_tables now rid first s row Hr Hu) as Ht.
  pose proof (apply_events_run now rid first (r_report_seq row) s) as Hrun.
  pose proof (apply_events_app now rid first) as Happ.
  destruct (apply_events now rid first (r_report_seq row) s) as [s0 [last|e]] eqn:Ea; [|congruence].
  destruct Ht as (o & Ht & _). rw Ha in Ht. injection Ht as -> _. simpl in Hrun.
  destruct (apply_events_last _ _ _ _ _ _ _ Ea) as [_ Hseq].
  assert (Hr1 : run (write_seq rid last s0) !! rid = Some (run_with_seq last row))
    by by rw /write_seq /= lookup_alter_eq Hrun Hr.
  assert (Hu1 : ext_unique (write_seq rid last s0)).
  { destruct (report_loop_ok now rid first (r_report_seq row) s (mkReport ∅ [] ∅ (new_outcome 0)))
      as [He Hx]; [done|done|]. rw Ea in He. injection He as -> _. exact Hx. }
  assert (Hsame : ∀ now' rest, (apply_report now' rid (first ++ rest) (write_seq rid last s0)).1 =
                               (apply_report now' rid rest (write_seq rid last s0)).1).
  { intros now' rest. pose proof (apply_report_tables now' rid (first ++ rest) _ _ Hr1 Hu1) as H1.
    pose proof (apply_report_tables now' rid rest _ _ Hr1 Hu1) as H2.
    rw apply_events_app apply_events_skip // in H1. simpl in H1, H2.
    destruct (apply_events now' rid rest last (write_seq rid last s0)) as [s2 [l2|e2]];
      [destruct H1 as (? & -> & _), H2 as (? & -> & _)|rw H1 H2]; done. }
  assert (Hnil : ∀ now', (apply_report now' rid [] (write_seq rid last s0)).1 = write_seq rid last s0).
  { intros now'. pose proof (apply_report_tables now' rid [] _ _ Hr1 Hu1) as (o2 & -> & _).
    simpl. by rw write_seq_twice. }
  split_and!; [done| |].
  - intros rest s2 o2 H2. pose proof (apply_report_tables now rid (first ++ rest) _ _ Hr Hu) as H1.
    pose proof (apply_report_tables now rid rest _ _ Hr1 Hu1) as H3.
    rw Happ Ea in H1. simpl in H3. rw apply_events_seq in H3.
    destruct (apply_events now rid rest last s0) as [s3 [l3|e3]]; simpl in H3; [|congruence].
    destruct H1 as (o3 & H1 & _), H3 as (o4 & -> & _). simpl. rw write_seq_twice. congruence.
  - intros now'. by rw -{1}(app_nil_r first) Hsame.
Qed.

Lemma report_redelivery_witness :
  (apply_report (H := sample_env) 30 1 sample_report
     (apply_report (H := sample_env) 20 1 sample_report one_run).1).1
  = (apply_report (H := sample_env) 20 1 sample_report one_run).1.
Proof.
  destruct (apply_report (H := sample_env) 20 1 sample_report one_run) as [s1 [o|e]] eqn:E.
  - apply (report_redelivery (H := sample_env) 20 1 sample_report one_run s1 o); [|exact E].
    intros i j a b Ha. vm_compute in Ha. by destruct i.
  - exfalso. vm_compute in E. discriminate E.
Defined.


Definition sample_session : Store := fold_left (sexec (H := sample_env))
  [SCreateRun 10 (sample_create None); SReport 20 1 sample_report;
   STransition TableRun 1 (st_at Pending 5) false] empty_store.




(** An artifact written again under its external id, without a key, is
    answered with the id of whichever row was inserted last: here the second
    write of artifact 1 answers 2, the id of another artifact. *)
Theorem artifact_rewrite_wrong_id :
  let write ext data s := upsert_artifact (H := sample_env) 20
    (mkUpsertArtifact 1 None "markdown" None data (Some ext) None) s in
  let '(s1, r1) := write "a" "one" one_run in
  let '(s2, r2) := write "b" "two" s1 in
  let '(s3, r3) := write "a" "three" s2 in
  r1 = Ok 1 ∧ r2 = Ok 2 ∧ r3 = Ok 2 ∧
  (λ x, (x.1, ar_external_id x.2, ar_data x.2)) <$> artifact s3 = [(1, "a", "three"); (2, "b", "two")].
Proof. vm_compute. done. Qed.
