(* ===== verification/JsonCodec.v ===== *)
(** * JSON text

    What the store relies on of serde_json, as laws of the functions of
    [StoreEnv]: a value serde can hold (keys of a map in order and distinct,
    integers in the range of [i64] or [u64], finite floats) is read back from
    its text, and only such values are read.  [codec_env] is an encoding of
    values as bit strings that has these laws; it shows that they can hold and
    serves the examples. *)

From S2P Require Import Prelude Float64 Json States Schedules Model Tables Store.
From Stdlib Require Import Ascii.

(** ** Values serde can hold *)

Definition str_ltb (a b : string) : bool :=
  match String.compare a b with Lt => true | _ => false end.
Fixpoint keys_sorted (l : list string) : bool :=
  match l with
  | [] => true
  | a :: l' => forallb (str_ltb a) l' && keys_sorted l'
  end.
Definition number_wf (n : Number) : bool :=
  match n with
  | NInt z => (i64_MIN <=? z) && (z <? two64)
  | NFloat f => f64_is_finite f
  end.
Fixpoint value_wf (v : Value) : bool :=
  match v with
  | VNull | VBool _ | VString _ => true
  | VNumber n => number_wf n
  | VArray l => forallb value_wf l
  | VObject m => keys_sorted m.*1 && forallb (λ kv, value_wf kv.2) m
  end.
Definition map_wf (m : Map) : bool := value_wf (VObject m).

Class JsonLaws `{StoreEnv} : Prop := {
  map_round m : map_wf m = true → map_from_str (map_to_string m) = Some m;
  map_from_wf t m : map_from_str t = Some m → map_wf m = true;
  value_round v : value_wf v = true → value_from_str (value_to_string v) = Some v;
  value_from_wf t v : value_from_str t = Some v → value_wf v = true;
}.

Lemma str_ltb_trans a b c : str_ltb a b = true → str_ltb b c = true → str_ltb a c = true.
Proof.
  revert b c. induction a as [|x a IH]; intros [|y b] [|z c]; rw /str_ltb //=.
  rw /Ascii.compare. intros H1 H2.
  destruct (N.compare_spec (N_of_ascii x) (N_of_ascii y)) as [E1|E1|E1]; try done;
  destruct (N.compare_spec (N_of_ascii y) (N_of_ascii z)) as [E2|E2|E2]; try done.
  - rw E1 E2 N.compare_refl. by apply (IH b c).
  - rw E1. by apply N.compare_lt_iff in E2 as ->.
  - rw -E2. by apply N.compare_lt_iff in E1 as ->.
  - assert (E3 : (N_of_ascii x < N_of_ascii z)%N) by lia. by apply N.compare_lt_iff in E3 as ->.
Qed.

Lemma map_insert_keys k v m :
  keys_sorted m.*1 = true →
  keys_sorted (map_insert k v m).*1 = true ∧
  ∀ a, str_ltb a k = true → forallb (str_ltb a) m.*1 = true →
       forallb (str_ltb a) (map_insert k v m).*1 = true.
Proof.
  induction m as [|[k' v'] m IH]; cbn [map_insert fmap list_fmap fst keys_sorted forallb]; intros Hm.
  - split; [done|]. intros a Ha _. by rw Ha.
  - apply andb_true_iff in Hm as [Hk' Hm]. destruct (IH Hm) as [IH1 IH2].
    destruct (String.compare k k') eqn:E;
      cbn [map_insert fmap list_fmap fst keys_sorted forallb].
    + apply String.compare_eq_iff in E as ->. rw Hk' Hm. split; [done|].
      intros a Ha [_ H]%andb_true_iff. by rw Ha H.
    + assert (Hlt : str_ltb k k' = true) by rw /str_ltb E //.
      rw Hlt Hk' Hm !andb_true_r /=. split.
      * apply forallb_forall. intros x Hx. rw forallb_forall in Hk'. eapply str_ltb_trans; [done|auto].
      * intros a Ha ->. by rw Ha.
    + assert (Hlt : str_ltb k' k = true).
      { rw /str_ltb. rw (String.compare_antisym k' k) E //. }
      rw IH1 (IH2 k' Hlt Hk'). split; [done|].
      intros a Ha [Hak H]%andb_true_iff. by rw Hak (IH2 a Ha H).
Qed.

Lemma forallb_map_insert (p : Value → bool) k v m :
  p v = true → forallb (λ kv, p kv.2) m = true → forallb (λ kv, p kv.2) (map_insert k v m) = true.
Proof.
  intros Hv. induction m as [|[k' v'] m IH]; simpl; [by rw Hv|]. intros [Hp Hm]%andb_true_iff.
  destruct (String.compare k k'); simpl; rw ?Hv ?Hp ?Hm //=. by apply IH.
Qed.

Lemma map_insert_wf k v m : value_wf v = true → map_wf m = true → map_wf (map_insert k v m) = true.
Proof.
  intros Hv [Hk Hm]%andb_true_iff. apply andb_true_iff.
  split; [by apply map_insert_keys|by apply forallb_map_insert].
Qed.

Lemma map_remove_wf k m : map_wf m = true → map_wf (map_remove k m) = true.
Proof.
  intros [Hk Hm]%andb_true_iff. apply andb_true_iff.
  assert (Hsub : ∀ a, forallb (str_ltb a) m.*1 = true →
                      forallb (str_ltb a) (map_remove k m).*1 = true).
  { clear. intros a. induction m as [|[k' v'] m IH]; simpl; [done|]. intros [H1 H2]%andb_true_iff.
    destruct (k =?s k'); [done|]. cbn. by rw H1 IH. }
  induction m as [|[k' v'] m IH]; cbn [map_remove]; [done|].
  cbn [fmap list_fmap fst keys_sorted forallb snd] in Hk, Hm.
  apply andb_true_iff in Hk as [Hk1 Hk2]. apply andb_true_iff in Hm as [Hm1 Hm2].
  destruct (k =?s k') eqn:E; [done|].
  assert (Hsub' : ∀ a, forallb (str_ltb a) m.*1 = true → forallb (str_ltb a) (map_remove k m).*1 = true).
  { clear. intros a. induction m as [|[k' v'] m IH]; simpl; [done|]. intros [H1 H2]%andb_true_iff.
    destruct (k =?s k'); [done|]. cbn. by rw H1 IH. }
  destruct (IH Hk2 Hm2 Hsub') as [IH1 IH2].
  cbn [fmap list_fmap fst keys_sorted forallb snd]. by rw Hm1 IH1 IH2 (Hsub' _ Hk1).
Qed.

Lemma map_get_remove k m : keys_sorted m.*1 = true → map_get k (map_remove k m) = None.
Proof.
  induction m as [|[k' v'] m IH]; cbn [map_remove fmap list_fmap fst keys_sorted]; [done|].
  intros [Hk Hm]%andb_true_iff. destruct (k =?s k') eqn:E; [|cbn; rw E; auto].
  apply str_eqb_eq in E as ->. clear IH Hm. induction m as [|[k2 v2] m IH]; [done|].
  cbn in Hk. apply andb_true_iff in Hk as [Hlt Hk]. cbn [map_get].
  destruct (k' =?s k2) eqn:E; [|auto]. apply str_eqb_eq in E as ->.
  by rw /str_ltb str_compare_refl in Hlt.
Qed.

(** ** A codec *)

Lemma Value_ind' (P : Value → Prop) :
  P VNull → (∀ b, P (VBool b)) → (∀ n, P (VNumber n)) → (∀ s, P (VString s)) →
  (∀ l, Forall P l → P (VArray l)) → (∀ m, Forall (λ kv, P kv.2) m → P (VObject m)) → ∀ v, P v.
Proof.
  intros H1 H2 H3 H4 H5 H6. fix IH 1. intros [| | | |l|m]; [done|apply H2|apply H3|apply H4| |].
  - apply H5. induction l; constructor; [apply IH|done].
  - apply H6. induction m as [|[k v] m IHm]; constructor; [apply IH|done].
Qed.

(** A leaf is a text, an integer, or a float by its tag, sign, mantissa and
    exponent. *)
Abbreviation leaf := (string + Z + Z * bool * positive * Z)%type.

Definition float_code (f : f64) : Z * bool * positive * Z :=
  match f with
  | S754_zero s => (0, s, 1%positive, 0)
  | S754_infinity s => (1, s, 1%positive, 0)
  | S754_nan => (2, false, 1%positive, 0)
  | S754_finite s m e => (3, s, m, e)
  end.
Definition code_float (c : Z * bool * positive * Z) : f64 :=
  let '(t, s, m, e) := c in
  if t =? 0 then S754_zero s else if t =? 1 then S754_infinity s
  else if t =? 2 then S754_nan else S754_finite s m e.

Fixpoint value_tree (v : Value) : gen_tree leaf :=
  match v with
  | VNull => GenNode 0 []
  | VBool b => GenNode 1 [GenLeaf (inl (inr (Z.b2z b)))]
  | VNumber (NInt z) => GenNode 2 [GenLeaf (inl (inr z))]
  | VNumber (NFloat f) => GenNode 3 [GenLeaf (inr (float_code f))]
  | VString s => GenNode 4 [GenLeaf (inl (inl s))]
  | VArray l => GenNode 5 (value_tree <$> l)
  | VObject m => GenNode 6 ((λ kv, GenNode 7 [GenLeaf (inl (inl kv.1)); value_tree kv.2]) <$> m)
  end.

Fixpoint tree_value (t : gen_tree leaf) : Value :=
  match t with
  | GenNode 1 [GenLeaf (inl (inr z))] => VBool (z =? 1)
  | GenNode 2 [GenLeaf (inl (inr z))] => VNumber (NInt z)
  | GenNode 3 [GenLeaf (inr c)] => VNumber (NFloat (code_float c))
  | GenNode 4 [GenLeaf (inl (inl s))] => VString s
  | GenNode 5 l => VArray (tree_value <$> l)
  | GenNode 6 l =>
      VObject ((λ t, match t with
                     | GenNode _ [GenLeaf (inl (inl k)); v] => (k, tree_value v)
                     | _ => (EmptyString, VNull)
                     end) <$> l)
  | _ => VNull
  end.

Lemma tree_value_tree v : tree_value (value_tree v) = v.
Proof.
  induction v as [|[]|[z|f]|s|l IH|m IH] using Value_ind'; simpl; try done.
  - by destruct f.
  - f_equal. induction IH as [|v l Hv Hl IHl]; [done|]. rw !fmap_cons Hv. by f_equal.
  - f_equal. induction IH as [|[k v] m Hv Hm IHm]; [done|].
    rw !fmap_cons. cbn in Hv. rw Hv. by f_equal.
Qed.

Fixpoint bits (p : positive) : string :=
  match p with
  | xH => EmptyString
  | xO p => String "0"%char (bits p)
  | xI p => String "1"%char (bits p)
  end.
Fixpoint unbits (s : string) : positive :=
  match s with
  | EmptyString => xH
  | String c s' => if Ascii.eqb c "0"%char then xO (unbits s') else xI (unbits s')
  end.
Lemma unbits_bits p : unbits (bits p) = p.
Proof. by induction p as [p IH|p IH|]; simpl; rw ?IH. Qed.

Definition print_value (v : Value) : string := bits (encode (value_tree v)).
Definition parse_value (s : string) : option Value :=
  opt_filter value_wf (tree_value <$> (decode (unbits s) : option (gen_tree leaf))).

Lemma parse_print v : value_wf v = true → parse_value (print_value v) = Some v.
Proof.
  intros Hv. rw /parse_value /print_value unbits_bits decode_encode /= tree_value_tree Hv //.
Qed.
Lemma parse_wf s v : parse_value s = Some v → value_wf v = true.
Proof.
  rw /parse_value. destruct (tree_value <$> _) as [w|]; simpl; [|done].
  destruct (value_wf w) eqn:E; [|done]. by intros [= <-].
Qed.

Definition codec_env : StoreEnv := {|
  map_to_string m := print_value (VObject m);
  map_from_str t := and_then (parse_value t) as_object;
  value_to_string := print_value;
  strings_to_string l := print_value (VArray (VString <$> l));
  strings_from_str t :=
    match parse_value t with
    | Some (VArray l) => mapM as_str l
    | _ => None
    end;
  resources_to_string l := String.concat "," (res_id <$> l);
  value_from_str := parse_value;
  schedule_to_string s :=
    match s with
    | Cron c _ _ => "cron:" +:+ c
    | Interval _ _ _ => "interval"
    | RRule r _ => "rrule:" +:+ r
    | Continuous _ => "continuous"
    end;
  schedule_from_str t :=
    match strip_prefix "cron:" t with
    | Some c => Some (Cron c None true)
    | None => if t =?s "continuous" then Some (Continuous f64_zero)
              else if t =?s "interval" then Some (Interval (f64_of_Z 3600) (Some 0) None) else None
    end;
  nth_id n := "id-" +:+ pretty n;
|}.

#[export] Instance codec_laws : JsonLaws (H := codec_env).
Proof.
  split.
  - intros m Hm. rw /= parse_print //.
  - intros t m. simpl. destruct (parse_value t) as [v|] eqn:E; [|done]. apply parse_wf in E.
    destruct v; simpl; try done. by intros [= <-].
  - intros v. apply parse_print.
  - apply parse_wf.
Qed.
