(* ===== verification/Reader.v ===== *)
(** * Reading the store (store/src/read.rs, store/src/row.rs)

    Rows decoded into the model's records, and the queries the server asks.
    A query over [run JOIN flow] drops a run whose flow is gone.  [ORDER BY]
    sorts the rows in id order by the given key; where a query names no order,
    the list here is in id order.

    [strftime('%s', 'now')] in the schedule columns is the argument [now] cut
    to seconds.  What SQLite writes for a float, an array or an object that
    [json_extract] returns is the field [sql_json_text] of [ReaderEnv]. *)

From S2P Require Import Prelude Float64 Json States Transitions Schedules Model Events GroupCommit Tables Store.
From Stdlib Require Import Ascii.

Class ReaderEnv : Type := {
  sql_json_text : Value → string;
}.

(** The rows of a table in id order. *)
Definition by_id {A} (m : gmap Z A) : list (Z * A) :=
  sort_by_key fst (map_to_list m).

(** [LIKE 'prefix%'] with a prefix free of wild cards: ASCII case is ignored. *)
Definition sql_like_prefix (p s : string) : bool :=
  starts_with (to_ascii_lowercase s) (to_ascii_lowercase p).

Section reader.
Context `{StoreEnv}.

(** ** Rows *)

Definition json_list (text : string) : list string := default [] (strings_from_str text).

(** Task runs of a run by state type; one with no state counts as Pending. *)
Definition task_counts (run_id : Z) (s : Store) : gmap string Z :=
  foldr (λ kt m,
      if t_run_id kt.2 =? run_id then
        let st := default "Pending" (c_type (t_cols kt.2)) in
        <[st := default 0 (m !! st) + 1]> m
      else m) ∅ (map_to_list (task_run s)).

Definition run_from_row (id : Z) (r : RunRow) (f : FlowRow) (s : Store) : Run :=
  {| run_id := id; run_external_id := r_external_id r; run_flow_id := r_flow_id r;
     run_flow_name := fl_name f; run_project := fl_project f;
     run_group := default (fl_project f) (fl_flow_group f); run_name := r_name r;
     run_parameters := json_map (r_parameters r); run_tags := json_list (r_tags r);
     run_attributes := json_map (r_attributes r);
     Model.run_state := default (with_timestamp (State_new 0 Scheduled) 0)
                          (state_from_columns (r_cols r));
     run_failure_count := wrap_u32 (failure_count (r_counters r));
     run_crash_count := wrap_u32 (crash_count (r_counters r));
     run_created_at := r_created_at r; run_start_time := start_time (r_counters r);
     run_end_time := end_time (r_counters r);
     run_total_run_time := total_run_time (r_counters r);
     run_engine_pid := r_engine_pid r; run_engine_id := r_engine_id r;
     run_created_by := r_created_by r; run_report_seq := r_report_seq r;
     run_schedule_id := r_schedule_id r; run_scheduled_time := r_scheduled_time r;
     run_priority := r_priority r; run_parent_run_id := r_parent_run_id r;
     run_attempt := r_attempt r; run_backfill_id := r_backfill_id r;
     run_task_counts := task_counts id s; run_unique_key := r_unique_key r; run_host := r_host r;
     run_processor := r_processor r; run_lease := r_lease r; run_source_hash := r_source_hash r |}.

Definition flow_from_row (id : Z) (f : FlowRow) : Flow :=
  {| flow_id := id; flow_external_id := fl_external_id f; flow_project := fl_project f;
     flow_name := fl_name f; flow_module := fl_module f; flow_source_dir := fl_source_dir f;
     flow_description := fl_description f; flow_tags := json_list (fl_tags f);
     flow_group := fl_flow_group f;
     flow_parameter_schema := default VNull (value_from_str (fl_parameter_schema f));
     flow_options := json_map (fl_options f); flow_error := fl_error f;
     flow_created_at := fl_created_at f; flow_last_seen_at := fl_last_seen_at f;
     flow_live := false |}.

(** Skips of a schedule after the start of the current second. *)
Definition skips_ahead (now sid : Z) (s : Store) : Z :=
  Z.of_nat (size (filter (λ kv, kv.1.1 = sid ∧ now / 1000000 * 1000000 < kv.1.2)
                    (schedule_skip (defs s)))).

Definition default_spec : Schedule := Interval (f64_of_Z 3600) None None.

Definition schedule_from_row (now id : Z) (r : SchedRow) (s : Store) : ScheduleRow :=
  {| sr_id := id; sr_external_id := s_external_id r; sr_flow_id := s_flow_id r;
     sr_schedule := default default_spec (schedule_from_str (s_spec r));
     sr_catchup := default Skip (CatchupPolicy_parse (s_catchup r));
     sr_catchup_max := s_catchup_max r; sr_catchup_window := s_catchup_window r;
     sr_jitter := s_jitter r; sr_start_deadline := s_start_deadline r; sr_active := s_active r;
     sr_paused_reason := s_paused_reason r; sr_paused_until := s_paused_until r;
     sr_source := s_source r; sr_code_key := s_code_key r; sr_persist := s_persist r;
     sr_created_at := s_created_at r; sr_updated_at := s_updated_at r; sr_next_fire := None;
     sr_skipped := skips_ahead now id s; sr_loop_state := None |}.

(** ** Single rows *)

Definition join_run (s : Store) (kr : Z * RunRow) : option Run :=
  match flow s !! r_flow_id kr.2 with
  | Some f => Some (run_from_row kr.1 kr.2 f s)
  | None => None
  end.
Definition get_run (id : Z) (s : Store) : option Run :=
  match Tables.run s !! id with Some r => join_run s (id, r) | None => None end.
Definition get_flow (id : Z) (s : Store) : option Flow := flow_from_row id <$> flow s !! id.
Definition get_schedule (now id : Z) (s : Store) : option ScheduleRow :=
  (λ r, schedule_from_row now id r s) <$> schedule (defs s) !! id.
Definition get_flow_by_key (project name : string) (s : Store) : option Flow :=
  head (omap (λ kf, if (fl_project kf.2 =?s project) && (fl_name kf.2 =?s name)
                    then Some (flow_from_row kf.1 kf.2) else None) (by_id (flow s))).

(** [ORDER BY project, name], by bytes. *)
Definition flow_le (a b : Flow) : Prop :=
  (if flow_project a =?s flow_project b then String.leb (flow_name a) (flow_name b)
   else String.leb (flow_project a) (flow_project b)) = true.
#[local] Instance flow_le_dec : RelDecision flow_le.
Proof using Type. intros a b. rw /flow_le. apply _. Defined.
Definition list_flows (project group : option string) (s : Store) : list Flow :=
  stable_sort flow_le
    (List.filter (λ f, match project with Some p => flow_project f =?s p | None => true end
                       && match group with Some g => group_or_project f =?s g | None => true end)
       ((λ kf, flow_from_row kf.1 kf.2) <$> by_id (flow s))).

(** ** Runs by condition *)

(** [SELECT .. FROM run r JOIN flow f WHERE p] in id order. *)
Definition runs_where (p : RunRow → bool) (s : Store) : list Run :=
  omap (join_run s) (List.filter (λ kr, p kr.2) (by_id (Tables.run s))).

Definition type_is (t : string) (r : RunRow) : bool := bool_decide (c_type (r_cols r) = Some t).
Definition TERMINAL : list string := ["Completed"; "Failed"; "Cancelled"; "Crashed"].

Definition active_list : list string :=
  StateType_as_str <$> List.filter (λ t, negb (is_terminal t)) StateType_ALL.
Definition active_runs (s : Store) : list Run :=
  runs_where (λ r, match c_type (r_cols r) with
                   | None => true
                   | Some t => bool_decide (t ∈ active_list)
                   end) s.

Definition has_child_run (id : Z) (s : Store) : bool :=
  existsb (λ r, bool_decide (r_parent_run_id r = Some id)) (map_to_list (Tables.run s)).*2.

(** A NULL state is neither in nor outside a list. *)
Definition unfinished (s : Store) (id : Z) (r : RunRow) : bool :=
  match c_type (r_cols r) with
  | None => false
  | Some t => negb (bool_decide (t ∈ TERMINAL)) || ((t =?s "Crashed") && negb (has_child_run id s))
  end.
Definition active_runs_of_schedule (sid : Z) (s : Store) : list Run :=
  omap (join_run s) (List.filter (λ kr, bool_decide (r_schedule_id kr.2 = Some sid)
                                        && unfinished s kr.1 kr.2) (by_id (Tables.run s))).

(** The same for many schedules: grouped by schedule, those with none absent. *)
Definition active_runs_of_schedules (sids : list Z) (s : Store) : gmap Z (list Run) :=
  fold_left (λ m run,
      match run_schedule_id run with
      | Some sid => <[sid := default [] (m !! sid) ++ [run]]> m
      | None => m
      end)
    (omap (join_run s)
       (List.filter (λ kr, match r_schedule_id kr.2 with
                           | Some sid => bool_decide (sid ∈ sids)
                           | None => false
                           end && unfinished s kr.1 kr.2) (by_id (Tables.run s)))) ∅.

Definition crashed_without_rerun (since : Z) (s : Store) : list Z :=
  (List.filter (λ kr, type_is "Crashed" kr.2
                      && match c_timestamp (r_cols kr.2) with Some t => since <=? t | None => false end
                      && negb (has_child_run kr.1 s)) (by_id (Tables.run s))).*1.

Definition max_opt (l : list Z) : option Z :=
  foldr (λ k o, Some (match o with Some m => Z.max k m | None => k end)) None l.
Definition last_end_of_schedule (sid : Z) (s : Store) : option Z :=
  max_opt (omap (λ kr, if bool_decide (r_schedule_id kr.2 = Some sid)
                       then end_time (r_counters kr.2) else None) (by_id (Tables.run s))).

Definition run_name_exists (name : string) (s : Store) : bool :=
  existsb (λ r, r_name r =?s name) (map_to_list (Tables.run s)).*2.

(** The newest [limit] runs of a flow, newest first: id, state type, state name,
    run time. *)
Definition RecentRun : Type := Z * string * string * option Z.
Definition recent_run_states (fid : Z) (limit : nat) (s : Store) : list RecentRun :=
  (λ kr, (kr.1, default "Scheduled" (c_type (r_cols kr.2)),
          default "Scheduled" (c_name (r_cols kr.2)), total_run_time (r_counters kr.2)))
  <$> take limit (reverse (List.filter (λ kr, r_flow_id kr.2 =? fid) (by_id (Tables.run s)))).

(** ** Schedules and their runs *)

Definition list_schedules (now : Z) (fid : option Z) (s : Store) : list ScheduleRow :=
  (λ kr, schedule_from_row now kr.1 kr.2 s)
  <$> List.filter (λ kr, match fid with Some f => s_flow_id kr.2 =? f | None => true end)
        (by_id (schedule (defs s))).

Definition list_skips (sid : Z) (s : Store) : list Z :=
  sort_by_key id
    (omap (λ kv, if kv.1.1 =? sid then Some kv.1.2 else None)
       (map_to_list (schedule_skip (defs s)))).

(** Fires of the schedule with a run between two times, both included. *)
Definition fire_times_of_schedule (sid from to : Z) (s : Store) : list Z :=
  omap (λ kr, if bool_decide (r_schedule_id kr.2 = Some sid)
              then opt_filter (λ t, (from <=? t) && (t <=? to)) (r_scheduled_time kr.2) else None)
    (by_id (Tables.run s)).

Record ScheduleRunMark : Type := mkMark {
  mark_id : Z;
  mark_time : option Z;
  mark_details : Map;
}.
Definition mark_of (kr : Z * RunRow) : ScheduleRunMark :=
  mkMark kr.1 (r_scheduled_time kr.2) (json_map (c_details (r_cols kr.2))).

Definition is_future (sid after : Z) (r : RunRow) : bool :=
  bool_decide (r_schedule_id r = Some sid)
  && match r_scheduled_time r with Some t => after <? t | None => false end
  && type_is "Scheduled" r.
(** The future runs of a schedule in the order of their times. *)
Definition future_rows (sid after : Z) (s : Store) : list (Z * RunRow) :=
  sort_by_key (λ kr, default 0 (r_scheduled_time kr.2))
    (List.filter (λ kr, is_future sid after kr.2) (by_id (Tables.run s))).
Definition future_run_marks (sid after : Z) (s : Store) : list ScheduleRunMark :=
  mark_of <$> future_rows sid after s.
Definition future_runs_of_schedule (sid after : Z) (s : Store) : list Run :=
  omap (join_run s) (future_rows sid after s).

(** The marks of the given runs, those that exist. *)
Definition run_marks (ids : list Z) (s : Store) : gmap Z ScheduleRunMark :=
  list_to_map (omap (λ id, (λ r, (id, mark_of (id, r))) <$> Tables.run s !! id) ids).

(** ** Chains *)

(** The walk stops after depth 50; a parent that is gone ends it. *)
Fixpoint crash_chain_from (n : nat) (id : Z) (s : Store) : list Z :=
  id :: match n, Tables.run s !! id with
        | S n', Some r =>
            match r_parent_run_id r with
            | Some p => if sql_like_prefix "crash:" (r_created_by r)
                        then crash_chain_from n' p s else []
            | None => []
            end
        | _, _ => []
        end.
Definition crash_chain (id : Z) (s : Store) : list Z := crash_chain_from 50 id s.

(** Downwards, one generation at a time: the newest run of the deepest one. *)
Definition crash_children (ids : list Z) (s : Store) : list Z :=
  ids ≫= λ p, (List.filter (λ kr, bool_decide (r_parent_run_id kr.2 = Some p)
                                   && sql_like_prefix "crash:" (r_created_by kr.2))
                  (by_id (Tables.run s))).*1.
Fixpoint crash_chain_head_from (n : nat) (ids : list Z) (s : Store) : list Z :=
  match n with
  | O => ids
  | S n' => match crash_children ids s with
            | [] => ids
            | next => crash_chain_head_from n' next s
            end
  end.
Definition crash_chain_head (id : Z) (s : Store) : Z :=
  default id (max_opt (crash_chain_head_from 50 [id] s)).

(** ** Events and backfills *)

Record RunEventContext : Type := mkRunEventContext {
  rec_external_id : Id;
  rec_name : string;
  rec_project : string;
  rec_flow_name : string;
  rec_tags : list string;
  rec_state_name : string;
}.
Definition run_event_context (id : Z) (s : Store) : option RunEventContext :=
  match Tables.run s !! id with
  | Some r =>
      match flow s !! r_flow_id r with
      | Some f => Some (mkRunEventContext (r_external_id r) (r_name r) (fl_project f) (fl_name f)
                          (json_list (r_tags r))
                          (default (default "Scheduled" (c_type (r_cols r))) (c_name (r_cols r))))
      | None => None
      end
  | None => None
  end.

Record Backfill : Type := mkBackfill {
  bf_id : Z;
  bf_external_id : Id;
  bf_flow_id : Z;
  bf_parameter : string;
  bf_start_value : string;
  bf_end_value : string;
  bf_interval_secs : f64;
  bf_concurrency : Z;
  bf_total : Z;
  bf_extra_parameters : Map;
  bf_cancelled : bool;
  bf_created_at : Z;
}.
Definition backfill_from_row (id : Z) (b : BackfillRow) : Backfill :=
  mkBackfill id (b_external_id b) (b_flow_id b) (b_parameter b) (b_start_value b) (b_end_value b)
    (b_interval_secs b) (b_concurrency b) (b_total b) (json_map (b_extra_parameters b))
    (b_cancelled b) (b_created_at b).
Definition get_backfill (id : Z) (s : Store) : option Backfill :=
  backfill_from_row id <$> backfill (defs s) !! id.

Definition backfill_rows (b : Z) (s : Store) : list RunRow :=
  (List.filter (λ kr, bool_decide (r_backfill_id kr.2 = Some b)) (by_id (Tables.run s))).*2.
Definition shown_name (r : RunRow) : string := default "Scheduled" (c_name (r_cols r)).
Definition newest_backfill_run_state (b : Z) (s : Store) : option string :=
  shown_name <$> last (backfill_rows b s).
(** [GROUP BY state_name]: the runs with no state name are a group of their own,
    shown as Scheduled. *)
Definition backfill_groups (b : Z) (s : Store) : gmap (option string) Z :=
  foldr (λ r m, let k := c_name (r_cols r) in <[k := default 0 (m !! k) + 1]> m) ∅
    (backfill_rows b s).
Definition backfill_counts (b : Z) (s : Store) : list (string * Z) :=
  (λ kn, (default "Scheduled" kn.1, kn.2)) <$> map_to_list (backfill_groups b s).

(** ** The newest run with a parameter value *)

Definition is_key_char (c : ascii) : bool :=
  let n := nat_of_ascii c in
  ((48 <=? n)%nat && (n <=? 57)%nat) || ((65 <=? n)%nat && (n <=? 90)%nat)
  || ((97 <=? n)%nat && (n <=? 122)%nat) || (n =? 95)%nat.
Definition valid_param_key (key : string) : bool :=
  negb (str_is_empty key) && (str_len key <=? 64)%nat && forallb is_key_char (chars key)
  && match key with
     | String c _ => negb ((48 <=? nat_of_ascii c)%nat && (nat_of_ascii c <=? 57)%nat)
     | EmptyString => true
     end.

Context `{ReaderEnv}.

(** [CAST(json_extract(parameters, '$.key') AS TEXT)]: SQLite has no booleans. *)
Definition sql_text (v : Value) : option string :=
  match v with
  | VNull => None
  | VBool b => Some (if b then "1" else "0")
  | VString t => Some t
  | VNumber (NInt z) => Some (dec z)
  | v => Some (sql_json_text v)
  end.
Definition has_param (key value : string) (r : RunRow) : bool :=
  match map_get key (json_map (r_parameters r)) with
  | Some v => bool_decide (sql_text v = Some value)
  | None => false
  end.

Definition latest_run_with_param (fid : Z) (key value : string) (s : Store)
    : result (option Run) StoreError :=
  if negb (valid_param_key key) then Err (Invalid ("invalid batch key " +:+ debug_str key))
  else Ok (last (runs_where (λ r, (r_flow_id r =? fid) && has_param key value r) s)).

Record LatestRunMark : Type := mkLatestRunMark {
  lm_id : Z;
  lm_state_type : string;
  lm_state_name : string;
  lm_details : Map;
}.
Definition latest_mark_of (kr : Z * RunRow) : LatestRunMark :=
  mkLatestRunMark kr.1 (default "Scheduled" (c_type (r_cols kr.2)))
    (default "Scheduled" (c_name (r_cols kr.2))) (json_map (c_details (r_cols kr.2))).
Definition mark_carries_skip (m : LatestRunMark) : bool :=
  (lm_state_name m =?s "Skipped")
  && match get_str "reason" (lm_details m) with
     | Some t => (t =?s "user") || (t =?s "upstream")
     | None => false
     end.
Definition mark_is_complete (m : LatestRunMark) : bool :=
  (lm_state_type m =?s "Completed") || (lm_state_name m =?s "Skipped").

(** Every flow asked for has an entry; rows come newest first and the first
    fills its flow's. *)
Definition fill_slot (m : gmap Z (option LatestRunMark)) (kr : Z * RunRow)
    : gmap Z (option LatestRunMark) :=
  match m !! r_flow_id kr.2 with
  | Some None => <[r_flow_id kr.2 := Some (latest_mark_of kr)]> m
  | _ => m
  end.
Definition latest_run_with_param_many (fids : list Z) (key value : string) (s : Store)
    : result (gmap Z (option LatestRunMark)) StoreError :=
  if negb (valid_param_key key) then Err (Invalid ("invalid batch key " +:+ debug_str key))
  else Ok (fold_left fill_slot
             (reverse (List.filter (λ kr, bool_decide (r_flow_id kr.2 ∈ fids) && has_param key value kr.2)
                         (by_id (Tables.run s))))
             (list_to_map ((λ f, (f, None)) <$> fids))).
End reader.

(** ** Facts about the queries *)

Lemma elem_of_by_id {A} (m : gmap Z A) k x : (k, x) ∈ by_id m ↔ m !! k = Some x.
Proof. rw /by_id elem_of_sort_by_key. apply elem_of_map_to_list. Qed.

Lemma by_id_nodup {A} (m : gmap Z A) : NoDup (by_id m).*1.
Proof. rw /by_id (fmap_Permutation _ _ _ (sort_by_key_perm _ _)). apply NoDup_fst_map_to_list. Qed.

Section queries.
Context `{StoreEnv}.

(** Every run has its flow: the foreign key of [run.flow_id]. *)
Definition runs_have_flows (s : Store) : Prop :=
  ∀ id r, Tables.run s !! id = Some r → is_Some (flow s !! r_flow_id r).

Lemma join_run_id s kr run : join_run s kr = Some run → run_id run = kr.1.
Proof. rw /join_run. destruct (flow s !! _); [by intros [= <-]|done]. Qed.
Lemma join_run_schedule s kr run :
  join_run s kr = Some run → run_schedule_id run = r_schedule_id kr.2.
Proof. rw /join_run. destruct (flow s !! _); [by intros [= <-]|done]. Qed.

(** The narrow reader of the fire path returns what the whole one would, in the
    same order: the id, the time and the state's details of each future run. *)
Lemma future_marks_agree s sid after :
  runs_have_flows s →
  future_run_marks sid after s =
  (λ run, mkMark (run_id run) (run_scheduled_time run) (state_details (Model.run_state run)))
  <$> future_runs_of_schedule sid after s.
Proof.
  intros Hfk. rw /future_run_marks /future_runs_of_schedule.
  assert (Hall : ∀ kr, kr ∈ future_rows sid after s →
            Tables.run s !! kr.1 = Some kr.2 ∧ type_is "Scheduled" kr.2 = true).
  { intros [k r] Hin. rw /future_rows elem_of_sort_by_key in Hin.
    apply list_elem_of_In, filter_In in Hin as [Hin Hf]. apply list_elem_of_In, elem_of_by_id in Hin.
    rw /is_future !andb_true_iff in Hf. naive_solver. }
  induction (future_rows sid after s) as [|[k r] l IH]; [done|].
  destruct (Hall (k, r)) as [Hr Ht]; [set_solver|]. simpl in Hr, Ht.
  destruct (Hfk _ _ Hr) as [f Hf].
  rw /= /join_run /= Hf /=. f_equal; [|apply IH; set_solver].
  rw /mark_of /=. f_equal. apply bool_decide_eq_true in Ht. rw /state_from_columns Ht //.
Qed.

(** One query for many schedules returns the group each single query would. *)
Lemma group_by_schedule (runs : list Run) (m : gmap Z (list Run)) (sid : Z) :
  fold_left (λ m run, match run_schedule_id run with
                      | Some k => <[k := default [] (m !! k) ++ [run]]> m
                      | None => m
                      end) runs m !! sid =
  match default [] (m !! sid)
        ++ List.filter (λ run, bool_decide (run_schedule_id run = Some sid)) runs with
  | [] => m !! sid
  | l => Some l
  end.
Proof.
  revert m. induction runs as [|run runs IH]; intros m; simpl.
  - rw app_nil_r. destruct (m !! sid) as [[|]|] eqn:E; rw ?E //=.
  - destruct (run_schedule_id run) as [k|] eqn:E.
    + rw IH. destruct (decide (k = sid)) as [->|Hne].
      * rw lookup_insert_eq bool_decide_true //= -app_assoc /=.
        by destruct (default [] (m !! sid)).
      * rw lookup_insert_ne // bool_decide_false //. congruence.
    + rw bool_decide_false //.
Qed.

Lemma filter_omap_schedule (s : Store) (q : Z * RunRow → bool) sid l :
  List.filter (λ run, bool_decide (run_schedule_id run = Some sid))
    (omap (join_run s) (List.filter q l)) =
  omap (join_run s) (List.filter (λ kr, bool_decide (r_schedule_id kr.2 = Some sid) && q kr) l).
Proof.
  induction l as [|kr l IH]; [done|]. simpl. destruct (q kr) eqn:Eq; simpl.
  - destruct (join_run s kr) as [run|] eqn:Ej; simpl.
    + rw (join_run_schedule _ _ _ Ej). rw andb_true_r.
      destruct (bool_decide (r_schedule_id kr.2 = Some sid)) eqn:Eb; simpl; rw ?Ej /= IH //.
    + rw IH. destruct (bool_decide _); simpl; rw ?Ej //.
  - rw andb_false_r. apply IH.
Qed.

Lemma active_runs_grouped s sids sid :
  active_runs_of_schedules sids s !! sid =
  (if bool_decide (sid ∈ sids)
   then match active_runs_of_schedule sid s with [] => None | l => Some l end else None).
Proof.
  rw /active_runs_of_schedules group_by_schedule lookup_empty /= filter_omap_schedule.
  rw /active_runs_of_schedule. destruct (decide (sid ∈ sids)) as [Hin|Hin].
  - rw bool_decide_true //.
    erewrite List.filter_ext; [done|]. intros [k r]. simpl.
    destruct (decide (r_schedule_id r = Some sid)) as [->|Hne].
    + rw !bool_decide_true //.
    + rw !bool_decide_false //.
  - rw bool_decide_false //.
    erewrite (List.filter_ext _ (λ _, false)).
    + by induction (by_id (Tables.run s)).
    + intros [k r]. simpl. destruct (decide (r_schedule_id r = Some sid)) as [->|Hne].
      * rw (bool_decide_false (sid ∈ sids)) // andb_false_r //.
      * rw !bool_decide_false //.
Qed.

(** ** Crash chains *)

(** [k] crash links lead from [a] down to [b]. *)
Inductive links (s : Store) : nat → Z → Z → Prop :=
| links_O a : links s 0 a a
| links_S n a b c r :
    links s n a b → Tables.run s !! c = Some r → r_parent_run_id r = Some b →
    sql_like_prefix "crash:" (r_created_by r) = true → links s (S n) a c.

Lemma crash_children_spec s ids c :
  c ∈ crash_children ids s ↔
  ∃ p r, p ∈ ids ∧ Tables.run s !! c = Some r ∧ r_parent_run_id r = Some p
         ∧ sql_like_prefix "crash:" (r_created_by r) = true.
Proof.
  rw /crash_children list_elem_of_bind. split.
  - intros (p & Hc & Hp). apply list_elem_of_fmap in Hc as ([k r] & -> & Hin).
    apply list_elem_of_In, filter_In in Hin as [Hin Hf]. apply list_elem_of_In, elem_of_by_id in Hin.
    apply andb_true_iff in Hf as [Hq%bool_decide_eq_true Hl]. exists p, r. naive_solver.
  - intros (p & r & Hp & Hr & Hpar & Hl). exists p. split; [|done].
    apply list_elem_of_fmap. exists (c, r). split; [done|].
    apply list_elem_of_In, filter_In. split; [by apply list_elem_of_In, elem_of_by_id|].
    rw Hl andb_true_r /=. by apply bool_decide_eq_true.
Qed.

Lemma chain_up s n a b m : links s n a b → (n ≤ m)%nat → a ∈ crash_chain_from m b s.
Proof.
  intros Hl. revert m. induction Hl as [a|n a b c r Hl IH Hr Hp Hc]; intros m Hm.
  - destruct m; simpl; set_solver.
  - destruct m as [|m]; [lia|]. simpl. rw Hr Hp Hc. apply list_elem_of_further. apply IH. lia.
Qed.

Lemma head_from_links s n d a ids :
  (∀ b, b ∈ ids → links s d a b) → ids ≠ [] →
  ∃ e, (d ≤ e ≤ d + n)%nat ∧ (∀ b, b ∈ crash_chain_head_from n ids s → links s e a b)
       ∧ crash_chain_head_from n ids s ≠ [].
Proof.
  revert d ids. induction n as [|n IH]; intros d ids Hids Hne; simpl.
  - exists d. split; [lia|]. done.
  - destruct (crash_children ids s) as [|c cs] eqn:E.
    + exists d. split; [lia|]. done.
    + destruct (IH (S d) (c :: cs)) as (e & He & Hl & Hn); [|done|by exists e; split; [lia|]].
      intros b Hb. rw -E in Hb. apply crash_children_spec in Hb as (p & r & Hp & Hr & Hpar & Hl).
      econstructor; eauto.
Qed.

Lemma max_opt_elem l m : max_opt l = Some m → m ∈ l.
Proof.
  revert m. induction l as [|x l IH]; intros m; simpl; [done|].
  destruct (max_opt l) as [k|] eqn:E; intros [= <-]; [|set_solver].
  destruct (Z.max_spec x k) as [[_ ->]|[_ ->]]; [|set_solver]. specialize (IH k eq_refl). set_solver.
Qed.
Lemma max_opt_none l : max_opt l = None → l = [].
Proof. by destruct l. Qed.

(** What is sent to a run reaches the run that continues it: the run is in the
    chain that its newest successor reads answers and messages from. *)
Lemma chain_of_head s id : id ∈ crash_chain (crash_chain_head id s) s.
Proof.
  destruct (head_from_links s 50 0 id [id]) as (e & He & Hl & Hn).
  { intros b ->%list_elem_of_singleton. constructor. }
  { done. }
  rw /crash_chain_head. destruct (max_opt _) as [h|] eqn:E; simpl.
  - apply max_opt_elem, Hl in E. eapply chain_up; [done|lia].
  - by apply max_opt_none in E.
Qed.

Lemma crash_chain_bounded s id : (1 ≤ length (crash_chain id s) ≤ 51)%nat.
Proof.
  rw /crash_chain. generalize 50%nat. intros n. split.
  - destruct n; simpl; lia.
  - revert id. assert (∀ n id, (length (crash_chain_from n id s) ≤ S n)%nat) as Hn.
    { clear. intros n. induction n as [|n IH]; intros id; simpl; [lia|].
      destruct (Tables.run s !! id) as [r|]; simpl; [|lia].
      destruct (r_parent_run_id r) as [p|]; simpl; [|lia].
      destruct (sql_like_prefix _ _); simpl; [|lia]. pose proof (IH p). lia. }
    done.
Qed.
End queries.
