(* ===== verification/StoreAdmin.v ===== *)
(** * The store's other commands (store/src/writer.rs)

    Definitions (flows, schedules, rules, variables), skips of fires, key-value
    pairs, messages to runs, backfills and expectations, and the deletions:
    runs, flows, retention and the reset.  As in [Store], a command returns the
    tables it left with its result.  [ON DELETE CASCADE] is written out in
    [delete_run_rows], [delete_schedule_rows], [delete_flow_rows_where] and
    [delete_rule_rows].

    SQLite's [json_set], [json_remove] and [json_extract] work on the text of a
    column; here they work on the map the column decodes to. *)

From S2P Require Import Prelude Float64 Json States Transitions Schedules Model GroupCommit Tables Store Reader.

(** ** Field updates of rows *)

Definition run_with_engine (pid : option Z) (eid : option string) (r : RunRow) : RunRow :=
  mkRunRow (r_external_id r) (r_flow_id r) (r_name r) (r_parameters r) (r_tags r) (r_created_at r)
    (r_created_by r) (r_schedule_id r) (r_scheduled_time r) (r_priority r) (r_parent_run_id r)
    (r_attempt r) (r_backfill_id r) (r_unique_key r) (r_report_seq r) (r_attributes r) pid eid
    (r_host r) (r_processor r) (r_lease r) (r_source_hash r) (r_cols r) (r_counters r).
Definition run_with_priority (p : Z) (r : RunRow) : RunRow :=
  mkRunRow (r_external_id r) (r_flow_id r) (r_name r) (r_parameters r) (r_tags r) (r_created_at r)
    (r_created_by r) (r_schedule_id r) (r_scheduled_time r) p (r_parent_run_id r)
    (r_attempt r) (r_backfill_id r) (r_unique_key r) (r_report_seq r) (r_attributes r)
    (r_engine_pid r) (r_engine_id r) (r_host r) (r_processor r) (r_lease r) (r_source_hash r)
    (r_cols r) (r_counters r).
Definition run_with_time (t : Z) (parameters : string) (r : RunRow) : RunRow :=
  mkRunRow (r_external_id r) (r_flow_id r) (r_name r) parameters (r_tags r) (r_created_at r)
    (r_created_by r) (r_schedule_id r) (Some t) (r_priority r) (r_parent_run_id r)
    (r_attempt r) (r_backfill_id r) (r_unique_key r) (r_report_seq r) (r_attributes r)
    (r_engine_pid r) (r_engine_id r) (r_host r) (r_processor r) (r_lease r) (r_source_hash r)
    (r_cols r) (r_counters r).
Definition run_with_lease (n : Z) (r : RunRow) : RunRow :=
  mkRunRow (r_external_id r) (r_flow_id r) (r_name r) (r_parameters r) (r_tags r) (r_created_at r)
    (r_created_by r) (r_schedule_id r) (r_scheduled_time r) (r_priority r) (r_parent_run_id r)
    (r_attempt r) (r_backfill_id r) (r_unique_key r) (r_report_seq r) (r_attributes r)
    (r_engine_pid r) (r_engine_id r) (r_host r) (r_processor r) n (r_source_hash r)
    (r_cols r) (r_counters r).
Definition run_with_details (text : string) (r : RunRow) : RunRow :=
  let c := r_cols r in
  run_with_state (mkStateCols (c_type c) (c_name c) (c_message c) text (c_timestamp c))
    (r_counters r) r.

Definition expectation_with_status (status : string) (x : ExpectationRow) : ExpectationRow :=
  mkExpectationRow (x_rule_id x) (x_key x) (x_run_id x) (x_flow_id x) (x_armed_at x) (x_deadline x)
    status.

(** ** Key-value pairs, variables and task state *)

Definition kv_set (now : Z) (key value : string) (s : Store) : Store :=
  set_kv (<[key := (value, now)]> (kv (defs s))) s.
Definition kv_delete (key : string) (s : Store) : Store * bool :=
  (set_kv (delete key (kv (defs s))) s, bool_decide (is_Some (kv (defs s) !! key))).
Definition kv_get (key : string) (s : Store) : option string := fst <$> kv (defs s) !! key.

Definition set_variable_row (now : Z) (name value tags : string) (secret : bool) (s : Store) : Store :=
  let created := match variable (defs s) !! name with Some v => v_created_at v | None => now end in
  set_variable (<[name := mkVariableTblRow value tags secret created now]> (variable (defs s))) s.
Definition delete_variable (name : string) (s : Store) : Store * bool :=
  (set_variable (delete name (variable (defs s))) s,
   bool_decide (is_Some (variable (defs s) !! name))).

(** [false] when the run is gone. *)
Definition task_state_set (now run_id : Z) (scope key value : string) (effect : option EffectMark)
    (s : Store) : Store * result bool StoreError :=
  match Tables.run s !! run_id with
  | None => (s, Ok false)
  | Some _ =>
      let s := set_task_state (<[(run_id, scope, key) := (value, now)]> (task_state (defs s))) s in
      match effect with
      | None => (s, Ok true)
      | Some mark => match record_effect now run_id mark None s with
                     | (s, Ok _) => (s, Ok true)
                     | (s, Err e) => (s, Err e)
                     end
      end
  end.
Definition task_state_delete (run_id : Z) (scope key : string) (s : Store) : Store * bool :=
  (set_task_state (delete (run_id, scope, key) (task_state (defs s))) s,
   bool_decide (is_Some (task_state (defs s) !! (run_id, scope, key)))).

(** ** Runs *)

Definition set_run_engine (run_id : Z) (pid : option Z) (eid : option string) (s : Store) : Store :=
  set_run (alter (run_with_engine pid eid) run_id (Tables.run s)) s.
Definition set_run_priority (run_id priority : Z) (s : Store) : Store :=
  set_run (alter (run_with_priority priority) run_id (Tables.run s)) s.

(** [UPDATE .. RETURNING lease]: an error when there is no such run. *)
Definition bump_lease (run_id : Z) (s : Store) : Store * option Z :=
  match Tables.run s !! run_id with
  | None => (s, None)
  | Some r =>
      let n := r_lease r + 1 in
      (set_run (<[run_id := run_with_lease n r]> (Tables.run s)) s, Some n)
  end.

Definition is_state (t : string) (r : RunRow) : bool := bool_decide (c_type (r_cols r) = Some t).

(** Move a Scheduled run's start; another run of the schedule may hold the time. *)
Definition reschedule_run (run_id t : Z) (parameters : string) (s : Store)
    : Store * result bool StoreError :=
  match Tables.run s !! run_id with
  | None => (s, Ok false)
  | Some r =>
      if negb (is_state "Scheduled" r) then (s, Ok false)
      else
        let r' := run_with_time t parameters r in
        if existsb (same_fire r') (map_to_list (delete run_id (Tables.run s))).*2 then
          (s, Err (unique_violation "run.schedule_id, run.scheduled_time"))
        else (set_run (<[run_id := r']> (Tables.run s)) s, Ok true)
  end.

Section commands.
Context `{StoreEnv}.

Fixpoint create_runs_bulk (now : Z) (cs : list CreateRun) (s : Store)
    : Store * result (list (Z * Id)) StoreError :=
  match cs with
  | [] => (s, Ok [])
  | c :: cs' =>
      match create_run now c s with
      | (s, Err e) => (s, Err e)
      | (s, Ok v) =>
          match create_runs_bulk now cs' s with
          | (s, Ok out) => (s, Ok (v :: out))
          | (s, Err e) => (s, Err e)
          end
      end
  end.

(** The same transition for many runs: what the rules refuse is passed over. *)
Fixpoint transition_many (ids : list Z) (state : State) (s : Store)
    : Store * result (list Z) StoreError :=
  match ids with
  | [] => (s, Ok [])
  | id :: ids' =>
      match transition TableRun id state false s with
      | (s, Ok _) =>
          match transition_many ids' state s with
          | (s, Ok out) => (s, Ok (id :: out))
          | (s, Err e) => (s, Err e)
          end
      | (s, Err (RejectedWith _ _)) | (s, Err (Rejected _)) | (s, Err (NotFound _)) =>
          transition_many ids' state s
      | (s, Err e) => (s, Err e)
      end
  end.

(** ** Flows *)

Record UpsertFlow : Type := mkUpsertFlow {
  uf_project : string;
  uf_name : string;
  uf_module : string;
  uf_source_dir : string;
  uf_description : option string;
  uf_tags : string;
  uf_parameter_schema : string;
  uf_options : string;
  uf_group : option string;
}.

Definition is_flow (project name : string) (f : FlowRow) : bool :=
  (fl_project f =?s project) && (fl_name f =?s name).
Definition flow_id_of (project name : string) (s : Store) : option Z :=
  head (List.filter (λ kv, is_flow project name kv.2) (map_to_list (flow s))).*1.

(** A known flow keeps its id, external id and creation time; its error is
    cleared. *)
Definition upsert_flow (now : Z) (f : UpsertFlow) (s : Store) : Store * result Z StoreError :=
  let '(s, ext) := new_id s in
  let options := if str_is_empty (uf_options f) then "{}" else uf_options f in
  let row ext created :=
    mkFlowRow ext (uf_project f) (uf_name f) (uf_module f) (uf_source_dir f) (uf_description f)
      (uf_tags f) (uf_parameter_schema f) created now None options (uf_group f) in
  match flow_id_of (uf_project f) (uf_name f) s with
  | Some id =>
      (set_flow (alter (λ old, row (fl_external_id old) (fl_created_at old)) id (flow s)) s, Ok id)
  | None =>
      if existsb (λ r, fl_external_id r =?s ext) (map_to_list (flow s)).*2 then
        (s, Err (unique_violation "flow.external_id"))
      else
        let id := next_id (flow s) in
        (set_last_rowid id (set_flow (<[id := row ext now]> (flow s)) s), Ok id)
  end.

Definition flow_with_error (e : option string) (f : FlowRow) : FlowRow :=
  mkFlowRow (fl_external_id f) (fl_project f) (fl_name f) (fl_module f) (fl_source_dir f)
    (fl_description f) (fl_tags f) (fl_parameter_schema f) (fl_created_at f) (fl_last_seen_at f) e
    (fl_options f) (fl_flow_group f).
Definition set_flow_error (flow_id : Z) (e : option string) (s : Store) : Store :=
  set_flow (alter (flow_with_error e) flow_id (flow s)) s.

(** ** Schedules *)

Record ScheduleWrite : Type := mkScheduleWrite {
  sw_id : option Z;
  sw_flow_id : Z;
  sw_spec : string;
  sw_catchup : string;
  sw_catchup_max : Z;
  sw_catchup_window : option Z;
  sw_jitter : Z;
  sw_start_deadline : option Z;
  sw_active : bool;
  sw_source : string;
  sw_code_key : option string;
  sw_persist : bool;
}.

(** An update writes neither the flow nor the pause of the row. *)
Definition update_schedule (now : Z) (w : ScheduleWrite) (r : SchedRow) : SchedRow :=
  mkSchedRow (s_external_id r) (s_flow_id r) (sw_spec w) (sw_catchup w) (sw_catchup_max w)
    (sw_catchup_window w) (sw_jitter w) (sw_start_deadline w) (sw_active w) (s_paused_reason r)
    (s_paused_until r) (sw_source w) (sw_code_key w) (sw_persist w) (s_created_at r) now.

Definition upsert_schedule (now : Z) (w : ScheduleWrite) (s : Store) : Store * result Z StoreError :=
  match sw_id w with
  | Some id => (set_schedule (alter (update_schedule now w) id (schedule (defs s))) s, Ok id)
  | None =>
      let '(s, ext) := new_id s in
      if existsb (λ r, s_external_id r =?s ext) (map_to_list (schedule (defs s))).*2 then
        (s, Err (unique_violation "schedule.external_id"))
      else if negb (bool_decide (is_Some (flow s !! sw_flow_id w))) then
        (s, Err foreign_key_violation)
      else
        let id := next_id (schedule (defs s)) in
        let row := mkSchedRow ext (sw_flow_id w) (sw_spec w) (sw_catchup w) (sw_catchup_max w)
                     (sw_catchup_window w) (sw_jitter w) (sw_start_deadline w) (sw_active w) None
                     None (sw_source w) (sw_code_key w) (sw_persist w) now now in
        (set_last_rowid id (set_schedule (<[id := row]> (schedule (defs s))) s), Ok id)
  end.

Record SchedulePatch : Type := mkSchedulePatch {
  sp_spec : option string;
  sp_catchup : option string;
  sp_catchup_max : option Z;
  sp_catchup_window : option (option Z);
  sp_jitter : option Z;
  sp_start_deadline : option (option Z);
  sp_active : option bool;
  sp_paused_reason : option (option string);
  sp_paused_until : option (option Z);
  sp_persist : option bool;
}.

(** A field that is [None] keeps its column. *)
Definition patch_row (now : Z) (p : SchedulePatch) (r : SchedRow) : SchedRow :=
  mkSchedRow (s_external_id r) (s_flow_id r)
    (default (s_spec r) (sp_spec p)) (default (s_catchup r) (sp_catchup p))
    (default (s_catchup_max r) (sp_catchup_max p))
    (default (s_catchup_window r) (sp_catchup_window p)) (default (s_jitter r) (sp_jitter p))
    (default (s_start_deadline r) (sp_start_deadline p)) (default (s_active r) (sp_active p))
    (default (s_paused_reason r) (sp_paused_reason p))
    (default (s_paused_until r) (sp_paused_until p)) (s_source r) (s_code_key r)
    (default (s_persist r) (sp_persist p)) (s_created_at r) now.
Definition patch_schedule (now id : Z) (p : SchedulePatch) (s : Store) : Store * bool :=
  (set_schedule (alter (patch_row now p) id (schedule (defs s))) s,
   bool_decide (is_Some (schedule (defs s) !! id))).

(** ** Skips *)

(** [INSERT OR IGNORE], one fire at a time; the foreign key is not ignored. *)
Fixpoint add_skips (now sid : Z) (fires : list Z) (by_ : string) (s : Store)
    : Store * result Z StoreError :=
  match fires with
  | [] => (s, Ok 0)
  | f :: fires' =>
      if negb (bool_decide (is_Some (schedule (defs s) !! sid))) then (s, Err foreign_key_violation)
      else
        let known := bool_decide (is_Some (schedule_skip (defs s) !! (sid, f))) in
        let s := if known then s
                 else set_skip (<[(sid, f) := (now, by_)]> (schedule_skip (defs s))) s in
        match add_skips now sid fires' by_ s with
        | (s, Ok n) => (s, Ok (n + if known then 0 else 1))
        | (s, Err e) => (s, Err e)
        end
  end.

Fixpoint delete_skips (sid : Z) (fires : list Z) (s : Store) : Store * Z :=
  match fires with
  | [] => (s, 0)
  | f :: fires' =>
      let known := bool_decide (is_Some (schedule_skip (defs s) !! (sid, f))) in
      let '(s, n) := delete_skips sid fires' (set_skip (delete (sid, f) (schedule_skip (defs s))) s) in
      (s, n + if known then 1 else 0)
  end.

Definition delete_skips_before (sid before : Z) (s : Store) : Store :=
  set_skip (filter (λ kv, ¬ (kv.1.1 = sid ∧ kv.1.2 ≤ before)) (schedule_skip (defs s))) s.

Definition is_skipped (sid t : Z) (s : Store) : bool :=
  bool_decide (is_Some (schedule_skip (defs s) !! (sid, t))).

(** [json_extract(state_details, '$.skip') IS NULL] *)
Definition skip_is_null (r : RunRow) : bool :=
  match map_get "skip" (json_map (c_details (r_cols r))) with
  | None | Some VNull => true
  | Some _ => false
  end.

Definition marks (sid : Z) (s : Store) (r : RunRow) : bool :=
  bool_decide (r_schedule_id r = Some sid) && is_state "Scheduled" r && is_none (r_engine_pid r)
  && skip_is_null r
  && match r_scheduled_time r with Some t => is_skipped sid t s | None => false end.
Definition unmarks (sid : Z) (s : Store) (r : RunRow) : bool :=
  bool_decide (r_schedule_id r = Some sid) && is_state "Scheduled" r && negb (skip_is_null r)
  && match r_scheduled_time r with Some t => negb (is_skipped sid t s) | None => false end.

Definition mark_run (r : RunRow) : RunRow :=
  run_with_details
    (map_to_string (map_insert "skip" (VString "user") (json_map (c_details (r_cols r))))) r.
Definition unmark_run (r : RunRow) : RunRow :=
  run_with_details (map_to_string (map_remove "skip" (json_map (c_details (r_cols r))))) r.

(** The rows a condition selects, by id. *)
Definition ids_where (p : RunRow → bool) (m : gmap Z RunRow) : list Z :=
  (List.filter (λ kv, p kv.2) (map_to_list m)).*1.
Definition update_where (p : RunRow → bool) (f : RunRow → RunRow) (m : gmap Z RunRow)
    : gmap Z RunRow := (λ r, if p r then f r else r) <$> m.

Definition sync_skip_marks (sid : Z) (s : Store) : Store * list Z :=
  let marked := ids_where (marks sid s) (Tables.run s) in
  let s := set_run (update_where (marks sid s) mark_run (Tables.run s)) s in
  let cleared := ids_where (unmarks sid s) (Tables.run s) in
  (set_run (update_where (unmarks sid s) unmark_run (Tables.run s)) s, marked ++ cleared).

(** ** Backfills *)

Record CreateBackfill : Type := mkCreateBackfill {
  cb_flow_id : Z;
  cb_parameter : string;
  cb_start_value : string;
  cb_end_value : string;
  cb_interval_secs : f64;
  cb_concurrency : Z;
  cb_total : Z;
  cb_extra_parameters : string;
}.
Definition create_backfill (now : Z) (b : CreateBackfill) (s : Store)
    : Store * result (Z * Id) StoreError :=
  let '(s, ext) := new_id s in
  if existsb (λ r, b_external_id r =?s ext) (map_to_list (backfill (defs s))).*2 then
    (s, Err (unique_violation "backfill.external_id"))
  else if negb (bool_decide (is_Some (flow s !! cb_flow_id b))) then (s, Err foreign_key_violation)
  else
    let id := next_id (backfill (defs s)) in
    let row := mkBackfillRow ext (cb_flow_id b) (cb_parameter b) (cb_start_value b)
                 (cb_end_value b) (cb_interval_secs b) (cb_concurrency b) (cb_total b)
                 (cb_extra_parameters b) false now in
    (set_last_rowid id (set_backfill (<[id := row]> (backfill (defs s))) s), Ok (id, ext)).
Definition cancel_backfill (b : BackfillRow) : BackfillRow :=
  mkBackfillRow (b_external_id b) (b_flow_id b) (b_parameter b) (b_start_value b) (b_end_value b)
    (b_interval_secs b) (b_concurrency b) (b_total b) (b_extra_parameters b) true (b_created_at b).
Definition set_backfill_cancelled (id : Z) (s : Store) : Store :=
  set_backfill (alter cancel_backfill id (backfill (defs s))) s.

(** ** Expectations and rules *)

Record ArmExpectation : Type := mkArmExpectation {
  ae_rule_id : Z;
  ae_key : string;
  ae_run_id : option Z;
  ae_flow_id : option Z;
  ae_armed_at : Z;
  ae_deadline : Z;
}.
Definition open_for (rule_id : Z) (key : string) (x : ExpectationRow) : bool :=
  (x_rule_id x =? rule_id) && (x_key x =?s key) && (x_status x =?s "open").
Definition expectations_where (p : ExpectationRow → bool) (s : Store) : list Z :=
  (List.filter (λ kv, p kv.2) (map_to_list (expectation (defs s)))).*1.

(** At most one open expectation per rule and key. *)
Definition arm_expectation (a : ArmExpectation) (s : Store) : Store * result Z StoreError :=
  match expectations_where (open_for (ae_rule_id a) (ae_key a)) s with
  | id :: _ => (s, Ok id)
  | [] =>
      if negb (bool_decide (is_Some (rule (defs s) !! ae_rule_id a))) then
        (s, Err foreign_key_violation)
      else
        let id := next_id (expectation (defs s)) in
        let row := mkExpectationRow (ae_rule_id a) (ae_key a) (ae_run_id a) (ae_flow_id a)
                     (ae_armed_at a) (ae_deadline a) "open" in
        (set_last_rowid id (set_expectation (<[id := row]> (expectation (defs s))) s), Ok id)
  end.

Definition settle_all (status : string) (p : ExpectationRow → bool) (s : Store) : Store :=
  set_expectation ((λ x, if p x then expectation_with_status status x else x)
                     <$> expectation (defs s)) s.
(** Those whose deadline has not passed at [at_] are met. *)
Definition disarm_expectations (rule_id : Z) (key : string) (at_ : Z) (s : Store) : Store * list Z :=
  let p x := open_for rule_id key x && (at_ <=? x_deadline x) in
  (settle_all "met" p s, expectations_where p s).
Definition settle_expectation (id : Z) (status : string) (s : Store) : Store * bool :=
  match expectation (defs s) !! id with
  | Some x =>
      if x_status x =?s "open" then
        (set_expectation (<[id := expectation_with_status status x]> (expectation (defs s))) s, true)
      else (s, false)
  | None => (s, false)
  end.
Definition cancel_rule_expectations (rule_id : Z) (s : Store) : Store * Z :=
  let p x := (x_rule_id x =? rule_id) && (x_status x =?s "open") in
  (settle_all "cancelled" p s, Z.of_nat (length (expectations_where p s))).

Record RuleWrite : Type := mkRuleWrite {
  rw_id : option Z;
  rw_name : string;
  rw_enabled : bool;
  rw_source : string;
  rw_module : option string;
  rw_spec : string;
}.
Definition update_rule (now : Z) (w : RuleWrite) (r : RuleTblRow) : RuleTblRow :=
  mkRuleTblRow (u_external_id r) (rw_name w) (rw_enabled w) (rw_source w) (rw_module w) (rw_spec w)
    (u_fire_count r) (u_last_fired r) (u_created_at r) now.
Definition upsert_rule (now : Z) (w : RuleWrite) (s : Store) : Store * result Z StoreError :=
  match rw_id w with
  | Some id => (set_rule (alter (update_rule now w) id (rule (defs s))) s, Ok id)
  | None =>
      let '(s, ext) := new_id s in
      if existsb (λ r, u_external_id r =?s ext) (map_to_list (rule (defs s))).*2 then
        (s, Err (unique_violation "rule.external_id"))
      else
        let id := next_id (rule (defs s)) in
        let row := mkRuleTblRow ext (rw_name w) (rw_enabled w) (rw_source w) (rw_module w)
                     (rw_spec w) 0 None now now in
        (set_last_rowid id (set_rule (<[id := row]> (rule (defs s))) s), Ok id)
  end.

Definition count_firing (now : Z) (r : RuleTblRow) : RuleTblRow :=
  mkRuleTblRow (u_external_id r) (u_name r) (u_enabled r) (u_source r) (u_module r) (u_spec r)
    (u_fire_count r + 1) (Some now) (u_created_at r) (u_updated_at r).
Definition record_firing (now rule_id : Z) (event_id run_id : option Z) (outcomes : string)
    (s : Store) : Store * result Z StoreError :=
  if negb (bool_decide (is_Some (rule (defs s) !! rule_id))) then (s, Err foreign_key_violation)
  else
    let id := next_id (rule_firing (defs s)) in
    let s := set_last_rowid id
      (set_firing (<[id := mkFiringRow rule_id event_id run_id now outcomes]> (rule_firing (defs s))) s) in
    (set_rule (alter (count_firing now) rule_id (rule (defs s))) s, Ok id).
Definition update_firing (id : Z) (outcomes : string) (s : Store) : Store :=
  set_firing (alter (λ g, mkFiringRow (g_rule_id g) (g_event_id g) (g_run_id g) (g_timestamp g)
    outcomes) id (rule_firing (defs s))) s.

(** ** Messages to runs *)

Definition run_message_insert (now run_id : Z) (topic payload : string) (s : Store)
    : Store * result unit StoreError :=
  if negb (bool_decide (is_Some (Tables.run s !! run_id))) then (s, Err foreign_key_violation)
  else
    let n := message_seq (defs s) + 1 in
    (set_last_rowid n
       (set_message (<[n := mkMessageRow run_id topic payload now None]> (run_message (defs s))) n s),
     Ok tt).

Definition run_message_list (run_id : Z) (s : Store) : list (string * string) :=
  (λ km, (m_topic km.2, m_payload km.2))
  <$> List.filter (λ km, (m_run_id km.2 =? run_id) && is_none (m_consumed_at km.2))
        (by_id (run_message (defs s))).

Definition input_key (run_id : Z) : string := "run.input:" +:+ dec run_id.

(** [value.get(k)]: nothing outside an object. *)
Definition value_get (k : string) (v : Value) : option Value := and_then (as_object v) (map_get k).

(** The answers a run has stored, by the index of the question. *)
Definition answers_of (raw : string) : option Map :=
  and_then (value_from_str raw) (λ v, and_then (value_get "answers" v) as_object).

(** An answer stored at the index, by this run first and then by each run it
    continues, nearest first; one to another topic is passed over. *)
Fixpoint stored_answer (topic index : string) (chain : list Z) (s : Store) : option Value :=
  match chain with
  | [] => None
  | id :: chain' =>
      match and_then (and_then (kv_get (input_key id) s) answers_of) (map_get index) with
      | Some answer =>
          if default "input" (and_then (value_get "topic" answer) as_str) =?s topic
          then Some answer else stored_answer topic index chain' s
      | None => stored_answer topic index chain' s
      end
  end.

(** The oldest message on the topic that no run has taken. *)
Definition pending_message (topic : string) (chain : list Z) (s : Store) : option (Z * MessageRow) :=
  head (List.filter (λ km, bool_decide (m_run_id km.2 ∈ chain) && (m_topic km.2 =?s topic)
                           && is_none (m_consumed_at km.2)) (by_id (run_message (defs s)))).

Definition consume (now : Z) (m : MessageRow) : MessageRow :=
  mkMessageRow (m_run_id m) (m_topic m) (m_payload m) (m_created_at m) (Some now).

Definition answer_value (topic : string) (input : Value) : Value :=
  VObject [("input", input); ("topic", VString topic)].
Definition answers_value (answers : Map) : string :=
  value_to_string (VObject [("answers", VObject answers); ("v", VNumber (NInt 2))]).

(** An answer already given, else the next message, which becomes the answer
    at this index. *)
Definition run_message_claim (now run_id : Z) (topic : string) (index : Z) (queued_only : bool)
    (s : Store) : Store * option string :=
  let chain := crash_chain run_id s in
  match (if queued_only then None else stored_answer topic (dec index) chain s) with
  | Some answer => (s, Some (value_to_string answer))
  | None =>
      match pending_message topic chain s with
      | None => (s, None)
      | Some (n, m) =>
          let s := set_message (<[n := consume now m]> (run_message (defs s))) (message_seq (defs s)) s in
          let answers := default [] (and_then (kv_get (input_key run_id) s) answers_of) in
          let input := default (VString (m_payload m)) (value_from_str (m_payload m)) in
          let answer := answer_value topic input in
          let s := kv_set now (input_key run_id)
                     (answers_value (map_insert (dec index) answer answers)) s in
          (s, Some (value_to_string answer))
      end
  end.
End commands.

(** ** Deletion *)

(** Task runs of deleted runs, for the cascade. *)
Definition task_runs_of (gone : Z → bool) (s : Store) : gset Z :=
  list_to_set (List.filter (λ kt, gone (t_run_id kt.2)) (map_to_list (task_run s))).*1.

(** [DELETE FROM run] with its cascades. *)
Definition delete_run_rows (gone : Z → bool) (s : Store) : Store :=
  let tasks := task_runs_of gone s in
  let s := set_run (filter (λ kr, gone kr.1 = false) (Tables.run s)) s in
  let s := set_run_state (filter (λ x, gone x.2.1 = false) (Tables.run_state s)) s in
  let s := set_task_run (filter (λ kt, gone (t_run_id kt.2) = false) (task_run s)) s in
  let s := set_task_run_state (filter (λ x, x.2.1 ∉ tasks) (task_run_state s)) s in
  let s := set_once (task_run_once s ∖ tasks) s in
  let s := set_log (filter (λ x, gone (l_run_id x.2) = false) (log s)) s in
  let s := set_artifact (filter (λ x, gone (ar_run_id x.2) = false) (artifact s)) s in
  let s := set_effect (filter (λ x, gone (ef_run_id x.2) = false) (effect s)) s in
  let s := set_message (filter (λ km, gone (m_run_id km.2) = false) (run_message (defs s)))
             (message_seq (defs s)) s in
  set_task_state (filter (λ kt, gone kt.1.1.1 = false) (task_state (defs s))) s.

Definition delete_run (run_id : Z) (s : Store) : Store * bool :=
  (delete_run_rows (Z.eqb run_id) s, bool_decide (is_Some (Tables.run s !! run_id))).

Definition unstarted (sid : Z) (r : RunRow) : bool :=
  bool_decide (r_schedule_id r = Some sid) && is_state "Scheduled" r && is_none (r_engine_pid r).
Definition delete_unstarted_runs (sid : Z) (s : Store) : Store * list Z :=
  let ids := ids_where (unstarted sid) (Tables.run s) in
  (delete_run_rows (λ id, bool_decide (id ∈ ids)) s, ids).

Definition delete_schedule_rows (gone : Z → SchedRow → bool) (s : Store) : Store :=
  let kept := filter (λ kr, gone kr.1 kr.2 = false) (schedule (defs s)) in
  let skips := filter (λ kv, is_Some (kept !! kv.1.1)) (schedule_skip (defs s)) in
  set_skip skips (set_schedule kept s).
(** The runs go first: [run.schedule_id] is not a foreign key. *)
Definition delete_schedule (sid : Z) (s : Store) : Store * bool :=
  let '(s, _) := delete_unstarted_runs sid s in
  (delete_schedule_rows (λ id _, id =? sid) s, bool_decide (is_Some (schedule (defs s) !! sid))).

(** [ON DELETE SET NULL] of [agent.flow_id]. *)
Definition drop_agent_flow (gone : Z → bool) (a : AgentTblRow) : AgentTblRow :=
  mkAgentTblRow (a_external_id a) (a_project a) (a_name a) (a_source a) (a_enabled a) (a_definition a)
    (opt_filter (λ f, negb (gone f)) (a_flow_id a)) (a_created_at a) (a_updated_at a).
(** [DELETE FROM flow] with its cascades: runs, schedules and backfills. *)
Definition delete_flow_rows_where (gone : Z → bool) (s : Store) : Store :=
  let runs := ids_where (λ r, gone (r_flow_id r)) (Tables.run s) in
  let s := delete_run_rows (λ id, bool_decide (id ∈ runs)) s in
  let s := delete_schedule_rows (λ _ r, gone (s_flow_id r)) s in
  let s := set_backfill (filter (λ kb, gone (b_flow_id kb.2) = false) (backfill (defs s))) s in
  let s := set_agent (drop_agent_flow gone <$> agent (registry (defs s))) (agent_seq (registry (defs s))) s in
  set_flow (filter (λ kf, gone kf.1 = false) (flow s)) s.
Definition delete_flow (fid : Z) (s : Store) : Store * bool :=
  (delete_flow_rows_where (Z.eqb fid) s, bool_decide (is_Some (flow s !! fid))).

Definition delete_rule_rows (gone : Z → RuleTblRow → bool) (s : Store) : Store :=
  let kept := filter (λ kr, gone kr.1 kr.2 = false) (rule (defs s)) in
  let s := set_rule kept s in
  let s := set_firing (filter (λ kg, is_Some (kept !! g_rule_id kg.2)) (rule_firing (defs s))) s in
  set_expectation (filter (λ kx, is_Some (kept !! x_rule_id kx.2)) (expectation (defs s))) s.
Definition delete_rule (id : Z) (s : Store) : Store * bool :=
  (delete_rule_rows (λ k _, k =? id) s, bool_decide (is_Some (rule (defs s) !! id))).
Definition prune_code_rules (keep : list Z) (s : Store) : Store * Z :=
  let gone k r := (u_source r =?s "code") && negb (bool_decide (k ∈ keep)) in
  (delete_rule_rows gone s,
   Z.of_nat (length (List.filter (λ kr, gone kr.1 kr.2) (map_to_list (rule (defs s)))))).

(** *** Retention *)

(** Rows of a log or event table older than a time, the first [limit] by id. *)
Definition expired_ids {A} (timestamp : A → Z) (before : Z) (limit : nat) (rows : list (Z * A)) : list Z :=
  take limit (List.filter (λ x, timestamp x.2 <? before) rows).*1.
Definition delete_expired_logs (before : Z) (limit : nat) (s : Store) : Store * nat :=
  let ids := expired_ids l_timestamp before limit (log s) in
  (set_log (filter (λ x, x.1 ∉ ids) (log s)) s, length ids).
Definition delete_expired_events (before : Z) (limit : nat) (s : Store) : Store * nat :=
  let ids := expired_ids er_timestamp before limit (event s) in
  (set_event (filter (λ x, x.1 ∉ ids) (event s)) s, length ids).
Definition delete_expired (table : string) (before : Z) (limit : nat) (s : Store)
    : Store * result nat StoreError :=
  if table =?s "event" then let '(s, n) := delete_expired_events before limit s in (s, Ok n)
  else if table =?s "log" then let '(s, n) := delete_expired_logs before limit s in (s, Ok n)
  else (s, Err (Invalid ("retention does not apply to " +:+ table))).

Definition row_is_terminal (r : RunRow) : bool :=
  match c_type (r_cols r) with Some t => bool_decide (t ∈ TERMINAL) | None => false end.
Definition row_age (r : RunRow) : Z :=
  default (default (r_created_at r) (c_timestamp (r_cols r))) (end_time (r_counters r)).
(** Not cancelled, with a run that has not ended; a NULL state is not counted. *)
Definition backfill_live (b : Z) (s : Store) : bool :=
  match backfill (defs s) !! b with
  | Some row =>
      negb (b_cancelled row)
      && existsb (λ r, bool_decide (r_backfill_id r = Some b)
                       && match c_type (r_cols r) with
                          | Some t => negb (bool_decide (t ∈ TERMINAL))
                          | None => false
                          end) (map_to_list (Tables.run s)).*2
  | None => false
  end.
(** The newest [keep] terminal runs of a flow. *)
Definition kept_runs (fid : Z) (keep : nat) (s : Store) : list Z :=
  take keep (reverse (List.filter (λ kr, (r_flow_id kr.2 =? fid) && row_is_terminal kr.2)
                        (by_id (Tables.run s))).*1).
Definition expired (before failed_before : Z) (keep : nat) (s : Store) (kr : Z * RunRow) : bool :=
  let r := kr.2 in
  row_is_terminal r
  && (row_age r <? if is_state "Failed" r || is_state "Crashed" r then failed_before else before)
  && match r_backfill_id r with Some b => negb (backfill_live b s) | None => true end
  && negb (bool_decide (kr.1 ∈ kept_runs (r_flow_id r) keep s)).

(** The kv rows a run leaves behind when it is deleted with its answers. *)
Definition run_kv_keys (id : Z) : list string :=
  ["run.input:" +:+ dec id; "run.effects:" +:+ dec id; "run.lineage:" +:+ dec id].
Definition delete_run_kv (ids : list Z) (s : Store) : Store :=
  set_kv (filter (λ kv, kv.1 ∉ (ids ≫= run_kv_keys)) (kv (defs s))) s.

Definition delete_expired_runs (before failed_before keep_per_flow : Z) (limit : nat) (s : Store)
    : Store * list (Z * Z * string) :=
  let keep := Z.to_nat (Z.max keep_per_flow 0) in
  let gone := take limit (List.filter (expired before failed_before keep s) (by_id (Tables.run s))) in
  let out := (λ kr, (kr.1, r_flow_id kr.2, default "" (c_type (r_cols kr.2)))) <$> gone in
  (delete_run_rows (λ id, bool_decide (id ∈ gone.*1)) (delete_run_kv gone.*1 s), out).

(** *** Flows of a project, and the reset *)

Record DeletedCounts : Type := mkDeletedCounts {
  dc_flows : Z;
  dc_runs : Z;
  dc_task_runs : Z;
  dc_logs : Z;
  dc_events : Z;
  dc_artifacts : Z;
  dc_schedules : Z;
  dc_backfills : Z;
  dc_rules : Z;
  dc_variables : Z;
}.
Definition count_rows {A} (p : A → bool) (l : list A) : Z := Z.of_nat (length (List.filter p l)).

Definition event_of_flow (gone : Z → bool) (e : EventRow) : bool :=
  match er_flow_id e with Some f => gone f | None => false end.

Definition delete_flows (fids : list Z) (s : Store) : Store * DeletedCounts :=
  let gone f := bool_decide (f ∈ fids) in
  let runs := ids_where (λ r, gone (r_flow_id r)) (Tables.run s) in
  let of_run id := bool_decide (id ∈ runs) in
  let out := mkDeletedCounts
    (count_rows (λ kf, gone kf.1) (map_to_list (flow s)))
    (count_rows (λ kr, gone (r_flow_id kr.2)) (map_to_list (Tables.run s)))
    (count_rows (λ kt, of_run (t_run_id kt.2)) (map_to_list (task_run s)))
    (count_rows (λ x, of_run (l_run_id x.2)) (log s))
    (count_rows (λ x, event_of_flow gone x.2) (event s))
    (count_rows (λ x, of_run (ar_run_id x.2)) (artifact s))
    (count_rows (λ kr, gone (s_flow_id kr.2)) (map_to_list (schedule (defs s))))
    (count_rows (λ kb, gone (b_flow_id kb.2)) (map_to_list (backfill (defs s)))) 0 0 in
  let s := delete_run_kv runs s in
  let drop x := match x_flow_id x with Some f => gone f | None => false end
                || match x_run_id x with Some r => of_run r | None => false end in
  let s := set_expectation (filter (λ kx, drop kx.2 = false) (expectation (defs s))) s in
  let s := set_event (filter (λ x, event_of_flow gone x.2 = false) (event s)) s in
  (delete_flow_rows_where gone s, out).

Inductive ResetScope : Type :=
| History
| Everything.

Definition run_kv_prefixes : list string := ["run.input:"; "run.effects:"; "run.lineage:"].
Definition forget_firings (r : RuleTblRow) : RuleTblRow :=
  mkRuleTblRow (u_external_id r) (u_name r) (u_enabled r) (u_source r) (u_module r) (u_spec r)
    0 None (u_created_at r) (u_updated_at r).
(** What every reset deletes; the rows the cascades take are those of deleted
    runs and task runs: effects, messages, task state and the once marks. *)
Definition reset_history (s : Store) : Store :=
  let s := delete_run_rows (λ _, true) s in
  let s := set_event [] (set_firing ∅ (set_expectation ∅ (set_backfill ∅ s))) in
  let s := set_kv (filter (λ kv, existsb (λ p, sql_like_prefix p kv.1) run_kv_prefixes = false)
                     (kv (defs s))) s in
  set_rule (forget_firings <$> rule (defs s)) s.

Definition clock_keys (s : Store) : list string :=
  (λ id, "rules.clock_last:" +:+ dec id)
  <$> (List.filter (λ kr, negb (u_source kr.2 =?s "code")) (map_to_list (rule (defs s)))).*1.
Definition reset_definitions (live : list Z) (s : Store) : Store :=
  let s := delete_flow_rows_where (λ f, negb (bool_decide (f ∈ live))) s in
  let s := delete_schedule_rows (λ _ r, negb (s_source r =?s "code")) s in
  let s := set_kv (filter (λ kv, kv.1 ∉ clock_keys s) (kv (defs s))) s in
  let s := delete_rule_rows (λ _ r, negb (u_source r =?s "code")) s in
  set_variable ∅ s.

Definition reset (scope : ResetScope) (live : list Z) (s : Store) : Store * DeletedCounts :=
  let s' := reset_history s in
  let all {A} (l : list A) := Z.of_nat (length l) in
  let history := mkDeletedCounts 0
    (all (map_to_list (Tables.run s))) (all (map_to_list (task_run s))) (all (log s))
    (all (event s)) (all (artifact s)) 0 (all (map_to_list (backfill (defs s)))) 0 0 in
  match scope with
  | History => (s', history)
  | Everything =>
      let gone f := negb (bool_decide (f ∈ live)) in
      (reset_definitions live s',
       mkDeletedCounts (count_rows (λ kf, gone kf.1) (map_to_list (flow s)))
         (dc_runs history) (dc_task_runs history) (dc_logs history) (dc_events history)
         (dc_artifacts history)
         (count_rows (λ kr, negb (s_source kr.2 =?s "code") || gone (s_flow_id kr.2))
            (map_to_list (schedule (defs s))))
         (dc_backfills history)
         (count_rows (λ kr, negb (u_source kr.2 =?s "code")) (map_to_list (rule (defs s))))
         (all (map_to_list (variable (defs s)))))
  end.
