(* ===== verification/StoreRegistry.v ===== *)
(** * Workers, agents and the rest of the writer (store/src/workers.rs, store/src/agents.rs, store/src/manage.rs)

    The registry of remote workers with the flows each may run, the agents of
    the interface with the calls approved for good, the lease a run is handed
    out under, and the writer's remaining commands: the merge of attributes,
    the clearing of checkpoints, batches of events, and the deletion of a
    project's rows in batches.

    [json_patch] works on the map the column decodes to; the order in which
    SQLite writes the keys of an object is left out, since every reader
    decodes the column.  The closures these files send to the writer run under
    its savepoint like any command. *)

From S2P Require Import Prelude Float64 Json States Transitions Schedules Model GroupCommit Tables Store Reader.
From S2P Require Import StoreAdmin.

(** ** [json_patch], RFC 7396 *)

Fixpoint merge_patch (target patch : Value) {struct patch} : Value :=
  match patch with
  | VObject pm =>
      VObject ((fix go (pm : Map) (m : Map) {struct pm} : Map :=
                  match pm with
                  | [] => m
                  | (k, v) :: pm' =>
                      go pm' (match v with
                              | VNull => map_remove k m
                              | _ => map_insert k (merge_patch (default VNull (map_get k m)) v) m
                              end)
                  end) pm (default [] (as_object target)))
  | _ => patch
  end.

(** ** Runs *)

Definition run_with_attributes (text : string) (r : RunRow) : RunRow :=
  mkRunRow (r_external_id r) (r_flow_id r) (r_name r) (r_parameters r) (r_tags r) (r_created_at r)
    (r_created_by r) (r_schedule_id r) (r_scheduled_time r) (r_priority r) (r_parent_run_id r)
    (r_attempt r) (r_backfill_id r) (r_unique_key r) (r_report_seq r) text
    (r_engine_pid r) (r_engine_id r) (r_host r) (r_processor r) (r_lease r) (r_source_hash r)
    (r_cols r) (r_counters r).
Definition run_with_placement (host : string) (processor : option Z) (hash : option string) (n : Z)
    (r : RunRow) : RunRow :=
  mkRunRow (r_external_id r) (r_flow_id r) (r_name r) (r_parameters r) (r_tags r) (r_created_at r)
    (r_created_by r) (r_schedule_id r) (r_scheduled_time r) (r_priority r) (r_parent_run_id r)
    (r_attempt r) (r_backfill_id r) (r_unique_key r) (r_report_seq r) (r_attributes r)
    (r_engine_pid r) (r_engine_id r) (Some host) processor n (or_else hash (r_source_hash r))
    (r_cols r) (r_counters r).
Definition task_without_result (t : TaskRow) : TaskRow :=
  mkTaskRow (t_external_id t) (t_run_id t) (t_name t) (t_task_key t) (t_dynamic_key t) (t_created_at t)
    (t_parents t) (t_pass t) None (t_input_hash t) (t_cols t) (t_counters t).

Definition malformed_json : StoreError := Sqlite false "malformed JSON".
Definition no_rows : StoreError := Sqlite false "Query returned no rows".

Section commands.
Context `{StoreEnv}.

Definition merge_run_attributes (now run_id : Z) (patch : string) (effect : option EffectMark) (s : Store)
    : Store * result bool StoreError :=
  match Tables.run s !! run_id with
  | None => (s, Ok false)
  | Some r =>
      match value_from_str (r_attributes r), value_from_str patch with
      | Some t, Some p =>
          let text := value_to_string (merge_patch t p) in
          let s := set_run (<[run_id := run_with_attributes text r]> (Tables.run s)) s in
          match effect with
          | None => (s, Ok true)
          | Some mark => match record_effect now run_id mark None s with
                         | (s, Ok _) => (s, Ok true)
                         | (s, Err e) => (s, Err e)
                         end
          end
      | _, _ => (s, Err malformed_json)
      end
  end.

(** [claim_run]: where a run executes, and its next lease. *)
Definition claim_run (run_id : Z) (host : string) (processor : option Z) (hash : option string) (s : Store)
    : Store * result Z StoreError :=
  match Tables.run s !! run_id with
  | None => (s, Err no_rows)
  | Some r =>
      let n := r_lease r + 1 in
      (set_run (<[run_id := run_with_placement host processor hash n r]> (Tables.run s)) s, Ok n)
  end.
Definition run_lease (run_id : Z) (s : Store) : option Z := r_lease <$> Tables.run s !! run_id.

(** Results of runs that ended before a time; the rows stay. *)
Definition ended_before (before run_id : Z) (s : Store) : bool :=
  match Tables.run s !! run_id with
  | Some r => row_is_terminal r
              && match end_time (r_counters r) with Some t => t <? before | None => false end
  | None => false
  end.
Definition checkpoint_cleared (before : Z) (s : Store) (t : TaskRow) : bool :=
  is_some (t_result_ref t) && ended_before before (t_run_id t) s.
Definition clear_checkpoints_before (before : Z) (s : Store) : Store * nat :=
  (set_task_run ((λ t, if checkpoint_cleared before s t then task_without_result t else t) <$> task_run s) s,
   length (List.filter (checkpoint_cleared before s) (map_to_list (task_run s)).*2)).

Fixpoint append_events (now : Z) (events : list NewEvent) (s : Store)
    : Store * result (list (Event * Id)) StoreError :=
  match events with
  | [] => (s, Ok [])
  | e :: events' =>
      match append_event now e s with
      | (s, Err e) => (s, Err e)
      | (s, Ok out) =>
          match append_events now events' s with
          | (s, Ok outs) => (s, Ok (out :: outs))
          | (s, Err e) => (s, Err e)
          end
      end
  end.
Definition append_event_with_effect (now : Z) (e : NewEvent) (effect : option EffectMark) (s : Store)
    : Store * result (Event * Id) StoreError :=
  match append_event now e s with
  | (s, Err e) => (s, Err e)
  | (s, Ok out) =>
      match effect, ne_run_id e with
      | Some mark, Some rid =>
          match record_effect now rid mark None s with
          | (s, Ok _) => (s, Ok out)
          | (s, Err e) => (s, Err e)
          end
      | _, _ => (s, Ok out)
      end
  end.

(** ** A project's rows, in batches *)

Inductive FlowRows : Type := FlowLog | FlowEvent.
Definition flow_of_log (fids : list Z) (s : Store) (x : Z * LogRow) : bool :=
  match Tables.run s !! l_run_id x.2 with
  | Some r => bool_decide (r_flow_id r ∈ fids)
  | None => false
  end.
Definition flow_of_event (fids : list Z) (x : Z * EventRow) : bool :=
  match er_flow_id x.2 with Some f => bool_decide (f ∈ fids) | None => false end.
Definition delete_flow_rows (rows : FlowRows) (fids : list Z) (limit : nat) (s : Store) : Store * nat :=
  match rows with
  | FlowLog =>
      let ids := take limit (List.filter (flow_of_log fids s) (log s)).*1 in
      (set_log (filter (λ x, x.1 ∉ ids) (log s)) s, length ids)
  | FlowEvent =>
      let ids := take limit (List.filter (flow_of_event fids) (event s)).*1 in
      (set_event (filter (λ x, x.1 ∉ ids) (event s)) s, length ids)
  end.

(** The loop over batches; [rounds] bounds it. *)
Fixpoint delete_rows_loop (rounds : nat) (rows : FlowRows) (fids : list Z) (batch : nat) (total : Z)
    (s : Store) : Store * Z :=
  match rounds with
  | O => (s, total)
  | S rounds' =>
      let '(s, n) := delete_flow_rows rows fids batch s in
      let total := total + Z.of_nat n in
      if (n <? batch)%nat then (s, total) else delete_rows_loop rounds' rows fids batch total s
  end.
Definition add_rows (logs events : Z) (c : DeletedCounts) : DeletedCounts :=
  mkDeletedCounts (dc_flows c) (dc_runs c) (dc_task_runs c) (dc_logs c + logs) (dc_events c + events)
    (dc_artifacts c) (dc_schedules c) (dc_backfills c) (dc_rules c) (dc_variables c).
(** One batch removes at least one row or is the last. *)
Definition rounds_for {A} (l : list A) : nat := S (length l).
Definition delete_flows_batched (fids : list Z) (batch : nat) (s : Store) : Store * DeletedCounts :=
  let '(s, logs) := delete_rows_loop (rounds_for (log s)) FlowLog fids batch 0 s in
  let '(s, events) := delete_rows_loop (rounds_for (event s)) FlowEvent fids batch 0 s in
  let '(s, out) := delete_flows fids s in
  (s, add_rows logs events out).

(** ** Workers *)

Record Worker : Type := mkWorker {
  wk_id : Z;
  wk_name : string;
  wk_version : string;
  wk_cpus : Z;
  wk_processors : Z;
  wk_labels : Map;
  wk_shared_paths : list string;
  wk_meta : Map;
  wk_state : string;
  wk_registered_at : Z;
  wk_last_seen_at : Z;
}.
Definition worker_from_row (id : Z) (w : WorkerTblRow) : Worker :=
  mkWorker id (w_name w) (w_version w) (w_cpus w) (w_processors w) (json_map (w_labels w))
    (json_list (w_shared_paths w)) (json_map (w_meta w)) (w_state w) (w_registered_at w)
    (w_last_seen_at w).

Record WorkerRegistration : Type := mkWorkerRegistration {
  wr_name : string;
  wr_version : string;
  wr_cpus : Z;
  wr_processors : Z;
  wr_labels : Map;
  wr_shared_paths : list string;
  wr_meta : Map;
}.

Definition workers_of (s : Store) : gmap Z WorkerTblRow := worker (registry (defs s)).
Definition worker_named (name : string) (s : Store) : option (Z * WorkerTblRow) :=
  find (λ kw, w_name kw.2 =?s name) (map_to_list (workers_of s)).
Definition get_worker (id : Z) (s : Store) : option Worker := worker_from_row id <$> workers_of s !! id.

(** [INSERT .. ON CONFLICT (name) DO UPDATE]: a worker that is draining stays so. *)
Definition registered_row (now : Z) (w : WorkerRegistration) (old : option WorkerTblRow) : WorkerTblRow :=
  mkWorkerTblRow (wr_name w) (wr_version w) (wr_cpus w) (wr_processors w) (map_to_string (wr_labels w))
    (strings_to_string (wr_shared_paths w)) (map_to_string (wr_meta w))
    (match old with
     | Some o => if w_state o =?s "draining" then "draining" else "online"
     | None => "online"
     end)
    (match old with Some o => w_registered_at o | None => now end) now.
Definition register_worker_row (now : Z) (w : WorkerRegistration) (s : Store) : Store * Z :=
  let old := worker_named (wr_name w) s in
  let id := match old with Some (id, _) => id | None => next_id (workers_of s) end in
  (set_worker (<[id := registered_row now w (snd <$> old)]> (workers_of s)) s, id).

Definition set_worker_flows (wid : Z) (flows : list (Z * string)) (s : Store)
    : Store * result unit StoreError :=
  let m := filter (λ kv, kv.1.1 ≠ wid) (worker_flow (registry (defs s))) in
  match flows with
  | [] => (set_worker_flow m s, Ok tt)
  | _ =>
      if bool_decide (is_Some (workers_of s !! wid))
      then (set_worker_flow (fold_left (λ m fh, <[(wid, fh.1) := fh.2]> m) flows m) s, Ok tt)
      else (s, Err foreign_key_violation)
  end.

Definition touched_row (now : Z) (meta : Map) (w : WorkerTblRow) : WorkerTblRow :=
  mkWorkerTblRow (w_name w) (w_version w) (w_cpus w) (w_processors w) (w_labels w) (w_shared_paths w)
    (map_to_string (fold_left (λ m kv, map_insert kv.1 kv.2 m) meta (json_map (w_meta w))))
    (if w_state w =?s "offline" then "online" else w_state w) (w_registered_at w) now.
Definition touch_worker (now wid : Z) (meta : Map) (s : Store) : Store :=
  set_worker (alter (touched_row now meta) wid (workers_of s)) s.

Definition row_with_state (st : string) (w : WorkerTblRow) : WorkerTblRow :=
  mkWorkerTblRow (w_name w) (w_version w) (w_cpus w) (w_processors w) (w_labels w) (w_shared_paths w)
    (w_meta w) st (w_registered_at w) (w_last_seen_at w).
Definition row_with_processors (n : Z) (w : WorkerTblRow) : WorkerTblRow :=
  mkWorkerTblRow (w_name w) (w_version w) (w_cpus w) n (w_labels w) (w_shared_paths w)
    (w_meta w) (w_state w) (w_registered_at w) (w_last_seen_at w).
Definition set_worker_state (wid : Z) (st : string) (s : Store) : Store * bool :=
  (set_worker (alter (row_with_state st) wid (workers_of s)) s,
   bool_decide (is_Some (workers_of s !! wid))).
Definition set_worker_processors (wid n : Z) (s : Store) : Store * bool :=
  (set_worker (alter (row_with_processors n) wid (workers_of s)) s,
   bool_decide (is_Some (workers_of s !! wid))).
Definition delete_worker (wid : Z) (s : Store) : Store * bool :=
  let known := bool_decide (is_Some (workers_of s !! wid)) in
  let s := set_worker_flow (filter (λ kv, kv.1.1 ≠ wid) (worker_flow (registry (defs s)))) s in
  (set_worker (delete wid (workers_of s)) s, known).

(** [ORDER BY name] *)
Definition worker_le (a b : Worker) : Prop := String.leb (wk_name a) (wk_name b) = true.
#[local] Instance worker_le_dec : RelDecision worker_le.
Proof using Type. intros a b. rw /worker_le. apply _. Defined.
Definition list_workers (s : Store) : list Worker :=
  stable_sort worker_le ((λ kw, worker_from_row kw.1 kw.2) <$> by_id (workers_of s)).
Definition all_worker_flows (s : Store) : list (Z * Z * string) :=
  map_to_list (worker_flow (registry (defs s))).
Definition worker_flow_details (wid : Z) (s : Store) : list (Z * string * string * string) :=
  omap (λ kh, if kh.1.1 =? wid
              then (λ f, (kh.1.2, fl_source_dir f, fl_module f, kh.2)) <$> flow s !! kh.1.2
              else None) (map_to_list (worker_flow (registry (defs s)))).
Definition worker_flow_counts (s : Store) : gmap Z Z :=
  foldr (λ kh m, <[kh.1.1 := default 0 (m !! kh.1.1) + 1]> m) ∅ (map_to_list (worker_flow (registry (defs s)))).

(** ** Where runs executed *)

Record HostRun : Type := mkHostRun {
  hr_id : Z;
  hr_flow : string;
  hr_processor : option Z;
  hr_state : option string;
  hr_start : option Z;
  hr_end : option Z;
}.
Definition host_run (kr : Z * RunRow) (f : FlowRow) : HostRun :=
  mkHostRun kr.1 (fl_name f) (r_processor kr.2) (c_type (r_cols kr.2)) (start_time (r_counters kr.2))
    (end_time (r_counters kr.2)).
Definition runs_on_host (host : string) (since : Z) (limit : nat) (s : Store) : list HostRun :=
  take limit (sort_by_key (λ h, default 0 (hr_start h))
    (omap (λ kr, if bool_decide (r_host kr.2 = Some host) && is_some (start_time (r_counters kr.2))
                    && match end_time (r_counters kr.2) with Some t => since <=? t | None => true end
                 then host_run kr <$> flow s !! r_flow_id kr.2 else None) (by_id (Tables.run s)))).

Record HostFlowCounts : Type := mkHostFlowCounts {
  hc_flow : string;
  hc_completed : Z;
  hc_failed : Z;
  hc_crashed : Z;
  hc_cancelled : Z;
  hc_running : Z;
  hc_last_completed_at : option Z;
}.
Definition count_state (ts : list string) (rs : list HostRun) : Z :=
  count_rows (λ h, match hr_state h with Some t => bool_decide (t ∈ ts) | None => false end) rs.
Definition host_counts (flow : string) (rs : list HostRun) : HostFlowCounts :=
  mkHostFlowCounts flow (count_state ["Completed"] rs) (count_state ["Failed"] rs)
    (count_state ["Crashed"] rs) (count_state ["Cancelled"] rs) (count_state ["Running"; "Cancelling"] rs)
    (max_opt (omap (λ h, if bool_decide (hr_state h = Some "Completed") then hr_end h else None) rs)).
(** [GROUP BY f.name ORDER BY COUNT( * ) DESC, f.name] *)
Definition group_le (a b : string * list HostRun) : Prop :=
  (if (length a.2 =? length b.2)%nat then String.leb a.1 b.1 else (length b.2 <? length a.2)%nat) = true.
#[local] Instance group_le_dec : RelDecision group_le.
Proof using Type. intros a b. rw /group_le. apply _. Defined.
Definition started_on (host : string) (since : Z) (s : Store) : list HostRun :=
  omap (λ kr, if bool_decide (r_host kr.2 = Some host)
                 && match start_time (r_counters kr.2) with Some t => since <=? t | None => false end
              then host_run kr <$> flow s !! r_flow_id kr.2 else None) (by_id (Tables.run s)).
Definition runs_by_flow_on_host (host : string) (since : Z) (limit : nat) (s : Store)
    : list HostFlowCounts :=
  let runs := started_on host since s in
  let groups := (λ name, (name, List.filter (λ h, hr_flow h =?s name) runs))
                <$> remove_dups (hr_flow <$> runs) in
  (λ g, host_counts g.1 g.2) <$> take limit (stable_sort group_le groups).

(** ** Agents *)

Record AgentRow : Type := mkAgentRow {
  ag_id : Z;
  ag_external_id : Id;
  ag_project : string;
  ag_name : string;
  ag_source : string;
  ag_enabled : bool;
  ag_flow_id : option Z;
  ag_definition : Value;
  ag_created_at : Z;
  ag_updated_at : Z;
}.
Definition agent_from_row (id : Z) (a : AgentTblRow) : AgentRow :=
  mkAgentRow id (a_external_id a) (a_project a) (a_name a) (a_source a) (a_enabled a) (a_flow_id a)
    (default VNull (value_from_str (a_definition a))) (a_created_at a) (a_updated_at a).
Definition agents_of (s : Store) : gmap Z AgentTblRow := agent (registry (defs s)).
Definition get_agent (id : Z) (s : Store) : option AgentRow := agent_from_row id <$> agents_of s !! id.

(** [ORDER BY project, name] *)
Definition agent_le (a b : AgentRow) : Prop :=
  (if ag_project a =?s ag_project b then String.leb (ag_name a) (ag_name b)
   else String.leb (ag_project a) (ag_project b)) = true.
#[local] Instance agent_le_dec : RelDecision agent_le.
Proof using Type. intros a b. rw /agent_le. apply _. Defined.
Definition list_agents (s : Store) : list AgentRow :=
  stable_sort agent_le ((λ ka, agent_from_row ka.1 ka.2) <$> by_id (agents_of s)).

Record AgentWrite : Type := mkAgentWrite {
  aw_id : option Z;
  aw_project : string;
  aw_name : string;
  aw_source : string;
  aw_enabled : bool;
  aw_definition : string;
}.
Definition same_agent (project name : string) (a : AgentTblRow) : bool :=
  (a_project a =?s project) && (a_name a =?s name).
Definition rewritten_agent (now : Z) (w : AgentWrite) (a : AgentTblRow) : AgentTblRow :=
  mkAgentTblRow (a_external_id a) (aw_project w) (aw_name w) (aw_source w) (aw_enabled w)
    (aw_definition w) (a_flow_id a) (a_created_at a) now.
Definition agent_answer (id : Z) (s : Store) : Store * result AgentRow StoreError :=
  (s, match get_agent id s with Some a => Ok a | None => Err (NotFound "agent") end).
Definition agent_taken (project name : string) (m : gmap Z AgentTblRow) : bool :=
  existsb (same_agent project name) (map_to_list m).*2.
Definition upsert_agent (now : Z) (w : AgentWrite) (s : Store) : Store * result AgentRow StoreError :=
  match aw_id w with
  | Some id =>
      if is_some (agents_of s !! id) && agent_taken (aw_project w) (aw_name w) (delete id (agents_of s))
      then (s, Err (unique_violation "agent.project, agent.name"))
      else agent_answer id (set_agent (alter (rewritten_agent now w) id (agents_of s))
                              (agent_seq (registry (defs s))) s)
  | None =>
      if agent_taken (aw_project w) (aw_name w) (agents_of s) then
        (s, Err (Invalid ("an agent named " +:+ aw_project w +:+ "/" +:+ aw_name w +:+ " already exists")))
      else
        let '(s, ext) := new_id s in
        let id := agent_seq (registry (defs s)) + 1 in
        agent_answer id (set_last_rowid id (set_agent (<[id := mkAgentTblRow ext (aw_project w) (aw_name w)
          (aw_source w) (aw_enabled w) (aw_definition w) None now now]> (agents_of s)) id s))
  end.

Definition agent_with_flow (f : option Z) (a : AgentTblRow) : AgentTblRow :=
  mkAgentTblRow (a_external_id a) (a_project a) (a_name a) (a_source a) (a_enabled a) (a_definition a)
    f (a_created_at a) (a_updated_at a).
Definition set_agent_flow (id : Z) (f : option Z) (s : Store) : Store * result unit StoreError :=
  if is_some (agents_of s !! id)
     && match f with Some f => is_none (flow s !! f) | None => false end
  then (s, Err foreign_key_violation)
  else (set_agent (alter (agent_with_flow f) id (agents_of s)) (agent_seq (registry (defs s))) s, Ok tt).

Definition approvals_of (s : Store) : gmap Z ApprovalTblRow := remembered_approval (registry (defs s)).
(** The approvals go with their agent. *)
Definition delete_agent (id : Z) (s : Store) : Store * bool :=
  let known := bool_decide (is_Some (agents_of s !! id)) in
  let s := set_approval (filter (λ kp, p_agent_id kp.2 ≠ id) (approvals_of s)) (approval_seq (registry (defs s))) s in
  (set_agent (delete id (agents_of s)) (agent_seq (registry (defs s))) s, known).

Record ApprovalRow : Type := mkApprovalRow {
  ap_id : Z;
  ap_agent_id : Z;
  ap_tool : string;
  ap_args_hash : string;
  ap_args : Value;
  ap_first_run_id : option Z;
  ap_created_at : Z;
}.
Definition approval_from_row (id : Z) (p : ApprovalTblRow) : ApprovalRow :=
  mkApprovalRow id (p_agent_id p) (p_tool p) (p_args_hash p) (default VNull (value_from_str (p_args p)))
    (p_first_run_id p) (p_created_at p).
Definition list_approvals (aid : Z) (s : Store) : list ApprovalRow :=
  (λ kp, approval_from_row kp.1 kp.2)
  <$> List.filter (λ kp, p_agent_id kp.2 =? aid) (by_id (approvals_of s)).
Definition same_approval (aid : Z) (tool hash : string) (p : ApprovalTblRow) : bool :=
  (p_agent_id p =? aid) && (p_tool p =?s tool) && (p_args_hash p =?s hash).
Definition find_approval (aid : Z) (tool hash : string) (s : Store) : option ApprovalRow :=
  (λ kp, approval_from_row kp.1 kp.2)
  <$> find (λ kp, same_approval aid tool hash kp.2) (by_id (approvals_of s)).
(** [INSERT OR IGNORE]: a foreign key is not ignored. *)
Definition add_approval (now aid : Z) (tool hash args : string) (first_run : option Z) (s : Store)
    : Store * result ApprovalRow StoreError :=
  match find_approval aid tool hash s with
  | Some a => (s, Ok a)
  | None =>
      if is_none (agents_of s !! aid) then (s, Err foreign_key_violation)
      else
        let id := approval_seq (registry (defs s)) + 1 in
        let row := mkApprovalTblRow aid tool hash args first_run now in
        (set_last_rowid id (set_approval (<[id := row]> (approvals_of s)) id s), Ok (approval_from_row id row))
  end.
Definition delete_approval (aid id : Z) (s : Store) : Store * bool :=
  let hit p := p_agent_id p =? aid in
  match approvals_of s !! id with
  | Some p => if hit p then (set_approval (delete id (approvals_of s)) (approval_seq (registry (defs s))) s, true)
              else (s, false)
  | None => (s, false)
  end.

(** ** Projects and counts *)

Record ProjectRow : Type := mkProjectRow {
  pj_name : string;
  pj_flow_ids : list Z;
  pj_last_run_at : option Z;
}.
(** [Option::max], where [None] is least. *)
Definition opt_max (a b : option Z) : option Z :=
  match a, b with Some x, Some y => Some (Z.max x y) | Some x, None => Some x | None, b => b end.
Definition last_start (fid : Z) (s : Store) : option Z :=
  max_opt (omap (λ kr, if r_flow_id kr.2 =? fid then start_time (r_counters kr.2) else None)
             (by_id (Tables.run s))).
(** [ORDER BY project, id] *)
Definition project_le (a b : Z * FlowRow) : Prop :=
  (if fl_project a.2 =?s fl_project b.2 then a.1 <=? b.1 else String.leb (fl_project a.2) (fl_project b.2)) = true.
#[local] Instance project_le_dec : RelDecision project_le.
Proof using Type. intros a b. rw /project_le. apply _. Defined.
(** Rows of one project are adjacent. *)
Definition add_project (s : Store) (out : list ProjectRow) (kf : Z * FlowRow) : list ProjectRow :=
  let last_run := last_start kf.1 s in
  match reverse out with
  | p :: rest =>
      if pj_name p =?s fl_project kf.2
      then reverse rest ++ [mkProjectRow (pj_name p) (pj_flow_ids p ++ [kf.1]) (opt_max (pj_last_run_at p) last_run)]
      else out ++ [mkProjectRow (fl_project kf.2) [kf.1] last_run]
  | [] => [mkProjectRow (fl_project kf.2) [kf.1] last_run]
  end.
Definition list_projects (s : Store) : list ProjectRow :=
  fold_left (add_project s) (stable_sort project_le (map_to_list (flow s))) [].

Record ProjectCounts : Type := mkProjectCounts {
  pc_flows : Z;
  pc_runs : Z;
  pc_schedules : Z;
  pc_backfills : Z;
  pc_events : Z;
  pc_active_runs : Z;
}.
Definition project_counts (project : string) (s : Store) : ProjectCounts :=
  let fids := (List.filter (λ kf, fl_project kf.2 =?s project) (map_to_list (flow s))).*1 in
  let mine f := bool_decide (f ∈ fids) in
  let runs := (map_to_list (Tables.run s)).*2 in
  mkProjectCounts (Z.of_nat (length fids)) (count_rows (λ r, mine (r_flow_id r)) runs)
    (count_rows (λ r, mine (s_flow_id r)) (map_to_list (schedule (defs s))).*2)
    (count_rows (λ b, mine (b_flow_id b)) (map_to_list (backfill (defs s))).*2)
    (count_rows (λ e, match er_flow_id e with Some f => mine f | None => false end) (event s).*2)
    (count_rows (λ r, mine (r_flow_id r)
                      && match c_type (r_cols r) with
                         | Some t => bool_decide (t ∈ ["Pending"; "Running"; "Paused"; "Cancelling"])
                         | None => false
                         end) runs).

Record TableCounts : Type := mkTableCounts {
  tc_runs : Z;
  tc_task_runs : Z;
  tc_logs : Z;
  tc_events : Z;
  tc_artifacts : Z;
  tc_variables : Z;
  tc_ui_rules : Z;
  tc_ui_schedules : Z;
}.
Definition table_counts (s : Store) : TableCounts :=
  mkTableCounts (Z.of_nat (size (Tables.run s))) (Z.of_nat (size (task_run s)))
    (Z.of_nat (length (log s))) (Z.of_nat (length (event s))) (Z.of_nat (length (artifact s)))
    (Z.of_nat (size (variable (defs s))))
    (count_rows (λ r, negb (u_source r =?s "code")) (map_to_list (rule (defs s))).*2)
    (count_rows (λ r, negb (s_source r =?s "code")) (map_to_list (schedule (defs s))).*2).
End commands.
