(* ===== verification/Integrity.v ===== *)
(** * References between the store's tables (store/migrations/, store/src/writer.rs)

    Every foreign key of the schema holds after any sequence of the writer's
    commands: creations check the row they point at, deletions take the rows
    that point at what they delete. *)

From S2P Require Import Prelude Float64 Json States Transitions Schedules Model GroupCommit Tables Store.
From S2P Require Import Reader StoreAdmin StoreRegistry.

(** One field per [REFERENCES] clause. *)
Record fk_ok (s : Store) : Prop := {
  fk_run id r : Tables.run s !! id = Some r → is_Some (flow s !! r_flow_id r);
  fk_run_state x : x ∈ Tables.run_state s → is_Some (Tables.run s !! x.2.1);
  fk_task id t : task_run s !! id = Some t → is_Some (Tables.run s !! t_run_id t);
  fk_task_state x : x ∈ task_run_state s → is_Some (task_run s !! x.2.1);
  fk_once id : id ∈ task_run_once s → is_Some (task_run s !! id);
  fk_log x : x ∈ log s → is_Some (Tables.run s !! l_run_id x.2);
  fk_artifact x : x ∈ artifact s → is_Some (Tables.run s !! ar_run_id x.2);
  fk_effect x : x ∈ effect s → is_Some (Tables.run s !! ef_run_id x.2);
  fk_message n m : run_message (defs s) !! n = Some m → is_Some (Tables.run s !! m_run_id m);
  fk_tstate k v : task_state (defs s) !! k = Some v → is_Some (Tables.run s !! k.1.1);
  fk_schedule id r : schedule (defs s) !! id = Some r → is_Some (flow s !! s_flow_id r);
  fk_skip k v : schedule_skip (defs s) !! k = Some v → is_Some (schedule (defs s) !! k.1);
  fk_backfill id b : backfill (defs s) !! id = Some b → is_Some (flow s !! b_flow_id b);
  fk_firing id g : rule_firing (defs s) !! id = Some g → is_Some (rule (defs s) !! g_rule_id g);
  fk_expectation id x : expectation (defs s) !! id = Some x → is_Some (rule (defs s) !! x_rule_id x);
  fk_worker_flow k h : worker_flow (registry (defs s)) !! k = Some h →
                       is_Some (worker (registry (defs s)) !! k.1);
  fk_agent id a f : agent (registry (defs s)) !! id = Some a → a_flow_id a = Some f → is_Some (flow s !! f);
  fk_approval id p : remembered_approval (registry (defs s)) !! id = Some p →
                     is_Some (agent (registry (defs s)) !! p_agent_id p);
}.

(** ** Generic steps *)

(** Split an [fk_ok] goal; the tables a step leaves alone are closed by the
    hypothesis of the same table. *)
Ltac fk_split Hs := destruct Hs; split; simpl; try done.

Lemma is_Some_insert {A} (m : gmap Z A) i j x : is_Some (m !! j) → is_Some (<[i := x]> m !! j).
Proof. destruct (decide (i = j)) as [->|]; [rw lookup_insert_eq; eauto|rw lookup_insert_ne //]. Qed.
Lemma is_Some_alter {A} (f : A → A) (m : gmap Z A) i j :
  is_Some (m !! j) → is_Some (alter f i m !! j).
Proof. by rw lookup_alter_is_Some. Qed.
#[local] Hint Resolve is_Some_insert is_Some_alter : core.

Lemma alter_rows {A B} (g : A → B) (f : A → A) (m : gmap Z A) i (P : B → Prop) :
  (∀ r, g (f r) = g r) → (∀ j r, m !! j = Some r → P (g r)) →
  ∀ j r, alter f i m !! j = Some r → P (g r).
Proof.
  intros Hf Hm j r. rw lookup_alter. destruct (decide (i = j)) as [<-|]; [|by apply Hm].
  destruct (m !! i) as [r0|] eqn:E; [|done]. intros [= <-]. rw Hf. by eapply Hm.
Qed.
Lemma fmap_rows {A B} (g : A → B) (f : A → A) (m : gmap Z A) (P : B → Prop) :
  (∀ r, g (f r) = g r) → (∀ j r, m !! j = Some r → P (g r)) →
  ∀ j r, (f <$> m) !! j = Some r → P (g r).
Proof.
  intros Hf Hm j r. rw lookup_fmap. destruct (m !! j) as [r0|] eqn:E; [|done].
  intros [= <-]. rw Hf. by eapply Hm.
Qed.
Lemma insert_rows {A B} (g : A → B) (m : gmap Z A) i x (P : B → Prop) :
  P (g x) → (∀ j r, m !! j = Some r → P (g r)) → ∀ j r, <[i := x]> m !! j = Some r → P (g r).
Proof.
  intros Hx Hm j r. destruct (decide (i = j)) as [->|].
  - rw lookup_insert_eq. by intros [= <-].
  - rw lookup_insert_ne //. apply Hm.
Qed.

(** ** Runs, states and what hangs off a run *)

Section integrity.
Context `{StoreEnv}.

Lemma fk_run_rows s f :
  (∀ r, r_flow_id (f r) = r_flow_id r) → ∀ i, fk_ok s → fk_ok (set_run (alter f i (Tables.run s)) s).
Proof using Type.
  intros Hf i Hs. fk_split Hs; eauto.
  by eapply (alter_rows r_flow_id f _ i (λ x, is_Some (flow s !! x))).
Qed.
Lemma fk_task_rows s f :
  (∀ r, t_run_id (f r) = t_run_id r) → ∀ i, fk_ok s → fk_ok (set_task_run (alter f i (task_run s)) s).
Proof using Type.
  intros Hf i Hs. fk_split Hs; eauto.
  by eapply (alter_rows t_run_id f _ i (λ x, is_Some (Tables.run s !! x))).
Qed.

Lemma fk_transition t id st force s : fk_ok s → fk_ok (transition t id st force s).1.
Proof using Type.
  intros Hs. rw /transition. destruct (read_state t id s) as [[cols n]|] eqn:Er; [|done].
  destruct (resolved _ _) as [acc|]; [|done].
  destruct t; simpl in Er; [destruct (Tables.run s !! id) eqn:Ex|destruct (task_run s !! id) eqn:Ex];
    try done; clear Er.
  - pose proof (fk_run_rows s (run_with_state (cols_of acc) (apply (read_counters n) acc))
                  (λ _, eq_refl) id Hs) as H1.
    rw /append_history /write_checkpoint /write_state. fk_split H1.
    intros x [Hx| ->%list_elem_of_singleton]%elem_of_app; simpl; [by apply fk_run_state0|].
    rw lookup_alter_eq Ex. eauto.
  - pose proof (fk_task_rows s (task_with_state (cols_of acc) (apply (read_counters n) acc))
                  (λ _, eq_refl) id Hs) as H1.
    assert (H2 : fk_ok (write_checkpoint TableTaskRun id acc (write_state TableTaskRun id
              (cols_of acc) (apply (read_counters n) acc) s))).
    { rw /write_checkpoint. destruct (checkpoint_of acc) as [[a b]|]; [|done].
      by apply (fk_task_rows _ (task_with_checkpoint a b)). }
    rw /append_history. fk_split H2.
    intros x [Hx| ->%list_elem_of_singleton]%elem_of_app; simpl; [by apply fk_task_state0|].
    rw /write_checkpoint /write_state. destruct (checkpoint_of acc) as [[a b]|]; simpl;
      rw ?lookup_alter_eq Ex; simpl; eauto.
Qed.

Lemma fk_drawn s n : fk_ok s → fk_ok (set_drawn n s).
Proof using Type. intros Hs. by fk_split Hs. Qed.
Lemma fk_rowid s n : fk_ok s → fk_ok (set_last_rowid n s).
Proof using Type. intros Hs. by fk_split Hs. Qed.
Lemma fk_kv s m : fk_ok s → fk_ok (set_kv m s).
Proof using Type. intros Hs. by fk_split Hs. Qed.

Lemma fk_insert_run row s : fk_ok s → fk_ok (insert_run row s).1.
Proof using Type.
  intros Hs. rw /insert_run. destruct (existsb _ _); [done|]. destruct (existsb _ _); [done|].
  case_bool_decide as Hf; [|done]. simpl. apply fk_rowid. fk_split Hs; eauto.
  by eapply (insert_rows r_flow_id _ _ _ (λ x, is_Some (flow s !! x))).
Qed.
Lemma fk_create_run now c s : fk_ok s → fk_ok (create_run now c s).1.
Proof using Type.
  intros Hs. rw /create_run /new_id. destruct (and_then _ _); [done|].
  match goal with |- context [insert_run ?row ?s0] =>
    pose proof (fk_insert_run row s0 (fk_drawn _ _ Hs)) as H1;
    destruct (insert_run row s0) as [s1 [id|e]]; [|done] end. simpl in H1.
  destruct (cr_initial_state c) as [st|]; [|done].
  pose proof (fk_transition TableRun id st false s1 H1) as H2.
  by destruct (transition TableRun id st false s1) as [s2 []].
Qed.

Lemma task_run_id_lookup ext s id :
  task_run_id_by_external ext s = Some id → is_Some (task_run s !! id).
Proof using Type.
  rw /task_run_id_by_external. destruct (List.find _ _) as [[k t]|] eqn:E; [|done]. intros [= <-].
  apply find_some in E as [Hin _]. apply list_elem_of_In, elem_of_map_to_list in Hin. eauto.
Qed.

Lemma fk_create_task_run now c s : fk_ok s → fk_ok (create_task_run now c s).1.
Proof using Type.
  intros Hs. rw /create_task_run. set (x := match ct_external_id c with Some e => _ | None => _ end).
  assert (Hx : fk_ok x.1) by (rw /x /new_id; destruct (ct_external_id c); [done|by apply fk_drawn]).
  destruct x as [s0 ext]. simpl in Hx.
  assert (H1 : ∀ row, fk_ok (insert_task_run row s0).1 ∧
    ∀ id s1, insert_task_run row s0 = (s1, Ok id) → is_Some (task_run s1 !! id)).
  { intros row. rw /insert_task_run. destruct (task_run_id_by_external _ _) as [k|] eqn:Ek.
    - split; [done|]. intros id s1 [= <- <-]. by apply task_run_id_lookup in Ek.
    - destruct (existsb _ _); [done|]. case_bool_decide; [|done]. simpl. split.
      + apply fk_rowid. fk_split Hx; eauto.
        by eapply (insert_rows t_run_id _ _ _ (λ x, is_Some (Tables.run s0 !! x))).
      + intros id s1 [= <- <-]. rw /= lookup_insert_eq. eauto. }
  destruct (H1 (task_row now ext c)) as [H2 H3].
  destruct (insert_task_run (task_row now ext c) s0) as [s1 [id|e]]; [|done]. simpl in H2.
  specialize (H3 _ _ eq_refl). destruct (ct_once c && _); simpl; [|done].
  rw /mark_once. case_bool_decide; [done|]. simpl. apply fk_rowid. fk_split H2. set_solver.
Qed.

Lemma fk_logs logs c s : fk_ok s → fk_ok (append_logs_loop logs c s).1.1.
Proof using Type.
  revert c s; induction logs as [|l logs IH]; intros c s Hs; simpl; [done|].
  destruct (log_task_run_id l c s) as [c1 task]. rw /insert_log. case_bool_decide; [|done].
  simpl. apply IH, fk_rowid. fk_split Hs.
  intros x [Hx| ->%list_elem_of_singleton]%elem_of_app; auto.
Qed.
Lemma fk_event now e s : fk_ok s → fk_ok (append_event now e s).1.
Proof using Type.
  intros Hs. rw /append_event /new_id /insert_event. destruct (existsb _ _); simpl; [by apply fk_drawn|].
  apply fk_rowid. by fk_split Hs.
Qed.
Lemma fk_effect_cmd now id mark ref s : fk_ok s → fk_ok (record_effect now id mark ref s).1.
Proof using Type.
  intros Hs. rw /record_effect. destruct (existsb _ _); simpl.
  - fk_split Hs. intros x (y & -> & Hy)%list_elem_of_fmap. case_match; simpl; auto.
  - case_bool_decide; [|done]. apply fk_rowid. fk_split Hs.
    intros x [Hx| ->%list_elem_of_singleton]%elem_of_app; auto.
Qed.

Lemma fk_update_artifact id f s :
  (∀ r, ar_run_id (f r) = ar_run_id r) → fk_ok s →
  fk_ok (set_artifact (update_artifact id f (artifact s)) s).
Proof using Type.
  intros Hf Hs. fk_split Hs. intros x (y & -> & Hy)%list_elem_of_fmap.
  destruct (y.1 =? id); simpl; [rw Hf|]; auto.
Qed.
Lemma fk_artifact_row now a s : fk_ok s → fk_ok (upsert_artifact_row now a s).1.
Proof using Type.
  intros Hs. rw /upsert_artifact_row. destruct (keyed_artifact a s); simpl;
    [by apply fk_update_artifact|].
  set (x := match ua_external_id a with Some e => _ | None => _ end).
  assert (Hx : fk_ok x.1) by (rw /x /new_id; destruct (ua_external_id a); [done|by apply fk_drawn]).
  destruct x as [s0 ext]. simpl in Hx. destruct (List.find _ _) as [[id row]|]; simpl;
    [by apply fk_update_artifact|].
  case_bool_decide; [|done]. apply fk_rowid. fk_split Hx.
  intros y [Hy| ->%list_elem_of_singleton]%elem_of_app; auto.
Qed.
Lemma fk_upsert_artifact now a s : fk_ok s → fk_ok (upsert_artifact now a s).1.
Proof using Type.
  intros Hs. rw /upsert_artifact. pose proof (fk_artifact_row now a s Hs) as H1.
  destruct (upsert_artifact_row now a s) as [s1 [id|]]; [|done]. simpl in H1.
  destruct (ua_effect a) as [mark|]; [|done].
  match goal with |- context [record_effect ?n ?r ?m ?f s1] =>
    pose proof (fk_effect_cmd n r m f s1 H1) as H2; by destruct (record_effect n r m f s1) as [s2 []] end.
Qed.

Lemma fk_report now rid events s : fk_ok s → fk_ok (apply_report now rid events s).1.
Proof using Type.
  apply report_keeps; eauto using fk_create_task_run, fk_transition, fk_logs, fk_event,
    fk_effect_cmd, fk_upsert_artifact.
  intros n s' Hs. by apply (fk_run_rows s' (run_with_seq n)).
Qed.

(** ** Deletions *)

Lemma lookup_kept {A} (P : Z * A → Prop) `{!∀ x, Decision (P x)} (m : gmap Z A) i x :
  m !! i = Some x → P (i, x) → is_Some (filter P m !! i).
Proof using Type. intros Hm HP. exists x. by apply map_lookup_filter_Some. Qed.

Lemma fk_delete_runs gone s : fk_ok s → fk_ok (delete_run_rows gone s).
Proof using Type.
  intros Hs.
  assert (Hkeep : ∀ id, is_Some (Tables.run s !! id) → gone id = false →
            is_Some (filter (λ kr : Z * RunRow, gone kr.1 = false) (Tables.run s) !! id)).
  { intros id [r Hr] Hg. by eapply lookup_kept. }
  assert (Htask : ∀ id t, task_run s !! id = Some t → id ∉ task_runs_of gone s →
            is_Some (filter (λ kt : Z * TaskRow, gone (t_run_id kt.2) = false) (task_run s) !! id)).
  { intros id t Ht Hn. eapply lookup_kept; [done|]. simpl. destruct (gone (t_run_id t)) eqn:E; [|done].
    destruct Hn. rw /task_runs_of elem_of_list_to_set. apply list_elem_of_fmap. exists (id, t).
    split; [done|]. apply list_elem_of_In, filter_In. split; [|done].
    by apply list_elem_of_In, elem_of_map_to_list. }
  destruct Hs. split; simpl; try done.
  - intros id r [Hr _]%map_lookup_filter_Some. eauto.
  - intros x [Hg Hx]%list_elem_of_filter. eauto.
  - intros id t [Ht Hg]%map_lookup_filter_Some. eauto.
  - intros x [Hg Hx]%list_elem_of_filter. destruct (fk_task_state0 x Hx) as [t Ht]. eauto.
  - intros id [Hid Hg]%elem_of_difference. destruct (fk_once0 id Hid) as [t Ht]. eauto.
  - intros x [Hg Hx]%list_elem_of_filter. eauto.
  - intros x [Hg Hx]%list_elem_of_filter. eauto.
  - intros x [Hg Hx]%list_elem_of_filter. eauto.
  - intros n m [Hm Hg]%map_lookup_filter_Some. eauto.
  - intros k v [Hk Hg]%map_lookup_filter_Some. eauto.
Qed.

Lemma fk_delete_schedules gone s : fk_ok s → fk_ok (delete_schedule_rows gone s).
Proof using Type.
  intros Hs. fk_split Hs.
  - intros id r [Hr _]%map_lookup_filter_Some. eauto.
  - intros k v [_ Hk]%map_lookup_filter_Some. done.
Qed.

Lemma ids_where_spec p m id :
  id ∈ ids_where p m ↔ ∃ r, m !! id = Some r ∧ p r = true.
Proof using Type.
  rw /ids_where list_elem_of_fmap. split.
  - intros ([k r] & -> & Hin). apply list_elem_of_In, filter_In in Hin as [Hin Hp].
    apply list_elem_of_In, elem_of_map_to_list in Hin. eauto.
  - intros (r & Hr & Hp). exists (id, r). split; [done|]. apply list_elem_of_In, filter_In.
    split; [|done]. by apply list_elem_of_In, elem_of_map_to_list.
Qed.

(** Flows whose runs are gone may go. *)
Lemma fk_drop_flows gone s :
  fk_ok s → (∀ id r, Tables.run s !! id = Some r → gone (r_flow_id r) = false) →
  let s2 := delete_schedule_rows (λ _ r, gone (s_flow_id r)) s in
  let s3 := set_backfill (filter (λ kb, gone (b_flow_id kb.2) = false) (backfill (defs s2))) s2 in
  let s4 := set_agent (drop_agent_flow gone <$> agent (registry (defs s3))) (agent_seq (registry (defs s3))) s3 in
  fk_ok (set_flow (filter (λ kf, gone kf.1 = false) (flow s4)) s4).
Proof using Type.
  intros Hs Hr s2 s3 s4. pose proof (fk_delete_schedules (λ _ r, gone (s_flow_id r)) s Hs) as H2.
  assert (Hkeep : ∀ f, is_Some (flow s !! f) → gone f = false →
    is_Some (filter (λ kf : Z * FlowRow, gone kf.1 = false) (flow s) !! f)).
  { intros f [r Hf] Hg. by eapply lookup_kept. }
  destruct H2. split; simpl; try done.
  - intros id r Hid. apply Hkeep; eauto.
  - intros id r Hid. pose proof Hid as [_ Hg]%map_lookup_filter_Some. eauto.
  - intros id b [Hb Hg]%map_lookup_filter_Some. eauto.
  - intros id a f. rw lookup_fmap. intros (a0 & Ha & ->)%fmap_Some. rw /drop_agent_flow /=.
    destruct (a_flow_id a0) as [f0|] eqn:E; [|done]. simpl. destruct (gone f0) eqn:Eg; [done|].
    intros [= <-]. apply Hkeep; eauto.
  - intros id p Hp. rw lookup_fmap. destruct (fk_approval0 id p Hp) as [a Ha]. rw Ha. eauto.
Qed.

Lemma run_after_delete gone s :
  Tables.run (delete_run_rows gone s) = filter (λ kr, gone kr.1 = false) (Tables.run s).
Proof using Type. done. Qed.

Lemma fk_delete_flows gone s : fk_ok s → fk_ok (delete_flow_rows_where gone s).
Proof using Type.
  intros Hs. rw /delete_flow_rows_where. apply fk_drop_flows; [by apply fk_delete_runs|].
  intros id r Hr. rw run_after_delete in Hr.
  apply map_lookup_filter_Some in Hr as [Hr Hn]. apply bool_decide_eq_false in Hn.
  destruct (gone (r_flow_id r)) eqn:E; [|done]. destruct Hn. apply ids_where_spec. eauto.
Qed.

Lemma fk_delete_rules gone s : fk_ok s → fk_ok (delete_rule_rows gone s).
Proof using Type.
  intros Hs. fk_split Hs.
  - intros id g [_ Hk]%map_lookup_filter_Some. done.
  - intros id x [_ Hk]%map_lookup_filter_Some. done.
Qed.

Lemma fk_events s l : fk_ok s → fk_ok (set_event l s).
Proof using Type. intros Hs. by fk_split Hs. Qed.
Lemma fk_sublogs s P `{!∀ x, Decision (P x)} : fk_ok s → fk_ok (set_log (filter P (log s)) s).
Proof using Type. intros Hs. fk_split Hs. intros x [_ Hx]%list_elem_of_filter. eauto. Qed.

Lemma fk_variable s m : fk_ok s → fk_ok (set_variable m s).
Proof using Type. intros Hs. by fk_split Hs. Qed.

Lemma fk_reset_history s : fk_ok s → fk_ok (reset_history s).
Proof using Type.
  intros Hs. rw /reset_history.
  assert (H1 : fk_ok (delete_run_rows (λ _, true) s)) by by apply fk_delete_runs.
  generalize dependent (delete_run_rows (λ _, true) s). clear. intros s Hs. by fk_split Hs.
Qed.
Lemma fk_reset_definitions live s : fk_ok s → fk_ok (reset_definitions live s).
Proof using Type.
  intros Hs. rw /reset_definitions.
  apply fk_variable, fk_delete_rules, fk_kv, fk_delete_schedules. by apply fk_delete_flows.
Qed.
Lemma fk_reset scope live s : fk_ok s → fk_ok (reset scope live s).1.
Proof using Type.
  intros Hs%fk_reset_history. rw /reset. cbv zeta.
  by destruct scope; cbn [fst]; [|apply fk_reset_definitions].
Qed.

(** ** The other commands *)

Lemma fk_schedule_rows f i s :
  (∀ r, s_flow_id (f r) = s_flow_id r) → fk_ok s →
  fk_ok (set_schedule (alter f i (schedule (defs s))) s).
Proof using Type.
  intros Hf Hs. fk_split Hs; eauto.
  by eapply (alter_rows s_flow_id f _ i (λ x, is_Some (flow s !! x))).
Qed.
Lemma fk_upsert_schedule now w s : fk_ok s → fk_ok (upsert_schedule now w s).1.
Proof using Type.
  intros Hs. rw /upsert_schedule. destruct (sw_id w); simpl; [by apply fk_schedule_rows|].
  rw /new_id. destruct (existsb _ _); simpl; [by apply fk_drawn|].
  case_bool_decide; simpl; [|by apply fk_drawn]. apply fk_rowid. fk_split Hs; eauto.
  by eapply (insert_rows s_flow_id _ _ _ (λ x, is_Some (flow s !! x))).
Qed.

Lemma fk_flow_rows m s :
  (∀ f, is_Some (flow s !! f) → is_Some (m !! f)) → fk_ok s → fk_ok (set_flow m s).
Proof using Type. intros Hm Hs. fk_split Hs; eauto. Qed.
Lemma fk_upsert_flow now f s : fk_ok s → fk_ok (upsert_flow now f s).1.
Proof using Type.
  intros Hs. rw /upsert_flow /new_id. destruct (flow_id_of _ _ _); simpl.
  - apply fk_flow_rows; [eauto|by apply fk_drawn].
  - destruct (existsb _ _); simpl; [by apply fk_drawn|].
    apply fk_rowid, fk_flow_rows; [eauto|by apply fk_drawn].
Qed.

Lemma fk_add_skips now sid fires by_ s : fk_ok s → fk_ok (add_skips now sid fires by_ s).1.
Proof using Type.
  revert s. induction fires as [|f fires IH]; intros s Hs; simpl; [done|].
  case_bool_decide as Hk; [|done]. simpl.
  match goal with |- context [add_skips now sid fires by_ ?s0] =>
    assert (H0 : fk_ok s0); [|specialize (IH s0 H0); by destruct (add_skips now sid fires by_ s0) as [s2 []]]
  end.
  case_bool_decide; [done|]. fk_split Hs. intros k v. destruct (decide (k = (sid, f))) as [->|].
  - rw lookup_insert_eq. done.
  - rw lookup_insert_ne //. eauto.
Qed.
Lemma fk_drop_skips m s : m ⊆ schedule_skip (defs s) → fk_ok s → fk_ok (set_skip m s).
Proof using Type.
  intros Hm Hs. fk_split Hs. intros k v Hk. eapply fk_skip0, lookup_weaken; done.
Qed.
Lemma fk_delete_skips sid fires s : fk_ok s → fk_ok (delete_skips sid fires s).1.
Proof using Type.
  revert s. induction fires as [|f fires IH]; intros s Hs; simpl; [done|].
  match goal with |- context [delete_skips sid fires ?s0] =>
    assert (H0 : fk_ok s0); [|specialize (IH s0 H0); by destruct (delete_skips sid fires s0)] end.
  apply fk_drop_skips; [apply delete_subseteq|done].
Qed.
Lemma fk_sync sid s : fk_ok s → fk_ok (sync_skip_marks sid s).1.
Proof using Type.
  intros Hs. rw /sync_skip_marks /=.
  assert (Hu : ∀ p f s, (∀ r, r_flow_id (f r) = r_flow_id r) → fk_ok s →
    fk_ok (set_run (update_where p f (Tables.run s)) s)).
  { clear. intros p f s Hf Hs. fk_split Hs; rw /update_where.
    - eapply (fmap_rows r_flow_id _ _ (λ x, is_Some (flow s !! x))); [|done].
      intros r. by destruct (p r).
    - intros x Hx. rw lookup_fmap fmap_is_Some. auto.
    - intros id t Ht. rw lookup_fmap fmap_is_Some. eauto.
    - intros x Hx. rw lookup_fmap fmap_is_Some. auto.
    - intros x Hx. rw lookup_fmap fmap_is_Some. auto.
    - intros x Hx. rw lookup_fmap fmap_is_Some. auto.
    - intros n m Hm. rw lookup_fmap fmap_is_Some. eauto.
    - intros k v Hk. rw lookup_fmap fmap_is_Some. eauto. }
  by apply Hu, Hu.
Qed.

Lemma fk_create_backfill now b s : fk_ok s → fk_ok (create_backfill now b s).1.
Proof using Type.
  intros Hs. rw /create_backfill /new_id. destruct (existsb _ _); simpl; [by apply fk_drawn|].
  case_bool_decide; simpl; [|by apply fk_drawn]. apply fk_rowid. fk_split Hs; eauto.
  by eapply (insert_rows b_flow_id _ _ _ (λ x, is_Some (flow s !! x))).
Qed.
Lemma fk_cancel_backfill id s : fk_ok s → fk_ok (set_backfill_cancelled id s).
Proof using Type.
  intros Hs. rw /set_backfill_cancelled. fk_split Hs; eauto.
  by eapply (alter_rows b_flow_id _ _ id (λ x, is_Some (flow s !! x))).
Qed.

Lemma fk_expectation_rows f s :
  (∀ x, x_rule_id (f x) = x_rule_id x) → fk_ok s →
  fk_ok (set_expectation (f <$> expectation (defs s)) s).
Proof using Type.
  intros Hf Hs. fk_split Hs; eauto.
  by eapply (fmap_rows x_rule_id _ _ (λ x, is_Some (rule (defs s) !! x))).
Qed.
Lemma fk_settle_all status p s : fk_ok s → fk_ok (settle_all status p s).
Proof using Type. apply fk_expectation_rows. intros x. by destruct (p x). Qed.
Lemma fk_settle id status s : fk_ok s → fk_ok (settle_expectation id status s).1.
Proof using Type.
  intros Hs. rw /settle_expectation. destruct (expectation _ !! id) as [x|] eqn:E; [|done].
  destruct (_ =?s _); [|done]. fk_split Hs; eauto.
  eapply (insert_rows x_rule_id _ _ _ (λ x, is_Some (rule (defs s) !! x))); [simpl; eauto|done].
Qed.
Lemma fk_arm a s : fk_ok s → fk_ok (arm_expectation a s).1.
Proof using Type.
  intros Hs. rw /arm_expectation. destruct (expectations_where _ _); [|done].
  case_bool_decide; [|done]. simpl. apply fk_rowid. fk_split Hs; eauto.
  by eapply (insert_rows x_rule_id _ _ _ (λ x, is_Some (rule (defs s) !! x))).
Qed.
Lemma fk_rule_rows m s :
  (∀ i, is_Some (rule (defs s) !! i) → is_Some (m !! i)) → fk_ok s → fk_ok (set_rule m s).
Proof using Type. intros Hm Hs. fk_split Hs; eauto. Qed.
Lemma fk_upsert_rule now w s : fk_ok s → fk_ok (upsert_rule now w s).1.
Proof using Type.
  intros Hs. rw /upsert_rule. destruct (rw_id w); simpl; [by apply fk_rule_rows; eauto|].
  rw /new_id. destruct (existsb _ _); simpl; [by apply fk_drawn|].
  apply fk_rowid, fk_rule_rows; [eauto|by apply fk_drawn].
Qed.
Lemma fk_record_firing now rid ev run outcomes s :
  fk_ok s → fk_ok (record_firing now rid ev run outcomes s).1.
Proof using Type.
  intros Hs. rw /record_firing. case_bool_decide; [|done]. simpl. apply fk_rule_rows; [simpl; eauto|].
  apply fk_rowid. fk_split Hs; eauto.
  by eapply (insert_rows g_rule_id _ _ _ (λ x, is_Some (rule (defs s) !! x))).
Qed.
Lemma fk_update_firing id outcomes s : fk_ok s → fk_ok (update_firing id outcomes s).
Proof using Type.
  intros Hs. rw /update_firing. fk_split Hs; eauto.
  by eapply (alter_rows g_rule_id _ _ id (λ x, is_Some (rule (defs s) !! x))).
Qed.

Lemma fk_message_insert now rid topic payload s :
  fk_ok s → fk_ok (run_message_insert now rid topic payload s).1.
Proof using Type.
  intros Hs. rw /run_message_insert. case_bool_decide; [|done]. simpl. apply fk_rowid.
  fk_split Hs; eauto. by eapply (insert_rows m_run_id _ _ _ (λ x, is_Some (Tables.run s !! x))).
Qed.
Lemma fk_claim now rid topic index q s : fk_ok s → fk_ok (run_message_claim now rid topic index q s).1.
Proof using Type.
  intros Hs. rw /run_message_claim. destruct (if q then _ else _); [done|].
  destruct (pending_message _ _ _) as [[n m]|] eqn:E; [|done]. simpl. apply fk_kv.
  assert (Hm : run_message (defs s) !! n = Some m).
  { rw /pending_message in E. apply head_Some_elem_of, list_elem_of_In, filter_In in E as [E _].
    by apply elem_of_by_id, list_elem_of_In. }
  fk_split Hs; eauto.
  eapply (insert_rows m_run_id _ _ _ (λ x, is_Some (Tables.run s !! x))); [simpl; eauto|done].
Qed.
Lemma fk_task_state_set now rid scope key value e s :
  fk_ok s → fk_ok (task_state_set now rid scope key value e s).1.
Proof using Type.
  intros Hs. rw /task_state_set. destruct (Tables.run s !! rid) as [r|] eqn:Er; [|done].
  match goal with |- context [set_task_state ?m s] => assert (H1 : fk_ok (set_task_state m s)) end.
  { fk_split Hs. intros k v. destruct (decide (k = (rid, scope, key))) as [->|].
    - rw lookup_insert_eq Er. eauto.
    - rw lookup_insert_ne //. eauto. }
  destruct e as [mark|]; [|done]. pose proof (fk_effect_cmd now rid mark None _ H1) as H2.
  by destruct (record_effect now rid mark None _) as [s2 []].
Qed.
(** A row of a run replaced by one of the same flow. *)
Lemma fk_put_run rid r r' s :
  Tables.run s !! rid = Some r → r_flow_id r' = r_flow_id r → fk_ok s →
  fk_ok (set_run (<[rid := r']> (Tables.run s)) s).
Proof using Type.
  intros Er Hf Hs. fk_split Hs; eauto.
  eapply (insert_rows r_flow_id _ _ _ (λ x, is_Some (flow s !! x))); [rw Hf; eauto|done].
Qed.
Lemma fk_reschedule rid t p s : fk_ok s → fk_ok (reschedule_run rid t p s).1.
Proof using Type.
  intros Hs. rw /reschedule_run. destruct (Tables.run s !! rid) as [r|] eqn:Er; [|done].
  destruct (negb _); [done|]. destruct (existsb _ _); [done|]. by eapply fk_put_run.
Qed.
Lemma fk_bump rid s : fk_ok s → fk_ok (bump_lease rid s).1.
Proof using Type.
  intros Hs. rw /bump_lease. destruct (Tables.run s !! rid) as [r|] eqn:Er; [|done].
  by eapply fk_put_run.
Qed.
Lemma fk_claim_run rid host processor hash s : fk_ok s → fk_ok (claim_run rid host processor hash s).1.
Proof using Type.
  intros Hs. rw /claim_run. destruct (Tables.run s !! rid) as [r|] eqn:Er; [|done].
  by eapply fk_put_run.
Qed.
(** A command that may journal an effect after its write. *)
Lemma fk_then_effect {A} (out : A) now rid e s :
  fk_ok s →
  fk_ok (match e with
         | None => (s, Ok out)
         | Some mark => match record_effect now rid mark None s with
                        | (s, Ok _) => (s, Ok out)
                        | (s, Err e) => (s, Err e)
                        end
         end : Store * result A StoreError).1.
Proof using Type.
  intros Hs. destruct e as [mark|]; [|done]. pose proof (fk_effect_cmd now rid mark None _ Hs) as H2.
  by destruct (record_effect now rid mark None _) as [s2 []].
Qed.
Lemma fk_merge now rid patch e s : fk_ok s → fk_ok (merge_run_attributes now rid patch e s).1.
Proof using Type.
  intros Hs. rw /merge_run_attributes. destruct (Tables.run s !! rid) as [r|] eqn:Er; [|done].
  destruct (value_from_str (r_attributes r)); [|done]. destruct (value_from_str patch); [|done].
  by eapply fk_then_effect, fk_put_run.
Qed.
Lemma fk_append_events now events s : fk_ok s → fk_ok (append_events now events s).1.
Proof using Type.
  revert s. induction events as [|e events IH]; intros s Hs; simpl; [done|].
  pose proof (fk_event now e s Hs) as H1. destruct (append_event now e s) as [s1 []]; [|done].
  specialize (IH s1 H1). by destruct (append_events now events s1) as [s2 []].
Qed.
Lemma fk_event_effect now e effect s : fk_ok s → fk_ok (append_event_with_effect now e effect s).1.
Proof using Type.
  intros Hs. rw /append_event_with_effect. pose proof (fk_event now e s Hs) as H1.
  destruct (append_event now e s) as [s1 [out|]]; [|done].
  destruct (ne_run_id e) as [rid|]; [|by destruct effect].
  pose proof (fk_then_effect out now rid effect s1 H1) as H2. by destruct effect.
Qed.
Lemma fk_clear_checkpoints before s : fk_ok s → fk_ok (clear_checkpoints_before before s).1.
Proof using Type.
  intros Hs. fk_split Hs; intros *.
  - eapply (fmap_rows t_run_id _ _ (λ x, is_Some (Tables.run s !! x))); [|done].
    intros r. by destruct (checkpoint_cleared before s r).
  - intros Hx. rw lookup_fmap fmap_is_Some. auto.
  - intros Hx. rw lookup_fmap fmap_is_Some. auto.
Qed.
Lemma fk_flow_rows_batch rows fids limit s : fk_ok s → fk_ok (delete_flow_rows rows fids limit s).1.
Proof using Type. destruct rows; simpl; [apply fk_sublogs|apply fk_events]. Qed.

(** *** The registry *)

Lemma fk_worker_rows m s :
  (∀ w, is_Some (workers_of s !! w) → is_Some (m !! w)) → fk_ok s → fk_ok (set_worker m s).
Proof using Type. intros Hm Hs. fk_split Hs; eauto. Qed.
Lemma fk_worker_flow_rows m s :
  (∀ k h, m !! k = Some h → is_Some (workers_of s !! k.1)) → fk_ok s → fk_ok (set_worker_flow m s).
Proof using Type. intros Hm Hs. by fk_split Hs. Qed.
Lemma fk_register now w s : fk_ok s → fk_ok (register_worker_row now w s).1.
Proof using Type. apply fk_worker_rows. eauto. Qed.
Lemma fk_set_worker_flows wid flows s : fk_ok s → fk_ok (set_worker_flows wid flows s).1.
Proof using Type.
  intros Hs. rw /set_worker_flows.
  assert (Hm : ∀ k h, filter (λ kv : Z * Z * string, kv.1.1 ≠ wid) (worker_flow (registry (defs s))) !! k
                      = Some h → is_Some (workers_of s !! k.1)).
  { intros k h [Hk _]%map_lookup_filter_Some. by eapply fk_worker_flow. }
  destruct flows as [|fh flows]; [by apply fk_worker_flow_rows|].
  case_bool_decide as Hw; [|done]. apply fk_worker_flow_rows; [|done].
  generalize (fh :: flows). intros l. revert Hm. generalize (filter (λ kv : Z * Z * string, kv.1.1 ≠ wid)
    (worker_flow (registry (defs s)))).
  induction l as [|x l IH]; simpl; intros m Hm; [done|]. apply IH. intros k h.
  destruct (decide (k = (wid, x.1))) as [->|]; [done|]. rw lookup_insert_ne //. apply Hm.
Qed.
Lemma fk_delete_worker wid s : fk_ok s → fk_ok (delete_worker wid s).1.
Proof using Type.
  intros Hs. rw /delete_worker. fk_split Hs. intros k h [Hk Hne]%map_lookup_filter_Some.
  simpl in Hne. rw lookup_delete_ne //. eauto.
Qed.
Lemma fk_agent_rows f n s :
  (∀ a, a_flow_id (f a) = a_flow_id a) → fk_ok s →
  ∀ i, fk_ok (set_agent (alter f i (agents_of s)) n s).
Proof using Type.
  intros Hf Hs i. fk_split Hs; eauto. intros id a fl.
  eapply (alter_rows a_flow_id f _ i (λ o, o = Some fl → is_Some (flow s !! fl))); [done|]. eauto.
Qed.
Lemma fk_upsert_agent now w s : fk_ok s → fk_ok (upsert_agent now w s).1.
Proof using Type.
  intros Hs. rw /upsert_agent. destruct (aw_id w) as [id|].
  - destruct (_ && _); [done|]. by apply fk_agent_rows.
  - destruct (agent_taken _ _ _); [done|]. simpl. apply fk_rowid.
    apply (fk_drawn _ (drawn s + 1)) in Hs. fk_split Hs; eauto.
    intros i a fl. destruct (decide (i = agent_seq (registry (defs s)) + 1)) as [->|].
    + rw lookup_insert_eq. by intros [= <-].
    + rw lookup_insert_ne //. eauto.
Qed.
Lemma fk_set_agent_flow id f s : fk_ok s → fk_ok (set_agent_flow id f s).1.
Proof using Type.
  intros Hs. rw /set_agent_flow. destruct (_ && _) eqn:E; [done|]. fk_split Hs; eauto.
  intros i a fl. rw lookup_alter. destruct (decide (id = i)) as [->|]; [|eauto].
  destruct (agents_of s !! i) as [a0|] eqn:Ea; [|done]. intros [= <-]. simpl. intros ->.
  simpl in E. by destruct (flow s !! fl).
Qed.
Lemma fk_delete_agent id s : fk_ok s → fk_ok (delete_agent id s).1.
Proof using Type.
  intros Hs. rw /delete_agent. fk_split Hs.
  - intros i a f [_ Ha]%lookup_delete_Some. eauto.
  - intros i p [Hp Hne]%map_lookup_filter_Some. simpl in Hne. rw lookup_delete_ne //. eauto.
Qed.
Lemma fk_add_approval now aid tool hash args first s :
  fk_ok s → fk_ok (add_approval now aid tool hash args first s).1.
Proof using Type.
  intros Hs. rw /add_approval. destruct (find_approval _ _ _ _); [done|].
  destruct (agents_of s !! aid) as [a|] eqn:Ea; [|done]. simpl. apply fk_rowid. fk_split Hs.
  eapply (insert_rows p_agent_id _ _ _ (λ x, is_Some (agent (registry (defs s)) !! x))); [|done].
  rw /agents_of in Ea. simpl. rw Ea. eauto.
Qed.
Lemma fk_delete_approval aid id s : fk_ok s → fk_ok (delete_approval aid id s).1.
Proof using Type.
  intros Hs. rw /delete_approval. destruct (approvals_of s !! id); [|done].
  destruct (_ =? _); [|done]. fk_split Hs. intros i p [_ Hp]%lookup_delete_Some. eauto.
Qed.

Lemma fk_bulk now cs s : fk_ok s → fk_ok (create_runs_bulk now cs s).1.
Proof using Type.
  revert s. induction cs as [|c cs IH]; intros s Hs; simpl; [done|].
  pose proof (fk_create_run now c s Hs) as H1. destruct (create_run now c s) as [s1 [v|]]; [|done].
  specialize (IH s1 H1). by destruct (create_runs_bulk now cs s1) as [s2 []].
Qed.
Lemma fk_transition_many ids st s : fk_ok s → fk_ok (transition_many ids st s).1.
Proof using Type.
  revert s. induction ids as [|id ids IH]; intros s Hs; simpl; [done|].
  pose proof (fk_transition TableRun id st false s Hs) as H1.
  destruct (transition TableRun id st false s) as [s1 [v|e]]; specialize (IH s1 H1).
  - by destruct (transition_many ids st s1) as [s2 []].
  - by destruct e.
Qed.

(** ** Sequences of commands *)

(** Every command of the writer that changes the tables, those of [Store]
    included; the notifications and file maintenance change none. *)
Inductive cmd : Type :=
| CStore (c : scmd)
| CBulk (now : Z) (cs : list CreateRun)
| CTransitionMany (ids : list Z) (st : State)
| CUpsertFlow (now : Z) (f : UpsertFlow)
| CSetFlowError (id : Z) (e : option string)
| CUpsertSchedule (now : Z) (w : ScheduleWrite)
| CPatchSchedule (now id : Z) (p : SchedulePatch)
| CAddSkips (now sid : Z) (fires : list Z) (by_ : string)
| CDeleteSkips (sid : Z) (fires : list Z)
| CDeleteSkipsBefore (sid before : Z)
| CSyncSkipMarks (sid : Z)
| CCreateBackfill (now : Z) (b : CreateBackfill)
| CCancelBackfill (id : Z)
| CArm (a : ArmExpectation)
| CDisarm (rule_id : Z) (key : string) (at_ : Z)
| CSettle (id : Z) (status : string)
| CCancelExpectations (rule_id : Z)
| CUpsertRule (now : Z) (w : RuleWrite)
| CDeleteRule (id : Z)
| CPruneCodeRules (keep : list Z)
| CRecordFiring (now rule_id : Z) (ev run : option Z) (outcomes : string)
| CUpdateFiring (id : Z) (outcomes : string)
| CSetVariable (now : Z) (name value tags : string) (secret : bool)
| CDeleteVariable (name : string)
| CKvSet (now : Z) (key value : string)
| CKvDelete (key : string)
| CTaskStateSet (now rid : Z) (scope key value : string) (e : option EffectMark)
| CTaskStateDelete (rid : Z) (scope key : string)
| CMessage (now rid : Z) (topic payload : string)
| CClaim (now rid : Z) (topic : string) (index : Z) (queued_only : bool)
| CSetEngine (rid : Z) (pid : option Z) (eid : option string)
| CSetPriority (rid p : Z)
| CBumpLease (rid : Z)
| CReschedule (rid t : Z) (p : string)
| CDeleteRun (rid : Z)
| CDeleteUnstarted (sid : Z)
| CDeleteSchedule (sid : Z)
| CDeleteFlow (fid : Z)
| CDeleteFlows (fids : list Z)
| CDeleteExpired (table : string) (before : Z) (limit : nat)
| CDeleteExpiredRuns (before failed_before keep : Z) (limit : nat)
| CReset (scope : ResetScope) (live : list Z)
| CMergeAttributes (now rid : Z) (patch : string) (e : option EffectMark)
| CClaimRun (rid : Z) (host : string) (processor : option Z) (hash : option string)
| CClearCheckpoints (before : Z)
| CAppendEvents (now : Z) (events : list NewEvent)
| CEventWithEffect (now : Z) (e : NewEvent) (effect : option EffectMark)
| CDeleteFlowRows (rows : FlowRows) (fids : list Z) (limit : nat)
| CRegisterWorker (now : Z) (w : WorkerRegistration)
| CSetWorkerFlows (wid : Z) (flows : list (Z * string))
| CTouchWorker (now wid : Z) (meta : Map)
| CSetWorkerState (wid : Z) (st : string)
| CSetWorkerProcessors (wid n : Z)
| CDeleteWorker (wid : Z)
| CUpsertAgent (now : Z) (w : AgentWrite)
| CSetAgentFlow (id : Z) (f : option Z)
| CDeleteAgent (id : Z)
| CAddApproval (now aid : Z) (tool hash args : string) (first_run : option Z)
| CDeleteApproval (aid id : Z).

Definition exec_cmd (s : Store) (c : cmd) : Store :=
  match c with
  | CStore c => sexec s c
  | CBulk now cs => settle s (create_runs_bulk now cs s)
  | CTransitionMany ids st => settle s (transition_many ids st s)
  | CUpsertFlow now f => settle s (upsert_flow now f s)
  | CSetFlowError id e => set_flow_error id e s
  | CUpsertSchedule now w => settle s (upsert_schedule now w s)
  | CPatchSchedule now id p => (patch_schedule now id p s).1
  | CAddSkips now sid fires by_ => settle s (add_skips now sid fires by_ s)
  | CDeleteSkips sid fires => (delete_skips sid fires s).1
  | CDeleteSkipsBefore sid before => delete_skips_before sid before s
  | CSyncSkipMarks sid => (sync_skip_marks sid s).1
  | CCreateBackfill now b => settle s (create_backfill now b s)
  | CCancelBackfill id => set_backfill_cancelled id s
  | CArm a => settle s (arm_expectation a s)
  | CDisarm rule_id key at_ => (disarm_expectations rule_id key at_ s).1
  | CSettle id status => (settle_expectation id status s).1
  | CCancelExpectations rule_id => (cancel_rule_expectations rule_id s).1
  | CUpsertRule now w => settle s (upsert_rule now w s)
  | CDeleteRule id => (delete_rule id s).1
  | CPruneCodeRules keep => (prune_code_rules keep s).1
  | CRecordFiring now rid ev run outcomes => settle s (record_firing now rid ev run outcomes s)
  | CUpdateFiring id outcomes => update_firing id outcomes s
  | CSetVariable now name value tags secret => set_variable_row now name value tags secret s
  | CDeleteVariable name => (delete_variable name s).1
  | CKvSet now key value => kv_set now key value s
  | CKvDelete key => (kv_delete key s).1
  | CTaskStateSet now rid scope key value e => settle s (task_state_set now rid scope key value e s)
  | CTaskStateDelete rid scope key => (task_state_delete rid scope key s).1
  | CMessage now rid topic payload => settle s (run_message_insert now rid topic payload s)
  | CClaim now rid topic index q => (run_message_claim now rid topic index q s).1
  | CSetEngine rid pid eid => set_run_engine rid pid eid s
  | CSetPriority rid p => set_run_priority rid p s
  | CBumpLease rid => (bump_lease rid s).1
  | CReschedule rid t p => settle s (reschedule_run rid t p s)
  | CDeleteRun rid => (delete_run rid s).1
  | CDeleteUnstarted sid => (delete_unstarted_runs sid s).1
  | CDeleteSchedule sid => (delete_schedule sid s).1
  | CDeleteFlow fid => (delete_flow fid s).1
  | CDeleteFlows fids => (delete_flows fids s).1
  | CDeleteExpired table before limit => settle s (delete_expired table before limit s)
  | CDeleteExpiredRuns before failed keep limit => (delete_expired_runs before failed keep limit s).1
  | CReset scope live => (reset scope live s).1
  | CMergeAttributes now rid patch e => settle s (merge_run_attributes now rid patch e s)
  | CClaimRun rid host processor hash => settle s (claim_run rid host processor hash s)
  | CClearCheckpoints before => (clear_checkpoints_before before s).1
  | CAppendEvents now events => settle s (append_events now events s)
  | CEventWithEffect now e effect => settle s (append_event_with_effect now e effect s)
  | CDeleteFlowRows rows fids limit => (delete_flow_rows rows fids limit s).1
  | CRegisterWorker now w => (register_worker_row now w s).1
  | CSetWorkerFlows wid flows => settle s (set_worker_flows wid flows s)
  | CTouchWorker now wid meta => touch_worker now wid meta s
  | CSetWorkerState wid st => (set_worker_state wid st s).1
  | CSetWorkerProcessors wid n => (set_worker_processors wid n s).1
  | CDeleteWorker wid => (delete_worker wid s).1
  | CUpsertAgent now w => settle s (upsert_agent now w s)
  | CSetAgentFlow id f => settle s (set_agent_flow id f s)
  | CDeleteAgent id => (delete_agent id s).1
  | CAddApproval now aid tool hash args first_run =>
      settle s (add_approval now aid tool hash args first_run s)
  | CDeleteApproval aid id => (delete_approval aid id s).1
  end.

Lemma fk_settled {A} s (x : Store * result A StoreError) : fk_ok s → fk_ok x.1 → fk_ok (settle s x).
Proof using Type. by destruct x as [s' []]. Qed.

Lemma fk_sexec s c : fk_ok s → fk_ok (sexec s c).
Proof using Type.
  intros Hs. destruct c as [now c|now c|t id st force|now rid events|logs|now e|now a]; simpl;
    apply fk_settled; auto using fk_create_run, fk_create_task_run, fk_transition, fk_report,
      fk_event, fk_upsert_artifact.
  rw /append_logs /append_logs_with_map. pose proof (fk_logs logs ∅ s Hs) as Hk.
  by destruct (append_logs_loop logs ∅ s) as [[s1 c] r].
Qed.

Lemma fk_delete_schedule sid s : fk_ok s → fk_ok (delete_schedule sid s).1.
Proof using Type.
  intros Hs. rw /delete_schedule /delete_unstarted_runs. cbn [fst].
  by apply fk_delete_schedules, fk_delete_runs.
Qed.
Lemma fk_delete_flows_cmd fids s : fk_ok s → fk_ok (delete_flows fids s).1.
Proof using Type.
  intros Hs. rw /delete_flows. cbn [fst]. cbv zeta. apply fk_delete_flows, fk_events.
  assert (H1 : ∀ ids, fk_ok (delete_run_kv ids s)) by (intros ids; by apply fk_kv).
  generalize (H1 (ids_where (λ r, bool_decide (r_flow_id r ∈ fids)) (Tables.run s))).
  generalize (delete_run_kv (ids_where (λ r, bool_decide (r_flow_id r ∈ fids)) (Tables.run s)) s).
  intros s1 Hs1. fk_split Hs1. intros id x [Hx _]%map_lookup_filter_Some. eauto.
Qed.
Lemma fk_expired_runs before failed keep limit s :
  fk_ok s → fk_ok (delete_expired_runs before failed keep limit s).1.
Proof using Type.
  intros Hs. rw /delete_expired_runs. cbn [fst]. by apply fk_delete_runs, fk_kv.
Qed.
Lemma fk_expire table before limit s : fk_ok s → fk_ok (delete_expired table before limit s).1.
Proof using Type.
  intros Hs. rw /delete_expired. destruct (_ =?s _); [by apply fk_events|].
  destruct (_ =?s _); [by apply fk_sublogs|done].
Qed.

Lemma fk_exec s c : fk_ok s → fk_ok (exec_cmd s c).
Proof using Type.
  intros Hs. destruct c; cbn [exec_cmd];
    auto using fk_sexec, fk_settled, fk_bulk, fk_transition_many, fk_upsert_flow, fk_upsert_schedule,
      fk_add_skips, fk_delete_skips, fk_sync, fk_create_backfill, fk_cancel_backfill, fk_arm,
      fk_settle, fk_upsert_rule, fk_record_firing, fk_update_firing, fk_message_insert, fk_claim,
      fk_task_state_set, fk_bump, fk_reschedule, fk_delete_schedule, fk_delete_flows_cmd,
      fk_expired_runs, fk_expire, fk_reset, fk_merge, fk_claim_run, fk_clear_checkpoints, fk_append_events,
      fk_event_effect, fk_flow_rows_batch, fk_register, fk_set_worker_flows, fk_delete_worker, fk_upsert_agent,
      fk_set_agent_flow, fk_delete_agent, fk_add_approval, fk_delete_approval.
  - apply fk_flow_rows; eauto.
  - by apply fk_schedule_rows.
  - apply fk_drop_skips; [apply map_filter_subseteq|done].
  - by apply fk_settle_all.
  - by apply fk_settle_all.
  - by apply fk_delete_rules.
  - by apply fk_delete_rules.
  - by apply fk_variable.
  - by apply fk_variable.
  - by apply fk_kv.
  - by apply fk_kv.
  - rw /task_state_delete /=. fk_split Hs. intros k v [_ Hk]%lookup_delete_Some. eauto.
  - by apply fk_run_rows.
  - by apply fk_run_rows.
  - by apply fk_delete_runs.
  - by apply fk_delete_runs.
  - by apply fk_delete_flows.
  - apply fk_worker_rows; eauto.
  - apply fk_worker_rows; eauto.
  - apply fk_worker_rows; eauto.
Qed.
Lemma fk_cmds cmds s : fk_ok s → fk_ok (fold_left exec_cmd cmds s).
Proof using Type. revert s; induction cmds; simpl; auto using fk_exec. Qed.
End integrity.

Lemma fk_empty_store : fk_ok empty_store.
Proof. split; simpl; try (intros *; rw lookup_empty; done); try (intros *; set_solver). Qed.

(** A session that creates a schedule, a skip of it and a run, sends the run a
    message, and then deletes the flow. *)
Definition sample_cmds : list cmd :=
  [CUpsertSchedule 10 (mkScheduleWrite None 1 "spec" "skip" 100 None 0 None true "ui" None false);
   CAddSkips 11 1 [500; 600] "user";
   CStore (SCreateRun 12 (sample_create None));
   CMessage 13 1 "go" "{}";
   CSyncSkipMarks 1;
   CDeleteFlow 1].

(** C9: no command of the writer leaves a dangling reference: whatever sequence
    of commands runs, each run has its flow, each state, task run, log,
    artifact, effect, message and task state its run, each schedule and
    backfill its flow, each skip its schedule, each firing and expectation its
    rule. *)
Theorem references_kept `{StoreEnv} (cmds : list cmd) (s0 : Store) :
  fk_ok s0 → fk_ok (fold_left exec_cmd cmds s0).
Proof. apply fk_cmds. Qed.

Lemma references_kept_witness :
  fk_ok (fold_left (exec_cmd (H := sample_env)) sample_cmds empty_store) ∧
  size (Tables.run (fold_left (exec_cmd (H := sample_env)) (take 5 sample_cmds) empty_store)) = 1%nat ∧
  size (Tables.run (fold_left (exec_cmd (H := sample_env)) sample_cmds empty_store)) = 0%nat.
Proof.
  split; [|split; vm_compute; reflexivity].
  exact (references_kept (H := sample_env) sample_cmds empty_store fk_empty_store).
Defined.
