(* ===== verification/RuleReader.v ===== *)
(** * Reads of the rules engine (store/src/read.rs, store/src/row.rs)

    Events by name and time, the chain of a run through its parents and the
    runs that triggered it, task state, rules and expectations.  SQLite's
    [LIKE] and its cast of text to an integer are written out; serde's reading
    of a rule and of an event's related resources is [RowEnv]. *)

From S2P Require Import Prelude Float64 Json States Transitions Schedules Model Events GroupCommit WorkQueue.
From S2P Require Import Tables Store Reader StoreAdmin.
From Stdlib Require Import Ascii.

Class RowEnv : Type := {
  rule_spec_from_str : string → option RuleSpec;
  resources_from_str : string → option (list Resource);
}.

(** [text LIKE pattern]: [%] is any text, [_] is any character, and ASCII case
    is ignored. *)
Fixpoint sql_like (pattern : list ascii) (text : list ascii) {struct pattern} : bool :=
  match pattern with
  | [] => match text with [] => true | _ => false end
  | p :: pattern' =>
      if Ascii.eqb p "%"%char then
        (fix any (t : list ascii) : bool :=
           sql_like pattern' t || match t with [] => false | _ :: t' => any t' end) text
      else
        match text with
        | [] => false
        | c :: text' =>
            (Ascii.eqb p "_"%char || Ascii.eqb (ascii_lower p) (ascii_lower c)) && sql_like pattern' text'
        end
  end.

(** [CAST(text AS INTEGER)]: the longest number the text starts with. *)
Fixpoint leading_digits (acc : Z) (s : string) : Z :=
  match s with
  | String c s' => match digit c with Some d => leading_digits (acc * 10 + d) s' | None => acc end
  | EmptyString => acc
  end.
Definition sql_cast_integer (s : string) : Z :=
  match trim_start_matches is_white_space s with
  | String "-" s' => Z.max i64_MIN (- leading_digits 0 s')
  | String "+" s' => Z.min i64_MAX (leading_digits 0 s')
  | s' => Z.min i64_MAX (leading_digits 0 s')
  end.
Fixpoint str_drop (n : nat) (s : string) : string :=
  match n, s with S n', String _ s' => str_drop n' s' | _, _ => s end.

Record Expectation : Type := mkExpectation {
  ex_id : Z;
  ex_rule_id : Z;
  ex_key : string;
  ex_run_id : option Z;
  ex_flow_id : option Z;
  ex_armed_at : Z;
  ex_deadline : Z;
  ex_status : string;
}.
Definition expectation_from_row (id : Z) (x : ExpectationRow) : Expectation :=
  mkExpectation id (x_rule_id x) (x_key x) (x_run_id x) (x_flow_id x) (x_armed_at x) (x_deadline x)
    (x_status x).

Section rule_reader.
Context `{StoreEnv, RowEnv}.

Definition event_from_row (ke : Z * EventRow) : Event :=
  {| ev_id := ke.1; ev_seq := ke.1; ev_external_id := er_external_id ke.2; ev_name := er_kind ke.2;
     ev_occurred := er_timestamp ke.2; ev_resource := er_resource ke.2;
     ev_related := default [] (resources_from_str (er_related ke.2)); ev_run_id := er_run_id ke.2;
     ev_flow_id := er_flow_id ke.2; ev_payload := json_map (er_payload ke.2) |}.

(** One clause of the query: a trailing star is a [LIKE]. *)
Definition name_clause (kind p : string) : bool :=
  match strip_suffix_char "*"%char p with
  | Some prefix => sql_like (chars (prefix +:+ "%")) (chars kind)
  | None => kind =?s p
  end.
Definition clamp_limit (limit : nat) : nat := Nat.max 1 (Nat.min limit (Z.to_nat 100000)).
Definition events_between (patterns : list string) (since until : Z) (limit : nat) (s : Store)
    : list Event :=
  event_from_row
  <$> take (clamp_limit limit)
        (List.filter (λ ke, (since <=? er_timestamp ke.2) && (er_timestamp ke.2 <=? until)
                            && match patterns with
                               | [] => true
                               | _ => existsb (name_clause (er_kind ke.2)) patterns
                               end) (event s)).

(** What a run comes from: the parent it names, else the run that triggered it. *)
Definition ancestor (r : RunRow) : option Z :=
  match r_parent_run_id r with
  | Some p => Some p
  | None => if sql_like_prefix "run:" (r_created_by r)
            then Some (sql_cast_integer (str_drop 4 (r_created_by r))) else None
  end.
Fixpoint ancestors_from (n : nat) (id : Z) (s : Store) : list (Z * string) :=
  match Tables.run s !! id with
  | None => []
  | Some r => (id, r_created_by r) ::
      match n, ancestor r with
      | S n', Some p => ancestors_from n' p s
      | _, _ => []
      end
  end.
Definition run_ancestors (id : Z) (s : Store) : list (Z * string) := ancestors_from 100 id s.

(** The run or the crash and retry parents it continues, nearest first. *)
Fixpoint task_state_from (n : nat) (id : Z) (scope key : string) (s : Store) : option string :=
  match task_state (defs s) !! (id, scope, key) with
  | Some v => Some v.1
  | None =>
      match n, Tables.run s !! id with
      | S n', Some r =>
          match r_parent_run_id r with
          | Some p => if sql_like_prefix "crash:" (r_created_by r) || sql_like_prefix "retry:" (r_created_by r)
                      then task_state_from n' p scope key s else None
          | None => None
          end
      | _, _ => None
      end
  end.
Definition task_state_get (id : Z) (scope key : string) (s : Store) : option string :=
  task_state_from 50 id scope key s.

Definition rule_from_row (id : Z) (u : RuleTblRow) : RuleRow :=
  mkRuleRow id (u_external_id u) (u_name u) (u_enabled u) (u_source u) (u_module u)
    (default RuleSpec_default (rule_spec_from_str (u_spec u))) (u_fire_count u) (u_last_fired u)
    (u_created_at u) (u_updated_at u).
Definition list_rules (s : Store) : list RuleRow := (λ ku, rule_from_row ku.1 ku.2) <$> by_id (rule (defs s)).
Definition get_rule (id : Z) (s : Store) : option RuleRow := rule_from_row id <$> rule (defs s) !! id.

Definition open_expectations (s : Store) : list Expectation :=
  sort_by_key ex_deadline
    ((λ kx, expectation_from_row kx.1 kx.2)
     <$> List.filter (λ kx, x_status kx.2 =?s "open") (by_id (expectation (defs s)))).
Definition get_expectation (id : Z) (s : Store) : option Expectation :=
  expectation_from_row id <$> expectation (defs s) !! id.

(** Runs an action may cancel: of the flow, in the states asked for, not ended.
    A run without a state counts as Scheduled for the end, and matches no
    state that is asked for. *)
Definition cancellable (fid : option Z) (states : list StateType) (r : RunRow) : bool :=
  match fid with Some f => r_flow_id r =? f | None => true end
  && match states with
     | [] => true
     | _ => match c_type (r_cols r) with
            | Some t => bool_decide (t ∈ (StateType_as_str <$> states))
            | None => false
            end
     end
  && negb (bool_decide (default "Scheduled" (c_type (r_cols r)) ∈ TERMINAL)).
Definition cancellable_runs (fid : option Z) (states : list StateType) (s : Store)
    : list (Z * string * option Z) :=
  (λ kr, (kr.1, r_parameters kr.2, r_engine_pid kr.2))
  <$> List.filter (λ kr, cancellable fid states kr.2) (by_id (Tables.run s)).

Definition flows_by_name (name : string) (s : Store) : list Flow :=
  (λ kf, flow_from_row kf.1 kf.2) <$> List.filter (λ kf, fl_name kf.2 =?s name) (by_id (flow s)).
End rule_reader.
