(* ===== verification/Replay.v ===== *)
(** * What a new attempt replays (store/src/read.rs, store/src/row.rs)

    A run that continues another (a rerun after a crash, a retry from failure,
    a resumed pause) is handed the results its predecessors stored: the
    checkpoints of completed task runs, the journal of effects, the lineage
    its effect keys derive from and the [once] calls that are in doubt.  The
    queries follow the crash chain of the run.

    [HashMap::insert] in a loop is the fold [latest_by]; the sort by key that
    follows makes the order of the map irrelevant. *)

From S2P Require Import Prelude Float64 Json States Transitions Schedules Model GroupCommit Tables Store Reader.
From S2P Require Import JsonCodec Events Unique RuleMatching RuleTemplates RuleReader.

(** ** Sorting by a text key *)

Definition text_le {A} (key : A → string) (a b : A) : Prop := String.leb (key a) (key b) = true.
#[global] Instance text_le_dec {A} (key : A → string) : RelDecision (text_le key).
Proof. intros a b. rw /text_le. apply _. Defined.
Definition sort_by_text {A} (key : A → string) (l : list A) : list A := stable_sort (text_le key) l.
Lemma sort_by_text_perm {A} (key : A → string) l : sort_by_text key l ≡ₚ l.
Proof. apply stable_sort_perm. Qed.

(** ** The last entry per key *)

Section latest.
Context {A : Type} (key : A → string).

Definition latest_by (l : list A) (m : gmap string A) : gmap string A :=
  fold_left (λ m x, <[key x := x]> m) l m.
Definition latest_list (l : list A) : list A := sort_by_text key (map_to_list (latest_by l ∅)).*2.

Lemma latest_by_app l1 l2 m : latest_by (l1 ++ l2) m = latest_by l2 (latest_by l1 m).
Proof using Type. apply fold_left_app. Qed.
Lemma latest_by_lookup l m k :
  latest_by l m !! k = or_else (last (List.filter (λ x, key x =?s k) l)) (m !! k).
Proof using Type.
  induction l as [|x l IH] using rev_ind; [done|].
  rw latest_by_app /= List.filter_app /=. destruct (String.eqb_spec (key x) k) as [<-|Hne].
  - by rw lookup_insert_eq last_snoc.
  - rw lookup_insert_ne //. by rw app_nil_r.
Qed.
Lemma latest_by_key l k x : latest_by l ∅ !! k = Some x → key x = k ∧ x ∈ l.
Proof using Type.
  rw latest_by_lookup lookup_empty. destruct (last _) as [y|] eqn:E; [|done]. intros [= ->].
  apply last_Some_elem_of, list_elem_of_In, List.filter_In in E as [Hin Hk].
  split; [by apply String.eqb_eq|by apply list_elem_of_In].
Qed.
(** Every key once, with its last entry. *)
Lemma elem_of_latest l x : x ∈ latest_list l ↔ last (List.filter (λ y, key y =?s key x) l) = Some x.
Proof using Type.
  rw /latest_list sort_by_text_perm list_elem_of_fmap. split.
  - intros ([k y] & -> & Hin). apply elem_of_map_to_list in Hin. simpl.
    pose proof (latest_by_key _ _ _ Hin) as [-> _]. rw latest_by_lookup lookup_empty in Hin.
    by destruct (last _).
  - intros Hl. exists (key x, x). split; [done|]. apply elem_of_map_to_list. by rw latest_by_lookup Hl.
Qed.
Lemma latest_nodup l : NoDup (key <$> latest_list l).
Proof using Type.
  rw /latest_list sort_by_text_perm -list_fmap_compose.
  rw (list_fmap_ext (key ∘ snd) fst).
  - apply NoDup_fst_map_to_list.
  - intros i [k x] Hi. apply list_elem_of_lookup_2, elem_of_map_to_list in Hi.
    by apply latest_by_key in Hi as [? _].
Qed.
End latest.

(** ** Rows *)

Record TaskRun : Type := mkTaskRun {
  tr_id : Z;
  tr_external_id : Id;
  tr_run_id : Z;
  tr_name : string;
  tr_task_key : string;
  tr_dynamic_key : string;
  tr_pass : Z;
  tr_state : State;
  tr_failure_count : Z;
  tr_crash_count : Z;
  tr_created_at : Z;
  tr_start_time : option Z;
  tr_end_time : option Z;
  tr_total_run_time : option Z;
  tr_run_name : string;
  tr_flow_id : Z;
  tr_flow_name : string;
  tr_project : string;
  tr_parents : list Id;
  tr_result_ref : option string;
  tr_input_hash : option string;
  tr_once : bool;
  tr_effect_key : option string;
}.

Record Checkpoint : Type := mkCheckpoint {
  cp_dynamic_key : string;
  cp_task_key : string;
  cp_input_hash : string;
  cp_result_ref : string;
  cp_run_id : Z;
  cp_pass : Z;
}.
(** [EffectRow] of the reader. *)
Record JournalEntry : Type := mkJournalEntry {
  je_slot : string;
  je_hash : string;
  je_ref : option string;
  je_run_id : Z;
  je_pass : Z;
}.
Record LineageMark : Type := mkLineageMark {
  lm_root : Z;
  lm_from : Z;
}.
Record TaskStateRow : Type := mkTaskStateRow {
  ts_scope : string;
  ts_key : string;
  ts_value : Value;
  ts_updated_at : Z;
}.

Definition checkpoint_seed_key (id : Z) : string := "run.checkpoints:" +:+ dec id.
Definition effect_seed_key (id : Z) : string := "run.effects:" +:+ dec id.
Definition lineage_key (id : Z) : string := "run.lineage:" +:+ dec id.

(** *** serde's reading of these records from JSON *)

Definition checkpoint_from_value (v : Value) : option Checkpoint :=
  m ← as_object v;
  dk ← get_str "dynamic_key" m; tk ← get_str "task_key" m;
  ih ← get_str "input_hash" m; rr ← get_str "result_ref" m;
  rid ← get_i64 "run_id" m; p ← get_i64 "pass" m;
  Some (mkCheckpoint dk tk ih rr rid p).
Definition checkpoint_to_value (c : Checkpoint) : Value :=
  VObject [("dynamic_key", VString (cp_dynamic_key c)); ("input_hash", VString (cp_input_hash c));
           ("pass", VNumber (NInt (cp_pass c))); ("result_ref", VString (cp_result_ref c));
           ("run_id", VNumber (NInt (cp_run_id c))); ("task_key", VString (cp_task_key c))].
(** [#[serde(default)] ref: Option<String>] *)
Definition opt_str_field (k : string) (m : Map) : option (option string) :=
  match map_get k m with
  | None | Some VNull => Some None
  | Some (VString t) => Some (Some t)
  | Some _ => None
  end.
Definition journal_from_value (v : Value) : option JournalEntry :=
  m ← as_object v;
  sl ← get_str "slot" m; h ← get_str "hash" m; r ← opt_str_field "ref" m;
  rid ← get_i64 "run_id" m; p ← get_i64 "pass" m;
  Some (mkJournalEntry sl h r rid p).
Definition journal_to_value (e : JournalEntry) : Value :=
  VObject [("hash", VString (je_hash e)); ("pass", VNumber (NInt (je_pass e)));
           ("ref", match je_ref e with Some t => VString t | None => VNull end);
           ("run_id", VNumber (NInt (je_run_id e))); ("slot", VString (je_slot e))].
Definition lineage_from_value (v : Value) : option LineageMark :=
  m ← as_object v; r ← get_i64 "root" m; f ← get_i64 "from" m; Some (mkLineageMark r f).

Section replay.
Context `{StoreEnv}.

(** [serde_json::from_str::<Vec<A>>(..).unwrap_or_default()] *)
Definition list_from_str {A} (f : Value → option A) (text : string) : list A :=
  match value_from_str text with
  | Some (VArray l) => default [] (mapM f l)
  | _ => []
  end.

Definition task_run_from_row (id : Z) (t : TaskRow) (r : RunRow) (f : FlowRow) (s : Store) : TaskRun :=
  {| tr_id := id; tr_external_id := t_external_id t; tr_run_id := t_run_id t; tr_name := t_name t;
     tr_task_key := t_task_key t; tr_dynamic_key := t_dynamic_key t; tr_pass := t_pass t;
     tr_state := default (with_timestamp (State_new 0 Pending) 0) (state_from_columns (t_cols t));
     tr_failure_count := wrap_u32 (failure_count (t_counters t));
     tr_crash_count := wrap_u32 (crash_count (t_counters t));
     tr_created_at := t_created_at t; tr_start_time := start_time (t_counters t);
     tr_end_time := end_time (t_counters t); tr_total_run_time := total_run_time (t_counters t);
     tr_run_name := r_name r; tr_flow_id := r_flow_id r; tr_flow_name := fl_name f;
     tr_project := fl_project f; tr_parents := json_list (t_parents t);
     tr_result_ref := t_result_ref t; tr_input_hash := t_input_hash t;
     tr_once := bool_decide (id ∈ task_run_once s); tr_effect_key := None |}.
(** [TASK_RUN_FROM]: joined with its run and the run's flow. *)
Definition join_task (s : Store) (kt : Z * TaskRow) : option TaskRun :=
  match Tables.run s !! t_run_id kt.2 with
  | Some r => match flow s !! r_flow_id r with
              | Some f => Some (task_run_from_row kt.1 kt.2 r f s)
              | None => None
              end
  | None => None
  end.

Definition get_task_run (id : Z) (s : Store) : option TaskRun :=
  match task_run s !! id with Some t => join_task s (id, t) | None => None end.
(** Oldest first: every pass, or only the one given. *)
Definition task_runs_by_run (rid : Z) (pass : option Z) (s : Store) : list TaskRun :=
  omap (join_task s)
    (List.filter (λ kt, (t_run_id kt.2 =? rid)
                        && match pass with Some p => t_pass kt.2 =? p | None => true end)
       (by_id (task_run s))).
Definition next_pass (rid : Z) (s : Store) : Z :=
  default (-1) (max_opt (omap (λ kt, if t_run_id kt.2 =? rid then Some (t_pass kt.2) else None)
                           (by_id (task_run s)))) + 1.

(** ** Checkpoints *)

Definition task_completed (t : TaskRow) : bool := bool_decide (c_type (t_cols t) = Some "Completed").
(** A row of [chain_checkpoints]. *)
Definition as_checkpoint (chain : list Z) (kt : Z * TaskRow) : option Checkpoint :=
  let t := kt.2 in
  if bool_decide (t_run_id t ∈ chain) && task_completed t then
    match t_result_ref t, t_input_hash t with
    | Some r, Some h => Some (mkCheckpoint (t_dynamic_key t) (t_task_key t) h r (t_run_id t) (t_pass t))
    | _, _ => None
    end
  else None.
(** [ORDER BY t.run_id, t.pass, t.id] *)
Definition task_before (a b : Z * TaskRow) : Prop :=
  t_run_id a.2 < t_run_id b.2 ∨
  (t_run_id a.2 = t_run_id b.2 ∧ (t_pass a.2 < t_pass b.2 ∨ (t_pass a.2 = t_pass b.2 ∧ a.1 ≤ b.1))).
#[global] Instance task_before_dec : RelDecision task_before.
Proof using Type. intros a b. rw /task_before. apply _. Defined.
#[global] Instance task_before_total : Total task_before.
Proof using Type. intros a b. rw /task_before. lia. Qed.
#[global] Instance task_before_trans : Transitive task_before.
Proof using Type. intros a b c. rw /task_before. lia. Qed.
Definition task_order (s : Store) : list (Z * TaskRow) := stable_sort task_before (map_to_list (task_run s)).
Definition chain_checkpoints (chain : list Z) (s : Store) : list Checkpoint :=
  omap (as_checkpoint chain) (task_order s).

(** The value under a key of the kv table. *)
Definition kv_text (key : string) (s : Store) : option string := fst <$> kv (defs s) !! key.
Definition seed_of {A} (key : Z → string) (f : Value → option A) (s : Store) (id : Z) : list A :=
  match kv_text (key id) s with Some text => list_from_str f text | None => [] end.
(** The seeds of a chain, those of the oldest run first. *)
Definition chain_seeds {A} (key : Z → string) (f : Value → option A) (chain : list Z) (s : Store) : list A :=
  reverse chain ≫= seed_of key f s.

Definition checkpoints (rid : Z) (s : Store) : list Checkpoint :=
  let chain := crash_chain rid s in
  latest_list cp_dynamic_key
    (chain_seeds checkpoint_seed_key checkpoint_from_value chain s ++ chain_checkpoints chain s).

(** ** The journal of effects *)

Definition journal_entry (e : EffectRow) : JournalEntry :=
  mkJournalEntry (ef_slot e) (ef_hash e) (ef_ref e) (ef_run_id e) (ef_pass e).
Definition effect_before (a b : Z * EffectRow) : Prop :=
  ef_run_id a.2 < ef_run_id b.2 ∨ (ef_run_id a.2 = ef_run_id b.2 ∧ ef_pass a.2 ≤ ef_pass b.2).
#[global] Instance effect_before_dec : RelDecision effect_before.
Proof using Type. intros a b. rw /effect_before. apply _. Defined.
Definition chain_effects (chain : list Z) (s : Store) : list JournalEntry :=
  (λ e, journal_entry e.2)
  <$> stable_sort effect_before (List.filter (λ e, bool_decide (ef_run_id e.2 ∈ chain)) (effect s)).
Definition effects (rid : Z) (s : Store) : list JournalEntry :=
  let chain := crash_chain rid s in
  latest_list je_slot
    (chain_seeds effect_seed_key journal_from_value chain s ++ chain_effects chain s).

(** ** Lineage *)

Definition lineage_mark (rid : Z) (s : Store) : option LineageMark :=
  and_then (kv_text (lineage_key rid) s) (λ text, value_from_str text ≫= lineage_from_value).
Definition chain_first (rid : Z) (s : Store) : Z := default rid (last (crash_chain rid s)).
Definition lineage_root (rid : Z) (s : Store) : Z :=
  let first := chain_first rid s in
  match lineage_mark first s with Some m => lm_root m | None => first end.

(** The loop of [lineage_runs]: it stops once [out] holds more than 200 runs,
    and every round adds at least one. *)
Fixpoint lineage_loop (n : nat) (id : Z) (out : list Z) (s : Store) : list Z :=
  match n with
  | O => out
  | S n' =>
      if (200 <? length out)%nat then out
      else
        let out := out ++ crash_chain id s in
        match opt_filter (λ f, negb (bool_decide (f ∈ out))) (lm_from <$> lineage_mark (chain_first id s) s) with
        | Some f => lineage_loop n' f out s
        | None => out
        end
  end.
Definition lineage_runs (rid : Z) (s : Store) : list Z := lineage_loop 202 rid [] s.

(** The root's row is read with [query_row]. *)
Definition lineage (rid : Z) (s : Store) : option (Z * Id) :=
  let root := lineage_root rid s in
  (λ r, (root, r_external_id r)) <$> Tables.run s !! root.

(** ** [once] calls in doubt *)

Definition interrupted (t : TaskRow) : bool :=
  is_some (start_time (t_counters t))
  && (bool_decide (c_type (t_cols t) = Some "Running")
      || (bool_decide (c_type (t_cols t) = Some "Scheduled")
          && bool_decide (c_name (t_cols t) = Some "AwaitingRetry"))).
Definition completed_in (runs : list Z) (key : string) (s : Store) : bool :=
  existsb (λ kt, bool_decide (t_run_id kt.2 ∈ runs) && (t_dynamic_key kt.2 =?s key) && task_completed kt.2)
    (map_to_list (task_run s)).
Definition doubtful (runs : list Z) (s : Store) (kt : Z * TaskRow) : bool :=
  bool_decide (kt.1 ∈ task_run_once s) && bool_decide (t_run_id kt.2 ∈ runs) && interrupted kt.2
  && negb (completed_in runs (t_dynamic_key kt.2) s).
Definition in_doubt (rid : Z) (s : Store) : list string :=
  let runs := List.filter (λ i, negb (i =? rid)) (lineage_runs rid s) in
  sort_by_text (λ k, k)
    (remove_dups ((λ kt, t_dynamic_key kt.2) <$> List.filter (doubtful runs s) (map_to_list (task_run s)))).

(** ** Chains of runs *)

(** Runs one link below: reruns, retries and rule-created runs by
    [parent_run_id], runs of dependants by [created_by]. *)
Definition linked_to (ids : gset Z) (r : RunRow) : bool :=
  match r_parent_run_id r with Some p => bool_decide (p ∈ ids) | None => false end
  || existsb (λ i, r_created_by r =?s "run:" +:+ dec i) (elements ids).
Definition below (ids : gset Z) (s : Store) : gset Z :=
  dom (filter (λ kr, linked_to ids kr.2 = true) (Tables.run s)).
Fixpoint down_from (n : nat) (ids : gset Z) (s : Store) : gset Z :=
  ids ∪ match n with O => ∅ | S n' => down_from n' (below ids s) s end.
Definition run_chain (rid : Z) (s : Store) : list Run :=
  let root := match last (run_ancestors rid s) with Some a => a.1 | None => rid end in
  let ids := down_from 100 {[root]} s in
  take 500 (sort_by_key run_created_at
              (omap (join_run s) (List.filter (λ kr, bool_decide (kr.1 ∈ ids)) (by_id (Tables.run s))))).

(** ** Task state *)

(** The run and the crash and retry parents it continues, nearest first. *)
Fixpoint continued_from (n : nat) (id : Z) (s : Store) : list Z :=
  id :: match n, Tables.run s !! id with
        | S n', Some r =>
            match r_parent_run_id r with
            | Some p => if sql_like_prefix "crash:" (r_created_by r) || sql_like_prefix "retry:" (r_created_by r)
                        then continued_from n' p s else []
            | None => []
            end
        | _, _ => []
        end.
(** The entries of one run, and those a chain shows, its first run winning. *)
Definition run_entries (id : Z) (s : Store) : gmap (string * string) (string * Z) :=
  list_to_map (omap (λ e : (Z * string * string) * (string * Z),
                 if e.1.1.1 =? id then Some ((e.1.1.2, e.1.2), e.2) else None)
                 (map_to_list (task_state (defs s)))).
Fixpoint shown_state (chain : list Z) (s : Store) : gmap (string * string) (string * Z) :=
  match chain with
  | [] => ∅
  | id :: chain' => run_entries id s ∪ shown_state chain' s
  end.
Definition state_pair_le (a b : string * string) : Prop :=
  (if a.1 =?s b.1 then String.leb a.2 b.2 else String.leb a.1 b.1) = true.
#[global] Instance state_pair_dec : RelDecision (λ a b : (string * string) * (string * Z), state_pair_le a.1 b.1).
Proof using Type. intros a b. rw /state_pair_le. apply _. Defined.
Definition task_state_row (kv : (string * string) * (string * Z)) : TaskStateRow :=
  mkTaskStateRow kv.1.1 kv.1.2 (default (VString kv.2.1) (value_from_str kv.2.1)) kv.2.2.
Definition task_state_list (rid : Z) (s : Store) : list TaskStateRow :=
  task_state_row <$> stable_sort (λ a b, state_pair_le a.1 b.1)
                       (map_to_list (shown_state (continued_from 50 rid s) s)).

(** ** The newest result wins *)

Lemma last_app {A} (l1 l2 : list A) : last (l1 ++ l2) = or_else (last l2) (last l1).
Proof using Type.
  destruct l2 as [|x l2] using rev_ind; [by rw app_nil_r|]. by rw assoc !last_snoc.
Qed.
Lemma last_none {A} (l : list A) : last l = None → l = [].
Proof using Type. destruct l using rev_ind; [done|]. by rw last_snoc. Qed.

(** The last hit in a sorted list is the greatest hit. *)
Lemma last_hit {A B} (R : A → A → Prop) `{!Reflexive R} (f : A → option B) (p : B → bool) l y :
  StronglySorted R l → last (List.filter p (omap f l)) = Some y →
  ∃ x, x ∈ l ∧ f x = Some y ∧ p y = true ∧
       ∀ x' y', x' ∈ l → f x' = Some y' → p y' = true → R x' x.
Proof using Type.
  intros Hs. induction l as [|a l IH] using rev_ind; [done|].
  rw omap_app List.filter_app last_app.
  apply StronglySorted_app in Hs as (Hal & Hl & _).
  intros Hy. destruct (last (List.filter p (omap f [a]))) as [z|] eqn:Ea; simpl in Ea.
  - destruct (f a) as [w|] eqn:Ef; simpl in Ea; [|done].
    destruct (p w) eqn:Ep; simpl in Ea; [|done]. simplify_eq/=.
    exists a. split_and!; [set_solver|done|done|].
    intros x' y' [Hx|Hx%list_elem_of_singleton]%elem_of_app _ _; [|by subst].
    apply Hal; [done|set_solver].
  - simpl in Hy. destruct (IH Hl Hy) as (x & Hx & Hf & Hp & Hmax).
    exists x. split_and!; [set_solver|done|done|].
    intros x' y' [Hx'|Hx'%list_elem_of_singleton]%elem_of_app Hf' Hp'; [by eapply Hmax|].
    subst x'. simpl in Ea. rw Hf' /= Hp' in Ea. done.
Qed.
Lemma hit_last {A B} (f : A → option B) (p : B → bool) l x y :
  x ∈ l → f x = Some y → p y = true → is_Some (last (List.filter p (omap f l))).
Proof using Type.
  intros Hx Hf Hp. destruct (last _) as [z|] eqn:E; [done|]. apply last_none in E.
  exfalso. apply (not_elem_of_nil y). rw -E. apply list_elem_of_In, List.filter_In.
  split; [|done]. apply list_elem_of_In, list_elem_of_omap. by exists x.
Qed.

#[global] Instance task_before_refl : Reflexive task_before.
Proof using Type. intros a. rw /task_before. lia. Qed.
Lemma elem_of_task_order kt s : kt ∈ task_order s ↔ task_run s !! kt.1 = Some kt.2.
Proof using Type. rw /task_order stable_sort_perm. destruct kt. apply elem_of_map_to_list. Qed.
Lemma task_order_sorted s : StronglySorted task_before (task_order s).
Proof using Type. apply: stable_sort_sorted. Qed.

(** [kt] is a completed task run of the chain with a stored result, and no
    other for its key is of a later run, a later pass of its run, or newer in
    its pass. *)
Definition newest_result (chain : list Z) (s : Store) (kt : Z * TaskRow) (cp : Checkpoint) : Prop :=
  task_run s !! kt.1 = Some kt.2 ∧ as_checkpoint chain kt = Some cp ∧
  ∀ kt' cp', task_run s !! kt'.1 = Some kt'.2 → as_checkpoint chain kt' = Some cp' →
             cp_dynamic_key cp' = cp_dynamic_key cp → task_before kt' kt.

Lemma last_checkpoint chain s cp :
  last (List.filter (λ c, cp_dynamic_key c =?s cp_dynamic_key cp) (chain_checkpoints chain s)) = Some cp ↔
  ∃ kt, newest_result chain s kt cp.
Proof using Type.
  split.
  - intros Hl. apply (last_hit task_before) in Hl as (kt & Hkt & Hf & _ & Hmax); [|apply task_order_sorted].
    exists kt. split_and!; [by apply elem_of_task_order|done|].
    intros kt' cp' Hk' Hf' Heq. eapply Hmax; [by apply elem_of_task_order|done|by apply String.eqb_eq].
  - intros (kt & Hk & Hf & Hmax).
    destruct (hit_last (as_checkpoint chain) (λ c, cp_dynamic_key c =?s cp_dynamic_key cp)
                (task_order s) kt cp) as [y Hy]; [by apply elem_of_task_order|done|apply String.eqb_refl|].
    change (omap (as_checkpoint chain) (task_order s)) with (chain_checkpoints chain s) in Hy.
    rw Hy. pose proof Hy as Hy'.
    apply (last_hit task_before) in Hy' as (kt' & Hkt' & Hf' & Heq & Hmax'); [|apply task_order_sorted].
    apply elem_of_task_order in Hkt'. apply String.eqb_eq in Heq.
    assert (task_before kt' kt) as H1 by by eapply Hmax.
    assert (task_before kt kt') as H2.
    { eapply Hmax'; [by apply elem_of_task_order|done|apply String.eqb_refl]. }
    assert (kt.1 = kt'.1) as Hid by (rw /task_before in H1 H2; lia).
    destruct kt as [i t], kt' as [i' t']; simpl in *; subst i'. simplify_eq. done.
Qed.
Lemma no_checkpoint chain s k :
  last (List.filter (λ c, cp_dynamic_key c =?s k) (chain_checkpoints chain s)) = None ↔
  ∀ kt cp, task_run s !! kt.1 = Some kt.2 → as_checkpoint chain kt = Some cp → cp_dynamic_key cp ≠ k.
Proof using Type.
  split.
  - intros Hn kt cp Hk Hf Heq.
    destruct (hit_last (as_checkpoint chain) (λ c, cp_dynamic_key c =?s k) (task_order s) kt cp) as [y Hy];
      [by apply elem_of_task_order|done|by apply String.eqb_eq|].
    change (omap (as_checkpoint chain) (task_order s)) with (chain_checkpoints chain s) in Hy. congruence.
  - intros Hno. destruct (last _) as [cp|] eqn:E; [|done].
    apply (last_hit task_before) in E as (kt & Hkt & Hf & Heq & _); [|apply task_order_sorted].
    apply elem_of_task_order in Hkt. apply String.eqb_eq in Heq. by destruct (Hno kt cp Hkt Hf).
Qed.

(** C19: A new attempt replays, for every task call, the newest result its
    chain of crashed runs has: the checkpoints of a run hold each dynamic key
    once; a checkpoint is there exactly when it is the result of a completed
    task run of the chain that no later run, later pass or newer task run of
    the chain supersedes, or, where no task run of the chain completed that
    call, when it is the last seed for the call along the chain, oldest run
    first. *)
Theorem replay_latest (rid : Z) (s : Store) (cp : Checkpoint) :
  NoDup (cp_dynamic_key <$> checkpoints rid s) ∧
  (cp ∈ checkpoints rid s ↔
   (∃ kt, newest_result (crash_chain rid s) s kt cp) ∨
   ((∀ kt cp', task_run s !! kt.1 = Some kt.2 → as_checkpoint (crash_chain rid s) kt = Some cp' →
               cp_dynamic_key cp' ≠ cp_dynamic_key cp) ∧
    last (List.filter (λ c, cp_dynamic_key c =?s cp_dynamic_key cp)
            (chain_seeds checkpoint_seed_key checkpoint_from_value (crash_chain rid s) s)) = Some cp)).
Proof using Type.
  split; [apply latest_nodup|].
  rw /checkpoints elem_of_latest List.filter_app last_app -last_checkpoint -no_checkpoint.
  destruct (last (List.filter _ (chain_checkpoints _ _))); naive_solver.
Qed.

(** ** The lineage ends *)

Lemma crash_chain_length n id s : (0 < length (crash_chain_from n id s) ≤ S n)%nat.
Proof using Type.
  revert id. induction n as [|n IH]; intros id; simpl; [lia|].
  repeat case_match; simpl; try lia. specialize (IH z). lia.
Qed.
Lemma lineage_stable n m id out s :
  (201 < length out + n)%nat → lineage_loop (n + m) id out s = lineage_loop n id out s.
Proof using Type.
  revert id out. induction n as [|n IH]; intros id out Hlen; cbn [Nat.add lineage_loop].
  - destruct m as [|m]; [done|]. cbn [lineage_loop]. destruct (Nat.ltb_spec 200 (length out)); [done|lia].
  - destruct (200 <? length out)%nat; [done|]. cbv zeta.
    destruct (opt_filter _ _) as [f|]; [|done]. apply IH.
    rw length_app /crash_chain. pose proof (crash_chain_length 50 id s). lia.
Qed.
Lemma lineage_length n id out s :
  (length out ≤ 251)%nat → (length (lineage_loop n id out s) ≤ 251)%nat.
Proof using Type.
  revert id out. induction n as [|n IH]; intros id out Hlen; [done|]. cbn [lineage_loop].
  destruct (Nat.ltb_spec 200 (length out)) as [|Hle]; [done|]. cbv zeta.
  assert (length (out ++ crash_chain id s) ≤ 251)%nat.
  { rw length_app /crash_chain. pose proof (crash_chain_length 50 id s). lia. }
  destruct (opt_filter _ _); [by apply IH|done].
Qed.

(** The walk over a lineage ends whatever the marks in the store say, even
    when they form a cycle: 202 rounds give what any larger number of rounds
    gives, and the walk names at most 251 runs. *)
Theorem lineage_terminates (rounds : nat) (rid : Z) (s : Store) :
  (202 ≤ rounds)%nat →
  lineage_loop rounds rid [] s = lineage_runs rid s ∧ (length (lineage_runs rid s) ≤ 251)%nat.
Proof using Type.
  intros Hr. split; [|apply lineage_length; simpl; lia].
  rw -(Nat.sub_add 202 rounds) // Nat.add_comm. apply lineage_stable. simpl. lia.
Qed.

(** ** Task state *)

Lemma run_entries_lookup id s sc k : run_entries id s !! (sc, k) = task_state (defs s) !! (id, sc, k).
Proof using Type.
  apply option_eq. intros v. rw /run_entries -elem_of_list_to_map.
  - rw list_elem_of_omap. split.
    + intros ([[[i sc'] k'] v'] & Hin & Hif). simpl in Hif. apply elem_of_map_to_list in Hin.
      destruct (Z.eqb_spec i id); simplify_eq/=. done.
    + intros Hv. exists ((id, sc, k), v). split; [by apply elem_of_map_to_list|]. simpl. by rw Z.eqb_refl.
  - pose proof (NoDup_fst_map_to_list (task_state (defs s))) as Hnd.
    induction (map_to_list (task_state (defs s))) as [|[[[i a] b] w] l IH]; simpl; [constructor|].
    apply NoDup_cons in Hnd as [Hni Hnd]. destruct (Z.eqb_spec i id) as [->|]; simpl; [|by apply IH].
    apply NoDup_cons. split; [|by apply IH]. intros Hin. apply Hni.
    apply list_elem_of_fmap in Hin as ([[a' b'] w'] & [= -> ->] & Hin).
    apply list_elem_of_omap in Hin as ([[[i c] d] w''] & Hin & Hif). simpl in Hif.
    destruct (Z.eqb_spec i id); simplify_eq/=. apply list_elem_of_fmap. eexists. by split; [|exact Hin].
Qed.
Lemma shown_state_lookup n id sc k s :
  fst <$> shown_state (continued_from n id s) s !! (sc, k) = task_state_from n id sc k s.
Proof using Type.
  revert id. induction n as [|n IH]; intros id; cbn [continued_from shown_state task_state_from];
    rw lookup_union run_entries_lookup.
  - destruct (task_state _ !! _); [done|]. by rw lookup_empty.
  - destruct (task_state _ !! _) as [v|]; [by destruct (shown_state _ _ !! _)|].
    rw left_id. destruct (Tables.run s !! id) as [r|]; [|by rw lookup_empty].
    destruct (r_parent_run_id r); [|by rw lookup_empty].
    destruct (_ || _); [apply IH|by rw lookup_empty].
Qed.
Definition decoded (t : string) : Value := default (VString t) (value_from_str t).

(** Listing the state a run can read agrees with reading it entry by entry:
    every scope and key is listed once, a listed value is what [task_state_get]
    gives for its scope and key, decoded, and every entry it gives is listed. *)
Theorem state_list_agrees (rid : Z) (s : Store) :
  NoDup ((λ r, (ts_scope r, ts_key r)) <$> task_state_list rid s) ∧
  (∀ r, r ∈ task_state_list rid s →
        ∃ t, task_state_get rid (ts_scope r) (ts_key r) s = Some t ∧ ts_value r = decoded t) ∧
  (∀ sc k t, task_state_get rid sc k s = Some t →
             ∃ at_, mkTaskStateRow sc k (decoded t) at_ ∈ task_state_list rid s).
Proof using Type.
  rw /task_state_list. split_and!.
  - rw stable_sort_perm -list_fmap_compose. rw (list_fmap_ext _ fst).
    + apply NoDup_fst_map_to_list.
    + by intros i [[a b] v] _.
  - intros r. rw stable_sort_perm list_elem_of_fmap. intros ([[sc k] [t u]] & -> & Hin).
    apply elem_of_map_to_list in Hin. exists t. split; [|done].
    rw /task_state_get -shown_state_lookup /= Hin. done.
  - intros sc k t. rw /task_state_get -shown_state_lookup. intros Hg.
    destruct (shown_state _ _ !! (sc, k)) as [[t' u]|] eqn:E; simplify_eq/=.
    exists u. rw stable_sort_perm. apply list_elem_of_fmap. exists ((sc, k), (t, u)).
    split; [done|]. by apply elem_of_map_to_list.
Qed.
End replay.

(** ** Examples *)

(** Two runs whose marks say that each continues the other. *)
Definition circular_store : Store :=
  let mark (a b : Z) := (print_value (VObject [("from", VNumber (NInt b)); ("root", VNumber (NInt a))]), 0) in
  let d := Defs_empty in
  mkStore ∅ ∅ [] ∅ [] ∅ [] [] [] []
    (mkDefs ∅ ∅ {[lineage_key 1 := mark 1 2; lineage_key 2 := mark 2 1]} ∅ 0 ∅ ∅ ∅ ∅ ∅ ∅ Registry_empty) 0 0.
Lemma lineage_terminates_witness :
  (202 ≤ 500)%nat ∧ lineage_runs (H := codec_env) 1 circular_store = [1; 2] ∧
  lineage_loop (H := codec_env) 500 1 [] circular_store = [1; 2].
Proof.
  split; [lia|]. split; [by vm_compute|].
  destruct (lineage_terminates (H := codec_env) 500 1 circular_store ltac:(lia)) as [-> _].
  by vm_compute.
Defined.
