(* ===== verification/Pages.v ===== *)
(** * Lists and pages (store/src/read.rs, store/src/row.rs)

    The readers behind the lists of the interface.  A page is read with one row
    more than it shows; the id of its last row is the cursor of the next page.
    A filter is a list of clauses over the joined row, as [Query] collects
    them.  The readers that take many ids at once follow, beside the single
    reader each one stands for.

    [now_micros] in [list_runs] is the argument [now]. *)

From S2P Require Import Prelude Float64 Json States Transitions Schedules Model Events GroupCommit WorkQueue.
From S2P Require Import Tables Store JsonCodec Reader StoreAdmin RuleReader Replay.
From Stdlib Require Import Ascii.

(** ** Pages *)

(** What a query with [LIMIT limit + 1] becomes: the page and its cursor. *)
Definition page {A} (ident : A → Z) (limit : nat) (rows : list A) : list A * option Z :=
  let items := take (S limit) rows in
  if (limit <? length items)%nat
  then let items := take limit items in (items, ident <$> last items)
  else (items, None).
(** [limit.unwrap_or(d).clamp(1, m)] *)
Definition page_limit (d m : nat) (limit : option nat) : nat := Nat.max 1 (Nat.min (default d limit) m).

(** A clause a filter pushes when it names a value. *)
Definition clause {A B} (o : option B) (p : B → A → bool) (x : A) : bool :=
  match o with Some v => p v x | None => true end.

(** Following the cursors, page after page. *)
Section walk.
Context {A : Type} (read : option Z → list A * option Z).
Fixpoint walk (n : nat) (cursor : option Z) : list A :=
  match n with
  | O => []
  | S n' =>
      let '(items, next) := read cursor in
      items ++ match next with Some c => walk n' (Some c) | None => [] end
  end.
End walk.

Section keyset.
Context {A : Type} (ident : A → Z) (after : Z → Z → bool) (limit : nat) (rows : list A).
(** Rows in the order of the query: each is after those before it. *)
Context (Hlimit : (0 < limit)%nat)
        (Hsorted : StronglySorted (λ x y, after (ident x) (ident y) = true) rows)
        (Hirrefl : ∀ z, after z z = false)
        (Hasym : ∀ a b, after a b = true → after b a = false).

Definition read_after (cursor : option Z) : list A * option Z :=
  page ident limit (List.filter (λ x, clause cursor (λ c x, after c (ident x)) x) rows).

Lemma filter_after pre x post :
  rows = pre ++ x :: post → List.filter (λ y, after (ident x) (ident y)) rows = post.
Proof using Hlimit Hsorted Hirrefl Hasym.
  intros E. pose proof Hsorted as Hs. rw E in Hs. rw E List.filter_app /= Hirrefl.
  apply StronglySorted_app in Hs as (Hpre & _ & Hs). inversion_clear Hs as [|? ? _ Hx].
  assert (List.filter (λ y, after (ident x) (ident y)) pre = []) as ->.
  { assert (∀ y, y ∈ pre → after (ident x) (ident y) = false) as Hall.
    { intros y Hy. apply Hasym, (Hpre y x); set_solver. }
    clear -Hall. induction pre as [|y pre IH]; [done|]. simpl. rw Hall; [|set_solver]. apply IH. set_solver. }
  simpl. clear -Hx. induction Hx as [|y post Hy _ IH]; [done|]. simpl. by rw Hy IH.
Qed.

Lemma walk_suffix n suffix cursor pre :
  rows = pre ++ suffix → (length suffix < n)%nat →
  List.filter (λ x, clause cursor (λ c x, after c (ident x)) x) rows = suffix →
  walk read_after n cursor = suffix.
Proof using Hlimit Hsorted Hirrefl Hasym.
  revert suffix cursor pre. induction n as [|n IH]; intros suffix cursor pre E Hn Hf; [lia|].
  cbn [walk]. rw /read_after Hf /page. cbv zeta.
  destruct (Nat.ltb_spec limit (length (take (S limit) suffix))) as [Hlt|Hge].
  - rw length_take in Hlt. rw take_take Nat.min_l; [|lia].
    destruct (last (take limit suffix)) as [x|] eqn:El; cycle 1.
    { apply last_none in El. apply (f_equal length) in El. rw length_take /= in El. lia. }
    cbn. apply last_Some in El as [l' El].
    rw -{2}(take_drop limit suffix). f_equal.
    apply (IH _ _ (pre ++ take limit suffix)).
    + by rw -assoc take_drop.
    + rw length_drop. lia.
    + cbn [clause]. apply (filter_after (pre ++ l') x).
      rw E -{1}(take_drop limit suffix) El. by rw -!assoc.
  - rw length_take in Hge. cbn. rw take_ge; [|lia]. apply app_nil_r.
Qed.
(** The pages in turn are all rows, each once and in order. *)
Lemma walk_all n : (length rows < n)%nat → walk read_after n None = rows.
Proof using Hlimit Hsorted Hirrefl Hasym.
  intros Hn. apply (walk_suffix n rows None []); [done|done|].
  clear. induction rows as [|x l IH]; [done|]. simpl. by rw IH.
Qed.
End keyset.

(** ** Filters *)

(** [t.split(',')] *)
Fixpoint split_char (c : ascii) (s : string) : list string :=
  match s with
  | EmptyString => [EmptyString]
  | String a s' =>
      if Ascii.eqb a c then EmptyString :: split_char c s'
      else match split_char c s' with
           | x :: rest => String a x :: rest
           | [] => [String a EmptyString]
           end
  end.
(** A list, or text with commas; anything else is refused. *)
Definition list_or_csv (v : option Value) : option (list string) :=
  match v with
  | None | Some VNull => Some []
  | Some (VArray l) => mapM as_str l
  | Some (VString t) =>
      Some (List.filter (λ x, negb (str_is_empty x)) (trim <$> split_char ","%char t))
  | Some _ => None
  end.

Record ListRunsFilter : Type := mkListRunsFilter {
  lr_project : option string;
  lr_group : option string;
  lr_flow : option string;
  lr_flow_id : option Z;
  lr_state_type : option string;
  lr_state_name : option string;
  lr_name : option string;
  lr_tags : list string;
  lr_params : list string;
  lr_attributes : list string;
  lr_start_after : option Z;
  lr_start_before : option Z;
  lr_sort : option string;
  lr_limit : option nat;
  lr_cursor : option Z;
  lr_schedule_id : option Z;
  lr_backfill_id : option Z;
  lr_scheduled_after : option Z;
}.
Definition ListRunsFilter_default : ListRunsFilter :=
  mkListRunsFilter None None None None None None None [] [] [] None None None None None None None None.
Record ListTaskRunsFilter : Type := mkListTaskRunsFilter {
  lt_run_id : option Z;
  lt_pass : option Z;
  lt_project : option string;
  lt_group : option string;
  lt_flow : option string;
  lt_state_type : option string;
  lt_state_name : option string;
  lt_name : option string;
  lt_start_after : option Z;
  lt_start_before : option Z;
  lt_limit : option nat;
  lt_cursor : option Z;
}.
Record LogFilter : Type := mkLogFilter {
  lf_run_id : option Z;
  lf_task_run_id : option Z;
  lf_after_id : option Z;
  lf_min_level : option Z;
  lf_search : option string;
  lf_limit : option nat;
}.
Record EventFilter : Type := mkEventFilter {
  efl_name : option string;
  efl_resource_kind : option string;
  efl_resource_id : option string;
  efl_run_id : option Z;
  efl_flow_id : option Z;
  efl_after : option Z;
  efl_before : option Z;
  efl_limit : option nat;
  efl_cursor : option Z;
  efl_ascending : bool;
}.
Record ArtifactFilter : Type := mkArtifactFilter {
  af_kind : option string;
  af_key : option string;
  af_flow : option string;
  af_project : option string;
  af_group : option string;
  af_run_id : option Z;
  af_task_run_id : option Z;
  af_limit : option nat;
  af_after : option Z;
}.

(** ** Rows *)

Record Log : Type := mkLog {
  lg_id : Z;
  lg_run_id : Z;
  lg_task_run_id : option Z;
  lg_level : Z;
  lg_logger : string;
  lg_timestamp : Z;
  lg_message : string;
}.
(** [ArtifactRow] of the model, and one joined with its run and flow. *)
Record Artifact : Type := mkArtifact {
  af_id : Z;
  af_external_id : Id;
  af_of_run : Z;
  af_of_task_run : option Z;
  af_kind_of : string;
  af_key_of : option string;
  af_data : Value;
  af_created_at : Z;
  af_updated_at : Z;
}.
Record ArtifactListItem : Type := mkArtifactListItem {
  ai_artifact : Artifact;
  ai_run_name : string;
  ai_flow_name : string;
  ai_project : string;
}.
Record VariableRow : Type := mkVariableRow {
  vr_name : string;
  vr_value : Value;
  vr_tags : list string;
  vr_secret : bool;
  vr_created_at : Z;
  vr_updated_at : Z;
}.
Record RuleFiring : Type := mkRuleFiring {
  rf_id : Z;
  rf_rule_id : Z;
  rf_event_id : option Z;
  rf_run_id : option Z;
  rf_timestamp : Z;
  rf_outcomes : list Value;
}.
Record QueueRun : Type := mkQueueRun {
  qr_id : Z;
  qr_name : string;
  qr_flow_name : string;
  qr_project : string;
  qr_state_name : string;
  qr_created_by : string;
  qr_backfill_id : option Z;
  qr_schedule_id : option Z;
  qr_scheduled_time : option Z;
}.
Record TimelineRunRow : Type := mkTimelineRunRow {
  tl_id : Z;
  tl_flow_name : string;
  tl_flow_id : Z;
  tl_scheduled_time : option Z;
  tl_created_at : Z;
}.
Record FlowLabel : Type := mkFlowLabel {
  fl_id : Z;
  fl_label_project : string;
  fl_label_name : string;
}.

(** A row of [run JOIN flow], of the task runs' join, and of the artifacts'. *)
Definition RunFlow : Type := Z * (RunRow * FlowRow).
Definition run_flow (s : Store) (kr : Z * RunRow) : option RunFlow :=
  (λ f, (kr.1, (kr.2, f))) <$> flow s !! r_flow_id kr.2.
Definition run_flows (s : Store) : list RunFlow := omap (run_flow s) (by_id (Tables.run s)).
Definition TaskJoin : Type := Z * (TaskRow * RunRow * FlowRow).
Definition task_flow (s : Store) (kt : Z * TaskRow) : option TaskJoin :=
  r ← Tables.run s !! t_run_id kt.2; f ← flow s !! r_flow_id r; Some (kt.1, (kt.2, r, f)).
Definition task_flows (s : Store) : list TaskJoin := omap (task_flow s) (by_id (task_run s)).
Definition ArtifactJoin : Type := Z * (ArtifactRow * RunRow * FlowRow).
Definition artifact_flow (s : Store) (ka : Z * ArtifactRow) : option ArtifactJoin :=
  r ← Tables.run s !! ar_run_id ka.2; f ← flow s !! r_flow_id r; Some (ka.1, (ka.2, r, f)).

(** [LIKE '%text%'] *)
Definition like_within (text column : string) : bool := sql_like (chars ("%" +:+ text +:+ "%")) (chars column).
Definition flow_group_of (f : FlowRow) : string := default (fl_project f) (fl_flow_group f).
Definition opt_is {A} `{EqDecision A} (o : option A) (v : A) : bool := bool_decide (o = Some v).
(** [NULL >= n] is not true. *)
Definition opt_from (o : option Z) (n : Z) : bool := match o with Some z => n <=? z | None => false end.
(** [ORDER BY] of a nullable column: NULL is smaller than every value. *)
Definition null_le {A} (key : A → option Z) (a b : A) : Prop :=
  match key a, key b with
  | None, _ => True
  | Some _, None => False
  | Some x, Some y => x ≤ y
  end.
#[global] Instance null_le_dec {A} (key : A → option Z) : RelDecision (null_le key).
Proof. intros a b. rw /null_le. destruct (key a), (key b); apply _. Defined.

(** A search entry [key=value] whose key is an identifier. *)
Definition search_entry (entry : string) : option (string * string) :=
  match split_once "="%char entry with
  | Some (key, value) =>
      let key := trim key in
      if str_is_empty key || negb (forallb is_key_char (chars key)) then None else Some (key, trim value)
  | None => None
  end.

Definition run_started (r : RunRow) : Z := default (r_created_at r) (start_time (r_counters r)).
Definition month : Z := 30 * 86400 * 1000000.

(** The order of [list_runs] and whether its pages have cursors. *)
Inductive RunSort : Type :=
| CreatedAsc | StartDesc | StartAsc | DurationDesc | DurationAsc | NameAsc | ScheduledAsc | CreatedDesc.
Definition run_sort (sort : option string) : RunSort :=
  let t := default "created_desc" sort in
  if t =?s "created_asc" then CreatedAsc
  else if t =?s "start_desc" then StartDesc
  else if t =?s "start_asc" then StartAsc
  else if t =?s "duration_desc" then DurationDesc
  else if t =?s "duration_asc" then DurationAsc
  else if t =?s "name_asc" then NameAsc
  else if t =?s "scheduled_asc" then ScheduledAsc
  else CreatedDesc.
Definition run_order (sort : RunSort) (rows : list RunFlow) : list RunFlow :=
  let start (x : RunFlow) := run_started x.2.1 in
  let duration (x : RunFlow) := total_run_time (r_counters x.2.1) in
  match sort with
  | CreatedAsc => rows
  | StartDesc => reverse (sort_by_key start rows)
  | StartAsc => sort_by_key start rows
  | DurationDesc => reverse (stable_sort (null_le duration) rows)
  | DurationAsc => stable_sort (null_le duration) (reverse rows)
  | NameAsc => sort_by_text (λ x, r_name x.2.1) (reverse rows)
  | ScheduledAsc => stable_sort (null_le (λ x, r_scheduled_time x.2.1)) rows
  | CreatedDesc => reverse rows
  end.
Definition run_keyset (sort : RunSort) : option (Z → Z → bool) :=
  match sort with
  | CreatedAsc => Some Z.ltb
  | CreatedDesc => Some Z.gtb
  | _ => None
  end.

Section pages.
Context `{StoreEnv, ReaderEnv, RowEnv}.

(** *** Runs *)

(** [CAST(json_extract(column, '$.key') AS TEXT) = value] *)
Definition json_is (column : string) (kv : string * string) : bool :=
  match map_get kv.1 (json_map column) with
  | Some v => bool_decide (sql_text v = Some kv.2)
  | None => false
  end.
(** JSON searches are bounded to a month unless the caller bounds them. *)
Definition search_bound (now : Z) (f : ListRunsFilter) : option Z :=
  match lr_start_after f with
  | Some t => Some t
  | None =>
      if existsb (λ e, is_some (search_entry e)) (lr_params f ++ lr_attributes f)
      then Some (i64_sub now month) else None
  end.
Definition run_matches (now : Z) (f : ListRunsFilter) (x : RunFlow) : bool :=
  let r := x.2.1 in
  let fl := x.2.2 in
  clause (lr_project f) (λ p _, fl_project fl =?s p) x
  && clause (lr_group f) (λ g _, flow_group_of fl =?s g) x
  && clause (lr_flow f) (λ n _, fl_name fl =?s n) x
  && clause (lr_flow_id f) (λ i _, r_flow_id r =? i) x
  && clause (lr_state_type f) (λ t _, opt_is (c_type (r_cols r)) t) x
  && clause (lr_state_name f) (λ n _, opt_is (c_name (r_cols r)) n) x
  && clause (lr_name f) (λ n _, like_within n (r_name r)) x
  && forallb (λ tag, like_within (value_to_string (VString tag)) (r_tags r)) (lr_tags f)
  && forallb (json_is (r_parameters r)) (omap search_entry (lr_params f))
  && forallb (json_is (r_attributes r)) (omap search_entry (lr_attributes f))
  && clause (search_bound now f) (λ t _, t <=? run_started r) x
  && clause (lr_start_before f) (λ t _, run_started r <=? t) x
  && clause (lr_schedule_id f) (λ i _, opt_is (r_schedule_id r) i) x
  && clause (lr_backfill_id f) (λ i _, opt_is (r_backfill_id r) i) x
  && clause (lr_scheduled_after f) (λ t _, opt_from (r_scheduled_time r) t) x.

Definition run_of_join (s : Store) (x : RunFlow) : Run := run_from_row x.1 x.2.1 x.2.2 s.
Definition list_runs (now : Z) (f : ListRunsFilter) (s : Store) : list Run * option Z :=
  let limit := page_limit 50 500 (lr_limit f) in
  let sort := run_sort (lr_sort f) in
  let keyset := run_keyset sort in
  let after (x : RunFlow) := match lr_cursor f, keyset with Some c, Some op => op c x.1 | _, _ => true end in
  let rows := List.filter (λ x, run_matches now f x && after x) (run_order sort (run_flows s)) in
  let '(items, next) := page fst limit rows in
  (run_of_join s <$> items, if is_some keyset then next else None).

(** *** Task runs *)

Definition task_started (t : TaskRow) : Z := default (t_created_at t) (start_time (t_counters t)).
Definition task_matches (f : ListTaskRunsFilter) (x : TaskJoin) : bool :=
  let t := x.2.1.1 in
  let fl := x.2.2 in
  clause (lt_run_id f) (λ i _, t_run_id t =? i) x
  && clause (lt_pass f) (λ p _, t_pass t =? p) x
  && clause (lt_project f) (λ p _, fl_project fl =?s p) x
  && clause (lt_group f) (λ g _, flow_group_of fl =?s g) x
  && clause (lt_flow f) (λ n _, fl_name fl =?s n) x
  && clause (lt_state_type f) (λ st _, opt_is (c_type (t_cols t)) st) x
  && clause (lt_state_name f) (λ n _, opt_is (c_name (t_cols t)) n) x
  && clause (lt_name f) (λ n _, like_within n (t_name t)) x
  && clause (lt_start_after f) (λ ts _, ts <=? task_started t) x
  && clause (lt_start_before f) (λ ts _, task_started t <=? ts) x.
Definition list_task_runs (f : ListTaskRunsFilter) (s : Store) : list TaskRun * option Z :=
  let rows := List.filter (λ x, task_matches f x && clause (lt_cursor f) (λ c x, c >? x.1) x)
                (reverse (task_flows s)) in
  let '(items, next) := page fst (page_limit 50 500 (lt_limit f)) rows in
  ((λ x, task_run_from_row x.1 x.2.1.1 x.2.1.2 x.2.2 s) <$> items, next).

(** *** Logs *)

Definition log_from_row (kl : Z * LogRow) : Log :=
  let l := kl.2 in
  mkLog kl.1 (l_run_id l) (l_task_run_id l) (l_level l) (l_logger l) (l_timestamp l) (l_message l).
Definition log_matches (f : LogFilter) (kl : Z * LogRow) : bool :=
  let l := kl.2 in
  clause (lf_run_id f) (λ i _, l_run_id l =? i) kl
  && clause (lf_task_run_id f) (λ i _, opt_is (l_task_run_id l) i) kl
  && clause (lf_min_level f) (λ n _, n <=? l_level l) kl
  && clause (lf_search f) (λ t _, like_within t (l_message l)) kl.
Definition logs (f : LogFilter) (s : Store) : list Log * option Z :=
  let rows := List.filter (λ kl, log_matches f kl && clause (lf_after_id f) (λ c x, c <? x.1) kl) (log s) in
  let '(items, next) := page fst (page_limit 1000 (Z.to_nat 10000) (lf_limit f)) rows in
  (log_from_row <$> items, next).
Definition logs_by_run (rid after_id : Z) (limit : nat) (s : Store) : list Log :=
  (logs (mkLogFilter (Some rid) None (Some after_id) None None (Some limit)) s).1.

(** *** Events *)

Definition event_matches (f : EventFilter) (ke : Z * EventRow) : bool :=
  let e := ke.2 in
  clause (efl_name f) (λ n _, name_clause (er_kind e) n) ke
  && clause (efl_resource_kind f) (λ k _, res_kind (er_resource e) =?s k) ke
  && clause (efl_resource_id f) (λ i _, res_id (er_resource e) =?s i) ke
  && clause (efl_run_id f) (λ i _, opt_is (er_run_id e) i) ke
  && clause (efl_flow_id f) (λ i _, opt_is (er_flow_id e) i) ke
  && clause (efl_after f) (λ t _, t <=? er_timestamp e) ke
  && clause (efl_before f) (λ t _, er_timestamp e <=? t) ke.
Definition query_events (f : EventFilter) (s : Store) : list Event * option Z :=
  let after (c : Z) (x : Z * EventRow) := if efl_ascending f then c <? x.1 else c >? x.1 in
  let rows := List.filter (λ ke, event_matches f ke && clause (efl_cursor f) after ke)
                (if efl_ascending f then event s else reverse (event s)) in
  let '(items, next) := page fst (page_limit 100 1000 (efl_limit f)) rows in
  (event_from_row <$> items, next).
Definition list_events (kind : option string) (after_id : Z) (limit : nat) (s : Store) : list Event :=
  (query_events (mkEventFilter kind None None None None None None (Some limit)
                   (if 0 <? after_id then Some after_id else None) (0 <? after_id)) s).1.
Definition get_event (id : Z) (s : Store) : option Event :=
  event_from_row <$> find (λ ke, ke.1 =? id) (event s).

(** *** Artifacts *)

Definition artifact_from_row (ka : Z * ArtifactRow) : Artifact :=
  let a := ka.2 in
  mkArtifact ka.1 (ar_external_id a) (ar_run_id a) (ar_task_run_id a) (ar_kind a) (ar_key a)
    (default VNull (value_from_str (ar_data a))) (ar_created_at a) (ar_updated_at a).
Definition artifact_list_from_row (x : ArtifactJoin) : ArtifactListItem :=
  mkArtifactListItem (artifact_from_row (x.1, x.2.1.1)) (r_name x.2.1.2) (fl_name x.2.2) (fl_project x.2.2).
Definition artifact_matches (f : ArtifactFilter) (x : ArtifactJoin) : bool :=
  let a := x.2.1.1 in
  let fl := x.2.2 in
  clause (af_kind f) (λ k _, ar_kind a =?s k) x
  && clause (af_key f) (λ k _, opt_is (ar_key a) k) x
  && clause (af_flow f) (λ n _, fl_name fl =?s n) x
  && clause (af_project f) (λ p _, fl_project fl =?s p) x
  && clause (af_group f) (λ g _, flow_group_of fl =?s g) x
  && clause (af_run_id f) (λ i _, ar_run_id a =? i) x
  && clause (af_task_run_id f) (λ i _, opt_is (ar_task_run_id a) i) x.
Definition list_artifacts (f : ArtifactFilter) (s : Store) : list ArtifactListItem * option Z :=
  let rows := List.filter (λ x, artifact_matches f x && clause (af_after f) (λ c x, c >? x.1) x)
                (reverse (omap (artifact_flow s) (artifact s))) in
  let '(items, next) := page fst (page_limit 50 500 (af_limit f)) rows in
  (artifact_list_from_row <$> items, next).
Definition artifacts_by_run (rid : Z) (s : Store) : list Artifact :=
  artifact_from_row <$> List.filter (λ ka, ar_run_id ka.2 =? rid) (artifact s).
Definition artifacts_by_task_run (tid : Z) (s : Store) : list Artifact :=
  artifact_from_row <$> List.filter (λ ka, opt_is (ar_task_run_id ka.2) tid) (artifact s).
Definition get_artifact (id : Z) (s : Store) : option Artifact :=
  artifact_from_row <$> find (λ ka, ka.1 =? id) (artifact s).

(** *** Rules and variables *)

Definition firing_from_row (kg : Z * FiringRow) : RuleFiring :=
  let g := kg.2 in
  mkRuleFiring kg.1 (g_rule_id g) (g_event_id g) (g_run_id g) (g_timestamp g)
    (match value_from_str (g_outcomes g) with Some (VArray l) => l | _ => [] end).
Definition list_firings (rid : Z) (limit : nat) (s : Store) : list RuleFiring :=
  firing_from_row <$> take (page_limit 0 1000 (Some limit))
    (List.filter (λ kg, g_rule_id kg.2 =? rid) (reverse (by_id (rule_firing (defs s))))).
Definition expectations_by_rule (rid : Z) (open_only : bool) (limit : nat) (s : Store) : list Expectation :=
  (λ kx, expectation_from_row kx.1 kx.2) <$> take (page_limit 0 1000 (Some limit))
    (List.filter (λ kx, (x_rule_id kx.2 =? rid) && (negb open_only || (x_status kx.2 =?s "open")))
       (reverse (by_id (expectation (defs s))))).

(** A secret is shown as stars; the raw value comes beside it. *)
Definition variable_from_row (name : string) (v : VariableTblRow) : VariableRow * string :=
  (mkVariableRow name
     (if v_secret v then VString "********" else default VNull (value_from_str (v_value v)))
     (json_list (v_tags v)) (v_secret v) (v_created_at v) (v_updated_at v), v_value v).
Definition list_variables (s : Store) : list VariableRow :=
  (λ kv, (variable_from_row kv.1 kv.2).1) <$> sort_by_text fst (map_to_list (variable (defs s))).
Definition get_variable (name : string) (s : Store) : option (VariableRow * string) :=
  variable_from_row name <$> variable (defs s) !! name.
Definition count_secret_variables (s : Store) : Z :=
  Z.of_nat (length (List.filter (λ kv, v_secret kv.2) (map_to_list (variable (defs s))))).

(** *** Single columns *)

Definition run_parameters_of (id : Z) (s : Store) : option Map :=
  (λ r, json_map (r_parameters r)) <$> Tables.run s !! id.
Definition get_run_by_external_id (id : Id) (s : Store) : option Run :=
  find (λ run, run_external_id run =?s id) (runs_where (λ _, true) s).
Definition flow_labels (s : Store) : list FlowLabel :=
  (λ kf, mkFlowLabel kf.1 (fl_project kf.2) (fl_name kf.2)) <$> by_id (flow s).
Definition flows_by_name (name : string) (s : Store) : list Flow :=
  omap (λ kf, if fl_name kf.2 =?s name then Some (flow_from_row kf.1 kf.2) else None) (by_id (flow s)).

(** *** Counts *)

Definition count_by {K} `{Countable K} (l : list K) : gmap K Z :=
  foldr (λ k m, <[k := default 0 (m !! k) + 1]> m) ∅ l.
(** By flow and state type; runs with no state are a group shown as Scheduled. *)
Definition run_counts (s : Store) : list (Z * string * Z) :=
  (λ kn, (kn.1.1, default "Scheduled" kn.1.2, kn.2))
  <$> map_to_list (count_by ((λ kr, (r_flow_id kr.2, c_type (r_cols kr.2))) <$> by_id (Tables.run s))).
Definition task_run_counts (s : Store) : list (string * Z) :=
  (λ kn, (default "Pending" kn.1, kn.2))
  <$> map_to_list (count_by ((λ kt, c_name (t_cols kt.2)) <$> by_id (task_run s))).

(** *** The queue and the timeline *)

Definition among (ids : list Z) (x : RunFlow) : bool := bool_decide (x.1 ∈ ids).
Definition queue_run_from_row (x : RunFlow) : QueueRun :=
  let r := x.2.1 in
  mkQueueRun x.1 (r_name r) (fl_name x.2.2) (fl_project x.2.2)
    (default (default "Scheduled" (c_type (r_cols r))) (c_name (r_cols r)))
    (r_created_by r) (r_backfill_id r) (r_schedule_id r) (r_scheduled_time r).
Definition timeline_run_row_from (x : RunFlow) : TimelineRunRow :=
  mkTimelineRunRow x.1 (fl_name x.2.2) (r_flow_id x.2.1) (r_scheduled_time x.2.1) (r_created_at x.2.1).
Definition queue_runs (ids : list Z) (s : Store) : list QueueRun :=
  queue_run_from_row <$> List.filter (among ids) (run_flows s).
Definition get_runs (ids : list Z) (s : Store) : list Run :=
  run_of_join s <$> List.filter (among ids) (run_flows s).
Definition timeline_run_rows (ids : list Z) (s : Store) : list TimelineRunRow :=
  timeline_run_row_from <$> List.filter (among ids) (run_flows s).
(** Scheduled and due in the window, soonest first. *)
Definition due_between (after until : Z) (limit : nat) (s : Store) : list RunFlow :=
  take limit (sort_by_key (λ x, default 0 (r_scheduled_time x.2.1))
    (List.filter (λ x, type_is "Scheduled" x.2.1
                       && match r_scheduled_time x.2.1 with
                          | Some t => (after <? t) && (t <=? until)
                          | None => false
                          end) (run_flows s))).
Definition scheduled_between (after until : Z) (limit : nat) (s : Store) : list Run :=
  run_of_join s <$> due_between after until limit s.
Definition scheduled_queue_runs (after until : Z) (limit : nat) (s : Store) : list QueueRun :=
  queue_run_from_row <$> due_between after until limit s.
Definition scheduled_timeline_run_rows (after until : Z) (limit : nat) (s : Store) : list TimelineRunRow :=
  timeline_run_row_from <$> due_between after until limit s.
Definition flow_options_by_id (ids : list Z) (s : Store) : gmap Z Map :=
  (λ f, json_map (fl_options f)) <$> filter (λ kf, kf.1 ∈ ids) (flow s).
Definition flow_names (ids : list Z) (s : Store) : gmap Z string :=
  list_to_map ((λ x, (x.1, fl_name x.2.2)) <$> List.filter (among ids) (run_flows s)).
Definition get_flows_by_ids (ids : list Z) (s : Store) : gmap Z Flow :=
  map_imap (λ i f, Some (flow_from_row i f)) (filter (λ kf, kf.1 ∈ ids) (flow s)).
Definition run_start_times (ids : list Z) (s : Store) : gmap Z (option Z) :=
  (λ r, start_time (r_counters r)) <$> filter (λ kr, kr.1 ∈ ids) (Tables.run s).

(** *** Per flow, per schedule, per backfill *)

(** [out.insert(id, v)] for every id that has a value. *)
Definition per_id {V} (f : Z → option V) (ids : list Z) : gmap Z V :=
  fold_left (λ m i, match f i with Some v => <[i := v]> m | None => m end) ids ∅.
Definition non_empty {A} (l : list A) : option (list A) := match l with [] => None | _ => Some l end.

Definition recent_run_states_many (fids : list Z) (limit : nat) (s : Store) : gmap Z (list RecentRun) :=
  per_id (λ f, non_empty (recent_run_states f limit s)) fids.

(** The newest run counted as completed, and its end. *)
Definition last_completed_at (fid : Z) (s : Store) : option Z :=
  match find (λ kr, (r_flow_id kr.2 =? fid)
                    && (default "Completed" (c_type (r_cols kr.2)) =?s "Completed"))
          (reverse (by_id (Tables.run s))) with
  | Some kr => end_time (r_counters kr.2)
  | None => None
  end.
Definition last_completed_at_many (fids : list Z) (s : Store) : gmap Z Z :=
  per_id (λ f, last_completed_at f s) fids.

Definition MEDIAN_SAMPLE : nat := 101.
Definition duration_sample (fid : Z) (s : Store) : list Z :=
  take MEDIAN_SAMPLE
    (omap (λ kr, if r_flow_id kr.2 =? fid then total_run_time (r_counters kr.2) else None)
       (reverse (by_id (Tables.run s)))).
(** [v.sort_unstable(); v[v.len() / 2]] *)
Definition middle (l : list Z) : option Z := sort_by_key id l !! (length l / 2)%nat.
Definition median_run_duration (fid : Z) (s : Store) : option Z := middle (duration_sample fid s).
Definition median_run_duration_many (fids : list Z) (s : Store) : gmap Z Z :=
  per_id (λ f, match duration_sample f s with [] => None | l => middle l end) fids.

Definition SkipRow : Type := Z * Z * string.
Definition list_skip_rows (sid : Z) (s : Store) : list SkipRow :=
  sort_by_key (λ r, r.1.1)
    (omap (λ e, if e.1.1 =? sid then Some (e.1.2, e.2.1, e.2.2) else None)
       (map_to_list (schedule_skip (defs s)))).
Definition skip_before (a b : (Z * Z) * (Z * string)) : Prop :=
  a.1.1 < b.1.1 ∨ (a.1.1 = b.1.1 ∧ a.1.2 ≤ b.1.2).
#[global] Instance skip_before_dec : RelDecision skip_before.
Proof using Type. intros a b. rw /skip_before. apply _. Defined.
(** [out.entry(id).or_default().push(v)] over the rows of the query. *)
Definition group_push {V} (m : gmap Z (list V)) (kv : Z * V) : gmap Z (list V) :=
  <[kv.1 := default [] (m !! kv.1) ++ [kv.2]]> m.
Definition list_skip_rows_many (sids : list Z) (s : Store) : gmap Z (list SkipRow) :=
  fold_left group_push
    ((λ e, (e.1.1, (e.1.2, e.2.1, e.2.2)))
     <$> stable_sort skip_before
           (List.filter (λ e, bool_decide (e.1.1 ∈ sids)) (map_to_list (schedule_skip (defs s))))) ∅.

Definition list_backfills (fid : option Z) (s : Store) : list Backfill :=
  (λ kb, backfill_from_row kb.1 kb.2)
  <$> take 200 (List.filter (λ kb, match fid with Some f => b_flow_id kb.2 =? f | None => true end)
                  (reverse (by_id (backfill (defs s))))).
Definition backfill_counts_many (bids : list Z) (s : Store) : gmap Z (list (string * Z)) :=
  fold_left group_push
    ((λ kn, (kn.1.1, (default "Scheduled" kn.1.2, kn.2)))
     <$> map_to_list (count_by (omap (λ kr, match r_backfill_id kr.2 with
                                            | Some b => if bool_decide (b ∈ bids)
                                                        then Some (b, c_name (r_cols kr.2)) else None
                                            | None => None
                                            end) (by_id (Tables.run s))))) ∅.

(** The text of a parameter of a run. *)
Definition param_text (key : string) (r : RunRow) : option string :=
  map_get key (json_map (r_parameters r)) ≫= sql_text.
(** Of [values], those whose latest run of the flow is Completed.  [key] is the
    name of a parameter, without the characters [.] and [[] of a JSON path. *)
Definition latest_completed_param_values (fid : Z) (key : string) (values : list string) (s : Store)
    : gset string :=
  list_to_set (List.filter (λ v,
    match find (λ kr, (r_flow_id kr.2 =? fid) && opt_is (param_text key kr.2) v)
            (reverse (by_id (Tables.run s))) with
    | Some kr => type_is "Completed" kr.2
    | None => false
    end) values).
End pages.

(** ** Following the cursors *)

Lemma walk_map {A B} (g : A → B) (read : option Z → list A * option Z) n c :
  walk (λ c, let '(items, next) := read c in (g <$> items, next)) n c = g <$> walk read n c.
Proof.
  revert c. induction n as [|n IH]; intros c; [done|]. cbn [walk]. destruct (read c) as [items [next|]].
  - by rw IH fmap_app.
  - by rw fmap_app.
Qed.
Lemma walk_ext {A} (r1 r2 : option Z → list A * option Z) n c : (∀ c, r1 c = r2 c) → walk r1 n c = walk r2 n c.
Proof.
  intros He. revert c. induction n as [|n IH]; intros c; [done|]. cbn [walk]. rw He.
  destruct (r2 c) as [items [next|]]; [by rw IH|done].
Qed.
Lemma filter_both {A} (p q : A → bool) l : List.filter (λ x, p x && q x) l = List.filter q (List.filter p l).
Proof.
  induction l as [|x l IH]; [done|]. simpl. destruct (p x); simpl; [|done]. destruct (q x); by rw IH.
Qed.
Lemma sorted_filter {A} (R : relation A) (p : A → bool) l :
  StronglySorted R l → StronglySorted R (List.filter p l).
Proof.
  induction 1 as [|x l Hs IH Hx]; simpl; [constructor|]. destruct (p x); [|done]. constructor; [done|].
  apply Forall_forall. intros y Hy. apply list_elem_of_In, List.filter_In in Hy as [Hy _].
  by apply (proj1 (Forall_forall _ _) Hx), list_elem_of_In.
Qed.
Lemma sorted_omap {A B} (R : relation A) (S : relation B) (f : A → option B) l :
  (∀ x y a b, R x y → f x = Some a → f y = Some b → S a b) →
  StronglySorted R l → StronglySorted S (omap f l).
Proof.
  intros Hrs. induction 1 as [|x l Hs IH Hx]; simpl; [constructor|]. destruct (f x) as [a|] eqn:E; [|done].
  constructor; [done|]. apply Forall_forall. intros b Hb. apply list_elem_of_omap in Hb as (y & Hy & Hf).
  eapply Hrs; [|done..]. by apply (proj1 (Forall_forall _ _) Hx).
Qed.
Lemma sorted_weaken {A} (R S : relation A) l :
  (∀ x y, R x y → S x y) → StronglySorted R l → StronglySorted S l.
Proof. intros Hi. induction 1; constructor; [done|]. by eapply Forall_impl; [|apply Hi]. Qed.
Lemma sorted_reverse {A} (R : relation A) l : StronglySorted R l → StronglySorted (flip R) (reverse l).
Proof.
  induction 1 as [|x l Hs IH Hx]; [constructor|]. rw reverse_cons. apply StronglySorted_app.
  split_and!; [|done|by repeat constructor].
  intros y z Hy Hz%list_elem_of_singleton. subst z. rw elem_of_reverse in Hy. rw /flip.
  by apply (proj1 (Forall_forall _ _) Hx).
Qed.
(** The rows of a table are in strict id order. *)
Lemma by_id_strict {A} (m : gmap Z A) : StronglySorted (λ x y, (x.1 <? y.1) = true) (by_id m).
Proof.
  pose proof (sort_by_key_sorted fst (map_to_list m)) as Hs. pose proof (by_id_nodup m) as Hnd.
  rw /by_id in Hnd *. induction Hs as [|x l Hs IH Hx]; constructor.
  - apply IH. by apply NoDup_cons in Hnd as [_ ?].
  - apply NoDup_cons in Hnd as [Hni _]. apply Forall_forall. intros y Hy.
    pose proof (proj1 (Forall_forall _ _) Hx y Hy) as Hle. rw /key_le in Hle. apply Z.ltb_lt.
    assert (x.1 ≠ y.1); [|lia]. intros E. apply Hni. rw E. by apply list_elem_of_fmap_2.
Qed.

(** A reader of pages: the rows that match, in the order of the query, each
    after the ones before it. *)
Lemma pages_walk {A B} (g : A → B) (ident : A → Z) (after : Z → Z → bool) (d m : nat) (limit : option nat)
    (p : A → bool) (rows : list A) (n : nat) :
  (0 < m)%nat → (after = Z.ltb ∨ after = Z.gtb) →
  StronglySorted (λ x y, after (ident x) (ident y) = true) rows → (length rows < n)%nat →
  walk (λ c, let '(items, next) := page ident (page_limit d m limit)
                 (List.filter (λ x, p x && clause c (λ c x, after c (ident x)) x) rows) in
             (g <$> items, next)) n None = g <$> List.filter p rows.
Proof.
  intros Hm Ha Hs Hn. rw walk_map. f_equal.
  rw (walk_ext _ (read_after ident after (page_limit d m limit) (List.filter p rows))).
  - apply walk_all.
    + rw /page_limit. lia.
    + by apply sorted_filter.
    + intros z. destruct Ha as [-> | ->]; [apply Z.ltb_irrefl|]. by rw Z.gtb_ltb Z.ltb_irrefl.
    + intros a b. destruct Ha as [-> | ->]; rw ?Z.gtb_ltb ?Z.ltb_lt ?Z.ltb_ge; lia.
    + pose proof (List.filter_length_le p rows). lia.
  - intros c. by rw /read_after filter_both.
Qed.

Section complete.
Context `{StoreEnv, ReaderEnv, RowEnv}.

Lemma run_flows_sorted s : StronglySorted (λ x y : RunFlow, (x.1 <? y.1) = true) (run_flows s).
Proof using Type.
  apply (sorted_omap (λ x y, (x.1 <? y.1) = true)); [|apply by_id_strict].
  intros x y a b Hxy. rw /run_flow. destruct (flow s !! _); [intros [= <-]|done].
  destruct (flow s !! _); [by intros [= <-]|done].
Qed.
Lemma task_flows_sorted s : StronglySorted (λ x y : TaskJoin, (x.1 <? y.1) = true) (task_flows s).
Proof using Type.
  apply (sorted_omap (λ x y, (x.1 <? y.1) = true)); [|apply by_id_strict].
  intros x y a b Hxy. rw /task_flow. intros Hx Hy.
  repeat match goal with H : _ ≫= _ = Some _ |- _ => apply bind_Some in H as (? & ? & H) end.
  by simplify_eq/=.
Qed.

Definition with_cursor (c : option Z) (f : ListRunsFilter) : ListRunsFilter :=
  mkListRunsFilter (lr_project f) (lr_group f) (lr_flow f) (lr_flow_id f) (lr_state_type f)
    (lr_state_name f) (lr_name f) (lr_tags f) (lr_params f) (lr_attributes f) (lr_start_after f)
    (lr_start_before f) (lr_sort f) (lr_limit f) c (lr_schedule_id f) (lr_backfill_id f)
    (lr_scheduled_after f).
Definition with_task_cursor (c : option Z) (f : ListTaskRunsFilter) : ListTaskRunsFilter :=
  mkListTaskRunsFilter (lt_run_id f) (lt_pass f) (lt_project f) (lt_group f) (lt_flow f)
    (lt_state_type f) (lt_state_name f) (lt_name f) (lt_start_after f) (lt_start_before f) (lt_limit f) c.

Lemma run_order_sorted sort op s :
  run_keyset sort = Some op →
  (op = Z.ltb ∨ op = Z.gtb) ∧
  StronglySorted (λ x y : RunFlow, op x.1 y.1 = true) (run_order sort (run_flows s)) ∧
  length (run_order sort (run_flows s)) = length (run_flows s).
Proof using Type.
  destruct sort; intros [= <-]; cbn [run_order].
  - split_and!; [by left|apply run_flows_sorted|done].
  - split_and!; [by right| |apply length_reverse].
    eapply sorted_weaken; [|apply sorted_reverse, run_flows_sorted].
    intros x y. rw /flip Z.gtb_ltb. done.
Qed.

(** C20: Following the cursors of a list shows every match once: with an order
    that pages by id, the pages of [list_runs] and of [list_task_runs], read
    one after the other from the store as it is, are together all rows that
    match the filter, in the order of the list, whatever the limit. *)
Theorem pages_complete (now : Z) (f : ListRunsFilter) (tf : ListTaskRunsFilter) (s : Store) (n : nat) op :
  run_keyset (run_sort (lr_sort f)) = Some op →
  (length (run_flows s) < n)%nat → (length (task_flows s) < n)%nat →
  walk (λ c, list_runs now (with_cursor c f) s) n None =
    run_of_join s <$> List.filter (run_matches now f) (run_order (run_sort (lr_sort f)) (run_flows s)) ∧
  walk (λ c, list_task_runs (with_task_cursor c tf) s) n None =
    (λ x, task_run_from_row x.1 x.2.1.1 x.2.1.2 x.2.2 s) <$> List.filter (task_matches tf) (reverse (task_flows s)).
Proof using Type.
  intros Hk Hn Ht. destruct (run_order_sorted _ _ s Hk) as (Hop & Hs & Hl). split.
  - etrans; [|apply (pages_walk (run_of_join s) fst op 50 500 (lr_limit f)); [lia|done|done|by rw Hl]].
    apply walk_ext. intros c. rw /list_runs. cbn [with_cursor lr_sort lr_cursor lr_limit]. cbv zeta.
    rw Hk. cbn [is_some is_none negb].
    assert ((λ x : RunFlow, run_matches now (with_cursor c f) x
               && match c with Some c' => op c' x.1 | None => true end) =
            (λ x, run_matches now f x && clause c (λ c x, op c x.1) x)) as -> by (by destruct c).
    done.
  - etrans; [|apply (pages_walk _ fst Z.gtb 50 500 (lt_limit tf)); [lia|by right| |by rw length_reverse]];
      [apply walk_ext; by intros c|].
    eapply sorted_weaken; [|apply sorted_reverse, task_flows_sorted].
    intros x y. rw /flip Z.gtb_ltb. done.
Qed.
End complete.

(** ** Many at once *)

Lemma per_id_snoc {V} (f : Z → option V) ids j :
  per_id f (ids ++ [j]) = match f j with Some v => <[j := v]> (per_id f ids) | None => per_id f ids end.
Proof. rw /per_id fold_left_app. done. Qed.
Lemma per_id_lookup {V} (f : Z → option V) ids i :
  per_id f ids !! i = if decide (i ∈ ids) then f i else None.
Proof.
  induction ids as [|j ids IH] using rev_ind; [by rw /per_id /= lookup_empty|].
  rw per_id_snoc. destruct (decide (i = j)) as [->|Hne].
  - rw decide_True; [|set_solver]. destruct (f j) as [v|] eqn:E; [by rw lookup_insert_eq|].
    rw IH. by destruct (decide _).
  - assert (match f j with Some v => <[j := v]> (per_id f ids) | None => per_id f ids end !! i
            = per_id f ids !! i) as -> by (destruct (f j); [by rw lookup_insert_ne|done]).
    rw IH. destruct (decide (i ∈ ids)); [rw decide_True //; set_solver|rw decide_False //; set_solver].
Qed.
Lemma filter_of_fmap {A V} (kf : A → Z) (vf : A → V) l k :
  (List.filter (λ kv, kv.1 =? k) ((λ e, (kf e, vf e)) <$> l)).*2 = vf <$> List.filter (λ e, kf e =? k) l.
Proof.
  induction l as [|e l IH]; [done|]. rw !fmap_cons. cbn [List.filter fst].
  destruct (kf e =? k); rw ?fmap_cons IH; done.
Qed.
Lemma group_push_lookup {V} (l : list (Z * V)) m k :
  default [] (fold_left group_push l m !! k) =
  default [] (m !! k) ++ (List.filter (λ kv, kv.1 =? k) l).*2.
Proof.
  revert m. induction l as [|[j v] l IH]; intros m; simpl; [by rw app_nil_r|].
  rw IH /group_push /=. destruct (Z.eqb_spec j k) as [->|Hne]; simpl.
  - by rw lookup_insert_eq /= -assoc.
  - by rw lookup_insert_ne.
Qed.
Lemma nodup_filter {A} (p : A → bool) (l : list A) : NoDup l → NoDup (List.filter p l).
Proof. intros Hl. by apply NoDup_ListNoDup, List.NoDup_filter, NoDup_ListNoDup. Qed.
Lemma sorted_fmap {A B} (R : relation A) (S : relation B) (g : A → B) l :
  (∀ x y, x ∈ l → y ∈ l → R x y → S (g x) (g y)) → StronglySorted R l → StronglySorted S (g <$> l).
Proof.
  intros Hrs Hs. induction Hs as [|x l Hs IH Hx]; simpl; constructor.
  - apply IH. intros y z Hy Hz. apply Hrs; set_solver.
  - apply Forall_forall. intros b Hb. apply list_elem_of_fmap in Hb as (y & -> & Hy).
    apply Hrs; [set_solver..|]. by apply (proj1 (Forall_forall _ _) Hx).
Qed.
#[global] Instance skip_before_total : Total skip_before.
Proof. intros a b. rw /skip_before. lia. Qed.
#[global] Instance skip_before_trans : Transitive skip_before.
Proof. intros a b c. rw /skip_before. lia. Qed.

Section many.
Context `{StoreEnv, ReaderEnv, RowEnv}.

Lemma elem_of_skip_rows sid s r :
  r ∈ list_skip_rows sid s ↔ schedule_skip (defs s) !! (sid, r.1.1) = Some (r.1.2, r.2).
Proof using Type.
  rw /list_skip_rows elem_of_sort_by_key list_elem_of_omap. split.
  - intros ([[a b] [c d]] & Hin & Hif). apply elem_of_map_to_list in Hin. simpl in Hif.
    destruct (Z.eqb_spec a sid); simplify_eq/=. done.
  - intros Hl. exists ((sid, r.1.1), (r.1.2, r.2)). split; [by apply elem_of_map_to_list|].
    simpl. rw Z.eqb_refl. by destruct r as [[]].
Qed.
Lemma skip_rows_nodup sid s : NoDup (list_skip_rows sid s).
Proof using Type.
  rw /list_skip_rows sort_by_key_perm. pose proof (NoDup_map_to_list (schedule_skip (defs s))) as Hnd.
  induction Hnd as [|[[a b] [c d]] l Hni Hnd IH]; simpl; [constructor|].
  destruct (Z.eqb_spec a sid) as [->|]; [|done]. apply NoDup_cons. split; [|done].
  intros Hin. apply list_elem_of_omap in Hin as ([[a' b'] [c' d']] & Hin & Hif). simpl in Hif.
  destruct (Z.eqb_spec a' sid); by simplify_eq/=.
Qed.
Lemma skip_rows_many sids sid s :
  sid ∈ sids → default [] (list_skip_rows_many sids s !! sid) = list_skip_rows sid s.
Proof using Type.
  intros Hsid. rw /list_skip_rows_many group_push_lookup lookup_empty /=.
  set (rows := stable_sort skip_before _). symmetry.
  assert (Hrow : ∀ e, e ∈ rows ↔ e.1.1 ∈ sids ∧ schedule_skip (defs s) !! e.1 = Some e.2).
  { intros [k v]. rw /rows stable_sort_perm. rw list_elem_of_In List.filter_In -list_elem_of_In.
    rw elem_of_map_to_list bool_decide_eq_true. naive_solver. }
  assert (Hsort : StronglySorted skip_before rows) by apply: stable_sort_sorted.
  assert (Hdup : NoDup rows).
  { rw /rows stable_sort_perm. apply nodup_filter, NoDup_map_to_list. }
  rw filter_of_fmap. set (mine := List.filter (λ e : (Z * Z) * (Z * string), e.1.1 =? sid) rows).
  assert (Hmine : ∀ e, e ∈ mine → e.1.1 = sid ∧ e ∈ rows).
  { intros e He. apply list_elem_of_In, List.filter_In in He as [He%list_elem_of_In ?%Z.eqb_eq]. done. }
  apply (sorted_perm_eq (λ r : SkipRow, r.1.1)).
  - apply sort_by_key_sorted.
  - eapply sorted_fmap; [|by apply sorted_filter].
    intros x y [Hx _]%Hmine [Hy _]%Hmine. rw /skip_before /key_le /=. lia.
  - intros x y Hx%elem_of_skip_rows Hy%elem_of_skip_rows E.
    destruct x as [[]], y as [[]]; simpl in *; congruence.
  - apply NoDup_Permutation.
    + apply skip_rows_nodup.
    + apply NoDup_fmap_2_strong; [|by apply nodup_filter].
      intros [[a b] [c d]] [[a' b'] [c' d']] [Ha _]%Hmine [Ha' _]%Hmine [= -> -> ->]. simpl in *. congruence.
    + intros r. rw elem_of_skip_rows list_elem_of_fmap. split.
      * intros Hl. exists ((sid, r.1.1), (r.1.2, r.2)). split; [by destruct r as [[]]|].
        apply list_elem_of_In, List.filter_In. split; [|apply Z.eqb_refl].
        by apply list_elem_of_In, Hrow.
      * intros ([[a b] [c d]] & -> & [Ha [_ Hl]%Hrow]%Hmine). simpl in *. by subst a.
Qed.

Lemma join_of_run s kr : join_run s kr = run_of_join s <$> run_flow s kr.
Proof using Type. rw /join_run /run_flow /run_of_join. by destruct (flow s !! _). Qed.

(** A reader that takes many ids at once says of each id what the reader for
    one id says: recent runs, medians, times of completion and skips, where an
    id without a value has no entry; and the narrow rows of the queue and of
    the timeline are the columns of the whole runs, in their order. *)
Theorem batched_agree (ids : list Z) (id : Z) (limit : nat) (after until : Z) (s : Store) :
  (id ∈ ids →
   default [] (recent_run_states_many ids limit s !! id) = recent_run_states id limit s ∧
   median_run_duration_many ids s !! id = median_run_duration id s ∧
   last_completed_at_many ids s !! id = last_completed_at id s ∧
   default [] (list_skip_rows_many ids s !! id) = list_skip_rows id s) ∧
  (qr_id <$> queue_runs ids s = run_id <$> get_runs ids s) ∧
  (qr_flow_name <$> queue_runs ids s = run_flow_name <$> get_runs ids s) ∧
  (tl_id <$> scheduled_timeline_run_rows after until limit s = run_id <$> scheduled_between after until limit s) ∧
  (qr_id <$> scheduled_queue_runs after until limit s = run_id <$> scheduled_between after until limit s).
Proof using Type.
  split_and!; [|by rw /queue_runs /get_runs /scheduled_timeline_run_rows /scheduled_queue_runs
                       /scheduled_between -!list_fmap_compose..].
  intros Hin. split_and!.
  - rw /recent_run_states_many per_id_lookup decide_True //. by destruct (recent_run_states id limit s).
  - rw /median_run_duration_many per_id_lookup decide_True // /median_run_duration.
    by destruct (duration_sample id s).
  - by rw /last_completed_at_many per_id_lookup decide_True.
  - by apply skip_rows_many.
Qed.
End many.

(** ** Examples *)

(** Three runs of one flow, and pages of one run. *)
Definition paged_store : Store :=
  let row (id : Z) : RunRow :=
    mkRunRow ("r" +:+ dec id) 1 ("run-" +:+ dec id) "{}" "[]" (id * 10) "ui" None None 0 None 0 None None
      0 "{}" None None None None 0 None no_state
      (mkRunCounters 0 0 (Some (id * 10)) None (Some id)) in
  set_run (list_to_map ((λ i, (i, row i)) <$> [1; 2; 3]))
    (mkStore {[1 := mkFlowRow "f1" "shop" "load" "etl" "/srv" None "[]" "{}" 0 0 None "{}" None]} ∅ [] ∅ []
       ∅ [] [] [] [] Defs_empty 0 0).
Definition one_by_one : ListRunsFilter :=
  mkListRunsFilter None None None None None None None [] [] [] None None None (Some 1%nat) None None None None.
Definition no_reader : ReaderEnv := {| sql_json_text _ := EmptyString |}.
Definition no_rows_env : RowEnv := {| rule_spec_from_str _ := None; resources_from_str _ := None |}.

Lemma pages_complete_witness :
  run_keyset (run_sort (lr_sort one_by_one)) = Some Z.gtb ∧
  run_id <$> (list_runs (H := codec_env) (H0 := no_reader) 0 one_by_one paged_store).1 = [3] ∧
  run_id <$> walk (λ c, list_runs (H := codec_env) (H0 := no_reader) 0 (with_cursor c one_by_one) paged_store) 4 None
  = [3; 2; 1].
Proof.
  split; [done|]. split; [by vm_compute|].
  rw (proj1 (pages_complete (H := codec_env) (H0 := no_reader) 0 one_by_one
        (mkListTaskRunsFilter None None None None None None None None None None None None)
        paged_store 4 Z.gtb ltac:(done) ltac:(vm_compute; lia) ltac:(vm_compute; lia))).
  by vm_compute.
Defined.
Lemma batched_agree_witness :
  1 ∈ [1; 7] ∧
  median_run_duration_many [1; 7] paged_store !! 1 = Some 2 ∧
  median_run_duration 1 paged_store = Some 2.
Proof.
  split; [set_solver|].
  destruct (proj1 (batched_agree (H := codec_env) [1; 7] 1 2 0 10 paged_store)
              ltac:(set_solver)) as (_ & Hm & _).
  rw Hm. by vm_compute.
Defined.
