(* ===== verification/Access.v ===== *)
(** * Who is let in (server/src/guard.rs, server/src/auth.rs, server/src/base_path.rs, server/src/custom.rs)

    The layers a request passes before a handler sees it: the base path is
    stripped, the Host and the Origin are checked, and a credential is
    required.  A layer answers the request itself ([Err], the response) or
    hands it on ([Ok], the request the next layer sees).  The checks of the
    configuration a server starts with, and the token it makes up for itself
    when it is reachable from the network, are [start_config].

    The http crate is [HttpEnv]; the grammar of IP addresses is the Standard
    Library's of Rust and is written out.  An authenticator that panics is one
    that names nobody. *)

From S2P Require Import Prelude Float64 Json States Schedules Model Events ActiveIndex Resources WorkQueue.
From S2P Require Import Transitions GroupCommit Tables Store JsonCodec Reader StoreAdmin RuleReader Replay Pages.
From Stdlib Require Import Ascii.

Class HttpEnv : Type := {
  (** [HeaderValue::to_str] *)
  to_str : string → option string;
  (** [str::parse::<Uri>], as the path and the query *)
  parse_uri : string → option (string * option string);
}.

(** ** Text *)

Definition is_digit (c : ascii) : bool :=
  let n := nat_of_ascii c in (48 <=? n)%nat && (n <=? 57)%nat.
Definition is_alphanumeric (c : ascii) : bool :=
  let n := nat_of_ascii c in
  is_digit c || ((65 <=? n)%nat && (n <=? 90)%nat) || ((97 <=? n)%nat && (n <=? 122)%nat).
Definition one_of (cs : string) (c : ascii) : bool := contains_char c cs.
Definition str_all (p : ascii → bool) (s : string) : bool := forallb p (chars s).
Definition str_any (p : ascii → bool) (s : string) : bool := existsb p (chars s).

(** [str::matches(char).count()] *)
Fixpoint count_char (c : ascii) (s : string) : nat :=
  match s with
  | EmptyString => O
  | String a s' => ((if Ascii.eqb a c then 1 else 0) + count_char c s')%nat
  end.

(** [str::rsplit_once] *)
Fixpoint rsplit_once (c : ascii) (s : string) : option (string * string) :=
  match s with
  | EmptyString => None
  | String a s' =>
      match rsplit_once c s' with
      | Some (b, r) => Some (String a b, r)
      | None => if Ascii.eqb a c then Some (EmptyString, s') else None
      end
  end.

(** [s.split(set).next()] *)
Fixpoint before_any (p : ascii → bool) (s : string) : string :=
  match s with
  | EmptyString => EmptyString
  | String a s' => if p a then EmptyString else String a (before_any p s')
  end.

(** [str::parse::<u16>] *)
Definition parse_u16 (s : string) : option Z := parse_unsigned 65535 (default s (strip_prefix "+" s)).

(** ** IP addresses: [str::parse::<IpAddr>]

    A reader takes what it can from the front of a text and answers the rest. *)

Definition hex_value (c : ascii) : option Z :=
  let n := Z.of_nat (nat_of_ascii c) in
  if (48 <=? n) && (n <=? 57) then Some (n - 48)
  else if (97 <=? n) && (n <=? 102) then Some (n - 87)
  else if (65 <=? n) && (n <=? 70) then Some (n - 55)
  else None.
Definition radix_value (radix : Z) (c : ascii) : option Z :=
  opt_filter (λ d, d <? radix) (hex_value c).

Fixpoint read_digits (radix : Z) (acc : Z) (count : nat) (s : string) : Z * nat * string :=
  match s with
  | EmptyString => (acc, count, EmptyString)
  | String c s' =>
      match radix_value radix c with
      | Some d => read_digits radix (acc * radix + d) (S count) s'
      | None => (acc, count, s)
      end
  end.
Definition read_number (radix : Z) (max_digits : nat) (zero_prefix : bool) (limit : Z) (s : string) : option string :=
  let '(n, count, rest) := read_digits radix 0 O s in
  if (max_digits <? count)%nat || (count =? 0)%nat then None
  else if negb zero_prefix && starts_with s "0" && (1 <? count)%nat then None
  else if n <=? limit then Some rest else None.

(** [read_separator]: before every piece but the first. *)
Definition read_separator (sep : string) (i : nat) (read : string → option string) (s : string) : option string :=
  and_then (if (0 <? i)%nat then strip_prefix sep s else Some s) read.

Definition read_ipv4 (s : string) : option string :=
  foldl (λ rest i, and_then rest (read_separator "." i (read_number 10 3 false 255))) (Some s) (List.seq 0 4).

(** [read_groups], from group [i] with [limit] groups in all: how many were
    read, whether an embedded IPv4 address ended them, and the rest. *)
Fixpoint read_groups (room : nat) (limit i : nat) (s : string) : nat * bool * string :=
  match room with
  | O => (i, false, s)
  | S room' =>
      match (if (i <? limit - 1)%nat then read_separator ":" i read_ipv4 s else None) with
      | Some rest => ((i + 2)%nat, true, rest)
      | None =>
          match read_separator ":" i (read_number 16 4 true 65535) s with
          | Some rest => read_groups room' limit (S i) rest
          | None => (i, false, s)
          end
      end
  end.
Definition read_ipv6 (s : string) : option string :=
  let '(head_size, head_ipv4, rest) := read_groups 8 8 0 s in
  if (head_size =? 8)%nat then Some rest
  else if head_ipv4 then None
  else rest ← strip_prefix "::" rest;
       let limit := (8 - (head_size + 1))%nat in
       Some (read_groups limit limit 0 rest).2.
Definition is_ip (s : string) : bool :=
  match or_else (read_ipv4 s) (read_ipv6 s) with Some EmptyString => true | _ => false end.

(** ** Requests, responses and the configuration *)

(** Header names in lower case; [hr_trusted] is the marker of the Unix socket
    and [hr_user] the user the authenticator named. *)
Record HttpRequest : Type := mkHttpRequest {
  hr_path : string;
  hr_query : option string;
  hr_authority : option string;
  hr_headers : list (string * string);
  hr_trusted : bool;
  hr_user : option string;
}.
Definition header (name : string) (r : HttpRequest) : option string :=
  snd <$> head (List.filter (λ h, h.1 =?s name) (hr_headers r)).

Inductive Body : Type :=
| BEmpty
| BText (s : string)
| BHtml (s : string)
| BJson (v : Value).
Record Response : Type := mkResponse { rp_status : Z; rp_location : option string; rp_body : Body }.

Record RouteSpec : Type := mkRouteSpec { rt_id : Z; rt_method : string; rt_path : string; rt_source : option string }.

(** The fields of the configuration that decide who is let in. *)
Record ServeConfig : Type := mkServeConfig {
  sc_host : string;
  sc_custom_routes : list RouteSpec;
  sc_token : option string;
  sc_base_path : string;
  sc_auth_cookie : option string;
  sc_auth_scope : string;
  sc_login_url : option string;
  sc_allowed_hosts : list string;
  sc_allow_unauthenticated : bool;
  sc_token_file : option string;
  sc_metrics_public : bool;
}.
Definition set_token (t : string) (c : ServeConfig) : ServeConfig :=
  mkServeConfig (sc_host c) (sc_custom_routes c) (Some t) (sc_base_path c) (sc_auth_cookie c) (sc_auth_scope c)
    (sc_login_url c) (sc_allowed_hosts c) (sc_allow_unauthenticated c) (sc_token_file c) (sc_metrics_public c).
Definition set_token_file (path : string) (c : ServeConfig) : ServeConfig :=
  mkServeConfig (sc_host c) (sc_custom_routes c) (sc_token c) (sc_base_path c) (sc_auth_cookie c) (sc_auth_scope c)
    (sc_login_url c) (sc_allowed_hosts c) (sc_allow_unauthenticated c) (Some path) (sc_metrics_public c).

Inductive ServerError : Type :=
| Config (message : string)
| Bind (addr source : string)
| Io (source : string).

Abbreviation Hook := (string → option string).

(** ** The guard of Host and Origin (guard.rs) *)

Module Guard.
Section guard.
Context `{HttpEnv}.

Definition HOW_TO_ALLOW : string :=
  "add it to allowed_hosts (--allowed-host, CEREYAN_ALLOWED_HOSTS, or [server] allowed_hosts)".

Definition normalize (host : string) : string :=
  let host := trim host in
  to_ascii_lowercase (default host (and_then (strip_prefix "[" host) (strip_suffix_char "]"%char))).

Record Guard : Type := mkGuard { configured : string; allowed : list string }.
Definition new (c : ServeConfig) : Guard := mkGuard (normalize (sc_host c)) (normalize <$> sc_allowed_hosts c).

Definition listed (g : Guard) (host : string) : bool := existsb (λ a, a =?s host) (allowed g).
Definition host_allowed (g : Guard) (host : string) : bool :=
  is_ip host || (host =?s "localhost") || (host =?s configured g) || listed g host.

Definition split_authority (authority : string) : option (string * option Z) :=
  let authority := trim authority in
  parts ←
    match strip_prefix "[" authority with
    | Some rest =>
        '(host, after) ← split_once "]"%char rest;
        if str_is_empty after then Some (host, None)
        else p ← strip_prefix ":" after; Some (host, Some p)
    | None =>
        if (1 <? count_char ":" authority)%nat then Some (authority, None)
        else match rsplit_once ":" authority with
             | Some (h, p) => Some (h, Some p)
             | None => Some (authority, None)
             end
    end;
  let '(host, port) := parts in
  if str_is_empty host then None
  else match port with
       | Some p => n ← parse_u16 p; Some (to_ascii_lowercase host, Some n)
       | None => Some (to_ascii_lowercase host, None)
       end.

Definition origin_allowed (g : Guard) (origin : string) (host_header : option string) : bool :=
  match split_once_str "://" origin with
  | None => false
  | Some (scheme, authority) =>
      let default_port :=
        if to_ascii_lowercase scheme =?s "http" then Some 80
        else if to_ascii_lowercase scheme =?s "https" then Some 443
        else None in
      match default_port with
      | None => false
      | Some default_port =>
          if str_any (one_of "/?#@") authority then false
          else match split_authority authority with
               | None => false
               | Some (host, port) =>
                   if listed g host then true
                   else match and_then host_header split_authority with
                        | None => false
                        | Some (own, own_port) =>
                            (host =?s own)
                            && match own_port with Some p => p =? default default_port port | None => true end
                        end
               end
      end
  end.

Definition valid_entry (entry : string) : bool :=
  let host := normalize entry in
  is_ip host
  || forallb (λ label, negb (str_is_empty label) && str_all (λ b, is_alphanumeric b || Ascii.eqb b "-"%char) label)
       (split_char "." host).
Definition check_config (c : ServeConfig) : result unit ServerError :=
  match List.find (λ e, negb (valid_entry e)) (sc_allowed_hosts c) with
  | Some entry =>
      Err (Config ("invalid allowed_hosts entry " +:+ debug_str entry
        +:+ ": expected a host name or an IP address, without a scheme, port, or path"))
  | None => Ok tt
  end.

Definition refuse_host (host : string) : Response :=
  let error := "this server does not answer to host " +:+ debug_str host
               +:+ ": if you reach it under that name, " +:+ HOW_TO_ALLOW in
  mkResponse 403 None (BJson (VObject [("error", VString error); ("host", VString host)])).
Definition refuse_origin (origin : string) : Response :=
  let error := "requests from pages at " +:+ debug_str origin
               +:+ " are refused: if you trust pages on that host, " +:+ HOW_TO_ALLOW in
  mkResponse 403 None (BJson (VObject [("error", VString error); ("origin", VString origin)])).

Definition check (g : Guard) (req : HttpRequest) : result HttpRequest Response :=
  if hr_trusted req then Ok req
  else
    let? host :=
      match header "host" req with
      | Some value => match to_str value with Some v => Ok (Some v) | None => Err (refuse_host EmptyString) end
      | None => Ok (hr_authority req)
      end in
    let? _ :=
      match host with
      | None => Ok tt
      | Some raw =>
          match split_authority raw with
          | Some (name, _) => if host_allowed g name then Ok tt else Err (refuse_host name)
          | None => Err (refuse_host raw)
          end
      end in
    match header "origin" req with
    | Some value =>
        let origin := default EmptyString (to_str value) in
        if origin_allowed g origin host then Ok req else Err (refuse_origin origin)
    | None => Ok req
    end.
End guard.
End Guard.

(** ** The base path (base_path.rs) *)

Module BasePath.
Section base_path.
Context `{HttpEnv}.

Definition valid_segment (seg : string) : bool :=
  negb (str_is_empty seg) && negb (seg =?s ".") && negb (seg =?s "..")
  && str_all (λ b, is_alphanumeric b || one_of "-._~" b) seg.
Definition check (base_path : string) : result unit ServerError :=
  if str_is_empty base_path then Ok tt
  else
    let valid := match strip_prefix "/" base_path with
                 | Some rest => forallb valid_segment (split_char "/" rest)
                 | None => false
                 end in
    if valid then Ok tt
    else Err (Config ("invalid base path " +:+ debug_str base_path +:+ ": expected "
                      +:+ debug_str EmptyString +:+ " or /segment[/segment...]")).

(** The request under its new URI, which has no authority. *)
Definition set_uri (uri : string * option string) (r : HttpRequest) : HttpRequest :=
  mkHttpRequest uri.1 uri.2 None (hr_headers r) (hr_trusted r) (hr_user r).

Definition strip (base : string) (req : HttpRequest) : result HttpRequest Response :=
  if str_is_empty base then Ok req
  else
    let path := hr_path req in
    if (path =?s "/") || (path =?s base) then Err (mkResponse 307 (Some (base +:+ "/")) BEmpty)
    else
      match opt_filter (λ r, starts_with r "/") (strip_prefix base path) with
      | None => Err (mkResponse 404 None (BText "not found"))
      | Some rest =>
          let target := match hr_query req with Some q => rest +:+ "?" +:+ q | None => rest end in
          match parse_uri target with
          | Some uri => Ok (set_uri uri req)
          | None => Err (mkResponse 400 None BEmpty)
          end
      end.
End base_path.
End BasePath.

(** ** The credential (auth.rs) *)

Module Auth.
Section auth.
Context `{HttpEnv}.

Definition COOKIE_NAME : string := "cereyan_token".

Definition byte (c : ascii) : Z := Z.of_nat (nat_of_ascii c).
(** [zip] of the bytes, and the differences accumulated over it. *)
Definition differences (a b : string) : Z :=
  foldl (λ acc xy, Z.lor acc (Z.lxor (byte xy.1) (byte xy.2))) 0 (zip (chars a) (chars b)).
(** The comparison also touches every byte when the lengths differ; that pass
    has no result. *)
Definition equal (a b : string) : bool :=
  if negb (str_len a =? str_len b)%nat then false else differences a b =? 0.

Definition cookie_value (req : HttpRequest) (name : string) : option string :=
  raw ← and_then (header "cookie" req) to_str;
  head (omap (λ part, trim <$> and_then (strip_prefix name (trim part)) (strip_prefix "=")) (split_char ";" raw)).
Definition bearer_token (req : HttpRequest) : option string :=
  raw ← and_then (header "authorization" req) to_str;
  '(scheme, value) ← split_once " " raw;
  if eq_ignore_ascii_case scheme "bearer" then Some (trim value) else None.

Definition protected (path : string) (all metrics_public : bool) : bool :=
  if (path =?s "/api/health") || (metrics_public && (path =?s "/api/metrics")) then false
  else all || (path =?s "/mcp") || starts_with path "/api/".

(** The token file: its text when it could be read, a fresh token, and what
    writing a new file answers. *)
Definition load_or_create_token_file (file : option string) (fresh : string) (written : result unit string)
    : result (string * bool) string :=
  match opt_filter (λ t, negb (str_is_empty t)) (trim <$> file) with
  | Some existing => Ok (existing, false)
  | None => let? _ := written in Ok (fresh, true)
  end.

Definition valid_cookie_name (name : string) : bool :=
  negb (str_is_empty name) && str_all (λ b, is_alphanumeric b || one_of "!#$%&'*+-.^_`|~" b) name.
Definition is_control (c : ascii) : bool :=
  let n := nat_of_ascii c in (n <? 32)%nat || (n =? 127)%nat.
Definition valid_login_url (url : string) : bool :=
  if str_any (λ c, is_control c || is_white_space c) url then false
  else match strip_prefix "/" url with
       | Some rest => negb (starts_with rest "/") && negb (starts_with rest "\")
       | None =>
           let lower := to_ascii_lowercase url in
           existsb (λ scheme, match strip_prefix scheme lower with
                              | Some rest => negb (str_is_empty (before_any (one_of "/?#") rest))
                              | None => false
                              end) ["http://"; "https://"]
       end.

Definition check (c : ServeConfig) (authenticator : bool) : result unit ServerError :=
  let? _ :=
    if sc_auth_scope c =?s "api" then Ok tt
    else if sc_auth_scope c =?s "all" then
      if authenticator then Ok tt
      else Err (Config ("auth_scope = " +:+ debug_str "all" +:+ " requires enable_auth and a registered authenticator"))
    else Err (Config ("invalid auth_scope " +:+ debug_str (sc_auth_scope c) +:+ ": expected "
                      +:+ debug_str "api" +:+ " or " +:+ debug_str "all")) in
  let? _ :=
    match sc_auth_cookie c with
    | None => Ok tt
    | Some name =>
        if name =?s COOKIE_NAME then
          Err (Config ("auth_cookie cannot be " +:+ debug_str COOKIE_NAME +:+ ": that cookie holds the API token"))
        else if negb (valid_cookie_name name) then
          Err (Config ("invalid auth_cookie " +:+ debug_str name +:+ ": expected a cookie name"))
        else Ok tt
    end in
  match sc_login_url c with
  | Some url =>
      if valid_login_url url then Ok tt
      else Err (Config ("invalid login_url " +:+ debug_str url
                        +:+ ": expected an http or https URL, or a path starting with /"))
  | None => Ok tt
  end.

Definition wants_html (req : HttpRequest) : bool :=
  match and_then (header "accept" req) to_str with
  | Some accept => contains_str "text/html" accept
  | None => false
  end.
Definition escape_html (text : string) : string :=
  foldr (λ c acc,
    let n := nat_of_ascii c in
    (if (n =? 38)%nat then "&amp;" else if (n =? 60)%nat then "&lt;" else if (n =? 62)%nat then "&gt;"
     else if (n =? 34)%nat then "&quot;" else if (n =? 39)%nat then "&#39;" else String c EmptyString) +:+ acc)
    EmptyString (chars text).
Definition sign_in_page (login_url : option string) : string :=
  let q := String dquote EmptyString in
  let link := match login_url with
              | Some url => "<p><a href=" +:+ q +:+ escape_html url +:+ q +:+ ">Sign in</a></p>"
              | None => EmptyString
              end in
  "<!doctype html><html><head><meta charset=" +:+ q +:+ "utf-8" +:+ q
  +:+ "><title>Not signed in</title></head><body><h1>Not signed in</h1><p>Sign in with your identity provider, then reload this page.</p>"
  +:+ link +:+ "</body></html>".

Definition reject (c : ServeConfig) (hook : bool) (req : HttpRequest) (sent : bool) : Response :=
  if (sc_auth_scope c =?s "all") && wants_html req then
    mkResponse 401 None (BHtml (sign_in_page (sc_login_url c)))
  else
    let error := match hook, sent with
      | false, false => "this server requires an API token: send Authorization: Bearer <token> (CEREYAN_TOKEN or --token)"
      | false, true => "the API token was rejected"
      | true, false => "not signed in: send a credential in the Authorization header or the sign-in cookie"
      | true, true => "the credential was rejected"
      end in
    mkResponse 401 None (BJson (VObject
      [("auth", VString (if hook then "hook" else "token")); ("error", VString error);
       ("login_url", match sc_login_url c with Some u => VString u | None => VNull end)])).

Definition presented (req : HttpRequest) : option string :=
  or_else (bearer_token req) (cookie_value req COOKIE_NAME).
Definition credential (c : ServeConfig) (req : HttpRequest) : option string :=
  opt_filter (λ x, negb (str_is_empty x))
    (or_else (bearer_token req) (and_then (sc_auth_cookie c) (cookie_value req))).
Definition set_user (user : string) (r : HttpRequest) : HttpRequest :=
  mkHttpRequest (hr_path r) (hr_query r) (hr_authority r) (hr_headers r) (hr_trusted r) (Some user).

Definition require_token (c : ServeConfig) (hook : option Hook) (req : HttpRequest) : result HttpRequest Response :=
  if is_none (sc_token c) && is_none hook then Ok req
  else if hr_trusted req || negb (protected (hr_path req) (sc_auth_scope c =?s "all") (sc_metrics_public c)) then Ok req
  else if match sc_token c, presented req with Some expected, Some token => equal token expected | _, _ => false end
  then Ok req
  else
    match hook with
    | None => Err (reject c false req (is_some (presented req)))
    | Some hook =>
        match credential c req with
        | None => Err (reject c true req false)
        | Some credential =>
            match opt_filter (λ u, negb (str_is_empty u)) (hook credential) with
            | Some user => Ok (set_user user req)
            | None => Err (reject c true req true)
            end
        end
    end.
End auth.
End Auth.

(** ** Routes of the user's own (custom.rs) *)

Module Custom.

(** Built-in paths that custom routes may not shadow. *)
Definition BUILTIN_PATHS : list string :=
  ["/api/health"; "/api/server"; "/api/queue"; "/api/workers"; "/api/results/{key}"; "/api/workers/register";
    "/api/workers/{id}"; "/api/workers/{id}/heartbeat"; "/api/workers/{id}/timeline"; "/api/workers/{id}/drain";
    "/api/workers/{id}/resume"; "/api/workers/{id}/leave"; "/api/flows"; "/api/flows/{id}";
    "/api/flows/{id}/runs"; "/api/runs"; "/api/runs/{id}"; "/api/runs/{id}/tasks"; "/api/runs/{id}/logs";
    "/api/runs/{id}/transition"; "/api/runs/{id}/cancel"; "/api/task-runs"; "/api/task-runs/{id}";
    "/api/task-runs/{id}/logs"; "/api/counts"; "/api/stream"; "/api/openapi.json"; "/api/engine/work";
    "/api/engine/report"; "/api/engine/heartbeat"; "/api/engine/failed"; "/api/engine/local-path";
    "/api/runs/{id}/graph"; "/api/runs/{id}/chain"; "/api/flows/{id}/schedules"; "/api/flows/{id}/upcoming";
    "/api/flows/{id}/pause"; "/api/flows/{id}/resume"; "/api/flows/{id}/backfill"; "/api/flows/{id}/backfills";
    "/api/schedules/preview"; "/api/scheduler"; "/api/scheduler/pause"; "/api/scheduler/resume";
    "/api/schedules/{sid}"; "/api/schedules/{sid}/pause"; "/api/schedules/{sid}/resume";
    "/api/schedules/{sid}/now"; "/api/backfills/{id}"; "/api/backfills/{id}/prefilter";
    "/api/backfills/{id}/cancel"; "/api/settings"; "/api/settings/environment"; "/api/projects";
    "/api/projects/{name}"; "/api/database"; "/api/database/reset"; "/api/database/backup"; "/api/runs/bulk";
    "/api/runs/compare"; "/api/runs/{id}/retry"; "/api/runs/{id}/state"; "/api/runs/{id}/attributes";
    "/api/metrics"; "/api/metrics/history"; "/api/events"; "/api/resources/acquire"; "/api/resources/release";
    "/api/agents"; "/api/agents/catalogue"; "/api/agents/{id}"; "/api/agents/{id}/approvals";
    "/api/agents/{id}/approvals/{aid}"; "/api/rules"; "/api/rules/{id}"; "/api/rules/{id}/firings";
    "/api/rules/{id}/test"; "/api/runs/{id}/artifacts"; "/api/task-runs/{id}/artifacts"; "/api/variables";
    "/api/variables/{name}"; "/api/events/{id}"; "/api/artifacts"; "/api/vocabulary"; "/api/runs/{id}/resume";
    "/api/runs/{id}/input"; "/api/runs/{id}/receive"; "/api/runs/{id}/messages/{topic}";
    "/api/rules/{id}/expectations"; "/api/schedules/{sid}/skips"; "/api/schedules/{sid}/skips/{fire}"; "/mcp"].

Definition normal_segment (seg : string) : string :=
  if starts_with seg "{" && ends_with_char seg "}" then "{}" else seg.
Definition normalize (path : string) : string :=
  let out := foldl (λ out seg, if str_is_empty seg then out else out +:+ "/" +:+ normal_segment seg) EmptyString
    (split_char "/" (trim_end_matches (λ c, Ascii.eqb c "/"%char) path)) in
  if str_is_empty out then "/" else out.

(** One route against the built-in ones and those before it. *)
Definition check_route (seen : list (string * string)) (r : RouteSpec) : result (list (string * string)) ServerError :=
  let n := normalize (rt_path r) in
  if bool_decide (n ∈ normalize <$> BUILTIN_PATHS) then
    Err (Config ("custom route " +:+ rt_method r +:+ " " +:+ rt_path r
                 +:+ " collides with the built-in cereyan route " +:+ rt_path r))
  else if negb (starts_with (rt_path r) "/") then
    Err (Config ("custom route path " +:+ debug_str (rt_path r) +:+ " must start with '/'"))
  else
    let key := (to_ascii_uppercase (rt_method r), n) in
    if bool_decide (key ∈ seen) then
      Err (Config ("custom route " +:+ rt_method r +:+ " " +:+ rt_path r +:+ " is registered twice"))
    else Ok (seen ++ [key]).
Fixpoint check_from (seen : list (string * string)) (routes : list RouteSpec) : result unit ServerError :=
  match routes with
  | [] => Ok tt
  | r :: routes' => let? seen := check_route seen r in check_from seen routes'
  end.
Definition check_conflicts (routes : list RouteSpec) : result unit ServerError := check_from [] routes.

(** The router's table of the user's routes: a path in the order of first use,
    with the methods on it and the route each calls.  A method that is none of
    the five is left out. *)
Definition METHODS : list string := ["GET"; "POST"; "PUT"; "DELETE"; "PATCH"].
Definition attach_paths (routes : list RouteSpec) : list string :=
  foldl (λ paths r, if bool_decide (rt_path r ∈ paths) then paths else paths ++ [rt_path r]) [] routes.
Definition method_router (path : string) (routes : list RouteSpec) : list (string * Z) :=
  omap (λ r, let m := to_ascii_uppercase (rt_method r) in
             if (rt_path r =?s path) && bool_decide (m ∈ METHODS) then Some (m, rt_id r) else None) routes.
Definition attach (routes : list RouteSpec) : list (string * list (string * Z)) :=
  (λ path, (path, method_router path routes)) <$> attach_paths routes.

(** The path and the upper-case method a route answers to. *)
Definition key (r : RouteSpec) : string * string := (to_ascii_uppercase (rt_method r), normalize (rt_path r)).
End Custom.

(** ** The start of a server, and the layers of its router (lib.rs, api/mod.rs) *)

(** What binding the listener answered: whether the address is a loopback one. *)
Definition start_config (c : ServeConfig) (authenticator : bool) (generated : string)
    (bound : result bool ServerError) (file : option string) (written : result unit string) (path : string)
    : result ServeConfig ServerError :=
  let? _ := Custom.check_conflicts (sc_custom_routes c) in
  let? _ := BasePath.check (sc_base_path c) in
  let? _ := Auth.check c authenticator in
  let? _ := Guard.check_config c in
  let c := if authenticator && is_none (sc_token c) then set_token generated c else c in
  let? loopback := bound in
  if negb loopback && is_none (sc_token c) && negb (sc_allow_unauthenticated c) then
    match Auth.load_or_create_token_file file generated written with
    | Ok (token, _) => Ok (set_token_file path (set_token token c))
    | Err e => Err (Io e)
    end
  else Ok c.

Section router.
Context `{HttpEnv} (c : ServeConfig) (hook : option Hook).

(** The guard wraps the check of the credential, which wraps every route. *)
Definition router (req : HttpRequest) : result HttpRequest Response :=
  let? req := Guard.check (Guard.new c) req in Auth.require_token c hook req.

(** A request over TCP, and one over the Unix socket. *)
Definition tcp (req : HttpRequest) : result HttpRequest Response :=
  let? req := BasePath.strip (sc_base_path c) req in router req.
Definition trust (r : HttpRequest) : HttpRequest :=
  mkHttpRequest (hr_path r) (hr_query r) (hr_authority r) (hr_headers r) true (hr_user r).
Definition unix (req : HttpRequest) : result HttpRequest Response := router (trust req).
End router.

(** ** What the layers let through *)

Lemma byte_inj a b : Auth.byte a = Auth.byte b → a = b.
Proof.
  rw /Auth.byte. intros E%Nat2Z.inj. by rw -(ascii_nat_embedding a) -(ascii_nat_embedding b) E.
Qed.

Lemma differences_zero (l : list (ascii * ascii)) (acc : Z) :
  foldl (λ acc xy, Z.lor acc (Z.lxor (Auth.byte xy.1) (Auth.byte xy.2))) acc l = 0
  ↔ acc = 0 ∧ Forall (λ xy, xy.1 = xy.2) l.
Proof.
  revert acc. induction l as [|[x y] l IH]; intros acc; simpl.
  - naive_solver.
  - rw IH Forall_cons Z.lor_eq_0_iff Z.lxor_eq_0_iff /=. split; [|naive_solver].
    intros [[? ?%byte_inj] ?]. done.
Qed.

Lemma chars_len s : length (chars s) = str_len s.
Proof. induction s as [|a s IH]; simpl; [done | by rw IH]. Qed.
Lemma chars_inj a b : chars a = chars b → a = b.
Proof.
  revert b; induction a as [|x a IH]; intros [|y b]; simpl; try done. intros [= -> E]. by rw (IH _ E).
Qed.

Lemma zip_equal {A} (l1 l2 : list A) :
  length l1 = length l2 → Forall (λ xy, xy.1 = xy.2) (zip l1 l2) → l1 = l2.
Proof.
  revert l2; induction l1 as [|x l1 IH]; intros [|y l2]; simpl; try done.
  intros [= Hl] [Hx Hr]%Forall_cons. simpl in Hx. by rw Hx (IH _ Hl Hr).
Qed.

(** The constant-time comparison is equality. *)
Lemma equal_spec a b : Auth.equal a b = true ↔ a = b.
Proof.
  rw /Auth.equal /Auth.differences. destruct (Nat.eqb_spec (str_len a) (str_len b)) as [El|Hl]; simpl.
  - rw Z.eqb_eq differences_zero. split.
    + intros [_ Hf]. apply chars_inj, zip_equal; [by rw !chars_len | done].
    + intros ->. split; [done|]. induction (chars b) as [|x l IH]; simpl; by constructor.
  - split; [done | by intros ->].
Qed.

Section laws.
Context `{HttpEnv}.

(** The text that names the server in a request: its Host header, or the
    authority of its URI. *)
Definition host_text (r : HttpRequest) : option string :=
  match header "host" r with Some v => to_str v | None => hr_authority r end.

(** A name nobody else can point at this server's address: an address itself,
    [localhost], or a name the configuration lists. *)
Definition own_name (g : Guard.Guard) (name : string) : Prop :=
  is_ip name = true ∨ name = "localhost" ∨ name = Guard.configured g ∨ name ∈ Guard.allowed g.

Definition answers_to (g : Guard.Guard) (r : HttpRequest) : Prop :=
  (∀ v, header "host" r = Some v → is_Some (to_str v)) ∧
  ∀ raw, host_text r = Some raw →
    ∃ name port, Guard.split_authority raw = Some (name, port) ∧ own_name g name.

(** A page that may send requests: one of a listed host, or one this very
    server served. *)
Definition own_page (g : Guard.Guard) (r : HttpRequest) : Prop :=
  ∀ v, header "origin" r = Some v →
    ∃ origin scheme authority host port, to_str v = Some origin ∧ origin = scheme +:+ "://" +:+ authority ∧
      Guard.split_authority authority = Some (host, port) ∧
      (host ∈ Guard.allowed g ∨
       ∃ raw own_port, host_text r = Some raw ∧ Guard.split_authority raw = Some (host, own_port) ∧
         (own_port = None ∨ ∃ p, own_port = Some p ∧ p = default (if to_ascii_lowercase scheme =?s "http" then 80 else 443) port)).

Lemma listed_spec g host : Guard.listed g host = true ↔ host ∈ Guard.allowed g.
Proof using Type.
  rw /Guard.listed existsb_exists. split.
  - intros (a & Ha & ->%str_eqb_eq). by apply list_elem_of_In.
  - intros Ha. exists host. rw str_eqb_refl. split; [by apply list_elem_of_In | done].
Qed.
Lemma host_allowed_spec g name : Guard.host_allowed g name = true ↔ own_name g name.
Proof using Type.
  rw /Guard.host_allowed /own_name !orb_true_iff !str_eqb_eq listed_spec. naive_solver.
Qed.

Lemma split_once_str_app p s b r : split_once_str p s = Some (b, r) → s = b +:+ p +:+ r.
Proof using Type.
  revert b. induction s as [|a s IH]; intros b; simpl; destruct (strip_prefix p _) as [r'|] eqn:E; try done.
  - intros [= <- ->]. by apply strip_prefix_Some in E.
  - intros [= <- ->]. by apply strip_prefix_Some in E.
  - destruct (split_once_str p s) as [[b' r']|]; [|done]. intros [= <- ->]. simpl. f_equal. by apply IH.
Qed.

Lemma origin_allowed_page g origin own :
  Guard.origin_allowed g origin own = true →
  ∃ scheme authority host port, origin = scheme +:+ "://" +:+ authority ∧
    Guard.split_authority authority = Some (host, port) ∧
    (host ∈ Guard.allowed g ∨
     ∃ raw own_port, own = Some raw ∧ Guard.split_authority raw = Some (host, own_port) ∧
       (own_port = None ∨ ∃ p, own_port = Some p ∧ p = default (if to_ascii_lowercase scheme =?s "http" then 80 else 443) port)).
Proof using Type.
  rw /Guard.origin_allowed. destruct (split_once_str _ _) as [[scheme authority]|] eqn:E; [|done].
  apply split_once_str_app in E. set (lower := to_ascii_lowercase scheme).
  intros Ho. exists scheme, authority.
  assert (∃ p, (if lower =?s "http" then Some 80 else if lower =?s "https" then Some 443 else None) = Some p
             ∧ p = (if lower =?s "http" then 80 else 443)) as (p & Ep & Hp).
  { destruct (lower =?s "http"); [by eexists|]. destruct (lower =?s "https"); [by eexists | done]. }
  rw Ep in Ho. destruct (str_any _ authority); [done|].
  destruct (Guard.split_authority authority) as [[host port]|]; [|done]. exists host, port. split; [done|]. split; [done|].
  destruct (Guard.listed g host) eqn:El; [left; by apply listed_spec|]. right.
  destruct own as [raw|]; [|done]. simpl in Ho.
  destruct (Guard.split_authority raw) as [[own own_port]|] eqn:Es; [|done].
  apply andb_true_iff in Ho as [->%str_eqb_eq Ho]. exists raw, own_port. split; [done|]. split; [done|].
  destruct own_port as [q|]; [right|by left]. apply Z.eqb_eq in Ho as ->. subst p. by eexists.
Qed.

Lemma to_str_default v : is_some (to_str v) = false → default EmptyString (to_str v) = EmptyString.
Proof using Type. by destruct (to_str v). Qed.

(** The guard hands on what it was given, and only requests that name this
    server and come from its own pages. *)
Lemma guard_passes g r r' :
  hr_trusted r = false → Guard.check g r = Ok r' → r' = r ∧ answers_to g r ∧ own_page g r.
Proof using Type.
  intros Ht. rw /Guard.check Ht. intros Hc.
  assert (∃ host, host_text r = host ∧ (∀ v, header "host" r = Some v → is_Some (to_str v)) ∧
    (let? _ := match host with
      | None => Ok tt
      | Some raw =>
          match Guard.split_authority raw with
          | Some (name, _) => if Guard.host_allowed g name then Ok tt else Err (Guard.refuse_host name)
          | None => Err (Guard.refuse_host raw)
          end
      end in
    match header "origin" r with
    | Some value =>
        let origin := default EmptyString (to_str value) in
        if Guard.origin_allowed g origin host then Ok r else Err (Guard.refuse_origin origin)
    | None => Ok r
    end) = Ok r') as (host & Eh & Hv & Hr).
  { rw /host_text. destruct (header "host" r) as [v|]; [|by eexists].
    destruct (to_str v) as [t|] eqn:E; [|done]. exists (Some t). split; [done|]. split; [|done].
    intros v' [= <-]. by rw E. }
  clear Hc. destruct (match host with Some raw => _ | None => _ end) as [[]|e] eqn:En; [|done].
  assert (answers_to g r) as Ha.
  { split; [done|]. rw Eh. intros raw ->. destruct (Guard.split_authority raw) as [[name port]|]; [|done].
    exists name, port. split; [done|]. apply host_allowed_spec. by destruct (Guard.host_allowed g name). }
  destruct (header "origin" r) as [v|] eqn:Eo.
  - simpl in Hr. destruct (Guard.origin_allowed _ _ _) eqn:Ep; [|done]. injection Hr as <-.
    split; [done|]. split; [done|]. intros v' Ev. rw Eo in Ev. injection Ev as <-.
    destruct (to_str v) as [origin|] eqn:Et; [|discriminate Ep].
    simpl in Ep. apply origin_allowed_page in Ep as (scheme & authority & h & port & -> & Hs & Hd).
    exists (scheme +:+ "://" +:+ authority), scheme, authority, h, port. rw Eh. done.
  - injection Hr as <-. split; [done|]. split; [done|]. intros v'. by rw Eo.
Qed.

(** A user that the authenticator named for the credential of a request. *)
Definition named (c : ServeConfig) (hook : option Hook) (r : HttpRequest) (user : string) : Prop :=
  ∃ h cred, hook = Some h ∧ Auth.credential c r = Some cred ∧ h cred = Some user ∧ user ≠ EmptyString.

(** What a protected path needs, once a token or an authenticator is there. *)
Lemma token_passes c hook r r' :
  is_none (sc_token c) && is_none hook = false → hr_trusted r = false →
  Auth.protected (hr_path r) (sc_auth_scope c =?s "all") (sc_metrics_public c) = true →
  Auth.require_token c hook r = Ok r' →
  (r' = r ∧ ∃ token, sc_token c = Some token ∧ Auth.presented r = Some token) ∨
  (∃ user, r' = Auth.set_user user r ∧ named c hook r user).
Proof using Type.
  intros Hn Ht Hp. rw /Auth.require_token Hn Ht Hp /=.
  destruct (match sc_token c with Some _ => _ | None => _ end) eqn:Em.
  - intros [= <-]. left. split; [done|]. destruct (sc_token c) as [t|]; [|done].
    destruct (Auth.presented r) as [t'|]; [|done]. apply equal_spec in Em as ->. by exists t.
  - intros Hr. right. destruct hook as [h|]; [|done]. destruct (Auth.credential c r) as [cred|] eqn:Ec; [|done].
    destruct (h cred) as [user|] eqn:Eu; [|done]. simpl in Hr. destruct (str_is_empty user) eqn:Ee; [done|].
    injection Hr as <-. exists user. split; [done|]. exists h, cred. split; [done|]. split; [done|].
    split; [done|]. by intros ->.
Qed.

Lemma strip_keeps base r r' :
  BasePath.strip base r = Ok r' →
  hr_headers r' = hr_headers r ∧ hr_trusted r' = hr_trusted r ∧ hr_user r' = hr_user r.
Proof using Type.
  rw /BasePath.strip. destruct (str_is_empty base); [by intros [= <-]|].
  destruct (_ || _); [done|]. destruct (opt_filter _ _); [|done]. destruct (parse_uri _); [|done]. by intros [= <-].
Qed.

(** A server that is reachable from the network has a token to check. *)
Lemma exposed_has_token c0 auth gen file written path c :
  start_config c0 auth gen (Ok false) file written path = Ok c → sc_allow_unauthenticated c0 = false →
  is_Some (sc_token c).
Proof using Type.
  rw /start_config. destruct (Custom.check_conflicts _); [|done]. destruct (BasePath.check _); [|done].
  destruct (Auth.check _ _); [|done]. destruct (Guard.check_config _); [|done]. simpl.
  set (c1 := if auth && _ then _ else _). intros Hc Ha.
  assert (sc_allow_unauthenticated c1 = false) as E by (rw /c1; by destruct (auth && _)). rw E andb_true_r in Hc.
  destruct (sc_token c1) as [t|] eqn:Et; simpl in Hc.
  - injection Hc as <-. by rw Et.
  - destruct (Auth.load_or_create_token_file _ _ _) as [[t b]|]; [|done]. injection Hc as <-. by eexists.
Qed.

(** C8: On a server that starts on an address reachable from the network, and
    whose operator did not ask for an open one, a request over TCP that reaches
    the handler of a protected path carries the server's token or a credential
    the authenticator has named a user for; its Host is an address, localhost
    or a configured name; and when a browser sent it for a page, the page is of
    a listed host or of this server.  The user a handler sees is the one the
    authenticator named. *)
Theorem exposed_server_closed c0 auth gen file written path c hook r r' :
  start_config c0 auth gen (Ok false) file written path = Ok c → sc_allow_unauthenticated c0 = false →
  hr_trusted r = false → hr_user r = None → tcp c hook r = Ok r' →
  Auth.protected (hr_path r') (sc_auth_scope c =?s "all") (sc_metrics_public c) = true →
  hr_headers r' = hr_headers r ∧ answers_to (Guard.new c) r' ∧ own_page (Guard.new c) r' ∧
  ((hr_user r' = None ∧ ∃ token, sc_token c = Some token ∧ Auth.presented r' = Some token) ∨
   (∃ user, hr_user r' = Some user ∧ named c hook r' user)).
Proof using Type.
  intros Hs Ha Ht Hu Htcp Hp. rw /tcp /router in Htcp.
  destruct (BasePath.strip _ _) as [r1|] eqn:E1; [|done]. apply strip_keeps in E1 as (Eh & Et & Eu).
  destruct (Guard.check _ _) as [r2|] eqn:E2; [|done].
  apply guard_passes in E2 as (-> & Hans & Hpage); [|congruence].
  destruct (exposed_has_token _ _ _ _ _ _ _ Hs Ha) as [t Htok].
  assert (hr_path r' = hr_path r1) as Epath.
  { move: Htcp. rw /Auth.require_token Htok /=. repeat case_match; by intros [= <-]. }
  rw Epath in Hp. apply token_passes in Htcp; [|by rw Htok|congruence|done].
  destruct Htcp as [[-> Hv]|(user & -> & Hn)]; (split; [done|]); (split; [done|]); (split; [done|]).
  - left. split; [congruence | done].
  - right. by exists user.
Qed.
End laws.

(** ** The base path is transparent *)

(** What a URI in origin form is read as: its path ends at the first [?]. *)
Class UriLaws `{HttpEnv} : Prop := {
  parse_uri_path p u :
    starts_with p "/" = true → str_any (one_of "?#") p = false → parse_uri p = Some u → u = (p, None);
  parse_uri_query p q u :
    starts_with p "/" = true → str_any (one_of "?#") p = false → str_any (one_of "#") q = false →
    parse_uri (p +:+ "?" +:+ q) = Some u → u = (p, Some q);
}.

Lemma str_any_app p a b : str_any p (a +:+ b) = str_any p a || str_any p b.
Proof.
  rw /str_any. induction a as [|x a IH]; simpl; [done|]. by rw IH orb_assoc.
Qed.

Lemma checked_base_longer base : BasePath.check base = Ok tt → str_is_empty base = false → (1 < str_len base)%nat.
Proof.
  rw /BasePath.check. destruct base as [|x [|y base]]; [done| |intros _ _; simpl; lia].
  cbn [str_is_empty strip_prefix]. destruct (Ascii.eqb "/" x); intros Hc; discriminate Hc.
Qed.
Lemma str_len_app a b : str_len (a +:+ b) = (str_len a + str_len b)%nat.
Proof. induction a as [|x a IH]; simpl; [done | by rw IH]. Qed.

Section base_path_laws.
Context `{UriLaws}.

(** Under a base path that passes the check of the configuration, a
    request is handed to the routes exactly when its path is the base path
    followed by a path of its own that the http library accepts, and the routes
    see that path with the query, the headers and the trust it came with, as
    if the server were mounted at the root. *)
Theorem base_path_transparent base r r' :
  BasePath.check base = Ok tt → base ≠ EmptyString →
  str_any (one_of "?#") (hr_path r) = false →
  (∀ q, hr_query r = Some q → str_any (one_of "#") q = false) →
  BasePath.strip base r = Ok r' ↔
  ∃ p, hr_path r = base +:+ p ∧ starts_with p "/" = true ∧
    is_Some (parse_uri (p +:+ match hr_query r with Some q => "?" +:+ q | None => EmptyString end)) ∧
    r' = mkHttpRequest p (hr_query r) None (hr_headers r) (hr_trusted r) (hr_user r).
Proof using All.
  intros Hb Hne Hp Hq. assert (str_is_empty base = false) as He by by destruct base.
  pose proof (checked_base_longer _ Hb He) as Hlen.
  assert (∀ p u, hr_path r = base +:+ p → starts_with p "/" = true →
    parse_uri match hr_query r with Some q => p +:+ "?" +:+ q | None => p end = Some u → u = (p, hr_query r)) as Hu.
  { intros p u Ep Hs. rw Ep str_any_app orb_false_iff in Hp. destruct Hp as [_ Hp].
    destruct (hr_query r) as [q|]; [by apply parse_uri_query; auto | by apply parse_uri_path]. }
  rw /BasePath.strip He. split.
  - destruct (_ || _); [done|]. destruct (strip_prefix base _) as [p|] eqn:Es; [|done]. simpl.
    apply strip_prefix_Some in Es. destruct (starts_with p "/") eqn:Hs; [|done].
    destruct (parse_uri _) as [u|] eqn:E; [|done]. intros [= <-]. exists p. split; [done|]. split; [done|].
    split; [|by rw /BasePath.set_uri (Hu p u Es Hs E)].
    destruct (hr_query r); [by rw E | rw app_nil_s; by rw E].
  - intros (p & Ep & Hs & [u E] & ->).
    assert ((hr_path r =?s "/") || (hr_path r =?s base) = false) as ->.
    { rw Ep orb_false_iff !str_eqb_neq. split; intros Heq%(f_equal str_len); rw str_len_app in Heq; simpl in Heq; [lia|].
      destruct p; [done|]. simpl in Heq. lia. }
    rw Ep (proj2 (strip_prefix_Some base (base +:+ p) p)) //= Hs.
    assert (parse_uri match hr_query r with Some q => p +:+ "?" +:+ q | None => p end = Some u) as E'.
    { destruct (hr_query r); [done | by rw app_nil_s in E]. }
    rw E' /BasePath.set_uri. by rw (Hu p u Ep Hs E').
Qed.
End base_path_laws.

(** ** Custom routes *)

Lemma check_from_ok routes seen :
  Custom.check_from seen routes = Ok tt ↔
  NoDup (Custom.key <$> routes) ∧ (∀ k, k ∈ Custom.key <$> routes → k ∉ seen) ∧
  ∀ r, r ∈ routes → starts_with (rt_path r) "/" = true ∧ (Custom.normalize (rt_path r) ∉ Custom.normalize <$> Custom.BUILTIN_PATHS).
Proof.
  revert seen. induction routes as [|r routes IH]; intros seen; cbn [Custom.check_from].
  { split; [intros _; split; [constructor|]; split; [intros k Hk | intros r Hr]; by apply not_elem_of_nil in Hk || by apply not_elem_of_nil in Hr | done]. }
  rw /Custom.check_route -/(Custom.key r). set (B := Custom.normalize <$> Custom.BUILTIN_PATHS) in *. clearbody B.
  case_bool_decide as Hb.
  { split; [done|]. intros (_ & _ & Hr). by destruct (Hr r ltac:(by left)) as [_ ?]. }
  rw fmap_cons. destruct (starts_with (rt_path r) "/") eqn:Hs; cbn [negb]; last first.
  { split; [done|]. intros (_ & _ & Hr). destruct (Hr r ltac:(by left)) as [? _]. congruence. }
  case_bool_decide as Hk.
  { split; [done|]. intros (_ & Hn & _). by destruct (Hn (Custom.key r) ltac:(by left)). }
  rw IH NoDup_cons. setoid_rewrite elem_of_app. setoid_rewrite list_elem_of_singleton.
  setoid_rewrite elem_of_cons. split.
  - intros (Hd & Hn & Hr). split; [split; [|done]|]; [by intros ?; edestruct Hn; [done|right]|]. split.
    + intros k [->|Hin]; [done|]. intros ?. by edestruct Hn; [done|left].
    + intros r1 [->|?]; [done | by apply Hr].
  - intros ([Hnot Hd] & Hn & Hr). split; [done|]. split; [|auto]. intros k Hin [?| ->]; [|done]. eapply Hn; eauto.
Qed.

(** The routes of the user's own are accepted exactly when each starts with a
    slash, none has the shape of a built-in route, and no two share a method and
    a shape. *)
Theorem custom_routes_apart (routes : list RouteSpec) :
  Custom.check_conflicts routes = Ok tt ↔
  NoDup (Custom.key <$> routes) ∧
  ∀ r, r ∈ routes → starts_with (rt_path r) "/" = true ∧
    (Custom.normalize (rt_path r) ∉ Custom.normalize <$> Custom.BUILTIN_PATHS).
Proof.
  rw /Custom.check_conflicts check_from_ok. split; [naive_solver|]. intros [? ?]. split; [done|]. split; [|done].
  intros k _. apply not_elem_of_nil.
Qed.

(** Two routes of one shape with different methods and different names for the
    same segment are accepted, and reach the router as two paths of one shape,
    which a router of axum does not take. *)
Lemma one_shape_two_paths :
  let routes := [mkRouteSpec 0 "GET" "/orders/{id}" None; mkRouteSpec 1 "POST" "/orders/{order}" None] in
  Custom.check_conflicts routes = Ok tt ∧
  Custom.attach routes = [("/orders/{id}", [("GET", 0)]); ("/orders/{order}", [("POST", 1)])] ∧
  NoDup ((Custom.attach routes).*1) ∧
  Custom.normalize "/orders/{id}" = Custom.normalize "/orders/{order}".
Proof.
  split; [vm_compute; reflexivity|]. split; [vm_compute; reflexivity|]. split; [|vm_compute; reflexivity].
  by apply (bool_decide_unpack (NoDup _)).
Qed.
(** A route whose path is an instance of a built-in route's is accepted. *)
Lemma instance_of_builtin_accepted :
  Custom.check_conflicts [mkRouteSpec 0 "GET" "/api/runs/1" None] = Ok tt.
Proof. vm_compute. reflexivity. Qed.

(** Every accepted route with one of the five methods is attached, on its own
    path and under its own id. *)
Lemma attached r routes :
  r ∈ routes → to_ascii_uppercase (rt_method r) ∈ Custom.METHODS →
  ∃ ms, (rt_path r, ms) ∈ Custom.attach routes ∧ (to_ascii_uppercase (rt_method r), rt_id r) ∈ ms.
Proof.
  intros Hin Hm. exists (Custom.method_router (rt_path r) routes). split.
  - apply list_elem_of_fmap. exists (rt_path r). split; [done|]. rw /Custom.attach_paths.
    assert (∀ l acc, (rt_path r ∈ acc ∨ r ∈ l) →
      rt_path r ∈ foldl (λ paths r, if bool_decide (rt_path r ∈ paths) then paths else paths ++ [rt_path r]) acc l) as Hf.
    { induction l as [|x l IH]; intros acc; simpl; [by intros [?|?%not_elem_of_nil]|].
      intros [Ha|[<-|Hl]%elem_of_cons]; apply IH; [left; case_bool_decide; set_solver..|by right]. }
    apply Hf. by right.
  - apply list_elem_of_omap. exists r. split; [done|]. cbv zeta. by rw String.eqb_refl (bool_decide_eq_true_2 _ Hm).
Qed.

(** ** A concrete server *)

#[export] Instance sample_http : HttpEnv := {|
  to_str := Some;
  parse_uri s := match split_once "?" s with Some (p, q) => Some (p, Some q) | None => Some (s, None) end;
|}.

Lemma split_once_free c p : contains_char c p = false → split_once c p = None.
Proof.
  induction p as [|a p IH]; simpl; [done|]. destruct (Ascii.eqb a c); [done|]. simpl. intros Hc. by rw IH.
Qed.
Lemma split_once_at c p q : contains_char c p = false → split_once c (p +:+ String c q) = Some (p, q).
Proof.
  induction p as [|a p IH]; simpl; [by rw Ascii.eqb_refl|].
  destruct (Ascii.eqb a c); [done|]. simpl. intros Hc. by rw IH.
Qed.
Lemma str_any_free cs c p : contains_char c cs = true → str_any (one_of cs) p = false → contains_char c p = false.
Proof.
  intros Hc. rw /str_any /one_of. induction p as [|a p IH]; simpl; [done|]. rw !orb_false_iff. intros [Ha Hp].
  split; [|by apply IH]. destruct (Ascii.eqb_spec a c) as [->|]; [congruence | done].
Qed.
#[export] Instance sample_uri_laws : UriLaws.
Proof.
  split.
  - intros p u _ Hp. rw /parse_uri /sample_http split_once_free; [by intros [= <-]|]. by apply (str_any_free "?#").
  - intros p q u _ Hp _. rw /parse_uri /sample_http. change ("?" +:+ q) with (String "?" q).
    rw split_once_at; [by intros [= <-]|]. by apply (str_any_free "?#").
Qed.

Definition sample_config : ServeConfig :=
  mkServeConfig "0.0.0.0" [] None "/cereyan" None "api" None ["cereyan.example.com"] false None false.
Definition sample_request : HttpRequest :=
  mkHttpRequest "/cereyan/api/runs" (Some "limit=5") None
    [("host", "10.0.0.7:4200"); ("origin", "http://10.0.0.7:4200"); ("authorization", "Bearer s3cret")] false None.
Definition sample_started : ServeConfig := set_token_file "/home/token" (set_token "s3cret" sample_config).
Definition sample_admitted : HttpRequest :=
  mkHttpRequest "/api/runs" (Some "limit=5") None (hr_headers sample_request) false None.

Lemma exposed_server_closed_witness :
  start_config sample_config false "fresh" (Ok false) (Some "s3cret ") (Ok tt) "/home/token" = Ok sample_started ∧
  Auth.presented sample_admitted = Some "s3cret" ∧
  (hr_headers sample_admitted = hr_headers sample_request ∧ answers_to (Guard.new sample_started) sample_admitted ∧
   own_page (Guard.new sample_started) sample_admitted ∧
   ((hr_user sample_admitted = None ∧
     ∃ token, sc_token sample_started = Some token ∧ Auth.presented sample_admitted = Some token) ∨
    (∃ user, hr_user sample_admitted = Some user ∧ named sample_started None sample_admitted user))).
Proof.
  split; [by vm_compute|]. split; [by vm_compute|].
  apply (exposed_server_closed sample_config false "fresh" (Some "s3cret ") (Ok tt) "/home/token" sample_started None
           sample_request sample_admitted); by vm_compute.
Defined.

Lemma base_path_transparent_witness : BasePath.strip "/cereyan" sample_request = Ok sample_admitted.
Proof.
  apply (base_path_transparent "/cereyan" sample_request sample_admitted);
    [by vm_compute | done | by vm_compute | by intros q [= <-] | by exists "/api/runs"].
Defined.
