(* ===== verification/Validate.v ===== *)
(** * Parameters against a flow's schema (server/src/validate.rs)

    The subset of JSON Schema the authoring layer writes: [properties],
    [required], [anyOf], [enum] and [type].  The messages are constructors. *)

From S2P Require Import Prelude Float64 Json States Transitions Schedules Model Events ActiveIndex Resources.
From S2P Require Import WorkQueue GroupCommit Tables JsonCodec.
From Stdlib Require Import Ascii.

(** ** JSON equality *)

(** [==] of two JSON values: a float is compared as a float. *)
Definition number_eqb (a b : Number) : bool :=
  match a, b with
  | NInt x, NInt y => x =? y
  | NFloat x, NFloat y => f64_eq x y
  | _, _ => false
  end.
Fixpoint value_eqb (a b : Value) {struct a} : bool :=
  match a, b with
  | VNull, VNull => true
  | VBool x, VBool y => Bool.eqb x y
  | VNumber x, VNumber y => number_eqb x y
  | VString x, VString y => x =?s y
  | VArray x, VArray y =>
      (fix go (x y : list Value) : bool :=
         match x, y with
         | [], [] => true
         | u :: x', v :: y' => value_eqb u v && go x' y'
         | _, _ => false
         end) x y
  | VObject x, VObject y =>
      (fix go (x y : list (string * Value)) : bool :=
         match x, y with
         | [], [] => true
         | (k, u) :: x', (l, v) :: y' => (k =?s l) && value_eqb u v && go x' y'
         | _, _ => false
         end) x y
  | _, _ => false
  end.

(** [value.get(k)] and [as_array]. *)
Definition get (k : string) (v : Value) : option Value := and_then (as_object v) (map_get k).
Definition as_array (v : Value) : option (list Value) :=
  match v with VArray l => Some l | _ => None end.

(** ** Numbers in text *)

Fixpoint skip_digits (s : string) : string :=
  match s with
  | String c s' => if is_some (digit c) then skip_digits s' else s
  | EmptyString => EmptyString
  end.
Definition starts_digit (s : string) : bool :=
  match s with String c _ => is_some (digit c) | EmptyString => false end.
Definition skip_sign (s : string) : string :=
  match s with
  | String c s' => if Ascii.eqb c "+"%char || Ascii.eqb c "-"%char then s' else s
  | EmptyString => EmptyString
  end.
(** The rest of a number after its mantissa: nothing, or an exponent. *)
Definition exponent_ok (s : string) : bool :=
  match s with
  | EmptyString => true
  | String c s' =>
      (Ascii.eqb c "e"%char || Ascii.eqb c "E"%char)
      && starts_digit (skip_sign s') && str_is_empty (skip_digits (skip_sign s'))
  end.
Definition decimal_ok (s : string) : bool :=
  let whole := starts_digit s in
  match skip_digits s with
  | String "." s' => (whole || starts_digit s') && exponent_ok (skip_digits s')
  | s' => whole && exponent_ok s'
  end.
(** [s.parse::<f64>().is_ok()] *)
Definition f64_parses (s : string) : bool :=
  let t := skip_sign s in
  bool_decide (to_ascii_lowercase t ∈ ["inf"; "infinity"; "nan"]) || decimal_ok t.
(** [s.parse::<i64>().is_ok()] *)
Definition i64_parses (s : string) : bool := is_some (parse_i64 s).

(** ** The check *)

Inductive ParamError : Type :=
| Required (name : string)
| NotDeclared (name : string)
| NoAllowedType (name : string)
| NotOneOf (name : string) (choices : list Value)
| Expects (name kind : string).

Definition is_quote (c : ascii) : bool := Ascii.eqb c dquote.
Definition trim_quotes (s : string) : string := trim_end_matches is_quote (trim_start_matches is_quote s).

Section validate.
Context `{StoreEnv}.

(** A text is also matched by what a choice prints as, without its quotes. *)
Definition is_choice (choices : list Value) (value : Value) : bool :=
  existsb (λ c, value_eqb c value) choices
  || match as_str value with
     | Some s => existsb (λ c, trim_quotes (value_to_string c) =?s s) choices
     | None => false
     end.

Definition text_holds (p : string → bool) (value : Value) : bool :=
  match as_str value with Some s => p s | None => false end.
Definition is_bool_text (s : string) : bool :=
  bool_decide (to_ascii_lowercase s ∈ ["true"; "false"; "1"; "0"; "yes"; "no"]).

Definition has_kind (kind : string) (value : Value) : bool :=
  if kind =?s "string" then is_some (as_str value)
  else if kind =?s "integer" then
    match value with VNumber (NInt _) => true | _ => text_holds (λ s, i64_parses (trim s)) value end
  else if kind =?s "number" then
    match value with VNumber _ => true | _ => text_holds (λ s, f64_parses (trim s)) value end
  else if kind =?s "boolean" then
    match value with VBool _ => true | _ => text_holds is_bool_text value end
  else if kind =?s "array" then match value with VArray _ => true | _ => false end
  else if kind =?s "object" then match value with VObject _ => true | _ => false end
  else if kind =?s "null" then match value with VNull => true | _ => false end
  else true.

(** Without [anyOf]. *)
Definition check_plain (name : string) (prop value : Value) : result unit ParamError :=
  match and_then (get "enum" prop) as_array with
  | Some choices => if is_choice choices value then Ok tt else Err (NotOneOf name choices)
  | None =>
      match and_then (get "type" prop) as_str with
      | None => Ok tt
      | Some kind => if has_kind kind value then Ok tt else Err (Expects name kind)
      end
  end.

(** The recursion is on the schema: [any_of] is [get "anyOf"] with the check of
    its members, [None] when there is no such list. *)
Fixpoint check (name : string) (prop value : Value) {struct prop} : result unit ParamError :=
  match prop with
  | VObject m =>
      match
        (fix any_of (m : list (string * Value)) : option bool :=
           match m with
           | [] => None
           | (k, v) :: m' =>
               if "anyOf" =?s k then
                 match v with
                 | VArray l =>
                     Some ((fix any (l : list Value) : bool :=
                              match l with [] => false | p :: l' => is_ok (check name p value) || any l' end) l)
                 | _ => None
                 end
               else any_of m'
           end) m
      with
      | Some true => Ok tt
      | Some false => Err (NoAllowedType name)
      | None => check_plain name prop value
      end
  | _ => check_plain name prop value
  end.

Fixpoint check_params (props : option Map) (params : Map) : result unit ParamError :=
  match params with
  | [] => Ok tt
  | (name, value) :: params' =>
      match and_then props (map_get name) with
      | None => Err (NotDeclared name)
      | Some prop => let? _ := check name prop value in check_params props params'
      end
  end.

Fixpoint check_required (required : list Value) (params : Map) : result unit ParamError :=
  match required with
  | [] => Ok tt
  | r :: required' =>
      match as_str r with
      | Some name => if map_contains name params then check_required required' params else Err (Required name)
      | None => check_required required' params
      end
  end.

Definition validate_parameters (schema : Value) (params : Map) : result unit ParamError :=
  let props := and_then (get "properties" schema) as_object in
  let? _ := match and_then (get "required" schema) as_array with
            | Some required => check_required required params
            | None => Ok tt
            end in
  check_params props params.

(** ** What the check accepts *)

(** A value a property allows: a member of the first of [anyOf], [enum] and
    [type] the property has. *)
Inductive allows : Value → Value → Prop :=
| allows_any prop l p value :
    and_then (get "anyOf" prop) as_array = Some l → p ∈ l → allows p value → allows prop value
| allows_plain name prop value :
    and_then (get "anyOf" prop) as_array = None → check_plain name prop value = Ok tt → allows prop value.

(** [check] with the lookup of [anyOf] in one place. *)
Lemma check_unfold name prop value :
  check name prop value =
    match and_then (get "anyOf" prop) as_array with
    | Some l => if existsb (λ p, is_ok (check name p value)) l then Ok tt else Err (NoAllowedType name)
    | None => check_plain name prop value
    end.
Proof using Type.
  destruct prop as [| | | | |m]; try done. cbn [check]. rw /get. cbn [as_object and_then].
  match goal with |- match ?f m with _ => _ end = _ =>
    assert (f m = match and_then (map_get "anyOf" m) as_array with
                  | Some l => Some (existsb (λ p, is_ok (check name p value)) l)
                  | None => None end) as -> end.
  { induction m as [|[k v] m IH]; [done|]. cbn [map_get]. destruct ("anyOf" =?s k) eqn:E; [|exact IH].
    by destruct v. }
  by destruct (and_then (map_get "anyOf" m) as_array) as [l|]; [destruct (existsb _ l)|].
Qed.
Lemma check_plain_name name name' prop value :
  check_plain name prop value = Ok tt → check_plain name' prop value = Ok tt.
Proof using Type.
  rw /check_plain. destruct (and_then (get "enum" prop) as_array); [by destruct (is_choice _ _)|].
  by destruct (and_then (get "type" prop) as_str); [destruct (has_kind _ _)|].
Qed.

Lemma get_any_of_In m l :
  and_then (get "anyOf" (VObject m)) as_array = Some l → ("anyOf", VArray l) ∈ m.
Proof using Type.
  rw /get. cbn [as_object and_then]. induction m as [|[k v] m IH]; [done|]. cbn [map_get].
  destruct ("anyOf" =?s k) eqn:E; [|intros; right; by apply IH].
  apply str_eqb_eq in E as <-. destruct v; try done. intros [= ->]. by left.
Qed.

(** Both layers of a schema at once: an object's members, and the members of
    those that are lists. *)
Lemma check_allows name prop value : check name prop value = Ok tt → allows prop value.
Proof using Type.
  cut ((check name prop value = Ok tt → allows prop value) ∧
       (∀ l p, prop = VArray l → p ∈ l → check name p value = Ok tt → allows p value)); [by intros []|].
  induction prop as [| | | |l IH|m IH] using Value_ind'; split; rw ?check_unfold;
    try (intros Hc; by eapply (allows_plain name)); try done.
  - intros l' p [= <-] Hp. rw Forall_forall in IH. by apply (IH p Hp).
  - destruct (and_then (get "anyOf" (VObject m)) as_array) as [l|] eqn:E; [|intros; by eapply allows_plain].
    destruct (existsb _ l) eqn:Ex; [intros _|done].
    apply existsb_exists in Ex as (p & Hp & Hc). apply list_elem_of_In in Hp.
    eapply allows_any; [done|done|]. destruct (check name p value) as [[]|] eqn:Ep; [|done].
    rw Forall_forall in IH. by apply (IH ("anyOf", VArray l) (get_any_of_In _ _ E)) with l.
Qed.
Lemma allows_check name prop value : allows prop value → check name prop value = Ok tt.
Proof using Type.
  induction 1 as [prop l p value E Hp _ IH|name' prop value E Hc]; rw check_unfold E.
  - assert (existsb (λ p, is_ok (check name p value)) l = true) as ->; [|done].
    apply existsb_exists. exists p. split; [by apply list_elem_of_In|]. by rw IH.
  - by eapply check_plain_name.
Qed.

Lemma check_params_iff props params :
  check_params props params = Ok tt ↔
  ∀ name value, (name, value) ∈ params →
    ∃ prop, and_then props (map_get name) = Some prop ∧ allows prop value.
Proof using Type.
  induction params as [|[n v] params IH]; cbn [check_params]; [set_solver|].
  split.
  - destruct (and_then props (map_get n)) as [prop|] eqn:E; [|done].
    destruct (check n prop v) as [[]|] eqn:Ec; [|done]. intros Hr name value Hin.
    apply elem_of_cons in Hin as [[= -> ->]|Hin]; [|by apply IH].
    exists prop. split; [done|]. by eapply check_allows.
  - intros Hall. destruct (Hall n v) as (prop & -> & Ha); [by left|].
    rw (allows_check n _ _ Ha). apply IH. intros name value Hin. apply Hall. by right.
Qed.
Lemma check_required_iff required params :
  check_required required params = Ok tt ↔
  ∀ name, VString name ∈ required → map_contains name params = true.
Proof using Type.
  induction required as [|r required IH]; cbn [check_required].
  { split; [|done]. intros _ n Hn. by apply elem_of_nil in Hn. }
  assert (∀ n, VString n ∈ r :: required ↔ r = VString n ∨ VString n ∈ required) as Hc.
  { intros n. rw elem_of_cons. naive_solver. }
  destruct r as [| | |s| |]; cbn [as_str]; try (rw IH; naive_solver).
  destruct (map_contains s params) eqn:E; [rw IH; naive_solver|].
  split; [done|]. intros Hall. by rw (Hall s) in E; [|apply Hc; left].
Qed.

(** The server accepts the parameters of a run exactly when every required
    one is there, and every one given is declared and is of a kind its property
    allows: one member of [anyOf] at any depth, a listed choice, or the type. *)
Theorem parameters_accepted schema params :
  validate_parameters schema params = Ok tt ↔
  (∀ required name, and_then (get "required" schema) as_array = Some required →
     VString name ∈ required → map_contains name params = true) ∧
  (∀ name value, (name, value) ∈ params →
     ∃ prop, and_then (and_then (get "properties" schema) as_object) (map_get name) = Some prop ∧
             allows prop value).
Proof using Type.
  rw /validate_parameters -check_params_iff.
  destruct (and_then (get "required" schema) as_array) as [required|]; [|naive_solver].
  destruct (check_required required params) as [[]|] eqn:E.
  - pose proof (proj1 (check_required_iff _ _) E) as Hr. naive_solver.
  - split; [done|]. intros [Hr _]. assert (check_required required params = Ok tt); [|congruence].
    apply check_required_iff. naive_solver.
Qed.
End validate.
