(* ===== verification/Compare.v ===== *)
(** * Comparing two runs (server/src/compare.rs)

    What changed from the left run, the baseline, to the right one: parameters
    and attributes, the duration, the tasks of the latest pass matched by their
    dynamic key, error lines that are new, and artifacts.  A [BTreeSet] of keys
    is the sorted list of them; a map built from a list keeps the last entry of
    a key. *)

From S2P Require Import Prelude Float64 Json States Transitions Schedules Model Events WorkQueue GroupCommit.
From S2P Require Import Tables Store JsonCodec Reader StoreAdmin RuleReader Replay Pages Validate.

Record RunBundle : Type := mkRunBundle {
  rb_run : Run;
  rb_tasks : list TaskRun;
  rb_errors : list Log;
  rb_artifacts : list Artifact;
}.
Record ValueDiff : Type := mkValueDiff { vd_key : string; vd_left : Value; vd_right : Value; vd_changed : bool }.
Record DurationDiff : Type := mkDurationDiff { dd_left : option Z; dd_right : option Z; dd_delta : option Z }.
Record TaskSide : Type := mkTaskSide { ts_id : Z; ts_state : State; ts_duration : option Z }.
Record TaskDiff : Type := mkTaskDiff {
  td_key : string;
  td_name : string;
  td_left : option TaskSide;
  td_right : option TaskSide;
  td_state_changed : bool;
  td_delta : option Z;
}.
Record ArtifactDiff : Type := mkArtifactDiff {
  ad_key : option string;
  ad_kind : string;
  ad_left : option Z;
  ad_right : option Z;
  ad_changed : bool;
}.
Record CompareSummary : Type := mkCompareSummary {
  cs_parameters_changed : nat;
  cs_attributes_changed : nat;
  cs_tasks_state_changed : nat;
  cs_tasks_duration_changed : nat;
  cs_new_errors : nat;
  cs_artifacts_changed : nat;
}.
Record RunComparison : Type := mkRunComparison {
  rc_left : Run;
  rc_right : Run;
  rc_same_flow : bool;
  rc_parameters : list ValueDiff;
  rc_attributes : list ValueDiff;
  rc_duration : DurationDiff;
  rc_tasks : list TaskDiff;
  rc_first_divergence : option string;
  rc_new_errors : list string;
  rc_artifacts : list ArtifactDiff;
  rc_summary : CompareSummary;
}.

(** ** The parts of a comparison *)

Definition str_le (a b : string) : Prop := String.leb a b = true.
#[export] Instance str_le_dec : RelDecision str_le.
Proof. intros a b. rw /str_le. apply _. Defined.

Definition value_diffs (left right : Map) : list ValueDiff :=
  (λ k, let l := default VNull (map_get k left) in
        let r := default VNull (map_get k right) in
        mkValueDiff k l r (negb (value_eqb l r)))
  <$> stable_sort str_le (remove_dups (map_keys left ++ map_keys right)).

(** The sort by [(created_at, id)] is one by the id and then one by the time. *)
Definition latest_pass (tasks : list TaskRun) : list TaskRun :=
  let last := match tr_pass <$> tasks with [] => 0 | p :: ps => foldl Z.max p ps end in
  sort_by_key tr_created_at (sort_by_key tr_id (List.filter (λ t, tr_pass t =? last) tasks)).

Definition side (t : TaskRun) : TaskSide := mkTaskSide (tr_id t) (tr_state t) (tr_total_run_time t).

Definition duration_moved (left right : option Z) : bool :=
  match left, right with
  | Some l, Some r =>
      let delta := i64_abs (i64_sub r l) in
      (1000000 <? delta) && f64_lt (f64_mul (f64_ratio 1 10) (f64_of_Z (Z.max l 1))) (f64_of_Z delta)
  | _, _ => false
  end.

Definition failure_message (run : Run) : option string :=
  match state_type (Model.run_state run) with
  | Failed | Crashed => state_message (Model.run_state run)
  | _ => None
  end.

Definition delta (l r : option Z) : option Z :=
  match l, r with Some l, Some r => Some (i64_sub r l) | _, _ => None end.

(** [collect] into a map: the last row of a key stays. *)
Definition keyed {A} (key : A → string) (l : list A) : gmap string A :=
  foldl (λ m x, <[key x := x]> m) ∅ l.

Definition left_task (by_key : gmap string TaskRun) (t : TaskRun) : TaskDiff :=
  let other := by_key !! tr_dynamic_key t in
  mkTaskDiff (tr_dynamic_key t) (tr_name t) (Some (side t)) (side <$> other)
    (match other with Some o => negb (st_eqb (state_type (tr_state o)) (state_type (tr_state t))) | None => true end)
    (delta (tr_total_run_time t) (other ≫= tr_total_run_time)).
Definition right_task (t : TaskRun) : TaskDiff :=
  mkTaskDiff (tr_dynamic_key t) (tr_name t) None (Some (side t)) true None.
Definition task_diffs (left right : list TaskRun) : list TaskDiff :=
  let l_tasks := latest_pass left in
  let r_tasks := latest_pass right in
  (left_task (keyed tr_dynamic_key r_tasks) <$> l_tasks)
  ++ (right_task <$> List.filter (λ t, negb (bool_decide (tr_dynamic_key t ∈ tr_dynamic_key <$> l_tasks))) r_tasks).

(** At most fifty messages, each once. *)
Fixpoint new_lines (known : list string) (lines : list Log) (out : list string) : list string :=
  match lines with
  | [] => out
  | line :: lines' =>
      let m := lg_message line in
      let out := if bool_decide (m ∈ known) || bool_decide (m ∈ out) then out else out ++ [m] in
      if (50 <=? length out)%nat then out else new_lines known lines' out
  end.
Definition new_errors (left right : RunBundle) : list string :=
  let out := new_lines (lg_message <$> rb_errors left) (rb_errors right) [] in
  match failure_message (rb_run right) with
  | Some msg =>
      if bool_decide (failure_message (rb_run left) ≠ Some msg) && negb (bool_decide (msg ∈ out))
         && (length out <? 50)%nat
      then out ++ [msg] else out
  | None => out
  end.

Fixpoint artifact_ids_from (counts : gmap string nat) (rows : list Artifact) : list (string * Artifact) :=
  match rows with
  | [] => []
  | a :: rows' =>
      match af_key_of a with
      | Some k => ("key:" +:+ k, a) :: artifact_ids_from counts rows'
      | None =>
          let n := default O (counts !! af_kind_of a) in
          (af_kind_of a +:+ "#" +:+ pretty n, a)
            :: artifact_ids_from (<[af_kind_of a := S n]> counts) rows'
      end
  end.
Definition artifact_ids (rows : list Artifact) : list (string * Artifact) := artifact_ids_from ∅ rows.
Definition artifact_diffs (left right : list Artifact) : list ArtifactDiff :=
  let l := artifact_ids left in
  let r := artifact_ids right in
  let r_map := keyed fst r in
  ((λ x : string * Artifact,
      let other := snd <$> r_map !! x.1 in
      mkArtifactDiff (af_key_of x.2) (af_kind_of x.2) (Some (af_id x.2)) (af_id <$> other)
        (match other with Some o => negb (value_eqb (af_data o) (af_data x.2)) | None => true end)) <$> l)
  ++ ((λ x : string * Artifact, mkArtifactDiff (af_key_of x.2) (af_kind_of x.2) None (Some (af_id x.2)) true)
        <$> List.filter (λ x, negb (bool_decide (x.1 ∈ l.*1))) r).

Definition how_many {A} (p : A → bool) (l : list A) : nat := length (List.filter p l).

Definition compare (left right : RunBundle) : RunComparison :=
  let parameters := value_diffs (run_parameters (rb_run left)) (run_parameters (rb_run right)) in
  let attributes := value_diffs (run_attributes (rb_run left)) (run_attributes (rb_run right)) in
  let l_time := run_total_run_time (rb_run left) in
  let r_time := run_total_run_time (rb_run right) in
  let tasks := task_diffs (rb_tasks left) (rb_tasks right) in
  let errors := new_errors left right in
  let artifacts := artifact_diffs (rb_artifacts left) (rb_artifacts right) in
  mkRunComparison (rb_run left) (rb_run right) (run_flow_id (rb_run left) =? run_flow_id (rb_run right))
    parameters attributes (mkDurationDiff l_time r_time (delta l_time r_time)) tasks
    (td_key <$> List.find td_state_changed tasks) errors artifacts
    (mkCompareSummary (how_many vd_changed parameters) (how_many vd_changed attributes)
       (how_many td_state_changed tasks)
       (how_many (λ t, duration_moved (td_left t ≫= ts_duration) (td_right t ≫= ts_duration)) tasks)
       (length errors) (how_many ad_changed artifacts)).

(** ** Where two runs part *)

(** The state type a task of the latest pass ended in, by its key. *)
Definition state_of (tasks : list TaskRun) (k : string) : option StateType :=
  (λ t, state_type (tr_state t)) <$> keyed tr_dynamic_key (latest_pass tasks) !! k.
Definition task_keys (tasks : list TaskRun) : list string := tr_dynamic_key <$> latest_pass tasks.

(** The keys of both runs: the left run's in its order, then those only the
    right run has. *)
Definition task_order (left right : list TaskRun) : list string :=
  task_keys left ++ filter (λ k, k ∉ task_keys left) (task_keys right).

Lemma keyed_snoc {A} (key : A → string) l x : keyed key (l ++ [x]) = <[key x := x]> (keyed key l).
Proof. by rw /keyed foldl_app. Qed.

Lemma keyed_Some {A} (key : A → string) l k x : keyed key l !! k = Some x → x ∈ l ∧ key x = k.
Proof.
  induction l as [|y l IH] using rev_ind; [by rw lookup_empty|]. rw keyed_snoc lookup_insert_Some elem_of_app list_elem_of_singleton.
  naive_solver.
Qed.
Lemma keyed_None {A} (key : A → string) l k : keyed key l !! k = None ↔ (k ∉ key <$> l).
Proof.
  induction l as [|y l IH] using rev_ind; [rw lookup_empty; set_solver|].
  rw keyed_snoc lookup_insert_None IH fmap_app elem_of_app list_elem_of_singleton. naive_solver.
Qed.
Lemma keyed_unique {A} (key : A → string) l x :
  NoDup (key <$> l) → x ∈ l → keyed key l !! key x = Some x.
Proof.
  induction l as [|y l IH] using rev_ind; [by intros _ ?%not_elem_of_nil|].
  rw fmap_app NoDup_app keyed_snoc elem_of_app list_elem_of_singleton. intros (Hd & Hn & _) [Hx| ->].
  - rw lookup_insert_ne; [by apply IH|]. intros E. apply (Hn (key x)); [by apply list_elem_of_fmap_2 | rw -E; by left].
  - by rw lookup_insert_eq.
Qed.

Lemma find_fmap {A B} (f : A → B) (p : B → bool) (q : A → bool) l :
  (∀ x, x ∈ l → q x = p (f x)) → f <$> List.find q l = List.find p (f <$> l).
Proof.
  induction l as [|x l IH]; intros Hl; [done|]. simpl. rw (Hl x); [|by left].
  destruct (p (f x)); [done|]. apply IH. intros y Hy. apply Hl. by right.
Qed.
Lemma find_app {A} (p : A → bool) (l1 l2 : list A) :
  List.find p (l1 ++ l2) = or_else (List.find p l1) (List.find p l2).
Proof. induction l1 as [|x l1 IH]; simpl; [done|]. by destruct (p x). Qed.
Lemma fmap_or_else {A B} (f : A → B) (x y : option A) : f <$> or_else x y = or_else (f <$> x) (f <$> y).
Proof. by destruct x. Qed.
Lemma filter_fmap_bool {A B} (f : A → B) (p : A → bool) (P : B → Prop) `{!∀ x, Decision (P x)} l :
  (∀ x, p x = bool_decide (P (f x))) → f <$> List.filter p l = filter P (f <$> l).
Proof.
  intros Hp. induction l as [|x l IH]; [done|]. cbn [List.filter]. rw fmap_cons filter_cons Hp.
  case_bool_decide; case_decide; try done. by rw fmap_cons IH.
Qed.

Definition differs (left right : list TaskRun) (k : string) : bool :=
  negb (bool_decide (state_of left k = state_of right k)).

Lemma left_task_differs left right t :
  NoDup (task_keys left) → t ∈ latest_pass left →
  td_state_changed (left_task (keyed tr_dynamic_key (latest_pass right)) t) = differs left right (tr_dynamic_key t).
Proof.
  intros Hd Ht. rw /differs /state_of (keyed_unique _ _ _ Hd Ht) /=.
  destruct (keyed _ _ !! _) as [o|]; simpl; [|done].
  f_equal. destruct (st_eqb _ _) eqn:E; symmetry.
  - apply bool_decide_eq_true. by apply st_eqb_eq in E as ->.
  - apply bool_decide_eq_false. intros [= Es]. rw Es in E. by rw (proj2 (st_eqb_eq _ _) eq_refl) in E.
Qed.

(** C33: Comparing two runs names as their first divergence exactly the first
    task, in the order of the left run's latest pass and then of what only the
    right run has, whose state type differs or that one side lacks; it names
    none exactly when every task ended alike on both sides. *)
Theorem first_divergence_exact (left right : RunBundle) :
  NoDup (task_keys (rb_tasks left)) →
  rc_first_divergence (compare left right)
    = List.find (differs (rb_tasks left) (rb_tasks right)) (task_order (rb_tasks left) (rb_tasks right)) ∧
  (rc_first_divergence (compare left right) = None ↔
   ∀ k, state_of (rb_tasks left) k = state_of (rb_tasks right) k).
Proof.
  intros Hd. set (l := rb_tasks left). set (r := rb_tasks right).
  assert (rc_first_divergence (compare left right) = List.find (differs l r) (task_order l r)) as E.
  { rw /compare /= /task_diffs find_app fmap_or_else /task_order find_app.
    f_equal; [rw (find_fmap td_key (differs l r))|rw (find_fmap td_key (differs l r))].
    - f_equal. rw -list_fmap_compose. by apply list_fmap_ext.
    - intros d (t & -> & Ht)%list_elem_of_fmap. by apply left_task_differs.
    - f_equal. rw -list_fmap_compose. rw -(filter_fmap_bool tr_dynamic_key
        (λ t, negb (bool_decide (tr_dynamic_key t ∈ tr_dynamic_key <$> latest_pass l)))); [by apply list_fmap_ext|].
      intros t. by rw bool_decide_not.
    - intros d (t & -> & Ht)%list_elem_of_fmap. apply list_elem_of_In, List.filter_In in Ht as [Ht%list_elem_of_In Hn].
      apply negb_true_iff, bool_decide_eq_false in Hn. symmetry. apply negb_true_iff, bool_decide_eq_false.
      rw /state_of. simpl. rw (proj2 (keyed_None _ _ _) Hn). intros Hk. symmetry in Hk. apply fmap_None, keyed_None in Hk.
      by apply Hk, list_elem_of_fmap_2. }
  split; [done|]. rw E. split.
  - intros Hf k. pose proof (List.find_none _ _ Hf k) as Hk.
    destruct (decide (k ∈ task_order l r)) as [Hin|Hnot].
    + apply list_elem_of_In, Hk, negb_false_iff in Hin. by apply bool_decide_eq_true in Hin.
    + rw /task_order elem_of_app list_elem_of_filter in Hnot. rw /state_of.
      rw (proj2 (keyed_None tr_dynamic_key (latest_pass l) k)); [|naive_solver].
      rw (proj2 (keyed_None tr_dynamic_key (latest_pass r) k)); [done|].
      destruct (decide (k ∈ task_keys l)); naive_solver.
  - intros Hall. destruct (List.find _ _) as [k|] eqn:Ef; [|done]. apply List.find_some in Ef as [_ Hk].
    rw /differs in Hk. apply negb_true_iff, bool_decide_eq_false in Hk. by destruct Hk.
Qed.

(** The new errors are at most fifty and distinct; a line is there because the
    right run has it and the left run does not. *)
Lemma new_lines_sound known lines out :
  NoDup out → (length out < 50)%nat → (∀ m, m ∈ out → m ∉ known) →
  NoDup (new_lines known lines out) ∧ (length (new_lines known lines out) ≤ 50)%nat ∧
  ∀ m, m ∈ new_lines known lines out → (m ∉ known) ∧ (m ∈ out ∨ m ∈ lg_message <$> lines).
Proof.
  revert out. induction lines as [|line lines IH]; intros out Hd Hl Hk; cbn [new_lines].
  { split; [done|]. split; [lia|]. intros m Hm. split; [by apply Hk | by left]. }
  set (out' := if bool_decide (lg_message line ∈ known) || bool_decide (lg_message line ∈ out) then out else out ++ [lg_message line]).
  assert (NoDup out' ∧ (length out' ≤ 50)%nat ∧
          ∀ m, m ∈ out' → (m ∉ known) ∧ (m ∈ out ∨ m = lg_message line)) as (Hd' & Hl' & Hk').
  { rw /out'. destruct (bool_decide (_ ∈ known)) eqn:E1; simpl; [naive_solver lia|].
    destruct (bool_decide (_ ∈ out)) eqn:E2; [naive_solver lia|].
    apply bool_decide_eq_false in E1, E2. split; [|split].
    - apply NoDup_app. split; [done|]. split; [set_solver | apply NoDup_singleton].
    - rw length_app /=. lia.
    - intros m. rw elem_of_app list_elem_of_singleton. naive_solver. }
  destruct (50 <=? length out')%nat eqn:E.
  - split; [done|]. split; [done|]. intros m Hm. destruct (Hk' m Hm) as [? [?| ->]]; [naive_solver|].
    split; [done|]. right. by left.
  - apply Nat.leb_gt in E. destruct (IH out' Hd' E (λ m Hm, proj1 (Hk' m Hm))) as (? & ? & Hin).
    split; [done|]. split; [done|]. intros m Hm. destruct (Hin m Hm) as [? [Ho|?]]; (split; [done|]).
    + destruct (Hk' m Ho) as [_ [?| ->]]; [by left | right; by left].
    + right. by right.
Qed.

(** ** Two small runs *)

Definition task_at (id : Z) (key : string) (pass : Z) (t : StateType) : TaskRun :=
  mkTaskRun id "t" 1 key key key pass (State_new 0 t) 0 0 id None None (Some 10) "r" 1 "etl" "p" [] None None false None.
Definition run_at (id : Z) (t : StateType) : Run :=
  mkRun id "x" 1 "etl" "p" "p" "r" [] [] [] (State_new 0 t) 0 0 0 None None (Some 20) None None "test" 0 None None 0
    None 1 None ∅ None None None 0 None.
Definition good_run : RunBundle :=
  mkRunBundle (run_at 1 Completed)
    [task_at 1 "extract-0" 0 Failed; task_at 2 "extract-0" 1 Completed; task_at 3 "load-0" 1 Completed] [] [].
Definition bad_run : RunBundle :=
  mkRunBundle (run_at 2 Failed)
    [task_at 4 "extract-0" 0 Completed; task_at 5 "load-0" 0 Failed; task_at 6 "notify-0" 0 Completed] [] [].

Lemma first_divergence_exact_witness :
  rc_first_divergence (compare good_run bad_run) = Some "load-0" ∧
  rc_first_divergence (compare good_run bad_run)
    = List.find (differs (rb_tasks good_run) (rb_tasks bad_run)) (task_order (rb_tasks good_run) (rb_tasks bad_run)).
Proof.
  split; [by vm_compute|]. apply (first_divergence_exact good_run bad_run).
  apply (bool_decide_unpack (NoDup _)). by vm_compute.
Defined.
