(* ===== verification/Fingerprint.v ===== *)
(** * Module fingerprints (server/src/fingerprint.rs)

    The hash of the code a module is made of, and the cache of hashes the server
    answers its engines and workers from.  The file system is a value, what one
    look at it answers; SHA-256 is a parameter. *)

From S2P Require Import Prelude Access Compare.
From Stdlib Require Import Ascii.

(** One state of the file system: which paths are files, the names in a
    directory, the content of a file, and a path's modification time and length. *)
Record FileSystem : Type := mkFileSystem {
  fs_is_file : string → bool;
  fs_entries : string → option (list string);
  fs_read : string → option string;
  fs_metadata : string → option (option Z * Z);
}.

(** ** Paths *)

Definition path_join (dir name : string) : string :=
  if starts_with name "/" then name
  else if str_is_empty dir then name
  else if ends_with_char dir "/" then dir +:+ name
  else dir +:+ "/" +:+ name.
Definition path_parent (p : string) : string :=
  match rsplit_once "/" p with
  | Some (EmptyString, _) => "/"
  | Some (dir, _) => dir
  | None => EmptyString
  end.
Definition file_name (p : string) : string := match rsplit_once "/" p with Some (_, n) => n | None => p end.
(** [extension() == "py"]: a name that is nothing but an extension has none. *)
Definition is_python (p : string) : bool :=
  match rsplit_once "." (file_name p) with Some (stem, ext) => negb (str_is_empty stem) && (ext =?s "py") | None => false end.
Definition replace_dots (s : string) : string :=
  String.string_of_list_ascii ((λ c, if Ascii.eqb c "." then "/"%char else c) <$> chars s).

(** ** Fingerprints *)

Section fingerprints.
Context (sha256_hex : string → string).

Definition candidates (source_dir module : string) : list string :=
  let rel := replace_dots module in
  let last := match rsplit_once "." module with Some (_, l) => l | None => module end in
  [path_join source_dir (rel +:+ ".py"); path_join (path_join source_dir rel) "__init__.py";
   path_join source_dir (last +:+ ".py"); path_join source_dir "__init__.py"].
Definition module_file (fs : FileSystem) (source_dir module : string) : string :=
  default (path_join source_dir (replace_dots module +:+ ".py"))
    (List.find (fs_is_file fs) (candidates source_dir module)).

Definition files_in_dir (fs : FileSystem) (file : string) : option (list string) :=
  let dir := path_parent file in
  match fs_entries fs dir with
  | None => None
  | Some names =>
      let files := List.filter (λ p, is_python p && fs_is_file fs p) (path_join dir <$> names) in
      if existsb (λ p, p =?s file) files then Some (stable_sort str_le files) else None
  end.
Definition module_files (fs : FileSystem) (source_dir module : string) : option (list string) :=
  files_in_dir fs (module_file fs source_dir module).

(** [name \0 content \0] of every file. *)
Fixpoint digest_text (fs : FileSystem) (files : list string) : option string :=
  match files with
  | [] => Some EmptyString
  | p :: files' =>
      match fs_read fs p, digest_text fs files' with
      | Some content, Some rest => Some (file_name p +:+ String "000" (content +:+ String "000" rest))
      | _, _ => None
      end
  end.
Definition hash_files (fs : FileSystem) (files : list string) : option string := sha256_hex <$> digest_text fs files.
Definition module_fingerprint (fs : FileSystem) (source_dir module : string) : option string :=
  and_then (module_files fs source_dir module) (hash_files fs).

(** ** The cache *)

Definition dir_stamp (fs : FileSystem) (path : string) : option Z * Z := default (None, 0) (fs_metadata fs path).
Definition file_stamp (fs : FileSystem) (path : string) : option Z := and_then (fs_metadata fs path) fst.

Record Entry : Type := mkEntry {
  en_dir : option Z * Z;
  en_files : option (list string);
  en_stamps : list (option Z);
  en_hash : option string;
}.
Definition still_valid (fs : FileSystem) (stamp : option Z * Z) (e : Entry) : bool :=
  bool_decide (en_dir e = stamp)
  && match en_files e with
     | None => true
     | Some files =>
         (length files =? length (en_stamps e))%nat
         && forallb (λ ps, bool_decide (file_stamp fs ps.1 = ps.2)) (zip files (en_stamps e))
     end.
Abbreviation Cache := (gmap (string * string) Entry).
Definition entry_of (fs : FileSystem) (file : string) : Entry :=
  let files := files_in_dir fs file in
  mkEntry (dir_stamp fs (path_parent file)) files (match files with Some l => file_stamp fs <$> l | None => [] end)
    (and_then files (hash_files fs)).
Definition get_fingerprint (fs : FileSystem) (source_dir module : string) (c : Cache) : Cache * option string :=
  let key := (source_dir, module) in
  let file := module_file fs source_dir module in
  let fresh := let e := entry_of fs file in (<[key := e]> c, en_hash e) in
  match c !! key with
  | Some e => if still_valid fs (dir_stamp fs (path_parent file)) e then (c, en_hash e) else fresh
  | None => fresh
  end.

(** Requests in the order they come, each with the file system it finds. *)
Definition look : Type := FileSystem * (string * string).
Fixpoint ask (looks : list look) (c : Cache) : list (option string) :=
  match looks with
  | [] => []
  | (fs, (dir, module)) :: looks' =>
      let '(c, h) := get_fingerprint fs dir module c in h :: ask looks' c
  end.

(** ** The cache answers what a fresh look would *)

(** What the times of a file system are good for: a directory with the same
    time and length as before has the same files in it, a module whose directory
    has the same time and length is where it was, and a file with the same time
    as before has the same content and is as readable as before. *)
Record stamps_tell (then_ now : FileSystem) : Prop := {
  tell_dir d : dir_stamp then_ d = dir_stamp now d →
    fs_entries then_ d = fs_entries now d ∧
    ∀ name, fs_is_file then_ (path_join d name) = fs_is_file now (path_join d name);
  tell_place dir module :
    dir_stamp then_ (path_parent (module_file then_ dir module)) = dir_stamp now (path_parent (module_file now dir module)) →
    module_file then_ dir module = module_file now dir module;
  tell_file p : file_stamp then_ p = file_stamp now p → fs_read then_ p = fs_read now p;
}.
Definition from_past (past : list FileSystem) (key : string * string) (e : Entry) : Prop :=
  ∃ fs, fs ∈ past ∧ e = entry_of fs (module_file fs key.1 key.2).

Lemma digest_same fs fs' files :
  (∀ p, p ∈ files → fs_read fs p = fs_read fs' p) → digest_text fs files = digest_text fs' files.
Proof using Type.
  induction files as [|p files IH]; simpl; [done|]. intros Hp. rw IH; [|intros q Hq; apply Hp; by right].
  by rw (Hp p); [|left].
Qed.
Lemma stamps_same fs fs' files :
  forallb (λ ps, bool_decide (file_stamp fs' ps.1 = ps.2)) (zip files (file_stamp fs <$> files)) = true →
  ∀ p, p ∈ files → file_stamp fs p = file_stamp fs' p.
Proof using Type.
  induction files as [|q files IH]; simpl; [by intros _ p Hp%not_elem_of_nil|].
  intros [Hq Hr]%andb_true_iff p [->|Hp]%elem_of_cons; [|by apply IH]. apply bool_decide_eq_true in Hq. done.
Qed.
Lemma files_same fs fs' f :
  (∀ d, dir_stamp fs d = dir_stamp fs' d → fs_entries fs d = fs_entries fs' d ∧
     ∀ name, fs_is_file fs (path_join d name) = fs_is_file fs' (path_join d name)) →
  dir_stamp fs (path_parent f) = dir_stamp fs' (path_parent f) → files_in_dir fs f = files_in_dir fs' f.
Proof using Type.
  intros Ht Hd. destruct (Ht _ Hd) as [He Hf]. rw /files_in_dir -He. destruct (fs_entries fs (path_parent f)) as [names|]; [|done].
  assert (List.filter (λ p, is_python p && fs_is_file fs p) (path_join (path_parent f) <$> names)
        = List.filter (λ p, is_python p && fs_is_file fs' p) (path_join (path_parent f) <$> names)) as ->; [|done].
  clear He Hd. induction names as [|n names IH]; [done|]. rw !fmap_cons. cbn [List.filter]. by rw Hf IH.
Qed.
Lemma valid_is_fresh fs fs' dir module :
  stamps_tell fs fs' →
  let e := entry_of fs (module_file fs dir module) in
  still_valid fs' (dir_stamp fs' (path_parent (module_file fs' dir module))) e = true →
  en_hash e = en_hash (entry_of fs' (module_file fs' dir module)).
Proof using Type.
  intros Ht. cbv zeta. rw /still_valid. intros [Hd Hf]%andb_true_iff. apply bool_decide_eq_true in Hd.
  cbn [en_dir entry_of] in Hd. pose proof (tell_place _ _ Ht dir module Hd) as Hm. rw -Hm in Hd. rw -Hm.
  set (f := module_file fs dir module) in *. clearbody f. cbn [en_hash entry_of]. cbn [en_files en_stamps entry_of] in Hf.
  rw -(files_same fs fs' f); [|apply Ht|done]. destruct (files_in_dir fs f) as [files|]; [|done].
  cbn [and_then]. apply andb_true_iff in Hf as [_ Hf].
  rw /hash_files. f_equal. apply digest_same. intros p Hp. apply (tell_file _ _ Ht). by eapply stamps_same.
Qed.
Lemma get_is_fresh fs dir module past c :
  map_Forall (from_past past) c → (∀ fs0, fs0 ∈ past → stamps_tell fs0 fs) →
  (get_fingerprint fs dir module c).2 = module_fingerprint fs dir module ∧
  map_Forall (from_past (past ++ [fs])) (get_fingerprint fs dir module c).1.
Proof using Type.
  intros Hc Ht. assert (map_Forall (from_past (past ++ [fs])) c) as Hc'.
  { eapply map_Forall_impl; [exact Hc|]. intros k e (fs0 & Hin & ->). exists fs0. split; [set_solver|done]. }
  assert (map_Forall (from_past (past ++ [fs])) (<[(dir, module) := entry_of fs (module_file fs dir module)]> c)) as Hi.
  { apply map_Forall_insert_2; [|done]. exists fs. split; [set_solver|done]. }
  rw /get_fingerprint. destruct (c !! (dir, module)) as [e|] eqn:Ec; [|done].
  destruct (still_valid _ _ e) eqn:Ev; [|done]. split; [|done]. destruct (Hc _ _ Ec) as (fs0 & Hin & ->).
  cbn [fst snd] in *. by apply (valid_is_fresh fs0 fs dir module (Ht _ Hin)).
Qed.

End fingerprints.

(** ** A concrete file system *)

Definition one_file (content : option string) (modified : Z) : FileSystem :=
  mkFileSystem (λ p, p =?s "/srv/etl.py") (λ d, if d =?s "/srv" then Some ["etl.py"; "notes.txt"] else None)
    (λ p, if p =?s "/srv/etl.py" then content else None)
    (λ p, if p =?s "/srv/etl.py" then Some (Some modified, 10) else if p =?s "/srv" then Some (Some 1, 4096) else None).

Lemma one_file_tells content content' t t' :
  (t = t' → content = content') → stamps_tell (one_file content t) (one_file content' t').
Proof.
  intros Ht. split; [done..|]. intros p. rw /file_stamp /=.
  destruct (p =?s "/srv/etl.py"); [|done]. cbn. by intros [= ?%Ht].
Qed.


(** A file that cannot be read when it is first asked for has no fingerprint
    for as long as its time stays: making it readable does not change its time. *)
Theorem unreadable_stays_unknown :
  let sealed := one_file None 7 in
  let readable := one_file (Some "A = 1") 7 in
  let sha t := "sha:" +:+ t in
  ask sha [(sealed, ("/srv", "etl")); (readable, ("/srv", "etl"))] ∅ = [None; None] ∧
  is_some (module_fingerprint sha readable "/srv" "etl") = true.
Proof. split; vm_compute; reflexivity. Qed.
