(* ===== verification/Backups.v ===== *)
(** * Copies of the store and upgrades of its schema (store/src/manage.rs, store/src/migrations.rs)

    The copies a server keeps beside its database, named by the time they were
    made, and the numbered migrations that bring an older database up to date.
    The directory of copies is the list of its files with their times; a
    migration is what its script does to the content of the database, [None]
    where the script fails. *)

From S2P Require Import Prelude GroupCommit Access Compare.
From Stdlib Require Import Ascii.

(** ** The name of a copy *)

(** The date of a day, counted from 1970-01-01: year, month, day. *)
Definition yoe_of (doe : Z) : Z := (doe - doe / 1460 + doe / 36524 - doe / 146096) / 365.
Definition month_day (doy : Z) : Z * Z :=
  let mp := (5 * doy + 2) / 153 in
  (if mp <? 10 then mp + 3 else mp - 9, doy - (153 * mp + 2) / 5 + 1).
Definition civil (days : Z) : Z * Z * Z :=
  let z := days + 719468 in
  let era := z / 146097 in
  let doe := z mod 146097 in
  let yoe := yoe_of doe in
  let doy := doe - (365 * yoe + yoe / 4 - yoe / 100) in
  let '(month, day) := month_day doy in
  (yoe + era * 400 + (if month <=? 2 then 1 else 0), month, day).

(** [format!("{:0width$}")]: the width counts a sign. *)
Definition zero_pad (width : nat) (n : Z) : string :=
  let digits := dec (Z.abs n) in
  let sign := if n <? 0 then "-" else EmptyString in
  sign +:+ String.string_of_list_ascii (replicate (width - str_len sign - str_len digits) "0"%char) +:+ digits.
Definition utc_stamp (micros : Z) : string :=
  let secs := micros / 1000000 in
  let rem := secs mod 86400 in
  let '(year, month, day) := civil (secs / 86400) in
  zero_pad 4 year +:+ zero_pad 2 month +:+ zero_pad 2 day +:+ "-"
  +:+ zero_pad 2 (rem / 3600) +:+ zero_pad 2 (rem mod 3600 / 60) +:+ zero_pad 2 (rem mod 60).

(** ** The copies *)

(** A file of the directory: when it was modified, and its name. *)
Abbreviation Copies := (list (Z * string)).
Definition copy_name (stamp : string) (n : nat) : string :=
  match n with O => "db-" +:+ stamp +:+ ".sqlite" | _ => "db-" +:+ stamp +:+ "-" +:+ pretty n +:+ ".sqlite" end.
(** The first name that is not taken. *)
Fixpoint free_name (room n : nat) (stamp : string) (files : Copies) : option string :=
  match room with
  | O => None
  | S room' =>
      let name := copy_name stamp n in
      if existsb (λ f, f.2 =?s name) files then free_name room' (S n) stamp files else Some name
  end.
(** [written] is the writer's answer, and the time the file gets. *)
Definition backup (now : Z) (written : result Z StoreError) (files : Copies) : Copies * result string StoreError :=
  match free_name (S (length files)) 0 (utc_stamp now) files with
  | None => (files, Err WriterGone)
  | Some name =>
      match written with
      | Ok at_ => (files ++ [(at_, name)], Ok name)
      | Err e => (files, Err e)
      end
  end.
Definition ends_with (s suffix : string) : bool :=
  (str_len suffix <=? str_len s)%nat && bool_decide (drop (str_len s - str_len suffix) (chars s) = chars suffix).
Definition is_copy (name : string) : bool := starts_with name "db-" && ends_with name ".sqlite".
Definition copy_le (a b : Z * string) : Prop := a.1 < b.1 ∨ (a.1 = b.1 ∧ str_le a.2 b.2).
#[export] Instance copy_le_dec : RelDecision copy_le.
Proof. intros a b. rw /copy_le. apply _. Defined.
(** Oldest first. *)
Definition list_backups (files : Copies) : list string :=
  snd <$> stable_sort copy_le (List.filter (λ f, is_copy f.2) files).
Definition prune_backups (keep : nat) (files : Copies) : Copies * nat :=
  let copies := list_backups files in
  let excess := (length copies - keep)%nat in
  (List.filter (λ f, negb (bool_decide (f.2 ∈ take excess copies))) files, excess).
(** A copy, and the prune that follows it ([retention::run_backup]). *)
Definition backup_and_prune (now : Z) (written : result Z StoreError) (backup_keep : Z) (files : Copies)
    : Copies * result string StoreError :=
  match backup now written files with
  | (files, Ok name) => ((prune_backups (Z.to_nat (Z.max backup_keep 0)) files).1, Ok name)
  | r => r
  end.

(** ** Migrations *)

Section migrations.
Context {D : Type} (violation : D → option (string * string)).

Record Database : Type := mkDatabase { user_version : Z; content : D; foreign_keys : bool }.
Abbreviation Script := (D → option D).

Definition latest_version (migrations : list Script) : Z := Z.of_nat (length migrations).
(** The scripts after version [current], the first of them number [i + 1]. *)
Fixpoint run_scripts (i : Z) (migrations : list Script) (current : Z) (d : D) : option D :=
  match migrations with
  | [] => Some d
  | sql :: rest =>
      if current <? i + 1 then match sql d with Some d => run_scripts (i + 1) rest current d | None => None end
      else run_scripts (i + 1) rest current d
  end.
(** One transaction: an error leaves the database as it was. *)
Definition migrate (migrations : list Script) (current latest : Z) (db : Database) : Database * result unit StoreError :=
  match run_scripts 0 migrations current (content db) with
  | None => (db, Err (Sqlite false "the migration failed"))
  | Some d =>
      match violation d with
      | Some (child, parent) => (db, Err (Migration (child +:+ " references a missing row in " +:+ parent)))
      | None => (mkDatabase latest d (foreign_keys db), Ok tt)
      end
  end.
Definition set_foreign_keys (b : bool) (db : Database) : Database := mkDatabase (user_version db) (content db) b.
Definition apply_migrations (migrations : list Script) (db : Database) : Database * result unit StoreError :=
  let current := user_version db in
  let latest := latest_version migrations in
  if latest <? current then (db, Err (Downgrade current latest))
  else if current =? latest then (db, Ok tt)
  else
    let '(db, migrated) := migrate migrations current latest (set_foreign_keys false db) in
    (set_foreign_keys true db, migrated).

(** The copy made before an upgrade: [None] where none is needed. *)
Definition backup_before_upgrade (migrations : list Script) (now : Z) (skip : bool) (written : result unit string)
    (db : Database) : result (option string) StoreError :=
  let current := user_version db in
  if (current =? 0) || (latest_version migrations <=? current) || skip then Ok None
  else
    let path := "pre-migration-v" +:+ dec current +:+ "-" +:+ utc_stamp now +:+ ".sqlite" in
    match written with
    | Ok _ => Ok (Some path)
    | Err e => Err (Migration ("could not write the pre-migration copy " +:+ path +:+ ": " +:+ e
        +:+ "; free disk space, or set CEREYAN_NO_MIGRATION_BACKUP=1 to migrate without it"))
    end.
End migrations.

(** ** The calendar *)

(** The Gregorian calendar, a day at a time. *)
Definition is_leap (y : Z) : bool := (y mod 4 =? 0) && (negb (y mod 100 =? 0) || (y mod 400 =? 0)).
Definition days_in_month (y m : Z) : Z :=
  if m =? 2 then if is_leap y then 29 else 28
  else if (m =? 4) || (m =? 6) || (m =? 9) || (m =? 11) then 30 else 31.
Definition next_day (d : Z * Z * Z) : Z * Z * Z :=
  let '(y, m, d) := d in
  if d <? days_in_month y m then (y, m, d + 1)
  else if m <? 12 then (y, m + 1, 1) else (y + 1, 1, 1).

(** The first day of a year that starts in March, within 400 years. *)
Definition year_start (y : Z) : Z := 365 * y + y / 4 - y / 100 + y / 400.
Definition upto (n : nat) : list Z := Z.of_nat <$> List.seq 0 n.
Lemma upto_check (p : Z → bool) n : forallb p (upto n) = true → ∀ y, 0 ≤ y < Z.of_nat n → p y = true.
Proof.
  rw forallb_forall. intros Hp y Hy. apply Hp. apply list_elem_of_In, list_elem_of_fmap. exists (Z.to_nat y).
  split; [lia|]. apply list_elem_of_In, in_seq. lia.
Qed.

Lemma yoe_step d : 0 ≤ d < 146096 → yoe_of d ≤ yoe_of (d + 1).
Proof. intros Hd. rw /yoe_of. apply Z.div_le_mono; [lia|]. Z.to_euclidean_division_equations. lia. Qed.
Lemma yoe_mono a b : 0 ≤ a → a ≤ b → b < 146097 → yoe_of a ≤ yoe_of b.
Proof.
  intros Ha Hab Hb. replace b with (a + Z.of_nat (Z.to_nat (b - a))) by lia. assert (a + Z.of_nat (Z.to_nat (b - a)) < 146097) as Hn by lia.
  revert Hn. generalize (Z.to_nat (b - a)) as n. clear Hab Hb b. induction n as [|n IH]; intros Hn; [by rw Z.add_0_r|].
  transitivity (yoe_of (a + Z.of_nat n)); [apply IH; lia|]. replace (a + Z.of_nat (S n)) with (a + Z.of_nat n + 1) by lia.
  apply yoe_step. lia.
Qed.
Lemma year_ends y :
  0 ≤ y < 400 →
  yoe_of (year_start y) = y ∧ yoe_of (year_start (y + 1) - 1) = y ∧
  year_start (y + 1) - year_start y = (if is_leap (y + 1) then 366 else 365).
Proof.
  assert (forallb (λ y, (yoe_of (year_start y) =? y) && (yoe_of (year_start (y + 1) - 1) =? y)
     && (year_start (y + 1) - year_start y =? (if is_leap (y + 1) then 366 else 365))) (upto 400) = true) as Hc by (vm_compute; reflexivity).
  intros Hy. pose proof (upto_check _ _ Hc y Hy) as Hp. simpl in Hp. lia.
Qed.
Lemma year_found doe : 0 ≤ doe < 146097 → ∃ y, 0 ≤ y < 400 ∧ year_start y ≤ doe < year_start (y + 1).
Proof.
  intros Hd. assert (∀ n : nat, (n ≤ 400)%nat → doe < year_start (Z.of_nat n) →
    ∃ y, 0 ≤ y < 400 ∧ year_start y ≤ doe < year_start (y + 1)) as Hgo.
  { induction n as [|n IH]; intros Hn Hlt; [change (year_start (Z.of_nat 0)) with 0 in Hlt; lia|].
    destruct (decide (doe < year_start (Z.of_nat n))) as [Hl|Hge]; [apply IH; [lia|done]|].
    exists (Z.of_nat n). replace (Z.of_nat n + 1) with (Z.of_nat (S n)) by lia. lia. }
  apply (Hgo 400%nat); [lia|]. change (year_start (Z.of_nat 400)) with 146097. lia.
Qed.

Lemma yoe_exact doe y : 0 ≤ y < 400 → year_start y ≤ doe < year_start (y + 1) → yoe_of doe = y.
Proof.
  intros Hy Hd. destruct (year_ends y Hy) as (Hs & He & _).
  assert (0 ≤ year_start y) as H0 by (rw /year_start; Z.to_euclidean_division_equations; lia).
  assert (year_start (y + 1) ≤ 146097) as H1 by (rw /year_start; Z.to_euclidean_division_equations; lia).
  pose proof (yoe_mono (year_start y) doe). pose proof (yoe_mono doe (year_start (y + 1) - 1)). lia.
Qed.

(** A day of a year that starts in March, as a date. *)
Definition date_at (year doy : Z) : Z * Z * Z :=
  let '(m, d) := month_day doy in (year + (if m <=? 2 then 1 else 0), m, d).
Lemma civil_at era doe y :
  0 ≤ y < 400 → year_start y ≤ doe < year_start (y + 1) → 0 ≤ doe < 146097 →
  civil (era * 146097 + doe - 719468) = date_at (y + era * 400) (doe - year_start y).
Proof.
  intros Hy Hd Hr. rw /civil. replace (era * 146097 + doe - 719468 + 719468) with (doe + era * 146097) by lia.
  rw Z.div_add; [|lia]. rw Z.mod_add; [|lia]. rw (Z.div_small doe 146097); [|lia]. rw (Z.mod_small doe 146097); [|lia]. rw (yoe_exact doe y) //.
  replace (365 * y + y / 4 - y / 100) with (year_start y) by (rw /year_start (Z.div_small y 400); lia).
  rw Z.add_0_l /date_at. by destruct (month_day _).
Qed.

Definition month_length (leap : bool) (m : Z) : Z :=
  if m =? 2 then if leap then 29 else 28 else if (m =? 4) || (m =? 6) || (m =? 9) || (m =? 11) then 30 else 31.
Definition next_with (leap : bool) (d : Z * Z * Z) : Z * Z * Z :=
  let '(y, m, d) := d in
  if d <? month_length leap m then (y, m, d + 1) else if m <? 12 then (y, m + 1, 1) else (y + 1, 1, 1).
Lemma same_year (a b m d : Z) : a = b → (a, m, d) = (b, m, d).
Proof. by intros ->. Qed.
Lemma next_with_shift leap y doy :
  next_with leap (date_at y doy) = let '(y0, m, d) := next_with leap (date_at 0 doy) in (y + y0, m, d).
Proof.
  rw /date_at. destruct (month_day doy) as [m d]. cbn [next_with].
  destruct (d <? _); [|destruct (m <? 12)]; apply same_year; lia.
Qed.
Lemma date_shift y doy : date_at y doy = let '(y0, m, d) := date_at 0 doy in (y + y0, m, d).
Proof. rw /date_at. destruct (month_day doy) as [m d]. apply same_year. lia. Qed.

(** A day that is not the last of its year. *)
Lemma day_step (leap : bool) y doy :
  0 ≤ doy < (if leap then 365 else 364) → next_with leap (date_at y doy) = date_at y (doy + 1).
Proof.
  assert (∀ b : bool, forallb (λ doy : Z, bool_decide (next_with b (date_at 0 doy) = date_at 0 (doy + 1)))
    (upto (if b then 365%nat else 364%nat)) = true) as Hc by (intros b; destruct b; vm_compute; reflexivity).
  intros Hd. assert (next_with leap (date_at 0 doy) = date_at 0 (doy + 1)) as E.
  { apply (bool_decide_eq_true_1 _). apply (upto_check _ _ (Hc leap)). destruct leap; lia. }
  by rw next_with_shift E -date_shift.
Qed.
(** The last day of a year that starts in March. *)
Lemma year_step (leap : bool) y : next_with leap (date_at y (if leap then 365 else 364)) = date_at (y + 1) 0.
Proof.
  rw next_with_shift (date_shift (y + 1)). change (date_at 0 0) with (0, 3, 1).
  assert (next_with leap (date_at 0 (if leap then 365 else 364)) = (1, 3, 1)) as -> by (by destruct leap).
  apply same_year. lia.
Qed.

Lemma leap_shift y era : is_leap (y + era * 400) = is_leap y.
Proof.
  rw /is_leap. replace (era * 400) with (era * 100 * 4) at 1 by lia. rw Z.mod_add; [|lia].
  replace (era * 400) with (era * 4 * 100) at 1 by lia. rw Z.mod_add; [|lia]. rw Z.mod_add; [|lia]. done.
Qed.

Lemma next_day_with y m d : next_day (y, m, d) = next_with (is_leap y) (y, m, d).
Proof. done. Qed.
(** Within a year that starts in March, only February, of the year after, asks
    for the leap year. *)
Lemma next_in_year y doy :
  0 ≤ doy < 366 → next_day (date_at y doy) = next_with (is_leap (y + 1)) (date_at y doy).
Proof.
  intros Hd. rw /date_at. destruct (month_day doy) as [m d] eqn:E. rw next_day_with.
  destruct (Z.leb_spec m 2); [done|]. rw /next_with /month_length. by destruct (Z.eqb_spec m 2); [lia|].
Qed.

(** C31: The date in a copy's name is the date of the calendar: day 0 is the first
    of January 1970, and the day after any day is the calendar's next day, leap
    years included, before 1970 as after it. *)
Theorem civil_is_the_calendar (days : Z) : civil 0 = (1970, 1, 1) ∧ civil (days + 1) = next_day (civil days).
Proof.
  split; [by vm_compute|]. set (z := days + 719468). set (era := z / 146097). set (doe := z mod 146097).
  assert (z = era * 146097 + doe ∧ 0 ≤ doe < 146097) as [Hz Hdoe].
  { split; [rw /era /doe; pose proof (Z.div_mod z 146097); lia|apply Z.mod_pos_bound; lia]. }
  clearbody era doe. replace days with (era * 146097 + doe - 719468) by lia. clear Hz z days.
  destruct (year_found doe Hdoe) as (y & Hy & Hd). destruct (year_ends y Hy) as (_ & _ & Hlen).
  rw (civil_at era doe y) // next_in_year; [|destruct (is_leap (y + 1)); lia].
  replace (y + era * 400 + 1) with (y + 1 + era * 400) by lia. rw leap_shift.
  destruct (decide (doe + 1 < year_start (y + 1))) as [Hin|Hlast].
  - replace (era * 146097 + doe - 719468 + 1) with (era * 146097 + (doe + 1) - 719468) by lia.
    assert (year_start (y + 1) ≤ 146097) by (rw /year_start; Z.to_euclidean_division_equations; lia).
    rw (civil_at era (doe + 1) y); [|lia..]. rw day_step; [|destruct (is_leap (y + 1)); lia]. f_equal. lia.
  - replace (doe - year_start y) with (if is_leap (y + 1) then 365 else 364) by (destruct (is_leap (y + 1)); lia).
    rw year_step. destruct (decide (y = 399)) as [->|Hne].
    + assert (doe = 146096) as -> by (change (year_start (399 + 1)) with 146097 in *; lia).
      replace (era * 146097 + 146096 - 719468 + 1) with ((era + 1) * 146097 + 0 - 719468) by lia.
      rw (civil_at (era + 1) 0 0); [|done..]. f_equal. lia.
    + assert (year_start (y + 2) ≤ 146097 ∧ year_start (y + 1) < year_start (y + 2)) as [? ?].
      { rw /year_start. split; Z.to_euclidean_division_equations; lia. }
      replace (era * 146097 + doe - 719468 + 1) with (era * 146097 + year_start (y + 1) - 719468) by lia.
      replace (y + 2) with (y + 1 + 1) in * by lia.
      rw (civil_at era (year_start (y + 1)) (y + 1)); [|lia..]. rw Z.sub_diag. f_equal. lia.
Qed.

(** ** A copy gets a name of its own *)

Lemma append_cancel (a b c : string) : a +:+ c = b +:+ c → a = b.
Proof.
  intros E. apply chars_inj, (app_inv_tail (chars c)).
  assert (∀ x y, chars (x +:+ y) = chars x ++ chars y) as Happ by (induction x as [|h x IH]; intros y; simpl; [done | by rw IH]).
  by rw -!Happ E.
Qed.
Lemma copy_name_inj stamp m n : copy_name stamp m = copy_name stamp n → m = n.
Proof.
  assert (∀ k : nat, stamp +:+ ".sqlite" ≠ stamp +:+ "-" +:+ pretty k +:+ ".sqlite") as Hne.
  { intros k E. by apply (inj (String.append stamp)) in E. }
  destruct m as [|m], n as [|n]; rw /copy_name; intros E; apply (inj (String.append "db-")) in E; [done| | |].
  - by apply Hne in E.
  - symmetry in E. by apply Hne in E.
  - apply (inj (String.append stamp)) in E. apply (inj (String.append "-")) in E. apply append_cancel in E.
    by apply (inj pretty) in E.
Qed.
Lemma free_name_none room n stamp files :
  free_name room n stamp files = None → ∀ k, (n ≤ k < n + room)%nat → copy_name stamp k ∈ files.*2.
Proof.
  revert n. induction room as [|room IH]; intros n; cbn [free_name]; [lia|].
  destruct (existsb _ files) eqn:E; [|done]. intros Hf k Hk. destruct (decide (k = n)) as [->|Hne]; [|apply (IH _ Hf); lia].
  apply existsb_exists in E as (f & Hin & Hn%String.eqb_eq). apply list_elem_of_fmap. exists f. split; [done|].
  by apply list_elem_of_In.
Qed.
Lemma free_name_some room n stamp files name : free_name room n stamp files = Some name → name ∉ files.*2.
Proof.
  revert n. induction room as [|room IH]; intros n; cbn [free_name]; [done|]. destruct (existsb _ files) eqn:E; [apply IH|].
  intros [= <-] (f & Hn & Hin)%list_elem_of_fmap. apply not_true_iff_false in E. destruct E. apply existsb_exists.
  exists f. split; [by apply list_elem_of_In|]. by apply String.eqb_eq.
Qed.

(** Looking for a name that is not taken ends, and a copy never overwrites a
    file: however many files the directory has and however they are named, one
    more name than there are files is enough, the copy gets a name that no file
    has, and every file that was there stays. *)
Theorem copy_never_overwrites (now at_ : Z) (files : Copies) :
  ∃ name, backup now (Ok at_) files = (files ++ [(at_, name)], Ok name) ∧ (name ∉ files.*2).
Proof.
  rw /backup. destruct (free_name _ _ _ files) as [name|] eqn:E; [exists name; split; [done | by eapply free_name_some]|].
  exfalso. pose proof (free_name_none _ _ _ _ E) as Hall.
  assert (NoDup (copy_name (utc_stamp now) <$> List.seq 0 (S (length files)))) as Hd.
  { apply NoDup_fmap_2_strong; [|apply NoDup_ListNoDup, seq_NoDup]. intros x y _ _. apply copy_name_inj. }
  assert (length (copy_name (utc_stamp now) <$> List.seq 0 (S (length files))) ≤ length files.*2)%nat as Hl.
  { apply submseteq_length, NoDup_submseteq; [done|]. intros x (k & -> & Hk)%list_elem_of_fmap. apply Hall.
    apply list_elem_of_In, in_seq in Hk. lia. }
  rw !length_fmap length_seq in Hl. lia.
Qed.

(** With no copy to keep, the copy that was just made goes too: the answer names
    a file that is not there. *)
Theorem kept_none_answers_missing :
  let '(files, r) := backup_and_prune 0 (Ok 5) 0 [(1, "db-19690101-000000.sqlite"); (2, "notes.txt")] in
  r = Ok "db-19700101-000000.sqlite" ∧ files = [(2, "notes.txt")].
Proof. split; vm_compute; reflexivity. Qed.

(** ** Upgrades *)

Section upgrades.
Context {D : Type} (violation : D → option (string * string)).

Lemma run_scripts_skip i (ms : list (D → option D)) current d :
  i + Z.of_nat (length ms) ≤ current → run_scripts i ms current d = Some d.
Proof using Type.
  revert i d. induction ms as [|sql ms IH]; intros i d Hi; [done|]. cbn [run_scripts length] in *.
  destruct (Z.ltb_spec current (i + 1)); [lia|]. apply IH. lia.
Qed.
Lemma run_scripts_app i (ms ns : list (D → option D)) current d :
  run_scripts i (ms ++ ns) current d =
  match run_scripts i ms current d with
  | Some d => run_scripts (i + Z.of_nat (length ms)) ns current d
  | None => None
  end.
Proof using Type.
  revert i d. induction ms as [|sql ms IH]; intros i d; [cbn; by rw Z.add_0_r|]. cbn [app run_scripts length].
  replace (i + Z.of_nat (S (length ms))) with (i + 1 + Z.of_nat (length ms)) by lia.
  destruct (current <? i + 1); [destruct (sql d); [apply IH|done]|apply IH].
Qed.
Lemma run_scripts_from i (ms : list (D → option D)) c c' d :
  c ≤ i → c' ≤ i → run_scripts i ms c d = run_scripts i ms c' d.
Proof using Type.
  revert i d. induction ms as [|sql ms IH]; intros i d Hc Hc'; [done|]. cbn [run_scripts].
  destruct (Z.ltb_spec c (i + 1)); [|lia]. destruct (Z.ltb_spec c' (i + 1)); [|lia]. destruct (sql d); [apply IH; lia|done].
Qed.

End upgrades.

(** Two scripts, of which the second needs what the first made. *)
Definition sample_scripts : list (list string → option (list string)) :=
  [λ tables, Some (tables ++ ["run"]); λ tables, if bool_decide ("run" ∈ tables) then Some (tables ++ ["event"]) else None].
