(* ===== verification/AdminLaws.v ===== *)
(** * What the store's other commands guarantee (store/src/writer.rs)

    The skip marks of waiting runs follow the table of skips, retention keeps
    what it promises to keep, a claimed message is the answer every replay
    finds, and what a reset leaves behind. *)

From S2P Require Import Prelude Float64 Json States Transitions Schedules Model GroupCommit Tables Store.
From S2P Require Import JsonCodec Reader StoreAdmin Integrity.

(** The first row in id order that meets a condition has the least id. *)
Lemma oldest_first {A} (p : Z * A → bool) (m : gmap Z A) n x n' x' :
  head (List.filter p (by_id m)) = Some (n, x) → m !! n' = Some x' → p (n', x') = true → n ≤ n'.
Proof.
  intros Hh Hm Hp. assert (Hin : (n', x') ∈ List.filter p (by_id m)).
  { apply list_elem_of_In, filter_In. split; [|done]. by apply list_elem_of_In, elem_of_by_id. }
  assert (Hs : StronglySorted (key_le fst) (List.filter p (by_id m))).
  { assert (Hl : StronglySorted (key_le fst) (by_id m)) by apply sort_by_key_sorted.
    clear Hh Hin. induction Hl as [|y l Hl IH Hy]; simpl; [constructor|]. destruct (p y); [|done].
    constructor; [done|]. rw !Forall_forall in Hy |- *. intros z Hz.
    apply list_elem_of_In, filter_In in Hz as [Hz _]. by apply Hy, list_elem_of_In. }
  destruct (List.filter p (by_id m)) as [|y l]; [done|]. injection Hh as ->.
  apply StronglySorted_inv in Hs as [_ Hy]. rw Forall_forall in Hy.
  apply elem_of_cons in Hin as [[= -> ->]|Hin]; [lia|]. apply (Hy _ Hin).
Qed.

(** ** Skip marks *)

Section marks.
Context `{StoreEnv}.

Definition waits_for (sid t : Z) (r : RunRow) : Prop :=
  r_schedule_id r = Some sid ∧ is_state "Scheduled" r = true ∧ r_engine_pid r = None
  ∧ r_scheduled_time r = Some t.

Lemma json_map_wf `{!JsonLaws} text : map_wf (json_map text) = true.
Proof using Type*.
  rw /json_map. destruct (map_from_str text) as [m|] eqn:E; [|done]. by eapply map_from_wf.
Qed.

Lemma marked_not_null `{!JsonLaws} r : skip_is_null (mark_run r) = false.
Proof using Type*.
  rw /skip_is_null /mark_run /=. rw {1}/json_map map_round /=.
  - by rw map_get_insert_eq.
  - apply map_insert_wf; [done|]. apply json_map_wf.
Qed.
Lemma unmarked_null `{!JsonLaws} r : skip_is_null (unmark_run r) = true.
Proof using Type*.
  rw /skip_is_null /unmark_run /=. rw {1}/json_map map_round /=.
  - rw map_get_remove //. by pose proof (json_map_wf (c_details (r_cols r))) as [Hk _]%andb_true_iff.
  - apply map_remove_wf, json_map_wf.
Qed.

(** The two updates leave each row as it was, marked or cleared. *)
Definition synced_row (sid : Z) (s : Store) (r : RunRow) : RunRow :=
  if marks sid s r then mark_run r else if unmarks sid s r then unmark_run r else r.

Lemma unmarks_set_run sid s m r : unmarks sid (set_run m s) r = unmarks sid s r.
Proof using Type. done. Qed.

Lemma mark_not_unmark sid s r :
  marks sid s r = true → unmarks sid s (mark_run r) = false.
Proof using Type.
  rw /marks /unmarks !andb_true_iff. intros ((((_ & _) & _) & _) & Hs). simpl.
  destruct (r_scheduled_time r); [|done]. rw Hs /= andb_false_r //.
Qed.

Lemma sync_rows sid s id :
  Tables.run (sync_skip_marks sid s).1 !! id = synced_row sid s <$> Tables.run s !! id.
Proof using Type.
  rw /sync_skip_marks /=. rw /update_where !lookup_fmap. destruct (Tables.run s !! id) as [r|]; [|done].
  cbn [fmap option_fmap option_map]. f_equal. rw /synced_row.
  destruct (marks sid s r) eqn:Em.
  - rw unmarks_set_run (mark_not_unmark sid s r Em) //.
  - by rw unmarks_set_run.
Qed.

Lemma synced_row_fields sid s r :
  r_schedule_id (synced_row sid s r) = r_schedule_id r ∧
  r_scheduled_time (synced_row sid s r) = r_scheduled_time r ∧
  r_engine_pid (synced_row sid s r) = r_engine_pid r ∧
  c_type (r_cols (synced_row sid s r)) = c_type (r_cols r).
Proof using Type. rw /synced_row. by destruct (marks sid s r), (unmarks sid s r). Qed.

Lemma synced_mark `{!JsonLaws} sid s t r :
  waits_for sid t (synced_row sid s r) →
  skip_is_null (synced_row sid s r) = negb (is_skipped sid t s).
Proof using Type*.
  destruct (synced_row_fields sid s r) as (E1 & E2 & E3 & E4).
  rw /waits_for /is_state E1 E2 E3 E4. intros (Hs & Ht & Hp & Hf).
  rw /synced_row. destruct (marks sid s r) eqn:Em.
  - rw marked_not_null. rw /marks !andb_true_iff Hf in Em. by destruct Em as [_ ->].
  - destruct (unmarks sid s r) eqn:Eu.
    + rw unmarked_null. rw /unmarks !andb_true_iff Hf in Eu. by destruct Eu as [_ ->].
    + rw /marks /unmarks /is_state Hs Hp Hf Ht bool_decide_true //= in Em Eu.
      by destruct (skip_is_null r), (is_skipped sid t s).
Qed.

(** A second pass finds nothing to change. *)
Lemma synced_stable `{!JsonLaws} sid s r :
  marks sid s (synced_row sid s r) = false ∧ unmarks sid s (synced_row sid s r) = false.
Proof using Type*.
  destruct (synced_row_fields sid s r) as (E1 & E2 & E3 & E4).
  rw /marks /unmarks /is_state E1 E2 E3 E4.
  destruct (decide (r_schedule_id r = Some sid)) as [Hs|Hs]; [|rw bool_decide_false //].
  destruct (decide (c_type (r_cols r) = Some "Scheduled")) as [Ht|Ht];
    [|rw (bool_decide_false (c_type _ = _)) // andb_false_r //].
  rw !bool_decide_true //=. destruct (r_scheduled_time r) as [t|] eqn:Ef; [|by rw !andb_false_r].
  destruct (r_engine_pid r) as [p|] eqn:Ep; simpl.
  - split; [done|]. rw /synced_row. destruct (marks sid s r) eqn:Em.
    { rw /marks Ep /= !andb_false_r in Em. done. }
    destruct (unmarks sid s r) eqn:Eu; [by rw unmarked_null|].
    rw /unmarks /is_state Hs Ef Ht !bool_decide_true //= in Eu.
  - assert (Hw : waits_for sid t (synced_row sid s r)).
    { rw /waits_for /is_state E1 E2 E3 E4 Hs Ht bool_decide_true //. }
    rw (synced_mark sid s t r Hw). by destruct (is_skipped sid t s).
Qed.

Lemma update_where_none p f (m : gmap Z RunRow) :
  (∀ id r, m !! id = Some r → p r = false) → update_where p f m = m.
Proof using Type.
  intros Hm. apply map_eq. intros id. rw /update_where lookup_fmap.
  destruct (m !! id) as [r|] eqn:E; [|done]. cbn. by rw (Hm _ _ E).
Qed.
Lemma ids_where_none p (m : gmap Z RunRow) :
  (∀ id r, m !! id = Some r → p r = false) → ids_where p m = [].
Proof using Type.
  intros Hm. destruct (ids_where p m) as [|id l] eqn:E; [done|].
  assert (Hin : id ∈ ids_where p m) by (rw E; set_solver).
  apply ids_where_spec in Hin as (r & Hr & Hp). by rw (Hm _ _ Hr) in Hp.
Qed.
Lemma set_run_same s : set_run (Tables.run s) s = s.
Proof using Type. by destruct s. Qed.
Lemma sync_nothing sid s :
  (∀ id r, Tables.run s !! id = Some r → marks sid s r = false) →
  (∀ id r, Tables.run s !! id = Some r → unmarks sid s r = false) → sync_skip_marks sid s = (s, []).
Proof using Type.
  intros Hm Hu. rw /sync_skip_marks (update_where_none _ _ _ Hm) (ids_where_none _ _ Hm) set_run_same.
  rw (update_where_none _ _ _ Hu) (ids_where_none _ _ Hu) set_run_same //.
Qed.
End marks.

(** After [sync_skip_marks] a waiting run of the schedule carries the skip
    mark exactly when its fire is in the table of skips; runs of other
    schedules and runs no longer Scheduled are untouched, and a second pass
    changes nothing. *)
Theorem skip_marks_follow_table `{JsonLaws} (sid : Z) (s : Store) :
  let s' := (sync_skip_marks sid s).1 in
  (∀ id r t, Tables.run s' !! id = Some r → waits_for sid t r →
     skip_is_null r = negb (is_skipped sid t s)) ∧
  (∀ id r, Tables.run s !! id = Some r →
     r_schedule_id r ≠ Some sid ∨ is_state "Scheduled" r = false →
     Tables.run s' !! id = Some r) ∧
  sync_skip_marks sid s' = (s', []).
Proof.
  cbv zeta. split; [|split].
  - intros id r t. rw sync_rows. destruct (Tables.run s !! id) as [r0|]; [|done].
    intros [= <-]. apply synced_mark.
  - intros id r Hr Hor. rw sync_rows Hr. cbn [fmap option_fmap option_map]. f_equal.
    rw /synced_row /marks /unmarks. destruct Hor as [Hs|Ht].
    + rw bool_decide_false //.
    + rw Ht !andb_false_r //.
  - assert (Hall : ∀ id r, Tables.run (sync_skip_marks sid s).1 !! id = Some r →
              marks sid s r = false ∧ unmarks sid s r = false).
    { intros id r. rw sync_rows. destruct (Tables.run s !! id) as [r0|]; [|done].
      intros [= <-]. apply synced_stable. }
    apply sync_nothing; [|intros id r Hr; by destruct (Hall id r Hr)].
    intros id r Hr. by destruct (Hall id r Hr).
Qed.

Definition marks_session : Store := fold_left (exec_cmd (H := codec_env))
  [CUpsertSchedule 10 (mkScheduleWrite None 1 "interval" "skip" 100 None 0 None true "ui" None false);
   CStore (SCreateRun 12 (mkCreateRun 1 "etl-1" "" "" "schedule" (Some (st_at Scheduled 12)) (Some 1)
                            (Some 500) 0 None 0 None None));
   CAddSkips 13 1 [500] "user"] empty_store.

Lemma skip_marks_follow_table_witness :
  ∃ r, Tables.run (sync_skip_marks (H := codec_env) 1 marks_session).1 !! 1 = Some r ∧
       waits_for 1 500 r ∧ skip_is_null (H := codec_env) r = false.
Proof.
  destruct (Tables.run (sync_skip_marks (H := codec_env) 1 marks_session).1 !! 1) as [r|] eqn:E;
    [|by vm_compute in E].
  assert (Hw : waits_for 1 500 r) by (vm_compute in E; injection E as <-; by vm_compute).
  exists r. split; [done|]. split; [done|].
  rw (proj1 (skip_marks_follow_table (H := codec_env) 1 marks_session) 1 r 500 E Hw). by vm_compute.
Defined.

(** ** Retention *)

Definition terminal_ids (fid : Z) (s : Store) : list Z :=
  (List.filter (λ kr, (r_flow_id kr.2 =? fid) && row_is_terminal kr.2) (by_id (Tables.run s))).*1.

Section retention.
Context (before failed_before keep : Z) (limit : nat) (s : Store).
Let n := Z.to_nat (Z.max keep 0).
Let s' := (delete_expired_runs before failed_before keep limit s).1.
Let gone := take limit (List.filter (expired before failed_before n s) (by_id (Tables.run s))).

Lemma retention_rows id :
  Tables.run s' !! id = if bool_decide (id ∈ gone.*1) then None else Tables.run s !! id.
Proof using Type.
  change (Tables.run s') with
    (filter (λ kr : Z * RunRow, bool_decide (kr.1 ∈ gone.*1) = false) (Tables.run s)).
  case_bool_decide as Hin.
  - apply map_lookup_filter_None. right. intros r Hr. simpl. rw bool_decide_true //.
  - destruct (Tables.run s !! id) as [r|] eqn:E.
    + apply map_lookup_filter_Some. rw bool_decide_false //.
    + apply map_lookup_filter_None. by left.
Qed.

Lemma gone_expired id :
  id ∈ gone.*1 → ∃ r, Tables.run s !! id = Some r ∧ expired before failed_before n s (id, r) = true.
Proof using Type.
  intros ([k r] & -> & Hin)%list_elem_of_fmap. exists r.
  apply elem_of_take in Hin as (i & Hi & _). apply list_elem_of_lookup_2 in Hi.
  apply list_elem_of_In, filter_In in Hi as [Hi He]. by apply list_elem_of_In, elem_of_by_id in Hi.
Qed.

Lemma kept_survives fid id : id ∈ kept_runs fid n s → is_Some (Tables.run s' !! id).
Proof using Type.
  intros Hk. assert (Hr : ∃ r, Tables.run s !! id = Some r ∧ r_flow_id r = fid).
  { rw /kept_runs in Hk. apply elem_of_take in Hk as (i & Hi & _). apply list_elem_of_lookup_2 in Hi.
    rw elem_of_reverse in Hi. apply list_elem_of_fmap in Hi as ([k r] & -> & Hin).
    apply list_elem_of_In, filter_In in Hin as [Hin Hf]. apply list_elem_of_In, elem_of_by_id in Hin.
    apply andb_true_iff in Hf as [Hf _]. exists r. split; [done|]. simpl in Hf. lia. }
  destruct Hr as (r & Hr & Hf). rw retention_rows. case_bool_decide as Hin; [|eauto].
  apply gone_expired in Hin as (r' & Hr' & He). simplify_eq.
  rw /expired !andb_true_iff /= in He. destruct He as [_ He]. by rw bool_decide_true in He.
Qed.
End retention.

(** C25: retention deletes only what it may: a run it removes had ended, was
    older than the limit of its kind of end, belonged to no live backfill and
    was not among the newest [keep] finished runs of its flow, which all
    survive; every other run is untouched, and the answer lists exactly the
    runs removed. *)
Theorem retention_keeps_promises (before failed_before keep : Z) (limit : nat) (s : Store) :
  let '(s', out) := delete_expired_runs before failed_before keep limit s in
  let n := Z.to_nat (Z.max keep 0) in
  (∀ id r, Tables.run s !! id = Some r → Tables.run s' !! id = None →
     row_is_terminal r = true ∧
     row_age r < (if is_state "Failed" r || is_state "Crashed" r then failed_before else before) ∧
     (∀ b, r_backfill_id r = Some b → backfill_live b s = false)) ∧
  (∀ id r, Tables.run s' !! id = Some r → Tables.run s !! id = Some r) ∧
  (∀ fid, (∀ id, id ∈ kept_runs fid n s → is_Some (Tables.run s' !! id)) ∧
          length (kept_runs fid n s) = (n `min` length (terminal_ids fid s))%nat) ∧
  (∀ id, id ∈ out.*1.*1 ↔ is_Some (Tables.run s !! id) ∧ Tables.run s' !! id = None).
Proof.
  pose proof (retention_rows before failed_before keep limit s) as Hrows.
  pose proof (gone_expired before failed_before keep limit s) as Hgone.
  pose proof (kept_survives before failed_before keep limit s) as Hkept.
  rw /delete_expired_runs in Hrows Hkept |- *. cbv zeta in *. cbn [fst] in *.
  set (gone := take limit _) in *. split; [|split; [|split]].
  - intros id r Hr Hn. rw Hrows in Hn. case_bool_decide as Hin; [|congruence].
    apply Hgone in Hin as (r' & Hr' & He). simplify_eq.
    rw /expired !andb_true_iff /= in He. destruct He as [[[Ht Ha] Hb] _].
    split; [done|]. split; [destruct (_ || _); lia|].
    intros b Eb. rw Eb in Hb. by destruct (backfill_live b s).
  - intros id r. rw Hrows. by case_bool_decide.
  - intros fid. split; [apply Hkept|]. rw /kept_runs length_take length_reverse //.
  - intros id.
    assert (Hout : ((λ kr : Z * RunRow, (kr.1, r_flow_id kr.2, default "" (c_type (r_cols kr.2)))) <$> gone).*1.*1
                   = gone.*1) by (rw -!list_fmap_compose; by apply list_fmap_ext).
    rw Hout Hrows. split.
    + intros Hin. rw bool_decide_true //. destruct (Hgone id Hin) as (r & Hr & _). eauto.
    + intros [[r Hr] Hn]. case_bool_decide; [done|congruence].
Qed.

(** ** Messages *)

Section messages.
Context `{JsonLaws}.

Lemma map_get_wf k m v : map_wf m = true → map_get k m = Some v → value_wf v = true.
Proof using Type.
  intros [_ Hm]%andb_true_iff. induction m as [|[k' v'] m IH]; [done|].
  cbn [forallb snd] in Hm. apply andb_true_iff in Hm as [Hv Hm]. cbn [map_get].
  destruct (k =?s k'); [by intros [= <-]|auto].
Qed.
Lemma answers_of_wf raw m : answers_of raw = Some m → map_wf m = true.
Proof using Type*.
  rw /answers_of. destruct (value_from_str raw) as [v|] eqn:E; [|done].
  apply value_from_wf in E. cbn [and_then]. rw /value_get. destruct v as [| | | | |o]; try done.
  cbn [as_object and_then]. destruct (map_get "answers" o) as [w|] eqn:Ew; cbn [and_then]; [|done].
  apply (map_get_wf _ _ _ E) in Ew. destruct w; try done. by intros [= <-].
Qed.

(** What is written as a run's answers is what is read. *)
Lemma answers_round m : map_wf m = true → answers_of (answers_value m) = Some m.
Proof using Type*.
  intros Hm. rw /answers_of /answers_value value_round; [done|].
  rw /map_wf in Hm. cbn [value_wf forallb snd] in Hm |- *. by rw Hm.
Qed.

Lemma kv_get_set now k v s : kv_get k (kv_set now k v s) = Some v.
Proof using Type. rw /kv_get /= lookup_insert_eq //. Qed.

(** The answers of a run that has claimed a message at an index. *)
Lemma claimed_answers now rid topic index s s' a :
  run_message_claim now rid topic index true s = (s', Some a) →
  ∃ n m input,
    pending_message topic (crash_chain rid s) s = Some (n, m) ∧
    a = value_to_string (answer_value topic input) ∧
    run_message (defs s') = <[n := consume now m]> (run_message (defs s)) ∧
    Tables.run s' = Tables.run s ∧
    ∃ answers, and_then (kv_get (input_key rid) s') answers_of = Some answers ∧
               map_get (dec index) answers = Some (answer_value topic input).
Proof using Type*.
  rw /run_message_claim. destruct (pending_message _ _ _) as [[n m]|] eqn:Ep; [|done].
  set (s1 := set_message _ _ s). set (input := default _ _). intros [= <- <-].
  assert (Hin : value_wf input = true).
  { rw /input. destruct (value_from_str (m_payload m)) as [v|] eqn:E; [|done]. by eapply value_from_wf. }
  assert (Hans : map_wf (default [] (and_then (kv_get (input_key rid) s1) answers_of)) = true).
  { destruct (kv_get (input_key rid) s1) as [raw|]; [|done]. simpl.
    destruct (answers_of raw) as [o|] eqn:E; [|done]. by eapply answers_of_wf. }
  exists n, m, input. split; [done|]. split; [done|]. split; [done|]. split; [done|].
  rw kv_get_set /=. rw answers_round.
  - eexists. split; [done|]. by rw map_get_insert_eq.
  - apply map_insert_wf; [|done]. rw /answer_value. cbn [value_wf forallb snd]. by rw Hin.
Qed.

Lemma stored_first topic index chain rid s answers a :
  head chain = Some rid → and_then (kv_get (input_key rid) s) answers_of = Some answers →
  map_get index answers = Some a →
  default "input" (and_then (value_get "topic" a) as_str) = topic →
  stored_answer topic index chain s = Some a.
Proof using Type.
  intros Hh Ha Hg Ht. destruct chain as [|id chain]; [done|]. injection Hh as ->. simpl.
  rw Ha /= Hg Ht str_eqb_refl //.
Qed.

End messages.

(** A message is answered once and replayed for ever: when a run claims an
    answer at an index, every later claim at that index and topic returns the
    same text and changes nothing; an answer taken from the queue is the oldest
    message on the topic sent to a run of the crash chain, and it leaves the
    queue. *)
Theorem claimed_once `{JsonLaws} (now rid : Z) (topic : string) (index : Z) (queued_only : bool)
    (s s' : Store) (a : string) :
  run_message_claim now rid topic index queued_only s = (s', Some a) →
  (∀ now', run_message_claim now' rid topic index false s' = (s', Some a)) ∧
  (s' ≠ s → ∃ n m, pending_message topic (crash_chain rid s) s = Some (n, m) ∧
     (∀ n' m', run_message (defs s) !! n' = Some m' → m_run_id m' ∈ crash_chain rid s →
        m_topic m' = topic → m_consumed_at m' = None → n ≤ n') ∧
     m_consumed_at <$> run_message (defs s') !! n = Some (Some now)).
Proof.
  intros Hc. destruct (if queued_only then None else stored_answer topic (dec index)
                         (crash_chain rid s) s) as [v|] eqn:Ev.
  - rw /run_message_claim Ev in Hc. injection Hc as <- <-.
    split; [|done]. intros now'. rw /run_message_claim. destruct queued_only; [done|]. by rw Ev.
  - assert (Hq : run_message_claim now rid topic index true s = (s', Some a))
      by rw /run_message_claim Ev // in Hc |- *.
    destruct (claimed_answers _ _ _ _ _ _ _ Hq) as (n & m & input & Hp & -> & Hm & Hr & ans & Ha & Hg).
    split.
    + intros now'. rw /run_message_claim.
      rw (stored_first topic (dec index) (crash_chain rid s') rid s' ans (answer_value topic input)) //.
    + intros _. exists n, m. split; [done|]. split.
      * intros n' m' Hn' Hin Ht Hcon. eapply (oldest_first (λ km, bool_decide (m_run_id km.2 ∈ crash_chain rid s)
          && (m_topic km.2 =?s topic) && is_none (m_consumed_at km.2))); [exact Hp|exact Hn'|].
        by rw /= bool_decide_true // Ht str_eqb_refl Hcon.
      * by rw Hm lookup_insert_eq.
Qed.

(** A crashed run with two messages waiting, and the rerun that continues it. *)
Definition message_session : Store := fold_left (exec_cmd (H := codec_env))
  [CStore (SCreateRun 12 (mkCreateRun 1 "etl-1" "" "" "user" (Some (st_at Scheduled 12)) None
                            None 0 None 0 None None));
   CMessage 13 1 "go" "first"; CMessage 14 1 "go" "second";
   CStore (SCreateRun 15 (mkCreateRun 1 "etl-retry-1" "" "" "crash:1" (Some (st_at Scheduled 15))
                            None None 0 (Some 1) 1 None None))] empty_store.

Lemma claimed_once_witness :
  ∃ s' a, run_message_claim (H := codec_env) 20 2 "go" 0 true message_session = (s', Some a) ∧
    run_message_claim (H := codec_env) 30 2 "go" 0 false s' = (s', Some a) ∧
    m_consumed_at <$> run_message (defs s') !! 1 = Some (Some 20) ∧
    m_consumed_at <$> run_message (defs s') !! 2 = Some None.
Proof.
  destruct (run_message_claim (H := codec_env) 20 2 "go" 0 true message_session) as [s' [a|]] eqn:E;
    [|by vm_compute in E].
  exists s', a. split; [done|].
  split; [exact (proj1 (claimed_once (H := codec_env) _ _ _ _ _ _ _ _ E) 30)|].
  vm_compute in E. injection E as <- <-. split; vm_compute; reflexivity.
Defined.

(** ** What a reset leaves behind *)

Lemma reset_history_kv s k v :
  existsb (λ p, sql_like_prefix p k) run_kv_prefixes = false →
  kv (defs s) !! k = Some v → kv (defs (reset_history s)) !! k = Some v.
Proof.
  intros Hp Hk.
  change (kv (defs (reset_history s))) with (filter (λ kv : string * (string * Z),
      existsb (λ p, sql_like_prefix p kv.1) run_kv_prefixes = false) (kv (defs s))).
  by apply map_lookup_filter_Some.
Qed.

(** A reset deletes every run and backfill but keeps the marks made for
    them under [run.checkpoints:] and [backfill.completed:], and SQLite gives
    the next run and backfill the id 1 again: the first run after a reset
    replays the checkpoints an old run was seeded with, and the first backfill
    is taken to have been reported complete. *)
Theorem reset_keeps_stale_marks `{StoreEnv} (s : Store) (seed mark : string * Z) (now : Z)
    (c : CreateRun) (b : CreateBackfill) :
  kv (defs s) !! "run.checkpoints:1" = Some seed →
  kv (defs s) !! "backfill.completed:1" = Some mark →
  let s' := (reset History [] s).1 in
  kv (defs s') !! "run.checkpoints:1" = Some seed ∧
  kv (defs s') !! "backfill.completed:1" = Some mark ∧
  Tables.run s' = ∅ ∧ backfill (defs s') = ∅ ∧
  (∀ s1 id ext, create_run now c s' = (s1, Ok (id, ext)) → id = 1) ∧
  (∀ s1 id ext, create_backfill now b s' = (s1, Ok (id, ext)) → id = 1).
Proof.
  intros Hs Hm s'.
  assert (Hrun : Tables.run s' = ∅).
  { change (Tables.run s') with (filter (λ kr : Z * RunRow, true = false) (Tables.run s)).
    apply map_eq. intros id. rw lookup_empty. apply map_lookup_filter_None. by right. }
  assert (Hb : backfill (defs s') = ∅) by done.
  split; [by apply reset_history_kv|]. split; [by apply reset_history_kv|].
  split; [done|]. split; [done|]. split.
  - intros s1 id ext Hc. apply create_run_Ok in Hc as [-> _]. by rw Hrun.
  - intros s1 id ext. rw /create_backfill /new_id. destruct (existsb _ _); [done|].
    destruct (negb _); [done|]. intros [= _ <- _]. cbn [defs set_drawn]. done.
Qed.

Definition marked_session : Store :=
  kv_set 5 "backfill.completed:1" "1" (kv_set 5 "run.checkpoints:1" "[]" message_session).

Lemma reset_keeps_stale_marks_witness :
  size (Tables.run marked_session) = 2%nat ∧
  kv (defs (reset History [] marked_session).1) !! "run.checkpoints:1" = Some ("[]", 5).
Proof.
  split; [vm_compute; reflexivity|].
  refine (proj1 (reset_keeps_stale_marks (H := codec_env) marked_session ("[]", 5) ("1", 5) 20
            (mkCreateRun 1 "etl-2" "" "" "user" None None None 0 None 0 None None)
            (mkCreateBackfill 1 "day" "" "" f64_one 1 1 "") _ _)).
  - vm_compute. reflexivity.
  - vm_compute. reflexivity.
Defined.
