(* ===== verification/App.v ===== *)
(** * The server's shared state (server/src/state.rs, server/src/events.rs)

    [App] is [AppState] with the values its locks guard.  The handlers of the
    scheduler, of dispatch, of the waits and of the rules call one another
    through it: an event can wake a run, whose transition emits an event, and
    so on.  The three entry points of that cycle are the fields of [Ops]; the
    handlers are written against them, and [Server] closes the knot with fuel.

    The clock does not move while a handler runs: [clock] is [now_micros()] and
    [instant] is [Instant::now()].  A write goes through the writer as one
    command, which leaves no trace when it fails ([write]).  What a handler
    publishes on the stream, and the threads it starts, are appended to
    [outputs] and [spawned].  The two locks the handlers hold across calls are
    [answer_lock] and [loop_locks]; taking a lock its thread already holds is
    the end of the thread, recorded in [halted]. *)

From S2P Require Import Prelude Float64 Json States Transitions Timer Schedules Model DepGraph Events.
From S2P Require Import RuleMatching Metrics ActiveIndex Resources WorkQueue Pool GroupCommit Tables Store.
From S2P Require Import Reader StoreAdmin Integrity RuleReader Replay Pages.

(** The global pause. *)
Record Pause : Type := mkPause {
  p_since : Z;
  p_reason : option string;
  p_until : option Z;
  p_suppress_rules : bool;
}.

Inductive TransitionResult : Type :=
| TAccepted (run : Run)
| TRejected (reason : string) (current : option State).

(** What a handler sends out. *)
Inductive Output : Type :=
| PubRun (run : Run)
| PubRunDeleted (run_id : Z)
| PubSchedule (schedule_id : Z) (row : option ScheduleRow)
| PubEvent (e : Event)
| PubExpectation (name : EventName) (id rule_id : Z)
| PubRule (rule : RuleRow)
| Terminate (pid : Z)
| Kill (pid : Z)
| PubFlow (flow : Flow)
| PubTaskRun (t : TaskRun)
| PubArtifact (x : Artifact)
(** any other message: its kind, its key and its data *)
| Publish (kind key : string) (data : Value).

(** Threads started by a handler. *)
Inductive Task : Type :=
| DeliverQueued (observed : Run)
| DeliverRecorded (observed : Run) (pattern : string) (since : Z)
| FireRules (to_fire to_limit : list (RuleRow * Z)) (event : Event) (ctx : RunContext)
| FireLapsed (rule : RuleRow) (event : Event) (ctx : RunContext)
| KillAfterGrace (pid : Z).

Inductive Halt : Type := Deadlock | Panicked | OutOfFuel.

Record RulesState : Type := mkRulesState {
  rules : list RuleRow;
  rule_index : RuleIndex;
  guards : gmap Z GuardState;
  clock_last : gmap Z Z;
}.

(** The settings that retention reads, and the server's other flags. *)
Record Settings : Type := mkSettings {
  retain_days : Z;
  retain_runs_days : Z;
  retain_failed_runs_days : Z;
  keep_last_runs_per_flow : Z;
  backup_every : Z;
  backup_keep : Z;
  retain_checkpoints_days : Z;
}.
Record Flags : Type := mkFlags {
  live_flows : gset Z;
  shutting_down : bool;
  resetting : bool;
  settings : Settings;
  (** runs whose [run.overdue] was recorded *)
  overdue_reported : gset Z;
}.

Record App : Type := mkApp {
  store : Store;
  index : ActiveIndex;
  timer : Timer;
  supervisor : Supervisor;
  schedules : gmap Z ScheduleRow;
  pause : option Pause;
  dep_slot : option DepGraph;
  backfill_emitted : gset Z;
  rules_state : RulesState;
  crash_retries_default : Z;
  fast_crash_rerun : bool;
  clock : Z;
  instant : Z;
  answer_lock : bool;
  loop_locks : gset Z;
  halted : option Halt;
  outputs : list Output;
  spawned : list Task;
  flags : Flags;
}.

(** ** Field updates *)

Definition set_store (x : Store) (a : App) : App :=
  mkApp x (index a) (timer a) (supervisor a) (schedules a) (pause a) (dep_slot a)
    (backfill_emitted a) (rules_state a) (crash_retries_default a) (fast_crash_rerun a) (clock a)
    (instant a) (answer_lock a) (loop_locks a) (halted a) (outputs a) (spawned a) (flags a).
Definition set_index (x : ActiveIndex) (a : App) : App :=
  mkApp (store a) x (timer a) (supervisor a) (schedules a) (pause a) (dep_slot a)
    (backfill_emitted a) (rules_state a) (crash_retries_default a) (fast_crash_rerun a) (clock a)
    (instant a) (answer_lock a) (loop_locks a) (halted a) (outputs a) (spawned a) (flags a).
Definition set_timer (x : Timer) (a : App) : App :=
  mkApp (store a) (index a) x (supervisor a) (schedules a) (pause a) (dep_slot a)
    (backfill_emitted a) (rules_state a) (crash_retries_default a) (fast_crash_rerun a) (clock a)
    (instant a) (answer_lock a) (loop_locks a) (halted a) (outputs a) (spawned a) (flags a).
Definition set_supervisor (x : Supervisor) (a : App) : App :=
  mkApp (store a) (index a) (timer a) x (schedules a) (pause a) (dep_slot a)
    (backfill_emitted a) (rules_state a) (crash_retries_default a) (fast_crash_rerun a) (clock a)
    (instant a) (answer_lock a) (loop_locks a) (halted a) (outputs a) (spawned a) (flags a).
Definition set_schedules (x : gmap Z ScheduleRow) (a : App) : App :=
  mkApp (store a) (index a) (timer a) (supervisor a) x (pause a) (dep_slot a)
    (backfill_emitted a) (rules_state a) (crash_retries_default a) (fast_crash_rerun a) (clock a)
    (instant a) (answer_lock a) (loop_locks a) (halted a) (outputs a) (spawned a) (flags a).
Definition set_pause (x : option Pause) (a : App) : App :=
  mkApp (store a) (index a) (timer a) (supervisor a) (schedules a) x (dep_slot a)
    (backfill_emitted a) (rules_state a) (crash_retries_default a) (fast_crash_rerun a) (clock a)
    (instant a) (answer_lock a) (loop_locks a) (halted a) (outputs a) (spawned a) (flags a).
Definition set_dep_slot (x : option DepGraph) (a : App) : App :=
  mkApp (store a) (index a) (timer a) (supervisor a) (schedules a) (pause a) x
    (backfill_emitted a) (rules_state a) (crash_retries_default a) (fast_crash_rerun a) (clock a)
    (instant a) (answer_lock a) (loop_locks a) (halted a) (outputs a) (spawned a) (flags a).
Definition set_backfill_emitted (x : gset Z) (a : App) : App :=
  mkApp (store a) (index a) (timer a) (supervisor a) (schedules a) (pause a) (dep_slot a)
    x (rules_state a) (crash_retries_default a) (fast_crash_rerun a) (clock a)
    (instant a) (answer_lock a) (loop_locks a) (halted a) (outputs a) (spawned a) (flags a).
Definition set_rules_state (x : RulesState) (a : App) : App :=
  mkApp (store a) (index a) (timer a) (supervisor a) (schedules a) (pause a) (dep_slot a)
    (backfill_emitted a) x (crash_retries_default a) (fast_crash_rerun a) (clock a)
    (instant a) (answer_lock a) (loop_locks a) (halted a) (outputs a) (spawned a) (flags a).
Definition set_answer_lock (x : bool) (a : App) : App :=
  mkApp (store a) (index a) (timer a) (supervisor a) (schedules a) (pause a) (dep_slot a)
    (backfill_emitted a) (rules_state a) (crash_retries_default a) (fast_crash_rerun a) (clock a)
    (instant a) x (loop_locks a) (halted a) (outputs a) (spawned a) (flags a).
Definition set_loop_locks (x : gset Z) (a : App) : App :=
  mkApp (store a) (index a) (timer a) (supervisor a) (schedules a) (pause a) (dep_slot a)
    (backfill_emitted a) (rules_state a) (crash_retries_default a) (fast_crash_rerun a) (clock a)
    (instant a) (answer_lock a) x (halted a) (outputs a) (spawned a) (flags a).
Definition halt (x : Halt) (a : App) : App :=
  mkApp (store a) (index a) (timer a) (supervisor a) (schedules a) (pause a) (dep_slot a)
    (backfill_emitted a) (rules_state a) (crash_retries_default a) (fast_crash_rerun a) (clock a)
    (instant a) (answer_lock a) (loop_locks a) (or_else (halted a) (Some x)) (outputs a) (spawned a) (flags a).
Definition emit (o : Output) (a : App) : App :=
  mkApp (store a) (index a) (timer a) (supervisor a) (schedules a) (pause a) (dep_slot a)
    (backfill_emitted a) (rules_state a) (crash_retries_default a) (fast_crash_rerun a) (clock a)
    (instant a) (answer_lock a) (loop_locks a) (halted a) (outputs a ++ [o]) (spawned a) (flags a).
Definition start_task (t : Task) (a : App) : App :=
  mkApp (store a) (index a) (timer a) (supervisor a) (schedules a) (pause a) (dep_slot a)
    (backfill_emitted a) (rules_state a) (crash_retries_default a) (fast_crash_rerun a) (clock a)
    (instant a) (answer_lock a) (loop_locks a) (halted a) (outputs a) (spawned a ++ [t]) (flags a).

Definition set_flags (x : Flags) (a : App) : App :=
  mkApp (store a) (index a) (timer a) (supervisor a) (schedules a) (pause a) (dep_slot a)
    (backfill_emitted a) (rules_state a) (crash_retries_default a) (fast_crash_rerun a) (clock a)
    (instant a) (answer_lock a) (loop_locks a) (halted a) (outputs a) (spawned a) x.
Definition set_live_flows (x : gset Z) (a : App) : App :=
  set_flags (mkFlags x (shutting_down (flags a)) (resetting (flags a)) (settings (flags a))
               (overdue_reported (flags a))) a.
Definition set_resetting (x : bool) (a : App) : App :=
  set_flags (mkFlags (live_flows (flags a)) (shutting_down (flags a)) x (settings (flags a))
               (overdue_reported (flags a))) a.
Definition set_overdue (x : gset Z) (a : App) : App :=
  set_flags (mkFlags (live_flows (flags a)) (shutting_down (flags a)) (resetting (flags a)) (settings (flags a)) x) a.
Definition is_live (fid : Z) (a : App) : bool := bool_decide (fid ∈ live_flows (flags a)).

Definition on_index (f : ActiveIndex → ActiveIndex) (a : App) : App := set_index (f (index a)) a.
Definition on_supervisor (f : Supervisor → Supervisor) (a : App) : App :=
  set_supervisor (f (supervisor a)) a.
Definition on_timer (f : Timer → Timer) (a : App) : App := set_timer (f (timer a)) a.
Definition push_timer (at_ : Z) (e : TimerEvent) (a : App) : App :=
  on_timer (λ t, (Timer.push at_ e t).1) a.

(** A writer command that can fail, and one that cannot. *)
Definition write {A} (f : Store → Store * result A StoreError) (a : App)
    : App * result A StoreError :=
  let r := f (store a) in (set_store (Store.settle (store a) r) a, r.2).
Definition write_ {A} (f : Store → Store * A) (a : App) : App * A :=
  let r := f (store a) in (set_store r.1 a, r.2).
Definition write_only (f : Store → Store) (a : App) : App := set_store (f (store a)) a.

Definition is_paused (a : App) : bool := is_some (pause a).
Definition put_schedule (row : ScheduleRow) (a : App) : App :=
  set_schedules (<[sr_id row := row]> (schedules a)) a.

(** Serde and the operating system. *)
Class ServerEnv : Type := {
  (** [FlowOptions::from_map] *)
  from_map : Map → FlowOptions;
  pause_to_string : Pause → string;
  pause_from_str : string → option Pause;
  (** the compact and the readable form of an instant *)
  format_compact : Z → string;
  format_rfc3339 : Z → string;
  (** [format!("{}")] of a float *)
  f64_display : f64 → string;
  (** the address the listener is bound to, and the base path it serves *)
  addr_to_string : string;
  addr_port : Z;
  addr_is_unspecified : bool;
  addr_is_ipv6 : bool;
  base_path : string;
  (** the [public_url] of the configuration *)
  config_public_url : option string;
}.

(** A listener on an unspecified address is dialled on loopback. *)
Definition public_url `{ServerEnv} : string :=
  let authority := if addr_is_unspecified
                   then (if addr_is_ipv6 then "[::1]" else "127.0.0.1") +:+ ":" +:+ dec addr_port
                   else addr_to_string in
  "http://" +:+ authority +:+ base_path.

(** The recursive entry points of the handlers. *)
Record Ops : Type := mkOps {
  op_on_event : Event → App → App;
  op_transition_run : Z → State → bool → App → App * result TransitionResult StoreError;
  op_enqueue_run : Run → Flow → option Z → App → App;
}.

Section app.
Context `{StoreEnv, PoolEnv, ServerEnv} (ops : Ops).

(** ** Small reads and updates *)

Definition dep_graph (a : App) : App * DepGraph :=
  match dep_slot a with
  | Some g => (a, g)
  | None =>
      let g := dep_graph_from_flows from_map (list_flows None None (store a)) in
      (set_dep_slot (Some g) a, g)
  end.

Definition ensure_capacity (a : App) : App :=
  on_supervisor (Pool.ensure_capacity (clock a) (instant a)) a.

Definition publish_schedule (schedule_id : Z) (a : App) : App :=
  emit (PubSchedule schedule_id (schedules a !! schedule_id)) a.
Definition publish_run (run : Run) (a : App) : App := emit (PubRun run) a.

Definition opt_value {A} (f : A → Value) (o : option A) : Value :=
  match o with Some x => f x | None => VNull end.
Definition num (z : Z) : Value := VNumber (NInt z).

(** ** Events *)

Definition after_event (event : Event) (a : App) : App := op_on_event ops event (emit (PubEvent event) a).

Definition record_event_full (event : NewEvent) (a : App) : App * result Z StoreError :=
  match write (append_event (clock a) event) a with
  | (a, Ok (event, _)) => (after_event event a, Ok (ev_id event))
  | (a, Err e) => (a, Err e)
  end.

(** [entry(k).or_insert(v)] of a payload that is an object. *)
Definition or_insert (k : string) (v : Value) (payload : Value) : Value :=
  match payload with
  | VObject m => if map_contains k m then payload else VObject (map_insert k v m)
  | _ => payload
  end.

Definition flow_resource (project name : string) : Resource :=
  mkResource "flow" (project +:+ "/" +:+ name) name.

Definition record_event (name : string) (rid fid : option Z) (payload : Value) (a : App)
    : App * result Z StoreError :=
  let custom := mkResource "custom" EmptyString name in
  let '(resource, related, payload) :=
    match rid with
    | Some rid =>
        match run_event_context rid (store a) with
        | Some run =>
            (mkResource "run" (rec_external_id run) (rec_name run),
             flow_resource (rec_project run) (rec_flow_name run) :: (tag_resource <$> rec_tags run),
             or_insert "state" (VString (rec_state_name run))
               (or_insert "project" (VString (rec_project run)) payload))
        | None => (custom, [], payload)
        end
    | None =>
        match fid with
        | Some fid =>
            match get_flow fid (store a) with
            | Some flow => (flow_resource (flow_project flow) (flow_name flow), [],
                            or_insert "project" (VString (flow_project flow)) payload)
            | None => (custom, [], payload)
            end
        | None => (custom, [], payload)
        end
    end in
  record_event_full (mkNewEvent name rid fid payload resource related) a.

(** Callers drop the answer. *)
Definition record_engine_event (name : EventName) (rid fid : option Z) (payload : Map) (a : App) : App :=
  (record_event (EventName_as_str name) rid fid (VObject payload) a).1.

(** The event of a run's state. *)
Definition run_event_name (run : Run) : option EventName :=
  let st := Model.run_state run in
  let name := state_name st in
  if name =?s "Late" then Some RunLate
  else if name =?s "Retrying" then Some RunRetrying
  else if name =?s "Skipped" then Some RunSkipped
  else if st_eqb (state_type st) Scheduled && (name =?s "Resuming") then Some RunResumed
  else if st_eqb (state_type st) Paused then Some RunPaused
  else if (name =?s "AwaitingRetry") || (name =?s "AwaitingResource") then None
  else match state_type st with
       | Scheduled => Some RunScheduled
       | Pending => Some RunPending
       | Running => Some RunRunning
       | Completed => Some RunCompleted
       | Failed => Some RunFailed
       | Crashed => Some RunCrashed
       | Cancelled => Some RunCancelled
       | Cancelling | Paused => None
       end.

(** Failures of the flow in a row before the run. *)
Fixpoint streak_of (rid : Z) (recent : list RecentRun) : Z :=
  match recent with
  | [] => 0
  | (id, t, _, _) :: recent' =>
      if rid <=? id then streak_of rid recent'
      else if (t =?s "Failed") || (t =?s "Crashed") then 1 + streak_of rid recent'
      else if (t =?s "Completed") || (t =?s "Cancelled") then 0
      else streak_of rid recent'
  end.
Definition failure_streak_before (run : Run) (a : App) : Z :=
  streak_of (run_id run) (recent_run_states (run_flow_id run) 50 (store a)).

Definition is_failure (name : EventName) : bool := match name with RunFailed | RunCrashed => true | _ => false end.
Definition run_event_payload (name : EventName) (run : Run) (a : App) : Map :=
  let st := Model.run_state run in
  let payload : Map :=
    [("created_by", VString (run_created_by run)); ("flow", VString (run_flow_name run));
     ("message", opt_value VString (state_message st)); ("parameters", VObject (run_parameters run));
     ("project", VString (run_project run)); ("state", VString (state_name st));
     ("state_type", VString (StateType_as_str (state_type st)))] in
  let payload := match map_get "reason" (state_details st) with
                 | Some reason => if bool_decide (name = RunSkipped) then map_insert "reason" reason payload
                                  else payload
                 | None => payload
                 end in
  if is_failure name
  then map_insert "failures_in_a_row" (num (1 + failure_streak_before run a)) payload else payload.
(** A completed run ends the flow's failures in a row. *)
Definition emit_recovered (run : Run) (a : App) : App :=
  let ended := failure_streak_before run a in
  if 0 <? ended then
    record_engine_event FlowRecovered (Some (run_id run)) (Some (run_flow_id run))
      [("failures", num ended); ("flow", VString (run_flow_name run));
       ("project", VString (run_project run)); ("run_id", num (run_id run))] a
  else a.
Definition emit_run_event (run : Run) (a : App) : App :=
  match run_event_name run with
  | None => a
  | Some name =>
      let a := record_engine_event name (Some (run_id run)) (Some (run_flow_id run))
                 (run_event_payload name run a) a in
      if bool_decide (name = RunCompleted) then emit_recovered run a else a
  end.

Definition run_created (run : Run) (a : App) : App := emit_run_event run (publish_run run a).

(** ** Transitions *)

Definition run_input_key (rid : Z) : string := "run.input:" +:+ dec rid.

(** The run with the state the store accepted, and the counters it wrote. *)
Definition with_state (run : Run) (st : State) : Run :=
  let c := apply (mkRunCounters (run_failure_count run) (run_crash_count run) (run_start_time run)
                    (run_end_time run) (run_total_run_time run)) st in
  {| run_id := run_id run; run_external_id := run_external_id run; run_flow_id := run_flow_id run;
     run_flow_name := run_flow_name run; run_project := run_project run; run_group := run_group run;
     run_name := run_name run; run_parameters := run_parameters run; run_tags := run_tags run;
     run_attributes := run_attributes run; Model.run_state := st;
     run_failure_count := failure_count c; run_crash_count := crash_count c;
     run_created_at := run_created_at run; run_start_time := start_time c;
     run_end_time := end_time c; run_total_run_time := total_run_time c;
     run_engine_pid := run_engine_pid run; run_engine_id := run_engine_id run;
     run_created_by := run_created_by run; run_report_seq := run_report_seq run;
     run_schedule_id := run_schedule_id run; run_scheduled_time := run_scheduled_time run;
     run_priority := run_priority run; run_parent_run_id := run_parent_run_id run;
     run_attempt := run_attempt run; run_backfill_id := run_backfill_id run;
     run_task_counts := run_task_counts run; run_unique_key := run_unique_key run;
     run_host := run_host run; run_processor := run_processor run; run_lease := run_lease run;
     run_source_hash := run_source_hash run |}.

Definition forget_engine_of (r : ActiveRun) : ActiveRun :=
  mkActiveRun (ar_id r) (ar_flow_id r) (ar_name r) (ar_state r) None None (ar_last_heartbeat r)
    (ar_cancel_requested r) (ar_cancelling_since r) (ar_terminated_at r) (ActiveIndex.ar_key r)
    (ar_adopted r).

(** A terminal or paused run gives its engine, timers and resources back. *)
Definition release_run (run : Run) (a : App) : App :=
  if State_is_terminal (Model.run_state run) || st_eqb (state_type (Model.run_state run)) Paused then
    let a := on_supervisor (run_finished (run_id run)) a in
    let a := on_timer (remove_run_events (run_id run)) a in
    ensure_capacity a
  else a.
(** No engine owns a waiting run. *)
Definition detach_paused (run : Run) (a : App) : App :=
  if st_eqb (state_type (Model.run_state run)) Paused then
    let a := write_only (set_run_engine (run_id run) None None) a in
    on_index (λ x, (ActiveIndex.update (run_id run) forget_engine_of x).1) a
  else a.
(** The answers of an execution that ended; a crashed run's rerun needs them. *)
Definition clear_answers (run : Run) (a : App) : App :=
  let st := Model.run_state run in
  if State_is_terminal st && negb (st_eqb (state_type st) Crashed) then
    fold_left (λ a id, (write_ (kv_delete (run_input_key id)) a).1) (crash_chain (run_id run) (store a)) a
  else a.
(** A run the index does not know yet. *)
Definition adopt_unknown (previous : Run) (a : App) : App :=
  if is_none (ActiveIndex.get (run_id previous) (index a))
     && negb (State_is_terminal (Model.run_state previous)) then
    match get_flow (run_flow_id previous) (store a) with
    | Some flow => on_index (adopt_run (instant a) previous (from_flow flow)) a
    | None => a
    end
  else a.

(** [after] is [dispatch::after_transition]. *)
Definition transition_run (after : Run → option State → App → App) (rid : Z) (state : State)
    (force : bool) (a : App) : App * result TransitionResult StoreError :=
  match get_run rid (store a) with
  | None => (a, Err (NotFound "run"))
  | Some previous =>
      let prev_state := if state_timestamp (Model.run_state previous) =? 0 then None
                        else Some (Model.run_state previous) in
      match write (Store.transition TableRun rid state force) a with
      | (a, Err (RejectedWith reason current)) => (a, Ok (TRejected reason current))
      | (a, Err (Rejected reason)) => (a, Ok (TRejected reason prev_state))
      | (a, Err e) => (a, Err e)
      | (a, Ok new_state) =>
          let run := with_state previous new_state in
          let a := adopt_unknown previous a in
          let a := on_index (ActiveIndex.transition (clock a) (instant a) run prev_state) a in
          let a := release_run run a in
          let a := detach_paused run a in
          let a := clear_answers run a in
          let a := publish_run run a in
          let a := emit_run_event run a in
          let a := after run prev_state a in
          (a, Ok (TAccepted run))
      end
  end.

(** Whether the transition was accepted, for callers that ask nothing else. *)
Definition accepted (r : result TransitionResult StoreError) : bool :=
  match r with Ok (TAccepted _) => true | _ => false end.
End app.
