(* ===== verification/Retention.v ===== *)
(** * Retention and backups (server/src/retention.rs)

    The pass that deletes old logs and events in batches, then expired runs,
    then old checkpoints, and writes a backup when one is due.  The vacuum
    after a batch and the pause between two change nothing here.

    The files a pass looks at are its arguments: the checkpoint files with
    their times and whether each can be removed, and what writing a copy of the
    database answers.  A loop gets one round more than the table has rows,
    which [retention_pass_complete] shows to be enough. *)

From S2P Require Import Prelude Float64 Json States Transitions Timer Schedules Model DepGraph Events Unique.
From S2P Require Import RuleMatching ActiveIndex Resources WorkQueue Pool GroupCommit Tables Store Reader.
From S2P Require Import StoreAdmin StoreRegistry Integrity RuleReader App.

Definition BATCH : Z := 5000.
Definition RUN_BATCH : Z := 500.
Definition MICROS_PER_DAY : Z := 86400000000.
Definition MICROS_PER_HOUR : Z := 3600000000.

(** A file under the storage directory: its name, its time when it can be
    read, and whether removing it succeeds. *)
Record StoredFile : Type := mkStoredFile { sf_name : string; sf_modified : option Z; sf_removable : bool }.

Record Outcome : Type := mkOutcome {
  oc_checkpoints : nat;
  oc_logs : nat;
  oc_events : nat;
  oc_runs : nat;
  oc_backup : option string;
}.

Section retention.
Context `{StoreEnv}.

Fixpoint expire_rows (rounds : nat) (table : string) (before : Z) (a : App) : App * nat :=
  match rounds with
  | O => (a, O)
  | S rounds' =>
      match write (delete_expired table before (Z.to_nat BATCH)) a with
      | (a, Err _) => (a, O)
      | (a, Ok n) =>
          if Z.of_nat n <? BATCH then (a, n)
          else let '(a, m) := expire_rows rounds' table before a in (a, (n + m)%nat)
      end
  end.

(** A deleted run leaves the counters of its flow. *)
Definition forget_run (a : App) (row : Z * Z * string) : App :=
  let '(id, flow_id, state_type) := row in
  on_index (remove_run id (State_new (clock a) <$> StateType_parse state_type) flow_id) a.

Fixpoint expire_run_rows (rounds : nat) (before failed_before keep : Z) (a : App) : App * nat :=
  match rounds with
  | O => (a, O)
  | S rounds' =>
      let '(a, rows) := write_ (delete_expired_runs before failed_before keep (Z.to_nat RUN_BATCH)) a in
      let n := length rows in
      let a := foldl forget_run a rows in
      if Z.of_nat n <? RUN_BATCH then (a, n)
      else let '(a, m) := expire_run_rows rounds' before failed_before keep a in (a, (n + m)%nat)
  end.

(** [now - days * MICROS_PER_DAY] *)
Definition cutoff (now days : Z) : Z := i64_sub now (i64_mul days MICROS_PER_DAY).

Definition expire_runs (a : App) : App * nat :=
  let set := settings (flags a) in
  let run_days := retain_runs_days set in
  if run_days <=? 0 then (a, O)
  else
    let failed_days := if 0 <? retain_failed_runs_days set then retain_failed_runs_days set else run_days in
    let keep := Z.max (keep_last_runs_per_flow set) 0 in
    expire_run_rows (S (size (Tables.run (store a)))) (cutoff (clock a) run_days) (cutoff (clock a) failed_days) keep a.

Definition expire_checkpoints (files : option (list StoredFile)) (a : App) : App * nat :=
  let days := retain_checkpoints_days (settings (flags a)) in
  if days <=? 0 then (a, O)
  else
    let before := cutoff (clock a) days in
    let a := (write_ (clear_checkpoints_before before) a).1 in
    let removed f := starts_with (sf_name f) "ckpt-"
                     && match sf_modified f with Some m => m <? Z.max before 0 | None => false end && sf_removable f in
    (a, match files with Some files => length (List.filter removed files) | None => O end).

Definition run_backup (copy : result string StoreError) (a : App) : App * result string StoreError :=
  match copy with
  | Err e => (a, Err e)
  | Ok path =>
      let a := write_only (kv_set (clock a) "backup.last_at" (dec (clock a))) a in
      (write_only (kv_set (clock a) "backup.last_path" path) a, Ok path)
  end.
Definition backup_if_due (copy : result string StoreError) (a : App) : App * option string :=
  let every := backup_every (settings (flags a)) in
  if every <=? 0 then (a, None)
  else
    let last := default 0 (and_then (kv_get "backup.last_at" (store a)) parse_i64) in
    if (0 <? last) && (i64_sub (clock a) last <? i64_mul every MICROS_PER_HOUR) then (a, None)
    else match run_backup copy a with
         | (a, Ok path) => (a, Some path)
         | (a, Err _) => (a, None)
         end.

(** The first part of a pass. *)
Definition expire_tables (a : App) : App * nat * nat :=
  let days := Z.max (retain_days (settings (flags a))) 0 in
  if 0 <? days then
    let before := cutoff (clock a) days in
    let '(a, logs) := expire_rows (S (length (log (store a)))) "log" before a in
    let '(a, events) := expire_rows (S (length (event (store a)))) "event" before a in
    (a, logs, events)
  else (a, O, O).

Definition run_once (files : option (list StoredFile)) (copy : result string StoreError) (a : App) : App * Outcome :=
  let '(a, logs, events) := expire_tables a in
  let '(a, runs) := expire_runs a in
  let '(a, checkpoints) := expire_checkpoints files a in
  let '(a, backup) := backup_if_due copy a in
  (a, mkOutcome checkpoints logs events runs backup).
End retention.

(** ** A pass leaves nothing behind *)

Section batches.
Context {A : Type} (timestamp : A → Z) (before : Z) (limit : nat).

Definition is_old (x : Z * A) : bool := timestamp x.2 <? before.
Definition survivors (rows : list (Z * A)) : list (Z * A) :=
  filter (λ x, x.1 ∉ expired_ids timestamp before limit rows) rows.

Lemma survivors_none rows :
  (length (expired_ids timestamp before limit rows) < limit)%nat → Forall (λ x, before ≤ timestamp x.2) (survivors rows).
Proof using Type.
  rw /expired_ids length_take => Hlen. apply Forall_forall. intros x [Hx Hin]%list_elem_of_filter.
  destruct (Z.ltb_spec (timestamp x.2) before) as [Hold|?]; [|done]. destruct Hx.
  rw /expired_ids take_ge; [|lia]. apply list_elem_of_fmap_2. apply list_elem_of_In, List.filter_In.
  split; [by apply list_elem_of_In | by apply Z.ltb_lt].
Qed.

Lemma survivors_fewer rows :
  (0 < length (expired_ids timestamp before limit rows))%nat → (length (survivors rows) < length rows)%nat.
Proof using Type.
  destruct (expired_ids timestamp before limit rows) as [|id ids] eqn:E; simpl; [lia|]. intros _.
  assert (∃ x, x ∈ rows ∧ x.1 = id) as (x & Hin & Hx).
  { assert (id ∈ expired_ids timestamp before limit rows) as Hid by (rw E; by left).
    rw /expired_ids in Hid. apply elem_of_take in Hid as (i & Hi & _). apply list_elem_of_lookup_2 in Hi.
    apply list_elem_of_fmap in Hi as (x & -> & Hx). apply list_elem_of_In, List.filter_In in Hx as [Hx _].
    exists x. by apply list_elem_of_In in Hx. }
  rw /survivors E. apply length_filter_lt with x; [done|]. rw Hx. intros Hn. apply Hn. by left.
Qed.
Lemma survivors_shrink rows : (length (survivors rows) ≤ length rows)%nat.
Proof using Type. apply length_filter. Qed.
End batches.

Lemma by_id_filter {A} (P : Z * A → Prop) `{!∀ x, Decision (P x)} (m : gmap Z A) :
  by_id (filter P m) = filter P (by_id m).
Proof.
  apply (sorted_perm_eq fst).
  - apply sort_by_key_sorted.
  - apply StronglySorted_filter, sort_by_key_sorted.
  - intros [k x] [k' x'] Hx Hy. simpl. intros <-. apply elem_of_by_id in Hx, Hy. congruence.
  - apply NoDup_Permutation.
    + eapply NoDup_fmap_1, by_id_nodup.
    + apply NoDup_filter. eapply NoDup_fmap_1, by_id_nodup.
    + intros [k x]. rw list_elem_of_filter !elem_of_by_id map_lookup_filter_Some. naive_solver.
Qed.

Lemma take_filter {A} (P : A → Prop) `{!∀ x, Decision (P x)} n l :
  Forall P (take n l) → take n (filter P l) = take n l.
Proof.
  revert n. induction l as [|x l IH]; intros [|n] Hp; [done..|]. simpl in Hp. apply Forall_cons in Hp as [Hx Hp].
  rw filter_cons decide_True //. simpl. by rw IH.
Qed.

Lemma filters_commute {A} (p : A → bool) (P : A → Prop) `{!∀ x, Decision (P x)} l :
  List.filter p (filter P l) = filter P (List.filter p l).
Proof.
  induction l as [|x l IH]; [done|]. rw filter_cons. simpl. case_decide as Hx; simpl.
  - destruct (p x); [rw filter_cons decide_True // IH // | done].
  - destruct (p x); [rw filter_cons decide_False // | done].
Qed.
Lemma fst_filter {A} (ids : list Z) (l : list (Z * A)) :
  (filter (λ x, x.1 ∉ ids) l).*1 = filter (λ id, id ∉ ids) l.*1.
Proof.
  induction l as [|x l IH]; [done|]. rw fmap_cons !filter_cons. case_decide; [by rw fmap_cons IH | done].
Qed.

(** Whether a run has expired depends on the runs and the backfills alone. *)
Lemma expired_ext before failed_before keep s s' kr :
  Tables.run s = Tables.run s' → backfill (defs s) = backfill (defs s') →
  expired before failed_before keep s kr = expired before failed_before keep s' kr.
Proof. intros Hr Hb. by rw /expired /backfill_live /kept_runs Hr Hb. Qed.

Section run_batch.
Context (before failed_before keep : Z) (limit : nat) (s : Store).
Let n := Z.to_nat (Z.max keep 0).
Let gone := take limit (List.filter (expired before failed_before n s) (by_id (Tables.run s))).
Let s' := (delete_expired_runs before failed_before keep limit s).1.

Lemma batch_runs : Tables.run s' = filter (λ kr : Z * RunRow, kr.1 ∉ gone.*1) (Tables.run s).
Proof using Type.
  change (Tables.run s') with (filter (λ kr : Z * RunRow, bool_decide (kr.1 ∈ gone.*1) = false) (Tables.run s)).
  apply map_filter_ext. intros k r _. apply bool_decide_eq_false.
Qed.

Lemma gone_not_kept id : id ∈ gone.*1 → ∃ r, Tables.run s !! id = Some r ∧ row_is_terminal r = true ∧
  (id ∉ kept_runs (r_flow_id r) n s).
Proof using Type.
  intros ([k r] & -> & Hin)%list_elem_of_fmap. apply elem_of_take in Hin as (i & Hi & _).
  apply list_elem_of_lookup_2, list_elem_of_In, List.filter_In in Hi as [Hi He].
  apply list_elem_of_In, elem_of_by_id in Hi. exists r. rw /expired !andb_true_iff /= in He.
  destruct He as [[[Ht _] _] Hk]. apply negb_true_iff, bool_decide_eq_false in Hk. done.
Qed.

Lemma batch_keeps_kept fid : kept_runs fid n s' = kept_runs fid n s.
Proof using Type.
  rw /kept_runs batch_runs by_id_filter filters_commute fst_filter -filter_reverse.
  apply take_filter. apply Forall_forall. intros id Hid Hg.
  destruct (gone_not_kept id Hg) as (r & Hr & _ & Hk). apply Hk. rw /kept_runs.
  assert (r_flow_id r = fid) as ->; [|done].
  apply elem_of_take in Hid as (i & Hi & _). apply list_elem_of_lookup_2 in Hi. rw elem_of_reverse in Hi.
  apply list_elem_of_fmap in Hi as ([k r'] & -> & Hin). apply list_elem_of_In, List.filter_In in Hin as [Hin Hf].
  apply list_elem_of_In, elem_of_by_id in Hin. apply andb_true_iff in Hf as [Hf _]. simpl in *.
  apply Z.eqb_eq in Hf. congruence.
Qed.

Lemma batch_keeps_live b : backfill_live b s' = backfill_live b s.
Proof using Type.
  rw /backfill_live. change (backfill (defs s')) with (backfill (defs s)).
  destruct (backfill (defs s) !! b) as [row|]; [|done]. f_equal. rw batch_runs.
  apply eq_true_iff_eq. rw !existsb_exists. split; intros (r & Hr & Hb); exists r; (split; [|done]);
    apply list_elem_of_In in Hr; apply list_elem_of_fmap in Hr as ([k x] & -> & Hk); apply elem_of_map_to_list in Hk;
    apply list_elem_of_In, (list_elem_of_fmap_2' snd _ (k, x)); [|done| |done]; apply elem_of_map_to_list.
  - by apply map_lookup_filter_Some in Hk as [? _].
  - apply map_lookup_filter_Some. split; [done|]. intros Hg. destruct (gone_not_kept _ Hg) as (r & Hr & Ht & _).
    simpl in *. simplify_eq. apply andb_true_iff in Hb as [_ Hb]. rw /row_is_terminal in Ht.
    destruct (c_type (r_cols x)); [|done]. by rw Ht in Hb.
Qed.

Lemma batch_none_left :
  (length (delete_expired_runs before failed_before keep limit s).2 < limit)%nat →
  ∀ id r, Tables.run s' !! id = Some r → expired before failed_before n s' (id, r) = false.
Proof using Type.
  intros Hlen id r Hr. rw batch_runs in Hr. apply map_lookup_filter_Some in Hr as [Hr Hg].
  rw /expired. cbn [fst snd]. rw batch_keeps_kept.
  assert (expired before failed_before n s (id, r) = false) as He.
  { apply not_true_is_false. intros He. apply Hg. rw /delete_expired_runs in Hlen. cbn [snd] in Hlen.
    rw length_fmap length_take -/n in Hlen. rw /gone take_ge; [|lia].
    apply (list_elem_of_fmap_2' fst _ (id, r)); [|done]. apply list_elem_of_In, List.filter_In.
    split; [by apply list_elem_of_In, elem_of_by_id | done]. }
  etrans; [|exact He]. rw /expired. cbn [fst snd]. destruct (r_backfill_id r) as [b|]; [by rw batch_keeps_live | done].
Qed.

Lemma batch_fewer :
  (0 < length (delete_expired_runs before failed_before keep limit s).2)%nat →
  (size (Tables.run s') < size (Tables.run s))%nat.
Proof using Type.
  rw /delete_expired_runs. cbn [snd]. rw length_fmap -/n -/gone => Hlen.
  assert (∃ id, id ∈ gone.*1) as [id Hid] by (destruct gone as [|[id r] l]; simpl in Hlen; [lia | exists id; by left]).
  destruct (gone_not_kept id Hid) as (r & Hr & _). rw batch_runs. apply map_subset_size.
  split; [apply map_filter_subseteq|]. intros Hs. pose proof (lookup_weaken _ _ _ _ Hr Hs) as Hf.
  apply map_lookup_filter_Some in Hf as [_ Hf]. by apply Hf.
Qed.
End run_batch.

Section passes.
Context `{StoreEnv}.

(** The loop over one table, for a table whose rows the command replaces. *)
Lemma expire_rows_complete {A} (timestamp : A → Z) (rows : Store → list (Z * A))
    (put : list (Z * A) → Store → Store) table before rounds a :
  (∀ s, delete_expired table before (Z.to_nat BATCH) s
        = (put (survivors timestamp before (Z.to_nat BATCH) (rows s)) s,
           Ok (length (expired_ids timestamp before (Z.to_nat BATCH) (rows s))))) →
  (∀ l s, rows (put l s) = l) → (∀ l l' s, put l (put l' s) = put l s) →
  (length (rows (store a)) < rounds)%nat →
  ∃ l, (expire_rows rounds table before a).1 = set_store (put l (store a)) a ∧
       Forall (λ x, before ≤ timestamp x.2) l.
Proof using Type.
  intros Hdel Hrows Hput. revert a. induction rounds as [|rounds IH]; intros a Hlen; [lia|]. cbn [expire_rows].
  rw /write Hdel. cbn [snd]. set (l := survivors _ _ _ _).
  change (Store.settle (store a) _) with (put l (store a)). set (a1 := set_store (put l (store a)) a).
  set (n := length (expired_ids _ _ _ _)).
  destruct (Z.of_nat n <? BATCH) eqn:E.
  - exists l. split; [done|]. apply survivors_none. rw -/n. apply Z.ltb_lt in E. lia.
  - apply Z.ltb_ge in E. assert (0 < BATCH) by done.
    assert (length (rows (store a1)) < length (rows (store a)))%nat as Hless.
    { change (store a1) with (put l (store a)). rw Hrows. apply survivors_fewer. rw -/n. lia. }
    destruct (IH a1) as (l' & E' & Hl'); [lia|]. destruct (expire_rows _ _ _ a1) as [a2 m]. simpl in E' |- *.
    exists l'. split; [|done]. rw E'. change (store a1) with (put l (store a)). by rw Hput.
Qed.

Lemma forget_runs_store rows a : store (foldl forget_run a rows) = store a ∧ flags (foldl forget_run a rows) = flags a
  ∧ clock (foldl forget_run a rows) = clock a.
Proof using Type.
  revert a. induction rows as [|[[id f] t] rows IH]; intros a; [done|].
  change (foldl forget_run a ((id, f, t) :: rows)) with (foldl forget_run (forget_run a (id, f, t)) rows).
  by destruct (IH (forget_run a (id, f, t))) as (-> & -> & ->).
Qed.

(** What the deletion of runs keeps of the logs and events. *)
Definition logs_kept (s s' : Store) : Prop := (∀ x, x ∈ log s' → x ∈ log s) ∧ event s' = event s.
Lemma logs_kept_trans s1 s2 s3 : logs_kept s1 s2 → logs_kept s2 s3 → logs_kept s1 s3.
Proof using Type. intros [H1 E1] [H2 E2]. split; [auto | congruence]. Qed.

Lemma expire_run_rows_complete before failed_before keep rounds a :
  (size (Tables.run (store a)) < rounds)%nat →
  let a' := (expire_run_rows rounds before failed_before keep a).1 in
  (∀ id r, Tables.run (store a') !! id = Some r →
     expired before failed_before (Z.to_nat (Z.max keep 0)) (store a') (id, r) = false) ∧
  logs_kept (store a) (store a') ∧ flags a' = flags a ∧ clock a' = clock a.
Proof using Type.
  revert a. induction rounds as [|rounds IH]; intros a Hlen; [lia|]. cbn [expire_run_rows]. rw /write_.
  pose proof (batch_none_left before failed_before keep (Z.to_nat RUN_BATCH) (store a)) as Hnone.
  pose proof (batch_fewer before failed_before keep (Z.to_nat RUN_BATCH) (store a)) as Hfew.
  assert (logs_kept (store a) (delete_expired_runs before failed_before keep (Z.to_nat RUN_BATCH) (store a)).1) as Hlogs.
  { split; [|done]. intros x Hx. by apply list_elem_of_filter in Hx as [_ Hx]. }
  destruct (delete_expired_runs _ _ _ _ _) as [s1 rows]. cbn [fst snd] in *.
  destruct (forget_runs_store rows (set_store s1 a)) as (Es & Ef & Ec).
  set (a1 := foldl forget_run _ rows) in *. change (store (set_store s1 a)) with s1 in Es.
  assert (0 < RUN_BATCH) by done. destruct (Z.of_nat (length rows) <? RUN_BATCH) eqn:E.
  - apply Z.ltb_lt in E. cbn [fst]. rw Es. split; [apply Hnone; lia | done].
  - apply Z.ltb_ge in E. destruct (IH a1) as (Hn & Hl & Hf & Hc).
    { rw Es. pose proof (Hfew ltac:(lia)). lia. }
    destruct (expire_run_rows _ _ _ _ a1) as [a2 m]. cbn [fst] in *. split; [done|].
    rw Es in Hl. split; [by eapply logs_kept_trans|]. split; [rw Hf Ef // | rw Hc Ec //].
Qed.

Lemma backup_keeps copy a a' : (backup_if_due copy a).1 = a' →
  Tables.run (store a') = Tables.run (store a) ∧ backfill (defs (store a')) = backfill (defs (store a)) ∧
  log (store a') = log (store a) ∧ event (store a') = event (store a).
Proof using Type.
  intros <-. rw /backup_if_due. destruct (_ <=? 0); [done|]. destruct (_ && _); [done|]. by destruct copy.
Qed.
Lemma checkpoints_keep files a a' : (expire_checkpoints files a).1 = a' →
  Tables.run (store a') = Tables.run (store a) ∧ backfill (defs (store a')) = backfill (defs (store a)) ∧
  log (store a') = log (store a) ∧ event (store a') = event (store a).
Proof using Type. intros <-. rw /expire_checkpoints. by destruct (_ <=? 0). Qed.

(** The runs a pass has to delete, by the settings it reads. *)
Definition due (a : App) (s : Store) (kr : Z * RunRow) : bool :=
  let set := settings (flags a) in
  let failed_days := if 0 <? retain_failed_runs_days set then retain_failed_runs_days set else retain_runs_days set in
  expired (cutoff (clock a) (retain_runs_days set)) (cutoff (clock a) failed_days)
    (Z.to_nat (Z.max (keep_last_runs_per_flow set) 0)) s kr.

Lemma expire_runs_complete a :
  let a' := (expire_runs a).1 in
  (0 < retain_runs_days (settings (flags a)) →
   ∀ id r, Tables.run (store a') !! id = Some r → due a (store a') (id, r) = false) ∧
  logs_kept (store a) (store a').
Proof using Type.
  cbv zeta. rw /expire_runs. destruct (Z.leb_spec (retain_runs_days (settings (flags a))) 0) as [Hd|Hd].
  { split; [lia | done]. }
  destruct (expire_run_rows_complete (cutoff (clock a) (retain_runs_days (settings (flags a))))
    (cutoff (clock a) (if 0 <? retain_failed_runs_days (settings (flags a))
                       then retain_failed_runs_days (settings (flags a)) else retain_runs_days (settings (flags a))))
    (Z.max (keep_last_runs_per_flow (settings (flags a))) 0) (S (size (Tables.run (store a)))) a ltac:(lia))
    as (Hn & Hl & _). split; [|done]. intros _ id r Hr. pose proof (Hn id r Hr) as Hx.
  by rw Z.max_l in Hx; [|lia].
Qed.

Lemma expire_tables_complete a a' logs events :
  expire_tables a = (a', logs, events) →
  flags a' = flags a ∧ clock a' = clock a ∧
  (0 < retain_days (settings (flags a)) →
   Forall (λ x, cutoff (clock a) (retain_days (settings (flags a))) ≤ l_timestamp x.2) (log (store a')) ∧
   Forall (λ x, cutoff (clock a) (retain_days (settings (flags a))) ≤ er_timestamp x.2) (event (store a'))).
Proof using Type.
  rw /expire_tables. destruct (Z.ltb_spec 0 (Z.max (retain_days (settings (flags a))) 0)) as [Hd|Hd]; last first.
  { intros [= <- _ _]. split; [done|]. split; [done | lia]. }
  cbv zeta. rw Z.max_l; [|lia]. set (before := cutoff _ _).
  destruct (expire_rows_complete l_timestamp log set_log "log" before (S (length (log (store a)))) a) as (l & E & Hl);
    [done..|lia|].
  destruct (expire_rows _ "log" before a) as [a1 n]. cbn [fst] in E. subst a1. set (a1 := set_store _ a).
  destruct (expire_rows_complete er_timestamp event set_event "event" before (S (length (event (store a1)))) a1) as (l' & E & Hl');
    [done..|lia|].
  destruct (expire_rows _ "event" before a1) as [a2 n']. cbn [fst] in E. subst a2. by intros [= <- _ _].
Qed.

(** C26: A pass of the retention ends and leaves nothing it was to delete: with
    logs and events kept for some days, none older stays; with runs kept for
    some days, no run stays that has ended, is older than the limit of its kind
    of end, belongs to no live backfill and is not among the newest its flow
    keeps.  The cut-offs are those of the clock and the settings the pass began
    with. *)
Theorem retention_pass_complete (files : option (list StoredFile)) (copy : result string StoreError) (a : App) :
  let set := settings (flags a) in
  let s' := store (run_once files copy a).1 in
  (0 < retain_days set →
   Forall (λ x, cutoff (clock a) (retain_days set) ≤ l_timestamp x.2) (log s') ∧
   Forall (λ x, cutoff (clock a) (retain_days set) ≤ er_timestamp x.2) (event s')) ∧
  (0 < retain_runs_days set → ∀ id r, Tables.run s' !! id = Some r → due a s' (id, r) = false).
Proof using Type.
  cbv zeta. rw /run_once. destruct (expire_tables a) as [[a1 logs] events] eqn:E1.
  destruct (expire_tables_complete _ _ _ _ E1) as (Hf & Hc & Hold).
  pose proof (expire_runs_complete a1) as Hr. cbv zeta in Hr. destruct (expire_runs a1) as [a2 runs]. cbn [fst] in Hr.
  destruct (expire_checkpoints files a2) as [a3 ck] eqn:E3. destruct (checkpoints_keep files a2 a3 ltac:(by rw E3)) as (R3 & B3 & L3 & V3).
  destruct (backup_if_due copy a3) as [a4 bk] eqn:E4. destruct (backup_keeps copy a3 a4 ltac:(by rw E4)) as (R4 & B4 & L4 & V4).
  cbn [fst]. destruct Hr as [Hdue [Hlog Hev]]. rw /due Hf Hc in Hdue. split.
  - intros Hd. destruct (Hold Hd) as [Hl He]. rw L4 L3 V4 V3 Hev. split; [|done].
    apply Forall_forall. intros x Hx. apply (proj1 (Forall_forall _ _) Hl x). by apply Hlog.
  - intros Hd id r Hrow. rw R4 R3 in Hrow. rw /due (expired_ext _ _ _ _ (store a2)); [by apply Hdue|congruence..].
Qed.
End passes.

(** The product of the days and the microseconds of a day wraps: asked to keep
    rows for two hundred million days, a pass takes every row for too old. *)
Lemma cutoff_wraps now : 0 ≤ now ≤ 4000000000000000 → now < cutoff now 200000000.
Proof.
  intros Hn. rw /cutoff /i64_mul. change (wrap_i64 (200000000 * MICROS_PER_DAY)) with (-1166744073709551616).
  rw /i64_sub wrap_i64_id; [lia|]. rw /in_i64 /i64_MIN /i64_MAX. lia.
Qed.
