(* ===== verification/Scheduler.v ===== *)
(** * The scheduler (server/src/scheduler.rs)

    Pausing and resuming everything, catch-up of missed fires, the look-ahead
    of runs kept for each schedule, the loop of a continuous schedule, and the
    skips a person makes.  The handlers are functions on [App]; the recursive
    entry points are [Ops].

    The loops: the look-ahead adds a run in each pass and stops at a hundred,
    so the room left is its fuel; the walk of fires is bounded by its count. *)

From S2P Require Import Prelude Float64 Json States Transitions Timer Schedules Model DepGraph Events.
From S2P Require Import RuleMatching ActiveIndex Resources WorkQueue Pool Jitter GroupCommit Tables Store.
From S2P Require Import Reader StoreAdmin Integrity App.

Definition LOOKAHEAD_RUNS : nat := 3.
Definition LOOKAHEAD_MIN_SECS : Z := 3600.
Definition LOOKAHEAD_MAX : nat := 100.
Definition LATE_AFTER_SECS : Z := 15.
Definition PERSIST_EVERY_SECS : Z := 60.
Definition LAST_WAKEUP_KEY : string := "scheduler.last_wakeup".
Definition PAUSE_KEY : string := "scheduler.paused".

(** The mark of a fire a person skipped. *)
Definition is_mark_skip (details : Map) : bool := bool_decide (get_str "skip" details = Some "user").
Definition is_marked (run : Run) : bool := is_mark_skip (state_details (Model.run_state run)).

(** ** The cached schedules *)

Definition for_flow (fid : Z) (m : gmap Z ScheduleRow) : list ScheduleRow :=
  sort_by_key sr_id (List.filter (λ r, sr_flow_id r =? fid) (map_to_list m).*2).

Definition group_row (wanted : gset Z) (m : gmap Z (list ScheduleRow)) (s : ScheduleRow)
    : gmap Z (list ScheduleRow) :=
  if bool_decide (sr_flow_id s ∈ wanted)
  then <[sr_flow_id s := default [] (m !! sr_flow_id s) ++ [s]]> m else m.
Definition group_by_flow (rows : list ScheduleRow) (flow_ids : list Z) : gmap Z (list ScheduleRow) :=
  sort_by_key sr_id <$> fold_left (group_row (list_to_set flow_ids)) rows ∅.
Definition for_flows (flow_ids : list Z) (m : gmap Z ScheduleRow) : gmap Z (list ScheduleRow) :=
  match flow_ids with [] => ∅ | _ => group_by_flow (map_to_list m).*2 flow_ids end.

(** ** Fires *)

Section fires.
Context `{ScheduleEnv}.

(** The first [count] fires after a time, while they move on. *)
Fixpoint fires_from (now : Z) (schedule : Schedule) (cursor : Z) (count : nat) : list Z :=
  match count with
  | O => []
  | S n => match next_after now schedule cursor with
           | Ok (Some next) => if cursor <? next then next :: fires_from now schedule next n else []
           | _ => []
           end
  end.
Definition fires_after (now : Z) (schedule : Schedule) (after : Z) (count : nat) : list Z :=
  fires_from now schedule after count.

Fixpoint preview_loop (now : Z) (schedule : Schedule) (cursor : Z) (count : nat)
    : result (list Z) ScheduleError :=
  match count with
  | O => Ok []
  | S n => let? r := next_after now schedule cursor in
           match r with
           | Some next => let? rest := preview_loop now schedule next n in Ok (next :: rest)
           | None => Ok []
           end
  end.
Definition preview (now : Z) (schedule : Schedule) (count : nat) : result (list Z) ScheduleError :=
  let? _ := validate schedule in preview_loop now schedule now (Nat.min count 20).
End fires.

(** Which missed fires to run, and how many are dropped; [None] is the panic of
    taking the last of none. *)
Definition choose (policy : CatchupPolicy) (catchup_max : Z) (fires : list Z) : option (list Z * nat) :=
  match policy with
  | Skip => Some ([], length fires)
  | Latest => match last fires with
              | Some f => Some ([f], length fires - 1)%nat
              | None => None
              end
  | All =>
      let keep := Nat.min (Z.to_nat (Z.max catchup_max 0)) (length fires) in
      let start := (length fires - keep)%nat in
      Some (drop start fires, start)
  end.

(** The fires a catch-up looks at: not skipped, not taken, and how many of
    them are too old to run. *)
Definition missed (now : Z) (window : option Z) (skips taken fires : list Z) : list Z * nat :=
  let fires := List.filter (λ f, negb (bool_decide (f ∈ skips)) && negb (bool_decide (f ∈ taken))) fires in
  match window with
  | Some w =>
      if 0 <? w then
        let kept := List.filter (λ f, now - w * 1000000 <=? f) fires in
        (kept, length fires - length kept)%nat
      else (fires, O)
  | None => (fires, O)
  end.

Section scheduler.
Context `{StoreEnv, PoolEnv, ServerEnv, ScheduleEnv} (ops : Ops).

(** ** Arming runs *)

Definition arm_run (rid due : Z) (skipped : bool) (a : App) : App :=
  let a := on_timer (remove_run_events rid) a in
  let a := push_timer due (Due rid) a in
  if skipped then a
  else
    let a := push_timer (due + LATE_AFTER_SECS * 1000000) (LateCheck rid) a in
    let prewarm := due - PREWARM_SECS * 1000000 in
    if clock a <? prewarm then push_timer prewarm Wake a else a.

(** ** Creating runs *)

(** The defaults of a flow's parameters. *)
Definition default_params (schema : Value) : Map :=
  match and_then (value_get "properties" schema) as_object with
  | Some props =>
      fold_left (λ params kp, match value_get "default" kp.2 with
                              | Some d => map_insert kp.1 d params
                              | None => params
                              end) props []
  | None => []
  end.

Definition create_scheduled_run (flow : Flow) (row : ScheduleRow) (scheduled : Z) (created_by : string)
    (skip : bool) (unique : option UniqueCheck) (a : App) : App * option Run :=
  let options := from_map (flow_options flow) in
  let name := flow_name flow +:+ "-" +:+ format_compact scheduled in
  let name := if run_name_exists name (store a) then name +:+ "-" +:+ dec (sr_id row) else name in
  let initial := State_new (clock a) Scheduled in
  let initial := if skip then with_detail initial "skip" (VString "user") else initial in
  match write (create_run (clock a)
          {| cr_flow_id := flow_id flow; cr_name := name;
             cr_parameters := map_to_string (default_params (flow_parameter_schema flow));
             cr_tags := strings_to_string (flow_tags flow); cr_created_by := created_by;
             cr_initial_state := Some initial; cr_schedule_id := Some (sr_id row);
             cr_scheduled_time := Some scheduled; cr_priority := fo_priority options;
             cr_parent_run_id := None; cr_attempt := 0; cr_backfill_id := None; cr_unique := unique |}) a with
  | (a, Err _) => (a, None)
  | (a, Ok (rid, _)) =>
      match get_run rid (store a) with
      | None => (a, None)
      | Some run =>
          let a := on_index (ActiveIndex.insert_run (instant a) run (from_flow flow) false) a in
          (run_created ops run a, Some run)
      end
  end.

(** ** The look-ahead *)

(** One pass per run made; [room] is what is left below [LOOKAHEAD_MAX]. *)
Fixpoint look_ahead (room : nat) (flow : Flow) (row : ScheduleRow) (skips : list Z) (horizon cursor : Z)
    (starting : nat) (existing : list ScheduleRunMark) (a : App) : App * list ScheduleRunMark :=
  match room with
  | O => (a, existing)
  | S room' =>
      if (starting <? LOOKAHEAD_RUNS)%nat || (cursor <? horizon) then
        match next_after (clock a) (sr_schedule row) cursor with
        | Ok (Some next) =>
            if next <=? cursor then (a, existing)
            else
              let skip := bool_decide (next ∈ skips) in
              match create_scheduled_run flow row next "schedule" skip None a with
              | (a, Some run) =>
                  look_ahead room' flow row skips horizon next
                    (if skip then starting else S starting)
                    (existing ++ [mkMark (run_id run) (run_scheduled_time run)
                                    (state_details (Model.run_state run))]) a
              | (a, None) => (a, existing)
              end
        | _ => (a, existing)
        end
      else (a, existing)
  end.

Definition start_deadline (row : ScheduleRow) (flow : Flow) : option Z :=
  opt_filter (λ d, 0 <? d)
    (match sr_start_deadline row with
     | Some d => Some d
     | None => (λ d, f64_as_i64 (f64_round d)) <$> fo_start_deadline (from_map (flow_options flow))
     end).

(** The due time of a fire, with its jitter. *)
Definition due_of (row : ScheduleRow) (fire : Z) : Z := fire + jitter_offset (sr_id row) fire (sr_jitter row).

Definition arm_mark (row : ScheduleRow) (flow : Flow) (a : App) (mark : ScheduleRunMark) : App :=
  match mark_time mark with
  | None => a
  | Some fire =>
      let marked := is_mark_skip (mark_details mark) in
      let due := due_of row fire in
      let a := arm_run (mark_id mark) due marked a in
      match start_deadline row flow with
      | Some seconds =>
          if marked then a else push_timer (due + seconds * 1000000) (StartDeadline (mark_id mark)) a
      | None => a
      end
  end.

Definition min_opt (l : list Z) : option Z :=
  foldr (λ k o, Some (match o with Some m => Z.min k m | None => k end)) None l.

Definition with_next (next_fire : option Z) (skipped : Z) (row : ScheduleRow) : ScheduleRow :=
  {| sr_id := sr_id row; sr_external_id := sr_external_id row; sr_flow_id := sr_flow_id row;
     sr_schedule := sr_schedule row; sr_catchup := sr_catchup row; sr_catchup_max := sr_catchup_max row;
     sr_catchup_window := sr_catchup_window row; sr_jitter := sr_jitter row;
     sr_start_deadline := sr_start_deadline row; sr_active := sr_active row;
     sr_paused_reason := sr_paused_reason row; sr_paused_until := sr_paused_until row;
     sr_source := sr_source row; sr_code_key := sr_code_key row; sr_persist := sr_persist row;
     sr_created_at := sr_created_at row; sr_updated_at := sr_updated_at row; sr_next_fire := next_fire;
     sr_skipped := skipped; sr_loop_state := sr_loop_state row |}.

Definition materialize_fires (row : ScheduleRow) (flow : Flow) (a : App) : App :=
  let now := clock a in
  let all_skips := list_skips (sr_id row) (store a) in
  let a := match all_skips with
           | t :: _ => if t <=? now then write_only (delete_skips_before (sr_id row) now) a else a
           | [] => a
           end in
  let skips := List.filter (λ t, now <? t) all_skips in
  let existing := future_run_marks (sr_id row) now (store a) in
  let cursor := default now (max_opt (omap mark_time existing)) in
  let horizon := now + LOOKAHEAD_MIN_SECS * 1000000 in
  let starting := length (List.filter (λ m, negb (is_mark_skip (mark_details m))) existing) in
  let '(a, existing) :=
    look_ahead (LOOKAHEAD_MAX - length existing) flow row skips horizon cursor starting existing a in
  let a := fold_left (arm_mark row flow) existing a in
  let a := match min_opt (omap mark_time existing) with
           | Some first =>
               push_timer (first + 1000) (Timer.Fire (sr_id row)) (on_timer (remove_schedule_events (sr_id row)) a)
           | None => a
           end in
  let next_fire := min_opt (omap mark_time (List.filter (λ m, negb (is_mark_skip (mark_details m))) existing)) in
  put_schedule (with_next next_fire (Z.of_nat (length skips)) row) a.

(** ** Continuous schedules *)

Definition CONTINUOUS_STRIPES : Z := 64.
Definition stripe (sid : Z) : Z := sid mod CONTINUOUS_STRIPES.
(** Run under the lock of a schedule's stripe. *)
Definition with_loop_lock {A} (sid : Z) (stuck : A) (f : App → App * A) (a : App) : App * A :=
  if bool_decide (stripe sid ∈ loop_locks a) then (halt Deadlock a, stuck)
  else
    let '(a, x) := f (set_loop_locks ({[stripe sid]} ∪ loop_locks a) a) in
    (set_loop_locks (loop_locks a ∖ {[stripe sid]}) a, x).

Definition continuous_key (sid : Z) : string := "continuous:" +:+ dec sid.
Definition continuous_check (sid : Z) : UniqueCheck :=
  mkUniqueCheck (continuous_key sid) ["Scheduled"; "Pending"; "Running"; "Paused"; "Cancelling"] None.

Definition is_waiting (r : Run) : bool :=
  st_eqb (state_type (Model.run_state r)) Scheduled && is_none (run_engine_pid r).

Definition seed_continuous (row : ScheduleRow) (flow : Flow) (delay : f64) (a : App) : App :=
  (with_loop_lock (sr_id row) tt (λ a,
    let now := clock a in
    let active := active_runs_of_schedule (sr_id row) (store a) in
    let '(a, waiting) :=
      match active with
      | [] =>
          let due := Z.max now (match last_end_of_schedule (sr_id row) (store a) with
                                | Some end_ => end_ + micros_of_secs delay
                                | None => now
                                end) in
          create_scheduled_run flow row due "continuous" false (Some (continuous_check (sr_id row))) a
      | _ => (a, find is_waiting active)
      end in
    let waiting := opt_filter (λ r, st_eqb (state_type (Model.run_state r)) Scheduled) waiting in
    let '(a, next_fire) :=
      match waiting with
      | Some run =>
          match run_scheduled_time run with
          | Some fire =>
              let due := due_of row fire in
              let a := arm_run (run_id run) due false a in
              let a := match start_deadline row flow with
                       | Some seconds => push_timer (due + seconds * 1000000) (StartDeadline (run_id run)) a
                       | None => a
                       end in
              (a, opt_filter (λ d, now <? d) (Some due))
          | None => (a, None)
          end
      | None => (a, None)
      end in
    let a := put_schedule (with_next next_fire 0 row) a in
    (publish_schedule (sr_id row) a, tt)) a).1.

Definition materialize (sid : Z) (a : App) : App :=
  match schedules a !! sid with
  | None => a
  | Some row =>
      if negb (sr_active row) || is_paused a then a
      else match get_flow (sr_flow_id row) (store a) with
           | None => a
           | Some flow =>
               match sr_schedule row with
               | Continuous delay => seed_continuous row flow delay a
               | _ => materialize_fires row flow a
               end
           end
  end.

(** ** Catch-up *)

Definition catch_up (row : ScheduleRow) (last_ now : Z) (a : App) : App :=
  let max := (Z.to_nat (Z.max (sr_catchup_max row) 1) + 1000)%nat in
  match fires_between (clock a) (sr_schedule row) last_ now max with
  | Err _ => a
  | Ok fires =>
      let '(fires, expired) :=
        missed now (sr_catchup_window row) (list_skips (sr_id row) (store a))
          (fire_times_of_schedule (sr_id row) last_ now (store a)) fires in
      if (length fires =? 0)%nat && (expired =? 0)%nat then a
      else
        match choose (sr_catchup row) (sr_catchup_max row) fires with
        | None => halt Panicked a
        | Some (chosen, dropped) =>
            match get_flow (sr_flow_id row) (store a) with
            | None => a
            | Some flow =>
                let a := fold_left (λ a fire,
                    match create_scheduled_run flow row fire "catchup" false None a with
                    | (a, Some run) => op_enqueue_run ops run flow None a
                    | (a, None) => a
                    end) chosen a in
                record_engine_event ops ScheduleCatchup None (Some (sr_flow_id row))
                  [("created", num (Z.of_nat (length chosen))); ("dropped", num (Z.of_nat dropped));
                   ("expired", num (Z.of_nat expired));
                   ("missed", num (Z.of_nat (length fires + expired)));
                   ("policy", VString (CatchupPolicy_as_str (sr_catchup row)));
                   ("schedule_id", num (sr_id row))] a
            end
        end
  end.

(** ** Skips *)

Definition drop_lost_skips (row : ScheduleRow) (a : App) : App :=
  let now := clock a in
  let skips := List.filter (λ t, now <? t) (list_skips (sr_id row) (store a)) in
  match skips with
  | [] => a
  | _ =>
      let produced := fires_after now (sr_schedule row) now LOOKAHEAD_MAX in
      let lost := List.filter (λ t, negb (bool_decide (t ∈ produced))) skips in
      match lost with
      | [] => a
      | _ =>
          let a := (write_ (delete_skips (sr_id row) lost) a).1 in
          record_engine_event ops ScheduleSkipsDropped None (Some (sr_flow_id row))
            [("dropped", VArray (num <$> lost)); ("schedule_id", num (sr_id row))] a
      end
  end.

Definition set_run_state_of (st : State) (r : ActiveRun) : ActiveRun :=
  mkActiveRun (ar_id r) (ar_flow_id r) (ar_name r) st (ar_engine_pid r) (ar_engine_id r)
    (ar_last_heartbeat r) (ar_cancel_requested r) (ar_cancelling_since r) (ar_terminated_at r)
    (ActiveIndex.ar_key r) (ar_adopted r).

Definition apply_mark (a : App) (id : Z) : App :=
  match get_run id (store a) with
  | None => a
  | Some run =>
      let a := on_index (λ x, (ActiveIndex.update id (set_run_state_of (Model.run_state run)) x).1) a in
      let a := if is_marked run then on_supervisor (λ s, (dequeue id s).1) a else a in
      let a := match run_scheduled_time run with
               | Some due => arm_run id due (is_marked run) a
               | None => a
               end in
      publish_run run a
  end.

Definition apply_skips (sid : Z) (a : App) : App :=
  let '(a, changed) := write_ (sync_skip_marks sid) a in
  let a := fold_left apply_mark changed a in
  let a := materialize sid a in
  let a := match schedules a !! sid, get_schedule (clock a) sid (store a) with
           | Some cached, Some stored => put_schedule (with_next (sr_next_fire cached) (sr_skipped stored) cached) a
           | _, _ => a
           end in
  publish_schedule sid a.

(** Why a fire cannot be skipped. *)
Definition refuse_fire (now : Z) (ahead : list Z) (fire : Z) : option string :=
  if fire <=? now then Some (format_rfc3339 fire +:+ " has passed")
  else if bool_decide (fire ∈ ahead) then None
  else match last ahead with
       | Some l => if l <? fire
                   then Some (format_rfc3339 fire +:+ " is more than 100 fires ahead")
                   else Some (format_rfc3339 fire +:+ " is not a fire of this schedule")
       | None => Some (format_rfc3339 fire +:+ " is not a fire of this schedule")
       end.
Fixpoint first_refusal (now : Z) (ahead fires : list Z) : option string :=
  match fires with
  | [] => None
  | f :: fires' => match refuse_fire now ahead f with
                   | Some msg => Some msg
                   | None => first_refusal now ahead fires'
                   end
  end.
(** [dedup] of a sorted list. *)
Fixpoint dedup_sorted (l : list Z) : list Z :=
  match l with
  | [] => []
  | x :: l' => match dedup_sorted l' with
               | y :: _ as r => if x =? y then r else x :: r
               | [] => [x]
               end
  end.

Definition choose_fires (row : ScheduleRow) (fires : list Z) (next : option nat) (a : App)
    : result (list Z) string :=
  let now := clock a in
  let ahead := fires_after now (sr_schedule row) now LOOKAHEAD_MAX in
  match next with
  | Some O => Err "next must be at least 1"
  | Some n =>
      let skipped := list_skips (sr_id row) (store a) in
      let open := take n (List.filter (λ t, negb (bool_decide (t ∈ skipped))) ahead) in
      if (length open <? n)%nat then
        Err ("only " +:+ dec (Z.of_nat (length open)) +:+ " of the next 100 fires can still be skipped")
      else Ok open
  | None =>
      match fires with
      | [] => Err "name the fires to skip, or pass next"
      | _ => match first_refusal now ahead fires with
             | Some msg => Err msg
             | None => Ok (dedup_sorted (sort_by_key id fires))
             end
      end
  end.

(** A failed write is reported by the text of its error, which is left out. *)
Definition skip_fires (row : ScheduleRow) (fires : list Z) (next : option nat) (created_by : string)
    (a : App) : App * result (list Z) string :=
  match choose_fires row fires next a with
  | Err msg => (a, Err msg)
  | Ok chosen =>
      match write (add_skips (clock a) (sr_id row) chosen created_by) a with
      | (a, Err _) => (a, Err "the store refused the skips")
      | (a, Ok _) => (apply_skips (sr_id row) a, Ok chosen)
      end
  end.

Definition unskip_fire (sid fire : Z) (a : App) : App * result bool string :=
  if fire <=? clock a then (a, Err (format_rfc3339 fire +:+ " has passed; its Skipped run is history"))
  else
    let '(a, removed) := write_ (delete_skips sid [fire]) a in
    if removed =? 0 then (a, Ok false) else (apply_skips sid a, Ok true).

Definition end_skipped (run : Run) (a : App) : App :=
  let skipped := with_detail (with_message (State_named (clock a) Skipped) "skipped by a person")
                   "reason" (VString "user") in
  let '(a, _) := op_transition_run ops (run_id run) skipped false a in
  match run_schedule_id run, run_scheduled_time run with
  | Some sid, Some fire => (write_ (delete_skips sid [fire]) a).1
  | _, _ => a
  end.

(** ** Editing, pausing and resuming one schedule *)

Definition drop_one (a : App) (id : Z) : App :=
  let fid := match ActiveIndex.get id (index a) with Some r => ar_flow_id r | None => 0 end in
  let a := on_index (ActiveIndex.remove_run id (Some (State_new (clock a) Scheduled)) fid) a in
  let a := on_supervisor (λ s, (dequeue id s).1) a in
  let a := on_timer (remove_run_events id) a in
  emit (PubRunDeleted id) a.
Definition drop_unstarted (sid : Z) (a : App) : App :=
  let '(a, ids) := write_ (delete_unstarted_runs sid) a in
  on_timer (remove_schedule_events sid) (fold_left drop_one ids a).

Definition rebuild (sid : Z) (a : App) : App :=
  match get_schedule (clock a) sid (store a) with
  | None => on_timer (remove_schedule_events sid) (set_schedules (delete sid (schedules a)) a)
  | Some row =>
      let a := drop_unstarted sid (put_schedule row a) in
      let a := match schedules a !! sid with Some row => drop_lost_skips row a | None => a end in
      materialize sid a
  end.

Definition active_patch (active : bool) (reason : option string) (until : option Z) : SchedulePatch :=
  {| sp_spec := None; sp_catchup := None; sp_catchup_max := None; sp_catchup_window := None;
     sp_jitter := None; sp_start_deadline := None; sp_active := Some active;
     sp_paused_reason := Some reason; sp_paused_until := Some until; sp_persist := None |}.

Definition pause_schedule (sid : Z) (reason : option string) (until : option Z) (a : App) : App :=
  let a := (write_ (patch_schedule (clock a) sid (active_patch false reason until)) a).1 in
  let a := match get_schedule (clock a) sid (store a) with Some row => put_schedule row a | None => a end in
  let a := publish_schedule sid (drop_unstarted sid a) in
  match schedules a !! sid with
  | Some row => record_engine_event ops SchedulePaused None (Some (sr_flow_id row))
                  [("reason", opt_value VString reason); ("schedule_id", num sid)] a
  | None => a
  end.

Definition resume_schedule (sid : Z) (a : App) : App :=
  let a := (write_ (patch_schedule (clock a) sid (active_patch true None None)) a).1 in
  let a := publish_schedule sid (rebuild sid a) in
  match schedules a !! sid with
  | Some row => record_engine_event ops ScheduleResumed None (Some (sr_flow_id row))
                  [("schedule_id", num sid)] a
  | None => a
  end.

Definition delete_schedule (sid : Z) (a : App) : App * bool :=
  let a := drop_unstarted sid a in
  let '(a, ok) := write_ (StoreAdmin.delete_schedule sid) a in
  (publish_schedule sid (set_schedules (delete sid (schedules a)) a), ok).
(** Move a continuous schedule's waiting run to now.  The lock is released
    before the run is enqueued, whose end would take it again. *)
Definition join_now (sid : Z) (a : App) : App * result Z string :=
  let '(a, r) :=
    with_loop_lock sid (Err "the schedule's lock is held") (λ a,
      match schedules a !! sid with
      | None => (a, Err "schedule not found")
      | Some row =>
          if negb (is_continuous (sr_schedule row)) then
            (a, Err "only a continuous schedule has a run waiting to join the line")
          else if negb (sr_active row) then
            (a, Err "the schedule is paused; resume it to start the loop")
          else
            match find (λ r, is_waiting r && negb (queued (run_id r) (supervisor a)))
                    (active_runs_of_schedule sid (store a)) with
            | None => (a, Err "no run is waiting: it is already in line or running")
            | Some waiting =>
                let now := clock a in
                match write (reschedule_run (run_id waiting) now (map_to_string (run_parameters waiting))) a with
                | (a, Err _) => (a, Err "the store refused the move")
                | (a, Ok false) => (a, Err "the run started meanwhile")
                | (a, Ok true) =>
                  let run := get_run (run_id waiting) (store a) in
                  let flow := and_then run (λ r, get_flow (run_flow_id r) (store a)) in
                  let '(a, enqueue_now) :=
                    match run, flow with
                    | Some run, Some flow =>
                        if negb (is_paused a)
                        then (on_timer (remove_run_events (run_id run)) a, Some (run, flow))
                        else (arm_run (run_id waiting) now false a, None)
                    | _, _ => (arm_run (run_id waiting) now false a, None)
                    end in
                  (put_schedule (with_next None (sr_skipped row) row) a,
                   Ok (run_id waiting, run, enqueue_now))
                end
            end
      end) a in
  match r with
  | Err msg => (a, Err msg)
  | Ok (waiting_id, run, enqueue_now) =>
      let a := match enqueue_now with
               | Some (run, flow) => op_enqueue_run ops run flow None a
               | None => a
               end in
      let a := match run with Some run => publish_run run a | None => a end in
      (publish_schedule sid a, Ok waiting_id)
  end.

(** ** The global pause *)

Definition pause_all (reason : option string) (until : option Z) (suppress_rules : bool) (a : App)
    : App * Pause :=
  let now := clock a in
  let since := match pause a with Some p => p_since p | None => now end in
  let p := mkPause since reason until suppress_rules in
  let a := write_only (kv_set now PAUSE_KEY (pause_to_string p)) (set_pause (Some p) a) in
  let a := match until with
           | Some at_ => push_timer (Z.max at_ now) (SchedulerResume since) a
           | None => a
           end in
  (record_engine_event ops SchedulerPaused None None
     [("reason", opt_value VString (p_reason p)); ("suppress_rules", VBool (p_suppress_rules p));
      ("until", opt_value num (p_until p))] a, p).

(** Scheduled runs no engine has. *)
Definition waiting_ids (a : App) : list Z :=
  ar_id <$> List.filter (λ r, st_eqb (state_type (ar_state r)) Scheduled && is_none (ar_engine_pid r))
              (ActiveIndex.active_runs (index a)).
Definition is_held (now : Z) (m : ScheduleRunMark) : bool :=
  negb (is_mark_skip (mark_details m))
  && match mark_time m with Some t => t <=? now | None => false end.

Definition resume_one (since now : Z) (a : App) (row : ScheduleRow) : App :=
  materialize (sr_id row) (catch_up row since now (put_schedule row a)).
Definition release_held (now : Z) (marks : gmap Z ScheduleRunMark) (ac : App * Z) (id : Z) : App * Z :=
  let '(a, held) := ac in
  match marks !! id with
  | Some m => if is_held now m then (push_timer now (Due id) a, held + 1) else (a, held)
  | None => (a, held)
  end.

Definition resume_all (a : App) : App * option (Z * Z) :=
  match pause a with
  | None => (a, None)
  | Some p =>
      let a := (write_ (kv_delete PAUSE_KEY) (set_pause None a)).1 in
      let now := clock a in
      let rows := List.filter sr_active (list_schedules now None (store a)) in
      let a := fold_left (resume_one (p_since p) now) rows a in
      let n := Z.of_nat (length rows) in
      let waiting := waiting_ids a in
      let '(a, held) := fold_left (release_held now (run_marks waiting (store a))) waiting (a, 0) in
      (record_engine_event ops SchedulerResumed None None [("held", num held); ("schedules", num n)] a,
       Some (held, n))
  end.

Definition held_runs (a : App) : Z :=
  if negb (is_paused a) then 0
  else match waiting_ids a with
       | [] => 0
       | waiting => Z.of_nat (length (List.filter (λ km, is_held (clock a) km.2)
                                        (map_to_list (run_marks waiting (store a)))))
       end.

Definition restore_pause (a : App) : App * option Pause :=
  let p := and_then (kv_get PAUSE_KEY (store a)) pause_from_str in
  let a := set_pause p a in
  match p with
  | Some q => match p_until q with
              | Some at_ => (push_timer (Z.max at_ (clock a)) (SchedulerResume (p_since q)) a, p)
              | None => (a, p)
              end
  | None => (a, p)
  end.

(** ** Schedules declared in code *)

Definition code_key (i : nat) (decl : ScheduleDecl) : string :=
  default ("code-" +:+ dec (Z.of_nat i)) (decl_key decl).
Definition is_code (key : string) (s : ScheduleRow) : bool :=
  (sr_source s =?s "code") && bool_decide (sr_code_key s = Some key).
(** A declared interval without an anchor keeps the anchor of its row. *)
Definition code_spec (now : Z) (decl : ScheduleDecl) (current : option ScheduleRow) : Schedule :=
  match decl_schedule decl, sr_schedule <$> current with
  | Interval interval None timezone, Some (Interval _ (Some anchor) _) =>
      Interval interval (Some anchor) timezone
  | s, _ => with_anchor_if_missing s now
  end.
Definition code_write (flow : Flow) (id : option Z) (spec key : string) (decl : ScheduleDecl) (active : bool)
    : ScheduleWrite :=
  mkScheduleWrite id (flow_id flow) spec (CatchupPolicy_as_str (decl_catchup decl)) (decl_catchup_max decl)
    (decl_catchup_window decl) (decl_jitter decl) (decl_start_deadline decl) active "code" (Some key) false.

Fixpoint sync_decls (flow : Flow) (existing : list ScheduleRow) (i : nat) (decls : list ScheduleDecl)
    (changed : list Z) (a : App) : App * result (list Z) (ScheduleError + StoreError) :=
  match decls with
  | [] => (a, Ok changed)
  | decl :: decls' =>
      let key := code_key i decl in
      match validate (decl_schedule decl) with
      | Err e => (a, Err (inl e))
      | Ok _ =>
          let current := find (is_code key) existing in
          let spec := schedule_to_string (code_spec (clock a) decl current) in
          match current with
          | Some row =>
              if sr_persist row then sync_decls flow existing (S i) decls' changed a
              else
                let changed := if schedule_to_string (sr_schedule row) =?s spec then changed
                               else changed ++ [sr_id row] in
                match write (upsert_schedule (clock a)
                               (code_write flow (Some (sr_id row)) spec key decl (sr_active row))) a with
                | (a, Err e) => (a, Err (inr e))
                | (a, Ok _) => sync_decls flow existing (S i) decls' changed a
                end
          | None =>
              match write (upsert_schedule (clock a) (code_write flow None spec key decl true)) a with
              | (a, Err e) => (a, Err (inr e))
              | (a, Ok _) => sync_decls flow existing (S i) decls' changed a
              end
          end
      end
  end.

(** A code schedule no declaration names. *)
Definition orphan (seen : list string) (s : ScheduleRow) : bool :=
  (sr_source s =?s "code") && negb (sr_persist s)
  && negb match sr_code_key s with Some k => bool_decide (k ∈ seen) | None => false end.

Definition sync_code_schedules (flow : Flow) (decls : list ScheduleDecl) (a : App)
    : App * result (list Z) (ScheduleError + StoreError) :=
  let existing := list_schedules (clock a) (Some (flow_id flow)) (store a) in
  match sync_decls flow existing O decls [] a with
  | (a, Err e) => (a, Err e)
  | (a, Ok changed) =>
      (fold_left (λ a row, (write_ (StoreAdmin.delete_schedule (sr_id row)) a).1)
         (List.filter (orphan (imap code_key decls)) existing) a, Ok changed)
  end.
End scheduler.
