(* ===== verification/Health.v ===== *)
(** * The health of a flow (server/src/health.rs)

    PASS, WARN or FAIL against the flow's freshness, its deadline and the
    duration expected of its runs, and the sweep that records [run.overdue]
    once for each run that outlasts its expectation.  Seconds are floats, as in
    the code; only the text of a duration is left to its formatter. *)

From S2P Require Import Prelude Float64 Json States Transitions Timer Schedules Model DepGraph Events.
From S2P Require Import RuleMatching ActiveIndex Resources WorkQueue Pool GroupCommit Tables Store.
From S2P Require Import Reader StoreAdmin Integrity RuleReader Replay Pages App Scheduler.

(** [format!("{:.0}")] and [format!("{:.1}")] *)
Class FormatEnv : Type := {
  fixed0 : f64 → string;
  fixed1 : f64 → string;
}.

Definition RECENT_RUNS_READ : nat := 40.

Inductive Status : Type := Pass | Warn | Fail.
#[global] Instance Status_eq_dec : EqDecision Status.
Proof. solve_decision. Defined.
Definition Status_as_str (s : Status) : string :=
  match s with Pass => "PASS" | Warn => "WARN" | Fail => "FAIL" end.
Definition worst (a b : Status) : Status :=
  match a, b with
  | Fail, _ | _, Fail => Fail
  | Warn, _ | _, Warn => Warn
  | _, _ => Pass
  end.
Record FlowHealth : Type := mkFlowHealth {
  fh_status : Status;
  fh_reasons : list string;
  fh_last_completed_at : option Z;
  fh_deadline : option Z;
}.

Definition seconds_between (start now : Z) : f64 := f64_div (f64_of_Z (now - start)) f64_million.
Definition three_quarters : f64 := f64_ratio 3 4.
Definition positive (o : option f64) : option f64 := opt_filter (λ d, f64_lt f64_zero d) o.

Definition expected_duration (o : FlowOptions) (recent : list RecentRun) : option (f64 * string) :=
  match positive (fo_expected_duration o) with
  | Some d => Some (d, "expected_duration")
  | None =>
      factor ← positive (fo_overdue_factor o);
      let durations := take 20 (omap (λ r : RecentRun, let '(_, t, _, d) := r in
                                        if t =?s "Completed" then d else None) recent) in
      if (length durations <? 3)%nat then None
      else m ← middle durations;
           Some (f64_mul (f64_div (f64_of_Z m) f64_million) factor, "median")
  end.

Section health.
Context `{StoreEnv, PoolEnv, ServerEnv, ScheduleEnv, FormatEnv}.

Definition human (secs : f64) : string :=
  if f64_lt secs (f64_of_Z 90) then fixed0 secs +:+ "s"
  else if f64_lt secs (f64_of_Z 5400) then fixed0 (f64_div secs (f64_of_Z 60)) +:+ "m"
  else if f64_lt secs (f64_of_Z 172800) then fixed1 (f64_div secs (f64_of_Z 3600)) +:+ "h"
  else fixed1 (f64_div secs (f64_of_Z 86400)) +:+ "d".

(** The last two fires of the deadline, the older first, within 800 days. *)
Definition deadline_window (cron : string) (tz : option string) (now : Z) : option (Z * Z) :=
  let schedule := Cron cron tz true in
  match validate schedule with
  | Err _ => None
  | Ok _ =>
      match fires_before now schedule now (now - 800 * day_micros) 2 with
      | Ok [latest; previous] => Some (previous, latest)
      | _ => None
      end
  end.

Definition is_running (r : ActiveRun) : bool := st_eqb (state_type (ar_state r)) Running.
Definition overdue_reason (starts : gmap Z (option Z)) (now : Z) (expected : f64) (basis : string) (r : ActiveRun)
    : option string :=
  if negb (is_running r) then None
  else
    start ← mjoin (starts !! ar_id r);
    let elapsed := seconds_between start now in
    if f64_lt expected elapsed then
      Some ("run " +:+ dec (ar_id r) +:+ " has been running " +:+ human elapsed +:+ " against "
            +:+ human expected +:+ " expected (" +:+ basis +:+ ")")
    else None.
Definition overdue_reasons (active : list ActiveRun) (starts : gmap Z (option Z)) (now : Z) (expected : f64)
    (basis : string) : list string :=
  omap (overdue_reason starts now expected basis) active.

(** A finding: how bad it is, and its sentence. *)
Definition Finding : Type := Status * string.
Definition freshness (now : Z) (flow : Flow) (o : FlowOptions) (last_completed_at : option Z) : list Finding :=
  match positive (fo_fresh_within o) with
  | None => []
  | Some window =>
      match last_completed_at with
      | Some ended =>
          let age := seconds_between ended now in
          if f64_lt window age then
            [(Fail, "last completed " +:+ human age +:+ " ago, more than fresh_within " +:+ human window)]
          else if f64_lt (f64_mul window three_quarters) age then
            [(Warn, "last completed " +:+ human age +:+ " ago, close to fresh_within " +:+ human window)]
          else []
      | None =>
          if f64_lt window (seconds_between (flow_created_at flow) now)
          then [(Fail, "never completed in fresh_within " +:+ human window)] else []
      end
  end.
Definition deadline_of (now : Z) (o : FlowOptions) : option (string * (Z * Z)) :=
  cron ← opt_filter (λ c, negb (str_is_empty (trim c))) (fo_expect_by o);
  w ← deadline_window cron (fo_expect_by_tz o) now;
  Some (cron, w).
Definition punctuality (now : Z) (o : FlowOptions) (active : list ActiveRun) (last_completed_at : option Z)
    : list Finding :=
  match deadline_of now o with
  | None => []
  | Some (cron, (previous, _)) =>
      if match last_completed_at with Some t => previous <? t | None => false end then []
      else match active with
           | [] => [(Fail, "no completed run since the " +:+ cron +:+ " deadline before this one")]
           | _ => [(Warn, "deadline " +:+ cron +:+ " passed with a run still active")]
           end
  end.
Definition lateness (now : Z) (o : FlowOptions) (active : list ActiveRun) (recent : list RecentRun)
    (starts : gmap Z (option Z)) : list Finding :=
  match expected_duration o recent with
  | Some (expected, basis) => pair Warn <$> overdue_reasons active starts now expected basis
  | None => []
  end.
Definition expects (o : FlowOptions) : bool :=
  is_some (fo_fresh_within o) || is_some (fo_expect_by o) || is_some (fo_expected_duration o)
  || is_some (fo_overdue_factor o).
Definition flow_health (now : Z) (flow : Flow) (o : FlowOptions) (active : list ActiveRun)
    (recent : list RecentRun) (last_completed_at : option Z) (starts : gmap Z (option Z)) : option FlowHealth :=
  if negb (expects o) then None
  else
    let found := freshness now flow o last_completed_at ++ punctuality now o active last_completed_at
                 ++ lateness now o active recent starts in
    Some (mkFlowHealth (fold_left worst found.*1 Pass) found.*2 last_completed_at
            ((λ cw, cw.2.2) <$> deadline_of now o)).

(** ** The sweep *)

Context (ops : Ops).

Definition sweep_one (flows : gmap Z Flow) (recent : gmap Z (list RecentRun)) (starts : gmap Z (option Z))
    (an : App * Z) (r : ActiveRun) : App * Z :=
  let '(a, n) := an in
  match flows !! ar_flow_id r with
  | None => (a, n)
  | Some flow =>
      match expected_duration (from_map (flow_options flow)) (default [] (recent !! ar_flow_id r)) with
      | None => (a, n)
      | Some (expected, basis) =>
          match mjoin (starts !! ar_id r) with
          | None => (a, n)
          | Some start =>
              let elapsed := seconds_between start (clock a) in
              if f64_le elapsed expected || bool_decide (ar_id r ∈ overdue_reported (flags a)) then (a, n)
              else
                let a := set_overdue ({[ar_id r]} ∪ overdue_reported (flags a)) a in
                (record_engine_event ops RunOverdue (Some (ar_id r)) (Some (flow_id flow))
                   [("basis", VString basis); ("elapsed_seconds", VNumber (NFloat elapsed));
                    ("expected_seconds", VNumber (NFloat expected))] a, n + 1)
          end
      end
  end.
Definition forget_ended (all : list ActiveRun) (a : App) : App :=
  set_overdue (overdue_reported (flags a) ∩ list_to_set (ar_id <$> all)) a.
Definition sweep (a : App) : App * Z :=
  let all := ActiveIndex.active_runs (index a) in
  let a := forget_ended all a in
  match List.filter is_running all with
  | [] => (a, 0)
  | running =>
      let fids := dedup_sorted (sort_by_key id (ar_flow_id <$> running)) in
      fold_left (sweep_one (get_flows_by_ids fids (store a)) (recent_run_states_many fids RECENT_RUNS_READ (store a))
                   (run_start_times (ar_id <$> running) (store a))) running (a, 0)
  end.
End health.

(** ** What a status means *)

Lemma worst_fail a b : worst a b = Fail ↔ a = Fail ∨ b = Fail.
Proof. destruct a, b; naive_solver. Qed.
Lemma worst_pass a b : worst a b = Pass ↔ a = Pass ∧ b = Pass.
Proof. destruct a, b; naive_solver. Qed.
Lemma fold_worst_fail l a : fold_left worst l a = Fail ↔ a = Fail ∨ Fail ∈ l.
Proof.
  revert a. induction l as [|b l IH]; intros a; simpl; [set_solver|]. rw IH worst_fail elem_of_cons. naive_solver.
Qed.
Lemma fold_worst_pass l a : fold_left worst l a = Pass ↔ a = Pass ∧ Forall (λ s, s = Pass) l.
Proof.
  revert a. induction l as [|b l IH]; intros a; simpl; [by split; [split|intros []]|].
  rw IH worst_pass Forall_cons. naive_solver.
Qed.

Section status.
Context `{StoreEnv, PoolEnv, ServerEnv, ScheduleEnv, FormatEnv}.

(** Too old, or never completed and too old itself. *)
Definition stale (now : Z) (flow : Flow) (o : FlowOptions) (done_at : option Z) : bool :=
  match positive (fo_fresh_within o) with
  | Some window => f64_lt window (seconds_between (default (flow_created_at flow) done_at) now)
  | None => false
  end.
(** The deadline before the last one passed and nothing completed since, with
    nothing under way. *)
Definition missed_deadline (now : Z) (o : FlowOptions) (active : list ActiveRun) (done_at : option Z) : bool :=
  match deadline_of now o with
  | Some (_, (previous, _)) => negb (match done_at with Some t => previous <? t | None => false end)
                               && bool_decide (active = [])
  | None => false
  end.

Lemma freshness_fail now flow o d : Fail ∈ (freshness now flow o d).*1 ↔ stale now flow o d = true.
Proof using Type.
  rw /freshness /stale. destruct (positive _) as [w|]; [|simpl; set_solver].
  destruct d as [t|]; cbn [default]; destruct (f64_lt w _); try destruct (f64_lt _ _); simpl; set_solver.
Qed.
Lemma punctuality_fail now o act d : Fail ∈ (punctuality now o act d).*1 ↔ missed_deadline now o act d = true.
Proof using Type.
  rw /punctuality /missed_deadline. destruct (deadline_of now o) as [[c [p l]]|]; [|simpl; set_solver].
  destruct (match d with Some t => p <? t | None => false end); simpl; [set_solver|].
  destruct act; [rw bool_decide_true //|rw bool_decide_false //]; simpl; set_solver.
Qed.
Lemma lateness_warn now o act rec st : Forall (λ s, s = Warn) (lateness now o act rec st).*1.
Proof using Type.
  rw /lateness. destruct (expected_duration o rec) as [[e b]|]; [|constructor].
  rw -list_fmap_compose. apply Forall_fmap, Forall_true. done.
Qed.
Lemma findings_not_pass now flow o act rec d st :
  Pass ∉ (freshness now flow o d ++ punctuality now o act d ++ lateness now o act rec st).*1.
Proof using Type.
  rw !fmap_app !elem_of_app. intros [Hp|[Hp|Hp]].
  - revert Hp. rw /freshness. repeat case_match; simpl; set_solver.
  - revert Hp. rw /punctuality. repeat case_match; simpl; set_solver.
  - pose proof (lateness_warn now o act rec st) as Hw. rw Forall_forall in Hw. by apply Hw in Hp.
Qed.

End status.
