(* ===== verification/Waits.v ===== *)
(** * Durable waits (server/src/waits.rs, the answers of server/src/api/runs.rs)

    A run that sleeps or waits is Paused; the server wakes it by storing an
    answer at the index of its question and scheduling a new attempt.  Every
    answerer takes [ANSWER_LOCK] for the read, the decision and the write.

    The two threads a pause starts are the tasks [DeliverQueued] and
    [DeliverRecorded], whose bodies are [deliver_queued_body] and
    [deliver_recorded_body]. *)

From S2P Require Import Prelude Float64 Json States Transitions Timer Schedules Model DepGraph Events.
From S2P Require Import RuleMatching RuleTemplates ActiveIndex Resources WorkQueue Pool GroupCommit Tables.
From S2P Require Import Store Reader StoreAdmin Integrity RuleReader Validate App.

(** ** API errors (api/error.rs) *)

Inductive ApiError : Type :=
| ApiNotFound (msg : string)
| BadRequest (msg : string)
| Unprocessable (msg : string)
(** [Unprocessable] with the message of the parameter check *)
| BadParameters (e : ParamError)
(** [Unprocessable] with the message of the schedule's check *)
| BadSchedule (e : ScheduleError)
| Conflict (body : Value)
| Forbidden (msg : string)
| Internal (e : StoreError)
(** [Internal] with a text of the handler *)
| InternalText (msg : string)
| Unavailable (msg : string).

(** The text of an internal error is left as the store's error. *)
Definition ApiError_from (e : StoreError) : ApiError :=
  match e with
  | NotFound what => ApiNotFound (what +:+ " not found")
  | Invalid msg => BadRequest msg
  | other => Internal other
  end.

Inductive Woke : Type :=
| Moved (run : Run)
| Done (r : TransitionResult).
Inductive Delivered : Type :=
| DWoke (w : Woke)
| DQueued (run : Run).

Definition state_details_of (r : Run) : Map := state_details (Model.run_state r).
Definition is_paused_run (r : Run) : bool := st_eqb (state_type (Model.run_state r)) Paused.
Definition wait_index (r : Run) : Z := default 0 (get_i64 "index" (state_details_of r)).
(** [details.get("match")], an object or nothing. *)
Definition wanted_of (r : Run) : Map :=
  default [] (and_then (map_get "match" (state_details_of r)) as_object).

Section waits.
Context `{StoreEnv, PoolEnv, ServerEnv, RowEnv, JinjaEnv} (ops : Ops).

(** ** Stored answers *)

(** Version 1 answers have no topic: they answer [wait_for_input]. *)
Definition migrate_answer (answer : Value) : Value :=
  match answer with
  | VObject m => if map_contains "topic" m then answer
                 else VObject (map_insert "topic" (VString "input") m)
  | _ => answer
  end.
Definition stored_answers (id : Z) (s : Store) : Map :=
  match kv_get (run_input_key id) s with
  | None => []
  | Some raw =>
      let value := default VNull (value_from_str raw) in
      match and_then (value_get "v" value) as_i64 with
      | Some v =>
          if (v =? 1) || (v =? 2) then
            let answers := default [] (and_then (value_get "answers" value) as_object) in
            if v =? 1 then (λ ka, (ka.1, migrate_answer ka.2)) <$> answers else answers
          else []
      | None => []
      end
  end.

Definition inherit_answer (holder : Z) (answers : Map) (ka : string * Value) : Map :=
  if map_contains ka.1 answers then answers
  else map_insert ka.1
         (match ka.2 with VObject m => VObject (map_insert "run_id" (num holder) m) | v => v end) answers.
Definition chain_answers (id : Z) (s : Store) : Map :=
  fold_left (λ answers holder, fold_left (inherit_answer holder) (stored_answers holder s) answers)
    (drop 1 (crash_chain id s)) (stored_answers id s).

(** ** Waking a run *)

(** Run under [ANSWER_LOCK]. *)
Definition with_answer_lock {A} (stuck : A) (f : App → App * A) (a : App) : App * A :=
  if answer_lock a then (halt Deadlock a, stuck)
  else let '(a, x) := f (set_answer_lock true a) in (set_answer_lock false a, x).

Definition resuming (now : Z) : State :=
  let s := State_new now Scheduled in
  mkState (state_type s) "Resuming" (state_message s) (state_details s) (state_timestamp s).

Definition wake_locked (run : Run) (input : Value) (a : App) : App * result Woke ApiError :=
  match get_flow (run_flow_id run) (store a) with
  | None => (a, Err (ApiNotFound "flow not found"))
  | Some flow =>
      let details := state_details_of run in
      let prompt := default VNull (map_get "prompt" details) in
      let topic := default VNull (map_get "topic" details) in
      let answer := VObject [("input", input); ("prompt", prompt); ("topic", topic)] in
      let answers := map_insert (dec (wait_index run)) answer (stored_answers (run_id run) (store a)) in
      let a := write_only (kv_set (clock a) (run_input_key (run_id run)) (answers_value answers)) a in
      match op_transition_run ops (run_id run) (resuming (clock a)) false a with
      | (a, Err e) => (a, Err (ApiError_from e))
      | (a, Ok (TAccepted run)) => (op_enqueue_run ops run flow None a, Ok (Done (TAccepted run)))
      | (a, Ok r) => (a, Ok (Done r))
      end
  end.

(** [input] sees the fresh row, may write, and may decline. *)
Definition wake_paused (observed : Run) (input : Run → App → App * option Value) (a : App)
    : App * result Woke ApiError :=
  with_answer_lock (Err (Unavailable "the answer lock is held")) (λ a,
    match get_run (run_id observed) (store a) with
    | None => (a, Err (ApiNotFound "run not found"))
    | Some run =>
        if negb (is_paused_run run)
           || negb (state_timestamp (Model.run_state run) =? state_timestamp (Model.run_state observed))
        then (a, Ok (Moved run))
        else match input run a with
             | (a, Some input) => wake_locked run input a
             | (a, None) => (a, Ok (Moved run))
             end
    end) a.
Definition answer_with (v : Value) (run : Run) (a : App) : App * option Value := (a, Some v).

(** The crash reruns a run of the flow gets (dispatch.rs). *)
Definition crash_limit (flow : Flow) (a : App) : Z :=
  default (crash_retries_default a) (fo_crash_retries (from_map (flow_options flow))).
Definition chain_continues (run : Run) (a : App) : bool :=
  st_eqb (state_type (Model.run_state run)) Crashed
  && match get_flow (run_flow_id run) (store a) with
     | Some flow => run_attempt run <? crash_limit flow a
     | None => false
     end.

Definition deliver_message (rid : Z) (topic : string) (payload : Value) (a : App)
    : App * result Delivered ApiError :=
  with_answer_lock (Err (Unavailable "the answer lock is held")) (λ a,
    if is_none (get_run rid (store a)) then (a, Err (ApiNotFound "run not found"))
    else
      match get_run (crash_chain_head rid (store a)) (store a) with
      | None => (a, Err (ApiNotFound "run not found"))
      | Some run =>
          if is_paused_run run && bool_decide (get_str "topic" (state_details_of run) = Some topic) then
            match wake_locked run payload a with
            | (a, Ok w) => (a, Ok (DWoke w))
            | (a, Err e) => (a, Err e)
            end
          else if is_terminal (state_type (Model.run_state run)) && negb (chain_continues run a) then
            (a, Err (Conflict (VObject [("error", VString "run is terminal")])))
          else
            match write (run_message_insert (clock a) (run_id run) topic (value_to_string payload)) a with
            | (a, Err e) => (a, Err (ApiError_from e))
            | (a, Ok _) => (a, Ok (DQueued run))
            end
      end) a.

(** ** A run just paused *)

Definition arm (run : Run) (a : App) : App :=
  if negb (is_paused_run run) then a
  else match get_i64 "wake_at" (state_details_of run) with
       | Some at_ => push_timer (Z.max at_ (clock a)) (WakeRun (run_id run)) a
       | None => a
       end.

Definition deliver_queued (run : Run) (a : App) : App :=
  if negb (is_paused_run run) || negb (map_contains "topic" (state_details_of run)) then a
  else start_task (DeliverQueued run) a.
(** Claim the message inside the lock, so only the pause it answers takes it. *)
Definition claim_input (run : Run) (a : App) : App * option Value :=
  match get_str "topic" (state_details_of run) with
  | None => (a, None)
  | Some topic =>
      let '(a, text) := write_ (run_message_claim (clock a) (run_id run) topic (wait_index run) true) a in
      match text with
      | None => (a, None)
      | Some text =>
          let answer := default (VString text) (value_from_str text) in
          (a, Some (default VNull (value_get "input" answer)))
      end
  end.
Definition deliver_queued_body (observed : Run) (a : App) : App := (wake_paused observed claim_input a).1.

Definition deliver_recorded_event (run : Run) (previous : option State) (a : App) : App :=
  if negb (is_paused_run run) || negb (state_name (Model.run_state run) =?s "AwaitingEvent") then a
  else match get_str "event" (state_details_of run) with
       | None => a
       | Some pattern =>
           let since := match previous with
                        | Some p => state_timestamp p
                        | None => state_timestamp (Model.run_state run)
                        end in
           start_task (DeliverRecorded run pattern since) a
       end.

Definition payload_matches (wanted payload : Map) : bool :=
  forallb (λ kw, match map_get kw.1 payload with
                 | Some have =>
                     value_eqb have kw.2
                     || match kw.2, have with
                        | VString s, VString _ => false
                        | VString s, _ => value_to_string have =?s s
                        | _, _ => false
                        end
                 | None => false
                 end) wanted.

(** The event an answer holds, if it answered a wait for one. *)
Definition answer_event_id (answer : Value) : option Z :=
  and_then (and_then (and_then (value_get "input" answer) (value_get "event")) (value_get "id")) as_i64.

Definition answers_wait (run : Run) (pattern : string) (since : Z) (chain answered : list Z) (e : Event)
    : bool :=
  (match ev_run_id e with Some id => bool_decide (id ∈ chain) | None => false end || (since <=? ev_occurred e))
  && name_matches pattern (ev_name e)
  && payload_matches (wanted_of run) (ev_payload e)
  && negb (bool_decide (ev_id e ∈ answered)).

Definition recorded_event (run : Run) (pattern : string) (since : Z) (a : App) : option Event :=
  let s := store a in
  let chain := crash_chain (run_id run) s in
  match and_then (last chain) (λ root, get_run root s) with
  | None => None
  | Some root =>
      let answered := omap (λ ka, answer_event_id ka.2) (chain_answers (run_id run) s) in
      find (answers_wait run pattern since chain answered)
        (events_between [pattern] (run_created_at root) (clock a) 1000 s)
  end.

Definition event_answer (e : Event) : Value := VObject [("event", event_to_value e)].
Definition deliver_recorded_body (observed : Run) (pattern : string) (since : Z) (a : App) : App :=
  match recorded_event observed pattern since a with
  | None => a
  | Some event => (wake_paused observed (answer_with (event_answer event)) a).1
  end.

(** ** Timers and events *)

Definition rearm_one (a : App) (active : ActiveRun) : App :=
  if negb (st_eqb (state_type (ar_state active)) Paused) then a
  else match get_run (ar_id active) (store a) with Some run => arm run a | None => a end.
Definition rearm_all (a : App) : App := fold_left rearm_one (ActiveIndex.active_runs (index a)) a.

Definition timeout_answer (now : Z) (run : Run) : Value :=
  match map_get "default" (state_details_of run) with
  | Some d => d
  | None =>
      let name := state_name (Model.run_state run) in
      if name =?s "AwaitingEvent" then VObject [("timeout", VBool true)]
      else if name =?s "AwaitingTarget" then
        VObject [("at", num now); ("poke", VBool true);
                 ("started_at", default VNull (map_get "started_at" (state_details_of run)))]
      else VObject [("at", num now); ("woke", VBool true)]
  end.

Definition on_timer (rid : Z) (a : App) : App :=
  match get_run rid (store a) with
  | None => a
  | Some run =>
      if negb (is_paused_run run) then a
      else if match get_i64 "wake_at" (state_details_of run) with
              | Some at_ => clock a + 1000 <? at_
              | None => false
              end then a
      else (wake_paused run (λ run a, (a, Some (timeout_answer (clock a) run))) a).1
  end.

(** An event arrived: one waiting run. *)
Definition wake_waiter (event : Event) (a : App) (rid : Z) : App :=
  match get_run rid (store a) with
  | None => a
  | Some run =>
      match get_str "event" (state_details_of run) with
      | None => a
      | Some pattern =>
          if negb (name_matches pattern (ev_name event)) then a
          else if negb (payload_matches (wanted_of run) (ev_payload event)) then a
          else (wake_paused run (answer_with (event_answer event)) a).1
      end
  end.
Definition on_event (event : Event) (a : App) : App :=
  if negb (has_event_waiters (index a)) then a
  else fold_left (wake_waiter event) (awaiting_event_ids (index a)) a.
End waits.
