(* ===== verification/Dispatch.v ===== *)
(** * Admission and what follows a transition (server/src/dispatch.rs)

    Overlap policies, resource needs, priority inheritance, crash chains, flow
    timeouts, disable windows and downstream flows, with the unique keys of
    server/src/api/runs.rs.

    A skip is carried down a chain of dependents at most [MAX_SKIP_DEPTH] deep,
    which is the fuel of [trigger_dependents_at]. *)

From S2P Require Import Prelude Float64 Json States Transitions Timer Schedules Model DepGraph Events Unique.
From S2P Require Import RuleMatching ActiveIndex Resources WorkQueue Pool GroupCommit Tables Store Reader.
From S2P Require Import StoreAdmin Integrity RuleReader App Scheduler Waits.
From Stdlib Require Import Ascii.

(** ** Text *)

Fixpoint strip_suffix (p s : string) : option string :=
  if s =?s p then Some EmptyString
  else match s with
       | String c s' => String c <$> strip_suffix p s'
       | EmptyString => None
       end.
(** [trim_end_matches] of a text: every pass is shorter. *)
Fixpoint trim_end_text (n : nat) (p s : string) : string :=
  match n with
  | O => s
  | S n' => match strip_suffix p s with
            | Some s' => trim_end_text n' p s'
            | None => s
            end
  end.
Definition is_digit_or_dash (c : ascii) : bool := is_some (digit c) || Ascii.eqb c "-"%char.
Fixpoint map_chars (f : ascii → ascii) (s : string) : string :=
  match s with
  | String c s' => String (f c) (map_chars f s')
  | EmptyString => EmptyString
  end.
Definition dash_for (c : ascii) : ascii :=
  if Ascii.eqb c ":"%char || Ascii.eqb c " "%char || Ascii.eqb c "/"%char then "-"%char else c.
Definition retry_name (crashed : Run) : string :=
  let base := trim_end_matches is_digit_or_dash (run_name crashed) in
  trim_end_text (str_len base) "-retry" base +:+ "-retry-" +:+ dec (run_attempt crashed + 1).

Definition flow_cap_resource (f : Flow) : string := "flow:" +:+ flow_project f +:+ "/" +:+ flow_name f.
Definition backfill_resource (b : Z) : string := "backfill:" +:+ dec b.
Definition STICKY_MICROS : Z := 10000000.
Definition CRASH_CHAIN_LOOKBACK_MICROS : Z := 24 * 3600 * 1000000.
Definition MAX_SKIP_DEPTH : nat := 32.

(** A state name (type or sub-state) that ends a run. *)
Definition name_is_terminal (name : string) : bool :=
  match StateType_parse name with
  | Some t => is_terminal t
  | None => bool_decide (name ∈ ["Cached"; "Replayed"; "Recovered"; "Skipped"; "TimedOut"])
  end.

(** ** Unique keys of a new run (api/runs.rs) *)

Record Idempotency : Type := mkIdempotency { idem_key : string; idem_ttl : option f64 }.

Section unique_checks.
Context `{StoreEnv, ServerEnv}.

(** [None] outside is the panic of [unique_key]. *)
Definition unique_check_for (now : Z) (flow : Flow) (parameters : Map) (idempotency : option Idempotency)
    : option (option UniqueCheck) :=
  match idempotency with
  | Some idem =>
      let ttl := default (f64_of_Z 86400) (idem_ttl idem) in
      Some (Some (mkUniqueCheck (idempotency_key (flow_id flow) (idem_key idem)) []
                    (Some (now - micros_of_secs ttl))))
  | None =>
      match fo_unique (from_map (flow_options flow)) with
      | None => Some None
      | Some spec =>
          let rendered := render_key value_to_string (uq_key spec) parameters in
          let check period states since :=
            (λ key, Some (mkUniqueCheck key states since)) <$> unique_key (flow_id flow) rendered period now in
          if uq_on_conflict spec =?s "debounce" then check None ["Scheduled"] None
          else if uq_on_conflict spec =?s "throttle" then
            check None []
              (Some (now - micros_of_secs (f64_max (default f64_zero (uq_period spec)) f64_zero)))
          else check (uq_period spec) (counting_states spec) None
      end
  end.

Definition debounce_start (now : Z) (spec : UniqueSpec) : option Z :=
  if uq_on_conflict spec =?s "debounce"
  then Some (now + micros_of_secs (f64_max (default f64_zero (uq_debounce spec)) f64_zero)) else None.
End unique_checks.

(** A run skipped by a person, or because its upstream was. *)
Definition carries_skip (run : Run) : bool :=
  (state_name (Model.run_state run) =?s "Skipped")
  && match get_str "reason" (state_details (Model.run_state run)) with
     | Some t => (t =?s "user") || (t =?s "upstream")
     | None => false
     end.

(** A parameter template of [after=]. *)
Definition render_template (template : string) (run : Run) : Value :=
  match and_then (strip_prefix "{{" (trim template)) (strip_suffix "}}") with
  | Some inner =>
      let path := trim inner in
      match strip_prefix "run.parameters." path with
      | Some key => default VNull (map_get key (run_parameters run))
      | None =>
          if path =?s "run.id" then num (run_id run)
          else if path =?s "run.name" then VString (run_name run)
          else if path =?s "run.external_id" then VString (run_external_id run)
          else VString template
      end
  | None => VString template
  end.

Section dispatch.
Context `{StoreEnv, PoolEnv, ServerEnv, ScheduleEnv, ReaderEnv, RowEnv} (ops : Ops).

Definition options_of (flow : Flow) : FlowOptions := from_map (flow_options flow).

(** ** Admission *)

Definition run_needs (flow : Flow) (options : FlowOptions) (run : Run) (a : App) : list (string * f64) :=
  let needs := (λ na, (Unique.render_template value_to_string na.1 (run_parameters run), na.2))
               <$> resource_amounts options in
  let needs := fold_left (λ needs tag,
                 let name := "tag:" +:+ tag in
                 if resource_declared name (supervisor a) && negb (existsb (λ n, n.1 =?s name) needs)
                 then needs ++ [(name, f64_one)] else needs) (run_tags run) needs in
  let needs := match fo_max_concurrent options with
               | Some cap => if 0 <? cap then needs ++ [(flow_cap_resource flow, f64_one)] else needs
               | None => needs
               end in
  match run_backfill_id run with
  | Some b => needs ++ [(backfill_resource b, f64_one)]
  | None => needs
  end.

Definition effective_priority (flow : Flow) (run : Run) (a : App) : App * Z :=
  let '(a, g) := dep_graph a in
  (a, match g !! flow_id flow with
      | Some d => Z.max (run_priority run) (dep_max_priority d)
      | None => run_priority run
      end).

Definition request_cancel (inst : Z) (r : ActiveRun) : ActiveRun :=
  mkActiveRun (ar_id r) (ar_flow_id r) (ar_name r) (ar_state r) (ar_engine_pid r) (ar_engine_id r)
    (ar_last_heartbeat r) true (or_else (ar_cancelling_since r) (Some inst)) (ar_terminated_at r)
    (ActiveIndex.ar_key r) (ar_adopted r).

(** One other run of the flow makes way. *)
Definition supersede_one (flow : Flow) (new_run : Run) (a : App) (other : ActiveRun) : App :=
  let message := "superseded by run " +:+ dec (run_id new_run) in
  if negb (ar_flow_id other =? flow_id flow) || (ar_id other =? run_id new_run)
     || State_is_terminal (ar_state other) then a
  else if st_eqb (state_type (ar_state other)) Running || is_some (ar_engine_pid other) then
    let a := (op_transition_run ops (ar_id other)
                (with_message (State_new (clock a) Cancelling) message) false a).1 in
    on_index (λ x, (ActiveIndex.update (ar_id other) (request_cancel (instant a)) x).1) a
  else
    let a := on_supervisor (λ s, (dequeue (ar_id other) s).1) a in
    let a := App.on_timer (remove_run_events (ar_id other)) a in
    (op_transition_run ops (ar_id other) (with_message (State_new (clock a) Cancelled) message) false a).1.
Definition supersede (flow : Flow) (new_run : Run) (a : App) : App :=
  fold_left (supersede_one flow new_run) (ActiveIndex.active_runs (index a)) a.

(** Another run of the flow waits to start. *)
Definition one_waits (flow : Flow) (run : Run) (a : App) : bool :=
  existsb (λ r, (ar_flow_id r =? flow_id flow) && negb (ar_id r =? run_id run)
                && negb (st_eqb (state_type (ar_state r)) Running) && is_none (ar_engine_pid r)
                && negb (State_is_terminal (ar_state r))) (ActiveIndex.active_runs (index a)).

Definition skip_run (flow : Flow) (run : Run) (s : State) (reason : string) (a : App) : App :=
  let a := (op_transition_run ops (run_id run) s false a).1 in
  record_engine_event ops RunSkipped (Some (run_id run)) (Some (flow_id flow))
    [("reason", VString reason)] a.

(** The overlap policy of a full flow; [true] says the run may be queued. *)
Definition overlap (flow : Flow) (run : Run) (policy : string) (a : App) : App * bool :=
  if policy =?s "skip" then
    (skip_run flow run (with_message (State_named (clock a) Skipped) "previous run still active")
       "previous run still active" a, false)
  else if policy =?s "cancel_new" then
    ((op_transition_run ops (run_id run)
        (with_message (State_new (clock a) Cancelled) "previous run still active") false a).1, false)
  else if policy =?s "cancel_old" then (supersede flow run a, true)
  else if policy =?s "buffer_one" then
    if one_waits flow run a then
      (skip_run flow run
         (with_detail (with_message (State_named (clock a) Skipped) "a run is already queued")
            "reason" (VString "buffered")) "buffered" a, false)
    else (a, true)
  else (a, true).

(** The cap of the flow, and its overlap policy when it is full. *)
Definition admission (flow : Flow) (options : FlowOptions) (run : Run) (a : App) : App * bool :=
  match fo_max_concurrent options with
  | Some cap =>
      if 0 <? cap then
        let name := flow_cap_resource flow in
        let a := on_supervisor (set_total name (f64_of_Z cap)) a in
        if available name f64_one (supervisor a) then (a, true)
        else overlap flow run (fo_on_overlap options) a
      else (a, true)
  | None => (a, true)
  end.

Definition previous_host (run : Run) (a : App) : option string :=
  or_else (run_host run)
    (and_then (and_then (run_parent_run_id run) (λ p, get_run p (store a))) run_host).

Definition with_nice (nice : Z) (k : EngineKey) : EngineKey :=
  mkEngineKey (ek_source_dir k) (ek_module k) (ek_isolated k) nice.

Definition queue_run (flow : Flow) (options : FlowOptions) (run : Run) (not_before : option Z) (a : App)
    : App :=
  let a := match run_backfill_id run with
           | Some b =>
               match get_backfill b (store a) with
               | Some bf => on_supervisor (set_total (backfill_resource b) (f64_of_Z (Z.max (bf_concurrency bf) 1))) a
               | None => a
               end
           | None => a
           end in
  let a := match run_schedule_id run, opt_filter (f64_lt f64_zero) (fo_start_deadline options) with
           | None, Some seconds =>
               push_timer (run_created_at run + micros_of_secs seconds) (StartDeadline (run_id run)) a
           | _, _ => a
           end in
  let '(a, priority) := effective_priority flow run a in
  let a := if priority =? run_priority run then a
           else write_only (set_run_priority (run_id run) priority) a in
  let prefer := opt_filter (λ _, may_run_remotely options)
                  (and_then (opt_filter (λ h, negb (h =?s "server")) (previous_host run a))
                     (λ h, worker_id h (supervisor a))) in
  let a := on_supervisor (enqueue
             {| q_run_id := run_id run; q_key := with_nice (nice_for priority) (from_flow flow);
                q_priority := priority; q_order := default (run_created_at run) (run_scheduled_time run);
                q_needs := run_needs flow options run a; q_not_before := not_before;
                q_flow_id := flow_id flow; q_remote_ok := may_run_remotely options;
                q_prefer_worker := prefer; q_prefer_until := clock a + STICKY_MICROS |}) a in
  App.ensure_capacity a.

Definition enqueue_run (run : Run) (flow : Flow) (not_before : option Z) (a : App) : App :=
  if State_is_terminal (Model.run_state run) then a
  else
    let options := options_of flow in
    let '(a, ok) := admission flow options run a in
    if ok then queue_run flow options run not_before a else a.
(** ** Backfills *)

Definition backfill_marker (b : Z) : string := "backfill.completed:" +:+ dec b.
(** The runs of a backfill that have not ended. *)
Definition backfill_pending (counts : list (string * Z)) : Z :=
  foldr (λ sn n, sn.2 + n) 0 (List.filter (λ sn, negb (name_is_terminal sn.1)) counts).

Definition backfill_completed (b fid : Z) (a : App) : App :=
  match newest_backfill_run_state b (store a) with
  | None => a
  | Some newest =>
      if negb (name_is_terminal newest) then a
      else
        let counts := backfill_counts b (store a) in
        if (0 <? backfill_pending counts) || match counts with [] => true | _ => false end then a
        else if bool_decide (b ∈ backfill_emitted a) || is_some (kv_get (backfill_marker b) (store a)) then a
        else
          let a := set_backfill_emitted ({[b]} ∪ backfill_emitted a) a in
          let a := write_only (kv_set (clock a) (backfill_marker b) "1") a in
          let by_state := fold_left (λ m sn, map_insert sn.1 (num sn.2) m) counts [] in
          record_engine_event ops BackfillCompleted None (Some fid)
            [("backfill_id", num b); ("counts", VObject by_state)] a
  end.

(** ** Crash chains *)

Definition crash_delay_millis (a : App) : Z :=
  if fast_crash_rerun a then 200 else 5000 + Z.abs (clock a) mod 10000.

Definition crash_run (rid : Z) (message : string) (a : App) : App :=
  match get_run rid (store a) with
  | None => a
  | Some run =>
      match get_flow (run_flow_id run) (store a) with
      | None => a
      | Some flow =>
          let limit := crash_limit flow a in
          let a := (write_ (bump_lease rid) a).1 in
          if run_attempt run <? limit then
            let '(a, r) := op_transition_run ops rid
                             (with_message (State_new (clock a) Crashed) message) false a in
            if accepted r then
              let a := push_timer (clock a + crash_delay_millis a * 1000) (CrashRerun rid) a in
              if fo_has_crash_hooks (options_of flow) then
                App.ensure_capacity (on_supervisor (enqueue_job (from_flow flow)
                  (VObject [("kind", VString "hooks"); ("run_id", num rid); ("state", VString "Crashed")])) a)
              else a
            else a
          else
            (op_transition_run ops rid
               (with_detail (with_message (State_new (clock a) Failed) "crash limit reached")
                  "crash" (VString message)) false a).1
      end
  end.

Definition rearm_crash_chain (a : App) (rid : Z) : App :=
  match get_run rid (store a) with
  | None => a
  | Some run =>
      match get_flow (run_flow_id run) (store a) with
      | None => a
      | Some flow =>
          if run_attempt run <? crash_limit flow a
          then push_timer (clock a + 200000) (CrashRerun rid) a else a
      end
  end.
Definition rearm_crash_chains (a : App) : App :=
  fold_left rearm_crash_chain
    (crashed_without_rerun (clock a - CRASH_CHAIN_LOOKBACK_MICROS) (store a)) a.

Definition crash_rerun (crashed_id : Z) (a : App) : App :=
  match get_run crashed_id (store a) with
  | None => a
  | Some crashed =>
      if negb (st_eqb (state_type (Model.run_state crashed)) Crashed)
         || has_child_run crashed_id (store a) then a
      else
        match get_flow (run_flow_id crashed) (store a) with
        | None => a
        | Some flow =>
            match write (create_run (clock a)
                    {| cr_flow_id := flow_id flow; cr_name := retry_name crashed;
                       cr_parameters := map_to_string (run_parameters crashed);
                       cr_tags := strings_to_string (run_tags crashed);
                       cr_created_by := "crash:" +:+ dec crashed_id;
                       cr_initial_state := Some (State_new (clock a) Scheduled);
                       cr_schedule_id := run_schedule_id crashed; cr_scheduled_time := None;
                       cr_priority := run_priority crashed; cr_parent_run_id := Some crashed_id;
                       cr_attempt := run_attempt crashed + 1; cr_backfill_id := run_backfill_id crashed;
                       cr_unique := None |}) a with
            | (a, Err _) => a
            | (a, Ok (rid, _)) =>
                match get_run rid (store a) with
                | None => a
                | Some run =>
                    let a := on_index (ActiveIndex.insert_run (instant a) run (from_flow flow) false) a in
                    enqueue_run run flow None (run_created ops run a)
                end
            end
        end
  end.

(** ** Timeouts and disable windows *)

Definition flow_timeout (rid : Z) (a : App) : App :=
  match ActiveIndex.get rid (index a) with
  | None => a
  | Some active =>
      if negb (st_eqb (state_type (ar_state active)) Running) then a
      else
        match get_run rid (store a) with
        | None => a
        | Some run =>
            match get_flow (run_flow_id run) (store a) with
            | None => a
            | Some flow =>
                let secs := default f64_zero (fo_timeout_seconds (options_of flow)) in
                let '(a, r) := op_transition_run ops rid
                    (with_message (State_named (clock a) TimedOut)
                       ("timed out after " +:+ f64_display secs +:+ " s")) false a in
                if negb (accepted r) then a
                else
                  match of_engine <$> ar_engine_id active, ar_engine_pid active with
                  | Some (Worker wid), _ =>
                      on_supervisor (command_worker wid
                        (VObject [("cmd", VString "cancel");
                                  ("engine_id", opt_value VString (ar_engine_id active));
                                  ("run_id", num rid)])) a
                  | _, Some pid => start_task (KillAfterGrace pid) (emit (Terminate pid) a)
                  | _, None => a
                  end
            end
        end
  end.

Definition disable_one (until : Z) (ap : App * bool) (row : ScheduleRow) : App * bool :=
  if sr_active row then (pause_schedule ops (sr_id row) (Some "disabled") (Some until) ap.1, true) else ap.

Definition disable_window (flow : Flow) (run : Run) (a : App) : App :=
  match fo_disable_after (options_of flow) with
  | None => a
  | Some (count, window, persist) =>
      if count <=? 0 then a
      else
        let now := clock a in
        let window_micros := match window with
                             | Some w => i64_mul (Z.max w 1) 1000000
                             | None => i64_MAX
                             end in
        let '(s, n) := record_failure (flow_id flow) now window_micros (supervisor a) in
        let a := set_supervisor s a in
        if n <? count then a
        else
          let until := i64_add now (i64_mul (Z.max persist 1) 1000000) in
          let '(a, paused_any) :=
            fold_left (disable_one until) (for_flow (flow_id flow) (schedules a)) (a, false) in
          if paused_any then
            let a := push_timer until (ResumeFlow (flow_id flow)) a in
            let a := record_engine_event ops FlowDisabled (Some (run_id run)) (Some (flow_id flow))
                       [("failures", num n); ("until", num until);
                        ("window_seconds", opt_value num window)] a in
            on_supervisor (clear_failures (flow_id flow)) a
          else a
  end.

(** ** Downstream flows *)

Definition debounce_holder (holder : Run) (parameters : Map) (spec : UniqueSpec) (a : App) : App * Run :=
  if negb (st_eqb (state_type (Model.run_state holder)) Scheduled) || is_some (run_engine_pid holder)
  then (a, holder)
  else
    match debounce_start (clock a) spec with
    | None => (a, holder)
    | Some at_ =>
        let at_ := match opt_filter (f64_lt f64_zero) (uq_max_wait spec) with
                   | Some cap => Z.min at_ (run_created_at holder + micros_of_secs cap)
                   | None => at_
                   end in
        match write (reschedule_run (run_id holder) at_ (map_to_string parameters)) a with
        | (a, Ok true) =>
            let a := arm_run (run_id holder) at_ false a in
            match get_run (run_id holder) (store a) with
            | Some updated => (publish_run updated a, updated)
            | None => (a, holder)
            end
        | (a, _) => (a, holder)
        end
    end.

(** The text a batch key is compared by. *)
Definition batch_text (value : Value) : string :=
  match value with VString s => s | other => value_to_string other end.

(** Every upstream's latest run of the batch has completed: their ids and
    whether one carries a skip. *)
Fixpoint fan_in_runs (latest : gmap Z (option LatestRunMark)) (ups : list Z) (skip : bool)
    : option (list Z * bool) :=
  match ups with
  | [] => Some ([], skip)
  | up :: ups' =>
      match latest !! up with
      | Some (Some m) =>
          if mark_is_complete m
          then (λ r, (lm_id m :: r.1, r.2)) <$> fan_in_runs latest ups' (skip || mark_carries_skip m)
          else None
      | _ => None
      end
  end.

(** The upstream flows by name, when all of them exist. *)
Fixpoint resolve_upstreams (project : string) (names : list string) (s : Store) : option (list Z) :=
  match names with
  | [] => Some []
  | name :: names' =>
      match get_flow_by_key project name s with
      | Some up => cons (flow_id up) <$> resolve_upstreams project names' s
      | None => None
      end
  end.

(** The fan-in of a keyed dependency: [None] when the batch is not ready, is
    not named by the run, or has its run already. *)
Definition fan_in (downstream : Flow) (after : AfterSpec) (key : string) (run : Run) (s : Store)
    : option (Map * bool) :=
  match map_get key (run_parameters run) with
  | None => None
  | Some value =>
      let text := batch_text value in
      match resolve_upstreams (flow_project downstream) (upstreams after) s with
      | None => None
      | Some ups =>
          match latest_run_with_param_many ups key text s with
          | Err _ => None
          | Ok latest =>
              match fan_in_runs latest ups (carries_skip run) with
              | None => None
              | Some (upstream_runs, skip) =>
                  match latest_run_with_param (flow_id downstream) key text s with
                  | Ok (Some _) => None
                  | _ => Some ([("flow", VString (flow_name downstream)); ("key", VString key);
                                ("project", VString (flow_project downstream));
                                ("upstream_runs", VArray (num <$> upstream_runs)); ("value", value)], skip)
                  end
              end
          end
      end
  end.

Definition schema_properties (f : Flow) : Map :=
  default [] (and_then (value_get "properties" (flow_parameter_schema f)) as_object).
(** The parameters of a downstream run: the upstream's of the same name, the
    declared ones, and the defaults of the rest. *)
Definition downstream_params (downstream : Flow) (after : AfterSpec) (run : Run) : Map :=
  let props := schema_properties downstream in
  let params := fold_left (λ m kp, match map_get kp.1 (run_parameters run) with
                                   | Some v => map_insert kp.1 v m
                                   | None => m
                                   end) props [] in
  let params := fold_left (λ m kt, map_insert kt.1
                                     (match as_str kt.2 with Some t => render_template t run | None => kt.2 end) m)
                  (after_parameters after) params in
  fold_left (λ m kp, if map_contains kp.1 m then m
                     else match value_get "default" kp.2 with
                          | Some d => map_insert kp.1 d m
                          | None => m
                          end) props params.

Definition downstream_name (downstream : Flow) (after : AfterSpec) (event : option Map) (run : Run) : string :=
  match after_key after, event with
  | Some key, Some ev =>
      flow_name downstream +:+ "-" +:+ key +:+ "-"
      +:+ map_chars dash_for (match map_get "value" ev with Some v => batch_text v | None => EmptyString end)
  | _, _ => flow_name downstream +:+ "-after-" +:+ run_name run
  end.

Definition downstream_state (now : Z) (skip : bool) (run : Run) : State :=
  if skip then
    with_detail (with_detail (with_message (State_named now Skipped)
                                ("upstream run " +:+ run_name run +:+ " was skipped"))
                   "reason" (VString "upstream")) "upstream_run" (num (run_id run))
  else State_new now Scheduled.

(** Create the downstream's run, unless a run holds its key. *)
Definition create_downstream (downstream : Flow) (after : AfterSpec) (event : option Map) (skip : bool)
    (run : Run) (a : App) : App * option Run :=
  let params := downstream_params downstream after run in
  let opts := options_of downstream in
  match unique_check_for (clock a) downstream params None with
  | None => (halt Panicked a, None)
  | Some check =>
      let unique := match check with
                    | Some c => Some c
                    | None => (λ key, mkUniqueCheck key [] None)
                              <$> unique_key (flow_id downstream) ("dep:" +:+ dec (run_id run)) None 0
                    end in
      match write (create_run (clock a)
              {| cr_flow_id := flow_id downstream;
                 cr_name := downstream_name downstream after event run;
                 cr_parameters := map_to_string params; cr_tags := strings_to_string (flow_tags downstream);
                 cr_created_by := "run:" +:+ dec (run_id run);
                 cr_initial_state := Some (downstream_state (clock a) skip run); cr_schedule_id := None;
                 cr_scheduled_time := None; cr_priority := fo_priority opts; cr_parent_run_id := None;
                 cr_attempt := 0; cr_backfill_id := None; cr_unique := unique |}) a with
      | (a, Err (UniqueConflict existing)) =>
          match opt_filter (λ u, uq_on_conflict u =?s "debounce") (fo_unique opts),
                get_run existing (store a) with
          | Some spec, Some holder => ((debounce_holder holder params spec a).1, None)
          | _, _ => (a, None)
          end
      | (a, Err _) => (a, None)
      | (a, Ok (rid, _)) => (a, get_run rid (store a))
      end
  end.

(** One dependent; [deeper] follows a skip while the depth allows it. *)
Definition trigger_one (deeper : option (Flow → Run → App → App)) (upstream : Flow) (run : Run)
    (a : App) (id : Z) : App :=
  match get_flow id (store a) with
  | None => a
  | Some downstream =>
      match fo_after (options_of downstream) with
      | None => a
      | Some after =>
          if negb (depends_on after (flow_name upstream)) || is_some (flow_error downstream) then a
          else
            match (match after_key after with
                   | Some key => (λ r, (Some r.1, r.2)) <$> fan_in downstream after key run (store a)
                   | None => Some (None, carries_skip run)
                   end) with
            | None => a
            | Some (event, skip) =>
                match create_downstream downstream after event skip run a with
                | (a, None) => a
                | (a, Some new_run) =>
                    let a := on_index (ActiveIndex.insert_run (instant a) new_run (from_flow downstream) false) a in
                    let a := run_created ops new_run a in
                    let a := match event with
                             | Some ev =>
                                 record_engine_event ops FlowFanIn (Some (run_id new_run))
                                   (Some (flow_id downstream))
                                   (map_insert "run_id" (num (run_id new_run)) ev) a
                             | None => a
                             end in
                    if skip then match deeper with Some follow => follow downstream new_run a | None => a end
                    else enqueue_run new_run downstream None a
                end
            end
      end
  end.

Fixpoint trigger_dependents_at (left : nat) (upstream : Flow) (run : Run) (a : App) : App :=
  let '(a, g) := dep_graph a in
  match g !! flow_id upstream with
  | None => a
  | Some d =>
      fold_left (trigger_one match left with O => None | S n => Some (trigger_dependents_at n) end
                   upstream run) (dep_ids d) a
  end.
Definition trigger_dependents (upstream : Flow) (run : Run) (a : App) : App :=
  trigger_dependents_at MAX_SKIP_DEPTH upstream run a.

(** ** After a transition *)

Definition start_timeout (flow : Flow) (run : Run) (previous : option State) (a : App) : App :=
  if match previous with Some p => st_eqb (state_type p) Running | None => false end then a
  else match opt_filter (f64_lt f64_zero) (fo_timeout_seconds (options_of flow)) with
       | Some t => push_timer (clock a + micros_of_secs t) (FlowTimeout (run_id run)) a
       | None => a
       end.
Definition forgive (flow : Flow) (a : App) : App :=
  match fo_disable_after (options_of flow) with
  | Some (_, None, _) => on_supervisor (clear_failures (flow_id flow)) a
  | _ => a
  end.
(** The next run of a continuous schedule. *)
Definition continue_loop (run : Run) (a : App) : App :=
  match run_schedule_id run with
  | Some sid =>
      match schedules a !! sid with
      | Some row => if sr_active row && is_continuous (sr_schedule row) then materialize ops sid a else a
      | None => a
      end
  | None => a
  end.

Definition after_transition (run : Run) (previous : option State) (a : App) : App :=
  match get_flow (run_flow_id run) (store a) with
  | None => a
  | Some flow =>
      let t := state_type (Model.run_state run) in
      let a := match t with
               | Running => start_timeout flow run previous a
               | Failed => disable_window flow run a
               | Completed => trigger_dependents flow run (forgive flow a)
               | Paused => deliver_recorded_event run previous (deliver_queued run (arm run a))
               | _ => a
               end in
      let a := match t with
               | Completed | Failed | Cancelled => continue_loop run a
               | _ => a
               end in
      if State_is_terminal (Model.run_state run) then
        match run_backfill_id run with
        | Some b => backfill_completed b (run_flow_id run) a
        | None => a
        end
      else a
  end.
End dispatch.
