(* ===== verification/RulesEngine.v ===== *)
(** * The rules engine (server/src/rules.rs)

    Candidate rules for an event, expectations armed and disarmed by events,
    guards, the firing of rules with their outcomes, clock ticks and lapses.

    A firing runs on a thread of its own: the tasks [FireRules] and
    [FireLapsed], with the bodies [fire_rules] and [fire_lapsed].  Webhooks,
    mails and calls of code are [external_action]; [action_slow] says that an
    action took longer than its ten seconds, so that its outcome is a timeout
    whatever it did. *)

From S2P Require Import Prelude Float64 Json States Transitions Timer Schedules Model DepGraph Events Unique.
From S2P Require Import RuleMatching RuleTemplates ActiveIndex Resources WorkQueue Pool GroupCommit Tables.
From S2P Require Import Store Reader StoreAdmin Integrity RuleReader Validate App Scheduler Waits Dispatch.
From Stdlib Require Import Ascii.

Inductive ActionError : Type :=
| AText (msg : string)
| AStore (e : StoreError)
| AParam (e : ParamError)
| ARender (e : RenderError).

Class ActionEnv : Type := {
  external_action : RuleAction → Event → RunContext → result Value ActionError;
  action_slow : RuleAction → Event → bool;
  (** the text of an error *)
  error_text : ActionError → string;
}.

Definition CLOCK_LAST_PREFIX : string := "rules.clock_last:".
Definition clock_last_key (rule_id : Z) : string := CLOCK_LAST_PREFIX +:+ dec rule_id.

Definition clock_schedule (rule : RuleRow) : option Schedule :=
  (λ c, Cron (rc_cron c) (rc_tz c) true) <$> rs_at (rr_spec rule).

(** ** The rules in memory *)

Definition set_rules (l : list RuleRow) (r : RulesState) : RulesState :=
  mkRulesState l (rule_index r) (guards r) (clock_last r).
Definition set_rule_index (x : RuleIndex) (r : RulesState) : RulesState :=
  mkRulesState (rules r) x (guards r) (clock_last r).
Definition set_guards (g : gmap Z GuardState) (r : RulesState) : RulesState :=
  mkRulesState (rules r) (rule_index r) g (clock_last r).
Definition set_clock_last (m : gmap Z Z) (r : RulesState) : RulesState :=
  mkRulesState (rules r) (rule_index r) (guards r) m.
Definition on_rules (f : RulesState → RulesState) (a : App) : App := set_rules_state (f (rules_state a)) a.

Definition get_cached_rule (id : Z) (a : App) : option RuleRow :=
  find (λ r, rr_id r =? id) (rules (rules_state a)).
Definition with_counters (n : Z) (last_ : option Z) (r : RuleRow) : RuleRow :=
  mkRuleRow (rr_id r) (rr_external_id r) (rr_name r) (rr_enabled r) (rr_source r) (rr_module r) (rr_spec r)
    n last_ (rr_created_at r) (rr_updated_at r).
(** The first rule with the id. *)
Fixpoint update_first (id n : Z) (last_ : option Z) (l : list RuleRow) : list RuleRow :=
  match l with
  | [] => []
  | r :: l' => if rr_id r =? id then with_counters n last_ r :: l' else r :: update_first id n last_ l'
  end.
Definition update_counters (id n : Z) (last_ : option Z) (a : App) : App :=
  on_rules (λ r, set_rules (update_first id n last_ (rules r)) r) a.

(** The key of an expectation: the event's run, else its flow. *)
Definition expectation_key (event : Event) (ctx : RunContext) : option (string * option Z * option Z) :=
  match rc_run ctx with
  | Some run => Some ("run:" +:+ dec (run_id run), Some (run_id run), Some (run_flow_id run))
  | None =>
      (λ fid, ("flow:" +:+ dec fid, None, Some fid)) <$> or_else (flow_id <$> rc_flow ctx) (ev_flow_id event)
  end.

(** [binary_search] of a sorted list. *)
Definition is_candidate (cs : list Z) (id : Z) : bool := bool_decide (id ∈ cs).

Definition or_null {A} (f : A → Value) (o : option A) : Value := opt_value f o.
Definition rule_resource (rule : RuleRow) : Resource := mkResource "rule" (dec (rr_id rule)) (rr_name rule).
Definition strings (l : list string) : Value := VArray (VString <$> l).

Section rules_engine.
Context `{StoreEnv, PoolEnv, ServerEnv, ScheduleEnv, ReaderEnv, RowEnv, JinjaEnv, ActionEnv} (ops : Ops).

(** ** Loading *)

Definition schedule_clock (a : App) (rule : RuleRow) : App :=
  match clock_schedule rule with
  | None => a
  | Some schedule =>
      if has_rule_clock (rr_id rule) (timer a) then a
      else match next_after (clock a) schedule (clock a) with
           | Ok (Some next) => push_timer next (Timer.RuleClock (rr_id rule)) a
           | _ => a
           end
  end.
Definition load (a : App) : App :=
  let rs := list_rules (store a) in
  let a := on_rules (λ r, set_rules rs (set_rule_index (RuleIndex_build rs) r)) a in
  fold_left schedule_clock (List.filter (λ r, rr_enabled r && is_clock_armed (rr_spec r)) rs) a.

Definition restore_clock (a : App) (rule : RuleRow) : App :=
  if negb (rr_enabled rule) || negb (is_clock_armed (rr_spec rule)) then a
  else match and_then (kv_get (clock_last_key (rr_id rule)) (store a)) parse_i64 with
       | Some last_ => on_rules (λ r, set_clock_last (<[rr_id rule := last_]> (clock_last r)) r) a
       | None => a
       end.
Definition start (a : App) : App :=
  let now := clock a in
  let a := fold_left (λ a e, push_timer (Z.max (ex_deadline e) now) (Timer.Expectation (ex_id e)) a)
             (open_expectations (store a)) a in
  fold_left restore_clock (rules (rules_state a)) a.

Definition cancel_expectations (rule_id : Z) (a : App) : App :=
  App.on_timer (remove_rule_clock rule_id) (write_ (cancel_rule_expectations rule_id) a).1.

(** ** The context of an event *)

Definition context_for (event : Event) (a : App) : RunContext :=
  let s := store a in
  let run := and_then (ev_run_id event) (λ id, get_run id s) in
  let flow := and_then (or_else (run_flow_id <$> run) (ev_flow_id event)) (λ id, get_flow id s) in
  let chain_root := and_then (opt_filter (λ r, starts_with (run_created_by r) "crash:") run)
                      (λ r, last (crash_chain (run_id r) s)) in
  let result := and_then (opt_filter (λ r, starts_with (ev_name event) "run."
                                           && State_is_terminal (Model.run_state r)) run)
                  (λ r, (λ text, default (VString text) (value_from_str text))
                        <$> task_state_get (run_id r) EmptyString "result" s) in
  mkRunContext run flow chain_root result.

Definition loop_count (rule : RuleRow) (run : Run) (a : App) : Z :=
  Z.of_nat (length (List.filter (λ ib, ib.2 =?s "rule:" +:+ dec (rr_id rule))
                      (run_ancestors (run_id run) (store a)))).

Definition run_url (rid : Z) : string :=
  let base := default public_url config_public_url in
  trim_end_matches (λ c, Ascii.eqb c "/"%char) base +:+ "/runs/" +:+ dec rid.
Definition insert_in (k : string) (v : Value) (o : Value) : Value :=
  match o with VObject m => VObject (map_insert k v m) | o => o end.
Definition template_context_for (event : Event) (ctx : RunContext) : Value :=
  let t := template_context event ctx in
  match rc_run ctx, value_get "run" t with
  | Some run, Some (VObject m) =>
      insert_in "run" (VObject (map_insert "url" (VString (run_url (run_id run))) m)) t
  | _, _ => t
  end.
Definition with_loop (rounds : Z) (t : Value) : Value := insert_in "loop" (VObject [("count", num rounds)]) t.

(** ** Expectations *)

Definition disarm (rule : RuleRow) (key : string) (at_ : Z) (a : App) : App :=
  let '(a, met) := write_ (disarm_expectations (rr_id rule) key at_) a in
  fold_left (λ a id, emit (PubExpectation ExpectationMet id (rr_id rule)) a) met a.

Definition arm_one (rule : RuleRow) (key : string) (rid fid : option Z) (at_ : Z) (a : App) : App :=
  let deadline := at_ + micros_of_secs (default f64_zero (rs_within (rr_spec rule))) in
  match write (arm_expectation (mkArmExpectation (rr_id rule) key rid fid at_ deadline)) a with
  | (a, Ok id) => emit (PubExpectation ExpectationArmed id (rr_id rule)) (push_timer deadline (Timer.Expectation id) a)
  | (a, Err _) => a
  end.

Definition track_rule (event : Event) (ctx : RunContext) (key : string) (rid fid : option Z)
    (a : App) (rule : RuleRow) : App :=
  match rs_unless (rr_spec rule) with
  | None => a
  | Some unless =>
      let a := if matches unless event ctx then disarm rule key (ev_occurred event) a else a in
      if is_some (rs_at (rr_spec rule)) then a
      else if negb (matches (rs_when (rr_spec rule)) event ctx) then a
      else if match rc_run ctx with Some run => self_trigger rule run | None => false end then a
      else arm_one rule key rid fid (ev_occurred event) a
  end.

Definition track_expectations (event : Event) (ctx : RunContext) (cs : list Z) (a : App) : App :=
  match expectation_key event ctx with
  | None => a
  | Some (key, rid, fid) =>
      fold_left (track_rule event ctx key rid fid)
        (List.filter (λ r, is_candidate cs (rr_id r) && rr_enabled r && is_proactive (rr_spec r))
           (rules (rules_state a))) a
  end.

(** The guard of a rule for one occasion: whether it fires, recorded if so. *)
Definition pass_guards (rule : RuleRow) (event : Event) (ctx : RunContext) (a : App) : App * bool :=
  let g := default GuardState_default (guards (rules_state a) !! rr_id rule) in
  match check_guards rule event ctx g (clock a) with
  | RuleMatching.Fire =>
      (on_rules (λ r, set_guards (<[rr_id rule := GuardState_record (guard_run ctx) (clock a) g]> (guards r)) r) a,
       true)
  | GSkip _ => (on_rules (λ r, set_guards (<[rr_id rule := g]> (guards r)) r) a, false)
  end.

(** The event a guard sees for a lapse. *)
Definition lapse_probe (rule : RuleRow) (ctx : RunContext) (now : Z) : Event :=
  mkEvent 0 0 EmptyString (EventName_as_str ExpectationLapsed) now (rule_resource rule) []
    (run_id <$> rc_run ctx) (flow_id <$> rc_flow ctx) [].
Definition lapse_payload (rule : RuleRow) (ctx : RunContext) (exp : option Expectation) (now : Z) : Map :=
  [("armed_at", or_null num (ex_armed_at <$> exp));
   ("deadline", num (match exp with Some e => ex_deadline e | None => now end));
   ("expectation_id", or_null num (ex_id <$> exp));
   ("expected", strings (rm_events (default RuleMatch_default (rs_unless (rr_spec rule)))));
   ("flow", or_null VString (flow_name <$> rc_flow ctx));
   ("project", or_null VString (flow_project <$> rc_flow ctx));
   ("rule", VString (rr_name rule)); ("rule_id", num (rr_id rule));
   ("run", or_null num (run_id <$> rc_run ctx)); ("run_name", or_null VString (run_name <$> rc_run ctx))].
Definition lapse_related (ctx : RunContext) : list Resource :=
  match rc_run ctx with Some r => [mkResource "run" (dec (run_id r)) (run_name r)] | None => [] end
  ++ match rc_flow ctx with Some f => [flow_resource (flow_project f) (flow_name f)] | None => [] end.

(** A lapse is recorded without going through the rules again. *)
Definition lapse (rule : RuleRow) (ctx : RunContext) (exp : option Expectation) (a : App) : App :=
  let '(a, ok) := pass_guards rule (lapse_probe rule ctx (clock a)) ctx a in
  if negb ok then a
  else
    match write (append_event (clock a)
            (mkNewEvent (EventName_as_str ExpectationLapsed) (run_id <$> rc_run ctx) (flow_id <$> rc_flow ctx)
               (VObject (lapse_payload rule ctx exp (clock a))) (rule_resource rule) (lapse_related ctx))) a with
    | (a, Err _) => a
    | (a, Ok (event, _)) =>
        let a := emit (PubEvent event) a in
        let a := match exp with
                 | Some e => emit (PubExpectation ExpectationLapsed (ex_id e) (rr_id rule)) a
                 | None => a
                 end in
        start_task (FireLapsed rule event ctx) a
    end.

Definition expectation_due (id : Z) (a : App) : App :=
  match get_expectation id (store a) with
  | None => a
  | Some exp =>
      if negb (ex_status exp =?s "open") then a
      else
        match get_cached_rule (ex_rule_id exp) a with
        | None => (write_ (settle_expectation id "cancelled") a).1
        | Some rule =>
            if negb (rr_enabled rule) then (write_ (settle_expectation id "cancelled") a).1
            else
              let '(a, settled) := write_ (settle_expectation id "lapsed") a in
              if negb settled then a
              else
                let run := and_then (ex_run_id exp) (λ r, get_run r (store a)) in
                let flow := and_then (or_else (run_flow_id <$> run) (ex_flow_id exp)) (λ f, get_flow f (store a)) in
                lapse rule (mkRunContext run flow None None) (Some exp) a
        end
  end.

(** ** Flows by name *)

Definition find_flow (name : string) (project : option string) (s : Store) : result Flow string :=
  let '(proj, flow_name) := match split_once "/"%char name with
                            | Some (p, n) => (Some p, n)
                            | None => (project, name)
                            end in
  match and_then proj (λ p, get_flow_by_key p flow_name s) with
  | Some f => Ok f
  | None =>
      match flows_by_name flow_name s with
      | [f] => Ok f
      | [] => Err ("flow " +:+ debug_str name +:+ " is not registered")
      | _ => Err ("flow " +:+ debug_str name +:+ " exists in several projects; use project/flow")
      end
  end.

(** ** Clock ticks *)

(** The start of the window a tick looks back over. *)
Definition clock_since (rule : RuleRow) (schedule : Schedule) (previous : option Z) (now : Z) : Z :=
  match opt_filter (f64_lt f64_zero) (rs_within (rr_spec rule)) with
  | Some w => now - micros_of_secs w
  | None =>
      match previous with
      | Some p => p
      | None =>
          let next := match next_after now schedule now with Ok (Some n) => n | _ => now end in
          now - Z.max (next - now) 60000000
      end
  end.

Definition clock_tick (rule_id : Z) (a : App) : App :=
  match get_cached_rule rule_id a with
  | None => a
  | Some rule =>
      match clock_schedule rule with
      | None => a
      | Some schedule =>
          if negb (rr_enabled rule) || negb (is_clock_armed (rr_spec rule)) then a
          else
            let now := clock a in
            let since := clock_since rule schedule (clock_last (rules_state a) !! rule_id) now in
            let a := on_rules (λ r, set_clock_last (<[rule_id := now]> (clock_last r)) r) a in
            let a := write_only (kv_set now (clock_last_key rule_id) (dec now)) a in
            let a := match next_after now schedule now with
                     | Ok (Some next) => push_timer next (Timer.RuleClock rule_id) a
                     | _ => a
                     end in
            if since <? rr_created_at rule then a
            else
              let unless := default RuleMatch_default (rs_unless (rr_spec rule)) in
              if existsb (λ e, matches unless e (context_for e a))
                   (events_between (rm_events unless) since now (Z.to_nat 10000) (store a)) then a
              else
                let flow := and_then (head (rm_flows unless))
                              (λ name, match find_flow name (rm_project unless) (store a) with
                                       | Ok f => Some f
                                       | Err _ => None
                                       end) in
                lapse rule (mkRunContext None flow None None) None a
      end
  end.
(** ** Actions *)

Definition parameters_match (selector parameters : Map) : bool := payload_matches selector parameters.

(** The parameters of a run an action starts. *)
Definition copied (flow : Flow) (params : Map) (kv : string * Value) : Map :=
  if map_contains kv.1 params || map_contains kv.1 (schema_properties flow)
  then map_insert kv.1 kv.2 params else params.
Definition action_params (flow : Flow) (action : RuleAction) (ctx : RunContext) : Map :=
  let params := default_params (flow_parameter_schema flow) in
  let params := match rc_run ctx with
                | Some run => if ra_copy_parameters action
                              then fold_left (copied flow) (run_parameters run) params else params
                | None => params
                end in
  fold_left (λ m kv, map_insert kv.1 kv.2 m) (ra_parameters action) params.

Definition action_run_flow (rule : RuleRow) (action : RuleAction) (ctx : RunContext) (a : App)
    : App * result Value ActionError :=
  match find_flow (default EmptyString (ra_flow action)) (flow_project <$> rc_flow ctx) (store a) with
  | Err msg => (a, Err (AText msg))
  | Ok flow =>
      let options := options_of flow in
      let params := action_params flow action ctx in
      match validate_parameters (flow_parameter_schema flow) params with
      | Err e => (a, Err (AParam e))
      | Ok _ =>
          let due := or_else ((λ d, clock a + micros_of_secs d) <$> opt_filter (f64_lt f64_zero) (ra_delay action))
                       (and_then (fo_unique options) (debounce_start (clock a))) in
          match unique_check_for (clock a) flow params None with
          | None => (halt Panicked a, Err (AText "panicked"))
          | Some unique =>
              match write (create_run (clock a)
                      {| cr_flow_id := flow_id flow; cr_name := flow_name flow +:+ "-rule-" +:+ dec (rr_id rule);
                         cr_parameters := map_to_string params; cr_tags := strings_to_string (flow_tags flow);
                         cr_created_by := "rule:" +:+ dec (rr_id rule);
                         cr_initial_state := Some (State_new (clock a) Scheduled); cr_schedule_id := None;
                         cr_scheduled_time := due; cr_priority := fo_priority options;
                         cr_parent_run_id := run_id <$> rc_run ctx; cr_attempt := 0; cr_backfill_id := None;
                         cr_unique := unique |}) a with
              | (a, Err (UniqueConflict existing)) =>
                  match opt_filter (λ u, uq_on_conflict u =?s "debounce") (fo_unique options),
                        get_run existing (store a) with
                  | Some spec, Some holder =>
                      let '(a, moved) := debounce_holder holder params spec a in
                      (a, Ok (VObject [("conflict", VBool true); ("run_id", num (run_id moved));
                                       ("scheduled_time", opt_value num (run_scheduled_time moved))]))
                  | _, _ => (a, Ok (VObject [("conflict", VBool true); ("run_id", num existing)]))
                  end
              | (a, Err e) => (a, Err (AStore e))
              | (a, Ok (rid, _)) =>
                  match get_run rid (store a) with
                  | None => (a, Err (AText "run vanished"))
                  | Some run =>
                      let a := on_index (ActiveIndex.insert_run (instant a) run (from_flow flow) false) a in
                      let a := run_created ops run a in
                      let a := match due with
                               | Some at_ => arm_run (run_id run) at_ false a
                               | None => enqueue_run ops run flow None a
                               end in
                      (a, Ok (VObject [("name", VString (run_name run)); ("run_id", num (run_id run));
                                       ("scheduled_time", opt_value num due)]))
                  end
              end
          end
      end
  end.

(** The state a cancelled run goes to: at once when no engine has it. *)
Definition cancel_next (rule : RuleRow) (immediate : bool) (now : Z) : State :=
  if immediate then with_message (State_new now Cancelled) ("cancelled by rule " +:+ rr_name rule)
  else State_new now Cancelling.

Definition transition_outcome (what : string) (r : result TransitionResult StoreError)
    : result Value ActionError :=
  match r with
  | Ok (TAccepted run) =>
      Ok (VObject [("run_id", num (run_id run)); ("state", VString (state_name (Model.run_state run)))])
  | Ok (TRejected reason _) => Err (AText (what +:+ " rejected: " +:+ reason))
  | Err e => Err (AStore e)
  end.

Definition action_cancel_run (rule : RuleRow) (ctx : RunContext) (a : App) : App * result Value ActionError :=
  match rc_run ctx with
  | None => (a, Err (AText "event has no run to cancel"))
  | Some run =>
      if State_is_terminal (Model.run_state run) then
        (a, Ok (VObject [("already", VString (state_name (Model.run_state run))); ("run_id", num (run_id run))]))
      else
        let '(s, removed) := dequeue (run_id run) (supervisor a) in
        let a := set_supervisor s a in
        let '(a, r) := op_transition_run ops (run_id run)
                         (cancel_next rule (removed || is_none (run_engine_pid run)) (clock a)) false a in
        (a, transition_outcome "cancel" r)
  end.

Definition cancel_one (rule : RuleRow) (action : RuleAction) (own : option Z)
    (acc : App * list Z * list Z) (row : Z * string * option Z) : App * list Z * list Z :=
  let '(a, cancelled, skipped) := acc in
  let '(rid, parameters, engine_pid) := row in
  if bool_decide (Some rid = own) then acc
  else if negb (parameters_match (ra_parameters action) (default [] (map_from_str parameters))) then acc
  else
    let '(s, removed) := dequeue rid (supervisor a) in
    let a := set_supervisor s a in
    let '(a, r) := op_transition_run ops rid (cancel_next rule (removed || is_none engine_pid) (clock a)) false a in
    if accepted r then (a, cancelled ++ [rid], skipped) else (a, cancelled, skipped ++ [rid]).

Definition action_cancel_runs (rule : RuleRow) (action : RuleAction) (ctx : RunContext) (a : App)
    : App * result Value ActionError :=
  match (match opt_filter (λ f, negb (str_is_empty (trim f))) (ra_flow action) with
         | Some name => match find_flow name (flow_project <$> rc_flow ctx) (store a) with
                        | Ok f => Ok (Some (flow_id f))
                        | Err msg => Err msg
                        end
         | None => Ok (flow_id <$> rc_flow ctx)
         end) with
  | Err msg => (a, Err (AText msg))
  | Ok fid =>
      let states := omap StateType_parse (ra_states action) in
      let '(a, cancelled, skipped) :=
        fold_left (cancel_one rule action (run_id <$> rc_run ctx)) (cancellable_runs fid states (store a))
          (a, [], []) in
      (a, Ok (VObject [("cancelled", VArray (num <$> cancelled)); ("count", num (Z.of_nat (length cancelled)));
                       ("skipped", VArray (num <$> skipped))]))
  end.

(** [{:?}] of an optional text. *)
Definition debug_opt (o : option string) : string :=
  match o with Some s => "Some(" +:+ debug_str s +:+ ")" | None => "None" end.
Definition with_opt_message (o : option string) (s : State) : State :=
  mkState (state_type s) (state_name s) o (state_details s) (state_timestamp s).

Definition action_set_state (action : RuleAction) (ctx : RunContext) (a : App) : App * result Value ActionError :=
  match rc_run ctx with
  | None => (a, Err (AText "event has no run"))
  | Some run =>
      match StateType_parse (default EmptyString (ra_state_type action)) with
      | None => (a, Err (AText ("unknown state type " +:+ debug_opt (ra_state_type action))))
      | Some t =>
          let '(a, r) := op_transition_run ops (run_id run)
                           (with_opt_message (ra_message action) (State_new (clock a) t)) true a in
          (a, transition_outcome "set_state" r)
      end
  end.

Definition action_schedules (pausing : bool) (rule : RuleRow) (action : RuleAction) (ctx : RunContext) (a : App)
    : App * result Value ActionError :=
  match (match opt_filter (λ n, negb (str_is_empty n)) (ra_flow action) with
         | Some name => find_flow name (flow_project <$> rc_flow ctx) (store a)
         | None => match rc_flow ctx with Some f => Ok f | None => Err "event has no flow" end
         end) with
  | Err msg => (a, Err (AText msg))
  | Ok flow =>
      let rows := for_flow (flow_id flow) (schedules a) in
      let a := fold_left (λ a row, if pausing
                                   then pause_schedule ops (sr_id row) (Some ("rule:" +:+ rr_name rule)) None a
                                   else resume_schedule ops (sr_id row) a) rows a in
      (a, Ok (VObject [("flow", VString (flow_name flow)); ("schedules", num (Z.of_nat (length rows)))]))
  end.

Definition execute (rule : RuleRow) (action : RuleAction) (ctx : RunContext) (event : Event) (a : App)
    : App * result Value ActionError :=
  let kind := ra_kind action in
  if kind =?s "run_flow" then action_run_flow rule action ctx a
  else if kind =?s "cancel_run" then action_cancel_run rule ctx a
  else if kind =?s "cancel_runs" then action_cancel_runs rule action ctx a
  else if kind =?s "set_state" then action_set_state action ctx a
  else if kind =?s "pause_schedule" then action_schedules true rule action ctx a
  else if kind =?s "resume_schedule" then action_schedules false rule action ctx a
  else if bool_decide (kind ∈ ["webhook"; "email"; "call"]) then (a, external_action action event ctx)
  else (a, Err (AText ("unknown action kind " +:+ debug_str kind))).

Definition run_with_timeout (rule : RuleRow) (action : RuleAction) (ctx : RunContext) (event : Event) (a : App)
    : App * result Value ActionError :=
  let '(a, r) := execute rule action ctx event a in
  (a, if action_slow action event then Err (AText "action timed out after 10 s") else r).

(** ** Firing *)

Definition outcome_head (i : nat) (action : RuleAction) (status : string) : Map :=
  [("index", num (Z.of_nat i)); ("kind", VString (ra_kind action)); ("status", VString status)].
Definition outcomes_text (outcomes : list Value) : string := value_to_string (VArray outcomes).
Definition save_outcomes (firing : option Z) (outcomes : list Value) (a : App) : App :=
  match firing with
  | Some id => write_only (update_firing id (outcomes_text outcomes)) a
  | None => a
  end.
Definition rule_event (name : EventName) (ctx : RunContext) (payload : Map) (a : App) : App :=
  record_engine_event ops name (run_id <$> rc_run ctx) (flow_id <$> rc_flow ctx) payload a.

(** One action of a firing: render, run, and put the outcome in its slot. *)
Definition fire_action (rule : RuleRow) (event : Event) (ctx : RunContext) (t : Value) (firing : option Z)
    (st : App * list Value) (ia : nat * RuleAction) : App * list Value :=
  let '(a, outcomes) := st in
  let '(i, action) := ia in
  let failed msg a :=
    let outcomes := <[i := VObject (map_insert "error" (VString msg) (outcome_head i action "failed"))]> outcomes in
    (rule_event RuleActionFailed ctx
       [("action", VString (ra_kind action)); ("error", VString msg); ("index", num (Z.of_nat i));
        ("rule_id", num (rr_id rule))] (save_outcomes firing outcomes a), outcomes) in
  match render_action action t with
  | Err e => failed (error_text (ARender e)) a
  | Ok rendered =>
      match run_with_timeout rule rendered ctx event a with
      | (a, Err e) => failed (error_text e) a
      | (a, Ok detail) =>
          let outcomes := <[i := VObject (map_insert "detail" detail (outcome_head i action "completed"))]> outcomes in
          (rule_event RuleActionCompleted ctx
             [("action", VString (ra_kind action)); ("detail", detail); ("index", num (Z.of_nat i));
              ("rule_id", num (rr_id rule))] (save_outcomes firing outcomes a), outcomes)
      end
  end.

(** The counters of the fired rule, read back from the store. *)
Definition refresh_rule (rule : RuleRow) (a : App) : App :=
  match get_rule (rr_id rule) (store a) with
  | Some u => emit (PubRule u) (update_counters (rr_id rule) (rr_fire_count u) (rr_last_fired u) a)
  | None => a
  end.

Definition enumerate {A} (l : list A) : list (nat * A) := imap pair l.

Definition outcomes_of (rule : RuleRow) (status : string) : list Value :=
  (λ ia, VObject (outcome_head ia.1 ia.2 status)) <$> enumerate (rs_actions (rr_spec rule)).
Definition start_firing (rule : RuleRow) (event : Event) (ctx : RunContext) (outcomes : list Value) (a : App)
    : App * option Z :=
  let '(a, r) := write (record_firing (clock a) (rr_id rule) (Some (ev_id event)) (run_id <$> rc_run ctx)
                          (outcomes_text outcomes)) a in
  (a, match r with Ok id => Some id | Err _ => None end).

Definition fire_with (rule : RuleRow) (event : Event) (ctx : RunContext) (rounds : Z) (a : App) : App :=
  let t := with_loop rounds (template_context_for event ctx) in
  let outcomes := outcomes_of rule "pending" in
  let '(a, firing) := start_firing rule event ctx outcomes a in
  let a := rule_event RuleFired ctx
             [("event", VString (ev_name event)); ("event_id", num (ev_id event));
              ("rule", VString (rr_name rule)); ("rule_id", num (rr_id rule))] a in
  let '(a, _) := fold_left (fire_action rule event ctx t firing) (enumerate (rs_actions (rr_spec rule)))
                   (a, outcomes) in
  refresh_rule rule a.

Definition limit_outcome (index : nat) (action : RuleAction) (r : result Value string) : Value :=
  match r with
  | Ok detail => VObject [("detail", detail); ("index", num (Z.of_nat index)); ("kind", VString (ra_kind action));
                          ("on_limit", VBool true); ("status", VString "completed")]
  | Err msg => VObject [("error", VString msg); ("index", num (Z.of_nat index)); ("kind", VString (ra_kind action));
                        ("on_limit", VBool true); ("status", VString "failed")]
  end.

(** A rule at its bound: recorded, said, and [on_limit] run in its place. *)
Definition limit (rule : RuleRow) (event : Event) (ctx : RunContext) (rounds : Z) (a : App) : App :=
  let outcomes := outcomes_of rule "limited" in
  let chain_root := and_then (rc_run ctx) (λ r, fst <$> last (run_ancestors (run_id r) (store a))) in
  let '(a, firing) := start_firing rule event ctx outcomes a in
  let a := rule_event RuleLoopLimited ctx
             [("chain_root", opt_value num chain_root); ("limit", num (rs_max_per_chain (rr_spec rule)));
              ("rounds", num rounds); ("rule", VString (rr_name rule)); ("rule_id", num (rr_id rule))] a in
  let a := match rs_on_limit (rr_spec rule) with
           | None => a
           | Some action =>
               let t := with_loop rounds (template_context_for event ctx) in
               let '(a, r) := match render_action action t with
                              | Err e => (a, Err (error_text (ARender e)))
                              | Ok rendered =>
                                  match run_with_timeout rule rendered ctx event a with
                                  | (a, Ok detail) => (a, Ok detail)
                                  | (a, Err e) => (a, Err (error_text e))
                                  end
                              end in
               save_outcomes firing (outcomes ++ [limit_outcome (length outcomes) action r]) a
           end in
  refresh_rule rule a.

(** The bodies of the threads. *)
Definition fire_rules (to_fire to_limit : list (RuleRow * Z)) (event : Event) (ctx : RunContext) (a : App) : App :=
  let a := fold_left (λ a rn, fire_with rn.1 event ctx rn.2 a) to_fire a in
  fold_left (λ a rn, limit rn.1 event ctx rn.2 a) to_limit a.
Definition fire_lapsed (rule : RuleRow) (event : Event) (ctx : RunContext) (a : App) : App :=
  fire_with rule event ctx 0 a.

(** ** An event arrives *)

(** The rounds of a rule in the run's chain, when it is bounded or asks. *)
Definition rounds_of (rule : RuleRow) (ctx : RunContext) (a : App) : Z :=
  match rc_run ctx with
  | Some run =>
      if (0 <? rs_max_per_chain (rr_spec rule))
         || match rs_condition (rr_spec rule) with Some c => contains_str "loop" c | None => false end
      then loop_count rule run a else 0
  | None => 0
  end.
Definition condition_ok (rule : RuleRow) (event : Event) (ctx : RunContext) (rounds : Z) : bool :=
  match rs_condition (rr_spec rule) with
  | None => true
  | Some expr =>
      match evaluate_condition expr (with_loop rounds (template_context_for event ctx)) with
      | Ok b => b
      | Err _ => false
      end
  end.

Abbreviation firing_plan := (App * list (RuleRow * Z) * list (RuleRow * Z))%type.
Definition consider (event : Event) (ctx : RunContext) (p : firing_plan) (rule : RuleRow) : firing_plan :=
  let '(a, to_fire, to_limit) := p in
  if negb (matches (rs_when (rr_spec rule)) event ctx) then p
  else
    let rounds := rounds_of rule ctx a in
    if negb (condition_ok rule event ctx rounds) then p
    else if (0 <? rs_max_per_chain (rr_spec rule)) && is_some (rc_run ctx)
            && (rs_max_per_chain (rr_spec rule) <=? rounds)
    then (a, to_fire, to_limit ++ [(rule, rounds)])
    else let '(a, ok) := pass_guards rule event ctx a in
         (a, if ok then to_fire ++ [(rule, rounds)] else to_fire, to_limit).

Definition suppress (event : Event) (ctx : RunContext) (a : App) (rn : RuleRow * Z) : App :=
  (start_firing rn.1 event ctx (outcomes_of rn.1 "suppressed") a).1.

Definition on_event (event : Event) (a : App) : App :=
  let a := Waits.on_event ops event a in
  if starts_with (ev_name event) "rule." then a
  else
    match candidates (rule_index (rules_state a)) (ev_name event) with
    | [] => a
    | cs =>
        let rs := rules (rules_state a) in
        let ctx := context_for event a in
        let a := if starts_with (ev_name event) "expectation." then a
                 else track_expectations event ctx cs a in
        let '(a, to_fire, to_limit) :=
          fold_left (consider event ctx)
            (List.filter (λ r, bool_decide (rr_id r ∈ cs) && negb (is_proactive (rr_spec r))) rs) (a, [], []) in
        match to_fire, to_limit with
        | [], [] => a
        | _, _ =>
            if match pause a with Some p => p_suppress_rules p | None => false end
            then fold_left (suppress event ctx) (to_fire ++ to_limit) a
            else start_task (FireRules to_fire to_limit event ctx) a
        end
    end.
End rules_engine.
