(* ===== verification/ApiRuns.v ===== *)
(** * Requests about runs (server/src/api/runs.rs)

    The handlers behind the routes of a run: creating one under a unique or an
    idempotency key, cancelling, deleting, retrying from a point, answering a
    pause, sending a message, and the lists and graphs of the run page.

    A handler runs from the request to its answer without another step of the
    server in between, except where a theorem says otherwise.  The status of an
    answer is left to the result: [Ok] carries the body, [Err] an [ApiError].
    [tokio]'s join errors do not occur. *)

From S2P Require Import Prelude Float64 Json States Transitions Timer Schedules Model DepGraph Events Unique.
From S2P Require Import RuleMatching RuleTemplates ActiveIndex Resources WorkQueue Pool GroupCommit Tables.
From S2P Require Import Store Reader StoreAdmin StoreRegistry Integrity RuleReader Replay Pages Validate App.
From S2P Require Import Scheduler Waits Dispatch RulesEngine.
From Stdlib Require Import Ascii.

(** The rest of a handler after a step that can fail. *)
Notation "'do!' ( a , x ) := m 'in' k" :=
  (match m with
   | (a, Ok x) => k
   | (a, Err e) => (a, Err e)
   end) (at level 10, a name, x pattern, m at level 100, k at level 200).

(** ** Bodies *)

Record CreateRunForFlowBody : Type := mkCreateRunForFlowBody {
  fb_parameters : Map;
  fb_name : option string;
  fb_tags : list string;
  fb_scheduled_time : option Z;
  fb_delay : option f64;
  fb_idempotency_key : option string;
  fb_idempotency_ttl : option f64;
}.
Record CreateRunBody : Type := mkCreateRunBody {
  cb_project : string;
  cb_flow : string;
  cb_module : option string;
  cb_source_dir : option string;
  cb_description : option string;
  cb_parameter_schema : option Value;
  cb_options : option Map;
  cb_flow_tags : list string;
  cb_flow_group : option string;
  cb_parameters : Map;
  cb_name : option string;
  cb_tags : list string;
  cb_created_by : option string;
  cb_scheduled_time : option Z;
  cb_delay : option f64;
  cb_idempotency_key : option string;
  cb_idempotency_ttl : option f64;
}.
Record TransitionBody : Type := mkTransitionBody {
  tb_type : StateType;
  tb_name : option string;
  tb_message : option string;
  tb_details : Map;
  tb_force : bool;
}.
Record StateBody : Type := mkStateBody {
  sb_scope : string;
  sb_key : string;
  sb_value : Value;
  sb_delete : bool;
  sb_effect : option EffectMark;
}.
Record AttributesEffect : Type := mkAttributesEffect {
  ae_slot : option string;
  ae_hash : option string;
  ae_pass : Z;
}.
Record BulkBody : Type := mkBulkBody {
  bb_filter : ListRunsFilter;
  bb_action : string;
  bb_dry_run : option bool;
}.
Record BulkResult : Type := mkBulkResult {
  br_action : string;
  br_dry_run : bool;
  br_matched : nat;
  br_affected : nat;
}.
Record RetryResponse : Type := mkRetryResponse {
  rt_run : Run;
  rt_retry_of : Z;
  rt_from : string;
  rt_replays : nat;
  rt_invalidated : list string;
}.

(** [run_creator] (auth.rs): the signed-in user, else the fallback. *)
Definition run_creator (user : option string) (fallback : string) : string :=
  match user with Some u => "user:" +:+ u | None => fallback end.

(** ** Checks of a request *)

Definition Idempotency_from_body (key : option string) (ttl : option f64)
    : result (option Idempotency) ApiError :=
  let key := opt_filter (λ k, negb (str_is_empty k)) (trim <$> key) in
  if match ttl with Some t => f64_le t f64_zero || negb (f64_is_finite t) | None => false end
  then Err (Unprocessable "idempotency_ttl must be a positive number of seconds")
  else Ok ((λ k, mkIdempotency k ttl) <$> key).

Definition not_before (now : Z) (scheduled_time : option Z) (delay : option f64)
    : result (option Z) ApiError :=
  match scheduled_time, delay with
  | Some _, Some _ => Err (Unprocessable "give scheduled_time or delay, not both")
  | Some t, None => Ok (Some t)
  | None, Some d =>
      if f64_lt d f64_zero || negb (f64_is_finite d)
      then Err (Unprocessable "delay must be zero or more seconds")
      else Ok (Some (now + micros_of_secs d))
  | None, None => Ok None
  end.

(** ** Names *)

Definition ADJECTIVES : list string :=
  ["amber"; "brave"; "calm"; "clever"; "cosmic"; "crisp"; "daring"; "eager"; "fluent"; "gentle";
   "golden"; "humble"; "jolly"; "keen"; "lively"; "lucky"; "merry"; "mighty"; "nimble"; "noble";
   "patient"; "polite"; "proud"; "quick"; "quiet"; "rapid"; "serene"; "sharp"; "silent"; "sleek";
   "smooth"; "steady"; "sturdy"; "sunny"; "swift"; "tidy"; "vivid"; "witty"; "zesty"].
Definition NOUNS : list string :=
  ["badger"; "beetle"; "bison"; "condor"; "cougar"; "coyote"; "crane"; "dolphin"; "falcon"; "ferret";
   "finch"; "gecko"; "heron"; "ibis"; "jackal"; "koala"; "lemur"; "lynx"; "macaw"; "marmot"; "meerkat";
   "narwhal"; "newt"; "ocelot"; "osprey"; "otter"; "owl"; "panda"; "pelican"; "puffin"; "quail"; "raven";
   "salmon"; "sparrow"; "stork"; "tapir"; "toucan"; "walrus"; "weasel"; "wombat"; "yak"].
(** One round of the generator, on 64 bits. *)
Definition xorshift (seed : Z) : Z :=
  let seed := Z.lxor seed (wrap_u64 (Z.shiftl seed 13)) in
  let seed := Z.lxor seed (Z.shiftr seed 7) in
  Z.lxor seed (wrap_u64 (Z.shiftl seed 17)).
Definition word (l : list string) (n : Z) : string :=
  default EmptyString (l !! Z.to_nat (n mod Z.of_nat (length l))).
Definition name_of_seed (seed : Z) : string :=
  word ADJECTIVES seed +:+ "-" +:+ word NOUNS (Z.shiftr seed 16).
Fixpoint name_loop (n : nat) (seed now : Z) (s : Store) : string :=
  match n with
  | O => "run-" +:+ dec now
  | S n' =>
      let seed := xorshift seed in
      let name := name_of_seed seed in
      if negb (run_name_exists name s) then name else name_loop n' seed now s
  end.
Definition generate_name `{PoolEnv} (now : Z) (s : Store) : string :=
  name_loop 64 (Z.lxor (wrap_u64 now) (wrap_u64 (Z.shiftl process_id 32))) now s.

(** ** What a retry executes again *)

(** Whether a task run waited on one of the keys, through its recorded parents. *)
Definition key_of (latest : list TaskRun) : gmap Id string :=
  fold_left (λ m t, <[tr_external_id t := tr_dynamic_key t]> m) latest ∅.
Definition waits_on (keys : gmap Id string) (out : gset string) (t : TaskRun) : bool :=
  existsb (λ p, match keys !! p with Some k => bool_decide (k ∈ out) | None => false end) (tr_parents t).
(** One pass of the loop over the task runs: a key added early in the pass is
    seen by the task runs after it. *)
Definition downstream_pass (latest : list TaskRun) (out : gset string) : gset string :=
  fold_left (λ out t, if bool_decide (tr_dynamic_key t ∈ out) then out
                      else if waits_on (key_of latest) out t then {[tr_dynamic_key t]} ∪ out else out)
    latest out.
(** The loop ends with the first pass that adds nothing. *)
Fixpoint downstream_loop (n : nat) (latest : list TaskRun) (out : gset string) : gset string :=
  match n with
  | O => out
  | S n' =>
      let out' := downstream_pass latest out in
      if (size out' =? size out)%nat then out' else downstream_loop n' latest out'
  end.
Definition downstream (latest : list TaskRun) (roots : list string) : gset string :=
  downstream_loop (S (length latest)) latest (list_to_set roots).

Definition not_completed (t : TaskRun) : bool := negb (st_eqb (state_type (tr_state t)) Completed).
(** [None] when the key named is not one of the last pass. *)
Definition invalidated_by (latest : list TaskRun) (from : string) : option (gset string) :=
  if from =?s "start" then Some (list_to_set (tr_dynamic_key <$> latest))
  else if from =?s "failure" then
    Some (downstream latest (tr_dynamic_key <$> List.filter not_completed latest))
  else if existsb (λ t, tr_dynamic_key t =?s from) latest then Some (downstream latest [from])
  else None.

Definition rejected_body (what reason : string) (current : option Value) : Value :=
  VObject [("current", default VNull current); ("error", VString (what +:+ reason)); ("reason", VString reason)].

Definition attribute_name_ok (k : string) : bool :=
  negb (str_is_empty k) && forallb is_key_char (chars k).
Definition effect_mark (e : AttributesEffect) : option EffectMark :=
  sl ← ae_slot e; h ← ae_hash e; Some (mkEffectMark sl h (ae_pass e)).
Definition TASK_STATE_MAX_BYTES : Z := 64 * 1024.
Definition BULK_CAP : Z := 10000.

Section api_runs.
Context `{StoreEnv, PoolEnv, ServerEnv, ScheduleEnv, ReaderEnv, RowEnv, JinjaEnv} (ops : Ops).

(** [TransitionRejected] *)
Definition rejected (what reason : string) (current : option State) : ApiError :=
  Conflict (rejected_body what reason (state_to_value <$> current)).

(** ** Cancelling *)

Definition cancel_inner (run : Run) (a : App) : App * result Run ApiError :=
  if State_is_terminal (Model.run_state run) then (a, Ok run)
  else
    let is_queued := queued (run_id run) (supervisor a) in
    let has_engine := is_some (engine_for_run (run_id run) (supervisor a))
                      || is_some (and_then (ActiveIndex.get (run_id run) (index a)) ar_engine_pid) in
    let immediate := is_queued || negb has_engine
                     || bool_decide (state_type (Model.run_state run) ∈ [Scheduled; Pending]) in
    let '(a, r) :=
      if immediate then
        let a := on_supervisor (λ s, (dequeue (run_id run) s).1) a in
        op_transition_run ops (run_id run) (State_new (clock a) Cancelled) false a
      else op_transition_run ops (run_id run) (State_new (clock a) Cancelling) false a in
    match r with
    | Err e => (a, Err (ApiError_from e))
    | Ok (TAccepted run) =>
        (on_index (λ x, (ActiveIndex.update (run_id run) (request_cancel (instant a)) x).1) a, Ok run)
    | Ok (TRejected reason current) => (a, Err (rejected "cannot cancel: " reason current))
    end.

(** ** Creating a run *)

Definition refuse_while_resetting (a : App) : result unit ApiError :=
  if resetting (flags a) then Err (Unavailable "the database is being reset; try again in a moment") else Ok tt.

(** The defaults of the schema for the parameters that are not given. *)
Definition with_defaults (schema : Value) (parameters : Map) : Map :=
  match and_then (value_get "properties" schema) as_object with
  | None => parameters
  | Some props =>
      fold_left (λ m kp, if map_contains kp.1 m then m
                         else match value_get "default" kp.2 with
                              | Some d => map_insert kp.1 d m
                              | None => m
                              end) props parameters
  end.
Definition all_tags (flow : Flow) (tags : list string) : list string :=
  fold_left (λ all t, if bool_decide (t ∈ all) then all else all ++ [t]) tags (flow_tags flow).

(** What the caller asks for, beside the flow and the parameters. *)
Record NewRun : Type := mkNewRun {
  nr_name : option string;
  nr_tags : list string;
  nr_created_by : string;
  nr_not_before : option Z;
  nr_parent : option (Z * Z);
  nr_idempotency : option Idempotency;
}.
Definition make_run (now : Z) (flow : Flow) (effective : Map) (name : string) (n : NewRun)
    (starts : option Z) (unique : option UniqueCheck) : CreateRun :=
  {| cr_flow_id := flow_id flow; cr_name := name; cr_parameters := map_to_string effective;
     cr_tags := strings_to_string (all_tags flow (nr_tags n)); cr_created_by := nr_created_by n;
     cr_initial_state := Some (State_new now Scheduled); cr_schedule_id := None;
     cr_scheduled_time := starts; cr_priority := fo_priority (options_of flow);
     cr_parent_run_id := fst <$> nr_parent n; cr_attempt := default 0 (snd <$> nr_parent n);
     cr_backfill_id := None; cr_unique := unique |}.

(** A run just inserted is published and armed, or queued now. *)
Definition start_created (flow : Flow) (starts : option Z) (rid : Z) (a : App) : App * result (Run * bool) ApiError :=
  match get_run rid (store a) with
  | None => (a, Err (InternalText "run vanished"))
  | Some run =>
      let a := on_index (ActiveIndex.insert_run (instant a) run (from_flow flow) false) a in
      let a := run_created ops run a in
      let a := match opt_filter (λ due, clock a <? due) starts with
               | Some due => arm_run (run_id run) due false a
               | None => enqueue_run ops run flow None a
               end in
      (a, Ok (run, false))
  end.
Definition holder_of (existing : Z) (a : App) : App * result Run ApiError :=
  (a, match get_run existing (store a) with
      | Some run => Ok run
      | None => Err (InternalText "run vanished")
      end).

Definition insert_checked (flow : Flow) (effective : Map) (n : NewRun) (unique : option UniqueCheck) (a : App)
    : App * result (Run * bool) ApiError :=
  let spec := fo_unique (options_of flow) in
  let plain := is_none (nr_idempotency n) in
  let replace := plain && match spec with Some u => uq_on_conflict u =?s "replace" | None => false end in
  let debounce := if plain then opt_filter (λ u, uq_on_conflict u =?s "debounce") spec else None in
  let starts := match debounce with
                | Some spec => (λ d, match nr_not_before n with Some g => Z.max g d | None => d end)
                               <$> debounce_start (clock a) spec
                | None => nr_not_before n
                end in
  let name := match opt_filter (λ t, negb (str_is_empty t)) (nr_name n) with
              | Some t => t
              | None => generate_name (clock a) (store a)
              end in
  let cmd := make_run (clock a) flow effective name n starts unique in
  match write (create_run (clock a) cmd) a with
  | (a, Ok (rid, _)) => start_created flow starts rid a
  | (a, Err (UniqueConflict existing)) =>
      do! (a, holder) := holder_of existing a in
      if replace && negb (State_is_terminal (Model.run_state holder)) then
        do! (a, cancelled) := cancel_inner holder a in
        if negb (State_is_terminal (Model.run_state cancelled)) then (a, Ok (cancelled, true))
        else
          match write (create_run (clock a) cmd) a with
          | (a, Ok (rid, _)) => start_created flow starts rid a
          | (a, Err (UniqueConflict existing)) =>
              do! (a, holder) := holder_of existing a in (a, Ok (holder, true))
          | (a, Err e) => (a, Err (ApiError_from e))
          end
      else
        match debounce with
        | Some spec => let '(a, run) := debounce_holder holder effective spec a in (a, Ok (run, true))
        | None => (a, Ok (holder, true))
        end
  | (a, Err e) => (a, Err (ApiError_from e))
  end.

Definition create_run_checked (flow : Flow) (parameters : Map) (n : NewRun) (a : App)
    : App * result (Run * bool) ApiError :=
  if shutting_down (flags a)
  then (a, Err (Conflict (VObject [("error", VString "server is shutting down")])))
  else
    match refuse_while_resetting a with
    | Err e => (a, Err e)
    | Ok _ =>
        match validate_parameters (flow_parameter_schema flow) parameters with
        | Err e => (a, Err (BadParameters e))
        | Ok _ =>
            let effective := with_defaults (flow_parameter_schema flow) parameters in
            match unique_check_for (clock a) flow effective (nr_idempotency n) with
            | None => (halt Panicked a, Err (InternalText "panicked"))
            | Some unique => insert_checked flow effective n unique a
            end
        end
    end.
Definition create_run_inner (flow : Flow) (parameters : Map) (n : NewRun) (a : App) : App * result Run ApiError :=
  do! (a, r) := create_run_checked flow parameters n a in (a, Ok r.1).

(** The flow a request names, registered or refreshed from what it sends. *)
Definition decorate_flow (a : App) (f : Flow) : Flow :=
  mkFlow (flow_id f) (flow_external_id f) (flow_project f) (flow_name f) (flow_module f) (flow_source_dir f)
    (flow_description f) (flow_tags f) (Some (group_or_project f)) (flow_parameter_schema f) (flow_options f)
    (flow_error f) (flow_created_at f) (flow_last_seen_at f) (is_live (flow_id f) a).
Definition save_flow (w : UpsertFlow) (a : App) : App * result Flow ApiError :=
  match write (upsert_flow (clock a) w) a with
  | (a, Err e) => (a, Err (ApiError_from e))
  | (a, Ok id) =>
      match get_flow id (store a) with
      | None => (a, Err (InternalText "flow vanished"))
      | Some flow =>
          let a := on_index (set_flow_project (flow_id flow) (flow_project flow)) a in
          let a := set_dep_slot None a in
          (emit (PubFlow (decorate_flow a flow)) a, Ok flow)
      end
  end.
Definition flow_for_body (b : CreateRunBody) (a : App) : App * result Flow ApiError :=
  let existing := get_flow_by_key (cb_project b) (cb_flow b) (store a) in
  match existing, cb_module b, cb_source_dir b with
  | Some f, Some module, Some source_dir =>
      if is_live (flow_id f) a then (a, Ok f)
      else
        save_flow (mkUpsertFlow (cb_project b) (cb_flow b) module source_dir
          (or_else (cb_description b) (flow_description f))
          (strings_to_string (match cb_flow_tags b with [] => flow_tags f | l => l end))
          (value_to_string (default (flow_parameter_schema f) (cb_parameter_schema b)))
          (map_to_string (default (flow_options f) (cb_options b)))
          (or_else (cb_flow_group b) (flow_group f))) a
  | Some f, _, _ => (a, Ok f)
  | None, Some module, Some source_dir =>
      save_flow (mkUpsertFlow (cb_project b) (cb_flow b) module source_dir (cb_description b)
        (strings_to_string (cb_flow_tags b)) (value_to_string (default (VObject []) (cb_parameter_schema b)))
        (map_to_string (default [] (cb_options b))) (cb_flow_group b)) a
  | None, _, _ =>
      (a, Err (ApiNotFound ("flow " +:+ cb_project b +:+ "/" +:+ cb_flow b
                            +:+ " is not registered; pass module and source_dir to register it")))
  end.
(** The run, and whether it held the key already. *)
Definition create_run_request (user : option string) (b : CreateRunBody) (a : App)
    : App * result (Run * bool) ApiError :=
  let created_by := run_creator user (default "client" (cb_created_by b)) in
  do! (a, flow) := flow_for_body b a in
  match not_before (clock a) (cb_scheduled_time b) (cb_delay b) with
  | Err e => (a, Err e)
  | Ok starts =>
      match Idempotency_from_body (cb_idempotency_key b) (cb_idempotency_ttl b) with
      | Err e => (a, Err e)
      | Ok idempotency =>
          create_run_checked flow (cb_parameters b)
            (mkNewRun (cb_name b) (cb_tags b) created_by starts None idempotency) a
      end
  end.
(** [create_run_for_flow] (api/flows.rs) *)
Definition create_run_for_flow (user : option string) (fid : Z) (b : CreateRunForFlowBody) (a : App)
    : App * result (Run * bool) ApiError :=
  match get_flow fid (store a) with
  | None => (a, Err (ApiNotFound "flow not found"))
  | Some flow =>
      match not_before (clock a) (fb_scheduled_time b) (fb_delay b) with
      | Err e => (a, Err e)
      | Ok starts =>
          match Idempotency_from_body (fb_idempotency_key b) (fb_idempotency_ttl b) with
          | Err e => (a, Err e)
          | Ok idempotency =>
              create_run_checked flow (fb_parameters b)
                (mkNewRun (fb_name b) (fb_tags b) (run_creator user "api") starts None idempotency) a
          end
      end
  end.

(** ** One run *)

Definition found_run (id : Z) (a : App) : App * result Run ApiError :=
  (a, match get_run id (store a) with Some run => Ok run | None => Err (ApiNotFound "run not found") end).

Definition delete_inner (run : Run) (a : App) : App * result unit ApiError :=
  do! (a, _) := (if State_is_terminal (Model.run_state run) then (a, Ok run) else cancel_inner run a) in
  let a := on_supervisor (λ s, (dequeue (run_id run) s).1) a in
  let a := (write_ (StoreAdmin.delete_run (run_id run)) a).1 in
  let a := on_index (ActiveIndex.remove_run (run_id run) (Some (Model.run_state run)) (run_flow_id run)) a in
  (emit (PubRunDeleted (run_id run)) a, Ok tt).
Definition delete_run_request (id : Z) (a : App) : App * result unit ApiError :=
  do! (a, run) := found_run id a in delete_inner run a.
Definition cancel_run_request (id : Z) (a : App) : App * result Run ApiError :=
  do! (a, run) := found_run id a in cancel_inner run a.

Definition patch_attributes (id : Z) (effect : AttributesEffect) (body : Map) (a : App)
    : App * result Run ApiError :=
  if existsb (λ k, negb (attribute_name_ok k)) (map_keys body)
  then (a, Err (Unprocessable "attribute names are letters, digits, and underscores"))
  else
    let patch := value_to_string (VObject body) in
    if 16 * 1024 <? Z.of_nat (str_len patch) then (a, Err (Unprocessable "attributes exceed 16 KB"))
    else
      match write (merge_run_attributes (clock a) id patch (effect_mark effect)) a with
      | (a, Err e) => (a, Err (ApiError_from e))
      | (a, Ok false) => (a, Err (ApiNotFound "run not found"))
      | (a, Ok true) =>
          do! (a, run) := found_run id a in (emit (PubRun run) a, Ok run)
      end.

(** [check_lease] is the caller's. *)
Definition transition_request (id : Z) (b : TransitionBody) (a : App) : App * result Run ApiError :=
  let proposed := State_from_parts (clock a) (tb_type b) (tb_name b) (tb_message b) (tb_details b) in
  match op_transition_run ops id proposed (tb_force b) a with
  | (a, Err e) => (a, Err (ApiError_from e))
  | (a, Ok (TAccepted run)) => (a, Ok run)
  | (a, Ok (TRejected reason current)) => (a, Err (rejected "transition rejected: " reason current))
  end.

(** *** Task state *)

Inductive StateAnswer : Type :=
| OneValue (found : bool) (value : Value)
| AllRows (rows : list TaskStateRow).
Definition run_state_request (id : Z) (scope key : option string) (a : App) : App * result StateAnswer ApiError :=
  do! (a, _) := found_run id a in
  match opt_filter (λ k, negb (str_is_empty k)) key with
  | Some key =>
      (a, Ok match task_state_get id (default EmptyString scope) key (store a) with
             | Some text => OneValue true (decoded text)
             | None => OneValue false VNull
             end)
  | None => (a, Ok (AllRows (task_state_list id (store a))))
  end.
Definition set_run_state_request (id : Z) (b : StateBody) (a : App) : App * result unit ApiError :=
  let key := trim (sb_key b) in
  if str_is_empty key || (200 <? str_len key)%nat
  then (a, Err (Unprocessable "key must be 1 to 200 characters"))
  else
    let '(a, r) :=
      if sb_delete b then
        let a := (write_ (task_state_delete id (sb_scope b) key) a).1 in
        (a, Ok (is_some (get_run id (store a))))
      else
        let text := value_to_string (sb_value b) in
        if TASK_STATE_MAX_BYTES <? Z.of_nat (str_len text)
        then (a, Err (Unprocessable "value exceeds 64 KB"))
        else match write (task_state_set (clock a) id (sb_scope b) key text (sb_effect b)) a with
             | (a, Ok ok) => (a, Ok ok)
             | (a, Err e) => (a, Err (ApiError_from e))
             end in
    match r with
    | Err e => (a, Err e)
    | Ok true => (a, Ok tt)
    | Ok false => (a, Err (ApiNotFound "run not found"))
    end.

(** *** Pauses *)

Definition not_paused (run : Run) : ApiError :=
  let error := if is_paused_run run then "run is waiting on a different question now"
               else "run is " +:+ StateType_as_str (state_type (Model.run_state run)) +:+ ", not Paused" in
  Conflict (VObject [("current", state_to_value (Model.run_state run)); ("error", VString error)]).
Definition resumed (r : TransitionResult) : result Run ApiError :=
  match r with
  | TAccepted run => Ok run
  | TRejected reason current => Err (rejected "cannot resume: " reason current)
  end.
Definition resume_inner (id : Z) (input : Value) (a : App) : App * result Run ApiError :=
  do! (a, run) := found_run id a in
  if negb (is_paused_run run) then (a, Err (not_paused run))
  else
    do! (a, woke) := wake_paused ops run (answer_with input) a in
    (a, match woke with Moved current => Err (not_paused current) | Done r => resumed r end).
Definition run_input (id : Z) (idx : option Z) (a : App) : App * result Value ApiError :=
  do! (a, run) := found_run id a in
  let answers := chain_answers id (store a) in
  match idx with
  | Some i => (a, Ok (VObject [("answer", default VNull (map_get (dec i) answers))]))
  | None =>
      let d := state_details_of run in
      let pending := if is_paused_run run
                     then VObject [("index", default (num 0) (map_get "index" d));
                                   ("prompt", default VNull (map_get "prompt" d));
                                   ("schema", default VNull (map_get "schema" d))]
                     else VNull in
      let first := default VNull (and_then (map_get "0" answers) (value_get "input")) in
      (a, Ok (VObject [("answers", VObject answers); ("input", first); ("pending", pending)]))
  end.
Definition run_receive (id : Z) (topic : string) (idx : Z) (a : App) : App * result Value ApiError :=
  do! (a, _) := found_run id a in
  let '(a, text) := write_ (run_message_claim (clock a) id topic idx false) a in
  (a, Ok match text with
         | Some text => VObject [("answer", decoded text); ("claimed", VBool true)]
         | None => VObject [("answer", VNull); ("claimed", VBool false)]
         end).
Definition send_message (id : Z) (topic : string) (payload : Value) (a : App) : App * result Run ApiError :=
  do! (a, delivered) := deliver_message ops id topic payload a in
  (a, match delivered with
      | DQueued run => Ok run
      | DWoke (Done r) => resumed r
      | DWoke (Moved run) => Err (not_paused run)
      end).

(** ** Retrying from a point *)

Definition latest_pass (id : Z) (s : Store) : list TaskRun :=
  task_runs_by_run id (Some (Z.max (next_pass id s - 1) 0)) s.
Definition retry_seed (original : Z) (from : string) (invalidated : gset string) (s : Store) : list Checkpoint :=
  if from =?s "start" then []
  else List.filter (λ c, negb (bool_decide (cp_dynamic_key c ∈ invalidated))) (checkpoints original s).
Definition retry_effects (original : Z) (from : string) (s : Store) : list JournalEntry :=
  if from =?s "start" then []
  else List.filter (λ e, negb (starts_with (je_slot e) "artifact:")) (effects original s).
(** The marks a retry leaves under the new run's id. *)
Definition seed_retry (original : Z) (from : string) (effects : list JournalEntry) (seed : list Checkpoint)
    (new : Z) (a : App) : App * result unit ApiError :=
  do! (a, _) :=
    (if from =?s "start" then (a, Ok tt)
     else match lineage original (store a) with
          | None => (a, Err (Internal no_rows))
          | Some (root, _) =>
              (write_only (kv_set (clock a) (lineage_key new)
                 (value_to_string (VObject [("from", num original); ("root", num root)]))) a, Ok tt)
          end) in
  let a := match effects with
           | [] => a
           | _ => write_only (kv_set (clock a) (effect_seed_key new)
                    (value_to_string (VArray (journal_to_value <$> effects)))) a
           end in
  let a := match seed with
           | [] => a
           | _ => write_only (kv_set (clock a) (checkpoint_seed_key new)
                    (value_to_string (VArray (checkpoint_to_value <$> seed)))) a
           end in
  (a, Ok tt).

Definition retry_inner (original : Run) (from created_by : string) (a : App)
    : App * result RetryResponse ApiError :=
  if negb (State_is_terminal (Model.run_state original)) then
    (a, Err (Conflict (VObject
          [("current", state_to_value (Model.run_state original));
           ("error", VString ("run is " +:+ StateType_as_str (state_type (Model.run_state original))
                              +:+ ", not finished"))])))
  else
    match get_flow (run_flow_id original) (store a) with
    | None => (a, Err (ApiNotFound "flow not found"))
    | Some flow =>
        let latest := latest_pass (run_id original) (store a) in
        match invalidated_by latest from with
        | None => (a, Err (Unprocessable ("run " +:+ dec (run_id original) +:+ " recorded no task "
                                          +:+ debug_str from +:+ " in its last pass")))
        | Some invalidated =>
            let seed := retry_seed (run_id original) from invalidated (store a) in
            let journal := retry_effects (run_id original) from (store a) in
            do! (a, run) := create_run_inner flow (run_parameters original)
                              (mkNewRun None (run_tags original) created_by None
                                 (Some (run_id original, i64_add (run_attempt original) 1)) None) a in
            do! (a, _) := seed_retry (run_id original) from journal seed (run_id run) a in
            (a, Ok (mkRetryResponse run (run_id original) from (length seed)
                      (sort_by_text (λ k, k) (elements invalidated))))
        end
    end.
Definition retry_run_request (user : option string) (id : Z) (from : option string) (a : App)
    : App * result RetryResponse ApiError :=
  do! (a, original) := found_run id a in
  let from := default "failure" (opt_filter (λ f, negb (str_is_empty f)) (trim <$> from)) in
  retry_inner original from (run_creator user ("retry:" +:+ dec id)) a.

(** ** Many runs *)

Inductive BulkAction : Type := BulkCancel | BulkRerun | BulkRetry | BulkDelete.
Definition BulkAction_parse (t : string) : option BulkAction :=
  if t =?s "cancel" then Some BulkCancel
  else if t =?s "rerun" then Some BulkRerun
  else if t =?s "retry" then Some BulkRetry
  else if t =?s "delete" then Some BulkDelete
  else None.
Definition bulk_filter (f : ListRunsFilter) (cursor : option Z) : ListRunsFilter :=
  mkListRunsFilter (lr_project f) (lr_group f) (lr_flow f) (lr_flow_id f) (lr_state_type f)
    (lr_state_name f) (lr_name f) (lr_tags f) (lr_params f) (lr_attributes f) (lr_start_after f)
    (lr_start_before f) (Some "created_asc") (Some 500%nat) cursor (lr_schedule_id f) (lr_backfill_id f)
    (lr_scheduled_after f).
(** The loop over pages; a page is not empty when it has a cursor. *)
Fixpoint bulk_pages (n : nat) (f : ListRunsFilter) (cursor : option Z) (runs : list Run) (a : App) : list Run :=
  match n with
  | O => runs
  | S n' =>
      let '(items, next) := list_runs (clock a) (bulk_filter f cursor) (store a) in
      let runs := runs ++ items in
      match next with
      | Some c => if Z.of_nat (length runs) <? BULK_CAP then bulk_pages n' f (Some c) runs a else runs
      | None => runs
      end
  end.
Definition bulk_matches (f : ListRunsFilter) (a : App) : list Run :=
  take (Z.to_nat BULK_CAP) (bulk_pages (S (size (Tables.run (store a)))) f None [] a).
Definition bulk_target (action : BulkAction) (r : Run) : bool :=
  match action with
  | BulkCancel => negb (State_is_terminal (Model.run_state r))
  | BulkRerun | BulkRetry => State_is_terminal (Model.run_state r)
  | BulkDelete => true
  end.
Definition bulk_apply (action : BulkAction) (user : option string) (run : Run) (a : App)
    : App * result unit ApiError :=
  match action with
  | BulkCancel => do! (a, _) := cancel_inner run a in (a, Ok tt)
  | BulkDelete => delete_inner run a
  | BulkRetry =>
      do! (a, _) := retry_inner run "failure" (run_creator user ("retry:" +:+ dec (run_id run))) a in (a, Ok tt)
  | BulkRerun =>
      match get_flow (run_flow_id run) (store a) with
      | None => (a, Ok tt)
      | Some flow =>
          do! (a, _) := create_run_inner flow (run_parameters run)
                          (mkNewRun None (run_tags run) (run_creator user "bulk") None None None) a in
          (a, Ok tt)
      end
  end.
(** The first failure ends the loop. *)
Fixpoint bulk_all (action : BulkAction) (user : option string) (runs : list Run) (a : App)
    : App * result unit ApiError :=
  match runs with
  | [] => (a, Ok tt)
  | run :: runs' => do! (a, _) := bulk_apply action user run a in bulk_all action user runs' a
  end.
Definition bulk_runs (user : option string) (b : BulkBody) (a : App) : App * result BulkResult ApiError :=
  match BulkAction_parse (bb_action b) with
  | None => (a, Err (Unprocessable "action must be cancel, rerun, retry, or delete"))
  | Some action =>
      let dry_run := default true (bb_dry_run b) in
      let runs := bulk_matches (bb_filter b) a in
      let targets := List.filter (bulk_target action) runs in
      do! (a, _) := (if dry_run then (a, Ok tt) else bulk_all action user targets a) in
      (a, Ok (mkBulkResult (bb_action b) dry_run (length runs) (length targets)))
  end.

(** ** Chains and graphs *)

Record ChainRun : Type := mkChainRun {
  ch_run : Run;
  ch_rule_id : option Z;
  ch_rule : option string;
  ch_round : Z;
  ch_result : option string;
}.
Definition continues (run : Run) : bool :=
  starts_with (run_created_by run) "crash:" || starts_with (run_created_by run) "retry:".
(** The round of a run, and the maps of the loop after it. *)
Definition round_of (by_flow rounds : gmap Z Z) (run : Run) : Z * (gmap Z Z * gmap Z Z) :=
  let inherited := if continues run then and_then (run_parent_run_id run) (λ p, rounds !! p) else None in
  match inherited with
  | Some r => (r, (by_flow, <[run_id run := r]> rounds))
  | None =>
      let r := default 0 (by_flow !! run_flow_id run) + 1 in
      (r, (<[run_flow_id run := r]> by_flow, <[run_id run := r]> rounds))
  end.
Definition result_note (text : string) : string :=
  let t := match value_from_str text with
           | Some (VString s) => s
           | Some v => value_to_string v
           | None => text
           end in
  String.substring 0 200 t.
Fixpoint chain_rows (runs : list Run) (by_flow rounds : gmap Z Z) (a : App) : list ChainRun :=
  match runs with
  | [] => []
  | run :: runs' =>
      let '(round, (by_flow, rounds)) := round_of by_flow rounds run in
      let rule_id := and_then (strip_prefix "rule:" (run_created_by run)) parse_i64 in
      let rule := and_then rule_id (λ rid, rr_name <$> find (λ r, rr_id r =? rid) (rules (rules_state a))) in
      mkChainRun run rule_id rule round (result_note <$> task_state_get (run_id run) EmptyString "result" (store a))
      :: chain_rows runs' by_flow rounds a
  end.
Definition run_chain_request (id : Z) (a : App) : App * result (Z * list ChainRun) ApiError :=
  do! (a, _) := found_run id a in
  let runs := run_chain id (store a) in
  (a, Ok (match runs with r :: _ => run_id r | [] => id end, chain_rows runs ∅ ∅ a)).

Definition graph_edges (tasks : list TaskRun) : list (Z * Z) :=
  let by_ext : gmap Id Z := fold_left (λ m t, <[tr_external_id t := tr_id t]> m) tasks ∅ in
  tasks ≫= λ t, omap (λ p, (λ from, (from, tr_id t)) <$> by_ext !! p) (tr_parents t).
Definition run_graph (id : Z) (pass : option Z) (a : App) : list TaskRun * list (Z * Z) :=
  let pass := match pass with Some p => p | None => Z.max (next_pass id (store a) - 1) 0 end in
  let tasks := task_runs_by_run id (Some pass) (store a) in
  (tasks, graph_edges tasks).
End api_runs.
