(* ===== verification/ApiEngine.v ===== *)
(** * Requests of engines (server/src/api/engine.rs, server/src/events.rs)

    An engine asks for work, reports what it did, sends heartbeats and says
    that a module does not import.  Every request about a run carries the lease
    under which the run was handed out; a request under another lease is
    refused before it changes anything.

    [work] waits for a notification between two looks at the queue; [work_step]
    is one look, and [WPark] is where the request waits.  A [Handoff] that is
    dropped before it completes puts the run back: every error after the run
    was taken passes through [undo_handoff].  [module_hash] stands for the
    cache of fingerprints over the module's files (server/src/fingerprint.rs). *)

From S2P Require Import Prelude Float64 Json States Transitions Timer Schedules Model DepGraph Events Unique.
From S2P Require Import RuleMatching RuleTemplates ActiveIndex Resources WorkQueue Pool GroupCommit Tables.
From S2P Require Import Store Reader StoreAdmin StoreRegistry Integrity RuleReader Replay Pages Validate App.
From S2P Require Import Scheduler Waits Dispatch RulesEngine ApiRuns.
From Stdlib Require Import Ascii.

Class ModuleEnv : Type := {
  module_hash : string → string → option string;
  (** the text of a store error *)
  reason_text : StoreError → string;
}.

(** ** Events of task runs (events.rs) *)

Definition task_run_event_name (t : TaskRun) : option EventName :=
  let name := state_name (tr_state t) in
  if name =?s "Skipped" then Some TaskRunSkipped
  else if name =?s "Cached" then Some TaskRunCached
  else if name =?s "Replayed" then Some TaskRunReplayed
  else if name =?s "Recovered" then Some TaskRunRecovered
  else match state_type (tr_state t) with
       | Running => Some TaskRunRunning
       | Completed => Some TaskRunCompleted
       | Failed => Some TaskRunFailed
       | Cancelled => Some TaskRunCancelled
       | _ => None
       end.
Definition task_run_event (t : TaskRun) : option NewEvent :=
  match task_run_event_name t with
  | None => None
  | Some name =>
      Some (mkNewEvent (EventName_as_str name) (Some (tr_run_id t)) (Some (tr_flow_id t))
        (VObject [("dynamic_key", VString (tr_dynamic_key t)); ("flow", VString (tr_flow_name t));
                  ("message", opt_value VString (state_message (tr_state t)));
                  ("project", VString (tr_project t)); ("state", VString (state_name (tr_state t)));
                  ("task", VString (tr_name t))])
        (mkResource "task_run" (tr_external_id t) (tr_dynamic_key t))
        [mkResource "run" (dec (tr_run_id t)) (tr_run_name t);
         flow_resource (tr_project t) (tr_flow_name t)])
  end.
Definition with_task_state (st : State) (t : TaskRun) : TaskRun :=
  mkTaskRun (tr_id t) (tr_external_id t) (tr_run_id t) (tr_name t) (tr_task_key t) (tr_dynamic_key t)
    (tr_pass t) st (tr_failure_count t) (tr_crash_count t) (tr_created_at t) (tr_start_time t)
    (tr_end_time t) (tr_total_run_time t) (tr_run_name t) (tr_flow_id t) (tr_flow_name t) (tr_project t)
    (tr_parents t) (tr_result_ref t) (tr_input_hash t) (tr_once t) (tr_effect_key t).

(** ** Bodies *)

Record WorkRequest : Type := mkWorkRequest {
  wq_engine_id : string;
  wq_pid : Z;
  wq_source_dir : string;
  wq_module : string;
  wq_isolated : bool;
  wq_nice : Z;
}.
Record WorkItem : Type := mkWorkItem {
  wi_kind : string;
  wi_run_id : Z;
  wi_run_name : string;
  wi_external_id : string;
  wi_project : string;
  wi_flow : string;
  wi_parameters : Value;
  wi_options : Value;
  wi_cancel_requested : bool;
  wi_pass : Z;
  wi_checkpoints : list Checkpoint;
  wi_effects : list JournalEntry;
  wi_lineage : string;
  wi_in_doubt : list string;
  wi_force : bool;
  wi_report_seq : Z;
  wi_payload : Value;
  wi_lease : Z;
}.
Record WorkResponse : Type := mkWorkResponse {
  wr_run : option WorkItem;
  wr_exit : bool;
}.
Record ReportRequest : Type := mkReportRequest {
  rq_engine_id : string;
  rq_run_id : Z;
  rq_events : list ReportEvent;
}.
Record ReportResponse : Type := mkReportResponse {
  rp_applied : Z;
  rp_skipped : Z;
  rp_last_seq : Z;
  rp_cancel : bool;
}.
Record FailedRequest : Type := mkFailedRequest {
  fq_engine_id : string;
  fq_source_dir : string;
  fq_module : string;
  fq_isolated : bool;
  fq_nice : Z;
  fq_traceback : string;
}.
(** What one look at the queue decides. *)
Inductive WorkLook : Type :=
| WReturn (r : WorkResponse)
| WAgain
| WPark.

Definition FORCE_TAG : string := "cereyan:force".
Definition newline : ascii := ascii_of_nat 10.
Definition carriage_return : ascii := ascii_of_nat 13.
(** [text.lines()] up to blank lines *)
Definition lines (text : string) : list string :=
  (λ l, default l (strip_suffix_char carriage_return l)) <$> split_char newline text.
Definition last_line (text : string) : string :=
  default "import failed" (find (λ l, negb (str_is_empty (trim l))) (reverse (lines text))).

Definition with_engine (pid : option Z) (engine_id : option string) (beat : Z) (r : ActiveRun) : ActiveRun :=
  mkActiveRun (ar_id r) (ar_flow_id r) (ar_name r) (ar_state r) pid engine_id beat
    (ar_cancel_requested r) (ar_cancelling_since r) (ar_terminated_at r) (ActiveIndex.ar_key r)
    (ar_adopted r).

Section api_engine.
Context `{StoreEnv, PoolEnv, ServerEnv, ScheduleEnv, ReaderEnv, RowEnv, JinjaEnv, ModuleEnv} (ops : Ops).

(** ** Leases *)

(** A header that is absent or is no number is no lease. *)
Definition check_lease (rid : Z) (header : option string) (a : App) : result unit ApiError :=
  match and_then header parse_i64 with
  | None => Ok tt
  | Some sent =>
      match StoreRegistry.run_lease rid (store a) with
      | Some current =>
          if negb (current =? sent) then
            Err (Conflict (VObject
              [("error", VString ("stale lease " +:+ dec sent +:+ ": run " +:+ dec rid
                                  +:+ " was handed to another engine (lease " +:+ dec current +:+ ")"));
               ("stale_lease", VBool true)]))
          else Ok tt
      | None => Ok tt
      end
  end.
Definition leased_transition (rid : Z) (header : option string) (b : TransitionBody) (a : App)
    : App * result Run ApiError :=
  match check_lease rid header a with
  | Err e => (a, Err e)
  | Ok _ => transition_request ops rid b a
  end.

Definition claim (rid : Z) (a : App) : App * result Z ApiError :=
  let '(host, slot) :=
    match run_placement rid (supervisor a) with
    | Some (WorkQueue.Worker w, slot) => (default ("worker " +:+ dec w) (worker_name w (supervisor a)), Some slot)
    | Some (Local, slot) => ("server", Some slot)
    | None => ("server", None)
    end in
  let hash := run ← get_run rid (store a); f ← get_flow (run_flow_id run) (store a);
              module_hash (flow_source_dir f) (flow_module f) in
  match write (claim_run rid host slot hash) a with
  | (a, Ok n) => (a, Ok n)
  | (a, Err e) => (a, Err (ApiError_from e))
  end.

(** ** Work *)

Definition build_work_item (rid : Z) (a : App) : result (option WorkItem) ApiError :=
  match get_run rid (store a) with
  | None => Ok None
  | Some run =>
      if State_is_terminal (Model.run_state run) then Ok None
      else match get_flow (run_flow_id run) (store a) with
           | None => Ok None
           | Some flow =>
               match lineage rid (store a) with
               | None => Err (Internal no_rows)
               | Some (_, root_id) =>
                   Ok (Some {|
                     wi_kind := "run"; wi_run_id := run_id run; wi_run_name := run_name run;
                     wi_external_id := run_external_id run; wi_project := flow_project flow;
                     wi_flow := flow_name flow; wi_parameters := VObject (run_parameters run);
                     wi_options := VObject (flow_options flow);
                     wi_cancel_requested := match ActiveIndex.get rid (index a) with
                                            | Some r => ar_cancel_requested r
                                            | None => false
                                            end;
                     wi_pass := next_pass rid (store a); wi_checkpoints := checkpoints rid (store a);
                     wi_effects := effects rid (store a); wi_lineage := root_id;
                     wi_in_doubt := in_doubt rid (store a);
                     wi_force := existsb (λ t, t =?s FORCE_TAG) (run_tags run);
                     wi_report_seq := run_report_seq run; wi_payload := VNull;
                     wi_lease := Model.run_lease run |})
               end
           end
  end.

Definition build_job_item (payload : Value) (a : App) : option WorkItem :=
  let kind := default EmptyString (and_then (value_get "kind" payload) as_str) in
  let rid := default 0 (and_then (value_get "run_id" payload) as_i64) in
  let run := if 0 <? rid then get_run rid (store a) else None in
  fid ← match run, and_then (value_get "flow_id" payload) as_i64 with
        | Some r, _ => Some (run_flow_id r)
        | None, Some f => Some f
        | None, None => None
        end;
  flow ← get_flow fid (store a);
  Some {| wi_kind := kind; wi_run_id := rid; wi_run_name := default EmptyString (run_name <$> run);
          wi_external_id := default EmptyString (run_external_id <$> run);
          wi_project := flow_project flow; wi_flow := flow_name flow;
          wi_parameters := VObject (default [] (run_parameters <$> run));
          wi_options := VObject (flow_options flow); wi_cancel_requested := false; wi_pass := 0;
          wi_checkpoints := []; wi_effects := []; wi_lineage := EmptyString; wi_in_doubt := [];
          wi_force := false; wi_report_seq := default 0 (run_report_seq <$> run);
          wi_payload := payload; wi_lease := 0 |}.

(** A handoff dropped before it completes. *)
Definition undo_handoff (rid : Z) (a : App) : App :=
  let a := write_only (set_run_engine rid None None) a in
  let a := on_index (λ x, (ActiveIndex.update rid forget_engine_of x).1) a in
  on_supervisor (λ s, (abort_handoff rid s).1) a.

(** A run the supervisor handed over: where it runs, its lease, its item. *)
Definition hand_out (rid : Z) (req : WorkRequest) (a : App) : App * result WorkLook ApiError :=
  let a := write_only (set_run_engine rid (Some (wq_pid req)) (Some (wq_engine_id req))) a in
  let a := on_index (λ x, (ActiveIndex.update rid
             (with_engine (Some (wq_pid req)) (Some (wq_engine_id req)) (instant a)) x).1) a in
  match claim rid a with
  | (a, Err e) => (undo_handoff rid a, Err e)
  | (a, Ok _) =>
      match build_work_item rid a with
      | Err e => (undo_handoff rid a, Err e)
      | Ok (Some item) => (on_supervisor (handoff_done rid) a, Ok (WReturn (mkWorkResponse (Some item) false)))
      | Ok None =>
          let a := on_supervisor (handoff_done rid) a in
          (on_supervisor (run_finished rid) a, Ok WAgain)
      end
  end.
(** One look at the queue; [mtime] and [disk] are what [take_work] reads of the
    module's files. *)
Definition work_step (mtime disk : option Z) (req : WorkRequest) (a : App) : App * result WorkLook ApiError :=
  if shutting_down (flags a) || resetting (flags a) then (a, Ok (WReturn (mkWorkResponse None true)))
  else
    let key := mkEngineKey (wq_source_dir req) (wq_module req) (wq_isolated req) (wq_nice req) in
    let '(s, decision) := take_work (clock a) (instant a) mtime disk (wq_engine_id req) (wq_pid req) key
                            (supervisor a) in
    let a := set_supervisor s a in
    match decision with
    | WExit => (a, Ok (WReturn (mkWorkResponse None true)))
    | WJob payload =>
        (a, Ok match build_job_item payload a with
               | Some item => WReturn (mkWorkResponse (Some item) false)
               | None => WAgain
               end)
    | WRun rid => hand_out rid req a
    | WWait => (a, Ok WPark)
    end.

(** ** Reports *)

(** [after_event_id] *)
Definition after_event_id (id : Z) (a : App) : App :=
  match get_event id (store a) with Some e => after_event ops e a | None => a end.
Definition report_rejected (rid : Z) (fid : option Z) (a : App) (r : RejectedEvent) : App :=
  record_engine_event ops RunReportRejected (Some rid) fid
    [("kind", VString (re_kind r)); ("reason", VString (reason_text (re_error r))); ("seq", num (re_seq r))] a.
(** The events of the accepted transitions, each with the state it had. *)
Definition task_events (tasks : list TaskRun) (states : list (Id * State)) : list NewEvent :=
  let by_ext : gmap Id TaskRun := fold_left (λ m t, <[tr_external_id t := t]> m) tasks ∅ in
  omap (λ es, by_ext !! es.1 ≫= λ t, task_run_event (with_task_state es.2 t)) states.
Definition publish_artifact (a : App) (id : Z) : App :=
  match get_artifact id (store a) with Some x => emit (PubArtifact x) a | None => a end.
Definition count_task_run (x : ActiveIndex) (pn : option string * string) : ActiveIndex :=
  match StateType_parse pn.2 with
  | Some next => task_run_transition (and_then pn.1 StateType_parse) next x
  | None => x
  end.
Definition publish_logs (rid : Z) (o : ReportOutcome) (a : App) : App :=
  match (if 0 <? log_count o then last_log_id o else None) with
  | Some last =>
      emit (Publish "log.appended" (dec rid)
              (VObject [("count", num (log_count o)); ("last_id", num last); ("run_id", num rid)])) a
  | None => a
  end.

Definition report (header : option string) (req : ReportRequest) (a : App) : App * result ReportResponse ApiError :=
  let rid := rq_run_id req in
  match check_lease rid header a with
  | Err e => (a, Err e)
  | Ok _ =>
      match write (apply_report (clock a) rid (rq_events req)) a with
      | (a, Err e) => (a, Err (ApiError_from e))
      | (a, Ok o) =>
          let tasks := omap (join_task (store a)) (task_runs o) in
          let a := match Store.rejected o with
                   | [] => a
                   | l => fold_left (report_rejected rid (run_flow_id <$> get_run rid (store a))) l a
                   end in
          let a := fold_left (λ a t, emit (PubTaskRun t) a) tasks a in
          match write (append_events (clock a) (task_events tasks (task_run_states o))) a with
          | (a, Err e) => (a, Err (ApiError_from e))
          | (a, Ok appended) =>
              let a := fold_left (λ a ei, after_event ops ei.1 a) appended a in
              let a := fold_left (λ a id, after_event_id id a) (event_ids o) a in
              let a := fold_left publish_artifact (artifact_ids o) a in
              let a := on_index (λ x, fold_left count_task_run (task_run_transitions o) x) a in
              let a := publish_logs rid o a in
              let '(x, cancel) := heartbeat (instant a) rid (index a) in
              (set_index x a, Ok (mkReportResponse (applied o) (skipped o) (out_last_seq o) (default false cancel)))
          end
      end
  end.

(** Whether to cancel, and whether the run is active. *)
Definition heartbeat_request (rid : Z) (header : option string) (a : App) : App * result (bool * bool) ApiError :=
  match check_lease rid header a with
  | Err e => (a, Err e)
  | Ok _ =>
      let '(x, r) := heartbeat (instant a) rid (index a) in
      (set_index x a, Ok match r with Some cancel => (cancel, true) | None => (false, false) end)
  end.

(** ** A module that does not import *)

Definition fail_import (summary traceback : string) (a : App) (rid : Z) : App :=
  (op_transition_run ops rid
     (with_detail (with_message (State_new (clock a) Failed) summary) "traceback" (VString traceback))
     true a).1.
Definition mark_flow_error (source_dir module summary : string) (a : App) (f : Flow) : App :=
  if (flow_module f =?s module) && (flow_source_dir f =?s source_dir) then
    let a := write_only (set_flow_error (flow_id f) (Some summary)) a in
    match get_flow (flow_id f) (store a) with
    | Some updated => emit (PubFlow (decorate_flow a updated)) a
    | None => a
    end
  else a.
(** The runs that failed, or the worker that is to blame. *)
Definition failed (req : FailedRequest) (a : App) : App * (list Z + Z) :=
  match of_engine (fq_engine_id req) with
  | WorkQueue.Worker w =>
      let a := on_supervisor (mark_broken w (fq_module req)) a in
      (on_supervisor (forget_engine (fq_engine_id req)) a, inr w)
  | Local =>
      let key := mkEngineKey (fq_source_dir req) (fq_module req) (fq_isolated req) (fq_nice req) in
      let '(s, runs) := take_queued_for_key key (fq_engine_id req) (supervisor a) in
      let a := set_supervisor s a in
      let summary := last_line (fq_traceback req) in
      let a := fold_left (fail_import summary (fq_traceback req)) runs a in
      let a := fold_left (mark_flow_error (fq_source_dir req) (fq_module req) summary)
                 (list_flows None None (store a)) a in
      (a, inl runs)
  end.

(** ** Resources inside a run *)

(** One try of [acquire]: the lease, or the resource that is short. *)
Definition acquire_step (rid : Z) (wanted : Map) (a : App) : App * result Z string :=
  let parameters := default [] (run_parameters_of rid (store a)) in
  let needs := omap (λ kv, (λ n, (Unique.render_template value_to_string kv.1 parameters, n)) <$> as_f64 kv.2) wanted in
  let '(s, r) := try_acquire rid needs (supervisor a) in
  (set_supervisor s a, r).
Definition release_request (rid lease : Z) (a : App) : App :=
  on_supervisor (λ s, with_resources (release_lease rid lease (resources s)) s) a.

Definition local_path (rid : Z) (path : string) (a : App) : App :=
  match get_run rid (store a) with
  | None => a
  | Some run =>
      record_engine_event ops RunLocalPathOnWorker (Some (run_id run)) (Some (run_flow_id run))
        [("host", opt_value VString (run_host run)); ("path", VString path)] a
  end.
End api_engine.
