(* ===== verification/ApiSchedules.v ===== *)
(** * Requests about schedules (server/src/api/schedules.rs, server/src/api/pause.rs)

    Creating and retiming a schedule, pausing and resuming it, the upcoming
    runs of a flow with the fires projected past them, skipping fires, and the
    global pause.  The handlers are [Scheduler]'s operations behind the checks
    of a request; what a checked request stores is [admissible]. *)

From S2P Require Import Prelude Float64 Json States Transitions Timer Schedules Model DepGraph Events Unique.
From S2P Require Import RuleMatching RuleTemplates ActiveIndex Resources WorkQueue Pool Jitter GroupCommit Tables.
From S2P Require Import Store Reader StoreAdmin StoreRegistry Integrity RuleReader Replay Pages Validate App.
From S2P Require Import Scheduler Waits Dispatch RulesEngine ApiRuns.

(** ** Bodies *)

Record ScheduleBody : Type := mkScheduleBody {
  cs_schedule : Schedule;
  cs_catchup : option CatchupPolicy;
  cs_catchup_max : option Z;
  cs_catchup_window : option Z;
  cs_jitter : option Z;
  cs_start_deadline : option Z;
  cs_active : option bool;
  cs_persist : option bool;
}.
Record SchedulePatchBody : Type := mkSchedulePatchBody {
  pb_cron : option string;
  pb_timezone : option string;
  pb_day_or : option bool;
  pb_interval : option f64;
  pb_anchor : option Z;
  pb_rrule : option string;
  pb_delay : option f64;
  pb_catchup : option CatchupPolicy;
  pb_catchup_max : option Z;
  pb_catchup_window : option Z;
  pb_jitter : option Z;
  pb_start_deadline : option Z;
  pb_persist : option bool;
}.
Record UpcomingRun : Type := mkUpcomingRun {
  ur_run : Run;
  ur_skipped : bool;
  ur_skipped_by : option string;
  ur_skipped_at : option Z;
}.
Record ProjectedFire : Type := mkProjectedFire {
  pf_schedule_id : Z;
  pf_scheduled_time : Z;
  pf_skipped : bool;
  pf_skipped_by : option string;
  pf_skipped_at : option Z;
}.
Inductive UpcomingItem : Type :=
| URun (r : UpcomingRun)
| UProjected (p : ProjectedFire).
Definition upcoming_time (u : UpcomingItem) : Z :=
  match u with
  | URun r => default (run_created_at (ur_run r)) (run_scheduled_time (ur_run r))
  | UProjected p => pf_scheduled_time p
  end.
Record SkipBody : Type := mkSkipBody {
  kb_fires : list Z;
  kb_next : option nat;
  kb_by : option string;
}.
Record DownstreamSkip : Type := mkDownstreamSkip {
  ds_flow : string;
  ds_project : string;
  ds_fires : list Z;
}.
Record SkipResponse : Type := mkSkipResponse {
  skr_schedule : ScheduleRow;
  skr_skipped : list Z;
  skr_downstream : list DownstreamSkip;
}.
Record PauseBody : Type := mkPauseBody {
  pz_reason : option string;
  pz_until : option Z;
  pz_suppress_rules : bool;
}.
Definition PauseBody_default : PauseBody := mkPauseBody None None false.
Record SchedulerStatus : Type := mkSchedulerStatus {
  ss_paused : bool;
  ss_since : option Z;
  ss_reason : option string;
  ss_until : option Z;
  ss_suppress_rules : bool;
  ss_held : Z;
}.

(** ** Checks of a request *)

Definition below_zero (v : option Z) : bool := match v with Some z => z <? 0 | None => false end.

Section api_schedules.
Context `{StoreEnv, PoolEnv, ServerEnv, ScheduleEnv, ReaderEnv, RowEnv, JinjaEnv} (ops : Ops).

Definition check_policy (schedule : Schedule) (window jitter deadline : option Z) : result unit ApiError :=
  match find (λ nv, below_zero nv.2)
          [("catchup_window", window); ("jitter", jitter); ("start_deadline", deadline)] with
  | Some (name, _) => Err (Unprocessable (name +:+ " must be zero or more"))
  | None =>
      match jitter, schedule with
      | Some j, Interval interval _ _ =>
          if (0 <? j) && f64_le interval (f64_of_Z j)
          then Err (Unprocessable ("jitter (" +:+ dec j +:+ " s) must be shorter than the interval ("
                                   +:+ f64_display interval +:+ " s)"))
          else Ok tt
      | _, _ => Ok tt
      end
  end.

Definition off_when_zero (value : option Z) : option Z := opt_filter (λ v, 0 <? v) value.

Definition check_continuous (schedule : Schedule) (catchup : option CatchupPolicy)
    (catchup_max catchup_window : option Z) : result unit ApiError :=
  if is_continuous schedule
     && (match catchup with Some c => negb (bool_decide (c = Skip)) | None => false end
         || is_some catchup_max
         || match catchup_window with Some w => 0 <? w | None => false end)
  then Err (Unprocessable
         "a continuous schedule has no fires to catch up; leave catchup, catchup_max and catchup_window unset")
  else Ok tt.

(** The checks of a spec about to be stored. *)
Definition check_schedule (schedule : Schedule) (window jitter deadline : option Z)
    (catchup : option CatchupPolicy) (catchup_max : option Z) : result unit ApiError :=
  match validate schedule with
  | Err e => Err (BadSchedule e)
  | Ok _ =>
      match check_policy schedule window jitter deadline with
      | Err e => Err e
      | Ok _ => check_continuous schedule catchup catchup_max window
      end
  end.

(** ** What a row shows *)

Definition loop_state (row : ScheduleRow) (active : list Run) (a : App) : string * option Run :=
  if negb (sr_active row) then ("paused", None)
  else
    match last active with
    | None => ("waiting", None)
    | Some run =>
        if negb (st_eqb (state_type (Model.run_state run)) Scheduled) || is_some (run_engine_pid run)
        then ("running", None)
        else if queued (run_id run) (supervisor a) then ("in_line", None)
        else ("waiting", Some run)
    end.
Definition with_loop (state : option string) (row : ScheduleRow) : ScheduleRow :=
  {| sr_id := sr_id row; sr_external_id := sr_external_id row; sr_flow_id := sr_flow_id row;
     sr_schedule := sr_schedule row; sr_catchup := sr_catchup row; sr_catchup_max := sr_catchup_max row;
     sr_catchup_window := sr_catchup_window row; sr_jitter := sr_jitter row;
     sr_start_deadline := sr_start_deadline row; sr_active := sr_active row;
     sr_paused_reason := sr_paused_reason row; sr_paused_until := sr_paused_until row;
     sr_source := sr_source row; sr_code_key := sr_code_key row; sr_persist := sr_persist row;
     sr_created_at := sr_created_at row; sr_updated_at := sr_updated_at row;
     sr_next_fire := sr_next_fire row; sr_skipped := sr_skipped row; sr_loop_state := state |}.
Definition decorate_with (row : ScheduleRow) (active : list Run) (a : App) : ScheduleRow :=
  let row := match schedules a !! sr_id row with
             | Some cached => with_next (sr_next_fire cached) (sr_skipped row) row
             | None => row
             end in
  if is_continuous (sr_schedule row) then
    let '(st, waiting) := loop_state row active a in
    let row := with_loop (Some st) row in
    match and_then waiting run_scheduled_time with
    | Some fire =>
        let due := fire + jitter_offset (sr_id row) fire (sr_jitter row) in
        with_next (opt_filter (λ d, clock a <? d) (Some due)) (sr_skipped row) row
    | None => row
    end
  else row.
Definition looping (row : ScheduleRow) : bool := is_continuous (sr_schedule row) && sr_active row.
Definition decorate (row : ScheduleRow) (a : App) : ScheduleRow :=
  decorate_with row (if looping row then active_runs_of_schedule (sr_id row) (store a) else []) a.
Definition decorate_all (rows : list ScheduleRow) (a : App) : list ScheduleRow :=
  let ids := sr_id <$> List.filter looping rows in
  let active : gmap Z (list Run) := match ids with [] => ∅ | _ => active_runs_of_schedules ids (store a) end in
  (fold_left (λ oa row, (oa.1 ++ [decorate_with row (default [] (oa.2 !! sr_id row)) a],
                         delete (sr_id row) oa.2)) rows ([], active)).1.
Definition list_schedules_request (fid : Z) (a : App) : list ScheduleRow :=
  decorate_all (list_schedules (clock a) (Some fid) (store a)) a.

Definition schedule_missing : ApiError := ApiNotFound "schedule not found".
(** The row as it is now, shown. *)
Definition shown (sid : Z) (gone : ApiError) (a : App) : App * result ScheduleRow ApiError :=
  (a, match get_schedule (clock a) sid (store a) with
      | Some row => Ok (decorate row a)
      | None => Err gone
      end).
(** A handler of a schedule that must exist. *)
Definition on_schedule {A} (sid : Z) (k : ScheduleRow → App → App * result A ApiError) (a : App)
    : App * result A ApiError :=
  match get_schedule (clock a) sid (store a) with
  | Some row => k row a
  | None => (a, Err schedule_missing)
  end.

(** ** Creating *)

Definition new_schedule (now fid : Z) (b : ScheduleBody) (source : string) : ScheduleWrite :=
  {| sw_id := None; sw_flow_id := fid;
     sw_spec := schedule_to_string (with_anchor_if_missing (cs_schedule b) now);
     sw_catchup := CatchupPolicy_as_str (default Skip (cs_catchup b));
     sw_catchup_max := default 100 (cs_catchup_max b);
     sw_catchup_window := off_when_zero (cs_catchup_window b); sw_jitter := default 0 (cs_jitter b);
     sw_start_deadline := off_when_zero (cs_start_deadline b); sw_active := default true (cs_active b);
     sw_source := source; sw_code_key := None; sw_persist := default true (cs_persist b) |}.
Definition create_schedule_inner (fid : Z) (b : ScheduleBody) (source : string) (a : App)
    : App * result ScheduleRow ApiError :=
  match get_flow fid (store a) with
  | None => (a, Err (ApiNotFound "flow not found"))
  | Some _ =>
      match check_schedule (cs_schedule b) (cs_catchup_window b) (cs_jitter b) (cs_start_deadline b)
              (cs_catchup b) (cs_catchup_max b) with
      | Err e => (a, Err e)
      | Ok _ =>
          match write (upsert_schedule (clock a) (new_schedule (clock a) fid b source)) a with
          | (a, Err e) => (a, Err (ApiError_from e))
          | (a, Ok sid) => shown sid (InternalText "schedule vanished") (publish_schedule sid (rebuild ops sid a))
          end
      end
  end.

(** ** Retiming *)

Definition apply_patch (current : Schedule) (b : SchedulePatchBody) : Schedule :=
  match current with
  | Cron cron timezone day_or =>
      Cron (default cron (pb_cron b)) (or_else (pb_timezone b) timezone) (default day_or (pb_day_or b))
  | Interval interval anchor timezone =>
      Interval (default interval (pb_interval b)) (or_else (pb_anchor b) anchor) (or_else (pb_timezone b) timezone)
  | RRule rrule timezone => RRule (default rrule (pb_rrule b)) (or_else (pb_timezone b) timezone)
  | Continuous delay => Continuous (default delay (pb_delay b))
  end.
Definition is_interval (s : Schedule) : bool := match s with Interval _ _ _ => true | _ => false end.
Definition patched_schedule (now : Z) (current : Schedule) (b : SchedulePatchBody) : Schedule :=
  match pb_cron b with
  | Some cron =>
      Cron cron (or_else (pb_timezone b) match current with Cron _ tz _ => tz | _ => None end)
        (default true (pb_day_or b))
  | None =>
      match pb_rrule b with
      | Some rrule => RRule rrule (pb_timezone b)
      | None =>
          if is_some (pb_delay b) && negb (is_continuous current) then Continuous (default f64_zero (pb_delay b))
          else if is_some (pb_interval b) && negb (is_interval current)
          then Interval (default (f64_of_Z 3600) (pb_interval b)) (or_else (pb_anchor b) (Some now)) (pb_timezone b)
          else apply_patch current b
      end
  end.
Definition retimed (schedule : Schedule) (b : SchedulePatchBody) : SchedulePatch :=
  {| sp_spec := Some (schedule_to_string schedule); sp_catchup := CatchupPolicy_as_str <$> pb_catchup b;
     sp_catchup_max := pb_catchup_max b;
     sp_catchup_window := (λ v, off_when_zero (Some v)) <$> pb_catchup_window b; sp_jitter := pb_jitter b;
     sp_start_deadline := (λ v, off_when_zero (Some v)) <$> pb_start_deadline b; sp_active := None;
     sp_paused_reason := None; sp_paused_until := None; sp_persist := pb_persist b |}.
Definition patch_schedule_inner (sid : Z) (b : SchedulePatchBody) (a : App) : App * result ScheduleRow ApiError :=
  on_schedule sid (λ row a,
    let schedule := patched_schedule (clock a) (sr_schedule row) b in
    match check_schedule schedule (pb_catchup_window b) (Some (default (sr_jitter row) (pb_jitter b)))
            (pb_start_deadline b) (pb_catchup b) (pb_catchup_max b) with
    | Err e => (a, Err e)
    | Ok _ =>
        let p := retimed (with_anchor_if_missing schedule (clock a)) b in
        let a := (write_ (patch_schedule (clock a) sid p) a).1 in
        shown sid schedule_missing (publish_schedule sid (rebuild ops sid a))
    end) a.

(** ** Pausing, resuming, deleting *)

Definition delete_schedule_request (sid : Z) (a : App) : App * result unit ApiError :=
  let '(a, ok) := delete_schedule sid a in (a, if ok then Ok tt else Err schedule_missing).
Definition pause_schedule_request (sid : Z) (a : App) : App * result ScheduleRow ApiError :=
  on_schedule sid (λ _ a, shown sid schedule_missing (pause_schedule ops sid (Some "paused") None a)) a.
Definition resume_schedule_request (sid : Z) (a : App) : App * result ScheduleRow ApiError :=
  on_schedule sid (λ _ a, shown sid schedule_missing (resume_schedule ops sid a)) a.
Definition join_now_request (sid : Z) (a : App) : App * result ScheduleRow ApiError :=
  on_schedule sid (λ _ a,
    match join_now ops sid a with
    | (a, Err msg) => (a, Err (Conflict (VObject [("error", VString msg)])))
    | (a, Ok _) => shown sid schedule_missing a
    end) a.
Definition pause_flow (fid : Z) (a : App) : App * nat :=
  let rows := for_flow fid (schedules a) in
  (fold_left (λ a r, pause_schedule ops (sr_id r) (Some "paused") None a) rows a, length rows).
Definition resume_flow (fid : Z) (a : App) : App * nat :=
  let rows := for_flow fid (schedules a) in
  (fold_left (λ a r, resume_schedule ops (sr_id r) a) rows a, length rows).

(** ** Upcoming runs *)

(** Who skipped which fire of which schedule, and when. *)
Definition skips_by_fire (sids : list Z) (s : Store) : gmap (Z * Z) (Z * string) :=
  map_fold (λ sid rows m, fold_left (λ m (r : SkipRow), <[(sid, r.1.1) := (r.1.2, r.2)]> m) rows m) ∅
    (list_skip_rows_many sids s).
Definition latest_fire (last_ : gmap Z Z) (run : Run) : gmap Z Z :=
  match run_schedule_id run, run_scheduled_time run with
  | Some sid, Some at_ => <[sid := Z.max (default at_ (last_ !! sid)) at_]> last_
  | _, _ => last_
  end.
Definition upcoming_run (skips : gmap (Z * Z) (Z * string)) (run : Run) : UpcomingItem :=
  let skipped := is_marked run in
  let made := opt_filter (λ _, skipped)
                (match run_schedule_id run, run_scheduled_time run with
                 | Some sid, Some at_ => skips !! (sid, at_)
                 | _, _ => None
                 end) in
  URun (mkUpcomingRun run skipped (snd <$> made) (fst <$> made)).
Definition projected_fire (skips : gmap (Z * Z) (Z * string)) (sid fire : Z) : UpcomingItem :=
  let made := skips !! (sid, fire) in
  UProjected (mkProjectedFire sid fire (is_some made) (snd <$> made) (fst <$> made)).
Definition projected_of (now : Z) (skips : gmap (Z * Z) (Z * string)) (last_ : gmap Z Z) (count : nat)
    (row : ScheduleRow) : list UpcomingItem :=
  projected_fire skips (sr_id row)
  <$> fires_after now (sr_schedule row) (Z.max (default now (last_ !! sr_id row)) now) count.
Definition upcoming_filter (now fid : Z) : ListRunsFilter :=
  mkListRunsFilter None None None (Some fid) (Some "Scheduled") None None [] [] [] None None
    (Some "scheduled_asc") (Some 200%nat) None None None (Some now).
Definition upcoming_runs (fid : Z) (projected : option nat) (a : App) : list UpcomingItem :=
  let now := clock a in
  let items := (list_runs now (upcoming_filter now fid) (store a)).1 in
  let rows := for_flow fid (schedules a) in
  let skips := skips_by_fire (sr_id <$> rows) (store a) in
  let last_ := fold_left latest_fire items ∅ in
  let out := upcoming_run skips <$> items in
  let count := Nat.min (default O projected) LOOKAHEAD_MAX in
  if (0 <? count)%nat
  then sort_by_key upcoming_time
         (out ++ flat_map (projected_of now skips last_ count) (List.filter sr_active rows))
  else out.

(** ** Skipping *)

Definition runs_after (name : string) (f : Flow) : bool :=
  match fo_after (options_of f) with Some spec => depends_on spec name | None => false end.
(** One name off the frontier: the flows after it that are not known yet. *)
Definition grow (self : Z) (name : string) (fo : list string * list Flow) (f : Flow) : list string * list Flow :=
  if runs_after name f && negb (flow_id f =? self) && negb (existsb (λ o, flow_id o =? flow_id f) fo.2)
  then (fo.1 ++ [flow_name f], fo.2 ++ [f]) else fo.
(** The frontier is a stack.  A flow joins it at most once, so the loop ends
    within one round per flow and one for the start. *)
Fixpoint downstream_walk (n : nat) (flows : list Flow) (self : Z) (fo : list string * list Flow) : list Flow :=
  match n with
  | O => fo.2
  | S n' =>
      match last fo.1 with
      | None => fo.2
      | Some name => downstream_walk n' flows self (fold_left (grow self name) flows (removelast fo.1, fo.2))
      end
  end.
Definition downstream_of (flow : Flow) (s : Store) : list Flow :=
  let flows := list_flows (Some (flow_project flow)) None s in
  downstream_walk (S (S (length flows))) flows (flow_id flow) ([flow_name flow], []).

Definition skip_author (by_ : option string) : result string ApiError :=
  match by_ with
  | None => Ok "api"
  | Some other =>
      if other =?s "api" then Ok "api"
      else if other =?s "ui" then Ok "ui"
      else Err (Unprocessable ("by must be ui or api, not " +:+ other))
  end.
Definition add_skips_request (sid : Z) (b : SkipBody) (a : App) : App * result SkipResponse ApiError :=
  on_schedule sid (λ row a,
    if is_continuous (sr_schedule row) then
      (a, Err (Conflict (VObject
         [("error", VString "a continuous schedule has no fire times to skip; pause it instead")])))
    else
      match skip_author (kb_by b) with
      | Err e => (a, Err e)
      | Ok by_ =>
          match skip_fires ops row (kb_fires b) (kb_next b) by_ a with
          | (a, Err msg) => (a, Err (Unprocessable msg))
          | (a, Ok skipped) =>
              let downstream := match get_flow (sr_flow_id row) (store a) with
                                | Some flow => (λ f, mkDownstreamSkip (flow_name f) (flow_project f) skipped)
                                               <$> downstream_of flow (store a)
                                | None => []
                                end in
              do! (a, row) := shown sid schedule_missing a in (a, Ok (mkSkipResponse row skipped downstream))
          end
      end) a.
Definition delete_skip (sid fire : Z) (a : App) : App * result ScheduleRow ApiError :=
  on_schedule sid (λ _ a,
    match unskip_fire ops sid fire a with
    | (a, Err msg) => (a, Err (Unprocessable msg))
    | (a, Ok false) => (a, Err (ApiNotFound "no skip at that time"))
    | (a, Ok true) => shown sid schedule_missing a
    end) a.
Definition preview_schedule (schedule : Schedule) (count : option nat) (a : App)
    : result (list Z * string) ApiError :=
  match preview (clock a) schedule (default 3%nat count) with
  | Ok next => Ok (next, timezone_name schedule)
  | Err e => Err (BadSchedule e)
  end.

(** ** The global pause *)

Definition status (a : App) : SchedulerStatus :=
  let p := pause a in
  {| ss_paused := is_some p; ss_since := p_since <$> p; ss_reason := and_then p p_reason;
     ss_until := and_then p p_until;
     ss_suppress_rules := match p with Some p => p_suppress_rules p | None => false end;
     ss_held := held_runs a |}.
Definition pause_scheduler (body : option PauseBody) (a : App) : App * result SchedulerStatus ApiError :=
  let b := default PauseBody_default body in
  if match pz_until b with Some u => u <=? 0 | None => false end
  then (a, Err (Unprocessable "until must be a time in microseconds"))
  else
    let reason := opt_filter (λ r, negb (str_is_empty r)) (trim <$> pz_reason b) in
    let a := (pause_all ops reason (pz_until b) (pz_suppress_rules b) a).1 in
    (a, Ok (status a)).
Definition resume_scheduler (a : App) : App * result SchedulerStatus ApiError :=
  let a := (resume_all ops a).1 in (a, Ok (status a)).
End api_schedules.
