(* ===== verification/ApiBackfills.v ===== *)
(** * Backfills (server/src/api/backfills.rs)

    A backfill is a range of values of one date parameter, a run for each.
    Instants are nanoseconds.  Reading and writing a date is chrono's, and so
    is the range of its instants: adding past the end of it panics, which ends
    the request ([Panicked]).

    The indexing and dispatch of a new backfill's runs happen in a task of
    their own; here the task runs before the request answers. *)

From S2P Require Import Prelude Float64 Json States Transitions Timer Schedules Model DepGraph Events Unique.
From S2P Require Import RuleMatching RuleTemplates ActiveIndex Resources WorkQueue Pool GroupCommit Tables.
From S2P Require Import Store Reader StoreAdmin StoreRegistry Integrity RuleReader Replay Pages Validate App.
From S2P Require Import Scheduler Waits Dispatch RulesEngine ApiRuns ApiEngine.
From Stdlib Require Import Ascii.

(** chrono and the parser of floats. *)
Class RangeEnv : Type := {
  (** [%Y-%m-%d], at midnight; RFC 3339; [%Y-%m-%dT%H:%M:%S] *)
  parse_date : string → option Z;
  parse_rfc3339 : string → option Z;
  parse_datetime : string → option Z;
  (** [%Y-%m-%d], and RFC 3339 in whole seconds *)
  format_date : Z → string;
  format_seconds : Z → string;
  (** the instants of [DateTime<Utc>] *)
  nanos_min : Z;
  nanos_max : Z;
  f64_parse : string → option f64;
}.

Record BackfillBody : Type := mkBackfillBody {
  bb_parameter : string;
  bb_start : string;
  bb_end : string;
  bb_values : list string;
  bb_missing_only : bool;
  bb_force : bool;
  bb_interval : option Value;
  bb_concurrency : option Z;
  bb_extra_parameters : Map;
  bb_reverse : bool;
}.
Record BackfillStatus : Type := mkBackfillStatus {
  bs_backfill : Backfill;
  bs_counts : gmap string Z;
  bs_tag : string;
}.

(** ** The interval *)

Definition is_alphabetic (c : ascii) : bool :=
  let n := nat_of_ascii c in
  ((65 <=? n)%nat && (n <=? 90)%nat) || ((97 <=? n)%nat && (n <=? 122)%nat).
Definition unit_secs (u : string) : option Z :=
  let one_of l := existsb (λ x, x =?s u) l in
  if one_of [EmptyString; "s"; "sec"; "secs"] then Some 1
  else if one_of ["m"; "min"; "mins"] then Some 60
  else if one_of ["h"; "hr"; "hour"; "hours"] then Some 3600
  else if one_of ["d"; "day"; "days"] then Some 86400
  else if one_of ["w"; "week"; "weeks"] then Some 604800
  else None.
Definition after_prefix (p s : string) : string := String.substring (str_len p) (str_len s - str_len p) s.

Section range.
Context `{RangeEnv}.

Definition parse_interval (v : option Value) : result f64 string :=
  match v with
  | None => Ok (f64_of_Z 86400)
  | Some v =>
      match as_f64 v with
      | Some n => if f64_lt f64_zero n then Ok n else Err "interval must be positive"
      | None =>
          match as_str v with
          | None => Err "interval must be a number of seconds or a duration like 1d"
          | Some t =>
              let text := trim t in
              let number := trim_end_matches is_alphabetic text in
              match f64_parse (trim number) with
              | None => Err ("invalid interval " +:+ debug_str text)
              | Some n =>
                  let unit := to_ascii_lowercase (trim (after_prefix number text)) in
                  match unit_secs unit with
                  | None => Err ("unknown interval unit " +:+ debug_str unit)
                  | Some mult =>
                      if f64_le n f64_zero then Err "interval must be positive"
                      else Ok (f64_mul n (f64_of_Z mult))
                  end
              end
          end
      end
  end.

(** ** The values *)

Inductive Kind : Type := KDate | KDateTime.
Definition format_of (prop : Value) : option string :=
  or_else (and_then (value_get "format" prop) as_str)
    (and_then (and_then (value_get "anyOf" prop) as_array)
       (λ l, head (omap (λ p, and_then (value_get "format" p) as_str) l))).
Definition parameter_kind (flow : Flow) (name : string) : result Kind ApiError :=
  match and_then (value_get "properties" (flow_parameter_schema flow)) (value_get name) with
  | None => Err (Unprocessable ("flow has no parameter " +:+ debug_str name))
  | Some prop =>
      let other := Err (Unprocessable ("parameter " +:+ debug_str name +:+ " is not a date or datetime")) in
      match format_of prop with
      | Some f => if f =?s "date" then Ok KDate else if f =?s "date-time" then Ok KDateTime else other
      | None => other
      end
  end.

Definition parse_instant (s : string) : result Z ApiError :=
  match or_else (parse_date (trim s)) (or_else (parse_rfc3339 (trim s)) (parse_datetime (trim s))) with
  | Some t => Ok t
  | None => Err (Unprocessable ("cannot parse " +:+ debug_str s +:+ " as a date or datetime"))
  end.

Definition VALUES_MAX : nat := Z.to_nat 100000.
(** The cursor moves past the last value too; [None] is its overflow. *)
Definition advance (cursor step : Z) : option Z :=
  let next := cursor + step in
  if (nanos_min <=? next) && (next <=? nanos_max) then Some next else None.
Fixpoint instants (room : nat) (cursor end_ step : Z) : option (list Z) :=
  match room with
  | O => Some []
  | S room' =>
      if cursor <=? end_ then
        next ← advance cursor step; rest ← instants room' next end_ step; Some (cursor :: rest)
      else Some []
  end.
Definition render (kind : Kind) (t : Z) : string :=
  match kind with KDate => format_date t | KDateTime => format_seconds t end.
Definition step_of (interval : f64) : Z := 1000 * micros_of_secs interval.
(** [None] is a panic. *)
Definition generate_values (kind : Kind) (start end_ : string) (interval : f64) (reversed : bool)
    : option (result (list string) ApiError) :=
  match parse_instant start, parse_instant end_ with
  | Err e, _ | _, Err e => Some (Err e)
  | Ok s, Ok e =>
      if e <? s then Some (Err (Unprocessable "end is before start"))
      else
        l ← instants VALUES_MAX s e (step_of interval);
        let values := render kind <$> l in
        Some (Ok (if reversed then reverse values else values))
  end.

(** The first of each value's own range, without the second of an equal pair. *)
Fixpoint listed_values (kind : Kind) (interval : f64) (raws : list string) (out : list string)
    : option (result (list string) ApiError) :=
  match raws with
  | [] => Some (Ok out)
  | raw :: raws' =>
      r ← generate_values kind raw raw interval false;
      match r with
      | Err e => Some (Err e)
      | Ok [] => listed_values kind interval raws' out
      | Ok (v :: _) =>
          listed_values kind interval raws' (if bool_decide (v ∈ out) then out else out ++ [v])
      end
  end.
End range.

Section api_backfills.
Context `{StoreEnv, PoolEnv, ServerEnv, ScheduleEnv, ReaderEnv, RowEnv, JinjaEnv, RangeEnv} (ops : Ops).

Definition blank (s : string) : bool := str_is_empty (trim s).
Definition requested_values (kind : Kind) (interval : f64) (b : BackfillBody)
    : option (result (list string) ApiError) :=
  match bb_values b with
  | [] =>
      if blank (bb_start b) || blank (bb_end b) then Some (Err (Unprocessable "give start and end, or values"))
      else generate_values kind (bb_start b) (bb_end b) interval (bb_reverse b)
  | raws =>
      r ← listed_values kind interval raws [];
      Some match r with
           | Ok out => Ok (if bb_reverse b then reverse out else out)
           | Err e => Err e
           end
  end.
(** Without a store nothing is known to be complete. *)
Definition plan_backfill_with (s : option Store) (flow : Flow) (b : BackfillBody)
    : option (result (list string * f64) ApiError) :=
  match parameter_kind flow (bb_parameter b) with
  | Err e => Some (Err e)
  | Ok kind =>
      match parse_interval (bb_interval b) with
      | Err msg => Some (Err (Unprocessable msg))
      | Ok interval =>
          r ← requested_values kind interval b;
          Some match r with
               | Err e => Err e
               | Ok values =>
                   let values :=
                     match (if bb_missing_only b then s else None) with
                     | Some s =>
                         let done_ := latest_completed_param_values (flow_id flow) (bb_parameter b) values s in
                         List.filter (λ v, negb (bool_decide (v ∈ done_))) values
                     | None => values
                     end in
                   match values with
                   | [] => Err (Unprocessable (if bb_missing_only b
                                               then "every value already has a completed run"
                                               else "the range produces no runs"))
                   | _ => Ok (values, interval)
                   end
               end
      end
  end.
Definition plan_backfill (flow : Flow) (b : BackfillBody) : option (result (list string * f64) ApiError) :=
  plan_backfill_with None flow b.

(** ** Status *)

Definition backfill_tag (id : Z) : string := "backfill:" +:+ dec id.
Definition counts_map (l : list (string * Z)) : gmap string Z := fold_left (λ m kn, <[kn.1 := kn.2]> m) l ∅.
Definition status_of_row (b : Backfill) (s : Store) : BackfillStatus :=
  mkBackfillStatus b (counts_map (backfill_counts (bf_id b) s)) (backfill_tag (bf_id b)).
Definition status_of (id : Z) (s : Store) : result BackfillStatus ApiError :=
  match get_backfill id s with
  | Some b => Ok (status_of_row b s)
  | None => Err (ApiNotFound "backfill not found")
  end.
Definition list_backfills_request (fid : Z) (s : Store) : list BackfillStatus :=
  let rows := list_backfills (Some fid) s in
  let all := backfill_counts_many (bf_id <$> rows) s in
  (λ b, mkBackfillStatus b (counts_map (default [] (all !! bf_id b))) (backfill_tag (bf_id b))) <$> rows.

(** ** The pages of a backfill's runs *)

Definition backfill_filter (id : Z) (state_type : option string) (cursor : option Z) : ListRunsFilter :=
  mkListRunsFilter None None None None state_type None None [] [] [] None None (Some "created_asc")
    (Some 500%nat) cursor None (Some id) None.
(** The loop over the pages: what is done to a page sees the page before it
    done.  A page with a cursor is not empty, so the runs bound the pages. *)
Fixpoint each_page (n : nat) (id : Z) (state_type : option string) (cursor : option Z)
    (f : list Run → App → App) (a : App) : App :=
  match n with
  | O => halt OutOfFuel a
  | S n' =>
      let '(items, next) := list_runs (clock a) (backfill_filter id state_type cursor) (store a) in
      let a := f items a in
      match next with
      | Some c => each_page n' id state_type (Some c) f a
      | None => a
      end
  end.
Definition page_fuel (a : App) : nat := S (size (Tables.run (store a))).

(** ** Dispatch *)

Definition already_complete (now : Z) : State :=
  with_message (State_named now Skipped) "already complete (bulk_complete)".
Definition backfill_item (flow : Flow) (run : Run) (a : App) : QueuedRun :=
  let options := options_of flow in
  {| q_run_id := run_id run; q_key := from_flow flow; q_priority := run_priority run;
     q_order := default (run_created_at run) (run_scheduled_time run);
     q_needs := run_needs flow options run a; q_not_before := None; q_flow_id := flow_id flow;
     q_remote_ok := may_run_remotely options; q_prefer_worker := None; q_prefer_until := 0 |}.
Definition backfill_value (parameter : string) (run : Run) : string :=
  default EmptyString (and_then (map_get parameter (run_parameters run)) as_str).
(** One run of a page: skipped, or queued with the rest of its page. *)
Definition dispatch_one (flow : Flow) (parameter : string) (skip_values : list string)
    (ab : App * list QueuedRun) (run : Run) : App * list QueuedRun :=
  let '(a, batch) := ab in
  if existsb (λ s, s =?s backfill_value parameter run) skip_values
  then ((op_transition_run ops (run_id run) (already_complete (clock a)) false a).1, batch)
  else (a, batch ++ [backfill_item flow run a]).
Definition dispatch_page (flow : Flow) (parameter : string) (skip_values : list string)
    (items : list Run) (a : App) : App :=
  let '(a, batch) := fold_left (dispatch_one flow parameter skip_values) items (a, []) in
  on_supervisor (enqueue_many batch) a.
Definition set_caps (flow : Flow) (id concurrency : Z) (a : App) : App :=
  let a := on_supervisor (set_total (backfill_resource id) (f64_of_Z (Z.max concurrency 1))) a in
  match fo_max_concurrent (options_of flow) with
  | Some cap => if 0 <? cap then on_supervisor (set_total (flow_cap_resource flow) (f64_of_Z cap)) a else a
  | None => a
  end.
Definition enqueue_all (id : Z) (flow : Flow) (skip_values : list string) (a : App) : App :=
  match get_backfill id (store a) with
  | None => a
  | Some b =>
      let a := set_caps flow id (bf_concurrency b) a in
      let a := each_page (page_fuel a) id (Some "Scheduled") None
                 (dispatch_page flow (bf_parameter b) skip_values) a in
      ensure_capacity a
  end.

(** ** Creating *)

Definition new_backfill (flow : Flow) (b : BackfillBody) (values : list string) (interval : f64) (concurrency : Z)
    : CreateBackfill :=
  {| cb_flow_id := flow_id flow; cb_parameter := bb_parameter b;
     cb_start_value := default (bb_start b) (head values); cb_end_value := default (bb_end b) (last values);
     cb_interval_secs := interval; cb_concurrency := concurrency; cb_total := Z.of_nat (length values);
     cb_extra_parameters := map_to_string (bb_extra_parameters b) |}.
Definition backfill_tags (flow : Flow) (id : Z) (force : bool) : list string :=
  flow_tags flow ++ [backfill_tag id] ++ (if force then [FORCE_TAG] else []).
Definition backfill_params (flow : Flow) (b : BackfillBody) (v : string) : Map :=
  map_insert (bb_parameter b) (VString v)
    (fold_left (λ m kv, map_insert kv.1 kv.2 m) (bb_extra_parameters b)
       (default_params (flow_parameter_schema flow))).
Definition backfill_run (now : Z) (flow : Flow) (b : BackfillBody) (id : Z) (v : string) : CreateRun :=
  {| cr_flow_id := flow_id flow; cr_name := flow_name flow +:+ "-" +:+ replace ":" EmptyString v;
     cr_parameters := map_to_string (backfill_params flow b v);
     cr_tags := strings_to_string (backfill_tags flow id (bb_force b)); cr_created_by := backfill_tag id;
     cr_initial_state := Some (State_new now Scheduled); cr_schedule_id := None; cr_scheduled_time := None;
     cr_priority := fo_priority (options_of flow); cr_parent_run_id := None; cr_attempt := 0;
     cr_backfill_id := Some id; cr_unique := None |}.

Definition index_page (key : EngineKey) (items : list Run) (a : App) : App :=
  fold_left (λ a run, on_index (ActiveIndex.insert_run (instant a) run key false) a) items a.
(** The task of its own. *)
Definition start_backfill (id : Z) (flow : Flow) (has_bulk : bool) (count : nat) (a : App) : App :=
  let key := from_flow flow in
  let a := each_page (page_fuel a) id None None (index_page key) a in
  let a := emit (Publish "backfill.created" (dec id)
                   (VObject [("backfill_id", num id); ("count", num (Z.of_nat count));
                             ("flow_id", num (flow_id flow))])) a in
  if has_bulk then
    ensure_capacity (on_supervisor (enqueue_job key
      (VObject [("backfill_id", num id); ("flow_id", num (flow_id flow)); ("kind", VString "bulk_complete")])) a)
  else enqueue_all id flow [] a.
Definition create_backfill_inner (flow : Flow) (b : BackfillBody) (a : App)
    : App * result BackfillStatus ApiError :=
  match plan_backfill_with (Some (store a)) flow b with
  | None => (halt Panicked a, Err (InternalText "panicked"))
  | Some (Err e) => (a, Err e)
  | Some (Ok (values, interval)) =>
      let concurrency := Z.max (default 1 (bb_concurrency b)) 1 in
      match write (create_backfill (clock a) (new_backfill flow b values interval concurrency)) a with
      | (a, Err e) => (a, Err (ApiError_from e))
      | (a, Ok (id, _)) =>
          match write (create_runs_bulk (clock a) (backfill_run (clock a) flow b id <$> values)) a with
          | (a, Err e) => (a, Err (ApiError_from e))
          | (a, Ok created) =>
              let a := on_supervisor (set_total (backfill_resource id) (f64_of_Z concurrency)) a in
              let has_bulk := fo_has_bulk_complete (options_of flow) && negb (bb_force b) in
              let a := start_backfill id flow has_bulk (length created) a in
              (a, status_of id (store a))
          end
      end
  end.
Definition create_backfill_request (fid : Z) (b : BackfillBody) (a : App) : App * result BackfillStatus ApiError :=
  match get_flow fid (store a) with
  | None => (a, Err (ApiNotFound "flow not found"))
  | Some flow =>
      match refuse_while_resetting a with
      | Err e => (a, Err e)
      | Ok _ => create_backfill_inner flow b a
      end
  end.
(** How many values the hook named. *)
Definition prefilter_backfill (id : Z) (skip : list string) (a : App) : App * result nat ApiError :=
  match get_backfill id (store a) with
  | None => (a, Err (ApiNotFound "backfill not found"))
  | Some b =>
      match get_flow (bf_flow_id b) (store a) with
      | None => (a, Err (ApiNotFound "flow not found"))
      | Some flow => (enqueue_all id flow skip a, Ok (length skip))
      end
  end.

(** ** Cancelling *)

(** What the pages gather: the runs to cancel at once with their state types,
    and the flow of the last one that is not finished. *)
Record Gathered : Type := mkGathered {
  gb_app : App;
  gb_bulk : list (Z * StateType);
  gb_flow : Z;
}.
Definition gather_one (g : Gathered) (run : Run) : Gathered :=
  if State_is_terminal (Model.run_state run) then g
  else
    let t := state_type (Model.run_state run) in
    if st_eqb t Scheduled || st_eqb t Pending || is_none (run_engine_pid run)
    then mkGathered (gb_app g) (gb_bulk g ++ [(run_id run, t)]) (run_flow_id run)
    else
      let a := (op_transition_run ops (run_id run) (State_new (clock (gb_app g)) Cancelling) false (gb_app g)).1 in
      mkGathered (on_index (λ x, (ActiveIndex.update (run_id run) (request_cancel (instant a)) x).1) a)
        (gb_bulk g) (run_flow_id run).
Fixpoint gather_pages (n : nat) (id : Z) (cursor : option Z) (g : Gathered) : Gathered :=
  match n with
  | O => mkGathered (halt OutOfFuel (gb_app g)) (gb_bulk g) (gb_flow g)
  | S n' =>
      let a := gb_app g in
      let '(items, next) := list_runs (clock a) (backfill_filter id None cursor) (store a) in
      let g := fold_left gather_one items g in
      match next with
      | Some c => gather_pages n' id (Some c) g
      | None => g
      end
  end.
(** The index hears only of the runs that were Scheduled or Pending. *)
Definition index_cancelled (bulk : list (Z * StateType)) (ids : list Z) (fid : Z) (a : App) (prev : StateType) : App :=
  let group := fst <$> List.filter (λ ip, st_eqb ip.2 prev && bool_decide (ip.1 ∈ ids)) bulk in
  match group with
  | [] => a
  | _ => on_index (bulk_terminal fid group prev Cancelled) a
  end.
Definition cancel_bulk (id : Z) (bulk : list (Z * StateType)) (fid : Z) (a : App) : App :=
  let ids := fst <$> bulk in
  let a := on_supervisor (dequeue_many ids) a in
  let a := fold_left (λ a i, App.on_timer (remove_run_events i) a) ids a in
  let '(a, r) := write (transition_many ids (with_message (State_new (clock a) Cancelled) "backfill cancelled")) a in
  let accepted := match r with Ok l => l | Err _ => [] end in
  let a := fold_left (index_cancelled bulk accepted fid) [Scheduled; Pending] a in
  let a := fold_left (λ a i, on_supervisor (run_finished i) a) accepted a in
  let a := emit (Publish "backfill.updated" (dec id)
                   (VObject [("backfill_id", num id); ("cancelled", num (Z.of_nat (length accepted)))])) a in
  ensure_capacity a.
Definition cancel_backfill_inner (id : Z) (a : App) : App * result BackfillStatus ApiError :=
  match get_backfill id (store a) with
  | None => (a, Err (ApiNotFound "backfill not found"))
  | Some _ =>
      let a := write_only (set_backfill_cancelled id) a in
      let g := gather_pages (page_fuel a) id None (mkGathered a [] 0) in
      let a := match gb_bulk g with
               | [] => gb_app g
               | bulk => cancel_bulk id bulk (gb_flow g) (gb_app g)
               end in
      (a, status_of id (store a))
  end.
End api_backfills.

(** ** The values of a range *)

(** How many steps fit between two instants, both ends counted. *)
Definition fitting (room s e step : Z) : Z := Z.min room (Z.max 0 ((e - s) / step + 1)).

Section range_laws.
Context `{RangeEnv}.

Lemma fitting_done room s e step : 0 < step → e < s → 0 ≤ room → fitting room s e step = 0.
Proof using Type.
  intros Hstep Hes Hroom. rw /fitting. assert (Hd : (e - s) / step < 0) by (apply Z.div_lt_upper_bound; lia). lia.
Qed.
Lemma fitting_step room s e step :
  0 < step → s ≤ e → 0 ≤ room → fitting (Z.succ room) s e step = Z.succ (fitting room (s + step) e step).
Proof using Type.
  intros Hstep Hse Hroom. rw /fitting.
  assert (Hd : (e - (s + step)) / step = (e - s) / step - 1).
  { rw (_ : e - (s + step) = (e - s) + (-1) * step); [|lia]. rw Z.div_add; [|lia]. lia. }
  pose proof (Z.div_pos (e - s) step ltac:(lia) Hstep). rw Hd. lia.
Qed.

Lemma instants_exact room s e step :
  0 < step → nanos_min ≤ s → e + step ≤ nanos_max →
  instants room s e step = Some ((λ i, s + i * step) <$> seqZ 0 (fitting (Z.of_nat room) s e step)).
Proof using Type.
  intros Hstep. revert s. induction room as [|room IH]; intros s Hmin Hmax.
  { cbn [instants]. rw (_ : fitting (Z.of_nat 0) s e step = 0) //. rw /fitting. lia. }
  cbn [instants]. destruct (Z.leb_spec s e) as [Hse|Hes].
  - rw /advance. cbv zeta. rw (proj2 (Z.leb_le nanos_min (s + step))); [|lia].
    rw (proj2 (Z.leb_le (s + step) nanos_max)); [|lia]. cbn [andb mbind option_bind]. rw IH; [|lia..]. cbn [mbind option_bind].
    rw Nat2Z.inj_succ fitting_step; [|lia..]. f_equal.
    rw -Z.add_1_l seqZ_app; [|lia|rw /fitting; lia]. rw fmap_app.
    rw (_ : seqZ 0 1 = [0]) //. cbn [fmap list_fmap app]. f_equal; [lia|].
    rw -(fmap_add_seqZ 1 0) -list_fmap_compose. apply list_fmap_ext. intros i x _. simpl. lia.
  - rw fitting_done //.
Qed.

Lemma values_max_pos : VALUES_MAX ≠ 0%nat.
Proof using Type. rw /VALUES_MAX. lia. Qed.

(** Past the range of instants the request panics. *)
Lemma range_overflow_panics kind start end_ interval reversed s e :
  parse_instant start = Ok s → parse_instant end_ = Ok e → s ≤ e → nanos_max < s + step_of interval →
  generate_values kind start end_ interval reversed = None.
Proof using Type.
  intros Hs He Hse Hover. rw /generate_values Hs He. rw (proj2 (Z.ltb_ge e s)) //.
  destruct VALUES_MAX as [|room] eqn:Emax; [by apply values_max_pos in Emax|]. cbn [instants].
  rw (proj2 (Z.leb_le s e)) // /advance. cbv zeta.
  rw (proj2 (Z.leb_gt (s + step_of interval) nanos_max)) // andb_false_r //.
Qed.

(** An interval below a microsecond does not move the cursor. *)
Lemma instants_stuck room s e :
  nanos_min ≤ s → s ≤ e → s ≤ nanos_max → instants room s e 0 = Some (replicate room s).
Proof using Type.
  intros Hmin Hse Hmax. induction room as [|room IH]; [done|]. cbn [instants replicate].
  rw (proj2 (Z.leb_le s e)) // /advance Z.add_0_r. cbv zeta.
  rw (proj2 (Z.leb_le nanos_min s)) // (proj2 (Z.leb_le s nanos_max)) //. cbn [andb mbind option_bind].
  rw IH //.
Qed.

(** C38: A range of a backfill is exact: with a step of at least a microsecond that
    stays inside chrono's instants, the values are the start, the start plus
    one step and so on up to the end, which is included when a step meets it,
    as many as fit and at most 100,000, in order or reversed. *)
Theorem range_exact (kind : Kind) (start end_ : string) (interval : f64) (reversed : bool) (s e : Z) :
  parse_instant start = Ok s → parse_instant end_ = Ok e → s ≤ e →
  0 < step_of interval → nanos_min ≤ s → e + step_of interval ≤ nanos_max →
  generate_values kind start end_ interval reversed =
  let values := (λ i, render kind (s + i * step_of interval))
                <$> seqZ 0 (Z.min 100000 ((e - s) / step_of interval + 1)) in
  Some (Ok (if reversed then reverse values else values)).
Proof using Type.
  intros Hs He Hse Hstep Hmin Hmax. rw /generate_values Hs He. rw (proj2 (Z.ltb_ge e s)) //.
  rw instants_exact //. cbn [mbind option_bind]. cbv zeta. rw -list_fmap_compose.
  pose proof (Z.div_pos (e - s) (step_of interval) ltac:(lia) Hstep).
  rw (_ : fitting (Z.of_nat VALUES_MAX) s e (step_of interval)
          = Z.min 100000 ((e - s) / step_of interval + 1)); [done|].
  rw /fitting /VALUES_MAX Z2Nat.id; lia.
Qed.
End range_laws.

(** Days as they are counted here, for the examples. *)
Definition day_env : RangeEnv :=
  let day := 86400 * 1000000000 in
  {| parse_date t := if t =?s "day 1" then Some day else if t =?s "day 3" then Some (3 * day) else None;
     parse_rfc3339 _ := None; parse_datetime _ := None; format_date t := "day " +:+ dec (t / day);
     format_seconds t := dec (t / 1000000000); nanos_min := 0; nanos_max := 10 * day; f64_parse _ := None |}.

Lemma range_exact_witness :
  generate_values (H := day_env) KDate "day 1" "day 3" (f64_of_Z 86400) true
  = Some (Ok ["day 3"; "day 2"; "day 1"]).
Proof.
  rw (range_exact (H := day_env) KDate "day 1" "day 3" (f64_of_Z 86400) true
        (86400 * 1000000000) (3 * (86400 * 1000000000)));
    [vm_compute; reflexivity|vm_compute; try reflexivity; discriminate..].
Defined.
