(* ===== verification/ApiObserve.v ===== *)
(** * Events, rules, artifacts and variables (server/src/api/observability.rs)

    The requests that emit a custom event, write a rule, an artifact or a
    variable.  A rule written through the interface is checked against the
    graph of the rules that start flows: [refuse_unbounded_loop] is a search
    over it, and [loop_check_exact] says what it finds.  Encryption is a
    parameter ([SecretEnv]). *)

From S2P Require Import Prelude Float64 Json States Transitions Timer Schedules Model DepGraph Events Unique.
From S2P Require Import RuleMatching RuleTemplates ActiveIndex Resources WorkQueue Pool GroupCommit Tables.
From S2P Require Import Store Reader StoreAdmin StoreRegistry Integrity RuleReader Replay Pages Validate App.
From S2P Require Import Scheduler Waits Dispatch RulesEngine ApiRuns ApiEngine.
From Stdlib Require Import Ascii.

(** The key file of the server and the serialised form of a rule. *)
Class SecretEnv : Type := {
  encrypt : string → option string;
  decrypt : string → option string;
  (** the server's token and version *)
  config_token : option string;
  config_version : string;
  spec_to_string : RuleSpec → string;
}.

(** ** Bodies *)

Record EmitEventBody : Type := mkEmitEventBody {
  eb_name : string;
  eb_payload : Map;
  eb_run_id : option Z;
  eb_flow_id : option Z;
  eb_resource : option Resource;
}.
Record RuleBody : Type := mkRuleBody {
  rb_name : string;
  rb_enabled : bool;
  rb_spec : RuleSpec;
}.
Record RulePatch : Type := mkRulePatch {
  rp_name : option string;
  rp_enabled : option bool;
  rp_when : option RuleMatch;
  rp_actions : option (list RuleAction);
  rp_once : option string;
  rp_cooldown_seconds : option f64;
  rp_max_per_minute : option Z;
  rp_allow_self : option bool;
  rp_condition : option (option string);
  rp_max_per_chain : option Z;
  rp_on_limit : option (option RuleAction);
  rp_unless : option (option RuleMatch);
  rp_within : option (option f64);
  rp_at : option (option RuleClock);
}.
Record ArtifactBody : Type := mkArtifactBody {
  ab_run_id : Z;
  ab_task_run_id : option Z;
  ab_kind : string;
  ab_key : option string;
  ab_data : Value;
}.
Record VariableBody : Type := mkVariableBody {
  vb_name : string;
  vb_value : Value;
  vb_tags : list string;
  vb_secret : bool;
  vb_overwrite : bool;
}.
Record VariablePatch : Type := mkVariablePatch {
  vp_value : option Value;
  vp_tags : option (list string);
  vp_secret : option bool;
}.
Record VariableWithRaw : Type := mkVariableWithRaw {
  vw_variable : VariableRow;
  vw_raw : option string;
  vw_plain : option Value;
}.

(** ** Loops of rules *)

Definition edge : Type := string * string.
Definition run_flow_targets (actions : list RuleAction) : list string :=
  omap ra_flow (List.filter (λ a, ra_kind a =?s "run_flow") actions).
(** From every source flow to every target of the other enabled rules. *)
Definition rule_edges (own : option Z) (rules : list RuleRow) : list edge :=
  flat_map (λ r, if negb (rr_enabled r) || bool_decide (Some (rr_id r) = own) then []
                 else flat_map (λ from, pair from <$> run_flow_targets (rs_actions (rr_spec r)))
                        (rm_flows (rs_when (rr_spec r)))) rules.
(** A rule that runs its own source is stopped by the self-trigger guard,
    unless it allows it. *)
Definition loop_targets (spec : RuleSpec) : list string :=
  List.filter (λ to, rs_allow_self spec || negb (bool_decide (to ∈ rm_flows (rs_when spec))))
    (run_flow_targets (rs_actions spec)).

(** The search from one target.  The stack holds the paths to look at, its top
    first; a path is kept with its end first. *)
Definition push_edges (edges : list edge) (here : string) (path : list string) (stack : list (list string))
    : list (list string) :=
  fold_left (λ st (e : edge), if e.1 =?s here then (e.2 :: path) :: st else st) edges stack.
Fixpoint find_loop (n : nat) (sources : list string) (edges : list edge) (stack : list (list string))
    (seen : gset string) : option (list string) :=
  match n, stack with
  | O, _ | _, [] => None
  | S n', path :: stack =>
      let here := default EmptyString (head path) in
      if bool_decide (here ∈ sources) then Some (here :: reverse path)
      else if bool_decide (here ∈ seen) then find_loop n' sources edges stack seen
      else find_loop n' sources edges (push_edges edges here path stack) ({[here]} ∪ seen)
  end.
(** Each edge is pushed once at most: the fuel is enough ([loop_check_exact]). *)
Definition loop_through (sources : list string) (edges : list edge) (target : string) : option (list string) :=
  find_loop (S (S (length edges))) sources edges [[target]] ∅.
Fixpoint first_loop (sources : list string) (edges : list edge) (targets : list string) : option (list string) :=
  match targets with
  | [] => None
  | t :: ts => match loop_through sources edges t with Some p => Some p | None => first_loop sources edges ts end
  end.
Definition refuse_unbounded_loop (rules : list RuleRow) (spec : RuleSpec) (own : option Z) : result unit string :=
  if (0 <? rs_max_per_chain spec) || bool_decide (rm_flows (rs_when spec) = []) then Ok tt
  else
    match loop_targets spec with
    | [] => Ok tt
    | targets =>
        match first_loop (rm_flows (rs_when spec)) (rule_edges own rules) targets with
        | Some path => Err ("this rule closes a loop (" +:+ join " → " path +:+ "); set max_per_chain to bound it")
        | None => Ok tt
        end
    end.

(** ** Patches of a rule *)

Definition structural (b : RulePatch) : bool :=
  is_some (rp_name b) || is_some (rp_when b) || is_some (rp_actions b) || is_some (rp_once b)
  || is_some (rp_cooldown_seconds b) || is_some (rp_max_per_minute b) || is_some (rp_allow_self b)
  || is_some (rp_condition b) || is_some (rp_max_per_chain b) || is_some (rp_on_limit b)
  || is_some (rp_unless b) || is_some (rp_within b) || is_some (rp_at b).
Definition patched_spec (spec : RuleSpec) (b : RulePatch) : RuleSpec :=
  {| rs_when := default (rs_when spec) (rp_when b); rs_actions := default (rs_actions spec) (rp_actions b);
     rs_once := default (rs_once spec) (rp_once b);
     rs_cooldown_seconds := default (rs_cooldown_seconds spec) (rp_cooldown_seconds b);
     rs_max_per_minute := default (rs_max_per_minute spec) (rp_max_per_minute b);
     rs_allow_self := default (rs_allow_self spec) (rp_allow_self b);
     rs_after_consecutive := rs_after_consecutive spec;
     rs_condition := match rp_condition b with
                     | Some c => opt_filter (λ c, negb (str_is_empty (trim c))) c
                     | None => rs_condition spec
                     end;
     rs_max_per_chain := default (rs_max_per_chain spec) (rp_max_per_chain b);
     rs_on_limit := default (rs_on_limit spec) (rp_on_limit b);
     rs_unless := default (rs_unless spec) (rp_unless b); rs_within := default (rs_within spec) (rp_within b);
     rs_at := default (rs_at spec) (rp_at b) |}.

(** ** Names of variables *)

Definition is_name_char (c : ascii) : bool :=
  let n := nat_of_ascii c in
  ((97 <=? n)%nat && (n <=? 122)%nat) || ((48 <=? n)%nat && (n <=? 57)%nat)
  || existsb (Ascii.eqb c) ["_"; "-"; "/"; "."]%char.
Definition valid_name (name : string) : bool :=
  negb (str_is_empty name) && (str_len name <=? 128)%nat && forallb is_name_char (chars name)
  && negb (existsb (starts_with name) ["-"; "/"; "."]).
Definition bad_name : ApiError :=
  Unprocessable "variable names use lowercase letters, digits, '_', '-', '/', and '.'".
Definition variable_to_value (v : VariableRow) : Value :=
  VObject [("created_at", num (vr_created_at v)); ("name", VString (vr_name v)); ("secret", VBool (vr_secret v));
           ("tags", VArray (VString <$> vr_tags v)); ("updated_at", num (vr_updated_at v)); ("value", vr_value v)].
Definition ARTIFACT_MAX_BYTES : Z := 1048576.
Definition VARIABLE_MAX_BYTES : Z := 65536.
Definition byte_len (s : string) : Z := Z.of_nat (str_len s).

Section api_observe.
Context `{StoreEnv, PoolEnv, ServerEnv, ScheduleEnv, ReaderEnv, RowEnv, JinjaEnv, SecretEnv} (ops : Ops).

(** ** Events *)

(** The check is on the trimmed name; the event is recorded under the name as
    it was sent. *)
Definition emit_event (b : EmitEventBody) (a : App) : App * result Event ApiError :=
  if str_is_empty (trim (eb_name b)) then (a, Err (Unprocessable "event name is required"))
  else
    match check_event_name (trim (eb_name b)) with
    | Err e => (a, Err (Unprocessable (ne_message e)))
    | Ok _ =>
        let '(a, r) :=
          match eb_resource b with
          | Some resource =>
              record_event_full ops (mkNewEvent (eb_name b) (eb_run_id b) (eb_flow_id b) (VObject (eb_payload b))
                                       resource []) a
          | None => record_event ops (eb_name b) (eb_run_id b) (eb_flow_id b) (VObject (eb_payload b)) a
          end in
        match r with
        | Err e => (a, Err (ApiError_from e))
        | Ok id => (a, match get_event id (store a) with
                       | Some e => Ok e
                       | None => Err (InternalText "event vanished")
                       end)
        end
    end.

(** ** Rules *)

Definition rule_missing : ApiError := ApiNotFound "rule not found".
Definition published_rule (id : Z) (gone : ApiError) (a : App) : App * result RuleRow ApiError :=
  match get_cached_rule id a with
  | Some row => (emit (PubRule row) a, Ok row)
  | None => (a, Err gone)
  end.
Definition create_rule (b : RuleBody) (a : App) : App * result RuleRow ApiError :=
  match validate_spec (rb_spec b) with
  | Err e => (a, Err (Unprocessable e))
  | Ok _ =>
      if existsb (λ x, ra_kind x =?s "call") (rs_actions (rb_spec b))
      then (a, Err (Unprocessable "call actions are only available to code rules"))
      else
        match (if rb_enabled b then refuse_unbounded_loop (rules (rules_state a)) (rb_spec b) None else Ok tt) with
        | Err e => (a, Err (Unprocessable e))
        | Ok _ =>
            match write (upsert_rule (clock a) (mkRuleWrite None (rb_name b) (rb_enabled b) "ui" None
                                                  (spec_to_string (rb_spec b)))) a with
            | (a, Err e) => (a, Err (ApiError_from e))
            | (a, Ok id) => published_rule id (InternalText "rule vanished") (load a)
            end
        end
  end.
Definition patch_rule (id : Z) (b : RulePatch) (a : App) : App * result RuleRow ApiError :=
  match get_cached_rule id a with
  | None => (a, Err rule_missing)
  | Some current =>
      let code := rr_source current =?s "code" in
      if code && structural b
      then (a, Err (Conflict (VObject [("error", VString "code rules are read-only; only enabled can change")])))
      else
        let spec := patched_spec (rr_spec current) b in
        let enabled := default (rr_enabled current) (rp_enabled b) in
        match validate_spec spec with
        | Err e => (a, Err (Unprocessable e))
        | Ok _ =>
            match (if enabled && negb code then refuse_unbounded_loop (rules (rules_state a)) spec (Some id)
                   else Ok tt) with
            | Err e => (a, Err (Unprocessable e))
            | Ok _ =>
                match write (upsert_rule (clock a)
                               (mkRuleWrite (Some id) (default (rr_name current) (rp_name b)) enabled
                                  (rr_source current) (rr_module current) (spec_to_string spec))) a with
                | (a, Err e) => (a, Err (ApiError_from e))
                | (a, Ok _) =>
                    let disabling := bool_decide (rp_enabled b = Some false) && rr_enabled current in
                    let a := if disabling then cancel_expectations id a else a in
                    published_rule id rule_missing (load a)
                end
            end
        end
  end.
Definition delete_rule_request (id : Z) (a : App) : App * result unit ApiError :=
  match get_cached_rule id a with
  | None => (a, Err rule_missing)
  | Some current =>
      if rr_source current =?s "code"
      then (a, Err (Conflict (VObject [("error", VString "code rules are removed by deleting the decorator")])))
      else
        let a := (write_ (delete_rule id) (cancel_expectations id a)).1 in
        (emit (Publish "rule.updated" (dec id) (VObject [("deleted", VBool true); ("id", num id)])) (load a), Ok tt)
  end.
Definition rule_expectations (id : Z) (open : option bool) (limit : option nat) (a : App)
    : result (list Expectation) ApiError :=
  match get_cached_rule id a with
  | None => Err rule_missing
  | Some _ => Ok (expectations_by_rule id (default true open) (default 200%nat limit) (store a))
  end.

(** ** Artifacts *)

Definition create_artifact (b : ArtifactBody) (a : App) : App * result Artifact ApiError :=
  let data := value_to_string (ab_data b) in
  if ARTIFACT_MAX_BYTES <? byte_len data then (a, Err (Unprocessable "artifact exceeds 1 MB"))
  else
    match write (upsert_artifact (clock a)
                   (mkUpsertArtifact (ab_run_id b) (ab_task_run_id b) (ab_kind b) (ab_key b) data None None)) a with
    | (a, Err e) => (a, Err (ApiError_from e))
    | (a, Ok id) =>
        match get_artifact id (store a) with
        | None => (a, Err (InternalText "artifact vanished"))
        | Some row => (emit (PubArtifact row) a, Ok row)
        end
    end.

(** ** Variables *)

(** The value as it is stored: its text, encrypted when it is a secret. *)
Definition store_value (v : Value) (secret : bool) : result string ApiError :=
  let text := value_to_string v in
  if VARIABLE_MAX_BYTES <? byte_len text then Err (Unprocessable "variable value exceeds 64 KB")
  else if secret then match encrypt text with Some t => Ok t | None => Err (InternalText "encryption failed") end
  else Ok text.
Definition written_variable (name stored : string) (tags : list string) (secret : bool) (a : App)
    : App * result VariableRow ApiError :=
  let a := write_only (set_variable_row (clock a) name stored (strings_to_string tags) secret) a in
  match get_variable name (store a) with
  | None => (a, Err (InternalText "variable vanished"))
  | Some (row, _) => (emit (Publish "variable.updated" name (variable_to_value row)) a, Ok row)
  end.
Definition set_variable_inner (name : string) (v : Value) (tags : list string) (secret : bool) (a : App)
    : App * result VariableRow ApiError :=
  if negb (valid_name name) then (a, Err bad_name)
  else match store_value v secret with
       | Err e => (a, Err e)
       | Ok stored => written_variable name stored tags secret a
       end.
Definition create_variable (b : VariableBody) (a : App) : App * result VariableRow ApiError :=
  if negb (valid_name (vb_name b)) then (a, Err bad_name)
  else if negb (vb_overwrite b) && is_some (get_variable (vb_name b) (store a))
  then (a, Err (Conflict (VObject [("error", VString ("variable " +:+ vb_name b +:+ " exists"))])))
  else set_variable_inner (vb_name b) (vb_value b) (vb_tags b) (vb_secret b) a.
Definition variable_missing : ApiError := ApiNotFound "variable not found".
Definition read_text (t : string) : Value := default (VString t) (value_from_str t).
Definition get_variable_request (name : string) (raw_ decrypt_ : bool) (a : App) : result VariableWithRaw ApiError :=
  match get_variable name (store a) with
  | None => Err variable_missing
  | Some (row, raw) =>
      let shown := opt_filter (λ _, vr_secret row && raw_) (Some raw) in
      if vr_secret row && decrypt_ then
        match config_token with
        | None => Err (Forbidden "decrypted secrets are served only by a server with a token")
        | Some _ =>
            match decrypt raw with
            | None => Err (InternalText "decryption failed")
            | Some text => Ok (mkVariableWithRaw row shown (Some (read_text text)))
            end
        end
      else Ok (mkVariableWithRaw row shown None)
  end.
(** The text to store after a patch: a new value, the old text, or the old
    value encoded the other way. *)
Definition patched_text (b : VariablePatch) (current : VariableRow) (raw : string) (secret : bool)
    : result string ApiError :=
  match vp_value b with
  | Some v => store_value v secret
  | None =>
      if bool_decide (secret = vr_secret current) then Ok raw
      else if vr_secret current then
        match decrypt raw with
        | None => Err (InternalText "decryption failed")
        | Some plain => store_value (read_text plain) secret
        end
      else store_value (read_text raw) secret
  end.
Definition patch_variable (name : string) (b : VariablePatch) (a : App) : App * result VariableRow ApiError :=
  match get_variable name (store a) with
  | None => (a, Err variable_missing)
  | Some (current, raw) =>
      let secret := default (vr_secret current) (vp_secret b) in
      match patched_text b current raw secret with
      | Err e => (a, Err e)
      | Ok stored => written_variable name stored (default (vr_tags current) (vp_tags b)) secret a
      end
  end.
Definition delete_variable_request (name : string) (a : App) : App * result unit ApiError :=
  let '(a, ok) := write_ (delete_variable name) a in
  if ok then (emit (Publish "variable.updated" name
                      (VObject [("deleted", VBool true); ("name", VString name)])) a, Ok tt)
  else (a, Err variable_missing).
End api_observe.

(** ** What the search finds *)

Definition linked (edges : list edge) (x y : string) : Prop := (x, y) ∈ edges.
(** A path of the search, its end first, from a target. *)
Definition walked (edges : list edge) (target : string) (path : list string) : Prop :=
  Sorted (flip (linked edges)) path ∧ last path = Some target.
Definition top (path : list string) : string := default EmptyString (head path).
(** What was seen leads to what was seen or is still on the stack. *)
Definition explored (sources : list string) (edges : list edge) (stack : list (list string)) (seen : gset string) : Prop :=
  ∀ x, x ∈ seen → (x ∉ sources) ∧ ∀ y, linked edges x y → y ∈ seen ∨ y ∈ top <$> stack.
Definition unseen (edges : list edge) (seen : gset string) : list edge :=
  List.filter (λ e, negb (bool_decide (e.1 ∈ seen))) edges.

Lemma walked_ne edges t path : walked edges t path → path ≠ [].
Proof. intros [_ H] ->. done. Qed.

Lemma push_edges_elem edges here path stack q :
  q ∈ push_edges edges here path stack ↔ q ∈ stack ∨ ∃ y, linked edges here y ∧ q = y :: path.
Proof.
  rw /push_edges /linked. revert stack. induction edges as [|[x y] edges IH]; intros stack; simpl.
  { split; [by left|]. intros [?|(y & Hy & _)]; [done|]. by apply elem_of_nil in Hy. }
  rw IH. destruct (String.eqb_spec x here) as [->|Hne].
  - rw elem_of_cons. setoid_rewrite elem_of_cons. naive_solver.
  - setoid_rewrite elem_of_cons. naive_solver.
Qed.
Lemma push_edges_length edges here path stack :
  length (push_edges edges here path stack)
  = (length stack + length (List.filter (λ e : edge, e.1 =?s here) edges))%nat.
Proof.
  rw /push_edges. revert stack. induction edges as [|[x y] edges IH]; intros stack; simpl; [lia|].
  rw IH. destruct (x =?s here); simpl; lia.
Qed.
Lemma unseen_le edges seen : (length (unseen edges seen) ≤ length edges)%nat.
Proof. apply List.filter_length_le. Qed.
(** Seeing a node moves its edges from the unseen ones to the stack. *)
Lemma unseen_step edges here seen :
  here ∉ seen →
  (length (unseen edges ({[here]} ∪ seen)) + length (List.filter (λ e : edge, e.1 =?s here) edges)
   = length (unseen edges seen))%nat.
Proof.
  intros Hn. rw /unseen. induction edges as [|[x y] edges IH]; [done|]. simpl.
  destruct (String.eqb_spec x here) as [->|Hne].
  - rw (bool_decide_true (here ∈ {[here]} ∪ seen)); [|set_solver].
    rw (bool_decide_false (here ∈ seen)) //. simpl. lia.
  - rw (bool_decide_ext (x ∈ {[here]} ∪ seen) (x ∈ seen)); [|set_solver].
    destruct (bool_decide _); simpl; lia.
Qed.

Section search.
Context (sources : list string) (edges : list edge) (target : string).

Lemma walked_push path y : walked edges target path → linked edges (top path) y → walked edges target (y :: path).
Proof using Type.
  intros [Hs Hl] Hy. destruct path as [|x path]; [done|]. split; [|done].
  constructor; [done|]. by constructor.
Qed.

Lemma find_loop_sound n stack seen p :
  (∀ q, q ∈ stack → walked edges target q) → find_loop n sources edges stack seen = Some p →
  ∃ path, walked edges target path ∧ top path ∈ sources ∧ p = top path :: reverse path.
Proof using Type.
  revert stack seen. induction n as [|n IH]; intros [|path stack] seen Hst; try done.
  cbn [find_loop]. cbv zeta. fold (top path).
  case_bool_decide as Hsrc; [intros [= <-]; exists path; split; [apply Hst; set_solver|done]|].
  case_bool_decide as Hseen; apply IH; [set_solver|].
  intros q [?|(y & Hy & ->)]%push_edges_elem; [set_solver|]. apply walked_push; [apply Hst; set_solver|done].
Qed.

(** With room for every step the search ends with what it saw closed. *)
Lemma find_loop_complete n stack seen :
  (length stack + length (unseen edges seen) < n)%nat → explored sources edges stack seen →
  find_loop n sources edges stack seen = None →
  ∃ all : gset string, seen ⊆ all ∧ (∀ q, q ∈ stack → top q ∈ all) ∧ explored sources edges [] all.
Proof using Type.
  revert stack seen. induction n as [|n IH]; intros [|path stack] seen Hn Hex; try lia.
  { intros _. exists seen. split; [done|]. split; [set_solver|done]. }
  cbn [find_loop]. cbv zeta. fold (top path). case_bool_decide as Hsrc; [done|].
  case_bool_decide as Hseen; intros Hf.
  - apply IH in Hf as (all & Hs & Ht & Hc); [|simpl in Hn; lia|].
    + exists all. split; [done|]. split; [|done]. intros q [->|?]%elem_of_cons; auto.
    + intros x Hx. destruct (Hex x Hx) as [Hns Hnext]. split; [done|]. intros y Hy.
      destruct (Hnext y Hy) as [?|Hin]; [by left|]. rw fmap_cons in Hin.
      apply elem_of_cons in Hin as [->|?]; auto.
  - apply IH in Hf as (all & Hs & Ht & Hc).
    + exists all. split; [set_solver|]. split; [|done].
      intros q [->|Hq]%elem_of_cons; [set_solver|]. apply Ht, push_edges_elem. by left.
    + rw push_edges_length. pose proof (unseen_step edges (top path) seen Hseen). simpl in Hn. lia.
    + intros x Hx. destruct (decide (x = top path)) as [->|Hne].
      * split; [done|]. intros y Hy. right. apply list_elem_of_fmap. exists (y :: path). split; [done|].
        apply push_edges_elem. right. by exists y.
      * destruct (Hex x) as [Hns Hnext]; [set_solver|]. split; [done|]. intros y Hy.
        destruct (Hnext y Hy) as [?|Hin]; [set_solver|]. rw fmap_cons in Hin.
        apply elem_of_cons in Hin as [->|(q & -> & Hq)%list_elem_of_fmap]; [set_solver|].
        right. apply list_elem_of_fmap. exists q. split; [done|]. apply push_edges_elem. by left.
Qed.

Lemma explored_reaches all x y : explored sources edges [] all → rtc (linked edges) x y → x ∈ all → y ∈ all.
Proof using Type.
  intros Hex. induction 1 as [|x z y Hxz _ IH]; [done|]. intros Hx. apply IH.
  destruct (Hex x Hx) as [_ Hn]. destruct (Hn z Hxz) as [?|Hin]; [done|]. by apply elem_of_nil in Hin.
Qed.

Lemma loop_through_sound p :
  loop_through sources edges target = Some p →
  ∃ path, walked edges target path ∧ top path ∈ sources ∧ p = top path :: reverse path.
Proof using Type.
  apply find_loop_sound. intros q ->%list_elem_of_singleton. split; [by repeat constructor|done].
Qed.
Lemma loop_through_complete source :
  loop_through sources edges target = None → source ∈ sources → ¬ rtc (linked edges) target source.
Proof using Type.
  intros Hf Hs Hr. apply find_loop_complete in Hf as (all & _ & Ht & Hc).
  - destruct (Hc source) as [Hns _]; [|done]. eapply explored_reaches; [done|done|].
    apply (Ht [target]). set_solver.
  - pose proof (unseen_le edges ∅). cbn [length]. lia.
  - intros x Hx. set_solver.
Qed.
End search.

Lemma walked_reaches edges t path : walked edges t path → rtc (linked edges) t (top path).
Proof.
  induction path as [|x path IH]; [by intros [_ ?]|]. intros [Hs Hl].
  destruct path as [|y path]; [simpl in Hl; by simplify_eq|].
  apply Sorted_inv in Hs as [Hs Hy]. inversion Hy; subst. eapply rtc_r; [apply IH; by split|done].
Qed.

Lemma first_loop_sound sources edges targets p :
  first_loop sources edges targets = Some p →
  ∃ t path, t ∈ targets ∧ walked edges t path ∧ top path ∈ sources ∧ p = top path :: reverse path.
Proof.
  induction targets as [|t ts IH]; [done|]. simpl. destruct (loop_through _ _ t) as [q|] eqn:E.
  - intros [= ->]. apply loop_through_sound in E as (path & H1 & H2 & H3). exists t, path. set_solver.
  - intros (u & path & Hu & Hrest)%IH. exists u, path. set_solver.
Qed.
Lemma first_loop_complete sources edges targets t s :
  first_loop sources edges targets = None → t ∈ targets → s ∈ sources → ¬ rtc (linked edges) t s.
Proof.
  induction targets as [|u ts IH]; [set_solver|]. simpl.
  destruct (loop_through _ _ u) eqn:E; [done|]. intros Hf [->|?]%elem_of_cons Hs; [|auto].
  by eapply loop_through_complete.
Qed.

