(* ===== verification/ApiWorkers.v ===== *)
(** * Remote workers (server/src/api/workers.rs)

    Registration and heartbeats, what the server makes of the code a worker
    says it has, and the drain, resume, resize and forget of the Workers tab.
    A worker's code is compared by fingerprint ([module_hash]).  The lock the
    state of a worker is written under is taken and released inside one
    handler, and handlers do not interleave here. *)

From S2P Require Import Prelude Float64 Json States Transitions Timer Schedules Model DepGraph Events Unique.
From S2P Require Import RuleMatching RuleTemplates ActiveIndex Resources WorkQueue Pool GroupCommit Tables.
From S2P Require Import Store Reader StoreAdmin StoreRegistry Integrity RuleReader Replay Pages Validate App.
From S2P Require Import Scheduler Waits Dispatch RulesEngine ApiRuns ApiEngine ApiObserve.
From Stdlib Require Import Ascii.

Definition HEARTBEAT_SECS : Z := 5.
Definition STATS_FLOWS : nat := 200.

Record WorkerFlow : Type := mkWorkerFlow {
  wf_project : string;
  wf_flow : string;
  wf_module : string;
  wf_module_hash : string;
}.
Record RegisterBody : Type := mkRegisterBody {
  rg_name : string;
  rg_version : string;
  rg_cpus : Z;
  rg_processors : Z;
  rg_labels : Map;
  rg_shared_paths : list string;
  rg_meta : Map;
  rg_flows : list WorkerFlow;
}.
Record RegisterResponse : Type := mkRegisterResponse {
  rgr_worker_id : Z;
  rgr_heartbeat_secs : Z;
  rgr_state : string;
  rgr_refused : list string;
  rgr_drift : list string;
}.
Record HeartbeatBody : Type := mkHeartbeatBody {
  hb_engines : list string;
  hb_meta : Map;
  hb_flows : option (list WorkerFlow);
}.
Record EngineStats : Type := mkEngineStats {
  es_view : EngineView;
  es_flow : option string;
}.
Record HeartbeatStats : Type := mkHeartbeatStats {
  hs_since : Z;
  hs_by_flow : list HostFlowCounts;
  hs_engines : list EngineStats;
}.
Record HeartbeatResponse : Type := mkHeartbeatResponse {
  hbr_commands : list Value;
  hbr_worker_state : string;
  hbr_drift : list string;
  hbr_stats : HeartbeatStats;
}.
Record WorkerView : Type := mkWorkerView {
  wv_worker : Worker;
  wv_running : nat;
  wv_idle : nat;
  wv_flows : Z;
  wv_drift : list string;
}.
Record TimelineRun : Type := mkTimelineRun {
  tn_run_id : Z;
  tn_flow : string;
  tn_processor : option Z;
  tn_state : option string;
  tn_start : option Z;
  tn_end : option Z;
}.
Record Timeline : Type := mkTimeline {
  tm_host : string;
  tm_since : Z;
  tm_runs : list TimelineRun;
  tm_next : list TimelineRun;
}.

Definition major (version : string) : string := default version (head (split_char "."%char version)).
(** The address a proxy in front reports. *)
Definition client_address (forwarded real_ip : option string) : option string :=
  opt_filter (λ v, negb (str_is_empty v))
    (trim <$> and_then (or_else forwarded real_ip) (λ v, head (split_char ","%char v))).

(** ** The code a worker has *)

Record Evaluation : Type := mkEvaluation {
  ev_rows : list (Z * string);
  ev_eligible : gset Z;
  ev_drift : list string;
  ev_refused : list string;
}.
Definition note_drift (m : string) (l : list string) : list string := if bool_decide (m ∈ l) then l else l ++ [m].

Section api_workers.
Context `{StoreEnv, PoolEnv, ServerEnv, ScheduleEnv, ReaderEnv, RowEnv, JinjaEnv, ModuleEnv, SecretEnv} (ops : Ops).

Definition flow_named (flows : list Flow) (project name : string) : option Flow :=
  find (λ f, (flow_project f =?s project) && (flow_name f =?s name)) (reverse flows).
Definition evaluate_one (flows : list Flow) (e : Evaluation) (wf : WorkerFlow) : Evaluation :=
  match flow_named flows (wf_project wf) (wf_flow wf) with
  | None =>
      mkEvaluation (ev_rows e) (ev_eligible e) (ev_drift e) (ev_refused e ++ [wf_project wf +:+ "/" +:+ wf_flow wf])
  | Some flow =>
      let rows := ev_rows e ++ [(flow_id flow, wf_module_hash wf)] in
      if bool_decide (module_hash (flow_source_dir flow) (flow_module flow) = Some (wf_module_hash wf))
         && (wf_module wf =?s flow_module flow)
      then mkEvaluation rows ({[flow_id flow]} ∪ ev_eligible e) (ev_drift e) (ev_refused e)
      else mkEvaluation rows (ev_eligible e) (note_drift (flow_module flow) (ev_drift e)) (ev_refused e)
  end.
Definition sorted_texts (l : list string) : list string := sort_by_text (λ x, x) l.
Definition evaluate (flows : list WorkerFlow) (s : Store) : Evaluation :=
  let e := fold_left (evaluate_one (list_flows None None s)) flows (mkEvaluation [] ∅ [] []) in
  mkEvaluation (ev_rows e) (ev_eligible e) (sorted_texts (ev_drift e)) (sorted_texts (ev_refused e)).
(** From the fingerprints the worker last reported; the name of its module is
    not among them. *)
Definition judge_stored (ed : gset Z * list string) (d : Z * string * string * string) : gset Z * list string :=
  let '(fid, source_dir, module, hash) := d in
  if bool_decide (module_hash source_dir module = Some hash)
  then ({[fid]} ∪ ed.1, ed.2) else (ed.1, note_drift module ed.2).
Definition evaluate_stored (wid : Z) (s : Store) : gset Z * list string :=
  let ed := fold_left judge_stored (worker_flow_details wid s) (∅, []) in (ed.1, sorted_texts ed.2).

(** ** Registration *)

Definition texts (l : list string) : Value := VArray (VString <$> l).
Definition worker_updated (wid : Z) (a : App) : App :=
  emit (Publish "worker.updated" (dec wid) (VObject [("id", num wid)])) a.
Definition registration (b : RegisterBody) (address : option string) : WorkerRegistration :=
  let cpus := Z.max (rg_cpus b) 1 in
  mkWorkerRegistration (trim (rg_name b)) (rg_version b) cpus (Z.max 1 (Z.min (rg_processors b) cpus))
    (rg_labels b) (rg_shared_paths b)
    (match address with Some t => map_insert "address" (VString t) (rg_meta b) | None => rg_meta b end).
Definition refuse_registration (b : RegisterBody) : option ApiError :=
  if is_none config_token then
    Some (Forbidden "remote workers need a server token: set [server] token or start serve with --token")
  else if negb (major (rg_version b) =?s major config_version) then
    Some (Conflict (VObject [("error", VString ("worker version " +:+ rg_version b +:+ " and server version "
                               +:+ config_version +:+ " differ in their major version"))]))
  else if str_is_empty (trim (rg_name b)) then Some (Unprocessable "a worker needs a name")
  else if to_ascii_lowercase (trim (rg_name b)) =?s "server" then
    Some (Unprocessable (debug_str "server"
      +:+ " names the server's own processors; start the worker with another --name"))
  else None.
Definition register (b : RegisterBody) (address : option string) (a : App) : App * result RegisterResponse ApiError :=
  match refuse_registration b with
  | Some e => (a, Err e)
  | None =>
      let ev := evaluate (rg_flows b) (store a) in
      let '(a, wid) := write_ (register_worker_row (clock a) (registration b address)) a in
      match get_worker wid (store a) with
      | None => (a, Err (InternalText "worker vanished"))
      | Some w =>
          match write (set_worker_flows wid (ev_rows ev)) a with
          | (a, Err e) => (a, Err (ApiError_from e))
          | (a, Ok _) =>
              let a := on_supervisor (sync_worker (instant a) wid (wk_name w) (wk_processors w) (wk_state w)
                                        (ev_eligible ev)) a in
              let a := record_engine_event ops WorkerRegistered None None
                         [("drift", texts (ev_drift ev)); ("name", VString (wk_name w));
                          ("refused", texts (ev_refused ev)); ("version", VString (wk_version w));
                          ("worker_id", num wid)] a in
              let a := worker_updated wid a in
              (App.ensure_capacity a, Ok (mkRegisterResponse wid HEARTBEAT_SECS (wk_state w) (ev_refused ev) (ev_drift ev)))
          end
      end
  end.

(** ** Heartbeats *)

Definition stats (w : Worker) (a : App) : HeartbeatStats :=
  let since := default (wk_registered_at w) (get_i64 "started_at" (wk_meta w)) in
  let views := worker_engines (instant a) (wk_id w) (supervisor a) in
  let flows := flow_names (omap view_run_id views) (store a) in
  mkHeartbeatStats since (runs_by_flow_on_host (wk_name w) since STATS_FLOWS (store a))
    ((λ e, mkEngineStats e (view_run_id e ≫= λ id, flows !! id)) <$> views).
Definition unknown_worker : ApiError :=
  Conflict (VObject [("error", VString "unknown worker"); ("register", VBool true)]).
(** The code the worker reports anew. *)
Definition refresh_flows (wid : Z) (flows : option (list WorkerFlow)) (a : App) : App * result unit ApiError :=
  match flows with
  | None => (a, Ok tt)
  | Some flows =>
      match write (set_worker_flows wid (ev_rows (evaluate flows (store a)))) a with
      | (a, Err e) => (a, Err (ApiError_from e))
      | (a, Ok _) => (on_supervisor (clear_broken wid) a, Ok tt)
      end
  end.
Definition heartbeat (wid : Z) (b : HeartbeatBody) (a : App) : App * result HeartbeatResponse ApiError :=
  match get_worker wid (store a) with
  | None => (a, Err unknown_worker)
  | Some w =>
      do! (a, _) := refresh_flows wid (hb_flows b) a in
      let '(eligible, drift) := evaluate_stored wid (store a) in
      let stored := default (wk_state w) (wk_state <$> get_worker wid (store a)) in
      let state_now := if stored =?s "offline" then "online" else stored in
      let a := on_supervisor (sync_worker (instant a) wid (wk_name w) (wk_processors w) state_now eligible) a in
      let '(s, commands) := worker_heartbeat (instant a) wid (hb_engines b) (supervisor a) in
      let a := set_supervisor s a in
      match commands with
      | None => (a, Err unknown_worker)
      | Some commands =>
          let a := write_only (touch_worker (clock a) wid (map_insert "drift" (texts drift) (hb_meta b))) a in
          let a := if wk_state w =?s "offline" then worker_updated wid a else a in
          (a, Ok (mkHeartbeatResponse commands state_now drift (stats w a)))
      end
  end.

(** ** The Workers tab *)

Definition engines_at (wid : Z) (busy : bool) (s : Supervisor) : nat :=
  length (List.filter (λ e, at_location (WorkQueue.Worker wid) e && Bool.eqb (is_some (e_current_run e)) busy)
            (engine_list (WorkQueue.inner s))).
(** A worker as the supervisor has it, by name. *)
Record WorkerSnapshot : Type := mkWorkerSnapshot {
  ss_id : Z;
  ss_name : string;
  ss_state : string;
  ss_processors : Z;
  ss_running : nat;
  ss_idle : nat;
}.
Definition workers_snapshot (s : Supervisor) : list WorkerSnapshot :=
  sort_by_text ss_name
    ((λ iw, mkWorkerSnapshot iw.1 (WorkQueue.w_name iw.2) (WorkQueue.w_state iw.2) (WorkQueue.w_processors iw.2)
              (engines_at iw.1 true s) (engines_at iw.1 false s))
     <$> map_to_list (WorkQueue.workers (WorkQueue.inner s))).
Definition with_worker_state (st : string) (w : Worker) : Worker :=
  mkWorker (wk_id w) (wk_name w) (wk_version w) (wk_cpus w) (wk_processors w) (wk_labels w) (wk_shared_paths w)
    (wk_meta w) st (wk_registered_at w) (wk_last_seen_at w).
Definition strings_from_value (v : Value) : option (list string) :=
  match v with VArray l => mapM as_str l | _ => None end.
Definition worker_view (a : App) (w : Worker) : WorkerView :=
  let live := find (λ x, ss_id x =? wk_id w) (workers_snapshot (supervisor a)) in
  let drift := default [] (and_then (map_get "drift" (wk_meta w)) strings_from_value) in
  let count := default 0 (worker_flow_counts (store a) !! wk_id w) in
  {| wv_worker := match live with Some x => with_worker_state (ss_state x) w | None => w end;
     wv_running := default O (ss_running <$> live);
     wv_idle := default O (ss_idle <$> live);
     wv_flows := Z.max (count - Z.of_nat (length drift)) 0; wv_drift := drift |}.
Definition views (a : App) : list WorkerView := worker_view a <$> list_workers (store a).

Definition worker_missing : ApiError := ApiNotFound "worker not found".
Definition on_worker {A} (wid : Z) (k : Worker → App → App * result A ApiError) (a : App) : App * result A ApiError :=
  match get_worker wid (store a) with Some w => k w a | None => (a, Err worker_missing) end.
Definition patch_worker (wid processors : Z) (a : App) : App * result (list WorkerView) ApiError :=
  on_worker wid (λ w a,
    if (processors <? 1) || (wk_cpus w <? processors) then
      (a, Err (Unprocessable ("processors must be between 1 and " +:+ dec (wk_cpus w)
                              +:+ ", the worker's CPU count")))
    else
      let a := (write_ (StoreRegistry.set_worker_processors wid processors) a).1 in
      let a := on_supervisor (Pool.set_worker_processors wid processors) a in
      let a := App.ensure_capacity a in (a, Ok (views a))) a.
Definition set_state (wid : Z) (to : string) (a : App) : App * result (list WorkerView) ApiError :=
  on_worker wid (λ w a,
    if wk_state w =?s "offline" then (a, Err (Conflict (VObject [("error", VString "the worker is offline")])))
    else
      let a := (write_ (StoreRegistry.set_worker_state wid to) a).1 in
      let a := on_supervisor (Pool.set_worker_state wid to) a in
      let cmd := if to =?s "draining" then "drain" else "resume" in
      let a := on_supervisor (command_worker wid (VObject [("cmd", VString cmd)])) a in
      let a := App.ensure_capacity (worker_updated wid a) in (a, Ok (views a))) a.
Definition leave (wid : Z) (a : App) : App * result unit ApiError :=
  on_worker wid (λ _ a,
    let a := (write_ (StoreRegistry.set_worker_state wid "offline") a).1 in
    let a := on_supervisor (worker_left wid) a in
    let a := record_engine_event ops WorkerOffline None None
               [("left", VBool true); ("name", opt_value VString (worker_name wid (supervisor a)));
                ("worker_id", num wid)] a in
    (App.ensure_capacity (worker_updated wid a), Ok tt)) a.
Definition forget (wid : Z) (a : App) : App * result unit ApiError :=
  on_worker wid (λ w a,
    let live := default (wk_state w)
                  (ss_state <$> find (λ x, ss_id x =? wid) (workers_snapshot (supervisor a))) in
    if negb (live =?s "offline") then
      (a, Err (Conflict (VObject [("error", VString
         "only an offline worker can be forgotten; drain it and stop its process first")])))
    else
      let a := on_supervisor (forget_worker wid) a in
      let a := (write_ (delete_worker wid) a).1 in
      (emit (Publish "worker.updated" (dec wid) (VObject [("deleted", VBool true); ("id", num wid)])) a, Ok tt)) a.

(** ** The timeline of a host *)

Definition due_key (r : TimelineRunRow) : Z * Z := (default (tl_created_at r) (tl_scheduled_time r), tl_id r).
Definition due_before (x y : TimelineRunRow) : Prop :=
  (due_key x).1 < (due_key y).1 ∨ ((due_key x).1 = (due_key y).1 ∧ (due_key x).2 ≤ (due_key y).2).
#[global] Instance due_before_dec : RelDecision due_before.
Proof using Type. intros x y. unfold due_before. apply _. Defined.
(** [dedup_by_key]: of equal neighbours the first stays. *)
Fixpoint dedup_rows (l : list TimelineRunRow) : list TimelineRunRow :=
  match l with
  | x :: ((y :: _) as l') =>
      match dedup_rows l' with
      | z :: rest => if tl_id x =? tl_id z then x :: rest else x :: z :: rest
      | [] => [x]
      end
  | _ => l
  end.
Definition may_take (eligible : option (gset Z)) (flows : gmap Z Map) (r : TimelineRunRow) : bool :=
  match eligible with
  | None => true
  | Some set => bool_decide (tl_flow_id r ∈ set)
                && match flows !! tl_flow_id r with Some o => may_run_remotely (from_map o) | None => false end
  end.
Definition timeline_next_from (candidates : list TimelineRunRow) (eligible : option (gset Z)) (flows : gmap Z Map)
    : list TimelineRun :=
  (λ r, mkTimelineRun (tl_id r) (tl_flow_name r) None None
          (Some (default (tl_created_at r) (tl_scheduled_time r))) None)
  <$> take 20 (List.filter (may_take eligible flows) (dedup_rows (stable_sort due_before candidates))).
Definition timeline_next (eligible : option (gset Z)) (a : App) : list TimelineRun :=
  let '(_, line, _) := queue_snapshot (clock a) (instant a) 200 (supervisor a) in
  let until := clock a + 3600000000 in
  let candidates := timeline_run_rows (le_run_id <$> line) (store a)
                    ++ scheduled_timeline_run_rows (clock a) until 100 (store a) in
  let flows := if is_some eligible then flow_options_by_id (tl_flow_id <$> candidates) (store a) else ∅ in
  timeline_next_from candidates eligible flows.
Definition timeline (wid : Z) (hours : option Z) (a : App) : result Timeline ApiError :=
  match (if wid =? 0 then Some "server" else wk_name <$> get_worker wid (store a)) with
  | None => Err worker_missing
  | Some host =>
      let since := clock a - Z.min (default 6 hours) 48 * 3600000000 in
      let runs := (λ h, mkTimelineRun (hr_id h) (hr_flow h) (hr_processor h) (hr_state h) (hr_start h) (hr_end h))
                  <$> runs_on_host host since 2000 (store a) in
      let eligible := if wid =? 0 then None else Some (evaluate_stored wid (store a)).1 in
      Ok (mkTimeline host since runs (timeline_next eligible a))
  end.
End api_workers.
