(* ===== verification/Mcp.v ===== *)
(** * The MCP server (server/src/mcp.rs)

    JSON-RPC over HTTP for agents: sessions, the list of tools with their
    annotations, and every tool as a call of the operation the HTTP API uses.

    An answer is the record the source serializes ([ToolAnswer]); the texts of
    descriptions and the JSON schemas of the arguments, which the server only
    lists, are left out.  [Failed] with the text of an API error is [FromApi].
    Serde's reading of a body, chrono's of an instant, the source file of a
    flow and the child process of [check_flows] are [McpEnv].  Of several
    sessions that were seen last at the same instant, the hash map's order
    decides which is the oldest; here it is the order of the map of the model. *)

From S2P Require Import Prelude Float64 Json States Transitions Timer Schedules Model DepGraph Events Unique.
From S2P Require Import RuleMatching RuleTemplates ActiveIndex Resources WorkQueue Pool GroupCommit Tables.
From S2P Require Import Store Reader StoreAdmin StoreRegistry Integrity RuleReader Replay Pages Validate Compare.
From S2P Require Import App Scheduler Waits Dispatch RulesEngine ApiRuns ApiEngine ApiSchedules ApiBackfills.
From S2P Require Import ApiObserve ApiWorkers.
From Stdlib Require Import Ascii.

(** The source of a flow's module, as [flow_source] reports it. *)
Record FlowSource : Type := mkFlowSource {
  fsrc_path : string;
  fsrc_bytes : Z;
  fsrc_truncated : bool;
  fsrc_source : string;
}.

Class McpEnv : Type := {
  (** [serde_json::from_slice] of a request's body *)
  message_from_slice : string → result Value string;
  schedule_body_from_value : Value → result ScheduleBody string;
  schedule_patch_from_value : Value → result SchedulePatchBody string;
  (** an instant in one of the three forms the tools accept *)
  iso_instant : string → option Z;
  (** the module's file, and the report of [cereyan check] *)
  flow_source : Flow → result FlowSource string;
  run_check : string → result Value string;
}.

(** What the configuration says of the endpoint. *)
Record McpConfig : Type := mkMcpConfig {
  mc_read_only : bool;
  mc_token : bool;
  mc_exposed : bool;
  mc_version : string;
  mc_served_dir : option string;
  mc_cpu_cap : Z;
  mc_engines_source : string;
}.

Definition PROTOCOL_VERSION : string := "2025-06-18".
Definition SESSION_TTL : Z := seconds 3600.
Definition MAX_SESSIONS : nat := Z.to_nat 1000.

(** ** Sessions *)

Abbreviation Sessions := (gmap string (string * Z)).

Definition older (a b : string * (string * Z)) : string * (string * Z) := if b.2.2 <? a.2.2 then b else a.
Definition oldest (m : Sessions) : option string :=
  match map_to_list m with [] => None | x :: l => Some (fold_left older l x).1 end.
Definition create_session (now : Z) (id client : string) (m : Sessions) : Sessions :=
  let m := filter (λ kv, now - kv.2.2 < SESSION_TTL) m in
  let m := if (MAX_SESSIONS <=? size m)%nat
           then match oldest m with Some k => delete k m | None => m end else m in
  <[id := (client, now)]> m.
Definition session_client (now : Z) (id : option string) (m : Sessions) : Sessions * string :=
  match id with
  | None => (m, "unknown")
  | Some id =>
      match m !! id with
      | Some (client, _) => (<[id := (client, now)]> m, client)
      | None => (m, "unknown")
      end
  end.
Definition remove_session (id : string) (m : Sessions) : Sessions * bool :=
  (delete id m, bool_decide (is_Some (m !! id))).

(** ** The tools *)

Inductive Tool : Type :=
| ListFlows | ListRuns | GetRun | CompareRuns | RunLogs | ListEvents | ListArtifacts | ListRules | ListSchedules
| ExplainFailure | RunFlow | CancelRun | ResumeRun | ListWaitingRuns | SendMessage | BackfillTool | CreateSchedule
| EditSchedule | DeleteSchedule | PauseSchedule | ResumeSchedule | PauseScheduler | ResumeScheduler | SetVariable
| ListBackfills | GetBackfill | CancelBackfill | GetFlowSource | ServerHealth | ListVariables | ListWorkers
| ListResources | FlowDependencies | CheckFlows | RerunRun.

Inductive Access : Type := ReadTool | WriteTool | DestructiveTool.

(** A descriptor: its name, its annotations and the arguments it requires. *)
Record Descriptor : Type := mkDescriptor { ds_name : string; ds_access : Access; ds_required : list string }.
Definition is_read_only (d : Descriptor) : bool := match ds_access d with ReadTool => true | _ => false end.

Definition tool_list : list Descriptor :=
  [mkDescriptor "list_flows" ReadTool []; mkDescriptor "list_runs" ReadTool [];
   mkDescriptor "get_run" ReadTool ["run_id"]; mkDescriptor "compare_runs" ReadTool ["run_id"; "other_run_id"];
   mkDescriptor "run_logs" ReadTool ["run_id"]; mkDescriptor "list_events" ReadTool [];
   mkDescriptor "list_artifacts" ReadTool []; mkDescriptor "list_rules" ReadTool [];
   mkDescriptor "list_schedules" ReadTool []; mkDescriptor "explain_failure" ReadTool ["run_id"];
   mkDescriptor "run_flow" WriteTool ["flow"]; mkDescriptor "cancel_run" DestructiveTool ["run_id"];
   mkDescriptor "resume_run" WriteTool ["run_id"; "input"]; mkDescriptor "list_waiting_runs" ReadTool [];
   mkDescriptor "send_message" WriteTool ["run_id"; "topic"; "payload"];
   mkDescriptor "backfill" WriteTool ["flow"; "parameter"]; mkDescriptor "create_schedule" WriteTool ["flow"; "kind"];
   mkDescriptor "edit_schedule" WriteTool ["schedule_id"]; mkDescriptor "delete_schedule" DestructiveTool ["schedule_id"];
   mkDescriptor "pause_schedule" WriteTool ["schedule_id"]; mkDescriptor "resume_schedule" WriteTool ["schedule_id"];
   mkDescriptor "pause_scheduler" WriteTool []; mkDescriptor "resume_scheduler" WriteTool [];
   mkDescriptor "set_variable" DestructiveTool ["name"; "value"]; mkDescriptor "list_backfills" ReadTool [];
   mkDescriptor "get_backfill" ReadTool ["backfill_id"]; mkDescriptor "cancel_backfill" DestructiveTool ["backfill_id"];
   mkDescriptor "get_flow_source" ReadTool ["flow"]; mkDescriptor "server_health" ReadTool [];
   mkDescriptor "list_variables" ReadTool []; mkDescriptor "list_workers" ReadTool [];
   mkDescriptor "list_resources" ReadTool []; mkDescriptor "flow_dependencies" ReadTool ["flow"];
   mkDescriptor "check_flows" ReadTool []; mkDescriptor "rerun_run" WriteTool ["run_id"]].

(** The arms of [call_tool], in its order. *)
Definition tool_arms : list (string * Tool) :=
  [("list_backfills", ListBackfills); ("get_backfill", GetBackfill); ("cancel_backfill", CancelBackfill);
   ("get_flow_source", GetFlowSource); ("server_health", ServerHealth); ("list_variables", ListVariables);
   ("list_resources", ListResources); ("list_workers", ListWorkers); ("flow_dependencies", FlowDependencies);
   ("check_flows", CheckFlows); ("rerun_run", RerunRun); ("list_flows", ListFlows); ("list_runs", ListRuns);
   ("get_run", GetRun); ("compare_runs", CompareRuns); ("run_logs", RunLogs); ("list_events", ListEvents);
   ("list_artifacts", ListArtifacts); ("list_rules", ListRules); ("explain_failure", ExplainFailure);
   ("run_flow", RunFlow); ("cancel_run", CancelRun); ("resume_run", ResumeRun); ("list_waiting_runs", ListWaitingRuns);
   ("send_message", SendMessage); ("backfill", BackfillTool); ("list_schedules", ListSchedules);
   ("create_schedule", CreateSchedule); ("edit_schedule", EditSchedule); ("delete_schedule", DeleteSchedule);
   ("pause_schedule", PauseSchedule); ("resume_schedule", ResumeSchedule); ("pause_scheduler", PauseScheduler);
   ("resume_scheduler", ResumeScheduler); ("set_variable", SetVariable)].
Definition tool_named (name : string) : option Tool := snd <$> List.find (λ nt, nt.1 =?s name) tool_arms.

Inductive ToolError : Type :=
| Unknown (name : string)
| Failed (message : string)
(** [Failed] with [api_error_message], or with the error's debug text *)
| FromApi (e : ApiError)
| FromApiDebug (e : ApiError).

(** ** Arguments *)

Definition arg_i64 (args : Map) (key : string) : result Z ToolError :=
  match and_then (map_get key args) (λ v, or_else (as_i64 v) (and_then (as_str v) parse_i64)) with
  | Some n => Ok n
  | None => Err (Failed (key +:+ " must be an integer"))
  end.
Definition arg_str (args : Map) (key : string) : option string :=
  opt_filter (λ s, negb (str_is_empty s)) (get_str key args).
Definition as_u64 (v : Value) : option Z :=
  match v with VNumber (NInt z) => if (0 <=? z) && (z <=? u64_MAX) then Some z else None | _ => None end.
Definition arg_usize (args : Map) (key : string) (dflt max : Z) : nat :=
  Z.to_nat (Z.min max (Z.max 1 (default dflt (and_then (map_get key args) as_u64)))).
Definition arg_bool (args : Map) (key : string) (dflt : bool) : bool :=
  default dflt (and_then (map_get key args) as_bool).
Definition arg_strings (args : Map) (key : string) : list string :=
  match and_then (map_get key args) as_array with Some l => omap as_str l | None => [] end.
Definition arg_object (args : Map) (key : string) : Map := default [] (and_then (map_get key args) as_object).
(** [v as i32] *)
Definition wrap_i32 (z : Z) : Z := (z + 2147483648) mod two32 - 2147483648.
(** A text that is not blank. *)
Definition arg_text (args : Map) (key : string) : option string :=
  opt_filter (λ s, negb (str_is_empty (trim s))) (arg_str args key).
Definition arg_pairs (args : Map) (key : string) : list string :=
  match arg_str args key with
  | Some s => List.filter (λ p, negb (str_is_empty p)) (trim <$> split_char ","%char s)
  | None => []
  end.
Definition schedule_body_json (args : Map) : Value :=
  VObject (fold_left (λ body key, match map_get key args with Some v => map_insert key v body | None => body end)
    ["kind"; "cron"; "interval"; "anchor"; "rrule"; "delay"; "timezone"; "day_or"; "catchup"; "catchup_max";
     "catchup_window"; "jitter"; "start_deadline"] []).

Definition from_api {A} (r : result A ApiError) : result A ToolError :=
  match r with Ok x => Ok x | Err e => Err (FromApi e) end.

(** ** Answers *)

Record WorkerSummary : Type := mkWorkerSummary {
  ws_worker : StoreRegistry.Worker;
  ws_status : string;
  ws_running : nat;
  ws_idle : nat;
  ws_drift : Value;
}.
Record Processors : Type := mkProcessors {
  pr_count : Z;
  pr_cap : Z;
  pr_source : string;
  pr_running : nat;
  pr_idle : nat;
  pr_draining : nat;
}.
Record ResourceRow : Type := mkResourceRow {
  rr_name : string;
  rr_total : f64;
  rr_used : f64;
  rr_pattern : option string;
}.
Record VariableView : Type := mkVariableView {
  vv_name : string;
  vv_tags : list string;
  vv_secret : bool;
  vv_created_at : Z;
  vv_updated_at : Z;
  vv_value : option Value;
}.
Record PendingInput : Type := mkPending { pd_prompt : Value; pd_topic : string; pd_index : Value }.
Record Waiting : Type := mkWaiting { wt_run : Run; wt_pending : option PendingInput }.

Inductive ToolAnswer : Type :=
| AFlows (flows : list (Flow * bool))
| ARuns (runs : list Run) (next : option Z)
| ARunDetail (run : Run) (tasks : list TaskRun) (task_state : list TaskStateRow)
| AComparison (c : RunComparison)
| ALogs (logs : list Log) (next : option Z)
| AEvents (events : list Event) (next : option Z)
| AArtifacts (items : list ArtifactListItem) (next : option Z)
| ARules (rules : list RuleRow)
| ASchedules (rows : list (ScheduleRow * Flow))
| AExplained (run : Run) (verdict : string) (failed : list TaskRun) (logs : list Log) (events : list Event)
| AWaiting (runs : list Waiting) (count : nat) (next : option Z)
| ABackfills (l : list BackfillStatus)
| ABackfill (b : BackfillStatus) (note : option string)
| ASource (flow : Flow) (s : FlowSource)
| AHealth (version : string) (engines : list Engine) (processors : Processors) (workers : list WorkerSummary)
    (queued : Z) (resources : list ResourceRow) (schedules : nat) (auth exposed : bool) (paused : option Pause)
    (read_only : bool) (served_dir : option string) (as_of : Z)
| AVariables (l : list VariableView)
| AWorkers (l : list WorkerSummary)
| AResources (l : list ResourceRow)
| ADependencies (flow : Flow) (upstreams : list string) (batch_key : option string) (triggers : list string)
| AReport (v : Value)
| ARun (run : Run) (note : option string)
| ARunChecked (run : Run) (conflict : bool) (note : string)
| ARerun (run : Run) (rerun_of : Z) (note : string)
| ARetry (r : RetryResponse) (rerun_of : Z) (note : string)
| ADryRun (flow parameter : string) (runs : nat) (first last : option string) (interval : f64) (note : string)
| ASchedule (row : ScheduleRow) (next_fires : list Z) (note : option string)
| ADeleted (deleted : bool) (schedule_id : Z)
| AScheduleRow (row : option ScheduleRow)
| APaused (p : Pause)
| AResumed (r : option (Z * Z))
| AVariable (row : VariableRow).

Section mcp.
Context `{StoreEnv, PoolEnv, ServerEnv, ScheduleEnv, ReaderEnv, RowEnv, JinjaEnv, ActionEnv, RangeEnv, SecretEnv, McpEnv}
  (o : Ops) (cfg : McpConfig).

Definition parse_instant (text : string) : result Z ToolError :=
  match iso_instant (trim text) with
  | Some t => Ok t
  | None => Err (Failed ("until: cannot parse " +:+ debug_str text +:+ " as ISO 8601"))
  end.
Definition opt_instant (args : Map) (key : string) : result (option Z) ToolError :=
  match arg_text args key with
  | Some text => let? t := parse_instant text in Ok (Some t)
  | None => Ok None
  end.
Definition resolve_flow (s : Store) (name : string) (project : option string) : result Flow ToolError :=
  match find_flow name project s with Ok f => Ok f | Err m => Err (Failed m) end.
Definition named_flow (args : Map) (s : Store) : result Flow ToolError :=
  match arg_str args "flow" with
  | None => Err (Failed "flow is required")
  | Some name => resolve_flow s name (arg_str args "project")
  end.
(** The id of the flow an optional argument names. *)
Definition optional_flow (args : Map) (s : Store) : result (option Z) ToolError :=
  match arg_str args "flow" with
  | Some n => let? f := resolve_flow s n (arg_str args "project") in Ok (Some (flow_id f))
  | None => Ok None
  end.
Definition found_run (id : Z) (s : Store) : result Run ToolError :=
  match get_run id s with Some r => Ok r | None => Err (Failed ("run " +:+ dec id +:+ " not found")) end.
Definition found_schedule (now id : Z) (s : Store) : result ScheduleRow ToolError :=
  match get_schedule now id s with
  | Some r => Ok r
  | None => Err (Failed ("schedule " +:+ dec id +:+ " not found"))
  end.
Definition preview_of (now : Z) (row : ScheduleRow) : list Z :=
  match preview now (sr_schedule row) 3 with Ok l => l | Err _ => [] end.

(** *** Tools made of flows *)

Definition tool_name_part (text : string) : string :=
  foldr (λ c acc, String (if Ascii.eqb c "/"%char || Ascii.eqb c "-"%char then "_"%char else c) acc) EmptyString (chars text).
Definition flow_tool_name (flow : Flow) : string :=
  "flow__" +:+ tool_name_part (flow_project flow) +:+ "__" +:+ tool_name_part (flow_name flow).
Definition flow_tools (a : App) : list (string * Flow) :=
  fold_left (λ out flow,
    let published := default false (and_then (map_get "mcp_tool" (flow_options flow)) as_bool) in
    if negb published || negb (is_live (flow_id flow) a) then out
    else let name := flow_tool_name flow in
         if existsb (λ nf : string * Flow, nf.1 =?s name) out then out else out ++ [(name, flow)])
    (list_flows None None (store a)) [].
Definition visible_tools (a : App) : list Descriptor :=
  let tools := tool_list ++ ((λ nf, mkDescriptor nf.1 WriteTool []) <$> flow_tools a) in
  if mc_read_only cfg then List.filter is_read_only tools else tools.

(** *** Reports *)

Definition workers_summary (a : App) : list WorkerSummary :=
  let live := workers_snapshot (supervisor a) in
  (λ w, let l := List.find (λ x, ss_id x =? wk_id w) live in
        mkWorkerSummary w (default (wk_state w) (ss_state <$> l)) (default O (ss_running <$> l)) (default O (ss_idle <$> l))
          (default (VArray []) (map_get "drift" (wk_meta w))))
  <$> list_workers (store a).
Definition processors (a : App) : Processors :=
  let '(items, _, _) := queue_snapshot (clock a) (instant a) 0 (supervisor a) in
  let count status := length (List.filter (λ e, view_status e =?s status) items) in
  mkProcessors (WorkQueue.max_engines (supervisor a)) (mc_cpu_cap cfg) (mc_engines_source cfg)
    (count "running") (count "idle" + count "starting")%nat (count "draining").
Definition resource_rows (s : Supervisor) : list ResourceRow :=
  let r := WorkQueue.resources s in
  (λ n, mkResourceRow n (Resources.total r n) (used_of r n) (pattern_for r n))
  <$> stable_sort Compare.str_le (elements (dom (totals r) ∪ dom (used r))).
Definition variable_view (v : VariableRow) : VariableView :=
  mkVariableView (vr_name v) (vr_tags v) (vr_secret v) (vr_created_at v) (vr_updated_at v)
    (if vr_secret v then None else Some (vr_value v)).
Definition bundle (id : Z) (s : Store) : result RunBundle ApiError :=
  match get_run id s with
  | None => Err (ApiNotFound ("run " +:+ dec id +:+ " not found"))
  | Some run =>
      Ok (mkRunBundle run (task_runs_by_run id None s)
            (logs (mkLogFilter (Some id) None None (Some 40) None (Some 500%nat)) s).1 (artifacts_by_run id s))
  end.
Definition bundles (left right : Z) (s : Store) : result RunComparison ApiError :=
  let? l := bundle left s in let? r := bundle right s in Ok (Compare.compare l r).
Definition waiting (r : Run) : Waiting :=
  let d := state_details (Model.run_state r) in
  mkWaiting r
    (if st_eqb (state_type (Model.run_state r)) Paused
     then Some (mkPending (default VNull (map_get "prompt" d)) (default "input" (get_str "topic" d))
                  (default (VNumber (NInt 0)) (map_get "index" d)))
     else None).
Definition mcp_run_filter (args : Map) (state_type : option string) (limit : nat) : ListRunsFilter :=
  mkListRunsFilter (arg_str args "project") (arg_str args "group") (arg_str args "flow") None state_type
    (arg_str args "state_name") (arg_str args "name") [] (arg_pairs args "params") (arg_pairs args "attributes")
    None None None (Some limit) None None None None.
Definition waiting_filter (args : Map) : ListRunsFilter :=
  mkListRunsFilter (arg_str args "project") None (arg_str args "flow") None (Some "Paused")
    None None [] [] [] None None None (Some (arg_usize args "limit" 50 500)) None None None None.
Definition verdict (run : Run) : string :=
  let st := Model.run_state run in
  match state_type st with
  | States.Failed | Crashed => default "no failure message" (state_message st)
  | other => "the run is " +:+ StateType_as_str other +:+ ", not failed"
  end.
Definition is_failed (t : TaskRun) : bool :=
  match state_type (tr_state t) with States.Failed | Crashed => true | _ => false end.
Definition last_of {A} (n : nat) (l : list A) : list A := drop (length l - n) l.

(** *** The tools that read *)

(** The answer of a tool that changes nothing; the others are [command]. *)
(** Backfills, code, health, variables, resources, workers. *)
Definition query_server (t : Tool) (args : Map) (a : App) : option (result ToolAnswer ToolError) :=
  let s := store a in
  match t with
  | ListBackfills => Some (
      let? fid := optional_flow args s in
      let? items := from_api (foldr (λ b acc, let? st := status_of (bf_id b) s in let? acc := acc in Ok (st :: acc))
                                (Ok []) (list_backfills fid s)) in
      Ok (ABackfills items))
  | GetBackfill => Some (
      let? id := arg_i64 args "backfill_id" in
      let? b := from_api (status_of id s) in Ok (ABackfill b None))
  | GetFlowSource => Some (
      let? flow := named_flow args s in
      match flow_source flow with Ok src => Ok (ASource flow src) | Err m => Err (Failed m) end)
  | ServerHealth => Some (Ok (
      AHealth (mc_version cfg) (engine_list (WorkQueue.inner (supervisor a))) (processors a) (workers_summary a)
        (queue_len (supervisor a)) (resource_rows (supervisor a)) (length (list_schedules (clock a) None s))
        (mc_token cfg) (mc_exposed cfg) (pause a) (mc_read_only cfg) (mc_served_dir cfg) (clock a)))
  | ListVariables => Some (Ok (AVariables (variable_view <$> list_variables s)))
  | ListResources => Some (Ok (AResources (resource_rows (supervisor a))))
  | ListWorkers => Some (Ok (AWorkers (workers_summary a)))
  | FlowDependencies => Some (
      let? flow := named_flow args s in
      let after := fo_after (options_of flow) in
      let triggers := List.filter (λ f,
          (flow_project f =?s flow_project flow) && negb (flow_id f =? flow_id flow)
          && match fo_after (options_of f) with Some x => depends_on x (flow_name flow) | None => false end)
        (list_flows None None s) in
      Ok (ADependencies flow (default [] (upstreams <$> after)) (and_then after after_key) (flow_name <$> triggers)))
  | CheckFlows => Some (
      match mc_served_dir cfg with
      | None => Err (Failed "this server was started from a script without a served directory, so there is no directory to check")
      | Some dir => match run_check dir with Ok v => Ok (AReport v) | Err m => Err (Failed m) end
      end)
  | _ => None
  end.
(** Flows and what their runs left. *)
Definition query_history (t : Tool) (args : Map) (a : App) : option (result ToolAnswer ToolError) :=
  let s := store a in
  match t with
  | ListFlows => Some (Ok (AFlows (
      (λ f, (f, is_live (flow_id f) a)) <$> list_flows (arg_str args "project") (arg_str args "group") s)))
  | ListRuns => Some (
      let '(items, next) := list_runs (clock a) (mcp_run_filter args (arg_str args "state_type") (arg_usize args "limit" 20 200)) s in
      Ok (ARuns items next))
  | GetRun => Some (
      let? id := arg_i64 args "run_id" in
      let? run := found_run id s in
      Ok (ARunDetail run (task_runs_by_run id None s) (task_state_list id s)))
  | CompareRuns => Some (
      let? a := arg_i64 args "run_id" in
      let? b := arg_i64 args "other_run_id" in
      if a =? b then Err (Failed "run_id and other_run_id must differ")
      else let? c := from_api (bundles a b s) in Ok (AComparison c))
  | RunLogs => Some (
      let? id := arg_i64 args "run_id" in
      let min_level := wrap_i32 <$> and_then (map_get "min_level" args) as_i64 in
      let '(items, next) := logs (mkLogFilter (Some id) None None min_level (arg_str args "search")
                                    (Some (arg_usize args "limit" 200 1000))) s in
      Ok (ALogs items next))
  | ListEvents => Some (
      let '(items, next) := query_events (mkEventFilter (arg_str args "name") None None (get_i64 "run_id" args)
        (get_i64 "flow_id" args) None None (Some (arg_usize args "limit" 50 500)) None false) s in
      Ok (AEvents items next))
  | ListArtifacts => Some (
      let '(items, next) := list_artifacts (mkArtifactFilter (arg_str args "kind") (arg_str args "key") (arg_str args "flow")
        (arg_str args "project") None (get_i64 "run_id" args) None (Some (arg_usize args "limit" 50 200)) None) s in
      Ok (AArtifacts items next))
  | ListRules => Some (Ok (ARules (rules (rules_state a))))
  | ExplainFailure => Some (
      let? id := arg_i64 args "run_id" in
      let? run := found_run id s in
      let failed := List.filter is_failed (task_runs_by_run id None s) in
      let lines := (logs (mkLogFilter (Some id) None None (Some 30) None (Some (Z.to_nat 1000))) s).1 in
      let events := (query_events (mkEventFilter None None None (Some id) None None None (Some 100%nat) None false) s).1 in
      Ok (AExplained run (verdict run) failed (last_of 50 lines) events))
  | _ => None
  end.
(** Runs that wait, and schedules. *)
Definition query_pending (t : Tool) (args : Map) (a : App) : option (result ToolAnswer ToolError) :=
  let s := store a in
  match t with
  | ListWaitingRuns => Some (
      let '(items, next) := list_runs (clock a) (waiting_filter args) s in
      Ok (AWaiting (waiting <$> items) (length items) next))
  | ListSchedules => Some (
      let? fid := optional_flow args s in
      let project := arg_str args "project" in
      let flows := list_flows None None s in
      let shown row := existsb (λ f, (flow_id f =? sr_flow_id row)
                                     && match project with Some p => flow_project f =?s p | None => true end) flows in
      let rows := decorate_all (List.filter shown (list_schedules (clock a) fid s)) a in
      Ok (ASchedules (omap (λ row, (row,.) <$> List.find (λ f, flow_id f =? sr_flow_id row) flows) rows)))
  | _ => None
  end.
Definition query (t : Tool) (args : Map) (a : App) : option (result ToolAnswer ToolError) :=
  or_else (query_server t args a) (or_else (query_history t args a) (query_pending t args a)).

(** *** The tools that act *)

Definition lift {A} (r : App * result A ApiError) (k : A → ToolAnswer) : App * result ToolAnswer ToolError :=
  (r.1, match r.2 with Ok x => Ok (k x) | Err e => Err (FromApi e) end).
(** A check that reads, before the rest of a tool. *)
Definition checked {A} (r : result A ToolError) (a : App) (k : A → App * result ToolAnswer ToolError)
    : App * result ToolAnswer ToolError :=
  match r with Ok x => k x | Err e => (a, Err e) end.

Definition mcp_creator (user : option string) (client : string) : string := run_creator user ("mcp:" +:+ client).
Definition FOLLOW : string := "created; follow it with get_run".

Definition tool_run_flow (args : Map) (user : option string) (client : string) (a : App)
    : App * result ToolAnswer ToolError :=
  checked (named_flow args (store a)) a (λ flow,
  checked (opt_instant args "at") a (λ at_,
  checked (from_api (not_before (clock a) at_ (and_then (map_get "delay_seconds" args) as_f64))) a (λ starts,
    let new := mkNewRun (arg_str args "name") (arg_strings args "tags") (mcp_creator user client) starts None None in
    lift (create_run_checked o flow (arg_object args "parameters") new a) (λ rc,
      ARunChecked rc.1 rc.2
        (if rc.2 then "not created: this run already holds the flow's unique key; follow it with get_run"
         else if match starts with Some t => clock a <? t | None => false end
         then "created for later; it starts at scheduled_time" else FOLLOW))))).

Definition tool_rerun (args : Map) (user : option string) (client : string) (a : App)
    : App * result ToolAnswer ToolError :=
  checked (arg_i64 args "run_id") a (λ id,
  checked (found_run id (store a)) a (λ original,
    match arg_text args "from" with
    | Some from =>
        lift (retry_inner o original (trim from) (mcp_creator user client) a) (λ out, ARetry out id
          "created as a retry of the original: kept tasks replay from their checkpoints; follow it with get_run")
    | None =>
        match get_flow (run_flow_id original) (store a) with
        | None => (a, Err (Failed ("flow " +:+ dec (run_flow_id original) +:+ " not found")))
        | Some flow =>
            let new := mkNewRun None (run_tags original) (mcp_creator user client) None None None in
            lift (create_run_inner o flow (run_parameters original) new a) (λ run, ARerun run id
              "created with the original run's parameters; follow it with get_run")
        end
    end)).

Definition backfill_body (args : Map) : BackfillBody :=
  mkBackfillBody (default EmptyString (arg_str args "parameter")) (default EmptyString (arg_str args "start"))
    (default EmptyString (arg_str args "end")) (arg_strings args "values") (arg_bool args "missing_only" false)
    (arg_bool args "force" false) (map_get "interval" args) (get_i64 "concurrency" args)
    (arg_object args "extra_parameters") (arg_bool args "reverse" false).
Definition tool_backfill (args : Map) (a : App) : App * result ToolAnswer ToolError :=
  checked (named_flow args (store a)) a (λ flow,
    let body := backfill_body args in
    if arg_bool args "dry_run" true then
      match plan_backfill_with (Some (store a)) flow body with
      | None => (halt Panicked a, Err (FromApi (InternalText "panicked")))
      | Some (Err e) => (a, Err (FromApi e))
      | Some (Ok (values, interval)) =>
          (a, Ok (ADryRun (flow_name flow) (bb_parameter body) (length values) (head values) (last values) interval
                    "nothing was created; call again with dry_run false to create these runs"))
      end
    else lift (create_backfill_inner o flow body a) (λ st, ABackfill st None)).

Definition tool_create_schedule (args : Map) (a : App) : App * result ToolAnswer ToolError :=
  checked (named_flow args (store a)) a (λ flow,
    match schedule_body_from_value (schedule_body_json args) with
    | Err e => (a, Err (Failed ("schedule is not valid: " +:+ e)))
    | Ok body =>
        let r := create_schedule_inner o (flow_id flow) body "mcp" a in
        let existing := list_schedules (clock r.1) (Some (flow_id flow)) (store r.1) in
        lift r (λ row, ASchedule row (preview_of (clock r.1) row)
          (if existsb (λ x, sr_source x =?s "code") existing
           then Some (flow_name flow +:+ " already has a schedule declared in its code; it now has more than one.")
           else None))
    end).
Definition tool_edit_schedule (args : Map) (a : App) : App * result ToolAnswer ToolError :=
  checked (arg_i64 args "schedule_id") a (λ sid,
  checked (found_schedule (clock a) sid (store a)) a (λ before,
    match schedule_patch_from_value (VObject args) with
    | Err e => (a, Err (Failed ("patch is not valid: " +:+ e)))
    | Ok body =>
        let r := patch_schedule_inner o sid body a in
        lift r (λ row, ASchedule row (preview_of (clock r.1) row)
          (if sr_source before =?s "code"
           then Some "This schedule is declared in the flow's code. The change lasts until the server restarts; then the flow's declaration applies again."
           else None))
    end)).
Definition tool_delete_schedule (args : Map) (a : App) : App * result ToolAnswer ToolError :=
  checked (arg_i64 args "schedule_id") a (λ sid,
  checked (found_schedule (clock a) sid (store a)) a (λ row,
    if sr_source row =?s "code" then
      (a, Err (Failed ("schedule " +:+ dec sid +:+ " is declared in the flow's code and would be recreated at the next restart; use pause_schedule to stop it, or remove the declaration from the flow")))
    else let '(a, ok) := Scheduler.delete_schedule sid a in (a, Ok (ADeleted ok sid)))).
Definition tool_toggle_schedule (pausing : bool) (args : Map) (a : App) : App * result ToolAnswer ToolError :=
  checked (arg_i64 args "schedule_id") a (λ sid,
  checked (found_schedule (clock a) sid (store a)) a (λ _,
    let a := if pausing then pause_schedule o sid (Some "paused") None a else resume_schedule o sid a in
    (a, Ok (AScheduleRow (get_schedule (clock a) sid (store a)))))).

Definition tool_cancel_backfill (args : Map) (a : App) : App * result ToolAnswer ToolError :=
  checked (arg_i64 args "backfill_id") a (λ id,
    lift (cancel_backfill_inner o id a) (λ st,
      ABackfill st (Some "cancelled; queued runs are cancelled and running ones asked to stop"))).
Definition tool_cancel_run (args : Map) (a : App) : App * result ToolAnswer ToolError :=
  checked (arg_i64 args "run_id") a (λ id,
  checked (found_run id (store a)) a (λ run, lift (cancel_inner o run a) (λ run, ARun run None))).
Definition tool_resume_run (args : Map) (a : App) : App * result ToolAnswer ToolError :=
  checked (arg_i64 args "run_id") a (λ id,
    lift (resume_inner o id (default VNull (map_get "input" args)) a) (λ run, ARun run None)).
Definition tool_send_message (args : Map) (a : App) : App * result ToolAnswer ToolError :=
  checked (arg_i64 args "run_id") a (λ id,
    match arg_str args "topic" with
    | None => (a, Err (Failed "topic is required"))
    | Some topic =>
        let r := send_message o id topic (default VNull (map_get "payload" args)) a in
        (r.1, match r.2 with Ok run => Ok (ARun run None) | Err e => Err (FromApiDebug e) end)
    end).
Definition tool_pause_scheduler (args : Map) (a : App) : App * result ToolAnswer ToolError :=
  checked (opt_instant args "until") a (λ until,
    let '(a, p) := pause_all o (arg_text args "reason") until (arg_bool args "suppress_rules" false) a in
    (a, Ok (APaused p))).
Definition tool_resume_scheduler (a : App) : App * result ToolAnswer ToolError :=
  let '(a, r) := resume_all o a in (a, Ok (AResumed r)).
Definition tool_set_variable (args : Map) (a : App) : App * result ToolAnswer ToolError :=
  match arg_str args "name" with
  | None => (a, Err (Failed "name is required"))
  | Some name =>
      lift (set_variable_inner name (default VNull (map_get "value" args)) (arg_strings args "tags")
              (arg_bool args "secret" false) a) AVariable
  end.

Definition command (t : Tool) (args : Map) (user : option string) (client : string) (a : App)
    : App * result ToolAnswer ToolError :=
  match t with
  | CancelBackfill => tool_cancel_backfill args a
  | RerunRun => tool_rerun args user client a
  | RunFlow => tool_run_flow args user client a
  | CancelRun => tool_cancel_run args a
  | ResumeRun => tool_resume_run args a
  | SendMessage => tool_send_message args a
  | BackfillTool => tool_backfill args a
  | CreateSchedule => tool_create_schedule args a
  | EditSchedule => tool_edit_schedule args a
  | DeleteSchedule => tool_delete_schedule args a
  | PauseSchedule => tool_toggle_schedule true args a
  | ResumeSchedule => tool_toggle_schedule false args a
  | PauseScheduler => tool_pause_scheduler args a
  | ResumeScheduler => tool_resume_scheduler a
  | SetVariable => tool_set_variable args a
  | _ => (a, Err (Failed "not a tool that acts"))
  end.

Definition call_tool (client : string) (user : option string) (name : string) (args : Map) (a : App)
    : App * result ToolAnswer ToolError :=
  if starts_with name "flow__" then
    match List.find (λ nf, nf.1 =?s name) (flow_tools a) with
    | None => (a, Err (Unknown name))
    | Some (_, flow) =>
        let new := mkNewRun None [] (mcp_creator user client) None None None in
        lift (create_run_inner o flow args new a) (λ run, ARun run (Some FOLLOW))
    end
  else
    match tool_named name with
    | None => (a, Err (Unknown name))
    | Some t => match query t args a with Some r => (a, r) | None => command t args user client a end
    end.

(** ** JSON-RPC *)

Inductive Contents : Type :=
| RunLines (run_id : Z) (logs : list Log) (as_of : Z)
| RunArtifacts (run_id : Z) (items : list Artifact).

Inductive RpcResult : Type :=
| RInitialize (session client instructions : string)
| RPong
| RTools (tools : list Descriptor)
| RToolAnswer (answer : ToolAnswer)
| RToolError (e : ToolError)
| RResources
| RTemplates
| RContents (uri : string) (c : Contents)
| RPrompts
| RPrompt (description text : string).

(** The status of the response, and its body: a result or an error by code. *)
Inductive McpReply : Type :=
| Rpc (status : Z) (id : Value) (r : result RpcResult (Z * string))
| Accepted.

Definition read_resource (uri : string) (a : App) : result Contents string :=
  let unknown := "unknown resource " +:+ debug_str uri in
  match and_then (strip_prefix "cereyan://runs/" uri) (split_once "/"%char) with
  | None => Err unknown
  | Some (id, what) =>
      match parse_i64 id with
      | None => Err ("bad run id in " +:+ debug_str uri)
      | Some id =>
          if what =?s "logs" then
            Ok (RunLines id (logs (mkLogFilter (Some id) None None None None (Some (Z.to_nat 1000))) (store a)).1 (clock a))
          else if what =?s "artifacts" then Ok (RunArtifacts id (artifacts_by_run id (store a)))
          else Err unknown
      end
  end.

Definition instructions : string :=
  if mc_read_only cfg
  then "cereyan runs Python pipelines on this machine. This server's MCP endpoint is read-only: only tools that change nothing are listed, and any other tool call is refused. Use list_flows to see what is registered, list_runs, get_run and run_logs to follow work, explain_failure when a run fails, and server_health for the engines and queue."
  else "cereyan runs Python pipelines on this machine. Use list_flows to see what can run, run_flow to start work, get_run and run_logs to follow it, and explain_failure when a run fails. Flows run on demand: a flow needs no schedule, and run_flow is how work usually starts. For work that should recur, list_schedules shows what is scheduled and the create, edit, delete, pause and resume schedule tools manage it. Writes take effect immediately.".

Definition prompt_arg (params : Value) (key : string) : string :=
  match and_then (value_get "arguments" params) (value_get key) with
  | Some v => default (value_to_string v) (as_str v)
  | None => EmptyString
  end.
Definition prompt (name : string) (params : Value) : option (string * string) :=
  if name =?s "diagnose_run" then
    let run_id := prompt_arg params "run_id" in
    Some ("Diagnose a failed run",
      "Run " +:+ run_id +:+ " of a cereyan pipeline needs a diagnosis. Call the explain_failure tool with run_id " +:+ run_id +:+ ", read the failed task runs, the error log lines, and the events, then summarise the root cause in two sentences and suggest one concrete next step (rerun with run_flow, fix the code, or adjust a schedule).")
  else if name =?s "health_check" then
    Some ("Check the server's health",
      "Check this cereyan server. Call server_health for the engines, queue, and resources; call list_runs with state_type Failed and again with state_type Crashed for recent problems; call list_schedules and note any schedule that is paused or whose next fire is missing. Report in a few lines what needs attention, most urgent first, and say when nothing does.")
  else if name =?s "plan_backfill" then
    let arg := prompt_arg params in
    Some ("Plan a backfill",
      "Plan a backfill of flow " +:+ arg "flow" +:+ " over parameter " +:+ arg "parameter" +:+ " from " +:+ arg "start" +:+ " to " +:+ arg "end" +:+ ". First call the backfill tool with those arguments and dry_run left at its default, which creates nothing, and review the number of runs and the first and last values it reports. If the range and count look right, call backfill again with dry_run false to create the runs, then report the backfill id so progress can be followed with get_backfill. If the count is surprising, stop and ask.")
  else None.

(** Refused when the endpoint is read-only: a listed tool that changes state,
    and every tool made of a flow. *)
Definition refused (name : string) : bool :=
  mc_read_only cfg
  && (existsb (λ t, (ds_name t =?s name) && negb (is_read_only t)) tool_list || starts_with name "flow__").
Definition tools_call (client : string) (user : option string) (params : Value) (a : App)
    : App * result RpcResult (Z * string) :=
  let name := default EmptyString (and_then (value_get "name" params) as_str) in
  let args := default [] (and_then (value_get "arguments" params) as_object) in
  let '(a, outcome) :=
    if refused name then
      (a, Err (Failed ("this server's MCP endpoint is read-only (mcp_read_only): " +:+ name
                       +:+ " changes state and is not available")))
    else call_tool client user name args a in
  (a, match outcome with
      | Ok v => Ok (RToolAnswer v)
      | Err (Unknown n) => Err (-32602, "unknown tool " +:+ debug_str n)
      | Err e => Ok (RToolError e)
      end).

(** The methods after [initialize]. *)
Definition answer (client : string) (user : option string) (method : string) (params : Value) (a : App)
    : App * result RpcResult (Z * string) :=
  if method =?s "ping" then (a, Ok RPong)
  else if method =?s "tools/list" then (a, Ok (RTools (visible_tools a)))
  else if method =?s "tools/call" then tools_call client user params a
  else if method =?s "resources/list" then (a, Ok RResources)
  else if method =?s "resources/templates/list" then (a, Ok RTemplates)
  else if method =?s "resources/read" then
    let uri := default EmptyString (and_then (value_get "uri" params) as_str) in
    (a, match read_resource uri a with Ok c => Ok (RContents uri c) | Err m => Err (-32002, m) end)
  else if method =?s "prompts/list" then (a, Ok RPrompts)
  else if method =?s "prompts/get" then
    let name := default EmptyString (and_then (value_get "name" params) as_str) in
    (a, match prompt name params with
        | Some (description, text) => Ok (RPrompt description text)
        | None => Err (-32602, "unknown prompt " +:+ debug_str name)
        end)
  else (a, Err (-32601, "method " +:+ debug_str method +:+ " is not supported")).

Definition is_json (content_type : option string) : bool :=
  match content_type with
  | Some v => eq_ignore_ascii_case (trim (first_segment ";"%char v)) "application/json"
  | None => false
  end.

(** A request: its content type and session header, the user the authenticator
    named, the id drawn for a new session, and the body. *)
Definition handle_post (content_type session user : option string) (fresh body : string) (m : Sessions) (a : App)
    : Sessions * App * McpReply :=
  if negb (is_json content_type) then
    (m, a, Rpc 415 VNull (Err (-32600, "send the message with Content-Type: application/json")))
  else
    match message_from_slice body with
    | Err e => (m, a, Rpc 200 VNull (Err (-32700, "parse error: " +:+ e)))
    | Ok (VArray _) => (m, a, Rpc 200 VNull (Err (-32600, "batches are not supported; send one message per request")))
    | Ok message =>
        let method := default EmptyString (and_then (value_get "method" message) as_str) in
        let params := default VNull (value_get "params" message) in
        match value_get "id" message with
        | None => (m, a, Accepted)
        | Some id =>
            if method =?s "initialize" then
              let client := default "unknown"
                (and_then (and_then (value_get "clientInfo" params) (value_get "name")) as_str) in
              (create_session (instant a) fresh client m, a, Rpc 200 id (Ok (RInitialize fresh client instructions)))
            else
              let '(m, client) := session_client (instant a) session m in
              let '(a, r) := answer client user method params a in
              (m, a, Rpc 200 id r)
        end
    end.
(** [handle_delete] answers 400, 204 or 404. *)
Definition handle_delete (session : option string) (m : Sessions) : Sessions * Z :=
  match session with
  | None => (m, 400)
  | Some id => let '(m, found) := remove_session id m in (m, if found then 204 else 404)
  end.

(** ** What a read-only endpoint changes *)

(** Each tool either answers without changing anything or is listed as one that
    changes state. *)
Definition listed_as (access : Descriptor → bool) (name : string) : bool :=
  existsb (λ d, (ds_name d =?s name) && access d) tool_list.

Lemma tool_named_arm name t : tool_named name = Some t → (name, t) ∈ tool_arms.
Proof using Type.
  rw /tool_named. intros ([n t'] & Hf & ->)%fmap_Some. apply List.find_some in Hf as [Hin Hn%str_eqb_eq].
  cbn [fst snd] in *. subst n. by apply list_elem_of_In.
Qed.

Lemma arms_listed :
  Forall (λ nt, match nt.2 with
                | ListFlows | ListRuns | GetRun | CompareRuns | RunLogs | ListEvents | ListArtifacts | ListRules
                | ListSchedules | ExplainFailure | ListWaitingRuns | ListBackfills | GetBackfill | GetFlowSource
                | ServerHealth | ListVariables | ListWorkers | ListResources | FlowDependencies | CheckFlows => True
                | _ => listed_as is_read_only nt.1 = false ∧ listed_as (λ d, negb (is_read_only d)) nt.1 = true
                end) tool_arms.
Proof using Type. by repeat (apply Forall_cons; split; [by vm_compute|]). Qed.

(** A tool that is not listed as one that changes state changes nothing. *)
Lemma arm_changes_nothing client user name args a t :
  tool_named name = Some t → listed_as (λ d, negb (is_read_only d)) name = false →
  (match query t args a with Some r => (a, r) | None => command t args user client a end).1 = a.
Proof using Type.
  intros Ht%tool_named_arm Hl. pose proof (proj1 (Forall_forall _ _) arms_listed _ Ht) as Ha.
  cbn [fst snd] in Ha. destruct t; try done; destruct Ha as [_ Ha]; congruence.
Qed.

Lemma call_changes_nothing client user name args a :
  starts_with name "flow__" = false → listed_as (λ d, negb (is_read_only d)) name = false →
  (call_tool client user name args a).1 = a.
Proof using Type.
  intros Hf Hl. rw /call_tool Hf. destruct (tool_named name) as [t|] eqn:E; [|done]. by apply (arm_changes_nothing client user name args a t).
Qed.

(** C11: On a server whose MCP endpoint is read-only, no message an agent can send
    changes anything but the table of sessions: whatever the method, the tool and
    its arguments, the server's state is the one before. *)
Theorem read_only_endpoint content_type session user fresh body m a :
  mc_read_only cfg = true → (handle_post content_type session user fresh body m a).1.2 = a.
Proof using Type.
  intros Hro. rw /handle_post. destruct (is_json content_type); [|done]. cbn [negb].
  destruct (message_from_slice body) as [message|]; [|done].
  assert (∀ client method params, (answer client user method params a).1 = a) as Hans.
  { intros client method params. rw /answer. repeat (destruct (method =?s _); [try done|]); try done.
    rw /tools_call. set (name := default _ _). set (args := default _ _).
    destruct (refused name) eqn:Hr; [done|]. rw /refused Hro orb_false_iff in Hr. destruct Hr as [Hl Hf].
    pose proof (call_changes_nothing client user name args a Hf Hl) as Hc.
    by destruct (call_tool client user name args a). }
  destruct message; try done; (destruct (value_get "id" _) as [id|]; [|done]);
    (destruct (_ =?s "initialize"); [done|]); (destruct (session_client _ _ _) as [m' client]);
    match goal with |- context [answer ?c ?u ?me ?p a] => pose proof (Hans c me p) as Hx; by destruct (answer c u me p a) end.
Qed.

(** The annotations agents rely on are honest: every tool the server lists
    exists, one listed as read-only leaves the server's state as it was whatever
    its arguments, and every tool an agent can call without being listed as one
    that changes state changes nothing. *)
Theorem annotations_honest client user args a :
  (∀ d, d ∈ tool_list → is_Some (tool_named (ds_name d))) ∧
  (∀ d, d ∈ visible_tools a → is_read_only d = true → (call_tool client user (ds_name d) args a).1 = a) ∧
  (∀ name, (call_tool client user name args a).1 ≠ a →
     starts_with name "flow__" = true ∨ listed_as (λ d, negb (is_read_only d)) name = true).
Proof using Type.
  split; [|split].
  - apply Forall_forall. repeat (apply Forall_cons; split; [by vm_compute; eexists|]). constructor.
  - intros d Hd Hr. assert (d ∈ tool_list) as Hin.
    { assert (d ∈ tool_list ++ ((λ nf : string * Flow, mkDescriptor nf.1 WriteTool []) <$> flow_tools a)) as Hd'.
      { move: Hd. rw /visible_tools. destruct (mc_read_only cfg); [|done].
        intros [Hd _]%list_elem_of_In%List.filter_In. by apply list_elem_of_In. }
      apply elem_of_app in Hd' as [?|(nf & -> & _)%list_elem_of_fmap]; [done|]. by vm_compute in Hr. }
    assert (Forall (λ d, is_read_only d = true → starts_with (ds_name d) "flow__" = false ∧
              listed_as (λ d, negb (is_read_only d)) (ds_name d) = false) tool_list) as Hall.
    { repeat (apply Forall_cons; split; [by vm_compute|]). constructor. }
    destruct (proj1 (Forall_forall _ _) Hall d Hin Hr) as [Hf Hl]. by apply call_changes_nothing.
  - intros name Hc. destruct (starts_with name "flow__") eqn:Hf; [by left|].
    destruct (listed_as _ name) eqn:Hl; [by right|]. by destruct Hc; apply call_changes_nothing.
Qed.
End mcp.

(** ** The table of sessions *)

Lemma oldest_in m k : oldest m = Some k → is_Some (m !! k).
Proof.
  rw /oldest. destruct (map_to_list m) as [|x l] eqn:E; [done|]. intros [= <-].
  assert (fold_left older l x ∈ x :: l) as Hin.
  { clear E. revert x. induction l as [|y l IH]; intros x; [by left|]. simpl. pose proof (IH (older x y)) as Hi.
    rw /older in Hi |- *. destruct (_ <? _); apply elem_of_cons in Hi as [Hi|Hi]; rw ?Hi; set_solver. }
  rw -E in Hin. destruct (fold_left older l x) as [k v]. apply elem_of_map_to_list in Hin. by eexists.
Qed.

Lemma size_insert_le (m : Sessions) id x : (size (<[id := x]> m) ≤ S (size m))%nat.
Proof. rw map_size_insert. destruct (m !! id); simpl; lia. Qed.

Lemma create_session_bounded now id client m :
  (size m ≤ MAX_SESSIONS)%nat → (size (create_session now id client m) ≤ MAX_SESSIONS)%nat.
Proof.
  assert (0 < MAX_SESSIONS)%nat as Hpos by (apply Nat.ltb_lt; by vm_compute).
  rw /create_session. set (m1 := filter _ m). generalize dependent MAX_SESSIONS. intros n Hn Hm.
  assert (size m1 ≤ n)%nat as Hle by (pose proof (map_size_filter (λ kv, now - kv.2.2 < SESSION_TTL) m); rw /m1; lia).
  destruct (n <=? size m1)%nat eqn:E; [|apply Nat.leb_gt in E; pose proof (size_insert_le m1 id (client, now)); lia].
  apply Nat.leb_le in E. destruct (oldest m1) as [k|] eqn:Ek.
  - pose proof (size_insert_le (delete k m1) id (client, now)) as Hi.
    rw (map_size_delete_Some k m1 (oldest_in _ _ Ek)) in Hi. lia.
  - rw /oldest in Ek. destruct (map_to_list m1) as [|x l] eqn:El; [|done]. apply map_to_list_empty_iff in El.
    rw El map_size_empty in E. lia.
Qed.
Lemma session_client_size now id m : size (session_client now id m).1 = size m.
Proof.
  destruct id as [id|]; [|done]. rw /session_client. destruct (m !! id) as [[client seen]|] eqn:E; [|done].
  cbn [fst]. by apply map_size_insert_Some; rw E.
Qed.

(** The table of MCP sessions never holds more than its thousand entries:
    no message and no end of a session takes it past them, however many clients
    initialize. *)
Theorem sessions_bounded
    `{StoreEnv, PoolEnv, ServerEnv, ScheduleEnv, ReaderEnv, RowEnv, JinjaEnv, ActionEnv, RangeEnv, SecretEnv, McpEnv}
    (o : Ops) (cfg : McpConfig) content_type session user fresh body m a :
  (size m ≤ MAX_SESSIONS)%nat →
  (size (handle_post o cfg content_type session user fresh body m a).1.1 ≤ MAX_SESSIONS)%nat ∧
  (size (handle_delete session m).1 ≤ MAX_SESSIONS)%nat.
Proof.
  intros Hm. split.
  - rw /handle_post. destruct (is_json content_type); [|done]. cbn [negb].
    destruct (message_from_slice body) as [message|]; [|done].
    destruct message; try done; (destruct (value_get "id" _) as [id|]; [|done]);
      (destruct (_ =?s "initialize"); [by apply create_session_bounded|]);
      pose proof (session_client_size (instant a) session m) as Hs;
      (destruct (session_client _ _ _) as [m' client]); cbn [fst] in Hs;
      match goal with |- context [answer ?o ?cfg ?c ?u ?me ?p ?a] => destruct (answer o cfg c u me p a) end;
      cbn [fst]; by rw Hs.
  - destruct session as [id|]; [|done]. rw /handle_delete /remove_session. cbn [fst].
    pose proof (map_size_delete id m) as Hd. destruct (m !! id); simpl in Hd; lia.
Qed.
