(* ===== verification/ApiSettings.v ===== *)
(** * The settings (server/src/api/settings.rs, server/src/ui.rs, server/src/lib.rs)

    The settings a person edits while the server runs: each is put to use at
    once, written to the store and marked as edited, and a server that starts
    reads back what was stored.  The title and the marks are [Edits], since no
    other part of the server reads them.  The rewriting of [cereyan.toml] is an
    argument, its answer; the text of the resource totals is serde's. *)

From S2P Require Import Prelude Float64 Json States Transitions Timer Schedules Model DepGraph Events Unique.
From S2P Require Import RuleMatching ActiveIndex Resources WorkQueue Pool GroupCommit Tables Store JsonCodec Reader.
From S2P Require Import StoreAdmin StoreRegistry Integrity RuleReader Validate App Scheduler Waits ApiRuns Access.
From Stdlib Require Import Ascii.

Class SettingsEnv : Type := {
  totals_to_string : gmap string f64 → string;
  totals_from_str : string → option (list (string * f64));
}.

(** The settings with a slot of their own. *)
Inductive Slot : Type :=
| RetainDays | RetainRunsDays | RetainFailedRunsDays | KeepLastRunsPerFlow | BackupEvery | BackupKeep
| RetainCheckpointsDays.
#[export] Instance Slot_eq_dec : EqDecision Slot.
Proof. solve_decision. Defined.
Definition slots : list Slot :=
  [RetainDays; RetainRunsDays; RetainFailedRunsDays; KeepLastRunsPerFlow; BackupEvery; BackupKeep;
   RetainCheckpointsDays].
Definition slot_key (s : Slot) : string :=
  match s with
  | RetainDays => "retain_days"
  | RetainRunsDays => "retain_runs_days"
  | RetainFailedRunsDays => "retain_failed_runs_days"
  | KeepLastRunsPerFlow => "keep_last_runs_per_flow"
  | BackupEvery => "backup_every"
  | BackupKeep => "backup_keep"
  | RetainCheckpointsDays => "retain_checkpoints_days"
  end.
Definition load_slot (s : Slot) (x : Settings) : Z :=
  match s with
  | RetainDays => retain_days x
  | RetainRunsDays => retain_runs_days x
  | RetainFailedRunsDays => retain_failed_runs_days x
  | KeepLastRunsPerFlow => keep_last_runs_per_flow x
  | BackupEvery => backup_every x
  | BackupKeep => backup_keep x
  | RetainCheckpointsDays => retain_checkpoints_days x
  end.
Definition store_slot (s : Slot) (v : Z) (x : Settings) : Settings :=
  let at_ (t : Slot) := if decide (s = t) then v else load_slot t x in
  mkSettings (at_ RetainDays) (at_ RetainRunsDays) (at_ RetainFailedRunsDays) (at_ KeepLastRunsPerFlow)
    (at_ BackupEvery) (at_ BackupKeep) (at_ RetainCheckpointsDays).

Record SettingsPatch : Type := mkSettingsPatch {
  sp_resources : option (list (string * f64));
  sp_slots : Slot → option Z;
  sp_crash_retries : option Z;
  sp_max_engines : option Z;
  sp_title : option string;
}.
Record Edits : Type := mkEdits { ed_title : string; ed_marked : gset string }.
Definition mark_edited (key : string) (e : Edits) : Edits := mkEdits (ed_title e) ({[key]} ∪ ed_marked e).
Definition set_title (t : string) (e : Edits) : Edits := mkEdits t (ed_marked e).

(** ** The title (ui.rs) *)

Definition DEFAULT_TITLE : string := "cereyan".
Definition MAX_TITLE_CHARS : nat := 80.
(** The characters of a text: the bytes that do not continue one. *)
Definition char_count (s : string) : nat :=
  length (List.filter (λ c, let n := nat_of_ascii c in negb ((128 <=? n)%nat && (n <? 192)%nat)) (chars s)).
Definition normalize_title (raw : option string) : result string string :=
  let title := trim (default EmptyString raw) in
  if str_is_empty title then Ok DEFAULT_TITLE
  else if (MAX_TITLE_CHARS <? char_count title)%nat
  then Err ("title must be at most " +:+ pretty MAX_TITLE_CHARS +:+ " characters")
  else if str_any Auth.is_control title then Err "title must not contain control characters"
  else Ok title.

(** ** The edit *)

Section settings.
Context `{StoreEnv, PoolEnv, SettingsEnv} (cpu_cap : Z).

Definition on_settings (f : Settings → Settings) (a : App) : App :=
  set_flags (mkFlags (live_flows (flags a)) (shutting_down (flags a)) (resetting (flags a)) (f (settings (flags a)))
               (overdue_reported (flags a))) a.
Definition set_crash_retries (n : Z) (a : App) : App :=
  mkApp (store a) (index a) (timer a) (supervisor a) (schedules a) (pause a) (dep_slot a) (backfill_emitted a)
    (rules_state a) n (fast_crash_rerun a) (clock a) (instant a) (answer_lock a) (loop_locks a) (halted a)
    (outputs a) (spawned a) (flags a).
Definition set_totals (totals : list (string * f64)) (s : Supervisor) : Supervisor :=
  fold_left (λ s kv, set_total kv.1 kv.2 s) totals s.
Definition stored (key value : string) (a : App) : App := write_only (kv_set (clock a) ("settings." +:+ key) value) a.

Abbreviation Edited := (Edits * App * result unit ApiError)%type.

Definition patch_resources (r : option (list (string * f64))) (e : Edits) (a : App) : Edited :=
  match r with
  | None => (e, a, Ok tt)
  | Some resources =>
      if existsb (λ kv, f64_lt kv.2 f64_zero) resources
      then (e, a, Err (Unprocessable "resource totals must be non-negative"))
      else
        let a := on_supervisor (set_totals resources) a in
        let e := fold_left (λ e kv, mark_edited ("resources." +:+ kv.1) e) resources e in
        (e, stored "resources" (totals_to_string (totals (WorkQueue.resources (supervisor a)))) a, Ok tt)
  end.
Definition patch_slot (value : option Z) (s : Slot) (e : Edits) (a : App) : Edited :=
  match value with
  | None => (e, a, Ok tt)
  | Some v =>
      if v <? 0 then (e, a, Err (Unprocessable (slot_key s +:+ " must be zero or more")))
      else (mark_edited ("defaults." +:+ slot_key s) e, stored (slot_key s) (dec v) (on_settings (store_slot s v) a), Ok tt)
  end.
Fixpoint patch_slots (values : Slot → option Z) (l : list Slot) (e : Edits) (a : App) : Edited :=
  match l with
  | [] => (e, a, Ok tt)
  | s :: l' =>
      match patch_slot (values s) s e a with
      | (e, a, Ok _) => patch_slots values l' e a
      | r => r
      end
  end.
Definition patch_crash_retries (value : option Z) (e : Edits) (a : App) : Edited :=
  match value with
  | None => (e, a, Ok tt)
  | Some c =>
      if c <? 0 then (e, a, Err (Unprocessable "crash_retries must be zero or more"))
      else (mark_edited "defaults.crash_retries" e, stored "crash_retries" (dec c) (set_crash_retries c a), Ok tt)
  end.
Definition patch_engines (value : option Z) (e : Edits) (a : App) : Edits * App :=
  match value with
  | None => (e, a)
  | Some n =>
      let a := App.ensure_capacity (on_supervisor (set_max_engines (instant a) cpu_cap n) a) in
      (mark_edited "server.max_engines" e, stored "max_engines" (dec n) a)
  end.

Definition patched_title (raw : option string) : result (option string) string :=
  match raw with
  | Some raw => let? t := normalize_title (Some raw) in Ok (Some t)
  | None => Ok None
  end.
Definition patch_settings (b : SettingsPatch) (persisted : result unit string) (e : Edits) (a : App) : Edited :=
  match patched_title (sp_title b) with
  | Err m => (e, a, Err (Unprocessable m))
  | Ok title =>
      if match sp_max_engines b with Some n => (n <? 1) || (cpu_cap <? n) | None => false end then
        (e, a, Err (Unprocessable ("max_engines must be between 1 and " +:+ dec cpu_cap +:+ ", this machine's CPU count")))
      else
        match patch_resources (sp_resources b) e a with
        | (e, a, Ok _) =>
            match patch_slots (sp_slots b) slots e a with
            | (e, a, Ok _) =>
                match patch_crash_retries (sp_crash_retries b) e a with
                | (e, a, Ok _) =>
                    let '(e, a) := patch_engines (sp_max_engines b) e a in
                    let e := match title with Some t => mark_edited "ui.title" (set_title t e) | None => e end in
                    (e, a, match persisted with Ok _ => Ok tt | Err m => Err (InternalText m) end)
                | r => r
                end
            | r => r
            end
        | r => r
        end
  end.

(** ** The start of a server (lib.rs) *)

Definition stored_number (key : string) (s : Store) : option Z :=
  and_then (kv_get ("settings." +:+ key) s) parse_i64.
Definition load_stored (ea : Edits * App) (s : Slot) : Edits * App :=
  match stored_number (slot_key s) (store ea.2) with
  | Some v => (mark_edited ("defaults." +:+ slot_key s) ea.1, on_settings (store_slot s v) ea.2)
  | None => ea
  end.
Definition load_slots (e : Edits) (a : App) : Edits * App := fold_left load_stored slots (e, a).
Definition load_crash_retries (e : Edits) (a : App) : Edits * App :=
  match stored_number "crash_retries" (store a) with
  | Some c => (mark_edited "defaults.crash_retries" e, set_crash_retries c a)
  | None => (e, a)
  end.
(** [str::parse::<usize>] of the stored count; [engines_default] says that no
    flag and no file set it. *)
Definition load_engines (engines_default : bool) (e : Edits) (a : App) : Edits * App :=
  match (if engines_default then and_then (kv_get "settings.max_engines" (store a))
           (λ t, parse_unsigned u64_MAX (default t (strip_prefix "+" t))) else None) with
  | Some n => (mark_edited "server.max_engines" e, on_supervisor (set_max_engines (instant a) cpu_cap n) a)
  | None => (e, a)
  end.
(** A worker is offline until its next heartbeat; a drained one stays drained. *)
Definition workers_offline (a : App) : App :=
  fold_left (λ a w, if wk_state w =?s "online" then (write_ (set_worker_state (wk_id w) "offline") a).1 else a)
    (list_workers (store a)) a.
Definition load_totals (e : Edits) (a : App) : Edits * App :=
  match and_then (kv_get "settings.resources" (store a)) totals_from_str with
  | Some map =>
      (fold_left (λ e kv, mark_edited ("resources." +:+ kv.1) e) map e, on_supervisor (set_totals map) a)
  | None => (e, a)
  end.
Definition load_settings (engines_default : bool) (e : Edits) (a : App) : Edits * App :=
  let '(e, a) := load_slots e a in
  let '(e, a) := load_crash_retries e a in
  let '(e, a) := load_engines engines_default e a in
  load_totals e (workers_offline a).
End settings.

(** ** What is stored is what a restart reads *)

Lemma digit_pretty (d : N) : (d < 10)%N → digit (pretty_N_char d) = Some (Z.of_N d).
Proof.
  intros Hd. destruct d as [|p]; [done|].
  destruct p as [p|p|]; try done; destruct p as [p|p|]; try done; destruct p as [p|p|]; try done; destruct p; done || lia.
Qed.
Lemma parse_pretty_go limit (x : N) s :
  Z.of_N x ≤ limit → parse_digits limit 0 (pretty_N_go x s) = parse_digits limit (Z.of_N x) s.
Proof.
  revert s. induction (N.lt_wf_0 x) as [x _ IH]; intros s Hx.
  destruct (decide (x = 0)%N) as [->|Hne]; [by rw pretty_N_go_0|].
  rw pretty_N_go_step; [|lia]. rw IH; [|apply N.div_lt; lia|].
  - cbn [parse_digits]. rw digit_pretty; [|apply N.mod_lt; lia].
    assert (Z.of_N (x `div` 10) * 10 + Z.of_N (x `mod` 10) = Z.of_N x) as ->.
    { pose proof (N.div_mod x 10 ltac:(lia)). lia. }
    rw (proj2 (Z.leb_le _ _) Hx) //.
  - pose proof (N.Div0.div_le_upper_bound x 10 x ltac:(lia)). lia.
Qed.
Lemma first_digit x s : (0 < x)%N → ∃ c r, pretty_N_go x s = String c r ∧ is_Some (digit c).
Proof.
  revert s. induction (N.lt_wf_0 x) as [x _ IH]; intros s Hx. rw pretty_N_go_step //.
  destruct (decide (x `div` 10 = 0)%N) as [E|Hne].
  - rw E pretty_N_go_0. exists (pretty_N_char (x `mod` 10)), s. split; [done|].
    rw digit_pretty; [by eexists|]. apply N.mod_lt. lia.
  - apply IH; [apply N.div_lt; lia|by apply N.neq_0_lt_0].
Qed.

Lemma parse_unsigned_dec limit v :
  0 ≤ v ≤ limit → parse_unsigned limit (dec v) = Some v ∧ strip_prefix "+" (dec v) = None ∧ strip_prefix "-" (dec v) = None.
Proof.
  intros Hv. destruct (decide (v = 0)) as [->|Hne].
  { split; [|done]. by destruct limit as [|p|p]; [| |lia]. }
  assert (dec v = pretty_N_go (Z.to_N v) EmptyString) as ->.
  { rw /dec /pretty /pretty_Z. destruct v as [|p|p]; [done| |lia]. reflexivity. }
  destruct (first_digit (Z.to_N v) EmptyString) as (c & r & E & [d Hd]); [lia|]. split.
  { rw /parse_unsigned E. cbn [str_is_empty]. rw -E parse_pretty_go; [|lia]. cbn [parse_digits]. f_equal. lia. }
  rw E. cbn [strip_prefix].
  destruct (Ascii.eqb_spec "-" c) as [<-|_]; [by vm_compute in Hd|].
  by destruct (Ascii.eqb_spec "+" c) as [<-|_]; [vm_compute in Hd|].
Qed.
Lemma parse_dec v : 0 ≤ v ≤ i64_MAX → parse_i64 (dec v) = Some v.
Proof.
  intros Hv. destruct (parse_unsigned_dec i64_MAX v Hv) as (Hp & Hplus & Hminus). by rw /parse_i64 Hplus Hminus.
Qed.

Section laws.
Context `{StoreEnv, PoolEnv, SettingsEnv} (cpu_cap : Z).

Lemma kv_stored key v k a :
  kv_get ("settings." +:+ k) (store (stored key v a)) =
  if decide (key = k) then Some v else kv_get ("settings." +:+ k) (store a).
Proof using Type.
  transitivity (fst <$> <["settings." +:+ key := (v, clock a)]> (kv (defs (store a))) !! ("settings." +:+ k)); [done|].
  destruct (decide (key = k)) as [->|Hk]; [by rw lookup_insert_eq|].
  rw lookup_insert_ne //. by intros [= ->].
Qed.
Lemma number_stored key v a : 0 ≤ v ≤ i64_MAX → stored_number key (store (stored key (dec v) a)) = Some v.
Proof using Type. intros Hv. rw /stored_number kv_stored decide_True //. by apply parse_dec. Qed.
Lemma number_kept key key' v a : key ≠ key' → stored_number key (store (stored key' v a)) = stored_number key (store a).
Proof using Type. intros Hk. by rw /stored_number kv_stored decide_False. Qed.
Lemma slot_key_inj s t : slot_key s = slot_key t → s = t.
Proof using Type. by destruct s, t. Qed.
Lemma load_store_slot s t v x : load_slot t (store_slot s v x) = if decide (s = t) then v else load_slot t x.
Proof using Type. by destruct t. Qed.

(** What the loop over the slots leaves in use and in the store. *)
Lemma patch_slots_spec values l e a e' a' :
  NoDup l → (∀ s v, values s = Some v → v ≤ i64_MAX) → patch_slots values l e a = (e', a', Ok tt) →
  (∀ s v, s ∈ l → values s = Some v →
     load_slot s (settings (flags a')) = v ∧ stored_number (slot_key s) (store a') = Some v) ∧
  (∀ s, s ∉ l → load_slot s (settings (flags a')) = load_slot s (settings (flags a))) ∧
  (∀ key, (∀ s, s ∈ l → key ≠ slot_key s) → stored_number key (store a') = stored_number key (store a)).
Proof using Type.
  intros Hd Hmax. revert e a. induction Hd as [|s l Hs Hd IH]; intros e a; cbn [patch_slots].
  { intros [= <- <-]. split; [by intros s v Hin%not_elem_of_nil|]. done. }
  rw /patch_slot. destruct (values s) as [v|] eqn:Ev.
  - destruct (Z.ltb_spec v 0); [done|]. intros Hp. apply IH in Hp as (P1 & P2 & P3).
    assert (0 ≤ v ≤ i64_MAX) as Hv by (split; [lia | by eapply Hmax]).
    split; [|split].
    + intros t w [->|Hin]%elem_of_cons Et; [|by apply P1]. rw Ev in Et. injection Et as <-.
      rw P2 // P3; [|intros t Ht E; apply slot_key_inj in E; by subst].
      split; [|by apply number_stored].
      change (load_slot s (store_slot s v (settings (flags a))) = v). by rw load_store_slot decide_True.
    + intros t Ht. rw P2; [|set_solver]. change (load_slot t (store_slot s v (settings (flags a))) = load_slot t (settings (flags a))).
      rw load_store_slot decide_False //. set_solver.
    + intros key Hk. rw P3; [|intros t Ht; apply Hk; by right]. rw number_kept; [done|]. apply Hk. by left.
  - intros Hp. apply IH in Hp as (P1 & P2 & P3). split; [|split].
    + intros t w [->|Hin]%elem_of_cons Et; [congruence | by apply P1].
    + intros t Ht. apply P2. set_solver.
    + intros key Hk. apply P3. intros t Ht. apply Hk. by right.
Qed.

Lemma set_totals_engines m s : max_engines (set_totals m s) = max_engines s.
Proof using Type. rw /set_totals. revert s. by induction m as [|kv m IH]; intros s; [|cbn [fold_left]; rw IH]. Qed.

(** What each step of the start keeps and brings into use. *)
Lemma load_stored_spec l e a e' a' :
  NoDup l → fold_left load_stored l (e, a) = (e', a') →
  store a' = store a ∧
  (∀ s v, s ∈ l → stored_number (slot_key s) (store a) = Some v → load_slot s (settings (flags a')) = v) ∧
  (∀ s, s ∉ l → load_slot s (settings (flags a')) = load_slot s (settings (flags a))).
Proof using Type.
  intros Hd. revert e a. induction Hd as [|s l Hs Hd IH]; intros e a; cbn [fold_left].
  { intros [= _ <-]. split; [done|]. split; [by intros s v Hin%not_elem_of_nil|done]. }
  rw {2}/load_stored. cbn [fst snd]. destruct (stored_number (slot_key s) (store a)) as [v|] eqn:Ev; intros Hp; apply IH in Hp as (P1 & P2 & P3).
  - assert (∀ t, load_slot t (settings (flags (on_settings (store_slot s v) a))) =
                 if decide (s = t) then v else load_slot t (settings (flags a))) as Hl by (intros t; apply load_store_slot).
    split; [done|]. split.
    + intros t w [->|Hin]%elem_of_cons Et; [|by apply P2]. rw P3 // Hl decide_True //. congruence.
    + intros t Ht. rw P3; [|set_solver]. rw Hl decide_False //. set_solver.
  - split; [done|]. split.
    + intros t w [->|Hin]%elem_of_cons Et; [congruence | by apply P2].
    + intros t Ht. apply P3. set_solver.
Qed.
Lemma workers_offline_spec a :
  kv (defs (store (workers_offline a))) = kv (defs (store a)) ∧ flags (workers_offline a) = flags a ∧
  crash_retries_default (workers_offline a) = crash_retries_default a ∧ supervisor (workers_offline a) = supervisor a.
Proof using Type.
  rw /workers_offline. generalize (list_workers (store a)) => l. revert a. induction l as [|w l IH]; intros a; [done|].
  cbn [fold_left]. destruct (wk_state w =?s "online"); [|apply IH].
  destruct (IH (write_ (set_worker_state (wk_id w) "offline") a).1) as (-> & -> & -> & ->). done.
Qed.

(** What a server that starts on the store has in use. *)
Lemma load_settings_spec engines_default e a e' a' :
  load_settings cpu_cap engines_default e a = (e', a') →
  (∀ s v, stored_number (slot_key s) (store a) = Some v → load_slot s (settings (flags a')) = v) ∧
  (∀ c, stored_number "crash_retries" (store a) = Some c → crash_retries_default a' = c) ∧
  (∀ n, engines_default = true → kv_get "settings.max_engines" (store a) = Some (dec n) → 1 ≤ n ≤ cpu_cap →
     n ≤ u64_MAX → max_engines (supervisor a') = n).
Proof using Type.
  rw /load_settings /load_slots. destruct (fold_left _ _ _) as [e1 a1] eqn:E1.
  apply load_stored_spec in E1 as (S1 & P1 & _); [|by apply (bool_decide_unpack (NoDup slots))].
  assert (∀ s, s ∈ slots) as Hall by (intros s; destruct s; apply (bool_decide_unpack (_ ∈ slots)); done).
  destruct (load_crash_retries e1 a1) as [e2 a2] eqn:E2.
  assert (store a2 = store a ∧ flags a2 = flags a1 ∧
          ∀ c, stored_number "crash_retries" (store a) = Some c → crash_retries_default a2 = c) as (S2 & F2 & C2).
  { revert E2. rw /load_crash_retries S1. destruct (stored_number _ _) as [c|]; intros [= _ <-]; [|done].
    split; [done|]. split; [done|]. by intros ? [= ->]. }
  destruct (load_engines cpu_cap engines_default e2 a2) as [e3 a3] eqn:E3.
  assert (store a3 = store a ∧ flags a3 = flags a1 ∧ crash_retries_default a3 = crash_retries_default a2) as (S3 & F3 & C3).
  { revert E3. rw /load_engines. destruct (if engines_default then _ else _); intros [= _ <-]; done. }
  destruct (workers_offline_spec a3) as (Kw & Fw & Cw & Vw). rw /load_totals. intros Ht.
  assert (flags a' = flags a1 ∧ crash_retries_default a' = crash_retries_default a2 ∧
          max_engines (supervisor a') = max_engines (supervisor a3)) as (Fa & Ca & Va).
  { revert Ht. destruct (and_then _ totals_from_str) as [m|]; intros [= _ <-]; [|by rw Fw Cw Vw F3 C3].
    rw -F3 -C3 -Fw -Cw -Vw. split; [done|]. split; [done|]. apply set_totals_engines. }
  split; [intros s v Hv; rw Fa; by apply P1|]. split; [intros c Hc; rw Ca; by apply C2|].
  intros n -> Hn Hb Hu. rw Va. revert E3. rw /load_engines S2 Hn. cbn [and_then].
  destruct (parse_unsigned_dec u64_MAX n) as (Hp & Hplus & _); [lia|]. rw Hplus. cbn [default]. rw Hp. intros [= _ <-].
  change (clamp 1 cpu_cap n = n). rw /clamp.
  destruct (Z.ltb_spec n 1); [lia|]. destruct (Z.ltb_spec cpu_cap n); lia.
Qed.

(** What an accepted edit leaves in the store. *)
Lemma patch_settings_spec b persisted e a e' a' :
  (∀ s v, sp_slots b s = Some v → v ≤ i64_MAX) → (∀ c, sp_crash_retries b = Some c → c ≤ i64_MAX) →
  patch_settings cpu_cap b persisted e a = (e', a', Ok tt) →
  (∀ s v, sp_slots b s = Some v →
     load_slot s (settings (flags a')) = v ∧ stored_number (slot_key s) (store a') = Some v) ∧
  (∀ c, sp_crash_retries b = Some c →
     crash_retries_default a' = c ∧ stored_number "crash_retries" (store a') = Some c) ∧
  (∀ n, sp_max_engines b = Some n → kv_get "settings.max_engines" (store a') = Some (dec n) ∧ 1 ≤ n ≤ cpu_cap).
Proof using Type.
  intros Hs Hc. rw /patch_settings. destruct (patched_title _) as [title|m]; [|done].
  destruct (match sp_max_engines b with Some n => _ | None => _ end) eqn:Eg; [done|].
  destruct (patch_resources _ _ _) as [[e1 a1] [[]|r]]; [|done].
  destruct (patch_slots _ _ _ _) as [[e2 a2] [[]|r]] eqn:E2; [|done].
  apply patch_slots_spec in E2 as (P1 & _ & _); [|by apply (bool_decide_unpack (NoDup slots))|done].
  destruct (patch_crash_retries _ _ _) as [[e3 a3] [[]|r]] eqn:E3; [|done].
  assert (flags a3 = flags a2 ∧ (∀ s, stored_number (slot_key s) (store a3) = stored_number (slot_key s) (store a2)) ∧
          ∀ c, sp_crash_retries b = Some c → crash_retries_default a3 = c ∧ stored_number "crash_retries" (store a3) = Some c)
    as (F3 & S3 & C3).
  { revert E3. rw /patch_crash_retries. destruct (sp_crash_retries b) as [c|] eqn:Ec; [|by intros [= _ <-]].
    destruct (Z.ltb_spec c 0); [done|]. intros [= _ <-]. split; [done|]. split.
    - intros s. rw number_kept //. by destruct s.
    - intros ? [= <-]. split; [done|]. apply number_stored. split; [lia | by apply Hc]. }
  destruct (patch_engines cpu_cap _ e3 a3) as [e4 a4] eqn:E4.
  assert (flags a4 = flags a3 ∧ crash_retries_default a4 = crash_retries_default a3 ∧
          (∀ key, key ≠ "max_engines" → stored_number key (store a4) = stored_number key (store a3)) ∧
          ∀ n, sp_max_engines b = Some n → kv_get "settings.max_engines" (store a4) = Some (dec n)) as (F4 & C4 & S4 & M4).
  { revert E4. rw /patch_engines. destruct (sp_max_engines b) as [n|]; [|by intros [= _ <-]].
    intros [= _ <-]. split; [done|]. split; [done|]. split; [intros key Hk; by rw number_kept|].
    intros ? [= <-]. exact (kv_stored "max_engines" (dec n) "max_engines" _). }
  intros Hr. assert (a4 = a') as <- by (by destruct persisted; injection Hr).
  assert (∀ s, s ∈ slots) as Hall by (intros s; destruct s; apply (bool_decide_unpack (_ ∈ slots)); done).
  split; [|split].
  - intros s v Ev. rw F4 F3 S4; [|by destruct s]. rw S3. by apply P1.
  - intros c Ec. rw C4 S4 //. by apply C3.
  - intros n En. split; [by apply M4|]. revert Eg. rw En. intros [? ?]%orb_false_iff. lia.
Qed.


(** An edit that is refused can have been carried out in part: the settings
    before the refused one are in use and in the store. *)
Lemma refused_edit_half_applied persisted e a days :
  0 ≤ days ≤ i64_MAX →
  let b := mkSettingsPatch None (λ s, match s with RetainDays => Some days | BackupKeep => Some (-1) | _ => None end)
             None None None in
  let '(_, a', r) := patch_settings cpu_cap b persisted e a in
  r = Err (Unprocessable "backup_keep must be zero or more") ∧
  retain_days (settings (flags a')) = days ∧ stored_number "retain_days" (store a') = Some days.
Proof using Type.
  intros Hd. rw /patch_settings. cbn [sp_title sp_max_engines sp_resources sp_slots patched_title patch_resources].
  rw /slots. cbn [patch_slots patch_slot]. destruct (Z.ltb_spec days 0); [lia|]. cbn [patch_slots patch_slot].
  split; [done|]. split; [done|]. by apply number_stored.
Qed.
End laws.
