(* ===== verification/ApiAgents.v ===== *)
(** * Agents (server/src/api/agents.rs)

    Agents defined in the interface: a definition that is checked, held to the
    allowlist of the configuration, stored, and registered as a flow on the
    built-in runner; and the tool calls a person approved for good.  Reading
    and writing a definition as JSON and SHA-256 are fields of [AgentEnv], as
    are SQLite's casts and sums of the values its [json_extract] returns. *)

From S2P Require Import Prelude Float64 Json States Transitions Timer Schedules Model DepGraph Events Unique.
From S2P Require Import RuleMatching ActiveIndex Resources WorkQueue Pool GroupCommit Tables Store Reader.
From S2P Require Import StoreAdmin StoreRegistry Integrity RuleReader Replay Pages Access Compare App Scheduler Waits ApiRuns Mcp.
From Stdlib Require Import Ascii.

Record AgentsConfig : Type := mkAgentsConfig {
  mcp_commands : list string;
  mcp_urls : list string;
  cost_per_day : f64;
}.
Record ToolSpec : Type := mkToolSpec { tl_kind : string; tl_name : string; tl_options : Map }.
Record Policy : Type := mkPolicy { po_approvals : string; po_once : list string }.
Record Limits : Type := mkLimits {
  lm_tokens : option Z;
  lm_requests : option Z;
  lm_cost_usd : option f64;
  lm_timeout_seconds : option f64;
}.
Record AgentOutput : Type := mkAgentOutput { ot_kind : string; ot_schema : option Value }.
Record AgentDefinition : Type := mkAgentDefinition {
  ad_name : string;
  ad_project : string;
  ad_group : option string;
  ad_description : string;
  ad_model : string;
  ad_api_key : option string;
  ad_instructions : string;
  ad_prompt : string;
  ad_tools : list ToolSpec;
  ad_policy : Policy;
  ad_limits : Limits;
  ad_output : AgentOutput;
  ad_crash_retries : Z;
  ad_enabled : bool;
}.
Record Usage24h : Type := mkUsage24h { us_runs : Z; us_tokens : Z; us_cost_usd : f64 }.
Record AgentResponse : Type := mkAgentResponse {
  ar_row : AgentRow;
  ar_allow_error : option string;
  ar_parameter_schema : Value;
  ar_cost_today : f64;
  ar_cost_cap : f64;
  ar_usage_24h : Usage24h;
}.
Record ApprovalBody : Type := mkApprovalBody { ab_tool : string; ab_args : Value; ab_run_id : option Z }.

Class AgentEnv : Type := {
  definition_to_string : AgentDefinition → string;
  definition_from_value : Value → result AgentDefinition string;
  sha256_hex : string → string;
  (** [CAST(... AS REAL)], [CAST(... AS INTEGER)] and [SUM] over reals *)
  cast_real : Value → option f64;
  cast_integer : Value → option Z;
  sum_real : list f64 → f64;
}.

Definition RUNNER_MODULE : string := "cereyan.pydantic_ai.runner".
Definition TOOL_KINDS : list string := ["capability"; "common"; "mcp"; "self"; "code"].
Definition APPROVALS : list string := ["ask"; "approve"; "deny"].

(** ** The variables of a template *)

Definition is_alphabetic (c : ascii) : bool := is_alphanumeric c && negb (is_digit c).
Definition ident_char (c : ascii) : bool := is_alphanumeric c || Ascii.eqb c "_".
Definition ident_start (c : ascii) : bool := is_alphabetic c || Ascii.eqb c "_".
Fixpoint span (p : ascii → bool) (cs : list ascii) : list ascii * list ascii :=
  match cs with
  | c :: cs' => if p c then let '(a, b) := span p cs' in (c :: a, b) else ([], cs)
  | [] => ([], [])
  end.
(** The hole that starts at an opening brace: its name and what follows it. *)
Definition hole (rest : list ascii) : option (list ascii * list ascii) :=
  match span ident_char rest with
  | (c :: name, b :: after) =>
      if Ascii.eqb b "}" && ident_start c && negb (match after with d :: _ => Ascii.eqb d "}" | [] => false end)
      then Some (c :: name, after) else None
  | _ => None
  end.
Fixpoint scan (fuel : nat) (cs : list ascii) (out : list string) : list string :=
  match fuel, cs with
  | S fuel, c :: rest =>
      if Ascii.eqb c "{" then
        match rest with
        | d :: rest' =>
            if Ascii.eqb d "{" then scan fuel rest' out
            else match hole rest with
                 | Some (name, after) =>
                     let n := String.string_of_list_ascii name in
                     scan fuel after (if bool_decide (n ∈ out) then out else out ++ [n])
                 | None => scan fuel rest out
                 end
        | [] => scan fuel rest out
        end
      else scan fuel rest out
  | _, _ => out
  end.
Definition template_variables (texts : list string) : list string :=
  fold_left (λ out text, scan (length (chars text)) (chars text) out) texts [].

Definition text_parameter (dflt : string) : Value := VObject [("default", VString dflt); ("type", VString "string")].
Definition parameter_schema (d : AgentDefinition) : Value :=
  let properties := fold_left
    (λ m name, if name =?s "prompt" then m else map_insert name (text_parameter EmptyString) m)
    (template_variables [ad_prompt d; ad_instructions d]) (map_insert "prompt" (text_parameter (ad_prompt d)) []) in
  VObject [("properties", VObject properties); ("type", VString "object")].

(** ** Validation *)

Definition valid_agent_name (name : string) : bool :=
  negb (str_is_empty name) && (str_len name <=? 100)%nat
  && str_all (λ c, is_alphanumeric c || Ascii.eqb c "_" || Ascii.eqb c "-" || Ascii.eqb c ".") name.

Definition option_str (t : ToolSpec) (key : string) : option string := get_str key (tl_options t).
Definition validate_tool (i : nat) (t : ToolSpec) : result unit string :=
  let at_ := "tools[" +:+ pretty i +:+ "]" in
  if negb (bool_decide (tl_kind t ∈ TOOL_KINDS)) then
    Err (at_ +:+ ".kind: must be one of capability, common, mcp, self, code")
  else if tl_kind t =?s "code" then Err (at_ +:+ ".kind: code tools are not available yet")
  else if str_is_empty (tl_name t) then Err (at_ +:+ ".name: required")
  else if (tl_kind t =?s "mcp") && is_none (option_str t "url") && is_none (option_str t "command") then
    Err (at_ +:+ ".options: an MCP server needs url or command")
  else Ok tt.
Fixpoint validate_tools (i : nat) (l : list ToolSpec) : result unit string :=
  match l with
  | [] => Ok tt
  | t :: l' => let? _ := validate_tool i t in validate_tools (S i) l'
  end.
Definition validate_limit (name : string) (v : option f64) : result unit string :=
  match v with
  | Some v => if f64_lt v f64_zero then Err ("limits." +:+ name +:+ ": must be zero or more") else Ok tt
  | None => Ok tt
  end.
Definition is_object (v : Value) : bool := match v with VObject _ => true | _ => false end.

(** ** The allowlist *)

(** What a [*] leaves of a text: it takes any number of characters before the
    next slash. *)
Fixpoint star_tails (u : list ascii) : list (list ascii) :=
  u :: match u with
       | c :: u' => if Ascii.eqb c "/" then [] else star_tails u'
       | [] => []
       end.
Fixpoint url_go (p u : list ascii) : bool :=
  match p with
  | [] => match u with [] => true | _ => false end
  | a :: p' =>
      if Ascii.eqb a "*" then existsb (url_go p') (star_tails u)
      else match u with b :: u' => Ascii.eqb a b && url_go p' u' | [] => false end
  end.
Definition url_matches (pattern url : string) : bool := url_go (chars pattern) (chars url).

Definition base_name (command : string) : string :=
  match rsplit_once "/" command with Some (_, b) => b | None => command end.
Definition command_allowed (cfg : AgentsConfig) (command : string) : bool :=
  existsb (λ c, (c =?s command) || (negb (contains_char "/" c) && (c =?s base_name command))) (mcp_commands cfg).
Definition url_allowed (cfg : AgentsConfig) (url : string) : bool :=
  existsb (λ p, negb (p =?s "self") && url_matches p url) (mcp_urls cfg).
Definition tool_error (cfg : AgentsConfig) (t : ToolSpec) : option string :=
  if tl_kind t =?s "self" then
    if existsb (λ u, u =?s "self") (mcp_urls cfg) then None
    else Some ("the server's own MCP tools are not allowed: add " +:+ debug_str "self"
               +:+ " to [agents] mcp_urls in cereyan.toml")
  else if tl_kind t =?s "mcp" then
    match option_str t "command" with
    | Some command =>
        if command_allowed cfg command then None
        else Some ("command " +:+ debug_str command +:+ " is not in [agents] mcp_commands in cereyan.toml")
    | None =>
        match option_str t "url" with
        | Some url =>
            if url_allowed cfg url then None
            else Some ("url " +:+ debug_str url +:+ " matches nothing in [agents] mcp_urls in cereyan.toml")
        | None => None
        end
    end
  else None.
Fixpoint first_error (cfg : AgentsConfig) (l : list ToolSpec) : option string :=
  match l with
  | [] => None
  | t :: l' => match tool_error cfg t with Some e => Some e | None => first_error cfg l' end
  end.
Definition allow_error (cfg : AgentsConfig) (d : AgentDefinition) : option string := first_error cfg (ad_tools d).

Section agents.
Context `{StoreEnv, PoolEnv, ServerEnv, ReaderEnv, RowEnv, AgentEnv}.

Definition validate_key (key : option string) (s : Store) : result unit string :=
  match key with
  | None => Ok tt
  | Some key =>
      match get_variable key s with
      | Some (row, _) => if vr_secret row then Ok tt else Err ("api_key: variable " +:+ debug_str key +:+ " is not secret")
      | None => Err ("api_key: no variable named " +:+ debug_str key)
      end
  end.
Definition validate_output (o : AgentOutput) : result unit string :=
  if ot_kind o =?s "text" then Ok tt
  else if ot_kind o =?s "json" then
    match ot_schema o with
    | Some s => if is_object s then Ok tt else Err "output.schema: required for json output"
    | None => Err "output.schema: required for json output"
    end
  else Err "output.kind: must be text or json".
Definition validate_agent (s : Store) (d : AgentDefinition) : result unit string :=
  let shape := ": letters, digits, '_', '-' and '.', up to 100 characters" in
  if negb (valid_agent_name (ad_name d)) then Err ("name" +:+ shape)
  else if negb (valid_agent_name (ad_project d)) then Err ("project" +:+ shape)
  else if str_is_empty (trim (ad_model d)) then Err "model: required"
  else
    let? _ := validate_key (ad_api_key d) s in
    let? _ := validate_tools 0 (ad_tools d) in
    if negb (bool_decide (po_approvals (ad_policy d) ∈ APPROVALS)) then Err "policy.approvals: must be ask, approve or deny"
    else
      let? _ := validate_limit "tokens" (f64_of_Z <$> lm_tokens (ad_limits d)) in
      let? _ := validate_limit "requests" (f64_of_Z <$> lm_requests (ad_limits d)) in
      let? _ := validate_limit "cost_usd" (lm_cost_usd (ad_limits d)) in
      let? _ := validate_limit "timeout_seconds" (lm_timeout_seconds (ad_limits d)) in
      let? _ := validate_output (ad_output d) in
      if ad_crash_retries d <? 0 then Err "crash_retries: must be zero or more" else Ok tt.

(** ** Registration as a flow *)

(** [json!] of a float: one that is not finite is null. *)
Definition float_value (f : f64) : Value := if f64_is_finite f then VNumber (NFloat f) else VNull.
Definition flow_options_of (row : AgentRow) (d : AgentDefinition) : Value :=
  VObject [("agent", VBool true); ("agent_id", num (ag_id row));
           ("crash_retries", if 0 <? ad_crash_retries d then num (ad_crash_retries d) else VNull);
           ("on_overlap", VString "enqueue"); ("priority", num 0); ("runs_on", VString "server");
           ("schedules", VArray []);
           ("timeout_seconds", opt_value float_value (lm_timeout_seconds (ad_limits d)))].

Definition publish_registered (fid : Z) (data : Map) (a : App) : App :=
  emit (Publish "flow.registered" (dec fid) (VObject data)) a.

(** [source_dir] is the served directory, or the home of a server without one. *)
Definition register_flow (source_dir : string) (row : AgentRow) (d : AgentDefinition) (a : App) : App * result Z ApiError :=
  let w := mkUpsertFlow (ag_project row) (ag_name row) RUNNER_MODULE source_dir
             (if str_is_empty (ad_description d) then None else Some (ad_description d))
             (value_to_string (VArray [VString "agent"])) (value_to_string (parameter_schema d))
             (value_to_string (flow_options_of row d)) (ad_group d) in
  match write (upsert_flow (clock a) w) a with
  | (a, Err e) => (a, Err (ApiError_from e))
  | (a, Ok fid) =>
      match write (set_agent_flow (ag_id row) (Some fid)) a with
      | (a, Err e) => (a, Err (ApiError_from e))
      | (a, Ok _) =>
          let a := set_live_flows ({[fid]} ∪ live_flows (flags a)) a in
          let a := set_dep_slot None a in
          (publish_registered fid [("agent", num (ag_id row)); ("id", num fid)] a, Ok fid)
      end
  end.
Definition register_all (source_dir : string) (a : App) : App :=
  fold_left (λ a row,
    match definition_from_value (ag_definition row) with
    | Ok d => (register_flow source_dir row d a).1
    | Err _ => a
    end) (list_agents (store a)) a.

(** ** What an agent cost *)

Definition DAY : Z := 86400000000.
Definition day_start (now : Z) : Z := now - now mod DAY.
(** The usage rows of runs: [scope = '' AND key = 'usage'] *)
Definition usage_rows (keep : RunRow → bool) (s : Store) : list Value :=
  omap (λ kv, let '(rid, scope, key) := kv.1 in
              match Tables.run s !! rid with
              | Some r => if str_is_empty scope && (key =?s "usage") && keep r
                          then value_from_str kv.2.1 else None
              | None => None
              end) (map_to_list (task_state (defs s))).
Definition usage_field (name : string) (v : Value) : Value := default VNull (value_get name v).
Definition is_agent_flow (fid : Z) (s : Store) : bool :=
  match flow s !! fid with
  | Some f => match and_then (value_from_str (fl_options f)) (value_get "agent") with
              | Some (VBool b) => b
              | Some (VNumber (NInt n)) => n =? 1
              | _ => false
              end
  | None => false
  end.
Definition agent_cost_since (since : Z) (s : Store) : f64 :=
  sum_real (omap (λ v, cast_real (usage_field "cost_usd" v))
    (usage_rows (λ r, (since <=? r_created_at r) && is_agent_flow (r_flow_id r) s) s)).
Definition agent_usage_since (fid since : Z) (s : Store) : Usage24h :=
  let rows := usage_rows (λ r, (r_flow_id r =? fid) && (since <=? r_created_at r)) s in
  let tokens v := match cast_integer (usage_field "input_tokens" v), cast_integer (usage_field "output_tokens" v) with
                  | Some i, Some o => Some (i + o)
                  | _, _ => None
                  end in
  mkUsage24h (Z.of_nat (length rows)) (foldr Z.add 0 (omap tokens rows))
    (sum_real (omap (λ v, cast_real (usage_field "cost_usd" v)) rows)).

(** ** Requests *)

Definition respond (cfg : AgentsConfig) (row : AgentRow) (a : App) : result AgentResponse ApiError :=
  match definition_from_value (ag_definition row) with
  | Err e => Err (InternalText ("stored definition: " +:+ e))
  | Ok d =>
      Ok (mkAgentResponse row (allow_error cfg d) (parameter_schema d)
            (agent_cost_since (day_start (clock a)) (store a)) (cost_per_day cfg)
            match ag_flow_id row with
            | Some fid => agent_usage_since fid (clock a - DAY) (store a)
            | None => mkUsage24h 0 0 f64_zero
            end)
  end.
Definition agent_missing : ApiError := ApiNotFound "agent not found".
Definition found_agent (id : Z) (a : App) : result AgentRow ApiError :=
  match get_agent id (store a) with Some row => Ok row | None => Err agent_missing end.

Definition list_agents_request (cfg : AgentsConfig) (a : App) : result (list AgentResponse) ApiError :=
  foldr (λ row acc, let? r := respond cfg row a in let? acc := acc in Ok (r :: acc)) (Ok []) (list_agents (store a)).
Definition get_agent_request (cfg : AgentsConfig) (id : Z) (a : App) : result AgentResponse ApiError :=
  let? row := found_agent id a in respond cfg row a.

(** The checks a definition passes before anything changes. *)
Definition admitted (cfg : AgentsConfig) (d : AgentDefinition) (a : App) : result unit ApiError :=
  match validate_agent (store a) d with
  | Err m => Err (Unprocessable m)
  | Ok _ => match allow_error cfg d with Some reason => Err (Unprocessable reason) | None => Ok tt end
  end.
(** The write, the registration and the answer that end both requests. *)
Definition save_agent (cfg : AgentsConfig) (source_dir : string) (id : option Z) (source : string) (d : AgentDefinition)
    (a : App) : App * result AgentResponse ApiError :=
  let w := mkAgentWrite id (ad_project d) (ad_name d) source (ad_enabled d) (definition_to_string d) in
  match write (upsert_agent (clock a) w) a with
  | (a, Err e) => (a, Err (ApiError_from e))
  | (a, Ok row) =>
      match register_flow source_dir row d a with
      | (a, Err e) => (a, Err e)
      | (a, Ok _) =>
          (a, match get_agent (default (ag_id row) id) (store a) with
              | None => Err (InternalText "agent vanished")
              | Some row => respond cfg row a
              end)
      end
  end.
Definition create_agent (cfg : AgentsConfig) (source_dir : string) (d : AgentDefinition) (a : App)
    : App * result AgentResponse ApiError :=
  match admitted cfg d a with
  | Err e => (a, Err e)
  | Ok _ => save_agent cfg source_dir None "ui" d a
  end.
Definition patch_agent (cfg : AgentsConfig) (source_dir : string) (id : Z) (d : AgentDefinition) (a : App)
    : App * result AgentResponse ApiError :=
  match found_agent id a with
  | Err e => (a, Err e)
  | Ok current =>
      match admitted cfg d a with
      | Err e => (a, Err e)
      | Ok _ =>
          let moved := negb (ag_project current =?s ad_project d) || negb (ag_name current =?s ad_name d) in
          let a := match ag_flow_id current with
                   | Some old => if moved then set_live_flows (live_flows (flags a) ∖ {[old]}) a else a
                   | None => a
                   end in
          save_agent cfg source_dir (Some id) (ag_source current) d a
      end
  end.
Definition delete_agent_request (id : Z) (a : App) : App * result unit ApiError :=
  match found_agent id a with
  | Err e => (a, Err e)
  | Ok row =>
      let a :=
        match ag_flow_id row with
        | Some fid =>
            let a := fold_left (λ a r, if ar_flow_id r =? fid then on_supervisor (λ s, (dequeue (ar_id r) s).1) a else a)
                       (ActiveIndex.active_runs (index a)) a in
            let a := set_live_flows (live_flows (flags a) ∖ {[fid]}) a in
            let a := set_dep_slot None a in
            publish_registered fid [("agent", num id); ("id", num fid); ("unregistered", VBool true)] a
        | None => a
        end in
      ((write_ (StoreRegistry.delete_agent id) a).1, Ok tt)
  end.

(** ** Approvals *)

(** Canonical JSON: the keys of an object in order. *)
Fixpoint canonical (v : Value) : string :=
  match v with
  | VObject m =>
      let items := (fix go (m : Map) : list (string * string) :=
                      match m with [] => [] | (k, x) :: m' => (k, canonical x) :: go m' end) m in
      "{" +:+ String.concat "," ((λ kt, value_to_string (VString kt.1) +:+ ":" +:+ kt.2)
                                   <$> stable_sort (λ a b, str_le a.1 b.1) items) +:+ "}"
  | VArray l =>
      "[" +:+ String.concat "," ((fix go (l : list Value) : list string :=
                                    match l with [] => [] | x :: l' => canonical x :: go l' end) l) +:+ "]"
  | other => value_to_string other
  end.
Definition approval_hash (tool : string) (args : Value) : string :=
  sha256_hex (tool +:+ String "000" (canonical args)).

Definition list_approvals_request (id : Z) (a : App) : result (list ApprovalRow) ApiError :=
  let? _ := found_agent id a in Ok (list_approvals id (store a)).
Definition add_approval_request (id : Z) (b : ApprovalBody) (a : App) : App * result ApprovalRow ApiError :=
  match found_agent id a with
  | Err e => (a, Err e)
  | Ok _ =>
      match write (add_approval (clock a) id (ab_tool b) (approval_hash (ab_tool b) (ab_args b))
                     (value_to_string (ab_args b)) (ab_run_id b)) a with
      | (a, Err e) => (a, Err (ApiError_from e))
      | (a, Ok row) => (a, Ok row)
      end
  end.
Definition delete_approval_request (id aid : Z) (a : App) : App * result unit ApiError :=
  let '(a, known) := write_ (delete_approval id aid) a in
  (a, if known then Ok tt else Err (ApiNotFound "approval not found")).
End agents.

(** ** The variables of a template *)

Lemma span_app p cs : (span p cs).1 ++ (span p cs).2 = cs.
Proof. induction cs as [|c cs IH]; simpl; [done|]. destruct (p c); [|done]. destruct (span p cs). simpl in *. by f_equal. Qed.
Lemma span_all p cs : Forall (λ c, p c = true) (span p cs).1.
Proof.
  induction cs as [|c cs IH]; simpl; [done|]. destruct (p c) eqn:E; [|done]. destruct (span p cs). simpl in *. by constructor.
Qed.
(** A hole is an identifier between braces, and what follows it is shorter. *)
Lemma hole_spec rest name after :
  hole rest = Some (name, after) →
  rest = name ++ ("}" : ascii) :: after ∧ Forall (λ c, ident_char c = true) name ∧
  ∃ c l, name = c :: l ∧ ident_start c = true.
Proof.
  rw /hole. pose proof (span_app ident_char rest) as Ha. pose proof (span_all ident_char rest) as Hs.
  destruct (span ident_char rest) as [[|c l] [|b after']]; try done. simpl in *.
  destruct (Ascii.eqb b "}") eqn:Eb; [|done]. destruct (ident_start c) eqn:Ec; [|done]. simpl.
  destruct (match after' with d :: _ => _ | [] => _ end); [done|]. simpl. intros [= <- <-].
  apply Ascii.eqb_eq in Eb. subst b. split; [done|]. split; [done|]. by exists c, l.
Qed.

(** The fuel of [scan], the length of the text, is enough. *)
Lemma scan_fuel n cs out : (length cs ≤ n)%nat → scan n cs out = scan (length cs) cs out.
Proof.
  revert cs out. induction (lt_wf n) as [n _ IH]. intros [|c rest] out Hn; [by destruct n|].
  assert (∀ m cs' out', (length cs' < length (c :: rest))%nat → (length rest ≤ m)%nat → (m < n ∨ m = length rest)%nat →
    scan m cs' out' = scan (length cs') cs' out') as Hgo.
  { intros m cs' out' Hl Hm [Hlt| ->]; [apply IH; simpl in *; lia|]. destruct (decide (length rest < n)%nat).
    - apply IH; simpl in *; lia.
    - simpl in *. lia. }
  destruct n as [|n]; simpl in Hn; [lia|]. cbn [length scan].
  assert (∀ cs' out', (length cs' ≤ length rest)%nat → scan n cs' out' = scan (length rest) cs' out') as Heq.
  { intros cs' out' Hl. rw Hgo; [|simpl; lia..]. symmetry. apply Hgo; [simpl; lia|lia|by right]. }
  destruct (Ascii.eqb c "{"); [|by apply Heq]. destruct rest as [|d rest']; [by apply Heq|].
  destruct (Ascii.eqb d "{"); [apply Heq; simpl; lia|].
  destruct (hole (d :: rest')) as [[name after]|] eqn:Eh; [|by apply Heq].
  apply Heq. apply hole_spec in Eh as (E & _). rw E length_app. simpl. lia.
Qed.

Definition identifier (name : string) : Prop :=
  ∃ c l, chars name = c :: l ∧ ident_start c = true ∧ Forall (λ c, ident_char c = true) (c :: l).

Lemma chars_of_list l : chars (String.string_of_list_ascii l) = l.
Proof. induction l as [|c l IH]; simpl; [done | by rw IH]. Qed.
Lemma scan_good n cs out :
  NoDup out ∧ Forall identifier out → NoDup (scan n cs out) ∧ Forall identifier (scan n cs out).
Proof.
  revert cs out. induction n as [|n IH]; intros [|c rest] out Ho; [done..|]. cbn [scan].
  destruct (Ascii.eqb c "{"); [|by apply IH]. destruct rest as [|d rest']; [by apply IH|].
  destruct (Ascii.eqb d "{"); [by apply IH|].
  destruct (hole (d :: rest')) as [[name after]|] eqn:Eh; [|by apply IH]. apply IH. cbv zeta.
  case_bool_decide as Hin; [done|]. destruct Ho as [Hd Hi]. apply hole_spec in Eh as (_ & Hall & c' & l & -> & Hs).
  split; [apply NoDup_app; split; [done|]; split; [set_solver|apply NoDup_singleton]|].
  apply Forall_app. split; [done|]. apply Forall_singleton. exists c', l. by rw chars_of_list.
Qed.
Lemma template_variables_good texts : NoDup (template_variables texts) ∧ Forall identifier (template_variables texts).
Proof.
  rw /template_variables. assert (NoDup (@nil string) ∧ Forall identifier []) as H0 by (split; constructor).
  revert H0. generalize (@nil string) as out. induction texts as [|t texts IH]; intros out Ho; [done|].
  cbn [fold_left]. by apply IH, scan_good.
Qed.

(** ** The allowlist *)

(** A pattern against a text, without an algorithm: a star stands for any text
    without a slash, any other character for itself. *)
Inductive glob : list ascii → list ascii → Prop :=
| glob_nil : glob [] []
| glob_char c p u : c ≠ "*"%char → glob p u → glob (c :: p) (c :: u)
| glob_star s p u : (("/" : ascii) ∉ s) → glob p u → glob (("*" : ascii) :: p) (s ++ u).

Lemma star_tails_spec u t : t ∈ star_tails u ↔ ∃ s, u = s ++ t ∧ (("/" : ascii) ∉ s).
Proof.
  induction u as [|c u IH]; simpl.
  - rw list_elem_of_singleton. split.
    + intros ->. exists []. split; [done|]. apply not_elem_of_nil.
    + intros (s & E & _). by destruct s, t.
  - rw elem_of_cons. split.
    + intros [->|Ht]; [exists []; split; [done|apply not_elem_of_nil]|].
      destruct (Ascii.eqb_spec c "/") as [?|Hc]; [by apply not_elem_of_nil in Ht|].
      apply IH in Ht as (s & -> & Hs). exists (c :: s). split; [done|]. rw not_elem_of_cons. split; congruence.
    + intros ([|c' s] & E & Hs); [by left|]. right. injection E as <- ->. apply not_elem_of_cons in Hs as [Hc Hs].
      destruct (Ascii.eqb_spec c "/") as [->|?]; [done|]. apply IH. by exists s.
Qed.
Lemma url_go_glob p u : url_go p u = true ↔ glob p u.
Proof.
  revert u. induction p as [|a p IH]; intros u; cbn [url_go].
  { destruct u; split; intros Hg; [constructor|done|done|inversion Hg]. }
  destruct (Ascii.eqb_spec a "*") as [->|Ha].
  - rw existsb_exists. split.
    + intros (t & Ht & Hg). apply list_elem_of_In, star_tails_spec in Ht as (s & -> & Hs). constructor; [done | by apply IH].
    + intros Hg. inversion Hg; subst; [done|]. eexists. split; [|by apply IH].
      apply list_elem_of_In, star_tails_spec. by eexists.
  - destruct u as [|b u]; [split; [done|intros Hg; inversion Hg; done]|]. rw andb_true_iff IH Ascii.eqb_eq. split.
    + intros [-> Hg]. by constructor.
    + intros Hg. inversion Hg; subst; done.
Qed.

(** What the allowlist means a tool may start or reach. *)
Definition may_start (cfg : AgentsConfig) (command : string) : Prop :=
  ∃ c, c ∈ mcp_commands cfg ∧ (c = command ∨ (contains_char "/" c = false ∧ c = base_name command)).
Definition may_reach (cfg : AgentsConfig) (url : string) : Prop :=
  ∃ p, p ∈ mcp_urls cfg ∧ p ≠ "self" ∧ glob (chars p) (chars url).
Definition within (cfg : AgentsConfig) (t : ToolSpec) : Prop :=
  (tl_kind t = "self" → "self" ∈ mcp_urls cfg) ∧
  (tl_kind t = "mcp" → ∀ command, option_str t "command" = Some command → may_start cfg command) ∧
  (tl_kind t = "mcp" → option_str t "command" = None → ∀ url, option_str t "url" = Some url → may_reach cfg url).

Lemma existsb_elem {A} (f : A → bool) l : existsb f l = true ↔ ∃ x, x ∈ l ∧ f x = true.
Proof. rw existsb_exists. split; intros (x & Hx & ?); exists x; split; try done; by apply list_elem_of_In. Qed.
Lemma command_allowed_spec cfg command : command_allowed cfg command = true ↔ may_start cfg command.
Proof.
  rw /command_allowed existsb_elem. apply exist_proper. intros c.
  rw orb_true_iff andb_true_iff negb_true_iff !String.eqb_eq. done.
Qed.
Lemma url_allowed_spec cfg url : url_allowed cfg url = true ↔ may_reach cfg url.
Proof.
  rw /url_allowed existsb_elem. apply exist_proper. intros p.
  rw andb_true_iff negb_true_iff /url_matches url_go_glob String.eqb_neq. done.
Qed.
Lemma tool_error_spec cfg t : tool_error cfg t = None ↔ within cfg t.
Proof.
  rw /tool_error /within. destruct (String.eqb_spec (tl_kind t) "self") as [->|Hs].
  { split; [|intros [Hk _]].
    - destruct (existsb _ _) eqn:E; [|done]. intros _. apply existsb_elem in E as (x & Hx & ->%String.eqb_eq).
      split; [done|]. by split; intros [=].
    - destruct (existsb _ _) eqn:E; [done|]. apply not_true_iff_false in E. destruct E. apply existsb_elem.
      exists "self". split; [by apply Hk | by vm_compute]. }
  destruct (String.eqb_spec (tl_kind t) "mcp") as [->|Hm]; [|by split; [intros _; split; [|split]|]].
  destruct (option_str t "command") as [command|] eqn:Ec.
  - destruct (command_allowed cfg command) eqn:E.
    + apply command_allowed_spec in E. split; [|done]. intros _. split; [done|]. split; [|done]. by intros _ ? [= <-].
    + split; [done|]. intros (_ & Hc & _). specialize (Hc eq_refl _ eq_refl).
      apply command_allowed_spec in Hc. congruence.
  - destruct (option_str t "url") as [url|] eqn:Eu; [|by split; [intros _; split; [|split]|]].
    destruct (url_allowed cfg url) eqn:E.
    + apply url_allowed_spec in E. split; [|done]. intros _. split; [done|]. split; [done|]. by intros _ _ ? [= <-].
    + split; [done|]. intros (_ & _ & Hu). specialize (Hu eq_refl eq_refl _ eq_refl).
      apply url_allowed_spec in Hu. congruence.
Qed.

Lemma allow_error_within (cfg : AgentsConfig) (l : list ToolSpec) : first_error cfg l = None ↔ Forall (within cfg) l.
Proof.
  induction l as [|t l IH]; simpl; [done|].
  rw Forall_cons -IH -tool_error_spec. destruct (tool_error cfg t); naive_solver.
Qed.

(** A tool with a command and a URL is judged by its command alone. *)
Lemma url_beside_command (cfg : AgentsConfig) (command url : string) (d : AgentDefinition) :
  command_allowed cfg command = true →
  ad_tools d = [mkToolSpec "mcp" "crm" [("command", VString command); ("url", VString url)]] →
  allow_error cfg d = None.
Proof. intros Hc Ht. rw /allow_error Ht /= /tool_error /=. by rw Hc. Qed.
(** A star goes past the end of the host: the host here is [evil.example]. *)
Lemma star_leaves_the_host :
  url_matches "https://*.internal.example.com/mcp" "https://evil.example?.internal.example.com/mcp" = true.
Proof. by vm_compute. Qed.

Section laws.
Context `{StoreEnv, PoolEnv, ServerEnv, ReaderEnv, RowEnv, AgentEnv}.

(** Registering a flow leaves the index as it was, so a flow that is new stays
    without a project there. *)
Lemma register_flow_index dir row d a : index (register_flow dir row d a).1 = index a.
Proof using Type.
  rw /register_flow. set (f := upsert_flow _ _).
  assert (index (write f a).1 = index a) as E by done. destruct (write f a) as [a1 [fid|e]]; [|done]. cbn [fst] in E.
  set (g := set_agent_flow _ _). assert (index (write g a1).1 = index a1) as E1 by done.
  destruct (write g a1) as [a2 [u|e]]; cbn [fst] in E1; cbn [fst]; [|congruence].
  transitivity (index a2); [done|congruence].
Qed.

(** ** A saved agent *)

Lemma flow_id_of_found project name s fid :
  flow_id_of project name s = Some fid → ∃ f, flow s !! fid = Some f ∧ is_flow project name f = true.
Proof using Type.
  rw /flow_id_of. destruct (List.filter _ _) as [|[k f] l] eqn:E; [done|]. cbn. intros [= <-].
  assert (In (k, f) (List.filter (λ kv, is_flow project name kv.2) (map_to_list (flow s)))) as Hin by (rw E; by left).
  apply List.filter_In in Hin as [Hin Hf]. exists f. split; [|done]. by apply elem_of_map_to_list, list_elem_of_In.
Qed.
Lemma upsert_flow_spec now w s s' fid :
  upsert_flow now w s = (s', Ok fid) →
  agents_of s' = agents_of s ∧
  ∃ f, flow s' !! fid = Some f ∧ fl_project f = uf_project w ∧ fl_name f = uf_name w ∧ fl_module f = uf_module w.
Proof using Type.
  rw /upsert_flow. cbn [new_id]. destruct (flow_id_of _ _ _) as [id|] eqn:Ef.
  - apply flow_id_of_found in Ef as (f & Hf & _). intros [= <- <-]. split; [done|].
    eexists. split; [|split; [|split]]; [cbn [set_flow flow]; rw lookup_alter_eq; cbn [set_drawn flow] in Hf; by rw Hf|done..].
  - destruct (existsb _ _); [done|]. intros [= <- <-]. split; [done|]. eexists.
    split; [|split; [|split]]; [apply lookup_insert_eq|done..].
Qed.
Lemma write_ok {A} (f : Store → Store * result A StoreError) a a' x :
  write f a = (a', Ok x) → f (store a) = (store a', Ok x) ∧ flags a' = flags a ∧ clock a' = clock a.
Proof using Type.
  rw /write /settle. destruct (f (store a)) as [s [y|e]]; [|done]. by intros [= <- <-].
Qed.

(** The flow an agent runs as, in a server. *)
Definition runs_as (project name : string) (fid : Z) (a : App) : Prop :=
  fid ∈ live_flows (flags a) ∧
  ∃ f, flow (store a) !! fid = Some f ∧ fl_project f = project ∧ fl_name f = name ∧ fl_module f = RUNNER_MODULE.

Lemma register_flow_spec dir row d a a' fid :
  register_flow dir row d a = (a', Ok fid) →
  runs_as (ag_project row) (ag_name row) fid a' ∧
  agents_of (store a') = alter (agent_with_flow (Some fid)) (ag_id row) (agents_of (store a)).
Proof using Type.
  rw /register_flow. destruct (write _ a) as [a1 [id|e]] eqn:E1; [|done]. apply write_ok in E1 as (E1 & F1 & _).
  apply upsert_flow_spec in E1 as (A1 & f & Hf & Hp & Hn & Hm).
  destruct (write _ a1) as [a2 [u|e]] eqn:E2; [|done]. apply write_ok in E2 as (E2 & F2 & _).
  intros [= <- <-]. revert E2. rw /set_agent_flow. destruct (_ && _); [done|]. intros [= E2 _].
  assert (flow (store a2) = flow (store a1) ∧
          agents_of (store a2) = alter (agent_with_flow (Some id)) (ag_id row) (agents_of (store a1))) as [Hfl Hag].
  { by rw -E2. }
  split; [split|].
  - apply elem_of_union_l, elem_of_singleton. done.
  - exists f. change (flow (store a2) !! id = Some f ∧ fl_project f = ag_project row ∧ fl_name f = ag_name row ∧
      fl_module f = RUNNER_MODULE). by rw Hfl.
  - change (agents_of (store a2) = alter (agent_with_flow (Some id)) (ag_id row) (agents_of (store a))). by rw Hag A1.
Qed.

Lemma upsert_agent_spec now w s s' row :
  upsert_agent now w s = (s', Ok row) →
  ag_id row = default (ag_id row) (aw_id w) ∧ ag_project row = aw_project w ∧ ag_name row = aw_name w ∧
  ∃ t, agents_of s' !! ag_id row = Some t ∧ row = agent_from_row (ag_id row) t ∧ a_definition t = aw_definition w.
Proof using Type.
  rw /upsert_agent. destruct (aw_id w) as [id|].
  - destruct (_ && _); [done|]. rw /agent_answer /get_agent. set (s1 := set_agent _ _ s).
    assert (agents_of s1 = alter (rewritten_agent now w) id (agents_of s)) as Hs by done.
    destruct (agents_of s1 !! id) as [t|] eqn:Et; [|done]. cbn [fmap option_fmap option_map]. intros [= <- <-].
    pose proof Et as Et'. rw Hs lookup_alter_eq in Et'. destruct (agents_of s !! id) as [t0|]; [|done].
    injection Et' as <-. split; [done|]. split; [done|]. split; [done|]. by eexists.
  - destruct (agent_taken _ _ _); [done|]. cbn [new_id]. rw /agent_answer /get_agent. set (id := agent_seq _ + 1).
    set (t := mkAgentTblRow _ _ _ _ _ _ _ _ _). set (s1 := set_last_rowid _ _).
    assert (agents_of s1 !! id = Some t) as Hs.
    { change (<[id := t]> (agents_of s) !! id = Some t). by rw lookup_insert_eq. }
    rw Hs. cbn [fmap option_fmap option_map]. intros [= <- <-]. split; [done|]. split; [done|]. split; [done|].
    exists t. by split.
Qed.

Lemma respond_row cfg row a r : respond cfg row a = Ok r → ar_row r = row.
Proof using Type. rw /respond. destruct (definition_from_value _); [|done]. by intros [= <-]. Qed.
Lemma save_agent_spec cfg dir id source d a a' r :
  save_agent cfg dir id source d a = (a', Ok r) →
  get_agent (ag_id (ar_row r)) (store a') = Some (ar_row r) ∧
  ag_project (ar_row r) = ad_project d ∧ ag_name (ar_row r) = ad_name d ∧
  ag_definition (ar_row r) = default VNull (value_from_str (definition_to_string d)) ∧
  ∃ fid, ag_flow_id (ar_row r) = Some fid ∧ runs_as (ad_project d) (ad_name d) fid a'.
Proof using Type.
  rw /save_agent. destruct (write _ a) as [a1 [row|e]] eqn:E1; [|done]. apply write_ok in E1 as (E1 & _).
  apply upsert_agent_spec in E1 as (Hid & Hp & Hn & t & Ht & Hrow & Hd). cbn [aw_id aw_project aw_name aw_definition] in *.
  destruct (register_flow dir row d a1) as [a2 [fid|e]] eqn:E2; [|done]. apply register_flow_spec in E2 as [Hr Hag].
  rw -Hid /get_agent Hag lookup_alter_eq Ht. cbn [fmap option_fmap option_map]. intros [= <- Hresp].
  apply respond_row in Hresp. rw Hresp. split; [|split; [|split; [|split]]].
  - rw Hag. cbn [agent_from_row ag_id]. by rw lookup_alter_eq Ht.
  - rw -Hp. by rw {2}Hrow.
  - rw -Hn. by rw {2}Hrow.
  - cbn [agent_from_row ag_definition agent_with_flow a_definition]. by rw Hd.
  - exists fid. split; [done|]. by rw -Hp -Hn.
Qed.
Lemma admitted_within cfg d a :
  admitted cfg d a = Ok tt → validate_agent (store a) d = Ok tt ∧ Forall (within cfg) (ad_tools d).
Proof using Type.
  rw /admitted. destruct (validate_agent _ _) as [[]|m]; [|done]. destruct (allow_error cfg d) eqn:E; [done|].
  intros _. split; [done|]. by apply allow_error_within.
Qed.

(** C28: An agent the server accepted, new or edited, is bounded and runnable: its
    definition passed the checks and every tool of it is within the allowlist,
    it is stored as given under its project and name, and the flow it runs as is
    on the runner's module, under the same project and name, and live. *)
Theorem accepted_agent_runs cfg dir d a a' r :
  create_agent cfg dir d a = (a', Ok r) ∨ (∃ id, patch_agent cfg dir id d a = (a', Ok r)) →
  validate_agent (store a) d = Ok tt ∧ Forall (within cfg) (ad_tools d) ∧
  get_agent (ag_id (ar_row r)) (store a') = Some (ar_row r) ∧
  ag_project (ar_row r) = ad_project d ∧ ag_name (ar_row r) = ad_name d ∧
  ag_definition (ar_row r) = default VNull (value_from_str (definition_to_string d)) ∧
  ∃ fid, ag_flow_id (ar_row r) = Some fid ∧ runs_as (ad_project d) (ad_name d) fid a'.
Proof using Type.
  intros [Hc|[id Hp]].
  - revert Hc. rw /create_agent. destruct (admitted cfg d a) as [[]|e] eqn:Ea; [|done].
    apply admitted_within in Ea as [? ?]. intros Hs. by apply save_agent_spec in Hs.
  - revert Hp. rw /patch_agent. destruct (found_agent id a) as [current|e]; [|done].
    destruct (admitted cfg d a) as [[]|e] eqn:Ea; [|done]. apply admitted_within in Ea as [? ?].
    intros Hs. by apply save_agent_spec in Hs.
Qed.

(** An edit that gives an agent a name another agent has is refused, and the
    agent's own flow is not live any more. *)
Lemma refused_rename_unlists cfg dir id d a current old :
  get_agent id (store a) = Some current → ag_flow_id current = Some old → old ∈ live_flows (flags a) →
  admitted cfg d a = Ok tt → ag_name current ≠ ad_name d →
  agent_taken (ad_project d) (ad_name d) (delete id (agents_of (store a))) = true →
  let '(a', r) := patch_agent cfg dir id d a in
  r = Err (ApiError_from (unique_violation "agent.project, agent.name")) ∧ store a' = store a ∧
  (old ∉ live_flows (flags a')).
Proof using Type.
  intros Hg Hf Hl Ha Hn Ht. rw /patch_agent /found_agent Hg Ha Hf. apply String.eqb_neq in Hn. rw Hn. cbn [negb]. rw orb_true_r.
  rw /get_agent in Hg. destruct (agents_of (store a) !! id) as [t|] eqn:Et; [|done].
  rw /save_agent /write /upsert_agent. cbn [aw_id aw_project aw_name store set_live_flows set_flags]. rw Et Ht.
  cbn [is_some andb settle fst snd]. split; [done|]. split; [done|].
  cbn [set_store flags set_live_flows set_flags live_flows]. set_solver.
Qed.
End laws.
