(* ===== verification/Server.v ===== *)
(** * The server (server/src/state.rs, server/src/scheduler.rs, server/src/lib.rs)

    The handlers of the other files call one another through [Ops]; [ops n]
    closes the knot with [n] rounds of nested calls, and a call past them sets
    [halted] to [OutOfFuel].  On top of it: the timer handler, the tasks the
    handlers start, the start of the scheduler and the reconciliation of runs
    in flight with what a previous server left. *)

From S2P Require Import Prelude Float64 Json States Transitions Timer Schedules Model DepGraph Events Unique.
From S2P Require Import RuleMatching RuleTemplates ActiveIndex Resources WorkQueue Pool GroupCommit Tables.
From S2P Require Import Store Reader StoreAdmin Integrity RuleReader Replay Pages Validate App Scheduler Waits Dispatch.
From S2P Require Import RulesEngine.

(** The host: whether a process answers. *)
Class HostEnv : Type := { is_alive : Z → bool }.

Section server.
Context `{StoreEnv, PoolEnv, ServerEnv, ScheduleEnv, ReaderEnv, RowEnv, JinjaEnv, ActionEnv}.

(** ** The knot *)

Definition stuck_ops : Ops :=
  mkOps (λ _ a, halt OutOfFuel a) (λ _ _ _ a, (halt OutOfFuel a, Err WriterGone))
    (λ _ _ _ a, halt OutOfFuel a).
Fixpoint ops (n : nat) : Ops :=
  match n with
  | O => stuck_ops
  | S n' => mkOps (RulesEngine.on_event (ops n')) (transition_run (ops n') (after_transition (ops n')))
              (enqueue_run (ops n'))
  end.

(** ** Timer events *)

Section handlers.
Context (o : Ops).

Definition on_due (rid : Z) (a : App) : App :=
  match get_run rid (store a) with
  | None => a
  | Some run =>
      if negb (st_eqb (state_type (Model.run_state run)) Scheduled) || is_some (run_engine_pid run) then a
      else if is_marked run then end_skipped o run a
      else if is_paused a then a
      else match get_flow (run_flow_id run) (store a) with
           | Some flow => op_enqueue_run o run flow None a
           | None => a
           end
  end.

Definition late_state (now : Z) (run : Run) : State :=
  with_opt_message (state_message (Model.run_state run)) (State_named now Late).
Definition on_late_check (rid : Z) (a : App) : App :=
  match get_run rid (store a) with
  | None => a
  | Some run =>
      let continuous := match and_then (run_schedule_id run) (λ sid, schedules a !! sid) with
                        | Some row => is_continuous (sr_schedule row)
                        | None => false
                        end in
      if st_eqb (state_type (Model.run_state run)) Scheduled && is_none (run_engine_pid run)
         && negb (state_name (Model.run_state run) =?s "Late") && negb (is_marked run) && negb continuous
      then
        let '(a, r) := op_transition_run o rid (late_state (clock a) run) false a in
        if accepted r then
          record_engine_event o RunLate (Some rid) (Some (run_flow_id run))
            [("name", VString (run_name run)); ("scheduled_time", opt_value num (run_scheduled_time run))] a
        else a
      else a
  end.

Definition on_start_deadline (rid : Z) (a : App) : App :=
  match get_run rid (store a) with
  | None => a
  | Some run =>
      let t := state_type (Model.run_state run) in
      if (st_eqb t Scheduled || st_eqb t Pending) && is_none (run_engine_pid run) && negb (is_marked run) then
        let a := on_supervisor (λ s, (dequeue rid s).1) a in
        let skipped := with_detail (with_message (State_named (clock a) Skipped) "missed start deadline")
                         "reason" (VString "missed_start_deadline") in
        let '(a, r) := op_transition_run o rid skipped false a in
        if accepted r then
          record_engine_event o RunSkipped (Some rid) (Some (run_flow_id run))
            [("reason", VString "missed_start_deadline");
             ("scheduled_time", opt_value num (run_scheduled_time run))] a
        else a
      else a
  end.

Definition on_resume_flow (fid : Z) (a : App) : App :=
  let a := fold_left (λ a row,
             if negb (sr_active row) && bool_decide (sr_paused_reason row = Some "disabled")
             then resume_schedule o (sr_id row) a else a) (for_flow fid (schedules a)) a in
  record_engine_event o FlowEnabled None (Some fid) [] a.

Definition persist_wakeup (a : App) : App :=
  let now := clock a in
  push_timer (now + PERSIST_EVERY_SECS * 1000000) Persist (write_only (kv_set now LAST_WAKEUP_KEY (dec now)) a).

Definition handle (a : App) (event : TimerEvent) : App :=
  match event with
  | Timer.Fire sid => materialize o sid a
  | Due rid => on_due rid a
  | LateCheck rid => on_late_check rid a
  | StartDeadline rid => on_start_deadline rid a
  | CrashRerun rid => crash_rerun o rid a
  | FlowTimeout rid => flow_timeout o rid a
  | ResumeFlow fid => on_resume_flow fid a
  | Persist => persist_wakeup a
  | Wake => App.ensure_capacity a
  | Timer.Expectation id => expectation_due id a
  | Timer.RuleClock rule_id => clock_tick rule_id a
  | WakeRun rid => Waits.on_timer o rid a
  | SchedulerResume since =>
      if match pause a with Some p => p_since p =? since | None => false end then (resume_all o a).1 else a
  end.

(** One pass of the loop. *)
Definition tick (a : App) : App :=
  let '(t, due) := pop_due (clock a) (timer a) in
  fold_left (λ a te, handle a te.2) due (set_timer t a).

(** A thread a handler started, run to its end. *)
Definition run_task (t : Task) (a : App) : App :=
  match t with
  | DeliverQueued observed => deliver_queued_body o observed a
  | DeliverRecorded observed pattern since => deliver_recorded_body o observed pattern since a
  | FireRules to_fire to_limit event ctx => fire_rules o to_fire to_limit event ctx a
  | FireLapsed rule event ctx => fire_lapsed o rule event ctx a
  | KillAfterGrace pid => on_supervisor (forget_pid pid) a
  end.

(** ** Start *)

Abbreviation start_acc := (App * list (ScheduleRow * Z) * gmap Z Z)%type.
Definition start_row (last_wakeup : option Z) (now : Z) (acc : start_acc) (row : ScheduleRow) : start_acc :=
  let '(a, ended, open) := acc in
  let a := put_schedule row a in
  if negb (sr_active row) then
    match sr_paused_until row with
    | Some until =>
        if bool_decide (sr_paused_reason row = Some "disabled") then
          if until <=? now then (a, ended ++ [(row, until)], open)
          else (a, ended, <[sr_flow_id row := Z.max (default until (open !! sr_flow_id row)) until]> open)
        else (a, ended, open)
    | None => (a, ended, open)
    end
  else
    let a := match last_wakeup with Some l => catch_up o row l now a | None => a end in
    (materialize o (sr_id row) (drop_lost_skips o row a), ended, open).

Definition start_ended (last_wakeup : option Z) (now : Z) (acc : App * list Z) (ru : ScheduleRow * Z)
    : App * list Z :=
  let '(a, enabled) := acc in
  let '(row, until) := ru in
  let a := resume_schedule o (sr_id row) a in
  let a := match last_wakeup with Some l => catch_up o row (Z.max l until) now a | None => a end in
  (a, if bool_decide (sr_flow_id row ∈ enabled) then enabled else enabled ++ [sr_flow_id row]).

(** Timers of the runs that wait for their time. *)
Definition rearm_scheduled (a : App) (r : ActiveRun) : App :=
  if st_eqb (state_type (ar_state r)) Scheduled then
    match get_run (ar_id r) (store a) with
    | Some stored => match run_scheduled_time stored with
                     | Some due => arm_run (ar_id r) due (is_marked stored) a
                     | None => a
                     end
    | None => a
    end
  else a.

Definition start_inner (with_catch_up : bool) (a : App) : App :=
  let rows := list_schedules (clock a) None (store a) in
  let '(a, p) := restore_pause a in
  let now := clock a in
  let last_wakeup := opt_filter (λ _, with_catch_up && is_none p)
                       (and_then (kv_get LAST_WAKEUP_KEY (store a)) parse_i64) in
  let '(a, ended, open) := fold_left (start_row last_wakeup now) rows (a, [], ∅) in
  let '(a, enabled) := fold_left (start_ended last_wakeup now) ended (a, []) in
  let a := fold_left (λ a fid, record_engine_event o FlowEnabled None (Some fid) [] a) enabled a in
  let a := fold_left (λ a fu, push_timer fu.2 (ResumeFlow fu.1) a) (map_to_list open) a in
  let a := fold_left rearm_scheduled (ActiveIndex.active_runs (index a)) a in
  let a := rearm_all a in
  let a := push_timer (now + PERSIST_EVERY_SECS * 1000000) Persist a in
  write_only (kv_set now LAST_WAKEUP_KEY (dec now)) a.
Definition start (a : App) : App := start_inner true a.
Definition restart (a : App) : App := start_inner false (set_schedules ∅ a).

(** ** Reconciliation *)

Context `{HostEnv}.

Definition is_remote (engine_id : option string) : bool :=
  match of_engine <$> engine_id with Some (Worker _) => true | _ => false end.

Definition reconcile_run (flows : list Flow) (paused : bool) (a : App) (run : Run) : App :=
  match find (λ f, flow_id f =? run_flow_id run) flows with
  | None => a
  | Some flow =>
      let key := from_flow flow in
      let t := state_type (Model.run_state run) in
      let adopt_in_index := on_index (adopt_run (instant a) run key) in
      if (st_eqb t Scheduled || st_eqb t Pending) && is_none (run_engine_pid run) then
        let a := adopt_in_index a in
        if negb paused && match run_scheduled_time run with Some t => t <=? clock a | None => true end
        then on_supervisor (enqueue_simple (clock a) (run_id run) (flow_id flow)
                              (may_run_remotely (options_of flow)) key) a
        else a
      else if st_eqb t Paused then adopt_in_index a
      else if is_remote (run_engine_id run)
              || match run_engine_pid run with Some p => is_alive p | None => false end
      then on_supervisor (adopt (instant a) run key) (adopt_in_index a)
      else crash_run o (run_id run) "server restarted while run was in progress" (adopt_in_index a)
  end.

Definition reconcile (a : App) : App :=
  let flows := list_flows None None (store a) in
  let a := on_index (load_counts (run_counts (store a)) (task_run_counts (store a))
                       ((λ f, (flow_id f, flow_project f)) <$> flows)) a in
  let paused := is_some (kv_get PAUSE_KEY (store a)) in
  let a := rearm_crash_chains a in
  let a := fold_left (reconcile_run flows paused) (Reader.active_runs (store a)) a in
  App.ensure_capacity a.
End handlers.
End server.
