(* ===== verification/ApiFlows.v ===== *)
(** * Flows, projects, the queue page and the reset
      (server/src/api/flows.rs, projects.rs, queue.rs, settings.rs, database.rs)

    The lists behind the flows and the queue pages, removing a flow or a
    project, the warning of the settings page, and the reset of the database.
    Files are left out: the copy a reset writes first is an argument of the
    request, its path or nothing when it could not be written.  The reset waits
    for the runs it cancels; here nothing ends in the meantime, so what still
    runs is killed. *)

From S2P Require Import Prelude Float64 Json States Transitions Timer Schedules Model DepGraph Events Unique.
From S2P Require Import RuleMatching RuleTemplates ActiveIndex Resources WorkQueue Pool GroupCommit Tables.
From S2P Require Import Store Reader StoreAdmin StoreRegistry Integrity RuleReader Replay Pages Validate App.
From S2P Require Import Scheduler Health Waits Dispatch RulesEngine ApiRuns ApiWorkers Server.

Record FlowSummary : Type := mkFlowSummary {
  fs_flow : Flow;
  fs_recent_runs : list RecentRun;
  fs_triggers : list string;
  fs_triggered_by : option string;
  fs_upstreams : list string;
  fs_batch_key : option string;
  fs_schedules : list ScheduleRow;
  fs_health : option FlowHealth;
}.
Definition RECENT_RUNS_PER_FLOW : nat := 10.
Record ProjectSummary : Type := mkProjectSummary {
  ps_name : string;
  ps_flows : nat;
  ps_live_flows : nat;
  ps_runs : Z;
  ps_last_run_at : option Z;
  ps_served : bool;
}.
Record ProjectPreview : Type := mkProjectPreview {
  pp_counts : ProjectCounts;
  pp_matching_rules : nat;
  pp_served : bool;
}.
Record InLine : Type := mkInLine {
  il_run_id : Z;
  il_run_name : string;
  il_flow : string;
  il_project : string;
  il_trigger : string;
  il_waited_us : Z;
  il_entry : LineEntry;
}.
Record Joining : Type := mkJoining {
  jn_run_id : Z;
  jn_run_name : string;
  jn_flow : string;
  jn_project : string;
  jn_kind : string;
  jn_schedule_id : option Z;
  jn_at : Z;
}.
Record PausedLoop : Type := mkPausedLoop {
  pl_schedule_id : Z;
  pl_flow : string;
  pl_project : string;
  pl_reason : option string;
  pl_until : option Z;
}.
Record HostTotals : Type := mkHostTotals {
  ht_host : string;
  ht_count : Z;
  ht_busy : nat;
  ht_state : string;
}.
(** The page without the load average, the count of CPUs and where the settings
    came from. *)
Record QueueView : Type := mkQueueView {
  qv_count : Z;
  qv_hosts : list HostTotals;
  qv_engines : list EngineView;
  qv_in_line : list InLine;
  qv_more : Z;
  qv_joining : list Joining;
  qv_paused_loops : list PausedLoop;
}.
Definition IN_LINE_LIMIT : nat := 500.
Definition JOINING_LIMIT : nat := 50.
Definition JOINING_HORIZON_SECS : Z := 3600.
Definition DELETE_BATCH : nat := Z.to_nat 5000.

Definition joining_kind (r : QueueRun) : string :=
  if qr_state_name r =?s "AwaitingRetry" then "retry"
  else if qr_created_by r =?s "continuous" then "continuous"
  else if is_some (qr_schedule_id r) then "schedule"
  else "delayed".
Definition trigger (r : QueueRun) : string :=
  if is_some (qr_backfill_id r) then "backfill"
  else if is_some (qr_schedule_id r) then "schedule"
  else if starts_with (qr_created_by r) "rule:" then "rule"
  else if starts_with (qr_created_by r) "run:" then "dependency"
  else if starts_with (qr_created_by r) "crash:" then "crash rerun"
  else qr_created_by r.

Section api_flows.
Context `{StoreEnv, PoolEnv, ServerEnv, ScheduleEnv, ReaderEnv, RowEnv, JinjaEnv, ActionEnv, HostEnv, FormatEnv}
  (ops : Ops).

(** ** Flows *)

(** "I run after them", recorded once for every flow that says so. *)
Definition add_trigger (f : Flow) (m : gmap (string * string) (list string)) (up : string)
    : gmap (string * string) (list string) :=
  if up =?s flow_name f then m
  else let key := (flow_project f, up) in <[key := default [] (m !! key) ++ [flow_name f]]> m.
Definition triggers_by_upstream (all : list Flow) : gmap (string * string) (list string) :=
  fold_left (λ m f, match fo_after (options_of f) with
                    | Some after => fold_left (add_trigger f) (upstreams after) m
                    | None => m
                    end) all ∅.
Definition triggers_of (m : gmap (string * string) (list string)) (f : Flow) : list string :=
  default [] (m !! (flow_project f, flow_name f)).

Definition summarize (flow : Flow) (triggers : list string) (active : list ActiveRun) (recent : list RecentRun)
    (schedules : list ScheduleRow) (done_at : option Z) (starts : gmap Z (option Z)) (a : App) : FlowSummary :=
  let o := options_of flow in
  {| fs_health := flow_health (clock a) flow o active recent done_at starts;
     fs_triggered_by := after_flow <$> fo_after o; fs_upstreams := default [] (upstreams <$> fo_after o);
     fs_batch_key := and_then (fo_after o) after_key; fs_flow := decorate_flow a flow;
     fs_recent_runs := take RECENT_RUNS_PER_FLOW recent; fs_triggers := triggers; fs_schedules := schedules |}.
Definition flow_summaries (project group : option string) (a : App) : list FlowSummary :=
  let s := store a in
  let all := list_flows None None s in
  let triggers := triggers_by_upstream all in
  let flows := if is_none project && is_none group then all else list_flows project group s in
  let by_flow := active_runs_by_flow (index a) in
  let fids := flow_id <$> flows in
  let recent := recent_run_states_many fids RECENT_RUNS_READ s in
  let done_at := last_completed_at_many fids s in
  let schedules := for_flows fids (schedules a) in
  let running := ar_id <$> List.filter is_running (concat (map_to_list by_flow).*2) in
  let starts := run_start_times running s in
  (λ f, summarize f (triggers_of triggers f) (default [] (by_flow !! flow_id f))
          (default [] (recent !! flow_id f)) (default [] (schedules !! flow_id f)) (done_at !! flow_id f) starts a)
  <$> flows.
Definition completed_filter (fid : Z) : ListRunsFilter :=
  mkListRunsFilter None None None (Some fid) (Some "Completed") None None [] [] [] None None
    (Some "created_desc") (Some 1%nat) None None None None.
Definition get_flow_request (fid : Z) (a : App) : result FlowSummary ApiError :=
  let s := store a in
  match get_flow fid s with
  | None => Err (ApiNotFound "flow not found")
  | Some flow =>
      let active := active_runs_for_flow fid (index a) in
      let done_at := and_then (head (list_runs (clock a) (completed_filter fid) s).1) run_end_time in
      Ok (summarize flow (triggers_of (triggers_by_upstream (list_flows None None s)) flow) active
            (recent_run_states fid RECENT_RUNS_READ s) (for_flow fid (schedules a)) done_at
            (run_start_times (ar_id <$> List.filter is_running active) s) a)
  end.

Definition publish_deleted (a : App) (fid : Z) : App :=
  emit (Publish "flow.registered" (dec fid) (VObject [("deleted", VBool true); ("id", num fid)])) a.
(** The schedules of the flow stay in the scheduler's memory. *)
Definition delete_flow_request (fid : Z) (a : App) : App * result unit ApiError :=
  match get_flow fid (store a) with
  | None => (a, Err (ApiNotFound "flow not found"))
  | Some flow =>
      if is_live (flow_id flow) a then
        (a, Err (Conflict (VObject
           [("error", VString "flow is registered by the running server; stop serving it before deleting")])))
      else
        let a := fold_left (λ a r, if ar_flow_id r =? fid then on_supervisor (λ s, (dequeue (ar_id r) s).1) a else a)
                   (ActiveIndex.active_runs (index a)) a in
        let a := (write_ (delete_flow fid) a).1 in
        let a := set_dep_slot None (on_index (remove_flow fid) a) in
        (publish_deleted a fid, Ok tt)
  end.

(** ** Projects *)

Definition served (a : App) (p : ProjectRow) : bool := existsb (λ id, is_live id a) (pj_flow_ids p).
Definition project_summary (a : App) (runs : Z) (p : ProjectRow) : ProjectSummary :=
  let live := length (List.filter (λ id, is_live id a) (pj_flow_ids p)) in
  {| ps_runs := runs; ps_flows := length (pj_flow_ids p); ps_live_flows := live;
     ps_last_run_at := pj_last_run_at p; ps_served := (0 <? live)%nat; ps_name := pj_name p |}.
Definition project_before (x y : ProjectSummary) : Prop :=
  (ps_served x = true ∧ ps_served y = false)
  ∨ (ps_served x = ps_served y ∧ str_le (ps_name x) (ps_name y)).
#[global] Instance project_before_dec : RelDecision project_before.
Proof. intros x y. unfold project_before, str_le. apply _. Defined.
Definition list_projects_request (a : App) : list ProjectSummary :=
  let totals := run_totals_by_project (index a) in
  stable_sort project_before
    ((λ p, project_summary a (default 0 (totals !! pj_name p)) p) <$> list_projects (store a)).
Definition find_project (name : string) (a : App) : result ProjectRow ApiError :=
  match find (λ p, pj_name p =?s name) (list_projects (store a)) with
  | Some p => Ok p
  | None => Err (ApiNotFound ("project " +:+ name +:+ " not found"))
  end.
Definition matching_rules (name : string) (a : App) : nat :=
  length (List.filter (λ r, bool_decide (rm_project (rs_when (rr_spec r)) = Some name)
                            || bool_decide (and_then (rs_unless (rr_spec r)) rm_project = Some name))
            (rules (rules_state a))).
Definition get_project (name : string) (a : App) : result ProjectPreview ApiError :=
  match find_project name a with
  | Err e => Err e
  | Ok p => Ok (mkProjectPreview (project_counts name (store a)) (matching_rules name a) (served a p))
  end.

(** The schedules of a flow leave the memory and the timer. *)
Definition forget_schedule (a : App) (row : ScheduleRow) : App :=
  App.on_timer (remove_schedule_events (sr_id row)) (set_schedules (delete (sr_id row) (schedules a)) a).
Definition forget_flow (a : App) (fid : Z) : App := fold_left forget_schedule (for_flow fid (schedules a)) a.
Definition delete_project (name : string) (a : App) : App * result DeletedCounts ApiError :=
  match refuse_while_resetting a with
  | Err e => (a, Err e)
  | Ok _ =>
      match find_project name a with
      | Err e => (a, Err e)
      | Ok p =>
          if served a p then
            (a, Err (Conflict (VObject
               [("error", VString ("project " +:+ name
                   +:+ " is served by this server; serve another directory before removing it"));
                ("reason", VString "served")])))
          else
            let mine := List.filter (λ r, bool_decide (ar_flow_id r ∈ pj_flow_ids p))
                          (ActiveIndex.active_runs (index a)) in
            let busy := length (List.filter (λ r, negb (st_eqb (state_type (ar_state r)) Scheduled)) mine) in
            if (0 <? busy)%nat then
              (a, Err (Conflict (VObject
                 [("active_runs", num (Z.of_nat busy));
                  ("error", VString ("project " +:+ name +:+ " has " +:+ dec (Z.of_nat busy)
                     +:+ " run(s) in progress; cancel them or let them finish first"));
                  ("reason", VString "active_runs")])))
            else
              let ids := ar_id <$> mine in
              let a := on_supervisor (dequeue_many ids) a in
              let a := fold_left (λ a i, App.on_timer (remove_run_events i) a) ids a in
              let a := fold_left forget_flow (pj_flow_ids p) a in
              let '(a, deleted) := write_ (delete_flows_batched (pj_flow_ids p) DELETE_BATCH) a in
              let a := set_dep_slot None a in
              let a := fold_left (λ a fid, publish_deleted (on_index (remove_flow fid) a) fid) (pj_flow_ids p) a in
              (a, Ok deleted)
      end
  end.

(** ** The queue page *)

Definition add_joining (until : Z) (rj : gmap Z QueueRun * list (Z * Z)) (r : QueueRun)
    : gmap Z QueueRun * list (Z * Z) :=
  if bool_decide (is_Some (rj.1 !! qr_id r)) then rj
  else (<[qr_id r := r]> rj.1, rj.2 ++ [(qr_id r, default until (qr_scheduled_time r))]).
Definition in_line_of (now : Z) (runs : gmap Z QueueRun) (l : LineEntry) : option InLine :=
  r ← runs !! le_run_id l;
  Some (mkInLine (le_run_id l) (qr_name r) (qr_flow_name r) (qr_project r) (trigger r)
          (Z.max (now - le_order l) 0) l).
Definition joining_of (runs : gmap Z QueueRun) (ia : Z * Z) : option Joining :=
  r ← runs !! ia.1;
  Some (mkJoining ia.1 (qr_name r) (qr_flow_name r) (qr_project r) (joining_kind r) (qr_schedule_id r) ia.2).
Definition paused_loop_of (s : Store) (row : ScheduleRow) : option PausedLoop :=
  f ← get_flow (sr_flow_id row) s;
  Some (mkPausedLoop (sr_id row) (flow_name f) (flow_project f) (sr_paused_reason row) (sr_paused_until row)).
Definition hosts (items : list EngineView) (s : Supervisor) : list HostTotals :=
  mkHostTotals "server" (max_engines s)
    (length (List.filter (λ e, (view_host e =?s "server") && is_some (view_run_id e)) items)) "online"
  :: ((λ w, mkHostTotals (ss_name w) (ss_processors w) (ss_running w) (ss_state w)) <$> workers_snapshot s).
Definition get_queue (a : App) : QueueView :=
  let now := clock a in
  let until := now + JOINING_HORIZON_SECS * 1000000 in
  let '(items, line, total) := queue_snapshot now (instant a) IN_LINE_LIMIT (supervisor a) in
  let soon := joining now until JOINING_LIMIT (supervisor a) in
  let ids := (le_run_id <$> line) ++ (fst <$> soon) in
  let runs := list_to_map ((λ r, (qr_id r, r)) <$> queue_runs ids (store a)) in
  let '(runs, soon) := fold_left (add_joining until) (scheduled_queue_runs now until JOINING_LIMIT (store a))
                         (runs, soon) in
  let in_line := omap (in_line_of now runs) line in
  {| qv_count := max_engines (supervisor a); qv_hosts := hosts items (supervisor a);
     qv_engines := items; qv_in_line := in_line; qv_more := Z.max (total - Z.of_nat (length in_line)) 0;
     qv_joining := omap (joining_of runs) (take JOINING_LIMIT (stable_sort join_le soon));
     qv_paused_loops :=
       omap (paused_loop_of (store a))
         (sort_by_key sr_id
            (List.filter (λ r, is_continuous (sr_schedule r) && negb (sr_active r)) (map_to_list (schedules a)).*2)) |}.

(** ** The warning of the settings page *)

Definition cap_of (f : Flow) : option Z := opt_filter (λ c, 0 <? c) (fo_max_concurrent (options_of f)).
Definition short_intervals (median : Z) (rows : list ScheduleRow) : nat :=
  length (List.filter (λ row, match sr_schedule row with
                              | Interval interval _ _ => f64_lt (f64_mul interval f64_million) (f64_of_Z median)
                              | _ => false
                              end) rows).
(** The flows to name, and why. *)
Definition saturation (a : App) : option (list string * string) :=
  let live := List.filter (λ f, is_live (flow_id f) a) (list_flows None None (store a)) in
  let capped := omap (λ f, pair (flow_name f) <$> cap_of f) live in
  let uncapped := List.filter (λ f, is_none (cap_of f)) live in
  let fids := flow_id <$> uncapped in
  let medians := median_run_duration_many fids (store a) in
  let rows := for_flows fids (schedules a) in
  let short := flat_map (λ f, let median := default 0 (medians !! flow_id f) in
                              if 0 <? median
                              then replicate (short_intervals median (default [] (rows !! flow_id f))) (flow_name f)
                              else []) uncapped in
  let total := sumZ capped.*2 in
  let engines := max_engines (supervisor a) in
  if (engines <=? total) && negb (bool_decide (capped = [])) then
    Some (capped.*1, "declared max_concurrent caps total " +:+ dec total +:+ " with max_engines " +:+ dec engines)
  else match short with
       | [] => None
       | _ => Some (short, "schedule interval shorter than the median run duration")
       end.

(** ** The reset *)

Definition cancel_running (a : App) (id : Z) : App :=
  match get_run id (store a) with Some run => (cancel_inner ops run a).1 | None => a end.
(** What still runs when the wait is over. *)
Definition kill_running (a : App) (r : ActiveRun) : App :=
  let a := match ar_engine_pid r with Some pid => emit (Kill pid) a | None => a end in
  (op_transition_run ops (ar_id r) (with_message (State_new (clock a) Cancelled) "database reset") true a).1.
Definition holds_engine (a : App) (r : ActiveRun) : bool :=
  is_some (ar_engine_pid r) || is_some (engine_for_run (ar_id r) (supervisor a)).
Definition stop_runs (a : App) : App :=
  let active := ActiveIndex.active_runs (index a) in
  let a := on_supervisor (dequeue_many (ar_id <$> active)) a in
  let running := ar_id <$> List.filter (holds_engine a) active in
  let a := fold_left cancel_running running a in
  fold_left kill_running (omap (λ id, ActiveIndex.get id (index a)) running) a.
(** [copied] is the outcome of the copy, when one is asked for. *)
Definition wipe (scope : ResetScope) (backup : bool) (copied : result string string) (a : App)
    : App * result (option string * DeletedCounts) ApiError :=
  let a := App.on_timer clear a in
  let a := stop_runs a in
  match (if backup then copied else Ok EmptyString) with
  | Err e => (a, Err (InternalText ("could not copy the database, so nothing was deleted: " +:+ e)))
  | Ok path =>
      let '(a, deleted) := write_ (reset scope (elements (live_flows (flags a)))) a in
      (a, Ok (if backup then Some path else None, deleted))
  end.
Definition reload (a : App) : App :=
  restart ops (load (reconcile ops (on_index clear_active a))).
Definition reset_scope (scope : option string) : result (ResetScope * string) ApiError :=
  match scope with
  | None => Err (Unprocessable ("scope is required: " +:+ debug_str "history" +:+ " or " +:+ debug_str "everything"))
  | Some t =>
      if t =?s "history" then Ok (History, "history")
      else if t =?s "everything" then Ok (Everything, "everything")
      else Err (Unprocessable ("unknown scope " +:+ debug_str t +:+ ": expected " +:+ debug_str "history" +:+ " or "
                               +:+ debug_str "everything"))
  end.
Definition reset_database (scope : option string) (backup : option bool) (copied : result string string) (a : App)
    : App * result (string * option string * DeletedCounts) ApiError :=
  match reset_scope scope with
  | Err e => (a, Err e)
  | Ok (scope, name) =>
      if resetting (flags a) then (a, Err (Conflict (VObject [("error", VString "a reset is already running")])))
      else
        let a := set_resetting true a in
        let '(a, outcome) := wipe scope (default true backup) copied a in
        let a := reload (set_resetting false a) in
        match outcome with
        | Err e => (a, Err e)
        | Ok (path, deleted) =>
            (emit (Publish "database.reset" "database" (VObject [("scope", VString name)])) a,
             Ok (name, path, deleted))
        end
  end.
End api_flows.
