(* ===== verification/Session.v ===== *)
(** * A session of the server

    What reaches the server, in the order it reaches it: the time, its timers,
    the threads its handlers start, the passes of the retention, the calls of
    the engines' watchdog, and the requests of the API ([Request]), the tools
    an agent calls over MCP among them.  [serve] is the server's answer to one of
    them; the body of the answer is the request's own. *)

From S2P Require Import Prelude Float64 Json States Transitions Timer Schedules Model DepGraph Events Unique.
From S2P Require Import RuleMatching RuleTemplates ActiveIndex Resources WorkQueue Pool GroupCommit Tables.
From S2P Require Import Store Reader StoreAdmin StoreRegistry Integrity RuleReader Replay Pages Validate App.
From S2P Require Import Mcp ApiAgents Scheduler Health Waits Dispatch RulesEngine Server ApiRuns ApiEngine ApiSchedules.
From S2P Require Import ApiBackfills ApiObserve ApiWorkers ApiFlows Retention ApiSettings.

(** ** The requests of the API *)

(** The routes of [api::router] whose handlers change something. *)
Inductive Request : Type :=
| RqCreateRun (user : option string) (b : CreateRunBody)
| RqCreateRunForFlow (user : option string) (flow_id : Z) (b : CreateRunForFlowBody)
| RqDeleteRun (id : Z)
| RqCancelRun (id : Z)
| RqBulkRuns (user : option string) (b : BulkBody)
| RqTransition (id : Z) (lease : option string) (b : TransitionBody)
| RqAttributes (id : Z) (effect : AttributesEffect) (body : Map)
| RqSetState (id : Z) (b : StateBody)
| RqResume (id : Z) (input : Value)
| RqReceive (id : Z) (topic : string) (idx : Z)
| RqSend (id : Z) (topic : string) (payload : Value)
| RqRetry (user : option string) (id : Z) (from : option string)
| RqWork (mtime disk : option Z) (req : WorkRequest)
| RqReport (lease : option string) (req : ReportRequest)
| RqHeartbeat (id : Z) (lease : option string)
| RqFailed (req : FailedRequest)
| RqAcquire (id : Z) (wanted : Map)
| RqRelease (id lease : Z)
| RqLocalPath (id : Z) (path : string)
| RqCreateSchedule (flow_id : Z) (b : ScheduleBody) (source : string)
| RqPatchSchedule (id : Z) (b : SchedulePatchBody)
| RqDeleteSchedule (id : Z)
| RqPauseSchedule (id : Z)
| RqResumeSchedule (id : Z)
| RqJoinNow (id : Z)
| RqPauseFlow (flow_id : Z)
| RqResumeFlow (flow_id : Z)
| RqAddSkips (id : Z) (b : SkipBody)
| RqDeleteSkip (id fire : Z)
| RqPauseScheduler (b : option PauseBody)
| RqResumeScheduler
| RqCreateBackfill (flow_id : Z) (b : BackfillBody)
| RqPrefilter (id : Z) (skip : list string)
| RqCancelBackfill (id : Z)
| RqEmitEvent (b : EmitEventBody)
| RqCreateRule (b : RuleBody)
| RqPatchRule (id : Z) (b : RulePatch)
| RqDeleteRule (id : Z)
| RqCreateArtifact (b : ArtifactBody)
| RqCreateVariable (b : VariableBody)
| RqPatchVariable (name : string) (b : VariablePatch)
| RqDeleteVariable (name : string)
| RqRegister (b : RegisterBody) (address : option string)
| RqWorkerHeartbeat (id : Z) (b : HeartbeatBody)
| RqPatchWorker (id processors : Z)
| RqDrain (id : Z)
| RqResumeWorker (id : Z)
| RqLeave (id : Z)
| RqForget (id : Z)
| RqDeleteFlow (id : Z)
| RqDeleteProject (name : string)
| RqReset (scope : option string) (backup : option bool) (copied : result string string)
| RqPatchSettings (cpu_cap : Z) (b : SettingsPatch) (persisted : result unit string) (e : Edits)
| RqCreateAgent (cfg : AgentsConfig) (source_dir : string) (d : AgentDefinition)
| RqPatchAgent (cfg : AgentsConfig) (source_dir : string) (id : Z) (d : AgentDefinition)
| RqDeleteAgent (id : Z)
| RqAddApproval (id : Z) (b : ApprovalBody)
| RqDeleteApproval (id aid : Z)
| RqTool (cfg : McpConfig) (client : string) (user : option string) (name : string) (args : Map).

Section session.
Context `{StoreEnv, PoolEnv, ServerEnv, ScheduleEnv, ReaderEnv, RowEnv, JinjaEnv, ActionEnv, HostEnv}
  `{ModuleEnv, RangeEnv, SecretEnv, FormatEnv, McpEnv, SettingsEnv, AgentEnv} (o : Ops).

Definition api (r : Request) (a : App) : App :=
  match r with
  | RqCreateRun user b => (create_run_request o user b a).1
  | RqCreateRunForFlow user fid b => (create_run_for_flow o user fid b a).1
  | RqDeleteRun id => (delete_run_request o id a).1
  | RqCancelRun id => (cancel_run_request o id a).1
  | RqBulkRuns user b => (bulk_runs o user b a).1
  | RqTransition id lease b => (leased_transition o id lease b a).1
  | RqAttributes id effect body => (patch_attributes id effect body a).1
  | RqSetState id b => (set_run_state_request id b a).1
  | RqResume id v => (resume_inner o id v a).1
  | RqReceive id topic idx => (run_receive id topic idx a).1
  | RqSend id topic v => (send_message o id topic v a).1
  | RqRetry user id from => (retry_run_request o user id from a).1
  | RqWork mtime disk req => (work_step mtime disk req a).1
  | RqReport lease req => (report o lease req a).1
  | RqHeartbeat id lease => (heartbeat_request id lease a).1
  | RqFailed req => (failed o req a).1
  | RqAcquire id wanted => (acquire_step id wanted a).1
  | RqRelease id lease => release_request id lease a
  | RqLocalPath id path => local_path o id path a
  | RqCreateSchedule fid b source => (create_schedule_inner o fid b source a).1
  | RqPatchSchedule id b => (patch_schedule_inner o id b a).1
  | RqDeleteSchedule id => (delete_schedule_request id a).1
  | RqPauseSchedule id => (pause_schedule_request o id a).1
  | RqResumeSchedule id => (resume_schedule_request o id a).1
  | RqJoinNow id => (join_now_request o id a).1
  | RqPauseFlow fid => (pause_flow o fid a).1
  | RqResumeFlow fid => (resume_flow o fid a).1
  | RqAddSkips id b => (add_skips_request o id b a).1
  | RqDeleteSkip id fire => (delete_skip o id fire a).1
  | RqPauseScheduler b => (pause_scheduler o b a).1
  | RqResumeScheduler => (resume_scheduler o a).1
  | RqCreateBackfill fid b => (create_backfill_request o fid b a).1
  | RqPrefilter id skip => (prefilter_backfill o id skip a).1
  | RqCancelBackfill id => (cancel_backfill_inner o id a).1
  | RqEmitEvent b => (emit_event o b a).1
  | RqCreateRule b => (create_rule b a).1
  | RqPatchRule id b => (patch_rule id b a).1
  | RqDeleteRule id => (delete_rule_request id a).1
  | RqCreateArtifact b => (create_artifact b a).1
  | RqCreateVariable b => (create_variable b a).1
  | RqPatchVariable name b => (patch_variable name b a).1
  | RqDeleteVariable name => (delete_variable_request name a).1
  | RqRegister b address => (register o b address a).1
  | RqWorkerHeartbeat id b => (ApiWorkers.heartbeat id b a).1
  | RqPatchWorker id n => (patch_worker id n a).1
  | RqDrain id => (set_state id "draining" a).1
  | RqResumeWorker id => (set_state id "online" a).1
  | RqLeave id => (leave o id a).1
  | RqForget id => (forget id a).1
  | RqDeleteFlow id => (delete_flow_request id a).1
  | RqDeleteProject name => (delete_project name a).1
  | RqReset scope backup copied => (reset_database o scope backup copied a).1
  | RqPatchSettings cap b persisted e => (patch_settings cap b persisted e a).1.2
  | RqCreateAgent cfg dir d => (create_agent cfg dir d a).1
  | RqPatchAgent cfg dir id d => (patch_agent cfg dir id d a).1
  | RqDeleteAgent id => (delete_agent_request id a).1
  | RqAddApproval id b => (add_approval_request id b a).1
  | RqDeleteApproval id aid => (delete_approval_request id aid a).1
  | RqTool cfg client user name args => (call_tool o cfg client user name args a).1
  end.

(** ** A session *)

(** What reaches the server: the time, its timers and threads, and the calls
    of the interface and of the engines' watchdog. *)
Inductive input : Type :=
| InTime (now inst : Z)
| InTick
| InTimer (e : TimerEvent)
| InTask (t : Task)
| InReconcile
| InStart (with_catch_up : bool)
| InEvent (e : NewEvent)
| InTransition (run_id : Z) (st : State) (force : bool)
| InEnqueue (run : Run) (flow : Flow) (not_before : option Z)
| InCrash (run_id : Z) (message : string)
| InAnswer (observed : Run) (answer : Value)
| InMessage (run_id : Z) (topic : string) (payload : Value)
| InPauseAll (reason : option string) (until : option Z) (suppress_rules : bool)
| InResumeAll
| InPauseSchedule (schedule_id : Z) (reason : option string) (until : option Z)
| InResumeSchedule (schedule_id : Z)
| InRebuild (schedule_id : Z)
| InDeleteSchedule (schedule_id : Z)
| InSkip (row : ScheduleRow) (fires : list Z) (next : option nat) (by_ : string)
| InUnskip (schedule_id fire : Z)
| InJoin (schedule_id : Z)
| InSync (flow : Flow) (decls : list ScheduleDecl)
| InLoadRules
| InCancelExpectations (rule_id : Z)
| InSweep
| InRetention (files : option (list StoredFile)) (copy : result string StoreError)
| InApi (r : Request).

Definition set_time (now inst : Z) (a : App) : App :=
  mkApp (store a) (index a) (timer a) (supervisor a) (schedules a) (pause a) (dep_slot a)
    (backfill_emitted a) (rules_state a) (crash_retries_default a) (fast_crash_rerun a) now
    inst (answer_lock a) (loop_locks a) (halted a) (outputs a) (spawned a) (flags a).

Definition serve (a : App) (i : input) : App :=
  match i with
  | InTime now inst => set_time now inst a
  | InTick => tick o a
  | InTimer e => handle o a e
  | InTask t => run_task o t a
  | InReconcile => reconcile o a
  | InStart b => RulesEngine.start (start_inner o b a)
  | InEvent e => (record_event_full o e a).1
  | InTransition rid st force => (op_transition_run o rid st force a).1
  | InEnqueue run flow nb => op_enqueue_run o run flow nb a
  | InCrash rid m => crash_run o rid m a
  | InAnswer observed v => (wake_paused o observed (answer_with v) a).1
  | InMessage rid topic v => (deliver_message o rid topic v a).1
  | InPauseAll r u s => (pause_all o r u s a).1
  | InResumeAll => (resume_all o a).1
  | InPauseSchedule sid r u => pause_schedule o sid r u a
  | InResumeSchedule sid => resume_schedule o sid a
  | InRebuild sid => rebuild o sid a
  | InDeleteSchedule sid => (Scheduler.delete_schedule sid a).1
  | InSkip row fires next by_ => (skip_fires o row fires next by_ a).1
  | InUnskip sid fire => (unskip_fire o sid fire a).1
  | InJoin sid => (join_now o sid a).1
  | InSync flow decls => (sync_code_schedules flow decls a).1
  | InLoadRules => load a
  | InCancelExpectations rid => cancel_expectations rid a
  | InSweep => (sweep o a).1
  | InRetention files copy => (run_once files copy a).1
  | InApi r => api r a
  end.
End session.
