(* ===== verification/Samples.v ===== *)
(** * A concrete server

    Instances of what the model leaves to libraries and the host, and small
    stores and servers built with them: the examples of the files that follow
    run on these. *)

From S2P Require Import Prelude Float64 Json States Transitions Timer Schedules Model DepGraph Events Unique.
From S2P Require Import RuleMatching RuleTemplates ActiveIndex Resources WorkQueue Pool PoolLaws GroupCommit.
From S2P Require Import Tables Store JsonCodec Reader StoreAdmin Integrity RuleReader Validate App Scheduler.
From S2P Require Import Health Waits Dispatch RulesEngine ApiRuns ApiEngine ApiSchedules ApiBackfills ApiObserve.
From S2P Require Import Mcp ApiSettings ApiAgents Server.

#[export] Existing Instance codec_env.
#[export] Existing Instance minute_env.
#[export] Existing Instance pool_env.

(** The options the examples use. *)
Definition sample_options (m : Map) : FlowOptions :=
  mkFlowOptions false false (default 0 (get_i64 "priority" m)) (get_i64 "max_concurrent" m)
    (default "enqueue" (get_str "on_overlap" m))
    (default [] (and_then (map_get "resources" m) as_object)) (get_i64 "crash_retries" m) None 0
    ((λ up, mkAfterSpec up [] (get_str "key" m) []) <$> get_str "after" m)
    None [] false false None None None None None None None None.

#[export] Instance sample_server : ServerEnv := {|
  from_map := sample_options;
  pause_to_string p := dec (p_since p);
  pause_from_str t := (λ z, mkPause z None None false) <$> parse_i64 t;
  format_compact := dec;
  format_rfc3339 := dec;
  f64_display _ := "60";
  addr_to_string := "0.0.0.0:4200";
  addr_port := 4200;
  addr_is_unspecified := true;
  addr_is_ipv6 := false;
  base_path := EmptyString;
  config_public_url := None;
|}.
#[export] Instance sample_reader : ReaderEnv := {| sql_json_text := print_value |}.
#[export] Instance sample_rows : RowEnv := {|
  rule_spec_from_str _ := None;
  resources_from_str _ := Some [];
|}.
#[export] Instance sample_jinja : JinjaEnv := {|
  render_str t _ := Ok t;
  template_error _ := None;
  expression_error _ := None;
  eval_expression _ _ := Ok true;
  run_to_value _ := VNull;
  flow_to_value _ := VNull;
  state_to_value _ := VNull;
  event_to_value e := VObject [("id", num (ev_id e)); ("name", VString (ev_name e))];
  json_string := debug_str;
|}.
#[export] Instance sample_actions : ActionEnv := {|
  external_action _ _ _ := Ok VNull;
  action_slow _ _ := false;
  error_text _ := "failed";
|}.
#[export] Instance sample_host : HostEnv := {| is_alive _ := false |}.
#[export] Instance sample_modules : ModuleEnv := {|
  module_hash _ module := Some ("hash-" +:+ module);
  reason_text _ := "refused";
|}.
#[export] Existing Instance day_env.
#[export] Instance sample_secrets : SecretEnv := {|
  encrypt t := Some ("enc:" +:+ t);
  decrypt _ := None;
  config_token := Some "token";
  config_version := "1.4.0";
  spec_to_string _ := "{}";
|}.
#[export] Instance sample_format : FormatEnv := {| fixed0 _ := "1"; fixed1 _ := "1.0" |}.
#[export] Instance sample_mcp : McpEnv := {|
  message_from_slice t := match parse_value t with Some v => Ok v | None => Err "expected value" end;
  schedule_body_from_value _ := Err "missing field `schedule`";
  schedule_patch_from_value _ := Err "invalid type";
  iso_instant t := parse_i64 t;
  flow_source _ := Err "no source";
  run_check _ := Ok VNull;
|}.
(** A definition reduced to its identity, model and first tool. *)
Definition sample_definition_value (d : AgentDefinition) : Value :=
  VObject [("model", VString (ad_model d)); ("name", VString (ad_name d)); ("project", VString (ad_project d))].
Definition bare_definition (project name model : string) : AgentDefinition :=
  mkAgentDefinition name project None EmptyString model None EmptyString EmptyString [] (mkPolicy "ask" [])
    (mkLimits None None None None) (mkAgentOutput "text" None) 0 true.
#[export] Instance sample_agents : AgentEnv := {|
  definition_to_string d := print_value (sample_definition_value d);
  definition_from_value v :=
    match and_then (value_get "project" v) as_str, and_then (value_get "name" v) as_str,
          and_then (value_get "model" v) as_str with
    | Some project, Some name, Some model => Ok (bare_definition project name model)
    | _, _, _ => Err "missing field"
    end;
  sha256_hex t := t;
  cast_real v := as_f64 v;
  cast_integer v := as_i64 v;
  sum_real l := fold_left f64_add l f64_zero;
|}.
#[export] Instance sample_settings : SettingsEnv := {|
  totals_to_string _ := "{}";
  totals_from_str t := if t =?s "{}" then Some [] else None;
|}.

Definition sample_flow_row (name : string) (options : Map) : FlowRow :=
  mkFlowRow ("flow-" +:+ name) "shop" name "etl" "/srv" None "[]" "{}" 0 0 None (map_to_string options) None.
Definition store_of (flows : list (Z * FlowRow)) : Store :=
  mkStore (list_to_map flows) ∅ [] ∅ [] ∅ [] [] [] [] Defs_empty 0 0.

Definition new_run (fid : Z) (name : string) (parameters : Map) : CreateRun :=
  mkCreateRun fid name (map_to_string parameters) "[]" "ui" (Some (State_new 10 Scheduled)) None None 0 None 0
    None None.
(** The transitions of a run that pauses for an event. *)
Definition waits_for (id : Z) (pattern : string) : list cmd :=
  CStore (STransition TableRun id (State_new 11 Pending) false)
  :: CStore (STransition TableRun id (State_new 12 Running) false)
  :: [CStore (STransition TableRun id
               (with_detail (State_named 13 AwaitingEvent) "event" (VString pattern)) false)].

Definition app_of (s : Store) : App :=
  mkApp s ActiveIndex_default Timer_new idle_supervisor ∅ None None ∅
    (mkRulesState [] RuleIndex_default ∅ ∅) 3 false 2000000 0 false ∅ None [] []
    (mkFlags ∅ false false (mkSettings 30 0 0 0 0 0 0) ∅).

Definition event_named (name : string) : NewEvent :=
  mkNewEvent name None None (VObject []) (mkResource "custom" EmptyString name) [].

(** Flow 1, ["shop/etl"], with one run waiting for the events of pattern [p] and
    one for those of [q]. *)
Definition waiting_store (p q : string) : Store :=
  fold_left exec_cmd
    ([CStore (SCreateRun 10 (new_run 1 "a" [])); CStore (SCreateRun 10 (new_run 1 "b" []))]
     ++ waits_for 1 p ++ waits_for 2 q)
    (store_of [(1, sample_flow_row "etl" [])]).

Lemma fk_store_of flows : fk_ok (store_of flows).
Proof. split; try (intros *; by rw lookup_empty); intros ? Hin; by apply elem_of_nil in Hin. Qed.
Lemma fk_waiting p q : fk_ok (waiting_store p q).
Proof. apply fk_cmds, fk_store_of. Qed.
