(* ===== verification/RuleLaws.v ===== *)
(** * When a rule fires

    What an event starts: the rules handed to a firing thread are candidates
    that match, whose condition holds, and that are below the bound of their
    chain; rules at their bound go to [on_limit] instead; and a pause that
    suppresses rules starts no firing at all. *)

From S2P Require Import Prelude Float64 Json States Transitions Timer Schedules Model DepGraph Events Unique.
From S2P Require Import RuleMatching RuleTemplates ActiveIndex Resources WorkQueue Pool GroupCommit Tables.
From S2P Require Import Store Reader StoreAdmin Integrity RuleReader Validate App Scheduler Waits Dispatch.
From S2P Require Import RulesEngine Server Samples.

Section rule_laws.
Context `{StoreEnv, PoolEnv, ServerEnv, ScheduleEnv, ReaderEnv, RowEnv, JinjaEnv, ActionEnv}.

(** The rule answers the event: it matches and its condition holds. *)
Definition answers (event : Event) (ctx : RunContext) (rule : RuleRow) (rounds : Z) : Prop :=
  matches (rs_when (rr_spec rule)) event ctx = true ∧ condition_ok rule event ctx rounds = true.
(** The rule has used up the rounds of the run's chain. *)
Definition at_bound (ctx : RunContext) (rule : RuleRow) (rounds : Z) : Prop :=
  0 < rs_max_per_chain (rr_spec rule) ≤ rounds ∧ is_Some (rc_run ctx).

(** What a plan holds of the rules [rs]. *)
Record plan_ok (event : Event) (ctx : RunContext) (rs : list RuleRow) (to_fire to_limit : list (RuleRow * Z))
    : Prop := {
  plan_fire : ∀ rule n, (rule, n) ∈ to_fire → rule ∈ rs ∧ answers event ctx rule n ∧ ¬ at_bound ctx rule n;
  plan_limit : ∀ rule n, (rule, n) ∈ to_limit → rule ∈ rs ∧ answers event ctx rule n ∧ at_bound ctx rule n;
}.

(** The threads started and the pause: what considering rules leaves alone. *)
Definition aside (a : App) : list Task * option Pause := (spawned a, pause a).

Lemma at_bound_spec ctx rule n :
  (0 <? rs_max_per_chain (rr_spec rule)) && is_some (rc_run ctx) && (rs_max_per_chain (rr_spec rule) <=? n) = true
  ↔ at_bound ctx rule n.
Proof using Type.
  rw /at_bound !andb_true_iff Z.ltb_lt Z.leb_le. destruct (rc_run ctx); simpl; [|split; [intuition done|]].
  - split; [intros [[? _] ?]; by eauto|intros [[? ?] _]; by auto].
  - by intros [_ [? ?]].
Qed.

Lemma pass_guards_spawned rule event ctx a : aside (pass_guards rule event ctx a).1 = aside a.
Proof using Type. rw /pass_guards. by destruct (check_guards _ _ _ _ _). Qed.

Lemma consider_ok event ctx seen rule a tf tl :
  plan_ok event ctx seen tf tl →
  let '(a', tf', tl') := consider event ctx (a, tf, tl) rule in
  plan_ok event ctx (seen ++ [rule]) tf' tl' ∧ aside a' = aside a.
Proof using Type.
  intros [Hf Hl]. unfold consider.
  assert (plan_ok event ctx (seen ++ [rule]) tf tl) as Hsame.
  { split; intros r n Hin; [apply Hf in Hin as [? ?]|apply Hl in Hin as [? ?]]; set_solver. }
  destruct (matches _ event ctx) eqn:Em; cbn [negb]; [|done].
  set (n := rounds_of rule ctx a). destruct (condition_ok rule event ctx n) eqn:Ec; cbn [negb]; [|done].
  destruct (_ && _) eqn:Eb.
  - split; [|done]. split; [apply Hsame|]. intros r k [Hin|[= -> ->]%list_elem_of_singleton]%elem_of_app.
    { by apply Hsame. }
    split; [set_solver|]. by rw -at_bound_spec.
  - pose proof (pass_guards_spawned rule event ctx a) as Hs.
    destruct (pass_guards rule event ctx a) as [a1 ok]. split; [|exact Hs]. destruct ok; [|done].
    split; [|apply Hsame]. intros r k [Hin|[= -> ->]%list_elem_of_singleton]%elem_of_app.
    { by apply Hsame. }
    split; [set_solver|]. split; [done|]. rw -at_bound_spec. by rw Eb.
Qed.

Lemma plan_of event ctx rs a :
  let '(a', tf, tl) := fold_left (consider event ctx) rs (a, [], []) in
  plan_ok event ctx rs tf tl ∧ aside a' = aside a.
Proof using Type.
  assert (∀ rs seen a tf tl, plan_ok event ctx seen tf tl →
    let '(a', tf', tl') := fold_left (consider event ctx) rs (a, tf, tl) in
    plan_ok event ctx (seen ++ rs) tf' tl' ∧ aside a' = aside a) as Hg.
  { clear rs a. induction rs as [|r rs IH]; intros seen a tf tl Hok; [by rw app_nil_r|]. cbn [fold_left].
    pose proof (consider_ok event ctx seen r a tf tl Hok) as Hc.
    destruct (consider event ctx (a, tf, tl) r) as [[a1 tf1] tl1]. destruct Hc as [Hc Hs].
    specialize (IH (seen ++ [r]) a1 tf1 tl1 Hc). rw -app_assoc Hs in IH. exact IH. }
  apply (Hg rs []). split; intros ? ? Hin; set_solver.
Qed.

Lemma fold_spawned {A} (f : App → A → App) l a :
  (∀ a x, aside (f a x) = aside a) → aside (fold_left f l a) = aside a.
Proof using Type. intros Hf. revert a. induction l as [|x l IH]; intros a; simpl; [done|]. by rw IH. Qed.

Lemma track_spawned event ctx cs a : aside (track_expectations event ctx cs a) = aside a.
Proof using Type.
  rw /track_expectations. destruct (expectation_key event ctx) as [[[key rid] fid]|]; [|done].
  apply fold_spawned. intros b rule. rw /track_rule. destruct (rs_unless _) as [unless|]; [|done].
  assert (∀ b, aside (disarm rule key (ev_occurred event) b) = aside b) as Hd.
  { intros c. rw /disarm. destruct (write_ _ c) as [c1 met] eqn:Ew. rw fold_spawned; [|done].
    by injection Ew as <- _. }
  assert (∀ b, aside (arm_one rule key rid fid (ev_occurred event) b) = aside b) as Ha.
  { intros c. rw /arm_one /write. by destruct (arm_expectation _ _) as [? []]. }
  destruct (matches unless event ctx); destruct (is_some _); rw ?Hd //;
    destruct (matches _ event ctx); rw /= ?Hd //; destruct (rc_run ctx) as [run|]; rw ?Ha ?Hd //;
    destruct (self_trigger rule run); rw ?Ha ?Hd //.
Qed.

Lemma suppress_spawned event ctx l a : aside (fold_left (suppress event ctx) l a) = aside a.
Proof using Type.
  apply fold_spawned. intros b rn. rw /suppress /start_firing /write. by destruct (record_firing _ _ _ _ _ _).
Qed.

End rule_laws.

(** A server with one rule in memory, on [order.created]. *)
Definition ruled_app : App :=
  let rs := [rule_on 1 ["order.created"]] in
  on_rules (λ r, set_rules rs (set_rule_index (RuleIndex_build rs) r))
    (app_of (store_of [(1, sample_flow_row "etl" [])])).
Definition order_event : Event :=
  mkEvent 7 7 "event-7" "order.created" 10 (mkResource "custom" EmptyString "order.created") [] None None [].

