(* ===== verification/HandlerLaws.v ===== *)
(** * What a handler may do

    A handler of the server changes the store by commands of the writer and by
    nothing else, leaves the clock alone, and leaves every lock as it found
    it.  [frame p a a'] says so of one call; [p] allows every command of the
    writer, those that pause a run included, which a request of the API and an
    action of a rule issue.  The lemmas follow the call
    graph from the leaves; the recursive entry points are assumed to obey the
    frame ([ops_ok]) and [ops_frame] closes the induction on the fuel. *)

From S2P Require Import Prelude Float64 Json States Transitions Timer Schedules Model DepGraph Events Unique.
From S2P Require Import RuleMatching RuleTemplates ActiveIndex Resources WorkQueue Pool GroupCommit Tables.
From S2P Require Import Store Reader StoreAdmin Integrity RuleReader Validate App Scheduler Waits Dispatch.
From S2P Require Import RulesEngine Server.

Create HintDb handlers.

Definition may_pause (p : bool) (st : State) : bool := p || negb (st_eqb (state_type st) Paused).
(** The commands a handler issues. *)
Definition issues (p : bool) (c : cmd) : bool :=
  match c with
  | CStore (SCreateRun _ c) => match cr_initial_state c with Some st => may_pause p st | None => p end
  | CStore (STransition TableRun _ st _) => may_pause p st
  | CStore (SEvent _ _) | CUpsertSchedule _ _ | CPatchSchedule _ _ _ | CAddSkips _ _ _ _ | CDeleteSkips _ _
  | CDeleteSkipsBefore _ _ | CSyncSkipMarks _ | CArm _ | CDisarm _ _ _ | CSettle _ _ | CCancelExpectations _
  | CRecordFiring _ _ _ _ _ | CUpdateFiring _ _ | CKvSet _ _ _ | CKvDelete _ | CMessage _ _ _ _
  | CClaim _ _ _ _ _ | CSetEngine _ _ _ | CSetPriority _ _ | CBumpLease _ | CReschedule _ _ _
  | CDeleteUnstarted _ | CDeleteSchedule _ => true
  | _ => p
  end.

Section frame.
Context `{StoreEnv}.

Definition by_cmds (p : bool) (s s' : Store) : Prop :=
  ∃ cs, Forall (λ c, issues p c = true) cs ∧ s' = fold_left exec_cmd cs s.

Record frame (p : bool) (a a' : App) : Prop := {
  fr_store : by_cmds p (store a) (store a');
  fr_clock : clock a' = clock a;
  fr_answer : answer_lock a' = answer_lock a;
  fr_loops : loop_locks a' = loop_locks a;
}.

Lemma by_cmds_refl p s : by_cmds p s s.
Proof using Type. by exists []. Qed.
Lemma by_cmds_trans p s1 s2 s3 : by_cmds p s1 s2 → by_cmds p s2 s3 → by_cmds p s1 s3.
Proof using Type.
  intros (c1 & H1 & ->) (c2 & H2 & ->). exists (c1 ++ c2). split; [by apply Forall_app|]. by rw fold_left_app.
Qed.
Lemma by_cmd p c s : issues p c = true → by_cmds p s (exec_cmd s c).
Proof using Type. exists [c]. split; [by constructor|done]. Qed.

Lemma frame_refl p a : frame p a a.
Proof using Type. split; auto using by_cmds_refl. Qed.
Lemma frame_trans p a1 a2 a3 : frame p a1 a2 → frame p a2 a3 → frame p a1 a3.
Proof using Type. intros [] []. split; [by eapply by_cmds_trans|congruence..]. Qed.

(** The frame of a writer command. *)
Lemma frame_write {A} p c (f : Store → Store * result A StoreError) a :
  issues p c = true → exec_cmd (store a) c = Store.settle (store a) (f (store a)) → frame p a (write f a).1.
Proof using Type. intros Hc He. split; try done. cbn [write fst set_store store]. rw -He. by apply by_cmd. Qed.
Lemma frame_write_ {A} p c (f : Store → Store * A) a :
  issues p c = true → exec_cmd (store a) c = (f (store a)).1 → frame p a (write_ f a).1.
Proof using Type. intros Hc He. split; try done. cbn [write_ fst set_store store]. rw -He. by apply by_cmd. Qed.
Lemma frame_write_only p c f a :
  issues p c = true → exec_cmd (store a) c = f (store a) → frame p a (write_only f a).
Proof using Type. intros Hc He. split; try done. cbn [write_only set_store store]. rw -He. by apply by_cmd. Qed.

(** Folds. *)
Lemma frame_fold {A} p (f : App → A → App) l a : (∀ a x, frame p a (f a x)) → frame p a (fold_left f l a).
Proof using Type.
  intros Hf. revert a. induction l as [|x l IH]; intros a; simpl; [apply frame_refl|].
  by eapply frame_trans; [|apply IH].
Qed.
Lemma frame_fold_pair {A B} p (f : App * B → A → App * B) l ab :
  (∀ ab x, frame p ab.1 (f ab x).1) → frame p ab.1 (fold_left f l ab).1.
Proof using Type.
  intros Hf. revert ab. induction l as [|x l IH]; intros ab; simpl; [apply frame_refl|].
  by eapply frame_trans; [|apply IH].
Qed.

(** Updates of what the frame does not mention. *)
Lemma frame_index p f a : frame p a (on_index f a). Proof using Type. split; auto using by_cmds_refl. Qed.
Lemma frame_supervisor p f a : frame p a (on_supervisor f a). Proof using Type. split; auto using by_cmds_refl. Qed.
Lemma frame_set_supervisor p x a : frame p a (set_supervisor x a). Proof using Type. split; auto using by_cmds_refl. Qed.
Lemma frame_timer p f a : frame p a (App.on_timer f a). Proof using Type. split; auto using by_cmds_refl. Qed.
Lemma frame_push p t e a : frame p a (push_timer t e a). Proof using Type. split; auto using by_cmds_refl. Qed.
Lemma frame_schedules p x a : frame p a (set_schedules x a). Proof using Type. split; auto using by_cmds_refl. Qed.
Lemma frame_put p row a : frame p a (put_schedule row a). Proof using Type. split; auto using by_cmds_refl. Qed.
Lemma frame_set_pause p x a : frame p a (set_pause x a). Proof using Type. split; auto using by_cmds_refl. Qed.
Lemma frame_slot p x a : frame p a (set_dep_slot x a). Proof using Type. split; auto using by_cmds_refl. Qed.
Lemma frame_emitted p x a : frame p a (set_backfill_emitted x a). Proof using Type. split; auto using by_cmds_refl. Qed.
Lemma frame_rules p f a : frame p a (on_rules f a). Proof using Type. split; auto using by_cmds_refl. Qed.
Lemma frame_halt p h a : frame p a (halt h a). Proof using Type. split; auto using by_cmds_refl. Qed.
Lemma frame_emit p x a : frame p a (emit x a). Proof using Type. split; auto using by_cmds_refl. Qed.
Lemma frame_task p x a : frame p a (start_task x a). Proof using Type. split; auto using by_cmds_refl. Qed.
End frame.

#[export] Hint Resolve frame_index frame_supervisor frame_set_supervisor frame_timer frame_push
  frame_schedules frame_put frame_set_pause frame_slot frame_emitted frame_rules frame_halt frame_emit
  frame_task : handlers.

(** The state of a run is not Paused. *)
Ltac not_paused := first [reflexivity | apply orb_true_r | by rw orb_true_r].

(** One step through a handler's body: a branch is a case, a binding of the
    state is a new state in the frame, and the outermost call is peeled off. *)
Ltac frame_here :=
  match goal with
  | |- frame _ ?a ?b => constr_eq a b; apply frame_refl
  | H : frame _ ?a ?b |- frame _ ?c ?d => constr_eq a c; constr_eq b d; exact H
  end.
Ltac frame_step :=
  first [frame_here|
  lazymatch goal with
  | |- frame ?p ?a (let x : ?T := ?e in @?b x) =>
      lazymatch T with
      | App => let H := fresh "Hf" in
               assert (frame p a e) as H; [|revert H; generalize e; intros ? H; cbv beta]
      | _ => generalize e; intros ?; cbv beta
      end
  | |- frame ?p ?a (let x : ?T := ?e in @?b x).1 =>
      lazymatch T with
      | App => let H := fresh "Hf" in
               assert (frame p a e) as H; [|revert H; generalize e; intros ? H; cbv beta]
      | _ => generalize e; intros ?; cbv beta
      end
  | |- frame ?p ?a (match ?e with _ => _ end) =>
      lazymatch type of e with
      | (App * _)%type => let H := fresh "Hf" in
               assert (frame p a e.1) as H; [|revert H; destruct e; cbn [fst]; intros H]
      | _ => destruct e
      end
  | |- frame ?p ?a (match ?e with _ => _ end).1 =>
      lazymatch type of e with
      | (App * _)%type => let H := fresh "Hf" in
               assert (frame p a e.1) as H; [|revert H; destruct e; cbn [fst]; intros H]
      | _ => destruct e
      end
  | |- frame _ _ (_, _).1 => cbn [fst]
  | |- frame _ _ (fold_left _ _ _).1 => eapply frame_trans; [|apply frame_fold_pair; intros ? ?]
  | |- frame _ _ (fold_left _ _ _) => eapply frame_trans; [|apply frame_fold; intros ? ?]
  | |- _ => eapply frame_trans; [|solve [eauto with handlers nocore]]
  end].
Ltac frames := solve [repeat frame_step].

(** The recursive entry points obey the frame. *)
Record ops_ok `{StoreEnv} (p : bool) (o : Ops) : Prop := {
  ok_event : ∀ e a, frame p a (op_on_event o e a);
  ok_transition : ∀ rid st force a, may_pause p st = true → frame p a (op_transition_run o rid st force a).1;
  ok_enqueue : ∀ run flow nb a, frame p a (op_enqueue_run o run flow nb a);
}.

Section app.
Context `{StoreEnv, PoolEnv, ServerEnv} (p : bool) (ops : Ops) (Hops : ops_ok p ops).

Lemma ops_event e a : frame p a (op_on_event ops e a).
Proof using Hops. apply Hops. Qed.
Lemma ops_enqueue run flow nb a : frame p a (op_enqueue_run ops run flow nb a).
Proof using Hops. apply Hops. Qed.
#[local] Hint Resolve ops_event ops_enqueue : handlers.

Lemma fr_dep_graph a : frame p a (dep_graph a).1.
Proof using Type. rw /dep_graph. frames. Qed.
Lemma fr_ensure a : frame p a (App.ensure_capacity a).
Proof using Type. rw /App.ensure_capacity. frames. Qed.
Lemma fr_publish_schedule sid a : frame p a (publish_schedule sid a).
Proof using Type. rw /publish_schedule. frames. Qed.
Lemma fr_publish_run run a : frame p a (publish_run run a).
Proof using Type. rw /publish_run. frames. Qed.
#[local] Hint Resolve fr_dep_graph fr_ensure fr_publish_schedule fr_publish_run : handlers.

Lemma fr_append e a : frame p a (write (append_event (clock a) e) a).1.
Proof using Type. by eapply (frame_write _ (CStore (SEvent (clock a) e))). Qed.
Lemma fr_record_full e a : frame p a (record_event_full ops e a).1.
Proof using Hops.
  rw /record_event_full. pose proof (fr_append e a) as Hw.
  destruct (write _ a) as [a1 [[ev i]|er]]; cbn [fst] in *; [|done].
  rw /after_event. frames.
Qed.
#[local] Hint Resolve fr_record_full : handlers.
Lemma fr_record name rid fid v a : frame p a (record_event ops name rid fid v a).1.
Proof using Hops.
  rw /record_event. frames.
Qed.
#[local] Hint Resolve fr_record : handlers.
Lemma fr_engine_event name rid fid v a : frame p a (record_engine_event ops name rid fid v a).
Proof using Hops. rw /record_engine_event. frames. Qed.
#[local] Hint Resolve fr_engine_event : handlers.
Lemma fr_recovered run a : frame p a (emit_recovered ops run a).
Proof using Hops. rw /emit_recovered. frames. Qed.
#[local] Hint Resolve fr_recovered : handlers.
Lemma fr_run_event run a : frame p a (emit_run_event ops run a).
Proof using Hops. rw /emit_run_event. frames. Qed.
#[local] Hint Resolve fr_run_event : handlers.
Lemma fr_run_created run a : frame p a (run_created ops run a).
Proof using Hops. rw /run_created. frames. Qed.

Lemma fr_release run a : frame p a (release_run run a).
Proof using Type. rw /release_run. frames. Qed.
Lemma fr_detach run a : frame p a (detach_paused run a).
Proof using Type.
  rw /detach_paused. destruct (st_eqb _ _); [|frames]. cbv zeta.
  eapply frame_trans; [by eapply (frame_write_only _ (CSetEngine (run_id run) None None))|frames].
Qed.
Lemma fr_kv_delete key a : frame p a (write_ (kv_delete key) a).1.
Proof using Type. by eapply (frame_write_ _ (CKvDelete key)). Qed.
Lemma fr_kv_set now key value a : frame p a (write_only (kv_set now key value) a).
Proof using Type. by eapply (frame_write_only _ (CKvSet now key value)). Qed.
#[local] Hint Resolve fr_release fr_detach fr_kv_delete fr_kv_set : handlers.
Lemma fr_clear_answers run a : frame p a (clear_answers run a).
Proof using Type. rw /clear_answers. frames. Qed.
Lemma fr_adopt run a : frame p a (adopt_unknown run a).
Proof using Type. rw /adopt_unknown. frames. Qed.
#[local] Hint Resolve fr_clear_answers fr_adopt : handlers.

Lemma fr_transition after rid st force a :
  may_pause p st = true → (∀ run prev a, frame p a (after run prev a)) →
  frame p a (transition_run ops after rid st force a).1.
Proof using Hops.
  intros Hst Hafter. rw /transition_run. destruct (get_run rid (store a)) as [previous|]; [|frames].
  assert (frame p a (write (Store.transition TableRun rid st force) a).1) as Hw.
  { by eapply (frame_write _ (CStore (STransition TableRun rid st force))). }
  destruct (write _ a) as [a1 [new|e]]; cbn [fst] in Hw.
  - do 7 frame_step; try frames.
  - destruct e; frames.
Qed.
End app.

#[export] Hint Resolve ops_event ops_enqueue fr_dep_graph fr_ensure fr_publish_schedule fr_publish_run
  fr_record_full fr_record fr_engine_event fr_run_event fr_run_created fr_release fr_detach fr_kv_delete
  fr_kv_set fr_clear_answers fr_adopt : handlers.

(** ** Locks *)

Section locks.
Context `{StoreEnv} {A : Type} (p : bool) (stuck : A) (f : App → App * A).

Lemma frame_loop_lock sid a : (∀ a, frame p a (f a).1) → frame p a (with_loop_lock sid stuck f a).1.
Proof using Type.
  intros Hf. rw /with_loop_lock. case_bool_decide as Hin; [cbn [fst]; apply frame_halt|].
  destruct (Hf (set_loop_locks ({[stripe sid]} ∪ loop_locks a) a)) as [Hs Hc Ha Hl].
  destruct (f _) as [a1 x]. cbn [fst] in *. split; [exact Hs|exact Hc|exact Ha|].
  cbn [set_loop_locks loop_locks] in *. rw Hl. set_solver.
Qed.
Lemma frame_answer_lock a : (∀ a, frame p a (f a).1) → frame p a (with_answer_lock stuck f a).1.
Proof using Type.
  intros Hf. rw /with_answer_lock. destruct (answer_lock a) eqn:E; [cbn [fst]; apply frame_halt|].
  destruct (Hf (set_answer_lock true a)) as [Hs Hc Ha Hl].
  destruct (f _) as [a1 x]. cbn [fst] in *. split; [exact Hs|exact Hc|by rw E|exact Hl].
Qed.
End locks.

(** ** The scheduler *)

Section scheduler.
Context `{StoreEnv, PoolEnv, ServerEnv, ScheduleEnv} (p : bool) (ops : Ops) (Hops : ops_ok p ops).

Lemma fr_arm_run rid due skipped a : frame p a (arm_run rid due skipped a).
Proof using Type. rw /arm_run. frames. Qed.
#[local] Hint Resolve fr_arm_run : handlers.

Lemma fr_create now c a :
  (∀ st, cr_initial_state c = Some st → may_pause p st = true) → cr_initial_state c ≠ None →
  frame p a (write (create_run now c) a).1.
Proof using Type.
  intros Hp Hn. eapply (frame_write _ (CStore (SCreateRun now c))); [|done]. cbn [issues].
  destruct (cr_initial_state c) as [st|]; [by apply Hp|done].
Qed.
Lemma scheduled_may now : may_pause p (State_new now Scheduled) = true.
Proof using Type. by rw /may_pause orb_true_r. Qed.

Lemma fr_create_scheduled flow row t by_ skip u a :
  frame p a (create_scheduled_run ops flow row t by_ skip u a).1.
Proof using Hops.
  rw /create_scheduled_run. cbv zeta.
  match goal with |- context [write (create_run ?n ?c) a] =>
    assert (frame p a (write (create_run n c) a).1) as Hw by
      (apply fr_create; [intros st; cbn [cr_initial_state]; intros [= <-]; destruct skip; not_paused|done]);
    destruct (write (create_run n c) a) as [a1 [[rid i]|e]] end; cbn [fst] in Hw |- *; [|done].
  frames.
Qed.
#[local] Hint Resolve fr_create_scheduled : handlers.

Lemma fr_look_ahead room flow row skips h c n ex a : frame p a (look_ahead ops room flow row skips h c n ex a).1.
Proof using Hops.
  revert c n ex a. induction room as [|room IH]; intros c n ex a; cbn [look_ahead]; [frames|].
  destruct (_ || _); [|frames]. destruct (next_after _ _ _) as [[next|]|]; [|frames..].
  destruct (next <=? c); [frames|]. cbv zeta.
  match goal with |- context [create_scheduled_run ops flow row next ?b ?s ?u a] =>
    pose proof (fr_create_scheduled flow row next b s u a) as Hw;
    destruct (create_scheduled_run ops flow row next b s u a) as [a1 [run|]] end; cbn [fst] in *; [|done].
  by eapply frame_trans; [|apply IH].
Qed.
#[local] Hint Resolve fr_look_ahead : handlers.
Lemma fr_arm_mark row flow a m : frame p a (arm_mark row flow a m).
Proof using Type. rw /arm_mark. frames. Qed.
#[local] Hint Resolve fr_arm_mark : handlers.
Lemma fr_skips_before sid t a : frame p a (write_only (delete_skips_before sid t) a).
Proof using Type. by eapply (frame_write_only _ (CDeleteSkipsBefore sid t)). Qed.
Lemma fr_delete_skips sid l a : frame p a (write_ (delete_skips sid l) a).1.
Proof using Type. by eapply (frame_write_ _ (CDeleteSkips sid l)). Qed.
Lemma fr_sync_marks sid a : frame p a (write_ (sync_skip_marks sid) a).1.
Proof using Type. by eapply (frame_write_ _ (CSyncSkipMarks sid)). Qed.
Lemma fr_add_skips now sid l by_ a : frame p a (write (add_skips now sid l by_) a).1.
Proof using Type. by eapply (frame_write _ (CAddSkips now sid l by_)). Qed.
Lemma fr_delete_unstarted sid a : frame p a (write_ (delete_unstarted_runs sid) a).1.
Proof using Type. by eapply (frame_write_ _ (CDeleteUnstarted sid)). Qed.
Lemma fr_patch now sid x a : frame p a (write_ (patch_schedule now sid x) a).1.
Proof using Type. by eapply (frame_write_ _ (CPatchSchedule now sid x)). Qed.
Lemma fr_delete_schedule_row sid a : frame p a (write_ (StoreAdmin.delete_schedule sid) a).1.
Proof using Type. by eapply (frame_write_ _ (CDeleteSchedule sid)). Qed.
Lemma fr_upsert_schedule now w a : frame p a (write (upsert_schedule now w) a).1.
Proof using Type. by eapply (frame_write _ (CUpsertSchedule now w)). Qed.
Lemma fr_reschedule rid t x a : frame p a (write (reschedule_run rid t x) a).1.
Proof using Type. by eapply (frame_write _ (CReschedule rid t x)). Qed.
#[local] Hint Resolve fr_skips_before fr_delete_skips fr_sync_marks fr_add_skips fr_delete_unstarted fr_patch
  fr_delete_schedule_row fr_upsert_schedule fr_reschedule : handlers.

Lemma fr_materialize_fires row flow a : frame p a (materialize_fires ops row flow a).
Proof using Hops. rw /materialize_fires. frames. Qed.
Lemma fr_seed row flow delay a : frame p a (seed_continuous ops row flow delay a).
Proof using Hops. rw /seed_continuous. apply frame_loop_lock. intros a'. frames. Qed.
#[local] Hint Resolve fr_materialize_fires fr_seed : handlers.
Lemma fr_materialize sid a : frame p a (materialize ops sid a).
Proof using Hops. rw /materialize. frames. Qed.
Lemma fr_catch_up row l now a : frame p a (catch_up ops row l now a).
Proof using Hops. rw /catch_up. frames. Qed.
Lemma fr_lost_skips row a : frame p a (drop_lost_skips ops row a).
Proof using Hops. rw /drop_lost_skips. frames. Qed.
Lemma fr_apply_mark a id : frame p a (apply_mark a id).
Proof using Type. rw /apply_mark. frames. Qed.
#[local] Hint Resolve fr_materialize fr_catch_up fr_lost_skips fr_apply_mark : handlers.
Lemma fr_apply_skips sid a : frame p a (apply_skips ops sid a).
Proof using Hops. rw /apply_skips. frames. Qed.
#[local] Hint Resolve fr_apply_skips : handlers.
Lemma fr_skip_fires row fires n by_ a : frame p a (skip_fires ops row fires n by_ a).1.
Proof using Hops. rw /skip_fires. frames. Qed.
Lemma fr_unskip sid fire a : frame p a (unskip_fire ops sid fire a).1.
Proof using Hops. rw /unskip_fire. frames. Qed.
Lemma fr_end_skipped run a : frame p a (end_skipped ops run a).
Proof using Hops.
  rw /end_skipped. cbv zeta.
  match goal with |- context [op_transition_run ops ?r ?s ?f a] =>
    assert (frame p a (op_transition_run ops r s f a).1) as Hw by (apply Hops; not_paused);
    destruct (op_transition_run ops r s f a) as [a1 x] end. cbn [fst] in Hw. frames.
Qed.
Lemma fr_drop_one a id : frame p a (drop_one a id).
Proof using Type. rw /drop_one. frames. Qed.
#[local] Hint Resolve fr_end_skipped fr_drop_one : handlers.
Lemma fr_drop_unstarted sid a : frame p a (drop_unstarted sid a).
Proof using Type. rw /drop_unstarted. frames. Qed.
#[local] Hint Resolve fr_drop_unstarted : handlers.
Lemma fr_rebuild sid a : frame p a (rebuild ops sid a).
Proof using Hops. rw /rebuild. frames. Qed.
#[local] Hint Resolve fr_rebuild : handlers.
Lemma fr_pause_schedule sid r u a : frame p a (pause_schedule ops sid r u a).
Proof using Hops. rw /pause_schedule. frames. Qed.
Lemma fr_resume_schedule sid a : frame p a (resume_schedule ops sid a).
Proof using Hops. rw /resume_schedule. frames. Qed.
Lemma fr_delete_schedule sid a : frame p a (Scheduler.delete_schedule sid a).1.
Proof using Type. rw /Scheduler.delete_schedule. frames. Qed.
Lemma fr_pause_all r u sr a : frame p a (pause_all ops r u sr a).1.
Proof using Hops. rw /pause_all. frames. Qed.
Lemma fr_restore a : frame p a (restore_pause a).1.
Proof using Type. rw /restore_pause. frames. Qed.
Lemma fr_release_held now m ac id : frame p ac.1 (release_held now m ac id).1.
Proof using Type. destruct ac as [a n]. rw /release_held. frames. Qed.
#[local] Hint Resolve fr_pause_schedule fr_resume_schedule fr_pause_all fr_restore fr_release_held : handlers.
Lemma fr_resume_one since now a row : frame p a (resume_one ops since now a row).
Proof using Hops. rw /resume_one. frames. Qed.
#[local] Hint Resolve fr_resume_one : handlers.
Lemma fr_resume_all a : frame p a (resume_all ops a).1.
Proof using Hops. rw /resume_all. frames. Qed.
Lemma fr_join_now sid a : frame p a (join_now ops sid a).1.
Proof using Hops.
  rw /join_now.
  match goal with |- context [with_loop_lock sid ?stuck ?f a] =>
    assert (frame p a (with_loop_lock sid stuck f a).1) as Hw by (apply frame_loop_lock; intros a'; frames);
    destruct (with_loop_lock sid stuck f a) as [a1 r] end.
  cbn [fst] in Hw. frames.
Qed.
Lemma fr_sync_decls flow ex i decls ch a : frame p a (sync_decls flow ex i decls ch a).1.
Proof using Type.
  revert i ch a. induction decls as [|d decls IH]; intros i ch a; cbn [sync_decls]; [frames|].
  destruct (validate _); [|frames]. destruct (find _ _) as [row|]; [destruct (sr_persist row); [apply IH|]|];
    match goal with |- context [write (upsert_schedule ?n ?w) a] =>
      pose proof (fr_upsert_schedule n w a) as Hw; destruct (write (upsert_schedule n w) a) as [a1 []] end;
    cbn [fst] in *; try done; (eapply frame_trans; [exact Hw|apply IH]).
Qed.
#[local] Hint Resolve fr_sync_decls : handlers.
Lemma fr_sync_code flow decls a : frame p a (sync_code_schedules flow decls a).1.
Proof using Type. rw /sync_code_schedules. frames. Qed.
End scheduler.

#[export] Hint Resolve fr_arm_run fr_create_scheduled fr_look_ahead fr_arm_mark fr_skips_before fr_delete_skips
  fr_sync_marks fr_add_skips fr_delete_unstarted fr_patch fr_delete_schedule_row fr_upsert_schedule
  fr_reschedule fr_materialize_fires fr_seed fr_materialize fr_catch_up fr_lost_skips fr_apply_mark
  fr_apply_skips fr_skip_fires fr_unskip fr_end_skipped fr_drop_one fr_drop_unstarted fr_rebuild
  fr_pause_schedule fr_resume_schedule fr_delete_schedule fr_pause_all fr_restore fr_release_held
  fr_resume_one fr_resume_all fr_join_now fr_sync_decls fr_sync_code : handlers.

(** ** Waits *)

(** A transition whose state is not Paused, with the rest of the handler. *)
Ltac frame_transition Hops :=
  match goal with |- context [op_transition_run ?o ?r ?s ?f ?a] =>
    let Hw := fresh "Hw" in
    assert (frame _ a (op_transition_run o r s f a).1) as Hw by (apply Hops; not_paused);
    destruct (op_transition_run o r s f a) as [? ?]; cbn [fst] in Hw |- *
  end.

Section waits.
Context `{StoreEnv, PoolEnv, ServerEnv, RowEnv, JinjaEnv} (p : bool) (ops : Ops) (Hops : ops_ok p ops).

Lemma fr_wake_locked run input a : frame p a (wake_locked ops run input a).1.
Proof using Hops.
  rw /wake_locked. destruct (get_flow _ _) as [flow|]; [|frames]. cbv zeta.
  match goal with |- context [write_only ?f a] =>
    pose proof (fr_kv_set p (clock a) (run_input_key (run_id run))
      (answers_value (map_insert (dec (wait_index run))
         (VObject [("input", input); ("prompt", default VNull (map_get "prompt" (state_details_of run)));
                   ("topic", default VNull (map_get "topic" (state_details_of run)))])
         (stored_answers (run_id run) (store a)))) a) as Hk;
    revert Hk; generalize (write_only f a); intros a1 Hk end.
  frame_transition Hops. eapply frame_trans; [exact Hk|]. frames.
Qed.
#[local] Hint Resolve fr_wake_locked : handlers.
Lemma fr_wake_paused observed input a :
  (∀ run a, frame p a (input run a).1) → frame p a (wake_paused ops observed input a).1.
Proof using Hops.
  intros Hi. rw /wake_paused. apply frame_answer_lock. intros a'.
  destruct (get_run _ _) as [run|]; [|frames]. destruct (_ || _); [frames|].
  specialize (Hi run a'). destruct (input run a') as [a1 [v|]]; cbn [fst] in *; [|done]. frames.
Qed.
Lemma fr_wake_with observed v a : frame p a (wake_paused ops observed (answer_with v) a).1.
Proof using Hops. apply fr_wake_paused. intros. apply frame_refl. Qed.
#[local] Hint Resolve fr_wake_with : handlers.
Lemma fr_message now rid t x a : frame p a (write (run_message_insert now rid t x) a).1.
Proof using Type. by eapply (frame_write _ (CMessage now rid t x)). Qed.
Lemma fr_claim now rid t i q a : frame p a (write_ (run_message_claim now rid t i q) a).1.
Proof using Type. by eapply (frame_write_ _ (CClaim now rid t i q)). Qed.
#[local] Hint Resolve fr_message fr_claim : handlers.
Lemma fr_deliver_message rid topic v a : frame p a (deliver_message ops rid topic v a).1.
Proof using Hops. rw /deliver_message. apply frame_answer_lock. intros a'. frames. Qed.
Lemma fr_arm run a : frame p a (arm run a).
Proof using Type. rw /arm. frames. Qed.
Lemma fr_deliver_queued run a : frame p a (deliver_queued run a).
Proof using Type. rw /deliver_queued. frames. Qed.
Lemma fr_deliver_recorded run prev a : frame p a (deliver_recorded_event run prev a).
Proof using Type. rw /deliver_recorded_event. frames. Qed.
Lemma fr_claim_input run a : frame p a (claim_input run a).1.
Proof using Type. rw /claim_input. frames. Qed.
#[local] Hint Resolve fr_arm fr_deliver_queued fr_deliver_recorded : handlers.
Lemma fr_queued_body run a : frame p a (deliver_queued_body ops run a).
Proof using Hops. apply fr_wake_paused. intros. apply fr_claim_input. Qed.
Lemma fr_recorded_body run pat since a : frame p a (deliver_recorded_body ops run pat since a).
Proof using Hops. rw /deliver_recorded_body. frames. Qed.
Lemma fr_rearm_one a r : frame p a (rearm_one a r).
Proof using Type. rw /rearm_one. frames. Qed.
#[local] Hint Resolve fr_rearm_one : handlers.
Lemma fr_rearm_all a : frame p a (rearm_all a).
Proof using Type. rw /rearm_all. frames. Qed.
Lemma fr_on_timer rid a : frame p a (Waits.on_timer ops rid a).
Proof using Hops.
  rw /Waits.on_timer. destruct (get_run _ _) as [run|]; [|frames].
  destruct (negb _); [frames|]. destruct (match get_i64 _ _ with Some _ => _ | None => _ end); [frames|].
  apply fr_wake_paused. intros. apply frame_refl.
Qed.
Lemma fr_wake_waiter e a rid : frame p a (wake_waiter ops e a rid).
Proof using Hops. rw /wake_waiter. frames. Qed.
#[local] Hint Resolve fr_wake_waiter : handlers.
Lemma fr_waits_event e a : frame p a (Waits.on_event ops e a).
Proof using Hops. rw /Waits.on_event. frames. Qed.
End waits.

#[export] Hint Resolve fr_wake_locked fr_wake_with fr_message fr_claim fr_deliver_message fr_arm fr_deliver_queued
  fr_deliver_recorded fr_queued_body fr_recorded_body fr_rearm_all fr_on_timer fr_waits_event : handlers.
