(* ===== verification/ServerLaws.v ===== *)
(** * The server keeps the frame

    Dispatch, the rules engine and the timer handler obey [frame], for any
    fuel of the knot; what follows for the store, the pauses of runs, the
    answers to them and the locks. *)

From S2P Require Import Prelude Float64 Json States Transitions Timer Schedules Model DepGraph Events Unique.
From S2P Require Import RuleMatching RuleTemplates ActiveIndex Resources WorkQueue Pool GroupCommit Tables.
From S2P Require Import Store Reader StoreAdmin Integrity RuleReader Validate App Scheduler Waits Dispatch.
From S2P Require Import RulesEngine Server HandlerLaws.

(** A run created in a state that is not Paused, with the rest of the handler. *)
Ltac frame_create :=
  match goal with |- frame ?q _ ?t => match t with context [write (create_run ?n ?c) ?a] =>
    let Hw := fresh "Hw" in
    assert (frame q a (write (create_run n c) a).1) as Hw by
      (apply fr_create; [intros ?; cbn [cr_initial_state]; intros [= <-]; not_paused|done]);
    destruct (write (create_run n c) a) as [? [[? ?]|?]]; cbn [fst] in Hw |- *
  end end.

Section dispatch.
Context `{StoreEnv, PoolEnv, ServerEnv, ScheduleEnv, ReaderEnv, RowEnv} (p : bool) (ops : Ops)
  (Hops : ops_ok p ops).

Lemma fr_effective flow run a : frame p a (effective_priority flow run a).1.
Proof using Type. rw /effective_priority. frames. Qed.
#[local] Hint Resolve fr_effective : handlers.
Lemma fr_supersede_one flow run a r : frame p a (supersede_one ops flow run a r).
Proof using Hops.
  rw /supersede_one. cbv zeta. destruct (_ || _); [frames|]. destruct (_ || _); frame_transition Hops; frames.
Qed.
#[local] Hint Resolve fr_supersede_one : handlers.
Lemma fr_supersede flow run a : frame p a (supersede ops flow run a).
Proof using Hops. rw /supersede. frames. Qed.
#[local] Hint Resolve fr_supersede : handlers.
Lemma fr_skip_run flow run s r a : may_pause p s = true → frame p a (skip_run ops flow run s r a).
Proof using Hops.
  intros Hs. rw /skip_run. cbv zeta. pose proof (ok_transition _ _ Hops (run_id run) s false a Hs) as Hw.
  destruct (op_transition_run _ _ _ _ _); cbn [fst] in *. frames.
Qed.
Lemma fr_overlap flow run policy a : frame p a (overlap ops flow run policy a).1.
Proof using Hops.
  rw /overlap. destruct (_ =?s _); [cbn [fst]; apply fr_skip_run; not_paused|].
  destruct (_ =?s _); [cbn [fst]; frame_transition Hops; frames|]. destruct (_ =?s _); [frames|].
  destruct (_ =?s _); [|frames]. destruct (one_waits _ _ _); [|frames]. cbn [fst]. apply fr_skip_run; not_paused.
Qed.
#[local] Hint Resolve fr_overlap : handlers.
Lemma fr_admit flow o run a : frame p a (admission ops flow o run a).1.
Proof using Hops. rw /admission. frames. Qed.
Lemma fr_set_priority rid x a : frame p a (write_only (set_run_priority rid x) a).
Proof using Type. by eapply (frame_write_only _ (CSetPriority rid x)). Qed.
#[local] Hint Resolve fr_admit fr_set_priority : handlers.
Lemma fr_queue_run flow o run nb a : frame p a (queue_run flow o run nb a).
Proof using Type. rw /queue_run. frames. Qed.
#[local] Hint Resolve fr_queue_run : handlers.
Lemma fr_enqueue_run run flow nb a : frame p a (enqueue_run ops run flow nb a).
Proof using Hops. rw /enqueue_run. frames. Qed.
Lemma fr_backfill b fid a : frame p a (backfill_completed ops b fid a).
Proof using Hops. rw /backfill_completed. frames. Qed.
#[local] Hint Resolve fr_enqueue_run fr_backfill : handlers.

Lemma fr_bump rid a : frame p a (write_ (bump_lease rid) a).1.
Proof using Type. by eapply (frame_write_ _ (CBumpLease rid)). Qed.
Lemma fr_crash_run rid m a : frame p a (crash_run ops rid m a).
Proof using Hops.
  rw /crash_run. destruct (get_run _ _) as [run|]; [|frames]. destruct (get_flow _ _) as [flow|]; [|frames].
  cbv zeta. pose proof (fr_bump rid a) as Hb. destruct (write_ (bump_lease rid) a) as [a1 x]. cbn [fst] in *.
  destruct (_ <? _); frame_transition Hops; (eapply frame_trans; [exact Hb|]); frames.
Qed.
Lemma fr_rearm_chain a rid : frame p a (rearm_crash_chain a rid).
Proof using Type. rw /rearm_crash_chain. frames. Qed.
#[local] Hint Resolve fr_crash_run fr_rearm_chain : handlers.
Lemma fr_rearm_chains a : frame p a (rearm_crash_chains a).
Proof using Type. rw /rearm_crash_chains. frames. Qed.
Lemma fr_crash_rerun rid a : frame p a (crash_rerun ops rid a).
Proof using Hops.
  rw /crash_rerun. destruct (get_run _ _) as [crashed|]; [|frames]. destruct (_ || _); [frames|].
  destruct (get_flow _ _) as [flow|]; [|frames]. frame_create; frames.
Qed.
Lemma fr_flow_timeout rid a : frame p a (flow_timeout ops rid a).
Proof using Hops.
  rw /flow_timeout. destruct (ActiveIndex.get _ _) as [act|]; [|frames]. destruct (negb _); [frames|].
  destruct (get_run _ _) as [run|]; [|frames]. destruct (get_flow _ _) as [flow|]; [|frames].
  cbv zeta. frame_transition Hops. frames.
Qed.
Lemma fr_disable_one until ap row : frame p ap.1 (disable_one ops until ap row).1.
Proof using Hops. destruct ap as [a b]. rw /disable_one. cbn [fst]. frames. Qed.
#[local] Hint Resolve fr_disable_one : handlers.
Lemma fr_disable_window flow run a : frame p a (disable_window ops flow run a).
Proof using Hops. rw /disable_window. frames. Qed.
#[local] Hint Resolve fr_disable_window : handlers.

Lemma fr_debounce holder params spec a : frame p a (debounce_holder holder params spec a).1.
Proof using Type. rw /debounce_holder. frames. Qed.
#[local] Hint Resolve fr_debounce : handlers.
Lemma downstream_may now skip run : may_pause p (downstream_state now skip run) = true.
Proof using Type. rw /downstream_state. destruct skip; not_paused. Qed.
Lemma fr_create_downstream d after ev skip run a : frame p a (create_downstream d after ev skip run a).1.
Proof using Type.
  rw /create_downstream. destruct (unique_check_for _ _ _ _) as [check|]; [|frames]. cbv zeta.
  match goal with |- context [write (create_run ?n ?c) a] =>
    assert (frame p a (write (create_run n c) a).1) as Hw by
      (apply fr_create; [intros ?; cbn [cr_initial_state]; intros [= <-]; apply downstream_may|done]);
    destruct (write (create_run n c) a) as [a1 [[? ?]|e]] end; cbn [fst] in Hw |- *; [frames|].
  destruct e; frames.
Qed.
#[local] Hint Resolve fr_create_downstream : handlers.
Lemma fr_trigger_one deeper up run a id :
  (∀ f, deeper = Some f → ∀ d r a, frame p a (f d r a)) → frame p a (trigger_one ops deeper up run a id).
Proof using Hops.
  intros Hd. rw /trigger_one. destruct (get_flow _ _) as [d|]; [|frames].
  destruct (fo_after _) as [after|]; [|frames]. destruct (_ || _); [frames|].
  destruct (match after_key after with Some _ => _ | None => _ end) as [[ev skip]|]; [|frames].
  pose proof (fr_create_downstream d after ev skip run a) as Hc.
  destruct (create_downstream _ _ _ _ _ _) as [a1 [new|]]; cbn [fst] in Hc; [|done].
  destruct ev, skip; try frames; (destruct deeper as [f|]; [|frames]);
    (eapply frame_trans; [|by apply Hd]); frames.
Qed.
Lemma fr_trigger_at n up run a : frame p a (trigger_dependents_at ops n up run a).
Proof using Hops.
  revert up run a. induction n as [|n IH]; intros up run a; cbn [trigger_dependents_at]; frame_step; try frames;
    destruct (_ !! _) as [d|]; try frames; (eapply frame_trans; [done|]); apply frame_fold; intros a' id;
    apply fr_trigger_one; [done|]. intros f [= <-]. apply IH.
Qed.
Lemma fr_trigger up run a : frame p a (trigger_dependents ops up run a).
Proof using Hops. apply fr_trigger_at. Qed.
#[local] Hint Resolve fr_trigger : handlers.
Lemma fr_start_timeout flow run prev a : frame p a (start_timeout flow run prev a).
Proof using Type. rw /start_timeout. frames. Qed.
Lemma fr_forgive flow a : frame p a (forgive flow a).
Proof using Type. rw /forgive. frames. Qed.
Lemma fr_continue run a : frame p a (continue_loop ops run a).
Proof using Hops. rw /continue_loop. frames. Qed.
#[local] Hint Resolve fr_start_timeout fr_forgive fr_continue : handlers.
Lemma fr_after run prev a : frame p a (after_transition ops run prev a).
Proof using Hops. rw /after_transition. frames. Qed.
End dispatch.

#[export] Hint Resolve fr_enqueue_run fr_backfill fr_crash_run fr_rearm_chains fr_crash_rerun fr_flow_timeout
  fr_debounce fr_trigger fr_after fr_set_priority fr_bump : handlers.

(** ** The rules engine *)

Section rules_engine.
Context `{StoreEnv, PoolEnv, ServerEnv, ScheduleEnv, ReaderEnv, RowEnv, JinjaEnv, ActionEnv} (p : bool)
  (ops : Ops) (Hops : ops_ok p ops).

Lemma fr_schedule_clock a rule : frame p a (schedule_clock a rule).
Proof using Type. rw /schedule_clock. frames. Qed.
Lemma fr_disarm_cmd rid key at_ a : frame p a (write_ (disarm_expectations rid key at_) a).1.
Proof using Type. by eapply (frame_write_ _ (CDisarm rid key at_)). Qed.
Lemma fr_arm_cmd x a : frame p a (write (arm_expectation x) a).1.
Proof using Type. by eapply (frame_write _ (CArm x)). Qed.
Lemma fr_settle_cmd id st a : frame p a (write_ (settle_expectation id st) a).1.
Proof using Type. by eapply (frame_write_ _ (CSettle id st)). Qed.
Lemma fr_cancel_cmd id a : frame p a (write_ (cancel_rule_expectations id) a).1.
Proof using Type. by eapply (frame_write_ _ (CCancelExpectations id)). Qed.
Lemma fr_event_cmd now e a : frame p a (write (append_event now e) a).1.
Proof using Type. by eapply (frame_write _ (CStore (SEvent now e))). Qed.
Lemma fr_firing_cmd now r e run o a : frame p a (write (record_firing now r e run o) a).1.
Proof using Type. by eapply (frame_write _ (CRecordFiring now r e run o)). Qed.
Lemma fr_update_firing id o a : frame p a (write_only (update_firing id o) a).
Proof using Type. by eapply (frame_write_only _ (CUpdateFiring id o)). Qed.
#[local] Hint Resolve fr_schedule_clock fr_disarm_cmd fr_arm_cmd fr_settle_cmd fr_cancel_cmd fr_event_cmd
  fr_firing_cmd fr_update_firing : handlers.

Lemma fr_load a : frame p a (load a).
Proof using Type. rw /load. frames. Qed.
Lemma fr_restore_clock a rule : frame p a (restore_clock a rule).
Proof using Type. rw /restore_clock. frames. Qed.
#[local] Hint Resolve fr_restore_clock : handlers.
Lemma fr_rules_start a : frame p a (RulesEngine.start a).
Proof using Type. rw /RulesEngine.start. frames. Qed.
Lemma fr_cancel_exp id a : frame p a (cancel_expectations id a).
Proof using Type. rw /cancel_expectations. frames. Qed.
Lemma fr_disarm rule key at_ a : frame p a (disarm rule key at_ a).
Proof using Type. rw /disarm. frames. Qed.
Lemma fr_arm_one rule key rid fid at_ a : frame p a (arm_one rule key rid fid at_ a).
Proof using Type. rw /arm_one. frames. Qed.
#[local] Hint Resolve fr_disarm fr_arm_one : handlers.
Lemma fr_track_rule e ctx key rid fid a rule : frame p a (track_rule e ctx key rid fid a rule).
Proof using Type. rw /track_rule. frames. Qed.
#[local] Hint Resolve fr_track_rule : handlers.
Lemma fr_track e ctx cs a : frame p a (track_expectations e ctx cs a).
Proof using Type. rw /track_expectations. frames. Qed.
Lemma fr_guards rule e ctx a : frame p a (pass_guards rule e ctx a).1.
Proof using Type. rw /pass_guards. frames. Qed.
#[local] Hint Resolve fr_track fr_guards : handlers.
Lemma fr_lapse rule ctx exp a : frame p a (lapse rule ctx exp a).
Proof using Type. rw /lapse. frames. Qed.
#[local] Hint Resolve fr_lapse : handlers.
Lemma fr_due id a : frame p a (expectation_due id a).
Proof using Type. rw /expectation_due. frames. Qed.
Lemma fr_tick id a : frame p a (clock_tick id a).
Proof using Type. rw /clock_tick. frames. Qed.

(** A candidate rule: the plan keeps the state in its first component. *)
Lemma fr_consider e ctx pl rule : frame p pl.1.1 (consider e ctx pl rule).1.1.
Proof using Type.
  destruct pl as [[a f] l]. rw /consider. cbn [fst]. destruct (negb _); [apply frame_refl|]. cbv zeta.
  destruct (negb _); [apply frame_refl|]. destruct (_ && _); [apply frame_refl|].
  pose proof (fr_guards rule e ctx a) as Hg. by destruct (pass_guards _ _ _ _).
Qed.
Lemma fr_consider_all e ctx rs pl : frame p pl.1.1 (fold_left (consider e ctx) rs pl).1.1.
Proof using Type.
  revert pl. induction rs as [|r rs IH]; intros pl; simpl; [apply frame_refl|].
  by eapply frame_trans; [apply fr_consider|apply IH].
Qed.
Lemma fr_start_firing rule e ctx o a : frame p a (start_firing rule e ctx o a).1.
Proof using Type. rw /start_firing. frames. Qed.
Lemma fr_suppress e ctx a rn : frame p a (suppress e ctx a rn).
Proof using Type. apply fr_start_firing. Qed.
#[local] Hint Resolve fr_start_firing fr_suppress : handlers.
Lemma fr_plan e ctx rs a0 a :
  frame p a a0 →
  frame p a (let '(a, to_fire, to_limit) := fold_left (consider e ctx) rs (a0, [], []) in
             match to_fire, to_limit with
             | [], [] => a
             | _, _ => if match pause a with Some q => p_suppress_rules q | None => false end
                       then fold_left (suppress e ctx) (to_fire ++ to_limit) a
                       else start_task (FireRules to_fire to_limit e ctx) a
             end).
Proof using Type.
  intros H0'. pose proof (fr_consider_all e ctx rs (a0, [], [])) as Hc.
  destruct (fold_left (consider e ctx) rs (a0, [], [])) as [[a1 f] l]. cbn [fst] in Hc.
  assert (frame p a a1) as Ha by (by eapply frame_trans). frames.
Qed.
Lemma fr_on_event e a : frame p a (RulesEngine.on_event ops e a).
Proof using Hops.
  unfold RulesEngine.on_event. pose proof (fr_waits_event p ops Hops e a) as Hw. revert Hw.
  generalize (Waits.on_event ops e a). intros a0 Hw. cbv zeta.
  destruct (starts_with (ev_name e) "rule."); [done|]. destruct (candidates _ _) as [|c cs]; [done|].
  apply fr_plan. destruct (starts_with _ _); [done|]. frames.
Qed.
End rules_engine.

#[export] Hint Resolve fr_load fr_rules_start fr_cancel_exp fr_due fr_tick fr_update_firing fr_start_firing
  fr_on_event : handlers.

(** ** The knot *)

Section knot.
Context `{StoreEnv, PoolEnv, ServerEnv, ScheduleEnv, ReaderEnv, RowEnv, JinjaEnv, ActionEnv}.

Lemma ops_frame p n : ops_ok p (ops n).
Proof using Type.
  induction n as [|n IH]; split; cbn [ops op_on_event op_transition_run op_enqueue_run stuck_ops].
  - intros. frames.
  - intros. cbn [fst]. frames.
  - intros. frames.
  - intros. by apply fr_on_event.
  - intros. apply fr_transition; [done|done|]. intros. by apply fr_after.
  - intros. by apply fr_enqueue_run.
Qed.
End knot.

Section server.
Context `{StoreEnv, PoolEnv, ServerEnv, ScheduleEnv, ReaderEnv, RowEnv, JinjaEnv, ActionEnv, HostEnv}
  (p : bool) (o : Ops) (Hops : ops_ok p o).

Lemma fr_on_due rid a : frame p a (on_due o rid a).
Proof using Hops. rw /on_due. frames. Qed.
Lemma fr_on_late rid a : frame p a (on_late_check o rid a).
Proof using Hops.
  rw /on_late_check. destruct (get_run _ _) as [run|]; [|frames]. cbv zeta. destruct (_ && _); [|frames].
  frame_transition Hops. frames.
Qed.
Lemma fr_on_deadline rid a : frame p a (on_start_deadline o rid a).
Proof using Hops.
  rw /on_start_deadline. destruct (get_run _ _) as [run|]; [|frames]. cbv zeta. destruct (_ && _); [|frames].
  frame_transition Hops. frames.
Qed.
Lemma fr_on_resume fid a : frame p a (on_resume_flow o fid a).
Proof using Hops. rw /on_resume_flow. frames. Qed.
Lemma fr_persist a : frame p a (persist_wakeup a).
Proof using Type. rw /persist_wakeup. frames. Qed.
#[local] Hint Resolve fr_on_due fr_on_late fr_on_deadline fr_on_resume fr_persist : handlers.
Lemma fr_handle a e : frame p a (handle o a e).
Proof using Hops. destruct e; cbn [handle]; frames. Qed.
#[local] Hint Resolve fr_handle : handlers.
Lemma fr_set_timer t a : frame p a (set_timer t a).
Proof using Type. apply (frame_timer p (λ _, t)). Qed.
#[local] Hint Resolve fr_set_timer : handlers.
Lemma fr_loop_tick a : frame p a (tick o a).
Proof using Hops. rw /tick. frames. Qed.

Lemma fr_start_row l now acc row : frame p acc.1.1 (start_row o l now acc row).1.1.
Proof using Hops.
  destruct acc as [[a en] op]. rw /start_row. cbn [fst]. cbv zeta. destruct (negb _).
  - destruct (sr_paused_until row); [|cbn [fst]; frames]. case_bool_decide; [|cbn [fst]; frames].
    destruct (_ <=? _); cbn [fst]; frames.
  - cbn [fst]. destruct l; frames.
Qed.
Lemma fr_start_rows l now rows acc : frame p acc.1.1 (fold_left (start_row o l now) rows acc).1.1.
Proof using Hops.
  revert acc. induction rows as [|r rows IH]; intros acc; simpl; [apply frame_refl|].
  by eapply frame_trans; [apply fr_start_row|apply IH].
Qed.
Lemma fr_start_ended l now acc ru : frame p acc.1 (start_ended o l now acc ru).1.
Proof using Hops.
  destruct acc as [a en], ru as [row until]. rw /start_ended. cbn [fst]. cbv zeta. destruct l; frames.
Qed.
Lemma fr_rearm_scheduled a r : frame p a (rearm_scheduled a r).
Proof using Type. rw /rearm_scheduled. frames. Qed.
#[local] Hint Resolve fr_start_ended fr_rearm_scheduled : handlers.
Lemma fr_start_inner b a : frame p a (start_inner o b a).
Proof using Hops.
  unfold start_inner. cbv zeta. pose proof (fr_restore p a) as Hr.
  destruct (restore_pause a) as [a0 q]. cbn [fst] in Hr.
  match goal with |- context [fold_left (start_row o ?l ?n) ?rs ?acc] =>
    pose proof (fr_start_rows l n rs acc) as Hc;
    destruct (fold_left (start_row o l n) rs acc) as [[a1 en] op] end.
  cbn [fst] in Hc. pose proof (frame_trans _ _ _ _ Hr Hc) as Ha. frames.
Qed.
Lemma fr_reconcile_run fs b a run : frame p a (reconcile_run o fs b a run).
Proof using Hops. rw /reconcile_run. frames. Qed.
#[local] Hint Resolve fr_reconcile_run : handlers.
Lemma fr_reconcile a : frame p a (reconcile o a).
Proof using Hops. rw /reconcile. frames. Qed.
End server.

(** ** Tasks *)

Section tasks.
Context `{StoreEnv, PoolEnv, ServerEnv, ScheduleEnv, ReaderEnv, RowEnv, JinjaEnv, ActionEnv}
  (ops : Ops) (Hops : ops_ok true ops).

Lemma fr_any_transition rid st force a : frame true a (op_transition_run ops rid st force a).1.
Proof using Hops. by apply Hops. Qed.
#[local] Hint Resolve fr_any_transition : handlers.
Lemma fr_action_run_flow rule action ctx a : frame true a (action_run_flow ops rule action ctx a).1.
Proof using Hops.
  unfold action_run_flow. destruct (find_flow _ _ _) as [flow|]; [|frames]. cbv zeta.
  destruct (validate_parameters _ _); [|frames]. destruct (unique_check_for _ _ _ _); [|frames].
  match goal with |- context [write (create_run ?n ?c) a] =>
    assert (frame true a (write (create_run n c) a).1) as Hw by (by apply fr_create);
    destruct (write (create_run n c) a) as [a1 [[rid i]|e]] end; cbn [fst] in Hw |- *; [frames|].
  destruct e; frames.
Qed.
Lemma fr_cancel_run rule ctx a : frame true a (action_cancel_run ops rule ctx a).1.
Proof using Hops. rw /action_cancel_run. frames. Qed.
Lemma fr_cancel_one rule action own acc row : frame true acc.1.1 (cancel_one ops rule action own acc row).1.1.
Proof using Hops.
  destruct acc as [[a c] s], row as [[rid x] pid]. rw /cancel_one. case_bool_decide; [apply frame_refl|].
  destruct (negb _); [apply frame_refl|]. destruct (dequeue rid (supervisor a)) as [sup removed]. cbv zeta.
  match goal with |- context [op_transition_run ops rid ?st ?f ?b] =>
    pose proof (fr_any_transition rid st f b) as Hw; destruct (op_transition_run ops rid st f b) as [a1 r] end.
  cbn [fst] in *. eapply frame_trans; [apply (frame_set_supervisor true sup a)|].
  by destruct (accepted r).
Qed.
Lemma fr_cancel_all rule action own rows acc :
  frame true acc.1.1 (fold_left (cancel_one ops rule action own) rows acc).1.1.
Proof using Hops.
  revert acc. induction rows as [|r rows IH]; intros acc; simpl; [apply frame_refl|].
  by eapply frame_trans; [apply fr_cancel_one|apply IH].
Qed.
Lemma fr_cancel_runs rule action ctx a : frame true a (action_cancel_runs ops rule action ctx a).1.
Proof using Hops.
  unfold action_cancel_runs.
  destruct (match opt_filter _ _ with Some _ => _ | None => _ end) as [fid|]; [|frames]. cbv zeta.
  match goal with |- context [fold_left (cancel_one ops ?r ?x ?own) ?rows ?acc] =>
    pose proof (fr_cancel_all r x own rows acc) as Hc;
    destruct (fold_left (cancel_one ops r x own) rows acc) as [[a1 c] s] end.
  exact Hc.
Qed.
Lemma fr_set_state action ctx a : frame true a (action_set_state ops action ctx a).1.
Proof using Hops. rw /action_set_state. frames. Qed.
Lemma fr_schedules_action b rule action ctx a : frame true a (action_schedules ops b rule action ctx a).1.
Proof using Hops. rw /action_schedules. frames. Qed.
#[local] Hint Resolve fr_action_run_flow fr_cancel_run fr_cancel_runs fr_set_state fr_schedules_action : handlers.
Lemma fr_execute rule action ctx e a : frame true a (execute ops rule action ctx e a).1.
Proof using Hops.
  unfold execute. cbv zeta. do 7 (destruct (_ =?s _) || case_bool_decide; [frames|]). frames.
Qed.
#[local] Hint Resolve fr_execute : handlers.
Lemma fr_timeout rule action ctx e a : frame true a (run_with_timeout ops rule action ctx e a).1.
Proof using Hops. rw /run_with_timeout. frames. Qed.
Lemma fr_save f o a : frame true a (save_outcomes f o a).
Proof using Type. rw /save_outcomes. frames. Qed.
Lemma fr_rule_event name ctx m a : frame true a (rule_event ops name ctx m a).
Proof using Hops. rw /rule_event. frames. Qed.
#[local] Hint Resolve fr_timeout fr_save fr_rule_event : handlers.
Lemma fr_fire_action rule e ctx t f st ia : frame true st.1 (fire_action ops rule e ctx t f st ia).1.
Proof using Hops.
  destruct st as [a o], ia as [i action]. unfold fire_action. cbn [fst].
  destruct (render_action action t) as [rendered|err]; [|cbn [fst]; frames].
  pose proof (fr_timeout rule rendered ctx e a) as Hw.
  destruct (run_with_timeout ops rule rendered ctx e a) as [a1 [d|err]]; cbn [fst] in *; frames.
Qed.
Lemma fr_refresh rule a : frame true a (refresh_rule rule a).
Proof using Type. rw /refresh_rule /update_counters. frames. Qed.
#[local] Hint Resolve fr_fire_action fr_refresh : handlers.
Lemma fr_fire_with rule e ctx n a : frame true a (fire_with ops rule e ctx n a).
Proof using Hops. unfold fire_with. cbv zeta. frames. Qed.
Lemma fr_limit rule e ctx n a : frame true a (limit ops rule e ctx n a).
Proof using Hops. unfold limit. cbv zeta. frames. Qed.
#[local] Hint Resolve fr_fire_with fr_limit : handlers.
Lemma fr_run_task t a : frame true a (run_task ops t a).
Proof using Hops. destruct t; cbn [run_task]; rw ?/fire_rules ?/fire_lapsed; frames. Qed.
End tasks.
