(* ===== verification/ApiFrames.v ===== *)
(** * The requests of the API keep the frame

    Every request of [Session.api] changes the store by commands of the writer
    and by nothing else, and leaves the locks as it found them.  A request may
    issue any command, so the frame here is [frame true]. *)

From S2P Require Import Prelude Float64 Json States Transitions Timer Schedules Model DepGraph Events Unique.
From S2P Require Import RuleMatching RuleTemplates ActiveIndex Resources WorkQueue Pool GroupCommit Tables.
From S2P Require Import Store Reader StoreAdmin StoreRegistry Integrity RuleReader Replay Pages Validate App.
From S2P Require Import Mcp ApiAgents Scheduler Health Waits Dispatch RulesEngine Server ApiRuns ApiEngine ApiSchedules.
From S2P Require Import ApiBackfills ApiObserve ApiWorkers ApiFlows Retention ApiSettings HandlerLaws ServerLaws.

(** ** Commands *)

Lemma issues_any c : issues true c = true.
Proof.
  destruct c as [c|now cs|ids st|now f|id e|now w|now id p|now sid fires by_|sid fires|sid before|sid|now b|id
    |x|rid key at_|id status|rid|now w|id|keep|now rid ev run o|id o|now name v t secret|name|now k v|k
    |now rid scope k v e|rid scope k|now rid t q|now rid t i b|rid pid eid|rid q|rid|rid t q|rid|sid|sid|fid|fids
    |t b l|b f k l|scope live|now rid q e|rid h q k|b|now es|now e f|rows fids l|now w|wid fs|now wid m|wid st|wid n
    |wid|now w|id f|id|now aid t h r f|aid id]; try done.
  destruct c as [now c|now c|t id st force|now rid events|logs|now e|now x]; try done.
  - simpl. by destruct (cr_initial_state c).
  - by destruct t.
Qed.

Section commands.
Context `{StoreEnv}.

Lemma frame_any {A} c (f : Store → Store * result A StoreError) a :
  exec_cmd (store a) c = Store.settle (store a) (f (store a)) → frame true a (write f a).1.
Proof using Type. apply frame_write, issues_any. Qed.
Lemma frame_any_ {A} c (f : Store → Store * A) a :
  exec_cmd (store a) c = (f (store a)).1 → frame true a (write_ f a).1.
Proof using Type. apply frame_write_, issues_any. Qed.
Lemma frame_any_only c f a : exec_cmd (store a) c = f (store a) → frame true a (write_only f a).
Proof using Type. apply frame_write_only, issues_any. Qed.

Lemma fw_create now c a : frame true a (write (create_run now c) a).1.
Proof using Type. by eapply (frame_any (CStore (SCreateRun now c))). Qed.
Lemma fw_bulk now cs a : frame true a (write (create_runs_bulk now cs) a).1.
Proof using Type. by eapply (frame_any (CBulk now cs)). Qed.
Lemma fw_many ids st a : frame true a (write (transition_many ids st) a).1.
Proof using Type. by eapply (frame_any (CTransitionMany ids st)). Qed.
Lemma fw_report now rid evs a : frame true a (write (apply_report now rid evs) a).1.
Proof using Type. by eapply (frame_any (CStore (SReport now rid evs))). Qed.
Lemma fw_artifact now x a : frame true a (write (upsert_artifact now x) a).1.
Proof using Type. by eapply (frame_any (CStore (SArtifact now x))). Qed.
Lemma fw_events now es a : frame true a (write (append_events now es) a).1.
Proof using Type. by eapply (frame_any (CAppendEvents now es)). Qed.
Lemma fw_event_effect now e m a : frame true a (write (append_event_with_effect now e m) a).1.
Proof using Type. by eapply (frame_any (CEventWithEffect now e m)). Qed.
Lemma fw_upsert_flow now w a : frame true a (write (upsert_flow now w) a).1.
Proof using Type. by eapply (frame_any (CUpsertFlow now w)). Qed.
Lemma fw_flow_error id e a : frame true a (write_only (set_flow_error id e) a).
Proof using Type. by eapply (frame_any_only (CSetFlowError id e)). Qed.
Lemma fw_delete_run id a : frame true a (write_ (StoreAdmin.delete_run id) a).1.
Proof using Type. by eapply (frame_any_ (CDeleteRun id)). Qed.
Lemma fw_attributes now id patch e a : frame true a (write (merge_run_attributes now id patch e) a).1.
Proof using Type. by eapply (frame_any (CMergeAttributes now id patch e)). Qed.
Lemma fw_state_set now id sc k v e a : frame true a (write (task_state_set now id sc k v e) a).1.
Proof using Type. by eapply (frame_any (CTaskStateSet now id sc k v e)). Qed.
Lemma fw_state_delete id sc k a : frame true a (write_ (task_state_delete id sc k) a).1.
Proof using Type. by eapply (frame_any_ (CTaskStateDelete id sc k)). Qed.
Lemma fw_engine id pid eid a : frame true a (write_only (set_run_engine id pid eid) a).
Proof using Type. by eapply (frame_any_only (CSetEngine id pid eid)). Qed.
Lemma fw_claim_run id host q hash a : frame true a (write (claim_run id host q hash) a).1.
Proof using Type. by eapply (frame_any (CClaimRun id host q hash)). Qed.
Lemma fw_backfill now b a : frame true a (write (create_backfill now b) a).1.
Proof using Type. by eapply (frame_any (CCreateBackfill now b)). Qed.
Lemma fw_backfill_cancelled id a : frame true a (write_only (set_backfill_cancelled id) a).
Proof using Type. by eapply (frame_any_only (CCancelBackfill id)). Qed.
Lemma fw_rule now w a : frame true a (write (upsert_rule now w) a).1.
Proof using Type. by eapply (frame_any (CUpsertRule now w)). Qed.
Lemma fw_delete_rule id a : frame true a (write_ (delete_rule id) a).1.
Proof using Type. by eapply (frame_any_ (CDeleteRule id)). Qed.
Lemma fw_variable now n v t s a : frame true a (write_only (set_variable_row now n v t s) a).
Proof using Type. by eapply (frame_any_only (CSetVariable now n v t s)). Qed.
Lemma fw_delete_variable n a : frame true a (write_ (delete_variable n) a).1.
Proof using Type. by eapply (frame_any_ (CDeleteVariable n)). Qed.
Lemma fw_register now w a : frame true a (write_ (register_worker_row now w) a).1.
Proof using Type. by eapply (frame_any_ (CRegisterWorker now w)). Qed.
Lemma fw_worker_flows wid l a : frame true a (write (set_worker_flows wid l) a).1.
Proof using Type. by eapply (frame_any (CSetWorkerFlows wid l)). Qed.
Lemma fw_touch now wid m a : frame true a (write_only (touch_worker now wid m) a).
Proof using Type. by eapply (frame_any_only (CTouchWorker now wid m)). Qed.
Lemma fw_worker_state wid t a : frame true a (write_ (StoreRegistry.set_worker_state wid t) a).1.
Proof using Type. by eapply (frame_any_ (CSetWorkerState wid t)). Qed.
Lemma fw_processors wid n a : frame true a (write_ (StoreRegistry.set_worker_processors wid n) a).1.
Proof using Type. by eapply (frame_any_ (CSetWorkerProcessors wid n)). Qed.
Lemma fw_delete_worker wid a : frame true a (write_ (delete_worker wid) a).1.
Proof using Type. by eapply (frame_any_ (CDeleteWorker wid)). Qed.
Lemma fw_delete_flow fid a : frame true a (write_ (delete_flow fid) a).1.
Proof using Type. by eapply (frame_any_ (CDeleteFlow fid)). Qed.
Lemma fw_reset scope live a : frame true a (write_ (reset scope live) a).1.
Proof using Type. by eapply (frame_any_ (CReset scope live)). Qed.
Lemma fw_flags f a : frame true a (set_flags f a).
Proof using Type. split; auto using by_cmds_refl. Qed.
Lemma fw_set_index x a : frame true a (set_index x a).
Proof using Type. split; auto using by_cmds_refl. Qed.
End commands.

#[export] Hint Resolve fw_create fw_bulk fw_many fw_report fw_artifact fw_events fw_event_effect fw_upsert_flow
  fw_flow_error fw_delete_run fw_attributes fw_state_set fw_state_delete fw_engine fw_claim_run
  fw_backfill fw_backfill_cancelled fw_rule fw_delete_rule fw_variable fw_delete_variable
  fw_register fw_worker_flows fw_touch fw_worker_state fw_processors fw_delete_worker fw_delete_flow fw_reset
  fw_flags fw_set_index : handlers.

(** ** Requests on runs *)

Section runs.
Context `{StoreEnv, PoolEnv, ServerEnv, ScheduleEnv, ReaderEnv, RowEnv, JinjaEnv} (ops : Ops)
  (Hops : ops_ok true ops).

Lemma fr_op_transition rid st force a : frame true a (op_transition_run ops rid st force a).1.
Proof using Hops. by apply Hops. Qed.
#[local] Hint Resolve fr_op_transition : handlers.
Lemma fr_cancel_inner run a : frame true a (cancel_inner ops run a).1.
Proof using Hops. unfold cancel_inner. frames. Qed.
#[local] Hint Resolve fr_cancel_inner : handlers.
Lemma fr_start_created flow starts rid a : frame true a (start_created ops flow starts rid a).1.
Proof using Hops. unfold start_created. frames. Qed.
Lemma fr_holder e a : frame true a (holder_of e a).1.
Proof using Type. unfold holder_of. frames. Qed.
#[local] Hint Resolve fr_start_created fr_holder : handlers.
Lemma fr_insert_checked flow m n u a : frame true a (insert_checked ops flow m n u a).1.
Proof using Hops. unfold insert_checked. frames. Qed.
#[local] Hint Resolve fr_insert_checked : handlers.
Lemma fr_create_checked flow m n a : frame true a (create_run_checked ops flow m n a).1.
Proof using Hops. unfold create_run_checked. frames. Qed.
#[local] Hint Resolve fr_create_checked : handlers.
Lemma fr_create_inner flow m n a : frame true a (create_run_inner ops flow m n a).1.
Proof using Hops. unfold create_run_inner. frames. Qed.
Lemma fr_save_flow w a : frame true a (save_flow w a).1.
Proof using Type. unfold save_flow. frames. Qed.
#[local] Hint Resolve fr_create_inner fr_save_flow : handlers.
Lemma fr_flow_for_body b a : frame true a (flow_for_body b a).1.
Proof using Type. unfold flow_for_body. frames. Qed.
#[local] Hint Resolve fr_flow_for_body : handlers.
Lemma fr_create_request user b a : frame true a (create_run_request ops user b a).1.
Proof using Hops. unfold create_run_request. frames. Qed.
Lemma fr_create_for_flow user fid b a : frame true a (create_run_for_flow ops user fid b a).1.
Proof using Hops. unfold create_run_for_flow. frames. Qed.

Lemma fr_found id a : frame true a (found_run id a).1.
Proof using Type. apply frame_refl. Qed.
#[local] Hint Resolve fr_found : handlers.
Lemma fr_delete_inner run a : frame true a (delete_inner ops run a).1.
Proof using Hops. unfold delete_inner. frames. Qed.
#[local] Hint Resolve fr_delete_inner : handlers.
Lemma fr_delete_request id a : frame true a (delete_run_request ops id a).1.
Proof using Hops. unfold delete_run_request. frames. Qed.
Lemma fr_cancel_request id a : frame true a (cancel_run_request ops id a).1.
Proof using Hops. unfold cancel_run_request. frames. Qed.
Lemma fr_patch_attributes id e m a : frame true a (patch_attributes id e m a).1.
Proof using Type. unfold patch_attributes. frames. Qed.
Lemma fr_transition_request id b a : frame true a (transition_request ops id b a).1.
Proof using Hops. unfold transition_request. frames. Qed.
Lemma fr_set_run_state id b a : frame true a (set_run_state_request id b a).1.
Proof using Type. unfold set_run_state_request. frames. Qed.
Lemma fr_resume_inner id v a : frame true a (resume_inner ops id v a).1.
Proof using Hops. unfold resume_inner. frames. Qed.
Lemma fr_receive id topic i a : frame true a (run_receive id topic i a).1.
Proof using Type. unfold run_receive. frames. Qed.
Lemma fr_send id topic v a : frame true a (send_message ops id topic v a).1.
Proof using Hops. unfold send_message. frames. Qed.
Lemma fr_seed_retry o from e seed new a : frame true a (seed_retry o from e seed new a).1.
Proof using Type. unfold seed_retry. frames. Qed.
#[local] Hint Resolve fr_seed_retry : handlers.
Lemma fr_retry_inner o from by_ a : frame true a (retry_inner ops o from by_ a).1.
Proof using Hops. unfold retry_inner. frames. Qed.
#[local] Hint Resolve fr_retry_inner : handlers.
Lemma fr_retry user id from a : frame true a (retry_run_request ops user id from a).1.
Proof using Hops. unfold retry_run_request. frames. Qed.
Lemma fr_bulk_apply action user run a : frame true a (bulk_apply ops action user run a).1.
Proof using Hops. unfold bulk_apply. frames. Qed.
#[local] Hint Resolve fr_bulk_apply : handlers.
Lemma fr_bulk_all action user runs a : frame true a (bulk_all ops action user runs a).1.
Proof using Hops.
  revert a. induction runs as [|run runs IH]; intros a; cbn [bulk_all]; [apply frame_refl|].
  pose proof (fr_bulk_apply action user run a) as Hw. destruct (bulk_apply _ _ _ _ _) as [a1 [u|e]]; [|done].
  by eapply frame_trans; [|apply IH].
Qed.
#[local] Hint Resolve fr_bulk_all : handlers.
Lemma fr_bulk_runs user b a : frame true a (bulk_runs ops user b a).1.
Proof using Hops. unfold bulk_runs. frames. Qed.
End runs.

#[export] Hint Resolve fr_op_transition fr_cancel_inner fr_create_checked fr_create_inner fr_create_request
  fr_create_for_flow fr_found fr_delete_request fr_cancel_request fr_patch_attributes fr_transition_request
  fr_set_run_state fr_resume_inner fr_receive fr_send fr_retry fr_bulk_runs : handlers.

(** ** Requests of engines *)

Section engines.
Context `{StoreEnv, PoolEnv, ServerEnv, ScheduleEnv, ReaderEnv, RowEnv, JinjaEnv, ModuleEnv} (ops : Ops)
  (Hops : ops_ok true ops).

Lemma fr_leased id h b a : frame true a (leased_transition ops id h b a).1.
Proof using Hops. unfold leased_transition. frames. Qed.
Lemma fr_claim_lease id a : frame true a (claim id a).1.
Proof using Type. unfold claim. frames. Qed.
Lemma fr_undo_handoff id a : frame true a (undo_handoff id a).
Proof using Type. unfold undo_handoff. frames. Qed.
#[local] Hint Resolve fr_claim_lease fr_undo_handoff : handlers.
Lemma fr_hand_out id req a : frame true a (hand_out id req a).1.
Proof using Type. unfold hand_out. frames. Qed.
#[local] Hint Resolve fr_hand_out : handlers.
Lemma fr_work_step mtime disk req a : frame true a (work_step mtime disk req a).1.
Proof using Type. unfold work_step. frames. Qed.
Lemma fr_after_event_id id a : frame true a (after_event_id ops id a).
Proof using Hops. unfold after_event_id, after_event. frames. Qed.
Lemma fr_report_rejected id fid a r : frame true a (report_rejected ops id fid a r).
Proof using Hops. unfold report_rejected. frames. Qed.
Lemma fr_publish_artifact a id : frame true a (publish_artifact a id).
Proof using Type. unfold publish_artifact. frames. Qed.
Lemma fr_publish_logs id o a : frame true a (publish_logs id o a).
Proof using Type. unfold publish_logs. frames. Qed.
Lemma fr_after_event e a : frame true a (after_event ops e a).
Proof using Hops. unfold after_event. frames. Qed.
#[local] Hint Resolve fr_after_event_id fr_report_rejected fr_publish_artifact fr_publish_logs
  fr_after_event : handlers.
Lemma fr_report header req a : frame true a (report ops header req a).1.
Proof using Hops. unfold report. frames. Qed.
Lemma fr_heartbeat id header a : frame true a (heartbeat_request id header a).1.
Proof using Type. unfold heartbeat_request. frames. Qed.
Lemma fr_fail_import t u a id : frame true a (fail_import ops t u a id).
Proof using Hops. unfold fail_import. frames. Qed.
Lemma fr_mark_error d m t a f : frame true a (mark_flow_error d m t a f).
Proof using Type. unfold mark_flow_error. frames. Qed.
#[local] Hint Resolve fr_fail_import fr_mark_error : handlers.
Lemma fr_failed req a : frame true a (failed ops req a).1.
Proof using Hops. unfold failed. frames. Qed.
Lemma fr_acquire id m a : frame true a (acquire_step id m a).1.
Proof using Type. unfold acquire_step. frames. Qed.
Lemma fr_release_request id l a : frame true a (release_request id l a).
Proof using Type. unfold release_request. frames. Qed.
Lemma fr_local_path id path a : frame true a (local_path ops id path a).
Proof using Hops. unfold local_path. frames. Qed.
End engines.

#[export] Hint Resolve fr_leased fr_work_step fr_report fr_heartbeat fr_failed fr_acquire fr_release_request
  fr_local_path : handlers.

(** ** Schedules and the pause of the scheduler *)

Section schedules.
Context `{StoreEnv, PoolEnv, ServerEnv, ScheduleEnv, ReaderEnv, RowEnv, JinjaEnv} (ops : Ops)
  (Hops : ops_ok true ops).

Lemma fr_shown sid e a : frame true a (shown sid e a).1.
Proof using Type. unfold shown. frames. Qed.
#[local] Hint Resolve fr_shown : handlers.
Lemma fr_on_schedule {A} sid (k : ScheduleRow → App → App * result A ApiError) a :
  (∀ row a, frame true a (k row a).1) → frame true a (on_schedule sid k a).1.
Proof using Type. intros Hk. unfold on_schedule. destruct (get_schedule _ _); [apply Hk|frames]. Qed.
Lemma fr_create_schedule fid b src a : frame true a (create_schedule_inner ops fid b src a).1.
Proof using Hops. unfold create_schedule_inner. frames. Qed.
Lemma fr_patch_schedule sid b a : frame true a (patch_schedule_inner ops sid b a).1.
Proof using Hops. unfold patch_schedule_inner. apply fr_on_schedule. intros row a1. frames. Qed.
Lemma fr_delete_schedule_request sid a : frame true a (delete_schedule_request sid a).1.
Proof using Type. unfold delete_schedule_request. frames. Qed.
Lemma fr_pause_request sid a : frame true a (pause_schedule_request ops sid a).1.
Proof using Hops. unfold pause_schedule_request. apply fr_on_schedule. intros row a1. frames. Qed.
Lemma fr_resume_request sid a : frame true a (resume_schedule_request ops sid a).1.
Proof using Hops. unfold resume_schedule_request. apply fr_on_schedule. intros row a1. frames. Qed.
Lemma fr_join_request sid a : frame true a (join_now_request ops sid a).1.
Proof using Hops. unfold join_now_request. apply fr_on_schedule. intros row a1. frames. Qed.
Lemma fr_pause_flow fid a : frame true a (pause_flow ops fid a).1.
Proof using Hops. unfold pause_flow. frames. Qed.
Lemma fr_resume_flow fid a : frame true a (resume_flow ops fid a).1.
Proof using Hops. unfold resume_flow. frames. Qed.
Lemma fr_add_skips_request sid b a : frame true a (add_skips_request ops sid b a).1.
Proof using Hops. unfold add_skips_request. apply fr_on_schedule. intros row a1. frames. Qed.
Lemma fr_delete_skip sid fire a : frame true a (delete_skip ops sid fire a).1.
Proof using Hops. unfold delete_skip. apply fr_on_schedule. intros row a1. frames. Qed.
Lemma fr_pause_scheduler b a : frame true a (pause_scheduler ops b a).1.
Proof using Hops. unfold pause_scheduler. frames. Qed.
Lemma fr_resume_scheduler a : frame true a (resume_scheduler ops a).1.
Proof using Hops. unfold resume_scheduler. frames. Qed.
End schedules.

#[export] Hint Resolve fr_create_schedule fr_patch_schedule fr_delete_schedule_request fr_pause_request
  fr_resume_request fr_join_request fr_pause_flow fr_resume_flow fr_add_skips_request fr_delete_skip
  fr_pause_scheduler fr_resume_scheduler : handlers.

(** ** Backfills *)

Section backfills.
Context `{StoreEnv, PoolEnv, ServerEnv, ScheduleEnv, ReaderEnv, RowEnv, JinjaEnv, RangeEnv} (ops : Ops)
  (Hops : ops_ok true ops).

Lemma fr_each_page n id t cursor f a :
  (∀ items a, frame true a (f items a)) → frame true a (each_page n id t cursor f a).
Proof using Type.
  intros Hf. revert cursor a. induction n as [|n IH]; intros cursor a; cbn [each_page]; [frames|].
  destruct (list_runs _ _ _) as [items [c|]]; [|apply Hf]. by eapply frame_trans; [apply Hf|].
Qed.
Lemma fr_dispatch_one flow t skip ab run : frame true ab.1 (dispatch_one ops flow t skip ab run).1.
Proof using Hops. unfold dispatch_one. destruct ab as [a batch]. cbn [fst]. frames. Qed.
#[local] Hint Resolve fr_dispatch_one : handlers.
Lemma fr_dispatch_page flow t skip items a : frame true a (dispatch_page ops flow t skip items a).
Proof using Hops.
  unfold dispatch_page.
  pose proof (frame_fold_pair true (dispatch_one ops flow t skip) items (a, []) (fr_dispatch_one flow t skip)) as Hw.
  destruct (fold_left _ _ _) as [a1 batch]. cbn [fst] in Hw. frames.
Qed.
Lemma fr_set_caps flow id n a : frame true a (set_caps flow id n a).
Proof using Type. unfold set_caps. frames. Qed.
#[local] Hint Resolve fr_set_caps : handlers.
Lemma fr_enqueue_all id flow skip a : frame true a (enqueue_all ops id flow skip a).
Proof using Hops.
  unfold enqueue_all. destruct (get_backfill _ _) as [b|]; [|frames]. cbv zeta.
  eapply frame_trans; [|apply fr_ensure]. eapply frame_trans; [apply fr_set_caps|].
  apply fr_each_page. intros. apply fr_dispatch_page.
Qed.
#[local] Hint Resolve fr_enqueue_all : handlers.
Lemma fr_index_page key items a : frame true a (index_page key items a).
Proof using Type. unfold index_page. frames. Qed.
Lemma fr_start_backfill id flow b n a : frame true a (start_backfill ops id flow b n a).
Proof using Hops.
  unfold start_backfill. cbv zeta.
  assert (frame true a (each_page (page_fuel a) id None None (index_page (from_flow flow)) a)) as Hw.
  { apply fr_each_page. intros. apply fr_index_page. }
  revert Hw. generalize (each_page (page_fuel a) id None None (index_page (from_flow flow)) a). intros a1 Hw.
  destruct b; frames.
Qed.
#[local] Hint Resolve fr_start_backfill : handlers.
Lemma fr_create_backfill flow b a : frame true a (create_backfill_inner ops flow b a).1.
Proof using Hops. unfold create_backfill_inner. frames. Qed.
#[local] Hint Resolve fr_create_backfill : handlers.
Lemma fr_backfill_request fid b a : frame true a (create_backfill_request ops fid b a).1.
Proof using Hops. unfold create_backfill_request. frames. Qed.
Lemma fr_prefilter id skip a : frame true a (prefilter_backfill ops id skip a).1.
Proof using Hops. unfold prefilter_backfill. frames. Qed.

Lemma fr_gather_one g run : frame true (gb_app g) (gb_app (gather_one ops g run)).
Proof using Hops.
  unfold gather_one. destruct (State_is_terminal _); [frames|]. cbv zeta. destruct (_ || _); cbn [gb_app]; [frames|].
  frames.
Qed.
Lemma fr_gather_items items g : frame true (gb_app g) (gb_app (fold_left (gather_one ops) items g)).
Proof using Hops.
  revert g. induction items as [|run items IH]; intros g; cbn [fold_left]; [apply frame_refl|].
  by eapply frame_trans; [apply fr_gather_one|apply IH].
Qed.
Lemma fr_gather_pages n id cursor g : frame true (gb_app g) (gb_app (gather_pages ops n id cursor g)).
Proof using Hops.
  revert cursor g. induction n as [|n IH]; intros cursor g; cbn [gather_pages]; [cbn [gb_app]; frames|].
  destruct (list_runs _ _ _) as [items [c|]]; [|apply fr_gather_items].
  by eapply frame_trans; [apply fr_gather_items|apply IH].
Qed.
Lemma fr_index_cancelled bulk ids fid a prev : frame true a (index_cancelled bulk ids fid a prev).
Proof using Type. unfold index_cancelled. frames. Qed.
#[local] Hint Resolve fr_index_cancelled : handlers.
Lemma fr_cancel_bulk id bulk fid a : frame true a (cancel_bulk id bulk fid a).
Proof using Type. unfold cancel_bulk. frames. Qed.
Lemma fr_cancel_backfill id a : frame true a (cancel_backfill_inner ops id a).1.
Proof using Hops.
  unfold cancel_backfill_inner. destruct (get_backfill _ _) as [b|]; [|frames]. cbv zeta. cbn [fst].
  eapply frame_trans; [apply fw_backfill_cancelled|].
  match goal with |- frame _ ?x (match gb_bulk ?g with _ => _ end) => assert (frame true x (gb_app g)) as Hw end.
  { apply (fr_gather_pages _ _ _ (mkGathered _ [] 0)). }
  destruct (gb_bulk _); [done|]. eapply frame_trans; [exact Hw|apply fr_cancel_bulk].
Qed.
End backfills.

#[export] Hint Resolve fr_backfill_request fr_prefilter fr_cancel_backfill : handlers.

(** ** Events, rules, artifacts and variables *)

Section observe.
Context `{StoreEnv, PoolEnv, ServerEnv, ScheduleEnv, ReaderEnv, RowEnv, JinjaEnv, SecretEnv} (ops : Ops)
  (Hops : ops_ok true ops).

Lemma fr_emit_event b a : frame true a (emit_event ops b a).1.
Proof using Hops. unfold emit_event. frames. Qed.
Lemma fr_published_rule id e a : frame true a (published_rule id e a).1.
Proof using Type. unfold published_rule. frames. Qed.
#[local] Hint Resolve fr_published_rule : handlers.
Lemma fr_create_rule b a : frame true a (create_rule b a).1.
Proof using Type. unfold create_rule. frames. Qed.
Lemma fr_patch_rule id b a : frame true a (patch_rule id b a).1.
Proof using Type. unfold patch_rule. frames. Qed.
Lemma fr_delete_rule id a : frame true a (delete_rule_request id a).1.
Proof using Type. unfold delete_rule_request. frames. Qed.
Lemma fr_create_artifact b a : frame true a (create_artifact b a).1.
Proof using Type. unfold create_artifact. frames. Qed.
Lemma fr_written_variable n t l s a : frame true a (written_variable n t l s a).1.
Proof using Type. unfold written_variable. frames. Qed.
#[local] Hint Resolve fr_written_variable : handlers.
Lemma fr_set_variable n v l s a : frame true a (set_variable_inner n v l s a).1.
Proof using Type. unfold set_variable_inner. frames. Qed.
#[local] Hint Resolve fr_set_variable : handlers.
Lemma fr_create_variable b a : frame true a (create_variable b a).1.
Proof using Type. unfold create_variable. frames. Qed.
Lemma fr_patch_variable n b a : frame true a (patch_variable n b a).1.
Proof using Type. unfold patch_variable. frames. Qed.
Lemma fr_delete_variable n a : frame true a (delete_variable_request n a).1.
Proof using Type. unfold delete_variable_request. frames. Qed.
End observe.

#[export] Hint Resolve fr_emit_event fr_create_rule fr_patch_rule fr_delete_rule fr_create_artifact
  fr_create_variable fr_patch_variable fr_delete_variable : handlers.

(** ** Workers *)

Section workers.
Context `{StoreEnv, PoolEnv, ServerEnv, ScheduleEnv, ReaderEnv, RowEnv, JinjaEnv, ModuleEnv, SecretEnv} (ops : Ops)
  (Hops : ops_ok true ops).

Lemma fr_worker_updated wid a : frame true a (worker_updated wid a).
Proof using Type. unfold worker_updated. frames. Qed.
#[local] Hint Resolve fr_worker_updated : handlers.
Lemma fr_register b t a : frame true a (register ops b t a).1.
Proof using Hops. unfold register. frames. Qed.
Lemma fr_refresh_flows wid l a : frame true a (refresh_flows wid l a).1.
Proof using Type. unfold refresh_flows. frames. Qed.
#[local] Hint Resolve fr_refresh_flows : handlers.
Lemma fr_worker_heartbeat wid b a : frame true a (ApiWorkers.heartbeat wid b a).1.
Proof using Type. unfold ApiWorkers.heartbeat. frames. Qed.
Lemma fr_on_worker {A} wid (k : StoreRegistry.Worker → App → App * result A ApiError) a :
  (∀ w a, frame true a (k w a).1) → frame true a (on_worker wid k a).1.
Proof using Type. intros Hk. unfold on_worker. destruct (get_worker _ _); [apply Hk|frames]. Qed.
Lemma fr_patch_worker wid n a : frame true a (patch_worker wid n a).1.
Proof using Type. unfold patch_worker. apply fr_on_worker. intros w a1. frames. Qed.
Lemma fr_set_worker_state wid t a : frame true a (set_state wid t a).1.
Proof using Type. unfold set_state. apply fr_on_worker. intros w a1. frames. Qed.
Lemma fr_leave wid a : frame true a (leave ops wid a).1.
Proof using Hops. unfold leave. apply fr_on_worker. intros w a1. frames. Qed.
Lemma fr_forget wid a : frame true a (forget wid a).1.
Proof using Type. unfold forget. apply fr_on_worker. intros w a1. frames. Qed.
End workers.

#[export] Hint Resolve fr_register fr_worker_heartbeat fr_patch_worker fr_set_worker_state fr_leave
  fr_forget : handlers.

(** ** Flows, projects and the reset *)

Section flows.
Context `{StoreEnv, PoolEnv, ServerEnv, ScheduleEnv, ReaderEnv, RowEnv, JinjaEnv, ActionEnv, HostEnv, FormatEnv}
  (ops : Ops) (Hops : ops_ok true ops).

Lemma fr_publish_deleted a fid : frame true a (publish_deleted a fid).
Proof using Type. unfold publish_deleted. frames. Qed.
#[local] Hint Resolve fr_publish_deleted : handlers.
Lemma fr_delete_flow fid a : frame true a (delete_flow_request fid a).1.
Proof using Type. unfold delete_flow_request. frames. Qed.

Lemma by_rows rounds rows fids batch n s : by_cmds true s (delete_rows_loop rounds rows fids batch n s).1.
Proof using Type.
  revert n s. induction rounds as [|rounds IH]; intros n s; cbn [delete_rows_loop]; [apply by_cmds_refl|].
  pose proof (by_cmd true (CDeleteFlowRows rows fids batch) s eq_refl) as Hc. cbn [exec_cmd] in Hc.
  destruct (delete_flow_rows rows fids batch s) as [s1 k]. cbn [fst] in *. destruct (k <? batch)%nat; [done|].
  by eapply by_cmds_trans; [exact Hc|apply IH].
Qed.
Lemma by_batched fids batch s : by_cmds true s (delete_flows_batched fids batch s).1.
Proof using Type.
  unfold delete_flows_batched. pose proof (by_rows (rounds_for (log s)) FlowLog fids batch 0 s) as H1'.
  destruct (delete_rows_loop _ FlowLog _ _ _ s) as [s1 n1]. cbn [fst] in H1'.
  pose proof (by_rows (rounds_for (event s1)) FlowEvent fids batch 0 s1) as H2'.
  destruct (delete_rows_loop _ FlowEvent _ _ _ s1) as [s2 n2]. cbn [fst] in H2'.
  pose proof (by_cmd true (CDeleteFlows fids) s2 eq_refl) as H3'. cbn [exec_cmd] in H3'.
  destruct (delete_flows fids s2) as [s3 out]. cbn [fst] in *. eauto using by_cmds_trans.
Qed.
Lemma fw_batched fids batch a : frame true a (write_ (delete_flows_batched fids batch) a).1.
Proof using Type. split; try done. cbn [write_ fst set_store store]. apply by_batched. Qed.
Lemma fr_forget_schedule a row : frame true a (forget_schedule a row).
Proof using Type. unfold forget_schedule. frames. Qed.
#[local] Hint Resolve fw_batched fr_forget_schedule : handlers.
Lemma fr_forget_flow a fid : frame true a (forget_flow a fid).
Proof using Type. unfold forget_flow. frames. Qed.
#[local] Hint Resolve fr_forget_flow : handlers.
Lemma fr_delete_project name a : frame true a (delete_project name a).1.
Proof using Type. unfold delete_project. frames. Qed.

Lemma fr_cancel_running a id : frame true a (cancel_running ops a id).
Proof using Hops. unfold cancel_running. frames. Qed.
Lemma fr_kill_running a r : frame true a (kill_running ops a r).
Proof using Hops. unfold kill_running. frames. Qed.
#[local] Hint Resolve fr_cancel_running fr_kill_running : handlers.
Lemma fr_stop_runs a : frame true a (stop_runs ops a).
Proof using Hops. unfold stop_runs. frames. Qed.
#[local] Hint Resolve fr_stop_runs : handlers.
Lemma fr_wipe scope b c a : frame true a (wipe ops scope b c a).1.
Proof using Hops. unfold wipe. frames. Qed.
Lemma fr_restart a : frame true a (restart ops a).
Proof using Hops. unfold restart. eapply frame_trans; [|by apply fr_start_inner]. frames. Qed.
#[local] Hint Resolve fr_wipe fr_restart : handlers.
Lemma fr_reload a : frame true a (reload ops a).
Proof using Hops.
  unfold reload. eapply frame_trans; [|apply fr_restart]. eapply frame_trans; [|apply fr_load].
  eapply frame_trans; [|by apply fr_reconcile]. frames.
Qed.
#[local] Hint Resolve fr_reload : handlers.
Lemma fr_resetting b a : frame true a (set_resetting b a).
Proof using Type. apply fw_flags. Qed.
#[local] Hint Resolve fr_resetting : handlers.
Lemma fr_reset scope b c a : frame true a (reset_database ops scope b c a).1.
Proof using Hops. unfold reset_database. frames. Qed.

Lemma fr_overdue x a : frame true a (set_overdue x a).
Proof using Type. apply fw_flags. Qed.
#[local] Hint Resolve fr_overdue : handlers.
Lemma fr_sweep_one flows recent starts an r : frame true an.1 (sweep_one ops flows recent starts an r).1.
Proof using Hops. unfold sweep_one. destruct an as [a n]. cbn [fst]. frames. Qed.
#[local] Hint Resolve fr_sweep_one : handlers.
Lemma fr_sweep a : frame true a (sweep ops a).1.
Proof using Hops.
  unfold sweep. cbv zeta. eapply frame_trans; [unfold forget_ended; apply fr_overdue|].
  destruct (List.filter _ _) as [|r l]; [apply frame_refl|].
  apply (frame_fold_pair true _ _ (_, 0)). intros. apply fr_sweep_one.
Qed.
End flows.

#[export] Hint Resolve fr_delete_flow fr_delete_project fr_reset fr_sweep : handlers.

(** ** Retention, settings and tools *)

Section retention.
Context `{StoreEnv}.

Lemma fw_kv now k v a : frame true a (write_only (kv_set now k v) a).
Proof using Type. by eapply (frame_any_only (CKvSet now k v)). Qed.
Lemma fw_expired t before limit a : frame true a (write (delete_expired t before limit) a).1.
Proof using Type. by eapply (frame_any (CDeleteExpired t before limit)). Qed.
Lemma fw_expired_runs before failed keep limit a : frame true a (write_ (delete_expired_runs before failed keep limit) a).1.
Proof using Type. by eapply (frame_any_ (CDeleteExpiredRuns before failed keep limit)). Qed.
Lemma fw_checkpoints before a : frame true a (write_ (clear_checkpoints_before before) a).1.
Proof using Type. by eapply (frame_any_ (CClearCheckpoints before)). Qed.
#[local] Hint Resolve fw_kv fw_expired fw_expired_runs fw_checkpoints : handlers.
Lemma fr_expire_rows rounds t before a : frame true a (expire_rows rounds t before a).1.
Proof using Type.
  revert a. induction rounds as [|rounds IH]; intros a; cbn [expire_rows]; [apply frame_refl|].
  pose proof (fw_expired t before (Z.to_nat BATCH) a) as Hf. destruct (write _ a) as [a1 [n|e]]; [|done].
  cbn [fst] in Hf. destruct (Z.of_nat n <? BATCH); [done|]. eapply frame_trans; [exact Hf|].
  pose proof (IH a1) as Hr. by destruct (expire_rows rounds t before a1).
Qed.
Lemma fr_forget_run a row : frame true a (forget_run a row).
Proof using Type. unfold forget_run. frames. Qed.
Lemma fr_forget_runs rows a : frame true a (foldl forget_run a rows).
Proof using Type.
  revert a. induction rows as [|r rows IH]; intros a; [apply frame_refl|]. cbn [foldl].
  by eapply frame_trans; [apply fr_forget_run|apply IH].
Qed.
Lemma fr_expire_run_rows rounds before failed keep a : frame true a (expire_run_rows rounds before failed keep a).1.
Proof using Type.
  revert a. induction rounds as [|rounds IH]; intros a; cbn [expire_run_rows]; [apply frame_refl|].
  pose proof (fw_expired_runs before failed keep (Z.to_nat RUN_BATCH) a) as Hf. destruct (write_ _ a) as [a1 rows].
  cbn [fst] in Hf. cbv zeta. set (a2 := foldl forget_run a1 rows).
  assert (frame true a a2) as H2.
  { eapply frame_trans; [exact Hf|]. apply fr_forget_runs. }
  destruct (Z.of_nat _ <? RUN_BATCH); [done|]. eapply frame_trans; [exact H2|].
  pose proof (IH a2) as Hr. by destruct (expire_run_rows rounds before failed keep a2).
Qed.
#[local] Hint Resolve fr_expire_rows fr_expire_run_rows : handlers.
Lemma fr_expire_tables a : frame true a (expire_tables a).1.1.
Proof using Type.
  unfold expire_tables. destruct (0 <? _); [|apply frame_refl]. cbv zeta.
  set (before := cutoff _ _). clearbody before.
  pose proof (fr_expire_rows (S (length (log (store a)))) "log" before a) as Hl.
  destruct (expire_rows _ "log" before a) as [a1 n]. cbn [fst] in Hl. eapply frame_trans; [exact Hl|].
  pose proof (fr_expire_rows (S (length (event (store a1)))) "event" before a1) as He.
  by destruct (expire_rows _ "event" before a1).
Qed.
Lemma fr_expire_runs a : frame true a (expire_runs a).1.
Proof using Type. unfold expire_runs. frames. Qed.
Lemma fr_expire_checkpoints files a : frame true a (expire_checkpoints files a).1.
Proof using Type. unfold expire_checkpoints. frames. Qed.
Lemma fr_run_backup copy a : frame true a (run_backup copy a).1.
Proof using Type. unfold run_backup. frames. Qed.
Lemma fr_backup copy a : frame true a (backup_if_due copy a).1.
Proof using Type.
  unfold backup_if_due. cbv zeta. destruct (_ <=? 0); [apply frame_refl|]. destruct (_ && _); [apply frame_refl|].
  pose proof (fr_run_backup copy a) as Hb. by destruct (run_backup copy a) as [a1 [path|e]].
Qed.
Lemma fr_retention files copy a : frame true a (run_once files copy a).1.
Proof using Type.
  unfold run_once. pose proof (fr_expire_tables a) as H1'. destruct (expire_tables a) as [[a1 logs] events].
  pose proof (fr_expire_runs a1) as H2'. destruct (expire_runs a1) as [a2 runs].
  pose proof (fr_expire_checkpoints files a2) as H3'. destruct (expire_checkpoints files a2) as [a3 n].
  pose proof (fr_backup copy a3) as H4'. destruct (backup_if_due copy a3) as [a4 b].
  cbn [fst] in *. eauto using frame_trans.
Qed.
End retention.

Section settings.
Context `{StoreEnv, PoolEnv, SettingsEnv} (cpu_cap : Z).
#[local] Hint Resolve fw_kv : handlers.

Lemma fr_stored key v a : frame true a (stored key v a).
Proof using Type. apply fw_kv. Qed.
Lemma fr_on_settings f a : frame true a (on_settings f a).
Proof using Type. apply fw_flags. Qed.
Lemma fr_crash_default n a : frame true a (set_crash_retries n a).
Proof using Type. split; auto using by_cmds_refl. Qed.
#[local] Hint Resolve fr_stored fr_on_settings fr_crash_default : handlers.
Lemma fr_patch_slots values l e a : frame true a (patch_slots values l e a).1.2.
Proof using Type.
  revert e a. induction l as [|s l IH]; intros e a; cbn [patch_slots]; [apply frame_refl|].
  rw /patch_slot. destruct (values s) as [v|]; [|apply IH]. destruct (v <? 0); [apply frame_refl|].
  eapply frame_trans; [|apply IH]. frames.
Qed.
Lemma fr_patch_resources r e a : frame true a (patch_resources r e a).1.2.
Proof using Type.
  destruct r as [r|]; [|apply frame_refl]. cbn [patch_resources]. destruct (existsb _ r); [apply frame_refl|].
  cbn [fst snd]. frames.
Qed.
Lemma fr_patch_crash v e a : frame true a (patch_crash_retries v e a).1.2.
Proof using Type.
  destruct v as [c|]; [|apply frame_refl]. cbn [patch_crash_retries]. destruct (c <? 0); [apply frame_refl|].
  cbn [fst snd]. frames.
Qed.
Lemma fr_patch_engines v e a : frame true a (patch_engines cpu_cap v e a).2.
Proof using Type. destruct v as [n|]; [|apply frame_refl]. cbn [patch_engines fst snd]. frames. Qed.
Lemma fr_patch_settings b persisted e a : frame true a (patch_settings cpu_cap b persisted e a).1.2.
Proof using Type.
  unfold patch_settings. destruct (patched_title _); [|apply frame_refl]. destruct (match sp_max_engines b with Some n => _ | None => _ end); [apply frame_refl|].
  pose proof (fr_patch_resources (sp_resources b) e a) as Hr.
  destruct (patch_resources _ _ _) as [[e1 a1] [[]|r]]; [|done]. cbn [fst snd] in Hr. eapply frame_trans; [exact Hr|].
  pose proof (fr_patch_slots (sp_slots b) slots e1 a1) as Hs.
  destruct (patch_slots _ _ _ _) as [[e2 a2] [[]|r]]; [|done]. cbn [fst snd] in Hs. eapply frame_trans; [exact Hs|].
  pose proof (fr_patch_crash (sp_crash_retries b) e2 a2) as Hc.
  destruct (patch_crash_retries _ _ _) as [[e3 a3] [[]|r]]; [|done]. cbn [fst snd] in Hc. eapply frame_trans; [exact Hc|].
  pose proof (fr_patch_engines (sp_max_engines b) e3 a3) as He.
  by destruct (patch_engines _ _ _ _).
Qed.
End settings.

Section tools.
Context `{StoreEnv, PoolEnv, ServerEnv, ScheduleEnv, ReaderEnv, RowEnv, JinjaEnv, ActionEnv, RangeEnv, SecretEnv, McpEnv}
  (ops : Ops) (Hops : ops_ok true ops) (cfg : McpConfig).

Lemma fr_lift {A} (r : App * result A ApiError) k a : frame true a r.1 → frame true a (Mcp.lift r k).1.
Proof using Type. done. Qed.
Lemma fr_checked {A} (r : result A ToolError) a k :
  (∀ x, frame true a (k x).1) → frame true a (Mcp.checked r a k).1.
Proof using Type. intros Hk. destruct r; [apply Hk|apply frame_refl]. Qed.
#[local] Hint Resolve fr_create_checked fr_create_inner fr_retry_inner fr_cancel_inner fr_create_backfill fr_set_variable
  : handlers.
Lemma fr_command t args user client a : frame true a (Mcp.command ops t args user client a).1.
Proof using Hops.
  destruct t; cbn [Mcp.command]; try apply frame_refl;
    unfold tool_rerun, tool_run_flow, tool_backfill, tool_create_schedule, tool_edit_schedule, tool_delete_schedule,
      tool_toggle_schedule, tool_cancel_backfill, tool_cancel_run, tool_resume_run, tool_send_message, tool_pause_scheduler,
      tool_resume_scheduler, tool_set_variable; repeat (apply fr_checked; intros ?); try apply fr_lift; try frames;
    repeat (case_match; try apply frame_refl); cbv zeta; try apply fr_lift; frames.
Qed.
Lemma fr_call_tool client user name args a : frame true a (call_tool ops cfg client user name args a).1.
Proof using Hops.
  unfold call_tool. destruct (starts_with name "flow__").
  - destruct (List.find _ _) as [[n flow]|]; [|apply frame_refl]. apply fr_lift. frames.
  - destruct (tool_named name) as [t|]; [|apply frame_refl]. destruct (query cfg t args a); [apply frame_refl|apply fr_command].
Qed.
End tools.

Section agents.
Context `{StoreEnv, PoolEnv, ServerEnv, ReaderEnv, RowEnv, AgentEnv}.

Lemma fw_agent now w a : frame true a (write (upsert_agent now w) a).1.
Proof using Type. by eapply (frame_any (CUpsertAgent now w)). Qed.
Lemma fw_agent_flow id f a : frame true a (write (set_agent_flow id f) a).1.
Proof using Type. by eapply (frame_any (CSetAgentFlow id f)). Qed.
Lemma fw_delete_agent id a : frame true a (write_ (StoreRegistry.delete_agent id) a).1.
Proof using Type. by eapply (frame_any_ (CDeleteAgent id)). Qed.
Lemma fw_approval now aid t h r f a : frame true a (write (add_approval now aid t h r f) a).1.
Proof using Type. by eapply (frame_any (CAddApproval now aid t h r f)). Qed.
Lemma fw_delete_approval aid id a : frame true a (write_ (delete_approval aid id) a).1.
Proof using Type. by eapply (frame_any_ (CDeleteApproval aid id)). Qed.
Lemma fr_live x a : frame true a (set_live_flows x a).
Proof using Type. apply fw_flags. Qed.
Lemma fr_registered fid m a : frame true a (publish_registered fid m a).
Proof using Type. unfold publish_registered. frames. Qed.
#[local] Hint Resolve fw_agent fw_agent_flow fw_delete_agent fw_approval fw_delete_approval fr_live fr_registered : handlers.
Lemma fr_register_flow dir row d a : frame true a (register_flow dir row d a).1.
Proof using Type. unfold register_flow. frames. Qed.
#[local] Hint Resolve fr_register_flow : handlers.
Lemma fr_save_agent cfg dir id src d a : frame true a (save_agent cfg dir id src d a).1.
Proof using Type. unfold save_agent. frames. Qed.
#[local] Hint Resolve fr_save_agent : handlers.
Lemma fr_create_agent cfg dir d a : frame true a (create_agent cfg dir d a).1.
Proof using Type. unfold create_agent. frames. Qed.
Lemma fr_patch_agent cfg dir id d a : frame true a (patch_agent cfg dir id d a).1.
Proof using Type. unfold patch_agent. frames. Qed.
Lemma fr_delete_agent id a : frame true a (delete_agent_request id a).1.
Proof using Type. unfold delete_agent_request. frames. Qed.
Lemma fr_add_approval id b a : frame true a (add_approval_request id b a).1.
Proof using Type. unfold add_approval_request. frames. Qed.
Lemma fr_delete_approval id aid a : frame true a (delete_approval_request id aid a).1.
Proof using Type. unfold delete_approval_request. frames. Qed.
End agents.

#[export] Hint Resolve fr_retention fr_patch_settings fr_call_tool fr_create_agent fr_patch_agent fr_delete_agent
  fr_add_approval fr_delete_approval : handlers.
