(* ===== verification/SessionLaws.v ===== *)
(** * Sessions of the server

    What holds of a server whatever reaches it: its timers, its tasks, its
    watchdog and the requests of the API, in any order. *)

From S2P Require Import Prelude Float64 Json States Transitions Timer Schedules Model DepGraph Events Unique.
From S2P Require Import RuleMatching RuleTemplates ActiveIndex Resources WorkQueue Pool GroupCommit Tables.
From S2P Require Import Store Reader StoreAdmin StoreRegistry Integrity RuleReader Replay Pages Validate App.
From S2P Require Import Mcp ApiAgents Scheduler Health Waits Dispatch RulesEngine ApiRuns ApiEngine ApiSchedules ApiBackfills.
From S2P Require Import ApiObserve ApiWorkers Server ApiFlows Retention ApiSettings Session Samples HandlerLaws ServerLaws ApiFrames.

Section sessions.
Context `{StoreEnv, PoolEnv, ServerEnv, ScheduleEnv, ReaderEnv, RowEnv, JinjaEnv, ActionEnv, HostEnv}
  `{ModuleEnv, RangeEnv, SecretEnv, FormatEnv, McpEnv, SettingsEnv, AgentEnv}.

(** What a session preserves: the frame without the clock. *)
Definition served (a a' : App) : Prop :=
  by_cmds true (store a) (store a') ∧ answer_lock a' = answer_lock a ∧ loop_locks a' = loop_locks a.

Lemma served_refl a : served a a.
Proof using Type. split; auto using by_cmds_refl. Qed.
Lemma served_trans a1 a2 a3 : served a1 a2 → served a2 a3 → served a1 a3.
Proof using Type.
  intros (H1' & H2' & H3') (H4' & H5' & H6'). split; [by eapply by_cmds_trans|]. split; congruence.
Qed.
Lemma frame_served a a' : frame true a a' → served a a'.
Proof using Type. by intros [? _ ? ?]. Qed.

Lemma fr_api n r a : frame true a (api (ops n) r a).
Proof using Type. pose proof (ops_frame true n) as Ho. destruct r; cbn [api]; frames. Qed.
Lemma serve_served n a i : served a (serve (ops n) a i).
Proof using Type.
  pose proof (ops_frame true n) as Ho. destruct i; cbn [serve]; try (apply frame_served; frames).
  - split; [apply by_cmds_refl|done].
  - by apply frame_served, fr_loop_tick.
  - by apply frame_served, fr_handle.
  - by apply frame_served, fr_run_task.
  - by apply frame_served, fr_reconcile.
  - apply frame_served. eapply frame_trans; [by apply (fr_start_inner true)|apply fr_rules_start].
  - apply frame_served, fr_api.
Qed.
Lemma session_served n inputs a : served a (fold_left (serve (ops n)) inputs a).
Proof using Type.
  revert a. induction inputs as [|i inputs IH]; intros a; simpl; [apply served_refl|].
  by eapply served_trans; [apply serve_served|apply IH].
Qed.


(** A session of the server leaves no dangling reference in the store: its
    handlers, tasks and calls keep what the writer's commands keep. *)
Theorem server_keeps_references (n : nat) (inputs : list input) (a : App) :
  fk_ok (store a) → fk_ok (store (fold_left (serve (ops n)) inputs a)).
Proof using Type.
  intros Hf. destruct (session_served n inputs a) as ((cs & _ & ->) & _). by apply fk_cmds.
Qed.
End sessions.

(** A session: reconciliation, and a custom event that answers one of two
    waiting runs. *)
Lemma server_keeps_references_witness :
  let a := app_of (waiting_store "order.created" "order.paid") in
  let a' := fold_left (serve (ops 8)) [InReconcile; InEvent (event_named "order.created")] a in
  fk_ok (store a) ∧ fk_ok (store a') ∧ halted a' = None ∧
  (λ r, c_type (r_cols r)) <$> (Tables.run (store a') !! 1) = Some (Some "Scheduled") ∧
  (λ r, c_type (r_cols r)) <$> (Tables.run (store a') !! 2) = Some (Some "Paused").
Proof.
  intros a a'. split; [apply fk_waiting|].
  split; [exact (server_keeps_references 8 _ a (fk_waiting _ _))|].
  split; [vm_compute; reflexivity|]. split; vm_compute; reflexivity.
Defined.
