(* ===== verification/SchedulerLaws.v ===== *)
(** * What the scheduler promises

    The grouped lookup of schedules agrees with the lookup per flow, the walk of
    fires is the chain of next fires, the look-ahead makes runs for exactly the
    fires that follow the last one it knows, and a catch-up picks the latest of
    the fires nothing has answered for. *)

From S2P Require Import Prelude Float64 Json States Transitions Timer Schedules Model DepGraph Events Unique.
From S2P Require Import RuleMatching RuleTemplates ActiveIndex Resources WorkQueue Pool GroupCommit Tables.
From S2P Require Import Store Reader StoreAdmin Integrity RuleReader Validate App Scheduler Waits Dispatch.
From S2P Require Import RulesEngine Server Samples HandlerLaws ServerLaws.

(** ** The cached schedules *)

Lemma group_rows wanted rows m fid :
  default [] (fold_left (group_row wanted) rows m !! fid) =
  default [] (m !! fid)
  ++ (if bool_decide (fid ∈ wanted) then List.filter (λ r, sr_flow_id r =? fid) rows else []).
Proof.
  revert m. induction rows as [|s rows IH]; intros m; simpl; [case_bool_decide; by rw app_nil_r|].
  rw IH /group_row. destruct (sr_flow_id s =? fid) eqn:E.
  - apply Z.eqb_eq in E as <-. case_bool_decide; [|done]. by rw lookup_insert_eq /= -app_assoc.
  - apply Z.eqb_neq in E. destruct (bool_decide (sr_flow_id s ∈ wanted)); [by rw lookup_insert_ne|done].
Qed.
Lemma group_rows_some wanted rows m fid l :
  (∀ l, m !! fid = Some l → l ≠ []) → fold_left (group_row wanted) rows m !! fid = Some l → l ≠ [].
Proof.
  revert m. induction rows as [|s rows IH]; intros m Hm; simpl; [apply Hm|]. apply IH. intros l'.
  rw /group_row. case_bool_decide; [|apply Hm].
  destruct (decide (sr_flow_id s = fid)) as [->|Hne]; [|by rw lookup_insert_ne; [apply Hm|]].
  rw lookup_insert_eq. intros [= <-]. by destruct (default [] _).
Qed.

Definition non_empty {A} (l : list A) : option (list A) := match l with [] => None | _ => Some l end.

(** One pass over the cached schedules gives each flow asked for the rows, in
    the order, that the lookup of that flow alone gives, and no other flow. *)
Theorem for_flows_agree (flow_ids : list Z) (m : gmap Z ScheduleRow) (fid : Z) :
  for_flows flow_ids m !! fid =
  if bool_decide (fid ∈ flow_ids) then non_empty (for_flow fid m) else None.
Proof.
  assert (for_flows flow_ids m = group_by_flow (map_to_list m).*2 flow_ids ∨ flow_ids = []) as [->| ->]
    by (destruct flow_ids; auto); [|done].
  rw /group_by_flow /for_flow lookup_fmap. set (rows := (map_to_list m).*2).
  pose proof (group_rows (list_to_set flow_ids) rows ∅ fid) as Hg. rw lookup_empty /= in Hg.
  rw (bool_decide_ext (fid ∈ list_to_set (C := gset Z) flow_ids) (fid ∈ flow_ids)) in Hg; [|set_solver].
  pose proof (λ l, group_rows_some (list_to_set flow_ids) rows ∅ fid l) as Hs.
  destruct (fold_left _ rows ∅ !! fid) as [l|]; simpl in Hg |- *.
  - specialize (Hs l). rw lookup_empty in Hs. case_bool_decide; [|by rw Hg in Hs; case: Hs].
    rw -Hg. destruct (sort_by_key sr_id l) eqn:E; [|by rw /= -E].
    exfalso. apply Hs; [done..|]. by apply Permutation_nil; rw -E sort_by_key_perm.
  - case_bool_decide; [by rw -Hg|done].
Qed.

(** ** Fires *)

Section fires.
Context `{ScheduleEnv}.

Lemma fires_from_chain now sch cursor n :
  let l := fires_from now sch cursor n in
  (length l ≤ n)%nat ∧ StronglySorted Z.lt (cursor :: l) ∧
  (∀ i c f, (cursor :: l) !! i = Some c → l !! i = Some f → next_after now sch c = Ok (Some f)) ∧
  ((length l < n)%nat → ∀ c f, last (cursor :: l) = Some c → next_after now sch c = Ok (Some f) → f ≤ c).
Proof using Type.
  revert cursor. induction n as [|n IH]; intros cursor; cbn zeta.
  { simpl. split; [lia|]. split; [repeat constructor|]. split; [done|lia]. }
  cbn [fires_from]. destruct (next_after now sch cursor) as [[next|]|] eqn:En;
    [destruct (cursor <? next) eqn:Ec| |];
    [|split; [simpl; lia|]; split; [repeat constructor|]; split; [done|]; intros _ c f [= <-];
      rw En; try done..]; [|by intros [= <-]; lia].
  destruct (IH next) as (H1 & H2 & H3 & H4). cbn zeta in H1. split; [simpl; lia|]. split.
  - constructor; [exact H2|]. constructor; [lia|]. inv H2. eapply Forall_impl; [done|]. simpl; lia.
  - split; [|intros Hl c f; rw last_cons_cons; apply H4; simpl in Hl; lia].
    intros [|i] c f; [by intros [= <-] [= <-]|apply H3].
Qed.

(** The fires ahead of a time are the chain of next fires from it: as many as
    asked for unless the schedule ends or stops moving on, each the schedule's
    next after the one before, and strictly increasing. *)
Theorem fires_after_chain (now : Z) (sch : Schedule) (after : Z) (count : nat) :
  let l := fires_after now sch after count in
  (length l ≤ count)%nat ∧ StronglySorted Z.lt (after :: l) ∧
  (∀ i c f, (after :: l) !! i = Some c → l !! i = Some f → next_after now sch c = Ok (Some f)) ∧
  ((length l < count)%nat → ∀ c f, last (after :: l) = Some c → next_after now sch c = Ok (Some f) → f ≤ c).
Proof using Type. apply fires_from_chain. Qed.
End fires.

(** ** Catch-up *)

Lemma elem_of_lfilter {A} (p : A → bool) (l : list A) x : x ∈ List.filter p l ↔ x ∈ l ∧ p x = true.
Proof. by rw !list_elem_of_In filter_In. Qed.

Lemma missed_spec now window skips taken fires :
  let '(kept, expired) := missed now window skips taken fires in
  (∀ f, f ∈ kept ↔ f ∈ fires ∧ (f ∉ skips) ∧ (f ∉ taken) ∧
                   match window with Some w => 0 < w → now - w * 1000000 ≤ f | None => True end) ∧
  (length kept + expired)%nat =
  length (List.filter (λ f, negb (bool_decide (f ∈ skips)) && negb (bool_decide (f ∈ taken))) fires).
Proof.
  rw /missed. set (open := List.filter _ fires).
  assert (∀ f, f ∈ open ↔ f ∈ fires ∧ (f ∉ skips) ∧ (f ∉ taken)) as Ho.
  { intros f. rw elem_of_lfilter andb_true_iff !negb_true_iff !bool_decide_eq_false. done. }
  destruct window as [w|]; [destruct (0 <? w) eqn:Ew|];
    [|split; [intros f; rw Ho; intuition lia|lia]|split; [intros f; rw Ho; intuition lia|lia]].
  split; [|match goal with |- context [List.filter ?p open] => pose proof (filter_length_le p open) end; lia].
  intros f. rw elem_of_lfilter Ho Z.leb_le. intuition lia.
Qed.

Lemma choose_spec policy max fires chosen dropped :
  choose policy max fires = Some (chosen, dropped) →
  chosen = drop dropped fires ∧ (length chosen + dropped = length fires)%nat ∧
  length chosen = match policy with
                  | Skip => 0
                  | Latest => 1
                  | All => Nat.min (Z.to_nat max) (length fires)
                  end%nat.
Proof.
  destruct policy; simpl.
  - intros [= <- <-]. by rw drop_all.
  - destruct (last fires) as [f|] eqn:El; [|done]. intros [= <- <-].
    apply last_Some in El as [l ->]. rw length_app /=. rw (_ : length l + 1 - 1 = length l)%nat; [|lia].
    rw drop_app_length. split; [done|]. split; [lia|done].
  - intros [= <- <-]. rw length_drop. split; [done|]. lia.
Qed.



(** ** The look-ahead *)

Section look_ahead.
Context `{StoreEnv, PoolEnv, ServerEnv, ScheduleEnv}.

Lemma transition_keeps_time id st force s s' acc :
  Store.transition TableRun id st force s = (s', Ok acc) →
  r_scheduled_time <$> Tables.run s' !! id = r_scheduled_time <$> Tables.run s !! id.
Proof using Type.
  rw /Store.transition. destruct (read_state TableRun id s) as [[cols n]|] eqn:Er; [|done].
  destruct (resolved _ _) as [acc'|] eqn:Ea; [|done]. intros [= <- <-].
  cbn [append_history write_checkpoint write_state set_last_rowid set_run_state set_run Tables.run].
  rw lookup_alter_eq -option_fmap_compose. by apply option_fmap_ext.
Qed.

Lemma create_run_time now c s s' rid ext :
  create_run now c s = (s', Ok (rid, ext)) →
  r_scheduled_time <$> Tables.run s' !! rid = Some (cr_scheduled_time c).
Proof using Type.
  rw /create_run. destruct (and_then _ _); [done|]. destruct (new_id s) as [s0 x].
  rw /insert_run. do 3 (destruct (_ : bool); [done|]).
  set (id := next_id _). set (s1 := set_last_rowid _ _).
  assert (r_scheduled_time <$> Tables.run s1 !! id = Some (cr_scheduled_time c)) as Hk.
  { rw /s1 /=. by rw lookup_insert_eq. }
  destruct (cr_initial_state c) as [st|]; [|by intros [= <- <- _]].
  destruct (Store.transition TableRun id st false s1) as [s2 [acc|]] eqn:Et; [|done].
  intros [= <- <- _]. by rw (transition_keeps_time _ _ _ _ _ _ Et).
Qed.

Lemma scheduled_run_time ops flow row t by_ skip u a a' run :
  create_scheduled_run ops flow row t by_ skip u a = (a', Some run) → run_scheduled_time run = Some t.
Proof using Type.
  rw /create_scheduled_run. cbv zeta. unfold write.
  match goal with |- context [create_run ?n ?c ?s] =>
    destruct (create_run n c s) as [s1 [[rid ext]|]] eqn:Ec; [|done] end.
  cbn [snd Store.settle set_store store]. apply create_run_time in Ec. cbn [cr_scheduled_time] in Ec.
  rw /get_run. destruct (Tables.run s1 !! rid) as [r|]; [|done]. injection Ec as Ec.
  rw /join_run. destruct (Tables.flow s1 !! _); [|done]. intros He. injection He as _ <-. exact Ec.
Qed.
End look_ahead.

Section kept.
Context `{StoreEnv, PoolEnv, ServerEnv, ScheduleEnv, ReaderEnv, RowEnv, JinjaEnv, ActionEnv}.

(** The runs made for fires nobody skipped. *)
Definition to_start (skips : list Z) (made : list ScheduleRunMark) : nat :=
  length (List.filter (λ t, negb (bool_decide (t ∈ skips))) (omap mark_time made)).

(** Why the look-ahead stopped after [made], with [starting] runs to start
    before it. *)
Inductive stopped (o : Ops) (flow : Flow) (row : ScheduleRow) (skips : list Z) (room : nat) (horizon cursor : Z)
    (starting : nat) (now : Z) (made : list ScheduleRunMark) : Prop :=
| StopFull : length made = room → stopped o flow row skips room horizon cursor starting now made
| StopEnough (c : Z) :
    last (cursor :: omap mark_time made) = Some c → horizon ≤ c → (LOOKAHEAD_RUNS ≤ starting + to_start skips made)%nat →
    stopped o flow row skips room horizon cursor starting now made
| StopEnd (c : Z) :
    last (cursor :: omap mark_time made) = Some c →
    (∀ f, next_after now (sr_schedule row) c = Ok (Some f) → f ≤ c) →
    stopped o flow row skips room horizon cursor starting now made
| StopRefused (next : Z) (skip : bool) (a : App) :
    (create_scheduled_run o flow row next "schedule" skip None a).2 = None →
    stopped o flow row skips room horizon cursor starting now made.

Lemma stopped_cons o flow row skips room horizon cursor starting starting' now next m made :
  mark_time m = Some next → starting' = (if bool_decide (next ∈ skips) then starting else S starting) →
  stopped o flow row skips room horizon next starting' now made →
  stopped o flow row skips (S room) horizon cursor starting now (m :: made).
Proof using Type.
  intros Ht -> [Hl|c Hl Hc Hn|c Hl Hc|f sk a' Hc].
  - apply StopFull. simpl. lia.
  - apply (StopEnough _ _ _ _ _ _ _ _ _ _ c); [by rw /= Ht|done|].
    rw /to_start /= Ht /=. change (list_omap _ _ mark_time made) with (omap mark_time made).
    rw /to_start in Hn. destruct (bool_decide _); cbn [negb length]; lia.
  - apply (StopEnd _ _ _ _ _ _ _ _ _ _ c); [by rw /= Ht|done].
  - by eapply StopRefused.
Qed.

(** Nothing made: what is left is why. *)
Ltac made_none := exists []; rw app_nil_r; split; [done|]; split; [cbn [length]; lia|]; split; [done|].

End kept.
