(* ===== verification/Answers.v ===== *)
(** * One answer to a pause

    No handler of the server pauses a run: the commands a frame allows without
    pausing ([issues false]) leave no row Paused that was not.  So once a pause
    has been answered, nothing the server does on its own brings it back, and
    every later answer to it is turned down without a write. *)

From S2P Require Import Prelude Float64 Json States Transitions Timer Schedules Model DepGraph Events Unique.
From S2P Require Import RuleMatching RuleTemplates ActiveIndex Resources WorkQueue Pool GroupCommit Tables.
From S2P Require Import Store Reader StoreAdmin Integrity RuleReader Validate App Scheduler Waits Dispatch.
From S2P Require Import RulesEngine Server HandlerLaws Samples ServerLaws.

Definition paused_row (s : Store) (id : Z) : Prop :=
  ∃ r, Tables.run s !! id = Some r ∧ c_type (r_cols r) = Some "Paused".
(** No row is Paused afterwards that was not before. *)
Definition shrinks (s s' : Store) : Prop := ∀ id, paused_row s' id → paused_row s id.

Lemma shrinks_refl s : shrinks s s.
Proof. by intros id. Qed.
Lemma shrinks_trans s1 s2 s3 : shrinks s1 s2 → shrinks s2 s3 → shrinks s1 s3.
Proof. intros H1 H2 id Hp. auto. Qed.
Lemma shrinks_same s s' : Tables.run s' = Tables.run s → shrinks s s'.
Proof. intros He id. by rw /paused_row He. Qed.
(** Rows that keep their state type. *)
Lemma shrinks_alter f id s :
  (∀ r, c_type (r_cols (f r)) = c_type (r_cols r)) → shrinks s (set_run (alter f id (Tables.run s)) s).
Proof.
  intros Hf i (r & Hr & Hp). cbn [set_run Tables.run] in Hr.
  apply lookup_alter_Some in Hr as [(-> & r0 & Hr & ->)|[_ Hr]]; [|by exists r].
  exists r0. split; [done|]. by rw Hf in Hp.
Qed.
Lemma shrinks_insert id r s : c_type (r_cols r) ≠ Some "Paused" → shrinks s (set_run (<[id := r]> (Tables.run s)) s).
Proof.
  intros Hn i (x & Hx & Hp). cbn [set_run Tables.run] in Hx.
  apply lookup_insert_Some in Hx as [[-> ->]|[_ Hx]]; [done|]. by exists x.
Qed.
Lemma shrinks_filter (P : Z * RunRow → Prop) `{∀ x, Decision (P x)} s s' :
  Tables.run s' = filter P (Tables.run s) → shrinks s s'.
Proof.
  intros He i (x & Hx & Hp). rw He in Hx. apply map_lookup_filter_Some in Hx as [Hx _]. by exists x.
Qed.
Lemma shrinks_where q f s :
  (∀ r, c_type (r_cols (f r)) = c_type (r_cols r)) → shrinks s (set_run (update_where q f (Tables.run s)) s).
Proof.
  intros Hf i (x & Hx & Hp). cbn [set_run Tables.run] in Hx. rw /update_where lookup_fmap in Hx.
  destruct (Tables.run s !! i) as [r|] eqn:E; [|done]. injection Hx as <-. exists r. split; [done|].
  destruct (q r); [by rw Hf in Hp|done].
Qed.

Section pauses.
Context `{StoreEnv}.

Lemma accepted_type current st force acc :
  resolved (propose current {| prop_state := st; prop_force := force |} policy0) st = Ok acc →
  state_type acc = state_type st.
Proof using Type.
  rw /propose. cbn [prop_state prop_force]. destruct force; [by intros [= <-]|].
  assert (∀ t, resolved (entry_rule t (state_type st)) st = Ok acc → state_type acc = state_type st) as He.
  { intros t. rw /entry_rule. destruct (state_type st) eqn:Et, t as [[]|]; simpl; intros [= <-]; by rw Et. }
  destruct current as [cur|]; [|apply He].
  destruct (State_is_terminal cur); [done|]. destruct (is_duplicate cur st); [done|apply He].
Qed.
Lemma type_text_paused t : StateType_as_str t = "Paused" → t = Paused.
Proof using Type. by destruct t. Qed.

(** A transition writes the row of the run, and only with its own type. *)
Lemma transition_rows id st force s s' acc :
  Store.transition TableRun id st force s = (s', Ok acc) →
  (∃ r, Tables.run s' !! id = Some r ∧ c_type (r_cols r) = Some (StateType_as_str (state_type st))) ∧
  (∀ i, i ≠ id → Tables.run s' !! i = Tables.run s !! i).
Proof using Type.
  rw /Store.transition. destruct (read_state TableRun id s) as [[cols n]|] eqn:Er; [|done].
  destruct (resolved _ _) as [acc'|] eqn:Ea; [|done]. intros [= <- <-].
  cbn [append_history write_checkpoint write_state set_last_rowid set_run_state set_run Tables.run].
  cbn [read_state] in Er. destruct (Tables.run s !! id) as [r|] eqn:Ex; [|done].
  split.
  - eexists. split; [by rw lookup_alter_eq Ex|]. cbn. f_equal. by rw (accepted_type _ _ _ _ Ea).
  - intros i Hi. by rw lookup_alter_ne.
Qed.
Lemma transition_shrinks id st force s :
  state_type st ≠ Paused → shrinks s (Store.settle s (Store.transition TableRun id st force s)).
Proof using Type.
  intros Hn. destruct (Store.transition TableRun id st force s) as [s' [acc|e]] eqn:E; [|apply shrinks_refl].
  destruct (transition_rows _ _ _ _ _ _ E) as ((r & Hr & Ht) & Hne). intros i (x & Hx & Hp). cbn in Hx.
  destruct (decide (i = id)) as [->|Hi]; [|exists x; by rw -Hne].
  exfalso. apply Hn, type_text_paused. congruence.
Qed.

Lemma may_pause_false st : may_pause false st = true → state_type st ≠ Paused.
Proof using Type. rw /may_pause /=. by destruct (state_type st). Qed.

Lemma create_shrinks now c s :
  (∀ st, cr_initial_state c = Some st → state_type st ≠ Paused) →
  shrinks s (Store.settle s (create_run now c s)).
Proof using Type.
  intros Hi. rw /create_run. destruct (and_then _ _); [apply shrinks_refl|].
  rw /new_id. match goal with |- context [insert_run ?row ?s0] =>
    assert (shrinks s (insert_run row s0).1) as H1; [|destruct (insert_run row s0) as [s1 [id|e]]] end.
  { rw /insert_run. destruct (existsb _ _); [by apply shrinks_same|].
    destruct (existsb _ _); [by apply shrinks_same|]. destruct (negb _); [by apply shrinks_same|]. cbn.
    eapply shrinks_trans; [|by apply shrinks_same]. by apply (shrinks_insert _ _ (set_drawn _ s)). }
  2:{ apply shrinks_refl. }
  destruct (cr_initial_state c) as [st|]; [|exact H1].
  pose proof (transition_shrinks id st false s1 (Hi st eq_refl)) as H2.
  destruct (Store.transition TableRun id st false s1) as [s2 [acc|e]]; [|apply shrinks_refl].
  cbn in *. by eapply shrinks_trans.
Qed.

Lemma delete_rows_shrinks gone s : shrinks s (delete_run_rows gone s).
Proof using Type. by eapply (shrinks_filter (λ kr, gone kr.1 = false)). Qed.

(** Commands that write no run. *)
Lemma settle_shrinks {A} s (x : Store * result A StoreError) :
  Tables.run x.1 = Tables.run s → shrinks s (Store.settle s x).
Proof using Type. destruct x as [s' []]; cbn; intros He; [by apply shrinks_same|apply shrinks_refl]. Qed.
Lemma upsert_schedule_run now w s : Tables.run (upsert_schedule now w s).1 = Tables.run s.
Proof using Type.
  rw /upsert_schedule /new_id. destruct (sw_id w); [done|]. destruct (existsb _ _); [done|].
  by destruct (negb _).
Qed.
Lemma add_skips_run now sid l by_ s : Tables.run (add_skips now sid l by_ s).1 = Tables.run s.
Proof using Type.
  revert s. induction l as [|f l IH]; intros s; cbn [add_skips]; [done|].
  destruct (negb _); [done|]. cbv zeta.
  match goal with |- context [add_skips now sid l by_ ?s0] =>
    specialize (IH s0); destruct (add_skips now sid l by_ s0) as [s1 []] end; cbn [fst] in *; rw IH;
    by case_bool_decide.
Qed.
Lemma delete_skips_run sid l s : Tables.run (delete_skips sid l s).1 = Tables.run s.
Proof using Type.
  revert s. induction l as [|f l IH]; intros s; cbn [delete_skips]; [done|].
  match goal with |- context [delete_skips sid l ?s0] =>
    specialize (IH s0); destruct (delete_skips sid l s0) as [s1 n] end. cbn [fst] in *. by rw IH.
Qed.
Lemma arm_run_rows x s : Tables.run (arm_expectation x s).1 = Tables.run s.
Proof using Type. rw /arm_expectation. destruct (expectations_where _ _); [|done]. by destruct (negb _). Qed.
Lemma settle_run_rows id st s : Tables.run (settle_expectation id st s).1 = Tables.run s.
Proof using Type. rw /settle_expectation. destruct (_ !! _); [|done]. by destruct (_ =?s _). Qed.
Lemma firing_run_rows now r e x o s : Tables.run (record_firing now r e x o s).1 = Tables.run s.
Proof using Type. rw /record_firing. by destruct (negb _). Qed.
Lemma message_run_rows now r t x s : Tables.run (run_message_insert now r t x s).1 = Tables.run s.
Proof using Type. rw /run_message_insert. by destruct (negb _). Qed.
Lemma claim_run_rows now r t i q s : Tables.run (run_message_claim now r t i q s).1 = Tables.run s.
Proof using Type.
  rw /run_message_claim. cbv zeta.
  destruct (if q then None else _) as [ans|]; [done|]. by destruct (pending_message _ _ _) as [[n m]|].
Qed.
Lemma event_run_rows now e s : Tables.run (append_event now e s).1 = Tables.run s.
Proof using Type.
  rw /append_event /new_id. cbv zeta. rw /insert_event. by destruct (existsb _ _).
Qed.

Lemma sync_shrinks sid s : shrinks s (sync_skip_marks sid s).1.
Proof using Type.
  rw /sync_skip_marks. cbn [fst]. cbv zeta.
  eapply shrinks_trans; [|by apply shrinks_where]. by apply shrinks_where.
Qed.
Lemma bump_shrinks id s : shrinks s (bump_lease id s).1.
Proof using Type.
  rw /bump_lease. destruct (Tables.run s !! id) as [r|] eqn:E; [|apply shrinks_refl]. cbn [fst].
  intros i (x & Hx & Hp). cbn [set_run Tables.run] in Hx.
  apply lookup_insert_Some in Hx as [[<- <-]|[_ Hx]]; [by exists r|by exists x].
Qed.
Lemma reschedule_shrinks id t x s : shrinks s (Store.settle s (reschedule_run id t x s)).
Proof using Type.
  rw /reschedule_run. destruct (Tables.run s !! id) as [r|] eqn:E; [|apply shrinks_refl].
  destruct (is_state "Scheduled" r) eqn:Es; cbn [negb]; [|apply shrinks_refl].
  destruct (existsb _ _); [apply shrinks_refl|]. cbn [Store.settle]. apply shrinks_insert.
  rw /is_state in Es. apply bool_decide_eq_true in Es. cbn. by rw Es.
Qed.
Lemma delete_schedule_shrinks sid s : shrinks s (StoreAdmin.delete_schedule sid s).1.
Proof using Type.
  assert (shrinks s (delete_unstarted_runs sid s).1) as H1 by apply delete_rows_shrinks.
  unfold StoreAdmin.delete_schedule. destruct (delete_unstarted_runs sid s) as [s1 ids]. cbn [fst] in *.
  eapply shrinks_trans; [exact H1|]. by apply shrinks_same.
Qed.

Lemma issued_shrinks c s : issues false c = true → shrinks s (exec_cmd s c).
Proof using Type.
  intros Hi. destruct c as [c| | | | | | | | | | | | | | | | | | | | | | | | | | | | | | | | | | | | | | | | | | | | | | | | | | | | | | | | | |];
    try discriminate Hi; cbn [exec_cmd].
  1:{ destruct c as [now c| |[] id st force| | |now e|]; try discriminate Hi; cbn [sexec issues] in *.
      - apply create_shrinks. intros st Hst. rw Hst in Hi. by apply may_pause_false.
      - by apply transition_shrinks, may_pause_false.
      - apply settle_shrinks, event_run_rows. }
  all: clear Hi.
  - apply settle_shrinks, upsert_schedule_run.
  - by apply shrinks_same.
  - apply settle_shrinks, add_skips_run.
  - apply shrinks_same, delete_skips_run.
  - by apply shrinks_same.
  - apply sync_shrinks.
  - apply settle_shrinks, arm_run_rows.
  - by apply shrinks_same.
  - apply shrinks_same, settle_run_rows.
  - by apply shrinks_same.
  - apply settle_shrinks, firing_run_rows.
  - by apply shrinks_same.
  - by apply shrinks_same.
  - by apply shrinks_same.
  - apply settle_shrinks, message_run_rows.
  - apply shrinks_same, claim_run_rows.
  - by apply shrinks_alter.
  - by apply shrinks_alter.
  - apply bump_shrinks.
  - apply reschedule_shrinks.
  - apply delete_rows_shrinks.
  - apply delete_schedule_shrinks.
Qed.
Lemma by_cmds_shrinks s s' : by_cmds false s s' → shrinks s s'.
Proof using Type.
  intros (cs & Hall & ->). revert s. induction Hall as [|c cs Hc _ IH]; intros s; [apply shrinks_refl|].
  cbn [fold_left]. by eapply shrinks_trans; [apply issued_shrinks|apply IH].
Qed.
End pauses.

Section answers.
Context `{StoreEnv, PoolEnv, ServerEnv, ScheduleEnv, ReaderEnv, RowEnv, JinjaEnv, ActionEnv, HostEnv}.

Lemma get_run_id id s run : get_run id s = Some run → run_id run = id.
Proof using Type.
  rw /get_run /join_run. destruct (Tables.run s !! id); [|done]. by destruct (flow s !! _); intros [= <-].
Qed.
Lemma get_run_paused id s run : get_run id s = Some run → is_paused_run run = true → paused_row s id.
Proof using Type.
  rw /get_run /join_run. destruct (Tables.run s !! id) as [r|] eqn:Er; [|done].
  destruct (flow s !! _); intros [= <-]. rw /is_paused_run /run_from_row. cbn [Model.run_state snd].
  rw /state_from_columns. intros Hp. exists r. split; [done|].
  destruct (c_type (r_cols r)) as [t|]; cbn [and_then] in Hp; [|done].
  destruct (StateType_parse t) as [ty|] eqn:Ep; [|done]. cbn in Hp.
  apply StateType_parse_Some in Ep as ->. by destruct ty.
Qed.

Lemma frame_unpaused a a' id : frame false a a' → ¬ paused_row (store a) id → ¬ paused_row (store a') id.
Proof using Type. intros Hf Hn Hp. by apply Hn, (by_cmds_shrinks _ _ (fr_store _ _ _ Hf)). Qed.

(** An accepted transition to another state ends the pause for good. *)
Lemma accepted_unpaused n rid st force a a' run :
  op_transition_run (ops n) rid st force a = (a', Ok (TAccepted run)) → state_type st ≠ Paused →
  ¬ paused_row (store a') rid.
Proof using Type.
  destruct n as [|n]; cbn [ops op_transition_run stuck_ops]; [done|].
  pose proof (ops_frame false n) as Ho. unfold transition_run.
  destruct (get_run rid (store a)) as [previous|]; [|done]. unfold write.
  destruct (Store.transition TableRun rid st force (store a)) as [s1 [new|e]] eqn:Et;
    [|by destruct e; intros [= ]].
  cbn [snd Store.settle]. intros He Hn. injection He as <- _.
  eapply (frame_unpaused (set_store s1 a)); [frames|]. cbn [set_store store].
  destruct (transition_rows _ _ _ _ _ _ Et) as ((r & Hr & Ht) & _). intros (r' & Hr' & Hp).
  apply Hn, type_text_paused. congruence.
Qed.

Lemma woken_unpaused n run input a a' r :
  wake_locked (ops n) run input a = (a', Ok (Done (TAccepted r))) → ¬ paused_row (store a') (run_id run).
Proof using Type.
  unfold wake_locked. destruct (get_flow _ _) as [flow|]; [|done]. cbv zeta.
  destruct (op_transition_run (ops n) (run_id run) _ false _) as [a1 [[run'|re cu]|e]] eqn:Et; [|done..].
  intros [= <- _]. eapply frame_unpaused; [apply (ops_frame false n)|]. by eapply accepted_unpaused.
Qed.

Lemma answered_unpaused n observed input a a' r :
  wake_paused (ops n) observed input a = (a', Ok (Done (TAccepted r))) →
  ¬ paused_row (store a') (run_id observed).
Proof using Type.
  unfold wake_paused, with_answer_lock. destruct (answer_lock a); [done|].
  match goal with |- context [get_run ?i ?s] => destruct (get_run i s) as [run|] eqn:Eg; [|done] end.
  destruct (_ || _); [done|].
  destruct (input run _) as [a1 [v|]]; [|done].
  destruct (wake_locked (ops n) run v a1) as [a2 w] eqn:Ew. intros [= <- ->].
  apply woken_unpaused in Ew. by rw (get_run_id _ _ _ Eg) in Ew.
Qed.

(** Nothing is written for a run that is not Paused. *)
Lemma unpaused_turned_down n observed input a :
  ¬ paused_row (store a) (run_id observed) →
  let r := wake_paused (ops n) observed input a in store r.1 = store a ∧ ∀ d, r.2 ≠ Ok (Done d).
Proof using Type.
  intros Hn. cbv zeta. unfold wake_paused, with_answer_lock. destruct (answer_lock a); [done|].
  match goal with |- context [get_run ?i ?s] => destruct (get_run i s) as [run|] eqn:Eg; [|done] end.
  assert (is_paused_run run = false) as ->; [|done]. apply not_true_iff_false. intros Hp.
  by apply Hn, (get_run_paused _ _ _ Eg).
Qed.

End answers.

