(* ===== verification/Leases.v ===== *)
(** * Leases fence engines

    Handing a run to an engine gives it the next lease of the run.  No command
    of the writer takes a lease back while the run's row stays, so an engine
    that held the run before is turned away by every request it sends from then
    on.  A row that is deleted takes its lease with it: [lease_reborn] shows
    what the reuse of ids makes of that. *)

From S2P Require Import Prelude Float64 Json States Transitions Timer Schedules Model DepGraph Events Unique.
From S2P Require Import RuleMatching RuleTemplates ActiveIndex Resources WorkQueue Pool GroupCommit Tables.
From S2P Require Import Store Reader StoreAdmin StoreRegistry Integrity RuleReader Replay Pages Validate App.
From S2P Require Import Scheduler Health Waits Dispatch RulesEngine ApiRuns ApiEngine Server HandlerLaws.
From S2P Require Import Samples Session SessionLaws Answers.

Create HintDb run_rows discriminated.

(** The rows stay and their leases do not go down. *)
Definition leases_grow (s s' : Store) : Prop :=
  ∀ id r, Tables.run s !! id = Some r → ∃ r', Tables.run s' !! id = Some r' ∧ r_lease r ≤ r_lease r'.
(** Rows go, and what stays is as it was. *)
Definition rows_drop (s s' : Store) : Prop := Tables.run s' ⊆ Tables.run s.

Lemma grow_refl s : leases_grow s s.
Proof. intros id r Hr. exists r. split; [done|lia]. Qed.
Lemma grow_same s s' : Tables.run s' = Tables.run s → leases_grow s s'.
Proof. intros He id r Hr. exists r. rw He. split; [done|lia]. Qed.
Lemma grow_trans s1 s2 s3 : leases_grow s1 s2 → leases_grow s2 s3 → leases_grow s1 s3.
Proof.
  intros H1 H2 id r Hr. destruct (H1 id r Hr) as (r1 & Hr1 & Hl). destruct (H2 id r1 Hr1) as (r2 & Hr2 & Hl2).
  exists r2. split; [done|lia].
Qed.
Lemma grow_alter f id s : (∀ r, r_lease (f r) = r_lease r) → leases_grow s (set_run (alter f id (Tables.run s)) s).
Proof.
  intros Hf i r Hr. cbn [set_run Tables.run]. destruct (decide (id = i)) as [->|Hn].
  - rw lookup_alter_eq Hr. eexists. split; [done|]. rw Hf. lia.
  - rw lookup_alter_ne //. exists r. split; [done|lia].
Qed.
Lemma grow_insert id r0 s :
  (∀ r, Tables.run s !! id = Some r → r_lease r ≤ r_lease r0) → leases_grow s (set_run (<[id := r0]> (Tables.run s)) s).
Proof.
  intros Hf i r Hr. cbn [set_run Tables.run]. destruct (decide (id = i)) as [->|Hn].
  - rw lookup_insert_eq. exists r0. split; [done|by apply Hf].
  - rw lookup_insert_ne //. exists r. split; [done|lia].
Qed.
Lemma grow_where q f s :
  (∀ r, r_lease (f r) = r_lease r) → leases_grow s (set_run (update_where q f (Tables.run s)) s).
Proof.
  intros Hf i r Hr. cbn [set_run Tables.run]. rw /update_where lookup_fmap Hr /=. eexists. split; [done|].
  destruct (q r); [rw Hf|]; lia.
Qed.
Lemma drop_filter (P : Z * RunRow → Prop) `{∀ x, Decision (P x)} s s' :
  Tables.run s' = filter P (Tables.run s) → rows_drop s s'.
Proof. intros He. rw /rows_drop He. apply map_filter_subseteq. Qed.
Lemma drop_trans s1 s2 s3 : rows_drop s1 s2 → rows_drop s2 s3 → rows_drop s1 s3.
Proof. rw /rows_drop. intros H1 H2. by etrans. Qed.

Section commands.
Context `{StoreEnv}.

Lemma settle_grow {A} s (x : Store * result A StoreError) : leases_grow s x.1 → leases_grow s (Store.settle s x).
Proof using Type. destruct x as [s' []]; [done|intros _; apply grow_refl]. Qed.
Lemma settle_same {A} s (x : Store * result A StoreError) :
  Tables.run x.1 = Tables.run s → leases_grow s (Store.settle s x).
Proof using Type. intros He. by apply settle_grow, grow_same. Qed.

Lemma transition_grow t id st force s : leases_grow s (Store.transition t id st force s).1.
Proof using Type.
  rw /Store.transition. destruct (read_state t id s) as [[cols n]|]; [|apply grow_refl].
  destruct (resolved _ _) as [acc|]; [|apply grow_refl]. destruct t; cycle 1.
  { apply grow_same. rw /append_history /write_checkpoint /=. by destruct (checkpoint_of acc) as [[]|]. }
  eapply grow_trans; [|by apply grow_same]. by apply grow_alter.
Qed.
Lemma insert_grow row s : leases_grow s (insert_run row s).1.
Proof using Type.
  rw /insert_run. destruct (existsb _ _); [apply grow_refl|].
  destruct (existsb _ _); [apply grow_refl|]. destruct (negb _); [apply grow_refl|]. cbn [fst].
  eapply grow_trans; [|by apply grow_same]. apply grow_insert. intros r. by rw next_id_fresh.
Qed.
Lemma create_grow now c s : leases_grow s (create_run now c s).1.
Proof using Type.
  rw /create_run. destruct (and_then _ _); [apply grow_refl|]. rw /new_id.
  match goal with |- context [insert_run ?row ?s0] =>
    pose proof (insert_grow row s0) as H1; destruct (insert_run row s0) as [s1 [id|e]] end; cbn [fst] in *.
  2:{ by eapply grow_trans; [|exact H1]; apply grow_same. }
  assert (leases_grow s s1) as Hs by (by eapply grow_trans; [|exact H1]; apply grow_same).
  destruct (cr_initial_state c) as [st|]; [|exact Hs].
  pose proof (transition_grow TableRun id st false s1) as H2.
  destruct (Store.transition TableRun id st false s1) as [s2 [acc|e]]; cbn [fst] in *; by eapply grow_trans.
Qed.
Lemma bulk_grow now cs s : leases_grow s (create_runs_bulk now cs s).1.
Proof using Type.
  revert s. induction cs as [|c cs IH]; intros s; cbn [create_runs_bulk]; [apply grow_refl|].
  pose proof (create_grow now c s) as H1. destruct (create_run now c s) as [s1 [v|e]]; [|done]. cbn [fst] in H1.
  specialize (IH s1). destruct (create_runs_bulk now cs s1) as [s2 [out|e]]; by eapply grow_trans.
Qed.
Lemma many_grow ids st s : leases_grow s (transition_many ids st s).1.
Proof using Type.
  revert s. induction ids as [|id ids IH]; intros s; cbn [transition_many]; [apply grow_refl|].
  pose proof (transition_grow TableRun id st false s) as H1.
  destruct (Store.transition TableRun id st false s) as [s1 [v|e]]; cbn [fst] in H1; specialize (IH s1).
  - destruct (transition_many ids st s1) as [s2 [out|e]]; by eapply grow_trans.
  - destruct e; try exact H1; by eapply grow_trans.
Qed.

(** The rest of a report writes no run. *)
Lemma task_run_rows now c s : Tables.run (create_task_run now c s).1 = Tables.run s.
Proof using Type. rw /create_task_run /new_id /insert_task_run /mark_once /=. by repeat case_match; simplify_eq/=. Qed.
Lemma logs_run_rows logs c s : Tables.run (append_logs_loop logs c s).1.1 = Tables.run s.
Proof using Type.
  revert c s. induction logs as [|l logs IH]; intros c s; [done|]. cbn [append_logs_loop].
  destruct (log_task_run_id l c s) as [c1 t]. rw /insert_log. destruct (negb _); [done|]. by rw IH.
Qed.
Lemma effect_run_rows now id m ref s : Tables.run (record_effect now id m ref s).1 = Tables.run s.
Proof using Type. rw /record_effect /=. by repeat case_match; simplify_eq/=. Qed.
Lemma artifact_run_rows now x s : Tables.run (upsert_artifact now x s).1 = Tables.run s.
Proof using Type.
  rw /upsert_artifact /upsert_artifact_row /new_id /record_effect /=. by repeat case_match; simplify_eq/=.
Qed.
Lemma report_grow now rid events s : leases_grow s (apply_report now rid events s).1.
Proof using Type.
  apply (report_keeps (leases_grow s)); try (intros *; intros Hg; eapply grow_trans; [exact Hg|]).
  - apply grow_same, task_run_rows.
  - apply transition_grow.
  - apply grow_same, logs_run_rows.
  - apply grow_same, event_run_rows.
  - apply grow_same, effect_run_rows.
  - apply grow_same, artifact_run_rows.
  - by apply grow_alter.
  - apply grow_refl.
Qed.
Lemma sexec_grow c s : leases_grow s (sexec s c).
Proof using Type.
  destruct c as [now c|now c|t id st force|now rid events|logs|now e|now x]; cbn [sexec].
  - apply settle_grow, create_grow.
  - apply settle_same, task_run_rows.
  - apply settle_grow, transition_grow.
  - apply settle_grow, report_grow.
  - apply settle_same. rw /append_logs /append_logs_with_map. pose proof (logs_run_rows logs ∅ s) as Hl.
    by destruct (append_logs_loop logs ∅ s) as [[s1 c] []].
  - apply settle_same, event_run_rows.
  - apply settle_same, artifact_run_rows.
Qed.

(** *** The other commands *)

Lemma bump_grow id s : leases_grow s (bump_lease id s).1.
Proof using Type.
  rw /bump_lease. destruct (Tables.run s !! id) as [r|] eqn:E; [|apply grow_refl]. cbn [fst].
  apply grow_insert. intros r' Hr'. assert (r' = r) as -> by congruence. cbn. lia.
Qed.
Lemma claim_run_grow id host q hash s : leases_grow s (claim_run id host q hash s).1.
Proof using Type.
  rw /claim_run. destruct (Tables.run s !! id) as [r|] eqn:E; [|apply grow_refl]. cbn [fst].
  apply grow_insert. intros r' Hr'. assert (r' = r) as -> by congruence. cbn. lia.
Qed.
Lemma reschedule_grow id t x s : leases_grow s (reschedule_run id t x s).1.
Proof using Type.
  rw /reschedule_run. destruct (Tables.run s !! id) as [r|] eqn:E; [|apply grow_refl].
  destruct (negb _); [apply grow_refl|]. destruct (existsb _ _); [apply grow_refl|]. cbn [fst].
  apply grow_insert. intros r' Hr'. assert (r' = r) as -> by congruence. cbn. lia.
Qed.
Lemma attributes_grow now id patch e s : leases_grow s (merge_run_attributes now id patch e s).1.
Proof using Type.
  rw /merge_run_attributes. destruct (Tables.run s !! id) as [r|] eqn:E; [|apply grow_refl].
  destruct (value_from_str _) as [t|]; [|apply grow_refl]. destruct (value_from_str patch) as [p|]; [|apply grow_refl].
  cbv zeta. match goal with |- context [set_run ?m s] => assert (leases_grow s (set_run m s)) as Hg end.
  { apply grow_insert. intros r' Hr'. assert (r' = r) as -> by congruence. cbn. lia. }
  destruct e as [mark|]; [|done]. match goal with |- context [record_effect ?a ?b ?c ?d ?s0] =>
    pose proof (effect_run_rows a b c d s0) as He; destruct (record_effect a b c d s0) as [s1 []] end;
    cbn [fst] in *; by eapply grow_trans; [exact Hg|apply grow_same].
Qed.
Lemma sync_grow sid s : leases_grow s (sync_skip_marks sid s).1.
Proof using Type.
  rw /sync_skip_marks. cbn [fst]. cbv zeta. eapply grow_trans; [|by apply grow_where]. by apply grow_where.
Qed.
Lemma events_run_rows now es s : Tables.run (append_events now es s).1 = Tables.run s.
Proof using Type.
  revert s. induction es as [|e es IH]; intros s; cbn [append_events]; [done|].
  pose proof (event_run_rows now e s) as He. destruct (append_event now e s) as [s1 [o|]]; [|done]. cbn [fst] in He.
  specialize (IH s1). destruct (append_events now es s1) as [s2 []]; cbn [fst] in *; congruence.
Qed.
Lemma event_effect_run_rows now e m s : Tables.run (append_event_with_effect now e m s).1 = Tables.run s.
Proof using Type.
  rw /append_event_with_effect. pose proof (event_run_rows now e s) as He.
  destruct (append_event now e s) as [s1 [o|]]; [|done]. cbn [fst] in He.
  destruct m as [m|]; [|done]. destruct (ne_run_id e) as [rid|]; [|done].
  pose proof (effect_run_rows now rid m None s1) as Hf. destruct (record_effect now rid m None s1) as [s2 []];
    cbn [fst] in *; congruence.
Qed.
Lemma task_state_run_rows now rid sc k v e s : Tables.run (task_state_set now rid sc k v e s).1 = Tables.run s.
Proof using Type.
  rw /task_state_set. destruct (Tables.run s !! rid); [|done]. cbv zeta. destruct e as [m|]; [|done].
  match goal with |- context [record_effect ?a ?b ?c ?d ?s0] =>
    pose proof (effect_run_rows a b c d s0) as He; destruct (record_effect a b c d s0) as [s1 []] end; done.
Qed.

(** *** Deletions *)

Lemma drop_runs gone s : rows_drop s (delete_run_rows gone s).
Proof using Type. by eapply (drop_filter (λ kr, gone kr.1 = false)). Qed.
Lemma run_set_flow m s : Tables.run (set_flow m s) = Tables.run s. Proof using Type. done. Qed.
Lemma run_set_agent m n s : Tables.run (set_agent m n s) = Tables.run s. Proof using Type. done. Qed.
Lemma run_set_backfill m s : Tables.run (set_backfill m s) = Tables.run s. Proof using Type. done. Qed.
Lemma run_set_event m s : Tables.run (set_event m s) = Tables.run s. Proof using Type. done. Qed.
Lemma run_set_firing m s : Tables.run (set_firing m s) = Tables.run s. Proof using Type. done. Qed.
Lemma run_set_expectation m s : Tables.run (set_expectation m s) = Tables.run s. Proof using Type. done. Qed.
Lemma run_set_kv m s : Tables.run (set_kv m s) = Tables.run s. Proof using Type. done. Qed.
Lemma run_set_rule m s : Tables.run (set_rule m s) = Tables.run s. Proof using Type. done. Qed.
Lemma run_set_variable m s : Tables.run (set_variable m s) = Tables.run s. Proof using Type. done. Qed.
Lemma run_set_schedule m s : Tables.run (set_schedule m s) = Tables.run s. Proof using Type. done. Qed.
Lemma run_set_skip m s : Tables.run (set_skip m s) = Tables.run s. Proof using Type. done. Qed.
Lemma run_less_schedules gone s : Tables.run (delete_schedule_rows gone s) = Tables.run s.
Proof using Type. rw /delete_schedule_rows. cbv zeta. by rw run_set_skip run_set_schedule. Qed.
Lemma run_less_rules gone s : Tables.run (delete_rule_rows gone s) = Tables.run s.
Proof using Type. rw /delete_rule_rows. cbv zeta. by rw run_set_expectation run_set_firing run_set_rule. Qed.
Lemma run_less_kv ids s : Tables.run (delete_run_kv ids s) = Tables.run s.
Proof using Type. by rw /delete_run_kv run_set_kv. Qed.

Lemma drop_flows gone s : rows_drop s (delete_flow_rows_where gone s).
Proof using Type.
  rw /delete_flow_rows_where /rows_drop. cbv zeta.
  rw run_set_flow run_set_agent run_set_backfill run_less_schedules. apply drop_runs.
Qed.
Lemma drop_definitions live s : rows_drop s (reset_definitions live s).
Proof using Type.
  rw /reset_definitions /rows_drop. cbv zeta.
  rw run_set_variable run_less_rules run_set_kv run_less_schedules. apply drop_flows.
Qed.
Lemma drop_history s : rows_drop s (reset_history s).
Proof using Type.
  rw /reset_history /rows_drop. cbv zeta.
  rw run_set_rule run_set_kv run_set_event run_set_firing run_set_expectation run_set_backfill. apply drop_runs.
Qed.
Lemma drop_reset scope live s : rows_drop s (reset scope live s).1.
Proof using Type.
  rw /reset. cbv zeta. destruct scope; cbn [fst]; [apply drop_history|].
  eapply drop_trans; [apply drop_history|apply drop_definitions].
Qed.
Lemma drop_flows_cmd fids s : rows_drop s (delete_flows fids s).1.
Proof using Type.
  rw /delete_flows. cbv zeta. cbn [fst]. eapply drop_trans; [|apply drop_flows].
  rw /rows_drop run_set_event run_set_expectation run_less_kv. done.
Qed.

(** Commands on the other tables. *)
Lemma flow_run_rows now f s : Tables.run (upsert_flow now f s).1 = Tables.run s.
Proof using Type. rw /upsert_flow /new_id. destruct (flow_id_of _ _ _); [done|]. by destruct (existsb _ _). Qed.
Lemma backfill_run_rows now b s : Tables.run (create_backfill now b s).1 = Tables.run s.
Proof using Type. rw /create_backfill /new_id. destruct (existsb _ _); [done|]. by destruct (negb _). Qed.
Lemma rule_run_rows now w s : Tables.run (upsert_rule now w s).1 = Tables.run s.
Proof using Type. rw /upsert_rule /new_id. destruct (rw_id w); [done|]. by destruct (existsb _ _). Qed.
Lemma expired_run_rows t b l s : Tables.run (delete_expired t b l s).1 = Tables.run s.
Proof using Type. rw /delete_expired. destruct (t =?s _); [done|]. by destruct (t =?s _). Qed.
Lemma worker_flows_run_rows wid fs s : Tables.run (set_worker_flows wid fs s).1 = Tables.run s.
Proof using Type. rw /set_worker_flows. cbv zeta. destruct fs; [done|]. by case_bool_decide. Qed.
Lemma flow_rows_run_rows rows fids l s : Tables.run (delete_flow_rows rows fids l s).1 = Tables.run s.
Proof using Type. by destruct rows. Qed.
Lemma agent_run_rows now w s : Tables.run (upsert_agent now w s).1 = Tables.run s.
Proof using Type. rw /upsert_agent /new_id. by repeat case_match; simplify_eq/=. Qed.
Lemma agent_flow_run_rows id f s : Tables.run (set_agent_flow id f s).1 = Tables.run s.
Proof using Type. rw /set_agent_flow. by repeat case_match; simplify_eq/=. Qed.
Lemma approval_run_rows now aid t h r f s : Tables.run (add_approval now aid t h r f s).1 = Tables.run s.
Proof using Type. rw /add_approval. by repeat case_match; simplify_eq/=. Qed.
Lemma approval_less_run_rows aid id s : Tables.run (delete_approval aid id s).1 = Tables.run s.
Proof using Type. rw /delete_approval. by repeat case_match; simplify_eq/=. Qed.
#[local] Hint Resolve approval_less_run_rows upsert_schedule_run add_skips_run delete_skips_run arm_run_rows settle_run_rows
  firing_run_rows message_run_rows claim_run_rows flow_run_rows backfill_run_rows rule_run_rows expired_run_rows
  worker_flows_run_rows flow_rows_run_rows agent_run_rows agent_flow_run_rows approval_run_rows events_run_rows
  event_effect_run_rows task_state_run_rows run_less_rules : run_rows.

#[local] Hint Constants Opaque : run_rows.

(** Every command keeps the rows and lets leases grow, or only deletes rows. *)
Lemma exec_grow c s : leases_grow s (exec_cmd s c) ∨ rows_drop s (exec_cmd s c).
Proof using Type.
  destruct c as [c|now cs|ids st|now f|id e|now w|now id p|now sid fires by_|sid fires|sid before|sid|now b|id
    |x|rid key at_|id status|rid|now w|id|keep|now rid ev run o|id o|now name v t secret|name|now k v|k
    |now rid scope k v e|rid scope k|now rid t q|now rid t i b|rid pid eid|rid q|rid|rid t q|rid|sid|sid|fid|fids
    |t b l|b f k l|scope live|now rid q e|rid h q k|b|now es|now e f|rows fids l|now w|wid fs|now wid m|wid st|wid n
    |wid|now w|id f|id|now aid t h r f|aid id]; cbn [exec_cmd].
  all: try lazymatch goal with
           | |- leases_grow _ (Store.settle _ _) ∨ _ => left; apply settle_same; solve [eauto with run_rows nocore]
           | |- _ => left; apply grow_same; solve [reflexivity|eauto with run_rows nocore]
           end.
  - left. apply sexec_grow.
  - left. apply settle_grow, bulk_grow.
  - left. apply settle_grow, many_grow.
  - left. apply sync_grow.
  - left. by apply grow_alter.
  - left. by apply grow_alter.
  - left. apply bump_grow.
  - left. apply settle_grow, reschedule_grow.
  - right. apply drop_runs.
  - right. apply drop_runs.
  - right. rw /StoreAdmin.delete_schedule. pose proof (drop_runs (λ id, bool_decide (id ∈ ids_where (unstarted sid)
      (Tables.run s))) s) as Hd. rw /delete_unstarted_runs /rows_drop. cbn [fst]. by rw run_less_schedules.
  - right. apply drop_flows.
  - right. apply drop_flows_cmd.
  - right. rw /delete_expired_runs. cbn [fst]. eapply drop_trans; [|apply drop_runs]. by rw /rows_drop run_less_kv.
  - right. apply drop_reset.
  - left. apply settle_grow, attributes_grow.
  - left. apply settle_grow, claim_run_grow.
Qed.

(** The row of a run outlives every command of the sequence. *)
Definition row_stays (rid : Z) (cs : list cmd) (s : Store) : Prop :=
  ∀ k, is_Some (Tables.run (fold_left exec_cmd (take k cs) s) !! rid).

Lemma lease_never_falls rid cs s r :
  row_stays rid cs s → Tables.run s !! rid = Some r →
  ∃ r', Tables.run (fold_left exec_cmd cs s) !! rid = Some r' ∧ r_lease r ≤ r_lease r'.
Proof using Type.
  revert s r. induction cs as [|c cs IH]; intros s r Hk Hr; [exists r; split; [done|lia]|].
  assert (∃ r1, Tables.run (exec_cmd s c) !! rid = Some r1 ∧ r_lease r ≤ r_lease r1) as (r1 & Hr1 & Hl).
  { destruct (exec_grow c s) as [Hg|Hd]; [by apply Hg|].
    destruct (Hk 1%nat) as [r1 Hr1]. cbn [take fold_left] in Hr1. exists r1. split; [done|].
    apply (lookup_weaken _ _ _ _ Hr1) in Hd. assert (r1 = r) as -> by congruence. lia. }
  destruct (IH (exec_cmd s c) r1) as (r2 & Hr2 & Hl2); [|done|exists r2; split; [done|lia]].
  intros k. apply (Hk (S k)).
Qed.
End commands.

Section fencing.
Context `{StoreEnv, PoolEnv, ServerEnv, ScheduleEnv, ReaderEnv, RowEnv, JinjaEnv, ModuleEnv} (o : Ops).

(** A request with the lease of another handoff is refused and changes nothing. *)
Definition turned_away (rid : Z) (header : string) (a : App) : Prop :=
  (∀ b, ∃ v, leased_transition o rid (Some header) b a = (a, Err (Conflict v))) ∧
  (∀ req, rq_run_id req = rid → ∃ v, report o (Some header) req a = (a, Err (Conflict v))) ∧
  (∃ v, heartbeat_request rid (Some header) a = (a, Err (Conflict v))).

Lemma other_lease_turned_away rid header sent current a :
  parse_i64 header = Some sent → StoreRegistry.run_lease rid (store a) = Some current → current ≠ sent →
  turned_away rid header a.
Proof using Type.
  intros Hp Hl Hn. assert (∃ v, check_lease rid (Some header) a = Err (Conflict v)) as [v Hc].
  { rw /check_lease /= Hp Hl. assert ((current =? sent) = false) as -> by (by apply Z.eqb_neq). by eexists. }
  split_and!; [intros b|intros req <-|]; exists v; rw ?/leased_transition ?/report ?/heartbeat_request; by rw Hc.
Qed.

Lemma work_item_lease rid a item :
  build_work_item rid a = Ok (Some item) → StoreRegistry.run_lease rid (store a) = Some (wi_lease item).
Proof using Type.
  rw /build_work_item /StoreRegistry.run_lease /get_run. destruct (Tables.run (store a) !! rid) as [r|]; [|done].
  destruct (join_run (store a) (rid, r)) as [run|] eqn:Ej; [|done].
  destruct (State_is_terminal _); [done|]. destruct (get_flow _ _); [|done]. destruct (lineage _ _) as [[]|]; [|done].
  intros [= <-]. cbn [wi_lease fmap option_fmap option_map]. revert Ej. rw /join_run.
  by destruct (flow (store a) !! _); intros [= <-].
Qed.
Lemma claimed_lease rid a a1 n :
  claim rid a = (a1, Ok n) →
  StoreRegistry.run_lease rid (store a) = Some (n - 1) ∧ StoreRegistry.run_lease rid (store a1) = Some n.
Proof using Type.
  rw /claim. match goal with |- (let '(_, _) := ?e in _) = _ → _ => destruct e as [host slot] end.
  cbv zeta. rw /write /claim_run.
  destruct (Tables.run (store a) !! rid) as [r|] eqn:E; [|done]. cbn [snd Store.settle]. intros [= <- <-].
  rw /StoreRegistry.run_lease E. cbn [set_store store set_run Tables.run]. rw lookup_insert_eq /=.
  split; f_equal. lia.
Qed.
Lemma handed_lease rid req a a1 item :
  hand_out rid req a = (a1, Ok (WReturn (mkWorkResponse (Some item) false))) →
  StoreRegistry.run_lease rid (store a) = Some (wi_lease item - 1) ∧
  StoreRegistry.run_lease rid (store a1) = Some (wi_lease item).
Proof using Type.
  rw /hand_out. cbv zeta. match goal with |- context [claim rid ?x] => set (a0 := x) end.
  assert (StoreRegistry.run_lease rid (store a0) = StoreRegistry.run_lease rid (store a)) as E0.
  { subst a0. rw /StoreRegistry.run_lease. cbn [on_index write_only set_index set_store store set_run_engine set_run
      Tables.run]. rw lookup_alter_eq. by destruct (Tables.run (store a) !! rid). }
  destruct (claim rid a0) as [a' [n|e]] eqn:Ec; [|done]. apply claimed_lease in Ec as [E1 E2].
  destruct (build_work_item rid a') as [[it|]|e] eqn:Eb; [|done..]. intros [= <- <-].
  apply work_item_lease in Eb. cbn [on_supervisor set_supervisor store]. split; [|done]. congruence.
Qed.

(** C7: A run handed to an engine comes with the next lease of the run, and
    whatever commands the writer executes from then on, as long as they do not
    delete the run: an engine that holds an older lease is turned away. Its
    transitions, its reports and its heartbeats are answered with a conflict and
    leave the server as it was. *)
Theorem stale_engine_fenced (rid : Z) (req : WorkRequest) (a a1 a2 : App) (item : WorkItem) (cs : list cmd)
    (header : string) (sent : Z) :
  hand_out rid req a = (a1, Ok (WReturn (mkWorkResponse (Some item) false))) →
  store a2 = fold_left exec_cmd cs (store a1) → row_stays rid cs (store a1) →
  parse_i64 header = Some sent → sent < wi_lease item →
  StoreRegistry.run_lease rid (store a) = Some (wi_lease item - 1) ∧ turned_away rid header a2.
Proof using Type.
  intros Hh Hs Hk Hp Hlt. destruct (handed_lease _ _ _ _ _ Hh) as [H0' H1']. split; [done|].
  rw /StoreRegistry.run_lease in H1'. destruct (Tables.run (store a1) !! rid) as [r|] eqn:Er; [|done].
  injection H1' as Hr. destruct (lease_never_falls _ _ _ _ Hk Er) as (r' & Hr' & Hl).
  eapply (other_lease_turned_away rid header sent (r_lease r')); [done| |lia].
  by rw /StoreRegistry.run_lease Hs Hr'.
Qed.
End fencing.

(** Run 1 of the sample flow, waiting to be handed out, and the engine that asks. *)
Definition one_run : Store :=
  fold_left exec_cmd [CStore (SCreateRun 10 (new_run 1 "a" []))] (store_of [(1, sample_flow_row "etl" [])]).
Definition asking : WorkRequest := mkWorkRequest "engine-1" 71 "/srv" "etl" false 0.
Definition handed (a : App) : App * WorkItem :=
  let '(a1, r) := hand_out 1 asking a in
  (a1, match r with
       | Ok (WReturn (mkWorkResponse (Some item) _)) => item
       | _ => mkWorkItem EmptyString 0 EmptyString EmptyString EmptyString EmptyString VNull VNull false 0 [] [] EmptyString [] false 0 VNull 0
       end).
(** The run is handed out again; the first engine still heartbeats. *)
Lemma stale_engine_fenced_witness :
  let a := (handed (app_of one_run)).1 in
  let a1 := (handed a).1 in
  let cs := [CKvSet 20 "k" "v"; CStore (STransition TableRun 1 (State_new 21 Pending) false)] in
  let a2 := write_only (fold_left exec_cmd cs) a1 in
  wi_lease (handed a).2 = 2 ∧ turned_away (ops 4) 1 "1" a2.
Proof.
  intros a a1 cs a2. split; [vm_compute; reflexivity|].
  apply (stale_engine_fenced (ops 4) 1 asking a a1 a2 (handed a).2 cs "1" 1).
  - vm_compute. reflexivity.
  - reflexivity.
  - intros [|[|[|k]]]; vm_compute; eauto.
  - reflexivity.
  - vm_compute. reflexivity.
Defined.
