(* ===== verification/Hazards.v ===== *)
(** * Where the handlers' composition fails

    Two behaviours that appear only when the components run together: a lock
    taken twice by one task, and a recursion through dispatch that nothing
    bounds.  Each is shown on a small concrete server, for every depth of the
    handlers' recursion from some depth on, or for a family of depths. *)

From S2P Require Import Prelude Float64 Json States Transitions Timer Schedules Model DepGraph Events Unique.
From S2P Require Import RuleMatching RuleTemplates ActiveIndex Resources WorkQueue Pool PoolLaws GroupCommit.
From S2P Require Import Tables Store JsonCodec Reader StoreAdmin Integrity RuleReader Validate App Scheduler.
From S2P Require Import Waits Dispatch RulesEngine Server Session Samples.

(** The server after reconciliation: one run waits for [order.created], the
    other for any event about a run. *)
Definition two_waiters : App :=
  serve (ops 5) (app_of (waiting_store "order.created" "run.*")) InReconcile.


(** Flow 1 runs after itself, one run at a time, and skips what would overlap;
    two of its runs exist. *)
Definition self_after : Map :=
  [("after", VString "etl"); ("max_concurrent", VNumber (NInt 1)); ("on_overlap", VString "skip")].
Definition cyclic_store : Store :=
  fold_left exec_cmd
    [CStore (SCreateRun 10 (new_run 1 "a" [])); CStore (SCreateRun 10 (new_run 1 "b" []))]
    (store_of [(1, sample_flow_row "etl" self_after)]).
(** The first run holds the flow's one slot. *)
Definition slot_taken (a : App) : App :=
  let cap := "flow:shop/etl" in
  on_supervisor (λ s, (try_acquire 1 [(cap, f64_one)] (set_total cap f64_one s)).1) a.
Definition cyclic_server : App := slot_taken (serve (ops 5) (app_of cyclic_store) InReconcile).
(** Enqueueing the second run, with handlers nested at most [n] deep. *)
Definition enqueue_second (n : nat) : App :=
  match get_run 2 cyclic_store, get_flow 1 cyclic_store with
  | Some run, Some flow => serve (ops n) cyclic_server (InEnqueue run flow None)
  | _, _ => cyclic_server
  end.

(** Dispatch recurses without bound on a flow that runs after itself.  A run
    skipped for overlap ends Completed and triggers the flow's next run inside
    the same call; that run overlaps too.  Only skips carried by a parameter are
    counted against MAX_SKIP_DEPTH, so each level of the recursion the stack has
    room for creates one more run. *)
Theorem overlap_skip_recursion :
  (λ n, (halted (enqueue_second n), size (Tables.run (store (enqueue_second n))))) <$> [4; 6; 8]%nat =
  (λ k, (Some OutOfFuel, k)) <$> [5; 7; 9]%nat.
Proof. vm_compute. reflexivity. Qed.

(** ** Catch-up *)

(** A catch-up that keeps only the latest missed fire panics when every
    missed fire is older than the window: it takes the last of an empty list. *)
Theorem catch_up_latest_panics `{StoreEnv, PoolEnv, ServerEnv, ScheduleEnv} (o : Ops) (row : ScheduleRow)
    (since now : Z) (a : App) (fires : list Z) (n : nat) :
  sr_catchup row = Latest →
  fires_between (clock a) (sr_schedule row) since now (Z.to_nat (Z.max (sr_catchup_max row) 1) + 1000) = Ok fires →
  missed now (sr_catchup_window row) (list_skips (sr_id row) (store a))
    (fire_times_of_schedule (sr_id row) since now (store a)) fires = ([], S n) →
  halted a = None →
  halted (catch_up o row since now a) = Some Panicked.
Proof. intros Hp Hf Hm Hh. by rw /catch_up Hf Hm Hp /= Hh. Qed.

(** A schedule that fires each minute, with a window of one second. *)
Definition latest_row : ScheduleRow :=
  mkScheduleRow 1 "schedule-1" 1 (Interval (f64_of_Z 60) (Some 0) None) Latest 100 (Some 1) 0 None true None None
    "ui" None false 0 0 None 0 None.
Lemma catch_up_latest_panics_witness :
  halted (catch_up (ops 2) latest_row 0 90000000 (app_of (store_of [(1, sample_flow_row "etl" [])]))) = Some Panicked.
Proof. apply (catch_up_latest_panics _ latest_row _ _ _ [60000000] 0); vm_compute; reflexivity. Defined.

(** ** Restarts and edits *)


(** Flow 1 allows one run at a time; two of its runs wait to start. *)
Definition capped_store : Store :=
  fold_left exec_cmd
    [CStore (SCreateRun 10 (new_run 1 "a" [])); CStore (SCreateRun 10 (new_run 1 "b" []))]
    (store_of [(1, sample_flow_row "etl" [("max_concurrent", VNumber (NInt 1))])]).
Definition needs_in_line (a : App) : list (Z * list string) :=
  (λ kq, (q_run_id kq.2, (q_needs kq.2).*1)) <$> queue (inner (supervisor a)).
(** The same two runs, admitted by dispatch. *)
Definition admitted (n : nat) : App :=
  fold_left (λ a id, match get_run id capped_store, get_flow 1 capped_store with
                     | Some run, Some flow => serve (ops n) a (InEnqueue run flow None)
                     | _, _ => a
                     end) [1; 2] (app_of capped_store).

(** A restart forgets what queued runs need.  Dispatch queues each run of a
    capped flow with a need for the flow's slot; reconciliation after a restart
    queues the same runs with no needs, so nothing keeps both from running. *)
Theorem reconcile_drops_needs :
  needs_in_line (admitted 5) = [(1, ["flow:shop/etl"]); (2, ["flow:shop/etl"])] ∧
  needs_in_line (serve (ops 5) (app_of capped_store) InReconcile) = [(1, []); (2, [])].
Proof. split; vm_compute; reflexivity. Qed.

(** Schedule 1 of flow 1 with a run of it that waits for [order.created]. *)
Definition scheduled_waiter : Store :=
  fold_left exec_cmd
    ([CUpsertSchedule 5 (mkScheduleWrite None 1 "{}" "skip" 100 None 0 None true "ui" None false);
      CStore (SCreateRun 10
        (mkCreateRun 1 "a" "{}" "[]" "schedule" (Some (State_new 10 Scheduled)) (Some 1) (Some 10) 0 None 0 None None))]
     ++ waits_for 1 "order.created")
    (store_of [(1, sample_flow_row "etl" [])]).

(** Pausing a schedule deletes runs that had started.  A run answered out of
    a pause is Scheduled again with no engine until one takes it; the clean-up
    of unstarted runs takes it for one that never ran and removes it, with its
    history. *)
Theorem resumed_run_dropped :
  let answered := fold_left (serve (ops 8)) [InReconcile; InEvent (event_named "order.created")]
                    (app_of scheduled_waiter) in
  let paused := serve (ops 8) answered (InPauseSchedule 1 None None) in
  (λ r, (c_name (r_cols r), is_some (start_time (r_counters r)))) <$> Tables.run (store answered) !! 1 =
    Some (Some "Resuming", true) ∧
  Tables.run (store paused) !! 1 = None ∧ halted paused = None.
Proof. split; [|split]; vm_compute; reflexivity. Qed.
