(* ===== verification/ApiHazards.v ===== *)
(** * Where requests go wrong

    Behaviours of the API that the code does not mean to have, each on a small
    concrete server: what the reuse of a deleted run's id lets through, a retry
    dispatched before it is seeded, a cancelled backfill that leaves a run
    active, a worker that becomes eligible for code it does not have, and the
    timers a failed reset loses. *)

From S2P Require Import Prelude Float64 Json States Transitions Timer Schedules Model DepGraph Events Unique.
From S2P Require Import RuleMatching RuleTemplates ActiveIndex Resources WorkQueue Pool PoolLaws GroupCommit.
From S2P Require Import Tables Store JsonCodec Reader StoreAdmin StoreRegistry Integrity RuleReader Replay Pages.
From S2P Require Import Validate App Scheduler Health Waits Dispatch RulesEngine ApiRuns ApiEngine ApiSchedules.
From S2P Require Import ApiBackfills ApiObserve ApiWorkers Server ApiFlows Session Samples HandlerLaws Leases.

(** ** Deleted runs *)

Definition plain_body : CreateRunForFlowBody := mkCreateRunForFlowBody [] (Some "again") [] None None None None.
(** Run 1 runs on an engine with lease 1; it is deleted and another run is
    created and handed to another engine. *)
Definition reborn : App :=
  let running := (handed (app_of one_run)).1 in
  let a := fold_left (serve (ops 6)) [InApi (RqDeleteRun 1); InApi (RqCreateRunForFlow None 1 plain_body)] running in
  (hand_out 1 (mkWorkRequest "engine-2" 72 "/srv" "etl" false 0) a).1.

(** Ids of runs are not kept from reuse, and a new run's leases start again: an
    engine whose run was deleted under it holds the lease of the run that took
    its id, and its reports are taken for that run's. *)
Theorem lease_reborn :
  StoreRegistry.run_lease 1 (store reborn) = Some 1 ∧
  r_name <$> Tables.run (store reborn) !! 1 = Some "again" ∧
  (report (ops 6) (Some "1") (mkReportRequest "engine-1" 1
     [Custom 1 "order.created" VNull None None]) reborn).2 = Ok (mkReportResponse 1 0 1 false).
Proof. split; [|split]; vm_compute; reflexivity. Qed.

(** Run 1 failed after its task [load#0] completed with a checkpoint. *)
Definition completed_task : State :=
  with_detail (State_new 13 Completed) "checkpoint"
    (VObject [("input_hash", VString "h"); ("result_ref", VString "r")]).
Definition failed_store : Store :=
  fold_left exec_cmd
    [CStore (SCreateRun 10 (new_run 1 "a" []));
     CStore (STransition TableRun 1 (State_new 11 Pending) false);
     CStore (STransition TableRun 1 (State_new 12 Running) false);
     CStore (SReport 12 1 [TaskRunCreated 1 "task-1" "load" "load" "load#0" [] 0 false;
                           TaskRunTransition 2 "task-1" (State_new 12 Running) false;
                           TaskRunTransition 3 "task-1" completed_task false]);
     CStore (STransition TableRun 1 (State_new 14 Failed) false)]
    (store_of [(1, sample_flow_row "etl" [])]).
Definition retried : App := serve (ops 6) (app_of failed_store) (InApi (RqRetry None 1 None)).
(** The retry, run 2, is cancelled and deleted; a new run takes its id. *)
Definition inherited : App :=
  fold_left (serve (ops 6))
    [InApi (RqCancelRun 2); InApi (RqDeleteRun 2); InApi (RqCreateRunForFlow None 1 plain_body)] retried.

(** Deleting a run leaves the marks a retry was seeded with, under its id.  The
    next run takes the id and with it the checkpoints and the lineage of a run it
    has nothing to do with: its tasks are replayed from another run's results. *)
Theorem deleted_run_leaves_marks :
  r_name <$> Tables.run (store inherited) !! 2 = Some "again" ∧
  r_parent_run_id <$> Tables.run (store inherited) !! 2 = Some None ∧
  cp_result_ref <$> checkpoints 2 (store inherited) = ["r"] ∧
  lineage_root 2 (store inherited) = 1.
Proof. split_and!; vm_compute; reflexivity. Qed.

(** ** Retries *)

(** The state between the two halves of [retry_inner]: the run is in line for an
    engine and none of its marks is written, so an engine that asks now runs it
    from the start. *)
Definition created_retry : App :=
  match get_flow 1 failed_store with
  | Some flow => (create_run_inner (ops 6) flow [] (mkNewRun None [] "retry:1" None (Some (1, 1)) None)
                    (app_of failed_store)).1
  | None => app_of failed_store
  end.
Theorem retry_queued_before_seeded :
  queued 2 (supervisor created_retry) = true ∧ checkpoints 2 (store created_retry) = [] ∧
  cp_result_ref <$> checkpoints 2 (store retried) = ["r"].
Proof. split_and!; vm_compute; reflexivity. Qed.

(** ** Backfills *)

(** A backfill of one run, which waits for an event. *)
Definition paused_backfill : App :=
  let s := fold_left exec_cmd
    ([CCreateBackfill 5 (mkCreateBackfill 1 "day" "1" "1" f64_one 1 1 "{}");
      CStore (SCreateRun 10
        (mkCreateRun 1 "a" "{}" "[]" "backfill:1" (Some (State_new 10 Scheduled)) None None 0 None 0 (Some 1) None))]
     ++ waits_for 1 "order.created") (store_of [(1, sample_flow_row "etl" [])]) in
  serve (ops 6) (app_of s) InReconcile.
(** Cancelling the backfill cancels the paused run in the store; the index is
    told only of runs that were Scheduled or Pending, so it keeps the run among
    the active ones. *)
Theorem cancelled_run_stays_active :
  let a := serve (ops 6) paused_backfill (InApi (RqCancelBackfill 1)) in
  (λ r, c_type (r_cols r)) <$> Tables.run (store a) !! 1 = Some (Some "Cancelled") ∧
  (λ r, state_type (ar_state r)) <$> ActiveIndex.active_runs (index a) = [Paused].
Proof. split; vm_compute; reflexivity. Qed.

(** ** Workers *)

Definition two_flows : Store :=
  store_of [(1, sample_flow_row "etl" []); (2, sample_flow_row "load" [])].
Definition registering (module hash : string) : RegisterBody :=
  mkRegisterBody "w1" "1.2.0" 4 2 [] [] []
    ((λ flow, mkWorkerFlow "shop" flow module hash) <$> ["etl"; "load"]).
Definition eligible_on (wid : Z) (a : App) : option (list Z) :=
  (λ w, elements (w_eligible w)) <$> WorkQueue.workers (WorkQueue.inner (supervisor a)) !! wid.

(** Registration refuses a flow whose module has another name on the worker, as
    drift; the heartbeat judges the stored fingerprints, which do not have the
    name, and makes the worker eligible. *)
Theorem heartbeat_admits_drift :
  let a := serve (ops 6) (app_of two_flows) (InApi (RqRegister (registering "moved" "hash-etl") None)) in
  let a' := serve (ops 6) a (InApi (RqWorkerHeartbeat 1 (mkHeartbeatBody [] [] None))) in
  eligible_on 1 a = Some [] ∧ eligible_on 1 a' = Some [2; 1].
Proof. split; vm_compute; reflexivity. Qed.

(** Both flows of a module differ on the worker.  The page counts the flows it
    has less the modules that differ, and shows one flow it can run. *)
Theorem drifted_flow_counted :
  let a := fold_left (serve (ops 6))
             [InApi (RqRegister (registering "etl" "other") None);
              InApi (RqWorkerHeartbeat 1 (mkHeartbeatBody [] [] None))] (app_of two_flows) in
  eligible_on 1 a = Some [] ∧ (λ v, (wv_flows v, wv_drift v)) <$> views a = [(1, ["etl"])].
Proof. split; vm_compute; reflexivity. Qed.

(** ** The reset *)

Definition expecting_store : Store :=
  fold_left exec_cmd
    [CUpsertRule 5 (mkRuleWrite None "r" true "ui" None "{}"); CArm (mkArmExpectation 1 "k" None None 5 9000000)]
    (store_of [(1, sample_flow_row "etl" [])]).
Definition armed (a : App) : list TimerEvent := e_event <$> live_of (Timer.inner (timer a)).
Definition expected (e : TimerEvent) : bool := match e with Timer.Expectation _ => true | _ => false end.
Definition open_keys (s : Store) : list string := (λ x, x_key x.2) <$> map_to_list (expectation (defs s)).

(** The reset clears the timers first and loads the rules again when it ends,
    which arms their clocks but not their open expectations: when the copy fails
    and nothing is deleted, the expectations stay open and never lapse. *)
Theorem failed_reset_drops_expectations :
  let a := fold_left (serve (ops 6)) [InReconcile; InLoadRules; InStart false] (app_of expecting_store) in
  let a' := serve (ops 6) a (InApi (RqReset (Some "history") (Some true) (Err "disk full"))) in
  List.filter expected (armed a) = [Timer.Expectation 1] ∧ List.filter expected (armed a') = [] ∧
  open_keys (store a') = open_keys (store a).
Proof. split_and!; vm_compute; reflexivity. Qed.

(** ** Flows *)

Definition scheduled_flow : Store :=
  fold_left exec_cmd
    [CUpsertSchedule 5 (mkScheduleWrite None 1 "{}" "skip" 100 None 0 None true "ui" None false)]
    (store_of [(1, sample_flow_row "etl" [])]).
(** Deleting a flow deletes its schedules in the store; the scheduler keeps them
    in its memory, where deleting the project would have removed them. *)
Theorem deleted_flow_keeps_schedules :
  let a := serve (ops 6) (app_of scheduled_flow) (InStart false) in
  let flow := serve (ops 6) a (InApi (RqDeleteFlow 1)) in
  let project := serve (ops 6) a (InApi (RqDeleteProject "shop")) in
  (schedule (defs (store flow)) = ∅ ∧ (map_to_list (schedules flow)).*1 = [1]) ∧
  (schedule (defs (store project)) = ∅ ∧ schedules project = ∅).
Proof. split_and!; vm_compute; reflexivity. Qed.

(** ** Events *)

(** The endpoint is meant for custom events; a name the engine owns passes its
    check, and the event is recorded as if the engine had emitted it. *)
Theorem engine_event_minted :
  let body := mkEmitEventBody "run.completed" [] None None None in
  (λ e, ev_name e) <$> (match (emit_event (ops 6) body (app_of two_flows)).2 with Ok e => Some e | Err _ => None end)
  = Some "run.completed".
Proof. vm_compute. reflexivity. Qed.
