(* ===== verification/ApiLaws.v ===== *)
(** * What the requests promise

    A retry executes again exactly the calls that depend on what it retries and
    keeps the results of the others; a heartbeat makes a worker eligible for
    exactly the flows whose code it has. *)

From S2P Require Import Prelude Float64 Json States Transitions Timer Schedules Model DepGraph Events Unique.
From S2P Require Import RuleMatching RuleTemplates ActiveIndex Resources WorkQueue Pool PoolLaws GroupCommit.
From S2P Require Import Tables Store JsonCodec Reader StoreAdmin StoreRegistry Integrity RuleReader Replay Pages.
From S2P Require Import Validate App Scheduler Health Waits Dispatch RulesEngine ApiRuns ApiEngine ApiSchedules.
From S2P Require Import ApiBackfills ApiObserve ApiWorkers Server ApiFlows Session Samples Leases ApiHazards.

(** ** Retries *)

(** The calls a retry executes again: its roots, and every call one of whose
    recorded parents is executed again. *)
Inductive redone (latest : list TaskRun) (roots : list string) : string → Prop :=
| redone_root k : k ∈ roots → redone latest roots k
| redone_after t p k :
    t ∈ latest → p ∈ tr_parents t → key_of latest !! p = Some k → redone latest roots k →
    redone latest roots (tr_dynamic_key t).

Definition pass_step (latest : list TaskRun) (out : gset string) (t : TaskRun) : gset string :=
  if bool_decide (tr_dynamic_key t ∈ out) then out
  else if waits_on (key_of latest) out t then {[tr_dynamic_key t]} ∪ out else out.

Lemma waits_on_spec keys out t :
  waits_on keys out t = true ↔ ∃ p k, p ∈ tr_parents t ∧ keys !! p = Some k ∧ k ∈ out.
Proof.
  rw /waits_on existsb_exists. split.
  - intros (p & Hp & Hk). destruct (keys !! p) as [k|] eqn:E; [|done]. apply bool_decide_eq_true in Hk.
    exists p, k. split; [by apply list_elem_of_In|done].
  - intros (p & k & Hp & E & Hk). exists p. split; [by apply list_elem_of_In|]. rw E. by apply bool_decide_eq_true.
Qed.
Lemma pass_step_grows latest out t : out ⊆ pass_step latest out t.
Proof. rw /pass_step. case_bool_decide; [done|]. destruct (waits_on _ _ _); set_solver. Qed.
Lemma pass_grows latest l out : out ⊆ fold_left (pass_step latest) l out.
Proof.
  revert out. induction l as [|t l IH]; intros out; simpl; [done|].
  etrans; [apply (pass_step_grows latest out t)|apply IH].
Qed.
Lemma pass_step_sound latest roots out t :
  (∀ k, k ∈ out → redone latest roots k) → t ∈ latest →
  ∀ k, k ∈ pass_step latest out t → redone latest roots k.
Proof.
  intros Ho Ht k. rw /pass_step. case_bool_decide; [apply Ho|].
  destruct (waits_on _ _ _) eqn:E; [|apply Ho]. apply waits_on_spec in E as (p & k' & Hp & Hk & Hin).
  intros [->%elem_of_singleton|?]%elem_of_union; [|by apply Ho]. eapply redone_after; eauto.
Qed.
Lemma pass_sound latest roots l out :
  l ⊆ latest → (∀ k, k ∈ out → redone latest roots k) →
  ∀ k, k ∈ fold_left (pass_step latest) l out → redone latest roots k.
Proof.
  revert out. induction l as [|t l IH]; intros out Hl Ho; simpl; [done|].
  apply IH; [set_solver|]. apply pass_step_sound; [done|set_solver].
Qed.
(** A pass that adds nothing finds every call settled. *)
Lemma pass_settled latest l out t k p :
  fold_left (pass_step latest) l out = out → t ∈ l → p ∈ tr_parents t → key_of latest !! p = Some k → k ∈ out →
  tr_dynamic_key t ∈ out.
Proof.
  intros Hf Ht Hp Hk Hin. revert Hf. induction l as [|u l IH]; [set_solver|]. simpl. intros Hf.
  assert (pass_step latest out u = out) as Hu.
  { pose proof (pass_step_grows latest out u). pose proof (pass_grows latest l (pass_step latest out u)).
    rw Hf in H0. set_solver. }
  rw Hu in Hf. apply elem_of_cons in Ht as [<-|Ht]; [|by apply IH].
  revert Hu. rw /pass_step. case_bool_decide; [done|]. rw (proj2 (waits_on_spec _ _ _)); [set_solver|by exists p, k].
Qed.

(** The keys a pass can still add. *)
Definition open_keys_of (latest : list TaskRun) (out : gset string) : gset string :=
  list_to_set (tr_dynamic_key <$> latest) ∖ out.
Lemma pass_adds_keys latest l out :
  l ⊆ latest → fold_left (pass_step latest) l out ⊆ out ∪ list_to_set (tr_dynamic_key <$> latest).
Proof.
  revert out. induction l as [|t l IH]; intros out Hl; simpl; [set_solver|].
  etrans; [apply IH; set_solver|].
  assert (tr_dynamic_key t ∈@{gset string} list_to_set (tr_dynamic_key <$> latest)).
  { apply elem_of_list_to_set, list_elem_of_fmap. exists t. split; [done|set_solver]. }
  rw {1}/pass_step. case_bool_decide; [done|]. destruct (waits_on _ _ _); set_solver.
Qed.

Lemma downstream_loop_exact latest roots n out :
  (size (open_keys_of latest out) < n)%nat →
  (∀ k, k ∈ roots → k ∈ out) → (∀ k, k ∈ out → redone latest roots k) →
  ∀ k, k ∈ downstream_loop n latest out ↔ redone latest roots k.
Proof.
  revert out. induction n as [|n IH]; intros out Hn Hr Ho; [lia|]. cbn [downstream_loop]. cbv zeta.
  change (downstream_pass latest out) with (fold_left (pass_step latest) latest out).
  pose proof (pass_grows latest latest out) as Hg. pose proof (pass_adds_keys latest latest out ltac:(done)) as Ha.
  pose proof (pass_sound latest roots latest out ltac:(done) Ho) as Hs.
  destruct (Nat.eqb_spec (size (fold_left (pass_step latest) latest out)) (size out)) as [He|Hne].
  - assert (fold_left (pass_step latest) latest out = out) as Hfix.
    { symmetry. apply set_subseteq_size_eq; [done|lia]. }
    rw Hfix. intros k. split; [apply Ho|]. induction 1 as [k Hk|t p k Ht Hp Hk _ IHk]; [by apply Hr|].
    by eapply pass_settled.
  - revert Hg Ha Hs Hne. generalize (fold_left (pass_step latest) latest out). intros out' Hg Ha Hs Hne.
    apply IH; [|by eauto|done].
    assert (size out < size out')%nat by (pose proof (subseteq_size _ _ Hg); lia).
    destruct (set_choose_or_empty (out' ∖ out)) as [[x [Hx Hnx]%elem_of_difference]|He].
    2:{ assert (out' ⊆ out) as Hsub by (clear - He; set_solver). apply subseteq_size in Hsub. lia. }
    assert (size (open_keys_of latest out') < size (open_keys_of latest out))%nat; [|lia].
    apply subset_size. rw /open_keys_of. clear - Hg Ha Hx Hnx. set_solver.
Qed.

Lemma size_keys (l : list string) : (size (list_to_set l : gset string) ≤ length l)%nat.
Proof.
  induction l as [|x l IH]; cbn [list_to_set length]; [by rw (size_empty (C := gset string))|].
  pose proof (size_union_alt {[x]} (list_to_set l : gset string)) as Hu. rw size_singleton in Hu.
  assert (size ((list_to_set l : gset string) ∖ {[x]}) ≤ size (list_to_set l : gset string))%nat
    by (apply subseteq_size; set_solver). lia.
Qed.
Lemma downstream_exact latest roots k : k ∈ downstream latest roots ↔ redone latest roots k.
Proof.
  apply downstream_loop_exact.
  - assert (size (open_keys_of latest (list_to_set roots)) ≤ size (list_to_set (C := gset string) (tr_dynamic_key <$> latest)))%nat
      by (apply subseteq_size; rw /open_keys_of; set_solver).
    pose proof (size_keys (tr_dynamic_key <$> latest)) as Hl. rw length_fmap in Hl. lia.
  - intros x Hx. by apply elem_of_list_to_set.
  - intros x Hx%elem_of_list_to_set. by constructor.
Qed.

(** Where a retry starts over. *)
Definition retry_roots (latest : list TaskRun) (from : string) : list string :=
  if from =?s "start" then tr_dynamic_key <$> latest
  else if from =?s "failure" then tr_dynamic_key <$> List.filter not_completed latest
  else [from].

(** C18: What a retry executes again, and what it replays. The search over the
    recorded parents always ends. A retry is refused exactly when it names a call
    that the last pass did not make. Otherwise a call is executed again exactly
    when it is one of the roots (all calls, the calls that did not complete, or
    the call named) or waited, directly or through others, on one that is; and
    the checkpoints the new run is seeded with are exactly the original's whose
    call is not executed again, none for a retry from the start. *)
Theorem retry_exact `{StoreEnv} (original : Z) (from : string) (s : Store) :
  let latest := latest_pass original s in
  match invalidated_by latest from with
  | None => from ≠ "start" ∧ from ≠ "failure" ∧ from ∉ tr_dynamic_key <$> latest
  | Some again =>
      (∀ k, k ∈ again ↔ redone latest (retry_roots latest from) k) ∧
      (∀ c, c ∈ retry_seed original from again s ↔
         from ≠ "start" ∧ c ∈ checkpoints original s ∧ cp_dynamic_key c ∉ again)
  end.
Proof.
  intros latest. rw /invalidated_by /retry_roots /retry_seed.
  assert (∀ (l : list Checkpoint) again c,
    c ∈ List.filter (λ c, negb (bool_decide (cp_dynamic_key c ∈ (again : gset string)))) l ↔
    c ∈ l ∧ cp_dynamic_key c ∉ again) as Hseed.
  { intros l again c. rw !list_elem_of_In filter_In negb_true_iff bool_decide_eq_false. done. }
  destruct (String.eqb_spec from "start") as [->|Hst].
  - split; [intros k|intros c; split; [set_solver|by intros [? _]]].
    split; [intros Hk%elem_of_list_to_set; by constructor|].
    induction 1 as [k Hk|t p k Ht]; apply elem_of_list_to_set; [done|].
    apply list_elem_of_fmap. by exists t.
  - destruct (String.eqb_spec from "failure") as [->|Hfa].
    + split; [intros k; apply downstream_exact|]. intros c. rw Hseed. naive_solver.
    + destruct (existsb _ _) eqn:E.
      * split; [intros k; apply downstream_exact|]. intros c. rw Hseed. naive_solver.
      * split_and!; [done|done|]. intros (t & -> & Ht)%list_elem_of_fmap.
        assert (existsb (λ u, tr_dynamic_key u =?s tr_dynamic_key t) latest = true) as E'; [|congruence].
        apply existsb_exists. exists t. split; [by apply list_elem_of_In|]. by apply String.eqb_eq.
Qed.

(** ** Workers *)

Section eligible.
Context `{StoreEnv, PoolEnv, ServerEnv, ScheduleEnv, ReaderEnv, RowEnv, JinjaEnv, ModuleEnv, SecretEnv}.

(** The worker's fingerprint of the flow is the server's. *)
Definition has_code (s : Store) (wid fid : Z) : Prop :=
  ∃ hash f, worker_flow (registry (defs s)) !! (wid, fid) = Some hash ∧ flow s !! fid = Some f ∧
            module_hash (fl_source_dir f) (fl_module f) = Some hash.

Lemma judge_all l ed fid :
  fid ∈ (fold_left judge_stored l ed).1 ↔
  fid ∈ ed.1 ∨ ∃ dir m hash, (fid, dir, m, hash) ∈ l ∧ module_hash dir m = Some hash.
Proof using Type.
  revert ed. induction l as [|[[[id dir] m] hash] l IH]; intros ed; simpl; [set_solver|].
  rw IH. case_bool_decide as Hh; cbn [fst]; [rw elem_of_union elem_of_singleton|];
    setoid_rewrite elem_of_cons; naive_solver.
Qed.
Lemma details_spec wid s fid dir m hash :
  (fid, dir, m, hash) ∈ worker_flow_details wid s ↔
  ∃ f, worker_flow (registry (defs s)) !! (wid, fid) = Some hash ∧ flow s !! fid = Some f ∧
       dir = fl_source_dir f ∧ m = fl_module f.
Proof using Type.
  rw /worker_flow_details list_elem_of_omap. split.
  - intros ([[w id] h] & Hin & Hf). apply elem_of_map_to_list in Hin. cbn [fst snd] in Hf.
    destruct (Z.eqb_spec w wid) as [->|]; [|done]. apply fmap_Some in Hf as (f & Hf & [= -> -> -> ->]).
    by exists f.
  - intros (f & Hw & Hf & -> & ->). exists ((wid, fid), hash). split; [by apply elem_of_map_to_list|].
    cbn [fst snd]. by rw Z.eqb_refl Hf.
Qed.
Lemma evaluate_stored_exact wid s fid : fid ∈ (evaluate_stored wid s).1 ↔ has_code s wid fid.
Proof using Type.
  rw /evaluate_stored. cbn [fst]. rw judge_all. setoid_rewrite details_spec. rw /has_code. cbn [fst]. split.
  - intros [?|(dir & m & hash & (f & ? & ? & -> & ->) & ?)]; [set_solver|by exists hash, f].
  - intros (hash & f & ? & ? & ?). right. exists (fl_source_dir f), (fl_module f), hash. split; [by exists f|done].
Qed.

Lemma touch_keeps_code now wid meta s w fid : has_code (touch_worker now wid meta s) w fid ↔ has_code s w fid.
Proof using Type. done. Qed.
Lemma synced inst wid name n st el s :
  ∃ slot, WorkQueue.workers (WorkQueue.inner (sync_worker inst wid name n st el s)) !! wid = Some slot ∧
          w_eligible slot = el.
Proof using Type.
  rw /sync_worker. cbv zeta. destruct (WorkQueue.workers (WorkQueue.inner s) !! wid) as [w|];
    cbn [with_inner WorkQueue.inner set_workers WorkQueue.workers]; rw lookup_insert_eq; by eexists.
Qed.
Lemma beaten inst wid reported s slot :
  WorkQueue.workers (WorkQueue.inner s) !! wid = Some slot →
  ∃ slot', WorkQueue.workers (WorkQueue.inner (worker_heartbeat inst wid reported s).1) !! wid = Some slot' ∧
           w_eligible slot' = w_eligible slot.
Proof using Type.
  intros Hs. rw /worker_heartbeat Hs. cbv zeta. cbn [fst with_inner WorkQueue.inner retain_engines set_engines set_workers
    WorkQueue.workers]. rw lookup_insert_eq. eexists. split; [done|]. by destruct (_ =?s _).
Qed.

(** After a heartbeat that is accepted, the supervisor may give the worker a
    run of exactly the flows whose code it has: those for which the fingerprint
    it reported last is the one the server computes from its own files now. *)
Theorem heartbeat_eligible (wid : Z) (b : HeartbeatBody) (a a' : App) (r : HeartbeatResponse) :
  ApiWorkers.heartbeat wid b a = (a', Ok r) →
  ∃ slot, WorkQueue.workers (WorkQueue.inner (supervisor a')) !! wid = Some slot ∧
          ∀ fid, fid ∈ w_eligible slot ↔ has_code (store a') wid fid.
Proof using Type.
  rw /ApiWorkers.heartbeat. destruct (get_worker wid (store a)) as [w|]; [|done].
  destruct (refresh_flows wid (hb_flows b) a) as [a1 [u|e]]; [|done].
  pose proof (evaluate_stored_exact wid (store a1)) as He.
  destruct (evaluate_stored wid (store a1)) as [eligible drift]. cbn [fst] in He. cbv zeta.
  match goal with |- context [on_supervisor (sync_worker ?x ?y ?z ?n ?st ?el) a1] =>
    destruct (synced x y z n st el (supervisor a1)) as (slot & Hs & Hel); set (a2 := on_supervisor _ a1) end.
  change (supervisor a2) with (sync_worker (instant a1) wid (wk_name w) (wk_processors w)
    (if default (wk_state w) (wk_state <$> get_worker wid (store a1)) =?s "offline" then "online"
     else default (wk_state w) (wk_state <$> get_worker wid (store a1))) eligible (supervisor a1)).
  destruct (beaten (instant a2) wid (hb_engines b) _ slot Hs) as (slot' & Hs' & Hel').
  destruct (worker_heartbeat _ _ _ _) as [sup [commands|]]; [|done]. cbn [fst] in Hs'. intros [= <- _].
  exists slot'. rw Hel' Hel. destruct (wk_state w =?s "offline"); by split.
Qed.
End eligible.

(** A worker with one flow whose code it has and one it has not. *)
Lemma heartbeat_eligible_witness :
  let a := serve (ops 6) (app_of two_flows)
             (InApi (RqRegister (mkRegisterBody "w1" "1.2.0" 4 2 [] [] []
                [mkWorkerFlow "shop" "etl" "etl" "hash-etl"; mkWorkerFlow "shop" "load" "etl" "other"]) None)) in
  let a' := (ApiWorkers.heartbeat 1 (mkHeartbeatBody [] [] None) a).1 in
  eligible_on 1 a' = Some [1] ∧
  ∃ slot, WorkQueue.workers (WorkQueue.inner (supervisor a')) !! 1 = Some slot ∧
          ∀ fid, fid ∈ w_eligible slot ↔ has_code (store a') 1 fid.
Proof.
  intros a a'. split; [vm_compute; reflexivity|].
  destruct (ApiWorkers.heartbeat 1 (mkHeartbeatBody [] [] None) a) as [a2 [r|e]] eqn:E.
  - exact (heartbeat_eligible 1 (mkHeartbeatBody [] [] None) a a2 r E).
  - exfalso. apply (f_equal snd) in E. vm_compute in E. discriminate E.
Defined.

(** ** Health *)

(** A flow that is to complete every minute and last did two minutes ago. *)
Definition minutely : FlowOptions :=
  mkFlowOptions false false 0 None "enqueue" [] None None 0 None None [] false false None None None
    (Some (f64_of_Z 60)) None None None None.
