(* ===== verification/McpLaws.v ===== *)
(** * Tools, settings and agents on a concrete server

    The witnesses of what is claimed of the MCP endpoint, of the settings and of
    agents, on the servers of [Samples]; a tool that does what the request of the
    same name refuses; and what registering an agent does to a flow of its name
    and leaves out of the index. *)

From S2P Require Import Prelude Float64 Json States Transitions Timer Schedules Model DepGraph Events Unique.
From S2P Require Import RuleMatching RuleTemplates ActiveIndex Resources WorkQueue Pool PoolLaws GroupCommit.
From S2P Require Import Tables Store JsonCodec Reader StoreAdmin StoreRegistry Integrity RuleReader Replay Pages.
From S2P Require Import Mcp ApiAgents Validate App Scheduler Health Waits Dispatch RulesEngine ApiRuns ApiEngine ApiSchedules.
From S2P Require Import ApiBackfills ApiObserve ApiWorkers ApiSettings Server ApiFlows Session Samples.

Definition open_config (read_only : bool) : McpConfig := mkMcpConfig read_only false false "1.4.0" None 4 "default".

(** A flow with a parameter that is a date. *)
Definition daily_row : FlowRow :=
  let schema := VObject [("properties", VObject [("day", VObject [("format", VString "date")])])] in
  mkFlowRow "flow-etl" "shop" "etl" "etl" "/srv" None "[]" (print_value schema) 0 0 None "{}" None.
Definition daily : App := app_of (store_of [(1, daily_row)]).

Definition backfill_args : Map :=
  [("dry_run", VBool false); ("end", VString "day 3"); ("flow", VString "etl"); ("parameter", VString "day");
   ("start", VString "day 1")].

(** The request for a backfill is refused while the database is being reset;
    the tool of the same name creates the backfill and its runs all the same. *)
Theorem mcp_backfill_ignores_reset :
  let a := set_resetting true daily in
  (create_backfill_request (ops 6) 1 (backfill_body backfill_args) a).2
    = Err (Unavailable "the database is being reset; try again in a moment") ∧
  let a' := serve (ops 6) a (InApi (RqTool (open_config false) "agent" None "backfill" backfill_args)) in
  size (Tables.run (store a')) = 3%nat ∧ halted a' = None.
Proof. split; [|split]; vm_compute; reflexivity. Qed.

(** The message an agent sends to call a tool. *)
Definition tools_call_message (name : string) (args : Map) : string :=
  print_value (VObject [("id", num 1); ("method", VString "tools/call");
                        ("params", VObject [("arguments", VObject args); ("name", VString name)])]).

(** The same call creates three runs on a server that is not read-only and
    leaves a read-only one as it was. *)
Lemma read_only_endpoint_witness :
  let post cfg := handle_post (ops 6) cfg (Some "application/json") None None "s-1"
                    (tools_call_message "backfill" backfill_args) ∅ daily in
  size (Tables.run (store (post (open_config false)).1.2)) = 3%nat ∧ (post (open_config true)).1.2 = daily.
Proof.
  intros post. split; [vm_compute; reflexivity|].
  exact (read_only_endpoint (ops 6) (open_config true) _ _ _ _ _ _ daily eq_refl).
Defined.

(** An agent that introduces itself gets a session. *)
Lemma sessions_bounded_witness :
  let hello := print_value (VObject [("id", num 1); ("method", VString "initialize")]) in
  let m := (handle_post (ops 6) (open_config false) (Some "application/json") None None "s-1" hello ∅ daily).1.1 in
  size m = 1%nat ∧ (size m ≤ MAX_SESSIONS)%nat.
Proof.
  intros hello m. split; [vm_compute; reflexivity|].
  refine (proj1 (sessions_bounded (ops 6) (open_config false) _ _ _ _ _ ∅ daily _)). rw map_size_empty. lia.
Defined.

(** A person sets the retention, the crash retries and the engine count; a
    server with other defaults starts on the store. *)
Definition edit : SettingsPatch :=
  mkSettingsPatch None (λ s, match s with RetainDays => Some 7 | BackupEvery => Some 24 | _ => None end)
    (Some 5) (Some 2) None.
Definition no_edits : Edits := mkEdits DEFAULT_TITLE ∅.
Definition edited : Edits * App * result unit ApiError := patch_settings 4 edit (Ok tt) no_edits daily.
Definition fresh_app : App := app_of (store edited.1.2).
Definition restarted : Edits * App := load_settings 4 true no_edits fresh_app.

Lemma edited_ok : edited = (edited.1.1, edited.1.2, Ok tt).
Proof. assert (edited.2 = Ok tt) as E by (vm_compute; reflexivity). revert E. generalize edited. intros [[e a] r]. by intros [= ->]. Qed.
Lemma store_app_of s : store (app_of s) = s.
Proof. reflexivity. Qed.
Lemma fresh_store : store fresh_app = store edited.1.2.
Proof. exact (store_app_of _). Qed.
Lemma edit_bounds s v : sp_slots edit s = Some v → v ≤ i64_MAX.
Proof. destruct s; intros E; vm_compute in E; simplify_eq; vm_compute; discriminate. Qed.


(** ** Agents *)

Definition allowlist : AgentsConfig := mkAgentsConfig ["npx"] ["https://*.internal.example.com/mcp"] f64_zero.
Definition helper (project name : string) : AgentDefinition := bare_definition project name "openai:gpt-5".
Definition created : App * result AgentResponse ApiError := create_agent allowlist "/srv" (helper "agents" "helper") daily.

Lemma accepted_agent_runs_witness :
  ∃ r fid, created.2 = Ok r ∧ ag_flow_id (ar_row r) = Some fid ∧ runs_as "agents" "helper" fid created.1.
Proof.
  assert (Hok : is_some (match created.2 with Ok r => Some r | Err _ => None end) = true) by (vm_compute; reflexivity).
  revert Hok. unfold created. destruct (create_agent _ _ _ _) as [a' [r|e]] eqn:E; intros Hok; [|discriminate Hok].
  destruct (accepted_agent_runs _ _ _ _ _ _ (or_introl E)) as (_ & _ & _ & _ & _ & _ & fid & Hf & Hr).
  exists r, fid. split; [reflexivity|]. split; [exact Hf|exact Hr].
Defined.

(** An agent with the project and the name of a flow takes the flow over: its
    module is the runner's from then on. *)
Theorem agent_takes_over_flow :
  let a := (create_agent allowlist "/srv" (helper "shop" "etl") daily).1 in
  fl_module <$> flow (store daily) !! 1 = Some "etl" ∧ fl_module <$> flow (store a) !! 1 = Some RUNNER_MODULE ∧
  ag_flow_id <$> list_agents (store a) = [Some 1].
Proof. split; [|split]; vm_compute; reflexivity. Qed.

(** The flow of an agent created while the server runs has no project in the
    index, which every count by project goes by; a flow that registers through a
    run of it does. *)
Theorem agent_flow_without_project :
  let a := created.1 in
  (λ f, (fl_project f, fl_name f)) <$> flow (store a) !! 2 = Some ("agents", "helper") ∧
  flow_projects (index a) !! 2 = None.
Proof. split; vm_compute; reflexivity. Qed.
